(* ===== verification/_CoqProject ===== *)
-Q . S2P
Prelude.v
GoBig.v
CommonMath.v
CommonTypes.v
Params.v
Rlp.v
RlpDecode.v
RlpDecodeOk.v
RlpDecodeTheorems.v
Heap.v
Keccakf.v
KeccakfOk.v
Sha3.v
Sha3Ok.v
VmTypes.v
TrieEncoding.v
TrieTree.v
TrieEdit.v
TrieNode.v
TrieRep.v
Trie.v
TrieOk.v
TrieHash.v
TrieMap.v
StateSpec.v
VmOpcodes.v
VmGas.v
VmLogic.v
VmInstr.v
VmSpec.v
VmJumpTable.v
VmInterp.v
VmExec.v
VmGasOk.v
VmStep.v
VmSafety.v
StateDB.v
StateCommit.v
StateDBLaws.v
StateSync.v
StateCommitOk.v
BlockState.v
Concrete.v
TrieTheorems.v
TrieProof.v
StateSecure.v
StateRefinement.v
StateTheorems.v
StateTransition.v
TxTypes.v
BlockTypes.v
DeriveSha.v
Tilthash.v
TilthashOk.v
Sha3Theorems.v
Consensus.v
StateProcessor.v
ConsensusOk.v
ChainDb.v
ChainDbOk.v
ChainTables.v
Genesis.v
HeaderChain.v
HeaderChainOk.v
HeaderChainTheorems.v
BlockChain.v
BlockChainOk.v
BlockChainReorg.v
BlockChainInsert.v
BlockChainStart.v
BlockChainTheorems.v
TxSigning.v
TxList.v
TxListOk.v
TxListTheorems.v
StateTransitionOk.v
StateProcessorOk.v
VmTheorems.v
