(* ===== verification/Prelude.v ===== *)
(** * go-tilt: the execution core and the chain

    A shallow embedding of the consensus-critical part of go-tilt, the Go node of the
    Tiltnet chain, with the theorems that make it correct.  File and function names below
    are those under [src/].

    ** The program

    A node keeps a tree of blocks.  [core/blockchain.go] takes chains of blocks, has their
    headers verified by the engine ([consensus/tilthash]), validates bodies and results
    ([core/block_validator.go]), runs the transactions ([core/state_processor.go]), stores
    everything in a key-value database ([core/database_util.go], [core/headerchain.go]) and
    keeps the heaviest block and its ancestors canonical, starting from the genesis block
    ([core/genesis.go]).  Running a transaction checks its signature ([core/types]) and
    applies a message ([core/state_transition.go], [core/gaspool.go]): nonce, purchase of
    gas, virtual machine, refund, fee.  The machine ([core/vm]) interprets contract code on
    a stack, a byte memory and the state; contracts call and create contracts, and a failed
    call is undone.  The state ([core/state]) keeps accounts over Merkle tries ([trie]),
    records every change in a journal and undoes entries to go back to a snapshot.  Pending
    transactions wait in lists sorted by nonce ([core/tx_list.go]).  Below these are RLP
    ([rlp]), Keccak ([crypto/sha3]), 256-bit arithmetic and byte strings ([common],
    [common/math]) and the protocol constants ([params]).

    ** The files

    - Foundations.  [Prelude]: outcomes of Go calls, a state monad, wrap-around of machine
      integers, Go slices and indices over lists, tactics and hint databases.  [GoBig]:
      the operations of [math/big] in use.  [CommonMath], [CommonTypes], [Params]: the
      packages of these names.  [Heap]: [container/heap].
    - RLP.  [Rlp]: modules [Raw] for [raw.go] and [Enc] for [encode.go].  [RlpDecode]: module
      [Dec] for [decode.go]; [RlpDecodeOk], [RlpDecodeTheorems] (canonical encodings, round
      trips).
    - Keccak.  [Keccakf], [KeccakfOk]: the permutation; [Sha3], [Sha3Ok], [Sha3Theorems]: the
      sponge, and the hashes of [crypto.go] on it.
    - Trie.  [TrieEncoding], [TrieNode], [Trie]: [encoding.go], [node.go] with [hasher.go],
      [trie.go] with [secure_trie.go] and [proof.go].  [TrieTree], [TrieEdit]: trees as
      mathematical objects.  [TrieRep], [TrieOk], [TrieHash], [TrieMap], [TrieTheorems],
      [TrieProof]: nodes represent trees, operations act on maps, hashes identify maps,
      commits can be reopened, proofs are sound and complete.
    - Virtual machine.  [VmTypes]: [stack.go], [memory.go], [contract.go], [interface.go] and
      the parts of [crypto.go] in use.  [VmOpcodes], [VmGas], [VmInstr], [VmJumpTable],
      [VmInterp]: opcodes, gas and memory rules, instructions, table, interpreter and entry
      points.  [VmLogic] (program logic), [VmSpec] (what instructions compute), [VmExec],
      [VmGasOk], [VmStep] (each instruction and table entry is safe), [VmSafety] (so are the
      loop, calls and creation; recursion bounds), [VmTheorems].
    - State.  [StateSpec]: the contract between machine and state.  [StateDB], [StateCommit]:
      [statedb.go], [state_object.go], [journal.go], in memory and when written.
      [StateDBLaws], [StateRefinement] (the journal), [StateSync], [StateCommitOk],
      [StateSecure], [StateTheorems] (roots and commits, over the tries).
      [BlockState]: what blocks ask of the state.
    - Messages and blocks.  [StateTransition], [StateTransitionOk]: messages.  [TxTypes],
      [TxSigning]: transactions and signers.  [TxList], [TxListOk], [TxListTheorems]:
      [tx_list.go].  [BlockTypes]: headers, blocks, receipts, blooms.  [DeriveSha]:
      [derive_sha.go] and [NewBlock].  [StateProcessor], [StateProcessorOk]: running a block.
    - Consensus.  [Consensus], [ConsensusOk]: [consensus.go].  [Tilthash], [TilthashOk]:
      [algorithm.go].
    - Chain.  [ChainDb], [ChainDbOk], [ChainTables]: the layout of the database, blooms and
      the tables next to the chain.  [Genesis]: [genesis.go] and [params/config.go].
      [HeaderChain], [HeaderChainOk], [HeaderChainTheorems]: [headerchain.go].
      [BlockChain]: [blockchain.go] and [block_validator.go]; [BlockChainOk] (what the
      database and the caches hold), [BlockChainReorg] (reorganising and writing),
      [BlockChainInsert] (inserting), [BlockChainStart] (opening on a genesis block),
      [BlockChainTheorems].
    - [Concrete]: a small hash, store and genesis state to evaluate with.

    ** How Go is represented

    Integers are [Z]; [u64] and the like write the wrap-around of machine integers out, and
    a [*big.Int] is its value.  Bytes are integers in a list, with [is_bytes] for the range.
    A call gives an [outcome]: a value, an error, a panic, or [NoFuel] when a bound on
    recursion is exhausted (or a wait never ends).  Mutable state is passed along: a [Frame]
    for a running contract, a [World] shared by a call tree, the record [db] for the state
    database, the records [HeaderChain] and [BlockChain] for the chain.  Where the code
    shares memory and the effect is visible, the model has it: the table of jump
    destinations of a call tree, the input that a precompiled contract overwrites, the
    refund counter that [refundGas] multiplies in place, the trie that a copy of a state
    shares.  Concurrency is a step relation (verification of headers) or a statement on all
    interleavings (generation of the dataset).  The order in which a Go map is visited is a
    parameter.

    ** Interfaces

    Components are verified against type classes and discharge them where they implement
    them.  [VmTypes.StateDB] is the Go interface of the same name and [StateSpec.StateLaws]
    its laws, which [StateDBLaws] proves of the journalled database; [BlockState.BlockLaws]
    adds the methods that blocks use.  [Backend] and [Writer] are the tries and the database
    below the state; [StateSecure] gives the tries of [trie] as an instance.  [Crypto] and
    [CryptoOk] are hash functions and key recovery, with the sizes of their results; the
    Keccak part is discharged in [Sha3Theorems].  [Database] is a node store, [Lru] the
    caches of [golang-lru], [Json] the decoder of [encoding/json].  [BlockChain.Execution] is
    the state as the chain of blocks sees it and [BlockChainOk.ExecutionOk] what the chain
    relies on: states are kept valid, receipts can be encoded, a commit writes under hashes;
    it has a small instance in [BlockChainTheorems] and is not derived from [StateDB] here,
    whose own guarantees for a block are those of [StateProcessorOk].

    ** The theorems

    - The machine ([VmTheorems]): from any well-formed state and less than [max_gas] gas
      every call and creation returns, does not panic, gives back no more gas than it got,
      creates no funds, and is undone when it fails.  Each iteration costs gas, so the bound
      [gas + 1] is enough, and larger bounds change nothing.  [max_gas] is [3 * 2^58]: memory
      that such an amount pays for keeps every 64-bit size computation from overflowing.
    - The state: the journal is observationally equal to copying the whole state at every
      snapshot ([StateRefinement]); root hashes depend on the accounts only, and a commit can
      be opened again ([StateTheorems]).
    - Messages and blocks ([StateTransitionOk], [StateProcessorOk]): gas and funds are
      accounted for.
    - The trie ([TrieTheorems], [TrieProof]): a finite map with a root hash that identifies
      it, commits that reopen, proofs that are sound and complete.  Results that compare
      hashes assume that the encodings that occur do not collide.  The recursion bound of
      trie operations, twice the length of the key and a few more, is enough on a trie that
      represents a map.
    - Roots of lists ([DeriveSha]): equal roots are equal lists.
    - The chain ([HeaderChainTheorems], [BlockChainTheorems]): whatever is inserted, the head
      is a heaviest stored block and its ancestors are canonical; what is stored was
      validated; a valid block is stored.  Block numbers are below [2^48] and difficulties
      below [2^256].
    - Consensus ([ConsensusOk], [TilthashOk]): difficulty, uncles, order of the results of
      concurrent verification, agreement of light and full proof of work.
    - RLP, Keccak, transaction lists and signatures: agreement with reference definitions,
      round trips, refinement of a sorted slice.
    - Deviations: theorems and lemmas that exhibit inputs on which the code does something
      other than its comments or its intention say.

    ** Not modelled

    Tracing, printers, metrics and the integer pool; text formats of numbers and hashes;
    the reflection of the RLP coder (universes of values and types stand for it); the
    elliptic curve (a parameter); the tables of dataset sizes; the built-in allocations of
    the genesis blocks.  Of the state, past tries and [ForEachStorage]; of the chain of
    blocks, [InsertReceiptChain], the timer of future blocks, exports and statistics.  The
    transaction pool combines the lists with goroutines and events and is left out, as are
    networking, databases, key storage, mining and user interfaces, which are input and
    output around this core. *)
From stdpp Require Export base list numbers gmap.
From Stdlib Require Export ZArith Lia.

#[global] Open Scope Z_scope.

(** ** Outcomes *)

(** What a Go call can do: return a value, return a non-nil [error], panic
    (index out of range, explicit [panic]), or, only in functions modelled with
    a recursion bound, exhaust that bound. *)
Inductive outcome (E A : Type) : Type :=
| Done (a : A)
| Error (e : E)
| Panic
| NoFuel.
Arguments Done {E A} a.
Arguments Error {E A} e.
Arguments Panic {E A}.
Arguments NoFuel {E A}.

#[export] Instance outcome_ret {E} : MRet (outcome E) := fun A a => Done a.
#[export] Instance outcome_bind {E} : MBind (outcome E) := fun A B f m =>
  match m with
  | Done a => f a
  | Error e => Error e
  | Panic => Panic
  | NoFuel => NoFuel
  end.

(** A failing slice or index expression is a panic. *)
Definition or_panic {E A} (o : option A) : outcome E A :=
  match o with Some a => Done a | None => Panic end.

(** Stateful code: an outcome and the state left behind, also on an error (Go
    returns an [error] next to whatever was mutated before it). *)
Definition SM (St E A : Type) : Type := St -> outcome E A * St.

Section state_monad.
Context {St E : Type}.
#[export] Instance SM_ret : MRet (SM St E) := fun A a s => (Done a, s).
#[export] Instance SM_bind : MBind (SM St E) := fun A B f m s =>
  match m s with
  | (Done a, s') => f a s'
  | (Error e, s') => (Error e, s')
  | (Panic, s') => (Panic, s')
  | (NoFuel, s') => (NoFuel, s')
  end.
Definition gets {A} (f : St -> A) : SM St E A := fun s => (Done (f s), s).
Definition modify (f : St -> St) : SM St E unit := fun s => (Done tt, f s).
Definition throw {A} (e : E) : SM St E A := fun s => (Error e, s).
Definition crash {A} : SM St E A := fun s => (Panic, s).
Definition unwrap {A} (o : option A) : SM St E A := fun s => (or_panic o, s).
End state_monad.

(** Reduces binds of known outcomes. *)
Ltac simpl_outcome_hyp H := cbn [mbind outcome_bind mret outcome_ret or_panic] in H.
Tactic Notation "simpl_outcome" := cbn [mbind outcome_bind mret outcome_ret or_panic].
Tactic Notation "simpl_outcome" "in" hyp(H) := simpl_outcome_hyp H.

(** ** Machine integers *)

(** [uint64] arithmetic wraps; [int64] conversion sign-extends. *)
Definition u64 (z : Z) : Z := z mod 2 ^ 64.
Definition u8 (z : Z) : Z := z mod 2 ^ 8.
Definition i64 (z : Z) : Z :=
  let w := z mod 2 ^ 64 in if w <? 2 ^ 63 then w else w - 2 ^ 64.
Definition MaxUint64 : Z := 2 ^ 64 - 1.

(** ** Byte strings and Go slices *)

Abbreviation bytes := (list Z).
Definition is_byte (b : Z) : Prop := 0 <= b < 256.
#[export] Instance is_byte_dec b : Decision (is_byte b).
Proof. unfold is_byte. apply _. Defined.
Definition is_bytes (l : bytes) : Prop := Forall is_byte l.

Definition zlen {A} (l : list A) : Z := Z.of_nat (length l).
Definition ztake {A} (n : Z) (l : list A) : list A := take (Z.to_nat n) l.
Definition zdrop {A} (n : Z) (l : list A) : list A := drop (Z.to_nat n) l.

(** [l[i]], [l[i:j]] and [l[i] = x] with Go's bounds checks. *)
Definition zget {A} (l : list A) (i : Z) : option A :=
  if 0 <=? i then l !! Z.to_nat i else None.
Definition slice {A} (l : list A) (i j : Z) : option (list A) :=
  if (0 <=? i) && (i <=? j) && (j <=? zlen l)
  then Some (ztake (j - i) (zdrop i l)) else None.
Definition zset {A} (l : list A) (i : Z) (x : A) : option (list A) :=
  if (0 <=? i) && (i <? zlen l) then Some (<[Z.to_nat i := x]> l) else None.

(** [make([]byte, n)] and [copy(dst, src)]. *)
Definition zeros (n : Z) : bytes := replicate (Z.to_nat n) 0.
Definition gocopy {A} (dst src : list A) : list A :=
  take (length dst) src ++ drop (length src) dst.
(** [copy(dst[off:off+n], src)] on a slice already known to be in range. *)
Definition copy_at {A} (dst : list A) (off n : Z) (src : list A) : list A :=
  ztake off dst ++ gocopy (ztake n (zdrop off dst)) src ++ zdrop (off + n) dst.

(** ** Shared lemmas *)

Create HintDb golib.

Lemma zlen_nonneg {A} (l : list A) : 0 <= zlen l.
Proof. unfold zlen. lia. Qed.

Lemma zlen_nil {A} : zlen (@nil A) = 0.
Proof. done. Qed.

Lemma zlen_cons {A} (x : A) l : zlen (x :: l) = zlen l + 1.
Proof. unfold zlen. simpl. lia. Qed.

Lemma zlen_app {A} (l1 l2 : list A) : zlen (l1 ++ l2) = zlen l1 + zlen l2.
Proof. unfold zlen. rewrite length_app. lia. Qed.

Lemma zlen_zeros n : 0 <= n -> zlen (zeros n) = n.
Proof. intros. unfold zlen, zeros. rewrite length_replicate. lia. Qed.

Lemma zlen_ztake {A} n (l : list A) : 0 <= n -> zlen (ztake n l) = Z.min n (zlen l).
Proof. intros. unfold zlen, ztake. rewrite length_take. lia. Qed.

Lemma zlen_zdrop {A} n (l : list A) : 0 <= n -> zlen (zdrop n l) = Z.max 0 (zlen l - n).
Proof. intros. unfold zlen, zdrop. rewrite length_drop. lia. Qed.

Lemma zlen_0 {A} (l : list A) : zlen l = 0 -> l = [].
Proof. destruct l; [done|]. rewrite zlen_cons. pose proof (zlen_nonneg l). lia. Qed.

Lemma length_gocopy {A} (d s : list A) : length (gocopy d s) = length d.
Proof. unfold gocopy. rewrite length_app, length_take, length_drop. lia. Qed.

Lemma zlen_gocopy {A} (d s : list A) : zlen (gocopy d s) = zlen d.
Proof. unfold zlen. by rewrite length_gocopy. Qed.

Lemma zlen_copy_at {A} (d s : list A) off n :
  0 <= off -> 0 <= n -> off + n <= zlen d -> zlen (copy_at d off n s) = zlen d.
Proof.
  intros. unfold copy_at. rewrite !zlen_app, zlen_gocopy.
  rewrite !zlen_ztake, !zlen_zdrop by lia. lia.
Qed.

#[export] Hint Rewrite @zlen_nil @zlen_cons @zlen_app @zlen_gocopy : golib.
#[export] Hint Rewrite zlen_zeros @zlen_ztake @zlen_zdrop @zlen_copy_at using lia : golib.
#[export] Hint Resolve zlen_nonneg : golib.

Lemma is_bytes_app l1 l2 : is_bytes (l1 ++ l2) <-> is_bytes l1 /\ is_bytes l2.
Proof. apply Forall_app. Qed.

Lemma is_bytes_cons b l : is_bytes (b :: l) <-> is_byte b /\ is_bytes l.
Proof. apply Forall_cons. Qed.

Lemma is_bytes_snoc l b : is_bytes (l ++ [b]) <-> is_bytes l /\ is_byte b.
Proof. unfold is_bytes. by rewrite Forall_app, Forall_singleton. Qed.

Lemma is_bytes_ztake n l : is_bytes l -> is_bytes (ztake n l).
Proof. apply Forall_take. Qed.

Lemma is_bytes_zdrop n l : is_bytes l -> is_bytes (zdrop n l).
Proof. apply Forall_drop. Qed.

Lemma is_bytes_zeros n : is_bytes (zeros n).
Proof. apply Forall_replicate. unfold is_byte. lia. Qed.

Lemma is_bytes_gocopy d s : is_bytes d -> is_bytes s -> is_bytes (gocopy d s).
Proof.
  intros. apply is_bytes_app. split; [by apply Forall_take | by apply Forall_drop].
Qed.

Lemma is_bytes_copy_at d off n s :
  is_bytes d -> is_bytes s -> is_bytes (copy_at d off n s).
Proof.
  intros. apply is_bytes_app. split; [by apply is_bytes_ztake|].
  apply is_bytes_app. split; [|by apply is_bytes_zdrop].
  apply is_bytes_gocopy; [|done]. by apply is_bytes_ztake, is_bytes_zdrop.
Qed.

Lemma is_bytes_slice l i j s : is_bytes l -> slice l i j = Some s -> is_bytes s.
Proof.
  unfold slice. intros. case_match; simplify_eq. by apply is_bytes_ztake, is_bytes_zdrop.
Qed.

#[export] Hint Resolve is_bytes_ztake is_bytes_zdrop is_bytes_zeros is_bytes_gocopy
  is_bytes_copy_at : golib.

Lemma slice_Some {A} (l : list A) i j :
  0 <= i -> i <= j -> j <= zlen l -> slice l i j = Some (ztake (j - i) (zdrop i l)).
Proof. intros. unfold slice. by rewrite !(proj2 (Z.leb_le _ _)) by lia. Qed.

Lemma zget_Some {A} (l : list A) i : 0 <= i < zlen l -> is_Some (zget l i).
Proof.
  intros [? ?]. unfold zget. rewrite (proj2 (Z.leb_le _ _)) by lia.
  apply lookup_lt_is_Some. unfold zlen in *. lia.
Qed.

Lemma zget_None {A} (l : list A) i : i < 0 \/ zlen l <= i -> zget l i = None.
Proof.
  intros [?|?]; unfold zget; case_match eqn:E; try done; rewrite ?Z.leb_le in *; [lia|].
  apply lookup_ge_None_2. unfold zlen in *. lia.
Qed.

Lemma zget_inv {A} (l : list A) i x : zget l i = Some x -> 0 <= i < zlen l.
Proof.
  unfold zget. case_match eqn:E; [|done]. rewrite Z.leb_le in E.
  intros ?%lookup_lt_Some. unfold zlen. lia.
Qed.

Lemma zget_0 {A} (x : A) l : zget (x :: l) 0 = Some x.
Proof. done. Qed.

Lemma zset_Some {A} (l : list A) i x :
  0 <= i < zlen l -> zset l i x = Some (<[Z.to_nat i := x]> l).
Proof.
  intros. unfold zset. rewrite (proj2 (Z.leb_le _ _)), (proj2 (Z.ltb_lt _ _)) by lia. done.
Qed.

Lemma gocopy_same {A} (d s : list A) : length s = length d -> gocopy d s = s.
Proof.
  intros H. unfold gocopy. rewrite take_ge by lia. rewrite drop_ge by lia.
  apply app_nil_r.
Qed.

Lemma filter_none {A} (P : A -> Prop) `{forall x, Decision (P x)} (l : list A) : (forall x, x ∈ l -> ~ P x) -> filter P l = [].
Proof.
  induction l as [|x l IH]; intros Hl; [done|]. rewrite filter_cons, decide_False by (apply Hl; left).
  apply IH. intros y Hy. apply Hl. by right.
Qed.

Lemma filter_all {A} (P : A -> Prop) `{forall x, Decision (P x)} (l : list A) : (forall x, x ∈ l -> P x) -> filter P l = l.
Proof.
  induction l as [|x l IH]; intros Hl; [done|]. rewrite filter_cons, decide_True by (apply Hl; left).
  f_equal. apply IH. intros y Hy. apply Hl. by right.
Qed.

Lemma filter_ext {A} (P Q : A -> Prop) `{forall x, Decision (P x), forall x, Decision (Q x)} (l : list A) :
  (forall x, x ∈ l -> P x <-> Q x) -> filter P l = filter Q l.
Proof.
  induction l as [|x l IH]; intros Hl; [done|]. rewrite !filter_cons, IH by (intros y Hy; apply Hl; by right).
  destruct (Hl x ltac:(left)). repeat case_decide; tauto || done.
Qed.

Lemma u64_small z : 0 <= z < 2 ^ 64 -> u64 z = z.
Proof. apply Z.mod_small. Qed.

Lemma u64_range z : 0 <= u64 z < 2 ^ 64.
Proof. apply Z.mod_pos_bound. lia. Qed.

Lemma i64_small z : 0 <= z < 2 ^ 63 -> i64 z = z.
Proof.
  intros. unfold i64. rewrite Z.mod_small by lia.
  by rewrite (proj2 (Z.ltb_lt _ _)) by lia.
Qed.

#[export] Hint Resolve u64_range : golib.

(** Turns the boolean comparisons of a translated condition into propositions. *)
Ltac bool_to_prop :=
  repeat match goal with
  | H : _ && _ = true |- _ => apply andb_true_iff in H; destruct H
  | H : _ && _ = false |- _ => apply andb_false_iff in H
  | H : _ || _ = true |- _ => apply orb_true_iff in H
  | H : _ || _ = false |- _ => apply orb_false_iff in H; destruct H
  | H : negb _ = true |- _ => apply negb_true_iff in H
  | H : negb _ = false |- _ => apply negb_false_iff in H
  | H : (_ <? _) = true |- _ => apply Z.ltb_lt in H
  | H : (_ <? _) = false |- _ => apply Z.ltb_ge in H
  | H : (_ <=? _) = true |- _ => apply Z.leb_le in H
  | H : (_ <=? _) = false |- _ => apply Z.leb_gt in H
  | H : (_ >? _) = _ |- _ => rewrite Z.gtb_ltb in H
  | H : (_ >=? _) = _ |- _ => rewrite Z.geb_leb in H
  | H : (_ =? _) = true |- _ => apply Z.eqb_eq in H
  | H : (_ =? _) = false |- _ => apply Z.eqb_neq in H
  | H : bool_decide _ = true |- _ => apply bool_decide_eq_true in H
  | H : bool_decide _ = false |- _ => apply bool_decide_eq_false in H
  end.

(** Splits on the innermost [if]/[match] scrutinee of the goal and cleans up. *)
Ltac split_match :=
  match goal with
  | |- context [ match ?x with _ => _ end ] =>
      lazymatch x with
      | context [ match _ with _ => _ end ] => fail
      | _ => let E := fresh "E" in destruct x eqn:E
      end
  end.
