(* ===== verification/GoBig.v ===== *)
(** The parts of Go's [math/big] that the sources use, over [Z].

    A [*big.Int] is its value.  [Bytes]/[SetBytes] are the big-endian
    conversions of the absolute value, [Bits] its little-endian 64-bit words,
    [Uint64]/[Int64] truncate.  The lemmas relate the byte strings to values. *)
From S2P Require Import Prelude.

Module Big.

Definition BitLen (v : Z) : Z := if v =? 0 then 0 else Z.log2 (Z.abs v) + 1.
Definition Sign (v : Z) : Z := Z.sgn v.
Definition Uint64 (v : Z) : Z := Z.abs v mod 2 ^ 64.
Definition Int64 (v : Z) : Z := if v <? 0 then i64 (- i64 (- v)) else i64 v.
(** Euclidean division, as [Div] and [Mod] implement it. *)
Definition Div (x y : Z) : Z := if y <? 0 then - (x / - y) else x / y.
Definition Mod (x y : Z) : Z := x mod Z.abs y.

(** Big-endian value of a byte string, and the [n] low bytes of a value. *)
Definition SetBytes (l : bytes) : Z := fold_left (fun acc b => acc * 256 + b) l 0.
Fixpoint be_fixed (n : nat) (v : Z) : bytes :=
  match n with
  | O => []
  | S n => be_fixed n (v / 256) ++ [v mod 256]
  end.
Definition Bytes (v : Z) : bytes := be_fixed (Z.to_nat ((BitLen v + 7) / 8)) (Z.abs v).

(** Little-endian machine words of the absolute value, without leading zeros. *)
Fixpoint le_words (n : nat) (v : Z) : list Z :=
  match n with
  | O => []
  | S n => v mod 2 ^ 64 :: le_words n (v / 2 ^ 64)
  end.
Definition Bits (v : Z) : list Z := le_words (Z.to_nat ((BitLen v + 63) / 64)) (Z.abs v).

Fixpoint words_val (l : list Z) : Z :=
  match l with [] => 0 | w :: l => w + 2 ^ 64 * words_val l end.

(** ** Lemmas *)

Lemma SetBytes_snoc l b : SetBytes (l ++ [b]) = SetBytes l * 256 + b.
Proof. unfold SetBytes. by rewrite fold_left_app. Qed.

Lemma fold_bytes_acc l acc :
  fold_left (fun acc b => acc * 256 + b) l acc = acc * 256 ^ zlen l + SetBytes l.
Proof.
  revert acc. induction l as [|b l IH] using rev_ind; intros acc.
  - unfold SetBytes, zlen. simpl. lia.
  - rewrite fold_left_app, IH, SetBytes_snoc. simpl. rewrite zlen_app.
    change (zlen [b]) with 1. rewrite Z.pow_add_r by (auto using zlen_nonneg; lia).
    lia.
Qed.

Lemma SetBytes_app l1 l2 : SetBytes (l1 ++ l2) = SetBytes l1 * 256 ^ zlen l2 + SetBytes l2.
Proof. unfold SetBytes at 1. rewrite fold_left_app. apply fold_bytes_acc. Qed.

Lemma SetBytes_cons b l : SetBytes (b :: l) = b * 256 ^ zlen l + SetBytes l.
Proof. apply (SetBytes_app [b] l). Qed.

Lemma SetBytes_zeros n l : SetBytes (zeros n ++ l) = SetBytes l.
Proof.
  unfold zeros. induction (Z.to_nat n) as [|k IH]; [done|].
  simpl. rewrite SetBytes_cons, IH. lia.
Qed.

Lemma SetBytes_bound l : is_bytes l -> 0 <= SetBytes l < 256 ^ zlen l.
Proof.
  induction l as [|b l IH] using rev_ind; [done|].
  rewrite is_bytes_snoc. intros [Hl Hb]. specialize (IH Hl).
  rewrite SetBytes_snoc, zlen_app. change (zlen [b]) with 1.
  rewrite Z.pow_add_r, Z.pow_1_r by (auto using zlen_nonneg; lia).
  unfold is_byte in Hb. lia.
Qed.

Lemma length_be_fixed n v : length (be_fixed n v) = n.
Proof.
  revert v. induction n as [|n IH]; intros v; [done|].
  simpl. rewrite length_app, IH. simpl. lia.
Qed.

Lemma is_bytes_be_fixed n v : is_bytes (be_fixed n v).
Proof.
  revert v. induction n as [|n IH]; intros v; [constructor|].
  simpl. apply is_bytes_app. split; [done|]. constructor; [|constructor].
  apply Z.mod_pos_bound. lia.
Qed.

Lemma SetBytes_be_fixed n v : SetBytes (be_fixed n v) = v mod 256 ^ Z.of_nat n.
Proof.
  revert v. induction n as [|n IH]; intros v.
  - simpl. by rewrite Z.mod_1_r.
  - cbn [be_fixed]. rewrite SetBytes_snoc, IH.
    rewrite Nat2Z.inj_succ, Z.pow_succ_r by lia.
    rewrite Z.rem_mul_r by lia. lia.
Qed.

Lemma be_fixed_SetBytes l : is_bytes l -> be_fixed (length l) (SetBytes l) = l.
Proof.
  induction l as [|b l IH] using rev_ind; [done|].
  rewrite is_bytes_snoc. intros [Hl Hb].
  rewrite length_app, Nat.add_comm. simpl. rewrite SetBytes_snoc.
  unfold is_byte in Hb.
  rewrite Z.div_add_l, (Z.div_small b), Z.add_0_r by lia.
  rewrite IH by done. f_equal. f_equal.
  rewrite Z.add_comm, Z.mod_add, Z.mod_small by lia. done.
Qed.

Lemma be_fixed_inj n v w :
  be_fixed n v = be_fixed n w -> v mod 256 ^ Z.of_nat n = w mod 256 ^ Z.of_nat n.
Proof. intros H. rewrite <- !SetBytes_be_fixed. by rewrite H. Qed.

Lemma BitLen_nonneg v : 0 <= BitLen v.
Proof. unfold BitLen. case_match; [lia|]. pose proof (Z.log2_nonneg (Z.abs v)). lia. Qed.

Lemma BitLen_bound v : Z.abs v < 2 ^ BitLen v.
Proof.
  unfold BitLen. case_match; bool_to_prop; [subst; done|].
  pose proof (Z.log2_spec (Z.abs v)) as H'. rewrite <- Z.add_1_r in H'. lia.
Qed.

Lemma BitLen_le v n : 0 <= n -> BitLen v <= n <-> Z.abs v < 2 ^ n.
Proof.
  intros Hn. split.
  - intros H. eapply Z.lt_le_trans; [apply BitLen_bound|].
    apply Z.pow_le_mono_r; lia.
  - intros H. unfold BitLen. case_match; bool_to_prop; [lia|].
    assert (Z.log2 (Z.abs v) < n); [|lia]. apply Z.log2_lt_pow2; lia.
Qed.

Lemma BitLen_gt v n : 0 <= n -> (BitLen v >? n) = (2 ^ n <=? Z.abs v).
Proof.
  intros Hn. apply eq_true_iff_eq. rewrite Z.gtb_lt, Z.leb_le.
  pose proof (BitLen_le v n Hn). lia.
Qed.

Lemma Bytes_len_bound v : Z.abs v < 256 ^ Z.of_nat (length (Bytes v)).
Proof.
  unfold Bytes. rewrite length_be_fixed.
  rewrite Z2Nat.id by (apply Z.div_pos; pose proof (BitLen_nonneg v); lia).
  change 256 with (2 ^ 8). rewrite <- Z.pow_mul_r by
    (try apply Z.div_pos; pose proof (BitLen_nonneg v); lia).
  eapply Z.lt_le_trans; [apply BitLen_bound|]. apply Z.pow_le_mono_r; [lia|].
  pose proof (Z.mul_succ_div_gt (BitLen v + 7) 8). lia.
Qed.

Lemma SetBytes_Bytes v : SetBytes (Bytes v) = Z.abs v.
Proof.
  pose proof (Bytes_len_bound v) as H. unfold Bytes in *.
  rewrite length_be_fixed in H. rewrite SetBytes_be_fixed. apply Z.mod_small. lia.
Qed.

Lemma is_bytes_Bytes v : is_bytes (Bytes v).
Proof. apply is_bytes_be_fixed. Qed.

Lemma zlen_Bytes v : zlen (Bytes v) = (BitLen v + 7) / 8.
Proof.
  unfold zlen, Bytes. rewrite length_be_fixed. apply Z2Nat.id.
  apply Z.div_pos; [|lia]. pose proof (BitLen_nonneg v). lia.
Qed.

Lemma zlen_Bytes_le v n : 0 <= n -> Z.abs v < 256 ^ n -> zlen (Bytes v) <= n.
Proof.
  intros Hn Hv. rewrite zlen_Bytes. change 256 with (2 ^ 8) in Hv.
  rewrite <- Z.pow_mul_r in Hv by lia. apply BitLen_le in Hv; [|lia].
  apply Z.lt_succ_r, Z.div_lt_upper_bound; lia.
Qed.

Lemma words_val_Bits v : words_val (Bits v) = Z.abs v.
Proof.
  unfold Bits. set (n := Z.to_nat ((BitLen v + 63) / 64)).
  assert (Hb : 0 <= Z.abs v < (2 ^ 64) ^ Z.of_nat n).
  { split; [lia|]. subst n.
    rewrite Z2Nat.id by (apply Z.div_pos; pose proof (BitLen_nonneg v); lia).
    rewrite <- Z.pow_mul_r by (try apply Z.div_pos; pose proof (BitLen_nonneg v); lia).
    eapply Z.lt_le_trans; [apply BitLen_bound|]. apply Z.pow_le_mono_r; [lia|].
    pose proof (Z.mul_succ_div_gt (BitLen v + 63) 64). lia. }
  clearbody n. revert Hb. generalize (Z.abs v) as w.
  induction n as [|n IH]; intros w Hw.
  - simpl in *. lia.
  - cbn [le_words words_val]. rewrite IH.
    + pose proof (Z.div_mod w (2 ^ 64)). lia.
    + rewrite Nat2Z.inj_succ, Z.pow_succ_r in Hw by lia.
      split; [apply Z.div_pos; lia|]. apply Z.div_lt_upper_bound; lia.
Qed.

Lemma Bits_range v : Forall (fun w => 0 <= w < 2 ^ 64) (Bits v).
Proof.
  unfold Bits. generalize (Z.abs v) as w.
  induction (Z.to_nat ((BitLen v + 63) / 64)) as [|n IH]; intros w; [constructor|].
  constructor; [|apply IH]. apply Z.mod_pos_bound. lia.
Qed.

Lemma Uint64_small v : 0 <= v < 2 ^ 64 -> Uint64 v = v.
Proof. intros. unfold Uint64. rewrite Z.mod_small by lia. lia. Qed.

Lemma Uint64_range v : 0 <= Uint64 v < 2 ^ 64.
Proof. apply Z.mod_pos_bound. lia. Qed.

Lemma Int64_small v : 0 <= v < 2 ^ 63 -> Int64 v = v.
Proof.
  intros. unfold Int64. rewrite (proj2 (Z.ltb_ge _ _)) by lia. by apply i64_small.
Qed.

End Big.

#[export] Hint Resolve Big.is_bytes_be_fixed Big.is_bytes_Bytes Big.BitLen_nonneg
  Big.Uint64_range : golib.
