(* ===== verification/CommonMath.v ===== *)
(** [common/math]: 256-bit helpers over [big.Int] ([big.go]) and the
    overflow-reporting [uint64] operations ([integer.go]). *)
From S2P Require Import Prelude GoBig.

Module Math.

(** ** integer.go *)

Definition SafeSub (x y : Z) : Z * bool := (u64 (x - y), x <? y).
Definition SafeAdd (x y : Z) : Z * bool := (u64 (x + y), y >? MaxUint64 - x).
Definition SafeMul (x y : Z) : Z * bool :=
  if (x =? 0) || (y =? 0) then (0, false)
  else (u64 (x * y), y >? MaxUint64 / x).

(** ** big.go *)

Definition BigPow (a b : Z) : Z := a ^ b.
Definition tt255 : Z := BigPow 2 255.
Definition tt256 : Z := BigPow 2 256.
Definition tt256m1 : Z := tt256 - 1.

Definition wordBits : nat := 64.
Definition wordBytes : nat := 8.

Definition BigMax (x y : Z) : Z := if x <? y then y else x.
Definition BigMin (x y : Z) : Z := if x >? y then y else x.

(** [for i := 0; i < v.BitLen(); i++]; the counter runs through [n] values. *)
Fixpoint firstBitSet_loop (n : nat) (i : Z) (v : Z) : Z :=
  match n with
  | O => Big.BitLen v
  | S n => if Z.testbit v i then i else firstBitSet_loop n (i + 1) v
  end.
Definition FirstBitSet (v : Z) : Z := firstBitSet_loop (Z.to_nat (Big.BitLen v)) 0 v.

(** Inner loop of [ReadBits]: [for j := 0; j < wordBytes && i > 0; j++]. *)
Fixpoint readBits_word (j : nat) (i d : Z) (buf : bytes) : Z * bytes :=
  match j with
  | O => (i, buf)
  | S j =>
      if i >? 0
      then readBits_word j (i - 1) (Z.shiftr d 8) (<[Z.to_nat (i - 1) := u8 d]> buf)
      else (i, buf)
  end.

Definition ReadBits (bigint : Z) (buf : bytes) : bytes :=
  snd (fold_left (fun '(i, buf) d => readBits_word wordBytes i d buf)
         (Big.Bits bigint) (zlen buf, buf)).

Definition PaddedBigBytes (bigint n : Z) : bytes :=
  if Big.BitLen bigint / 8 >=? n then Big.Bytes bigint
  else ReadBits bigint (zeros n).

Definition U256 (x : Z) : Z := Z.land x tt256m1.
Definition S256 (x : Z) : Z := if x <? tt255 then x else x - tt256.

(** Inner loop of [Exp]: the [wordBits] bits of one word of the exponent. *)
Fixpoint exp_word (n : nat) (result base word : Z) : Z * Z :=
  match n with
  | O => (result, base)
  | S n =>
      exp_word n
        (if Z.land word 1 =? 1 then U256 (result * base) else result)
        (U256 (base * base)) (Z.shiftr word 1)
  end.

Definition Exp (base exponent : Z) : Z :=
  fst (fold_left (fun '(result, base) word => exp_word wordBits result base word)
         (Big.Bits exponent) (1, base)).

(** ** Lemmas *)

Lemma U256_mod x : U256 x = x mod 2 ^ 256.
Proof. unfold U256, tt256m1. change (tt256 - 1) with (Z.ones 256). by apply Z.land_ones. Qed.

Lemma U256_range x : 0 <= U256 x < 2 ^ 256.
Proof. rewrite U256_mod. apply Z.mod_pos_bound. lia. Qed.

Lemma U256_small x : 0 <= x < 2 ^ 256 -> U256 x = x.
Proof. rewrite U256_mod. apply Z.mod_small. Qed.

Lemma U256_S256 x : 0 <= x < 2 ^ 256 -> U256 (S256 x) = x.
Proof.
  intros. rewrite U256_mod. unfold S256, tt256, BigPow. case_match.
  - apply Z.mod_small. lia.
  - rewrite <- (Z.mod_add _ 1), Z.mul_1_l, Z.sub_add by lia. apply Z.mod_small. lia.
Qed.

Lemma S256_range x : 0 <= x < 2 ^ 256 -> - 2 ^ 255 <= S256 x < 2 ^ 255.
Proof. intros. unfold S256, tt255, tt256, BigPow. case_match; bool_to_prop; lia. Qed.

Lemma SafeAdd_spec x y : 0 <= x < 2 ^ 64 -> 0 <= y < 2 ^ 64 ->
  SafeAdd x y = if x + y <? 2 ^ 64 then (x + y, false) else (x + y - 2 ^ 64, true).
Proof.
  intros. unfold SafeAdd, MaxUint64. rewrite Z.gtb_ltb.
  case_match; bool_to_prop; f_equal.
  - apply u64_small. lia.
  - apply Z.ltb_ge. lia.
  - unfold u64. rewrite <- (Z.mod_add _ (-1)) by lia. rewrite Z.mod_small; lia.
  - apply Z.ltb_lt. lia.
Qed.

Lemma SafeAdd_false x y s : 0 <= x < 2 ^ 64 -> 0 <= y < 2 ^ 64 ->
  SafeAdd x y = (s, false) -> s = x + y /\ x + y < 2 ^ 64.
Proof. intros Hx Hy. rewrite SafeAdd_spec by done. case_match; bool_to_prop; naive_solver. Qed.

Lemma SafeMul_false x y s : 0 <= x < 2 ^ 64 -> 0 <= y < 2 ^ 64 ->
  SafeMul x y = (s, false) -> s = x * y /\ x * y < 2 ^ 64.
Proof.
  intros Hx Hy. unfold SafeMul, MaxUint64. case_match eqn:E; bool_to_prop.
  - intros [= <-]. destruct E; bool_to_prop; subst; lia.
  - intros [= <- Hle]. rewrite Z.gtb_ltb, Z.ltb_ge in Hle.
    assert (x * y < 2 ^ 64) by (pose proof (Z.mul_div_le (2 ^ 64 - 1) x); nia).
    split; [|done]. apply u64_small. nia.
Qed.

Lemma SafeMul_true x y s : 0 <= x < 2 ^ 64 -> 0 <= y < 2 ^ 64 ->
  SafeMul x y = (s, true) -> 2 ^ 64 <= x * y.
Proof.
  intros Hx Hy. unfold SafeMul, MaxUint64. case_match eqn:E; [done|]. bool_to_prop.
  intros [= _ Hgt]. rewrite Z.gtb_ltb, Z.ltb_lt in Hgt.
  pose proof (Z.mul_succ_div_gt (2 ^ 64 - 1) x). nia.
Qed.

(** *** [Exp] is exponentiation modulo 2^256 *)

Lemma pow_mod_256 x n : 0 <= n -> (x mod 2 ^ 256) ^ n mod 2 ^ 256 = x ^ n mod 2 ^ 256.
Proof.
  intros Hn. revert n Hn. apply natlike_ind; [done|]. intros n Hn IH.
  rewrite !Z.pow_succ_r by done.
  rewrite Z.mul_mod, IH, Z.mod_mod by lia. by rewrite <- Z.mul_mod by lia.
Qed.

Lemma mul_pow_mod_256 x y n :
  0 <= n -> (x * (y mod 2 ^ 256) ^ n) mod 2 ^ 256 = (x * y ^ n) mod 2 ^ 256.
Proof.
  intros. rewrite <- Z.mul_mod_idemp_r, pow_mod_256, Z.mul_mod_idemp_r by lia. done.
Qed.

Lemma land_1_eqb w : (Z.land w 1 =? 1) = Z.odd w.
Proof.
  change 1 with (Z.ones 1) at 1. rewrite Z.land_ones by lia.
  rewrite Zmod_odd. by destruct (Z.odd w).
Qed.

Lemma exp_word_spec n r b w :
  0 <= w ->
  let '(r', b') := exp_word n r b w in
  r' mod 2 ^ 256 = (r * b ^ (w mod 2 ^ Z.of_nat n)) mod 2 ^ 256 /\
  b' mod 2 ^ 256 = b ^ (2 ^ Z.of_nat n) mod 2 ^ 256 /\
  (0 <= r < 2 ^ 256 -> 0 <= r' < 2 ^ 256).
Proof.
  revert r b w. induction n as [|n IH]; intros r b w Hw.
  { simpl. by rewrite Z.mod_1_r, Z.pow_0_r, Z.mul_1_r, Z.pow_1_r. }
  cbn [exp_word]. rewrite land_1_eqb.
  specialize (IH (if Z.odd w then U256 (r * b) else r) (U256 (b * b)) (Z.shiftr w 1)).
  destruct (exp_word n _ _ _) as [r' b'].
  rewrite Z.shiftr_div_pow2 in IH by lia. change (2 ^ 1) with 2 in IH.
  destruct IH as (Hr & Hb & Hrange); [apply Z.div_pos; lia|].
  rewrite (U256_mod (r * b)), (U256_mod (b * b)) in Hr. rewrite U256_mod in Hb.
  assert (Hp : 0 < 2 ^ Z.of_nat n) by (apply Z.pow_pos_nonneg; lia).
  assert (Hm : 0 <= (w / 2) mod 2 ^ Z.of_nat n) by (apply Z.mod_pos_bound; lia).
  rewrite Nat2Z.inj_succ, Z.pow_succ_r by lia.
  rewrite Z.rem_mul_r by lia. rewrite Zmod_odd.
  split_and!.
  - rewrite Hr, mul_pow_mod_256 by lia.
    rewrite <- Z.pow_2_r, <- Z.pow_mul_r by lia.
    destruct (Z.odd w).
    + rewrite Z.mul_mod_idemp_l by lia.
      rewrite Z.pow_add_r, Z.pow_1_r by lia. f_equal. ring.
    + by rewrite Z.add_0_l.
  - rewrite Hb, pow_mod_256 by lia. by rewrite <- Z.pow_2_r, <- Z.pow_mul_r by lia.
  - intros. apply Hrange. case_match; [apply U256_range|done].
Qed.

Lemma words_val_nonneg ws : Forall (fun w => 0 <= w < 2 ^ 64) ws -> 0 <= Big.words_val ws.
Proof. induction 1; cbn [Big.words_val]; [done|]. lia. Qed.

(** The word size is kept abstract so that [exp_word] does not unfold. *)
Lemma exp_words_spec n ws r b :
  Z.of_nat n = 64 -> Forall (fun w => 0 <= w < 2 ^ 64) ws -> 0 <= r < 2 ^ 256 ->
  let r' := fst (fold_left (fun '(result, base) word => exp_word n result base word)
                   ws (r, b)) in
  r' mod 2 ^ 256 = (r * b ^ Big.words_val ws) mod 2 ^ 256 /\ 0 <= r' < 2 ^ 256.
Proof.
  intros Hn Hws. revert r b. induction Hws as [|w ws Hw Hws IH]; intros r b Hr.
  { simpl. by rewrite Z.mul_1_r. }
  cbn [fold_left Big.words_val].
  pose proof (exp_word_spec n r b w ltac:(lia)) as Hspec.
  destruct (exp_word n r b w) as [r' b']. rewrite Hn in Hspec.
  destruct Hspec as (Hr' & Hb' & Hrange).
  specialize (IH r' b' (Hrange Hr)). cbv zeta in IH. destruct IH as [IH ?].
  split; [|done]. rewrite IH. rewrite (Z.mod_small w _ Hw) in Hr'.
  apply words_val_nonneg in Hws.
  (* [lia] must not expand [b ^ (2 ^ 64)] *)
  assert (HK : 0 < 2 ^ 64) by done. clear IH Hrange.
  revert HK Hb' Hw. generalize (2 ^ 64) as K. intros K HK Hb' Hw.
  rewrite Z.pow_add_r, Z.pow_mul_r by lia.
  rewrite <- mul_pow_mod_256, Hb', mul_pow_mod_256 by lia.
  rewrite <- Z.mul_mod_idemp_l, Hr', Z.mul_mod_idemp_l by lia. f_equal. ring.
Qed.

(** *** [ReadBits] writes the big-endian bytes of a number *)

Lemma be_fixed_cons n v :
  Big.be_fixed (S n) v = (v / 256 ^ Z.of_nat n) mod 256 :: Big.be_fixed n v.
Proof.
  revert v. induction n as [|n IH]; intros v.
  - simpl. by rewrite Z.div_1_r.
  - cbn [Big.be_fixed] in *. rewrite IH. simpl. rewrite Nat2Z.inj_succ, Z.pow_succ_r by lia.
    by rewrite Z.div_div by lia.
Qed.

Lemma be_fixed_padding k n v :
  0 <= v < 256 ^ Z.of_nat n -> Big.be_fixed (k + n) v = replicate k 0 ++ Big.be_fixed n v.
Proof.
  intros Hv. induction k as [|k IH]; [done|].
  rewrite Nat.add_succ_l, be_fixed_cons, IH. simpl. f_equal.
  rewrite Z.div_small; [done|]. split; [lia|]. eapply Z.lt_le_trans; [apply Hv|].
  apply Z.pow_le_mono_r; lia.
Qed.

(** The state of the loop after [k] of the [n] low bytes of [v] are written:
    the remaining words hold [v / 256^k]. *)
Lemma readBits_word_spec j i k v d rest :
  0 <= v -> 0 <= d < 256 ^ Z.of_nat j -> 0 <= rest ->
  d + 256 ^ Z.of_nat j * rest = v / 256 ^ Z.of_nat k ->
  exists i' k', (i + k = i' + k')%nat /\
    readBits_word j (Z.of_nat i) d (replicate i 0 ++ Big.be_fixed k v) =
      (Z.of_nat i', replicate i' 0 ++ Big.be_fixed k' v) /\
    (i' = 0%nat \/ rest = v / 256 ^ Z.of_nat k').
Proof.
  revert i k d. induction j as [|j IH]; intros i k d Hv Hd Hrest Heq.
  { exists i, k. split_and!; [done..|]. right. simpl in *. lia. }
  destruct i as [|i]; [exists 0%nat, k; split_and!; [done..|by left]|].
  rewrite Nat2Z.inj_succ, Z.pow_succ_r in Hd, Heq by lia.
  destruct (IH i (S k) (d / 256)) as (i' & k' & Hlen & Hread & Hend); [done|..].
  - split; [apply Z.div_pos; lia|]. apply Z.div_lt_upper_bound; lia.
  - done.
  - rewrite Nat2Z.inj_succ, Z.pow_succ_r, (Z.mul_comm 256), <- Z.div_div by lia.
    rewrite <- Heq. rewrite <- Z.mul_assoc, (Z.mul_comm 256), Z.div_add by lia. done.
  - exists i', k'. split_and!; [lia| |done]. rewrite <- Hread.
    cbn [readBits_word]. rewrite (proj2 (Z.gtb_lt _ _)) by lia.
    replace (Z.of_nat (S i) - 1) with (Z.of_nat i) by lia.
    rewrite Nat2Z.id. rewrite Z.shiftr_div_pow2 by lia. f_equal.
    rewrite be_fixed_cons, <- Heq.
    replace (u8 d) with ((d + 256 * 256 ^ Z.of_nat j * rest) mod 256).
    2: { unfold u8. change (2 ^ 8) with 256. rewrite <- Z.mul_assoc, (Z.mul_comm 256).
         by rewrite Z.mod_add by lia. }
    rewrite insert_app_l by (rewrite length_replicate; lia).
    rewrite replicate_S_end, insert_app_r_alt by (rewrite length_replicate; lia).
    rewrite length_replicate, Nat.sub_diag. by rewrite <- app_assoc.
Qed.

Lemma readBits_words_spec ws i k v :
  0 <= v -> Forall (fun w => 0 <= w < 2 ^ 64) ws ->
  (i = 0%nat \/ Big.words_val ws = v / 256 ^ Z.of_nat k) ->
  snd (fold_left (fun '(i, buf) d => readBits_word wordBytes i d buf) ws
         (Z.of_nat i, replicate i 0 ++ Big.be_fixed k v)) = Big.be_fixed (i + k) v.
Proof.
  intros Hv Hws. revert i k. induction Hws as [|w ws Hw Hws IH]; intros i k Hinv.
  - cbn [fold_left snd Big.words_val] in *. destruct Hinv as [->|Hinv]; [done|].
    rewrite <- be_fixed_padding; [done|]. split; [done|].
    symmetry in Hinv. apply Z.div_small_iff in Hinv as [?|?]; [lia..|].
    apply Z.pow_nonzero; lia.
  - cbn [fold_left Big.words_val] in *. destruct Hinv as [->|Hinv].
    + change (readBits_word wordBytes (Z.of_nat 0) w _) with
        (Z.of_nat 0, replicate 0 0 ++ Big.be_fixed k v). apply IH. by left.
    + pose proof (words_val_nonneg ws Hws).
      destruct (readBits_word_spec wordBytes i k v w (Big.words_val ws))
        as (i' & k' & Hlen & -> & Hend); [done| |done|done|].
      * by change (256 ^ Z.of_nat wordBytes) with (2 ^ 64).
      * rewrite Hlen. by apply IH.
Qed.

Lemma ReadBits_zeros v n : 0 <= v -> ReadBits v (zeros (Z.of_nat n)) = Big.be_fixed n v.
Proof.
  intros Hv. unfold ReadBits, zeros. rewrite Nat2Z.id.
  unfold zlen. rewrite length_replicate.
  replace n with (n + 0)%nat at 3 by lia.
  rewrite <- (readBits_words_spec (Big.Bits v) n 0 v Hv (Big.Bits_range v)).
  - simpl. by rewrite app_nil_r.
  - right. rewrite Big.words_val_Bits. simpl. rewrite Z.div_1_r. lia.
Qed.

Lemma PaddedBigBytes_32 v :
  0 <= v < 2 ^ 256 -> PaddedBigBytes v 32 = Big.be_fixed 32 v.
Proof.
  intros Hv. unfold PaddedBigBytes. rewrite Z.geb_leb. case_match; bool_to_prop.
  - assert (Big.BitLen v <= 256) by (apply Big.BitLen_le; lia).
    assert (Hlen : Big.BitLen v = 256).
    { pose proof (Z.mul_div_le (Big.BitLen v) 8). lia. }
    unfold Big.Bytes. rewrite Hlen. rewrite Z.abs_eq by lia. done.
  - apply (ReadBits_zeros v 32). lia.
Qed.

Lemma Exp_range base exponent : 0 <= Exp base exponent < 2 ^ 256.
Proof.
  destruct (exp_words_spec wordBits (Big.Bits exponent) 1 base eq_refl (Big.Bits_range _)) as [_ Hr]; [lia|].
  exact Hr.
Qed.

Lemma Exp_spec base exponent : 0 <= exponent -> Exp base exponent = base ^ exponent mod 2 ^ 256.
Proof.
  intros Hexp.
  destruct (exp_words_spec wordBits (Big.Bits exponent) 1 base eq_refl (Big.Bits_range _)) as [H Hr]; [lia|].
  rewrite Z.mod_small in H by done. unfold Exp. rewrite H.
  rewrite Big.words_val_Bits, Z.mul_1_l. by rewrite Z.abs_eq.
Qed.

(** C26: [Exp base exponent], the square-and-multiply loop over the words of the
    exponent, computes [base ^ exponent] modulo 2^256. *)
Lemma Exp_correct (base exponent : Z) (Hexp : 0 <= exponent) :
  Exp base exponent = base ^ exponent mod 2 ^ 256.
Proof. by apply Exp_spec. Qed.


End Math.
