(* ===== verification/CommonTypes.v ===== *)
(** [common]: byte-string padding ([bytes.go]) and the fixed-size [Hash] and
    [Address] arrays ([types.go]), as byte lists of length 32 and 20. *)
From S2P Require Import Prelude GoBig.

Module Common.

(** ** bytes.go *)

Definition CopyBytes (b : bytes) : bytes := gocopy (zeros (zlen b)) b.

Definition RightPadBytes (s : bytes) (l : Z) : bytes :=
  if l <? zlen s then s
  else copy_at (zeros l) 0 (zlen s) s.

Definition LeftPadBytes (s : bytes) (l : Z) : bytes :=
  if l <? zlen s then s
  else copy_at (zeros l) (l - zlen s) (zlen s) s.

(** ** types.go *)

Definition HashLength : Z := 32.
Definition AddressLength : Z := 20.

Abbreviation Hash := (list Z).
Abbreviation Address := (list Z).

Definition zeroHash : Hash := zeros HashLength.
Definition zeroAddress : Address := zeros AddressLength.

(** [SetBytes] keeps the last [len(h)] bytes and leaves the leading bytes of the
    receiver alone when [b] is shorter. *)
Definition Hash_SetBytes (h : Hash) (b : bytes) : Hash :=
  let b := if zlen b >? zlen h then zdrop (zlen b - HashLength) b else b in
  copy_at h (HashLength - zlen b) (zlen b) b.
Definition Address_SetBytes (a : Address) (b : bytes) : Address :=
  let b := if zlen b >? zlen a then zdrop (zlen b - AddressLength) b else b in
  copy_at a (AddressLength - zlen b) (zlen b) b.

Definition BytesToHash (b : bytes) : Hash := Hash_SetBytes zeroHash b.
Definition BigToHash (b : Z) : Hash := BytesToHash (Big.Bytes b).
Definition Hash_Big (h : Hash) : Z := Big.SetBytes h.
Definition EmptyHash (h : Hash) : bool := bool_decide (h = zeroHash).

Definition BytesToAddress (b : bytes) : Address := Address_SetBytes zeroAddress b.
Definition BigToAddress (b : Z) : Address := BytesToAddress (Big.Bytes b).
Definition Address_Big (a : Address) : Z := Big.SetBytes a.
Definition Address_Hash (a : Address) : Hash := BytesToHash a.

(** ** Lemmas *)

Lemma CopyBytes_id b : CopyBytes b = b.
Proof. unfold CopyBytes. apply gocopy_same. unfold zeros, zlen. rewrite length_replicate. lia. Qed.

(** A value of a Go array type: the right length, every element a byte. *)
Definition is_array (n : Z) (l : bytes) : Prop := zlen l = n /\ is_bytes l.

(** [SetBytes] into a zero array of [n] bytes is the big-endian encoding of the
    value of [b] modulo [256^n]. *)
Lemma pad_into_zeros (n : nat) (b : bytes) :
  is_bytes b ->
  (let b' := if zlen b >? Z.of_nat n then zdrop (zlen b - Z.of_nat n) b else b in
   copy_at (zeros (Z.of_nat n)) (Z.of_nat n - zlen b') (zlen b') b')
  = Big.be_fixed n (Big.SetBytes b).
Proof.
  intros Hb. cbv zeta.
  set (b' := if zlen b >? Z.of_nat n then _ else b).
  assert (Hb' : is_bytes b') by (subst b'; case_match; auto with golib).
  assert (Hlen : zlen b' <= Z.of_nat n).
  { subst b'. case_match; bool_to_prop; [|lia]. autorewrite with golib. lia. }
  assert (Hval : Big.SetBytes b mod 256 ^ Z.of_nat n = Big.SetBytes b').
  { pose proof (Big.SetBytes_bound b' Hb') as Hbd.
    subst b'. case_match eqn:E; bool_to_prop.
    - rewrite <- (take_drop (Z.to_nat (zlen b - Z.of_nat n)) b) at 1.
      rewrite Big.SetBytes_app. fold (zdrop (zlen b - Z.of_nat n) b).
      rewrite zlen_zdrop in * by lia. replace (Z.max 0 _) with (Z.of_nat n) in * by lia.
      rewrite Z.add_comm, Z.mod_add by (apply Z.pow_nonzero; lia).
      by apply Z.mod_small.
    - apply Z.mod_small. split; [lia|]. eapply Z.lt_le_trans; [apply Hbd|].
      apply Z.pow_le_mono_r; lia. }
  clearbody b'. unfold copy_at, zeros.
  pose proof (zlen_nonneg b') as Hnn.
  rewrite gocopy_same.
  2: { unfold ztake, zdrop. rewrite length_take, length_drop, length_replicate.
       unfold zlen in *. lia. }
  unfold zdrop at 1. rewrite drop_ge by (rewrite length_replicate; lia).
  rewrite app_nil_r. unfold ztake. rewrite take_replicate, Nat.min_l by lia.
  rewrite <- (Big.be_fixed_SetBytes (replicate _ 0 ++ b')).
  - rewrite length_app, length_replicate.
    replace (_ + _)%nat with n by (unfold zlen in *; lia).
    change (replicate (Z.to_nat (Z.of_nat n - zlen b')) 0) with (zeros (Z.of_nat n - zlen b')).
    rewrite Big.SetBytes_zeros, <- Hval.
    rewrite <- (Big.be_fixed_SetBytes (Big.be_fixed n (Big.SetBytes b))) by auto with golib.
    by rewrite Big.length_be_fixed, Big.SetBytes_be_fixed.
  - apply is_bytes_app. split; [apply is_bytes_zeros|done].
Qed.

Lemma BytesToHash_spec b : is_bytes b -> BytesToHash b = Big.be_fixed 32 (Big.SetBytes b).
Proof. apply (pad_into_zeros 32). Qed.

Lemma BytesToAddress_spec b :
  is_bytes b -> BytesToAddress b = Big.be_fixed 20 (Big.SetBytes b).
Proof. apply (pad_into_zeros 20). Qed.

Lemma BigToHash_spec v : 0 <= v -> BigToHash v = Big.be_fixed 32 v.
Proof.
  intros. unfold BigToHash. rewrite BytesToHash_spec by auto with golib.
  by rewrite Big.SetBytes_Bytes, Z.abs_eq.
Qed.

Lemma BigToAddress_spec v : 0 <= v -> BigToAddress v = Big.be_fixed 20 v.
Proof.
  intros. unfold BigToAddress. rewrite BytesToAddress_spec by auto with golib.
  by rewrite Big.SetBytes_Bytes, Z.abs_eq.
Qed.

Lemma is_array_be_fixed n v : is_array (Z.of_nat n) (Big.be_fixed n v).
Proof. split; [|auto with golib]. unfold zlen. by rewrite Big.length_be_fixed. Qed.

Lemma is_array_BytesToHash b : is_bytes b -> is_array 32 (BytesToHash b).
Proof. intros. rewrite BytesToHash_spec by done. apply (is_array_be_fixed 32). Qed.

Lemma is_array_BigToHash v : is_array 32 (BigToHash v).
Proof. apply is_array_BytesToHash. auto with golib. Qed.

Lemma is_array_BigToAddress v : is_array 20 (BigToAddress v).
Proof.
  unfold BigToAddress. rewrite BytesToAddress_spec by auto with golib.
  apply (is_array_be_fixed 20).
Qed.

Lemma is_array_zeroHash : is_array 32 zeroHash.
Proof. split; [done|apply is_bytes_zeros]. Qed.

Lemma is_array_zeroAddress : is_array 20 zeroAddress.
Proof. split; [done|apply is_bytes_zeros]. Qed.

Lemma Hash_Big_range h : is_array 32 h -> 0 <= Hash_Big h < 2 ^ 256.
Proof.
  intros [Hl Hb]. pose proof (Big.SetBytes_bound h Hb) as H. rewrite Hl in H. apply H.
Qed.

Lemma Address_Big_range a : is_array 20 a -> 0 <= Address_Big a < 2 ^ 160.
Proof.
  intros [Hl Hb]. pose proof (Big.SetBytes_bound a Hb) as H. rewrite Hl in H. apply H.
Qed.

Lemma Hash_Big_BigToHash v : 0 <= v < 2 ^ 256 -> Hash_Big (BigToHash v) = v.
Proof.
  intros. unfold Hash_Big. rewrite BigToHash_spec, Big.SetBytes_be_fixed by lia.
  by apply Z.mod_small.
Qed.

Lemma BigToHash_inj v w :
  0 <= v < 2 ^ 256 -> 0 <= w < 2 ^ 256 -> BigToHash v = BigToHash w -> v = w.
Proof. intros ?? H. by rewrite <- (Hash_Big_BigToHash v), <- (Hash_Big_BigToHash w), H. Qed.

Lemma RightPadBytes_spec s l :
  zlen s <= l -> RightPadBytes s l = s ++ zeros (l - zlen s).
Proof.
  intros Hl. pose proof (zlen_nonneg s). unfold RightPadBytes.
  rewrite (proj2 (Z.ltb_ge _ _)) by lia. unfold copy_at.
  unfold ztake at 1. simpl. rewrite Z.add_0_l.
  rewrite gocopy_same.
  - f_equal. unfold zdrop, zeros. rewrite drop_replicate. f_equal. lia.
  - unfold ztake, zdrop, zeros. rewrite length_take, length_drop, length_replicate.
    unfold zlen in *. lia.
Qed.

Lemma zlen_RightPadBytes s l : zlen s <= l -> zlen (RightPadBytes s l) = l.
Proof. intros. rewrite RightPadBytes_spec by done. autorewrite with golib. lia. Qed.

Lemma is_bytes_RightPadBytes s l : is_bytes s -> is_bytes (RightPadBytes s l).
Proof. intros. unfold RightPadBytes. case_match; auto with golib. Qed.

Lemma is_bytes_LeftPadBytes s l : is_bytes s -> is_bytes (LeftPadBytes s l).
Proof. intros. unfold LeftPadBytes. case_match; auto with golib. Qed.

End Common.

#[export] Hint Resolve Common.is_bytes_RightPadBytes Common.is_bytes_LeftPadBytes
  Common.is_array_BigToHash Common.is_array_BigToAddress : golib.
