(* ===== verification/Params.v ===== *)
(** [params]: the protocol constants ([protocol_params.go]) and the gas table
    ([gas_table.go]) used by the virtual machine and the state transition. *)
From S2P Require Import Prelude.

Module Params.

Definition MaximumExtraDataSize : Z := 32.
Definition CallValueTransferGas : Z := 9000.
Definition CallNewAccountGas : Z := 25000.
Definition TxGas : Z := 21000.
Definition TxGasContractCreation : Z := 53000.
Definition TxDataZeroGas : Z := 4.
Definition QuadCoeffDiv : Z := 512.
Definition SstoreSetGas : Z := 20000.
Definition LogDataGas : Z := 8.
Definition CallStipend : Z := 2300.
Definition EcrecoverGas : Z := 3000.
Definition Sha256WordGas : Z := 12.
Definition Sha3Gas : Z := 30.
Definition Sha256Gas : Z := 60.
Definition IdentityWordGas : Z := 3.
Definition Sha3WordGas : Z := 6.
Definition SstoreResetGas : Z := 5000.
Definition SstoreClearGas : Z := 5000.
Definition SstoreRefundGas : Z := 15000.
Definition JumpdestGas : Z := 1.
Definition IdentityGas : Z := 15.
Definition CreateDataGas : Z := 200.
Definition Ripemd160Gas : Z := 600.
Definition Ripemd160WordGas : Z := 120.
Definition CallCreateDepth : Z := 1024.
Definition LogGas : Z := 375.
Definition CopyGas : Z := 3.
Definition StackLimit : Z := 1024.
Definition LogTopicGas : Z := 375.
Definition CreateGas : Z := 32000.
Definition SuicideRefundGas : Z := 24000.
Definition MemoryGas : Z := 3.
Definition TxDataNonZeroGas : Z := 68.
Definition MaxCodeSize : Z := 24576.

Record GasTable := {
  ExtcodeSize : Z;
  ExtcodeCopy : Z;
  Balance : Z;
  SLoad : Z;
  Calls : Z;
  Suicide : Z;
  ExpByte : Z;
  CreateBySuicide : Z;
}.

Definition TiltGasTable : GasTable := {|
  ExtcodeSize := 700;
  ExtcodeCopy := 700;
  Balance := 400;
  SLoad := 200;
  Calls := 700;
  Suicide := 5000;
  ExpByte := 50;
  CreateBySuicide := 25000;
|}.

(** [ChainConfig.GasTable] *)
Definition ChainConfig_GasTable : GasTable := TiltGasTable.


(** The big integers; [TargetGasLimit] can be set from the command line. *)
Definition GasLimitBoundDivisor : Z := 1024.
Definition MinGasLimit : Z := 4096.
Definition GenesisGasLimit : Z := 4096.
Definition DifficultyBoundDivisor : Z := 2048.
Definition GenesisDifficulty : Z := 262144.
Definition MinimumDifficulty : Z := 262144.
End Params.
