(* ===== verification/Rlp.v ===== *)
(** [rlp]: the raw splitter of [raw.go] and the encoder of [encode.go].

    [Raw] models [readSize], [readKind], [Split], [SplitString], [SplitList] and
    [CountValues] with the panics of their index expressions.  [Enc] models the
    encoder: [encbuf] collects string data and list headers separately and
    [toBytes] merges them.  The reference encoding [Enc.spec] is the recursive
    definition of RLP; the theorems relate the three. *)
From S2P Require Import Prelude GoBig.

Inductive rlperr :=
| ErrUnexpectedEOF
| ErrCanonSize
| ErrValueTooLarge
| ErrExpectedString
| ErrExpectedList
| ErrNegativeBigInt.

Inductive Kind := Byte | String | List.
#[export] Instance Kind_eq_dec : EqDecision Kind.
Proof. solve_decision. Defined.

Abbreviation rlp := (outcome rlperr).

(** ** raw.go *)
Module Raw.

(** The byte [b[i]]; every use below is within the bounds checked by [readSize]. *)
Definition at_ (b : bytes) (i : nat) : Z := nth i b 0.

Definition sizeBytes (b : bytes) (slen : Z) : Z :=
  let shl i k := Z.shiftl (at_ b i) k in
  let or := Z.lor in
  match slen with
  | 1 => at_ b 0
  | 2 => or (shl 0%nat 8) (at_ b 1)
  | 3 => or (or (shl 0%nat 16) (shl 1%nat 8)) (at_ b 2)
  | 4 => or (or (or (shl 0%nat 24) (shl 1%nat 16)) (shl 2%nat 8)) (at_ b 3)
  | 5 => or (or (or (or (shl 0%nat 32) (shl 1%nat 24)) (shl 2%nat 16)) (shl 3%nat 8))
            (at_ b 4)
  | 6 => or (or (or (or (or (shl 0%nat 40) (shl 1%nat 32)) (shl 2%nat 24)) (shl 3%nat 16))
                (shl 4%nat 8)) (at_ b 5)
  | 7 => or (or (or (or (or (or (shl 0%nat 48) (shl 1%nat 40)) (shl 2%nat 32)) (shl 3%nat 24))
                    (shl 4%nat 16)) (shl 5%nat 8)) (at_ b 6)
  | 8 => or (or (or (or (or (or (or (shl 0%nat 56) (shl 1%nat 48)) (shl 2%nat 40))
                            (shl 3%nat 32)) (shl 4%nat 24)) (shl 5%nat 16)) (shl 6%nat 8))
            (at_ b 7)
  | _ => 0
  end.

Definition readSize (b : bytes) (slen : Z) : rlp Z :=
  if slen >? zlen b then Error ErrUnexpectedEOF
  else
    let s := sizeBytes b slen in
    if s <? 56 then Error ErrCanonSize
    else b0 ← or_panic (zget b 0);
      if b0 =? 0 then Error ErrCanonSize else Done s.

(** Rejects values larger than the input slice. *)
Definition checkSize (buf : bytes) (k : Kind) (tagsize contentsize : Z)
  : rlp (Kind * Z * Z) :=
  if contentsize >? u64 (zlen buf - tagsize) then Error ErrValueTooLarge
  else Done (k, tagsize, contentsize).

Definition readKind (buf : bytes) : rlp (Kind * Z * Z) :=
  match buf with
  | [] => Error ErrUnexpectedEOF
  | b :: _ =>
      if b <? 0x80 then checkSize buf Byte 0 1
      else if b <? 0xB8 then
        let contentsize := b - 0x80 in
        (* reject strings that should have been single bytes *)
        if contentsize =? 1 then
          b1 ← or_panic (zget buf 1);
          if b1 <? 128 then Error ErrCanonSize else checkSize buf String 1 contentsize
        else checkSize buf String 1 contentsize
      else if b <? 0xC0 then
        contentsize ← readSize (zdrop 1 buf) (b - 0xB7);
        checkSize buf String (b - 0xB7 + 1) contentsize
      else if b <? 0xF8 then checkSize buf List 1 (b - 0xC0)
      else
        contentsize ← readSize (zdrop 1 buf) (b - 0xF7);
        checkSize buf List (b - 0xF7 + 1) contentsize
  end.

Definition Split (b : bytes) : rlp (Kind * bytes * bytes) :=
  '(k, ts, cs) ← readKind b;
  content ← or_panic (slice b ts (ts + cs));
  rest ← or_panic (slice b (ts + cs) (zlen b));
  mret (k, content, rest).

Definition SplitString (b : bytes) : rlp (bytes * bytes) :=
  '(k, content, rest) ← Split b;
  if decide (k = List) then Error ErrExpectedString else mret (content, rest).

Definition SplitList (b : bytes) : rlp (bytes * bytes) :=
  '(k, content, rest) ← Split b;
  if decide (k = List) then mret (content, rest) else Error ErrExpectedList.

(** [for ; len(b) > 0; i++]: every value takes at least one byte, so [length b]
    rounds are enough. *)
Fixpoint countValues_loop (fuel : nat) (i : Z) (b : bytes) : rlp Z :=
  match b with
  | [] => Done i
  | _ =>
      match fuel with
      | O => NoFuel
      | S fuel =>
          '(_, tagsize, size) ← readKind b;
          rest ← or_panic (slice b (tagsize + size) (zlen b));
          countValues_loop fuel (i + 1) rest
      end
  end.
Definition CountValues (b : bytes) : rlp Z := countValues_loop (length b) 0 b.

End Raw.

(** ** encode.go *)
Module Enc.

(** The bytes [putint] stores at the start of its buffer. *)
Definition putint (i : Z) : bytes :=
  let byt k := u8 (Z.shiftr i k) in
  if i <? Z.shiftl 1 8 then [u8 i]
  else if i <? Z.shiftl 1 16 then [byt 8; u8 i]
  else if i <? Z.shiftl 1 24 then [byt 16; byt 8; u8 i]
  else if i <? Z.shiftl 1 32 then [byt 24; byt 16; byt 8; u8 i]
  else if i <? Z.shiftl 1 40 then [byt 32; byt 24; byt 16; byt 8; u8 i]
  else if i <? Z.shiftl 1 48 then [byt 40; byt 32; byt 24; byt 16; byt 8; u8 i]
  else if i <? Z.shiftl 1 56 then [byt 48; byt 40; byt 32; byt 24; byt 16; byt 8; u8 i]
  else [byt 56; byt 48; byt 40; byt 32; byt 24; byt 16; byt 8; u8 i].

(** [for size = 1; ; size++ { if i >>= 8; i == 0 { return size } }]: a [uint64]
    is zero after eight shifts. *)
Fixpoint intsize_loop (fuel : nat) (size i : Z) : Z :=
  match fuel with
  | O => size
  | S fuel =>
      let i := Z.shiftr i 8 in
      if i =? 0 then size else intsize_loop fuel (size + 1) i
  end.
Definition intsize (i : Z) : Z := intsize_loop 8 1 i.

Definition headsize (size : Z) : Z := if size <? 56 then 1 else 1 + intsize size.
Definition ListSize (contentSize : Z) : Z := u64 (headsize contentSize + contentSize).

(** The header bytes [puthead] writes. *)
Definition puthead (smalltag largetag size : Z) : bytes :=
  if size <? 56 then [u8 (smalltag + size)]
  else let b := putint size in u8 (largetag + zlen b) :: b.

Record listhead := { offset : Z; size : Z }.
Definition listhead_encode (head : listhead) : bytes := puthead 0xC0 0xF7 head.(size).

Record encbuf := { str : bytes; lheads : list listhead; lhsize : Z }.
Definition reset : encbuf := {| str := []; lheads := []; lhsize := 0 |}.

(** [w.str = append(w.str, b...)] *)
Definition append (b : bytes) (w : encbuf) : encbuf :=
  {| str := w.(str) ++ b; lheads := w.(lheads); lhsize := w.(lhsize) |}.

Definition encodeStringHeader (size : Z) (w : encbuf) : encbuf :=
  if size <? 56 then append [u8 (0x80 + size)] w
  else let b := putint size in append (u8 (0xB7 + zlen b) :: b) w.

Definition encodeString (b : bytes) (w : encbuf) : encbuf :=
  match b with
  | [x] => if x <=? 0x7F then append [x] w else append b (encodeStringHeader (zlen b) w)
  | _ => append b (encodeStringHeader (zlen b) w)
  end.

(** [list] returns the new header's index: the header is updated through it. *)
Definition list (w : encbuf) : nat * encbuf :=
  (length w.(lheads),
   {| str := w.(str);
      lheads := w.(lheads) ++ [{| offset := zlen w.(str); size := w.(lhsize) |}];
      lhsize := w.(lhsize) |}).

Definition buf_size (w : encbuf) : Z := zlen w.(str) + w.(lhsize).

Definition listEnd (lh : nat) (w : encbuf) : encbuf :=
  match w.(lheads) !! lh with
  | None => w
  | Some h =>
      let sz := buf_size w - h.(offset) - h.(size) in
      {| str := w.(str);
         lheads := <[lh := {| offset := h.(offset); size := sz |}]> w.(lheads);
         lhsize := w.(lhsize) + (if sz <? 56 then 1 else 1 + intsize sz) |}
  end.

(** String data and headers are written alternately to the output. *)
Fixpoint merge (heads : Datatypes.list listhead) (strpos : Z) (s : bytes) : bytes :=
  match heads with
  | [] => zdrop strpos s
  | h :: heads =>
      ztake (h.(offset) - strpos) (zdrop strpos s) ++ listhead_encode h
      ++ merge heads h.(offset) s
  end.
Definition toBytes (w : encbuf) : bytes := merge w.(lheads) 0 w.(str).

(** The encodable values, one constructor per writer that [makeWriter] selects. *)
Inductive value :=
| VRaw (b : bytes)                       (* writeRawValue *)
| VUint (i : Z)                          (* writeUint *)
| VBool (b : bool)                       (* writeBool *)
| VBigInt (i : option Z)                 (* writeBigIntPtr; nil is None *)
| VBytes (b : bytes)                     (* writeBytes, writeByteArray, writeString *)
| VNilInterface                          (* writeInterface of a nil interface *)
| VList (l : Datatypes.list value)       (* makeSliceWriter, makeStructWriter *)
| VTail (l : Datatypes.list value).      (* makeSliceWriter with the "tail" tag *)

Definition writeUint (i : Z) (w : encbuf) : encbuf :=
  if i =? 0 then append [0x80] w
  else if i <? 128 then append [u8 i] w
  else let b := putint i in append (u8 (0x80 + zlen b) :: b) w.

Definition writeBool (b : bool) (w : encbuf) : encbuf :=
  if b then append [0x01] w else append [0x80] w.

Definition writeBigInt (i : Z) (w : encbuf) : rlp encbuf :=
  if i <? 0 then Error ErrNegativeBigInt
  else if i =? 0 then Done (append [0x80] w)
  else Done (encodeString (Big.Bytes i) w).

Definition writeBigIntPtr (i : option Z) (w : encbuf) : rlp encbuf :=
  match i with
  | None => Done (append [0x80] w)
  | Some i => writeBigInt i w
  end.

Fixpoint write (v : value) (w : encbuf) : rlp encbuf :=
  let writes := fix writes (l : Datatypes.list value) (w : encbuf) : rlp encbuf :=
    match l with
    | [] => Done w
    | v :: l => w ← write v w; writes l w
    end in
  match v with
  | VRaw b => Done (append b w)
  | VUint i => Done (writeUint i w)
  | VBool b => Done (writeBool b w)
  | VBigInt i => writeBigIntPtr i w
  | VBytes b => Done (encodeString b w)
  | VNilInterface => Done (append [0xC0] w)
  | VList l => let '(lh, w) := list w in w ← writes l w; Done (listEnd lh w)
  | VTail l => writes l w
  end.

Definition EncodeToBytes (v : value) : rlp bytes :=
  w ← write v reset; Done (toBytes w).

End Enc.

(** ** The RLP format *)
Module Spec.

(** The minimal big-endian length prefix of a string or list. *)
Definition head (small large n : Z) : bytes :=
  if n <? 56 then [small + n]
  else let l := Big.Bytes n in (large + zlen l) :: l.

Definition string (b : bytes) : bytes :=
  match b with
  | [x] => if x <? 0x80 then [x] else head 0x80 0xB7 1 ++ [x]
  | _ => head 0x80 0xB7 (zlen b) ++ b
  end.

Definition lst (content : bytes) : bytes := head 0xC0 0xF7 (zlen content) ++ content.

Fixpoint enc (v : Enc.value) : bytes :=
  match v with
  | Enc.VRaw b => b
  | Enc.VUint i => string (Big.Bytes i)
  | Enc.VBool b => string (Big.Bytes (if b then 1 else 0))
  | Enc.VBigInt i => string (Big.Bytes (default 0 i))
  | Enc.VBytes b => string b
  | Enc.VNilInterface => lst []
  | Enc.VList l => lst (concat (map enc l))
  | Enc.VTail l => concat (map enc l)
  end.

(** What a Go value of each kind satisfies: integers fit their width, big
    integers are not negative, string contents are bytes. *)
Inductive encodable : Enc.value -> Prop :=
| enc_raw b : is_bytes b -> encodable (Enc.VRaw b)
| enc_uint i : 0 <= i < 2 ^ 64 -> encodable (Enc.VUint i)
| enc_bool b : encodable (Enc.VBool b)
| enc_big i : 0 <= default 0 i -> encodable (Enc.VBigInt i)
| enc_bytes b : is_bytes b -> encodable (Enc.VBytes b)
| enc_nil : encodable Enc.VNilInterface
| enc_list l : Forall encodable l -> encodable (Enc.VList l)
| enc_tail l : Forall encodable l -> encodable (Enc.VTail l).

End Spec.

(** ** Lemmas *)

Section sizes.

Lemma lor_shiftl_add x y k : 0 <= k -> 0 <= y < 2 ^ k -> Z.lor (Z.shiftl x k) y = x * 2 ^ k + y.
Proof.
  intros Hk Hy. rewrite Z.shiftl_mul_pow2 by done.
  assert (Hland : Z.land (x * 2 ^ k) y = 0).
  { apply Z.bits_inj'. intros n Hn. rewrite Z.land_spec, Z.bits_0.
    destruct (decide (n < k)); [by rewrite Z.mul_pow2_bits_low|].
    destruct (decide (y = 0)) as [->|]; [by rewrite Z.bits_0, andb_false_r|].
    rewrite (Z.bits_above_log2 y), andb_false_r; [done|lia|].
    apply Z.log2_lt_pow2; [lia|]. eapply Z.lt_le_trans; [apply Hy|].
    apply Z.pow_le_mono_r; lia. }
  rewrite <- Z.lxor_lor, <- Z.add_nocarry_lxor by done. done.
Qed.

Lemma horner_SetBytes l :
  is_bytes l -> fold_left (fun acc b => Z.lor (Z.shiftl acc 8) b) l 0 = Big.SetBytes l.
Proof.
  induction l as [|b l IH] using rev_ind; [done|].
  rewrite is_bytes_snoc. intros [Hl Hb]. rewrite fold_left_app, Big.SetBytes_snoc, <- IH by done.
  apply lor_shiftl_add; [lia|done].
Qed.

Lemma sizeBytes_spec l t :
  is_bytes l -> 1 <= zlen l <= 8 -> Raw.sizeBytes (l ++ t) (zlen l) = Big.SetBytes l.
Proof.
  intros Hl Hlen. rewrite <- horner_SetBytes by done.
  do 9 (destruct l as [|? l]; [try (vm_compute in Hlen; lia);
    cbn [fold_left]; rewrite ?Z.shiftl_0_l, ?Z.lor_0_l, ?Z.shiftl_lor, ?Z.shiftl_shiftl by lia;
    reflexivity|]).
  rewrite !zlen_cons in Hlen. pose proof (zlen_nonneg l). lia.
Qed.

Lemma Bytes_eq n i :
  (0 < n)%nat -> 2 ^ (8 * (Z.of_nat n - 1)) <= i < 2 ^ (8 * Z.of_nat n) ->
  Big.Bytes i = Big.be_fixed n i.
Proof.
  intros Hn Hi.
  assert (0 < 2 ^ (8 * (Z.of_nat n - 1))) by (apply Z.pow_pos_nonneg; lia).
  unfold Big.Bytes. rewrite Z.abs_eq by lia. f_equal.
  assert (Big.BitLen i <= 8 * Z.of_nat n) by (apply Big.BitLen_le; lia).
  assert (~ Big.BitLen i <= 8 * (Z.of_nat n - 1)) by (rewrite Big.BitLen_le; lia).
  assert ((Big.BitLen i + 7) / 8 = Z.of_nat n); [|lia].
  symmetry. apply Z.div_unique with ((Big.BitLen i + 7) - 8 * Z.of_nat n); lia.
Qed.

Lemma putint_Bytes i : 0 < i < 2 ^ 64 -> Enc.putint i = Big.Bytes i.
Proof.
  intros Hi. unfold Enc.putint, u8.
  repeat match goal with |- context [Z.shiftl 1 ?k] =>
    let v := eval vm_compute in (Z.shiftl 1 k) in change (Z.shiftl 1 k) with v end.
  repeat case_match; bool_to_prop;
    [rewrite (Bytes_eq 1)|rewrite (Bytes_eq 2)|rewrite (Bytes_eq 3)|rewrite (Bytes_eq 4)
    |rewrite (Bytes_eq 5)|rewrite (Bytes_eq 6)|rewrite (Bytes_eq 7)|rewrite (Bytes_eq 8)];
    try (simpl; lia); cbn [Big.be_fixed app];
    rewrite ?Z.shiftr_div_pow2, ?Z.div_div by lia; reflexivity.
Qed.

Lemma intsize_loop_spec fuel size i :
  0 <= i < 256 ^ (Z.of_nat fuel) -> 0 < i ->
  Enc.intsize_loop fuel size i = size + zlen (Big.Bytes i) - 1.
Proof.
  revert size i. induction fuel as [|fuel IH]; intros size i Hi Hpos.
  { simpl in Hi. lia. }
  cbn [Enc.intsize_loop]. rewrite Z.shiftr_div_pow2 by lia. change (2 ^ 8) with 256.
  rewrite Nat2Z.inj_succ, Z.pow_succ_r in Hi by lia.
  case_match eqn:E; bool_to_prop.
  - assert (i < 256) by (pose proof (Z.mul_succ_div_gt i 256); lia).
    rewrite (Bytes_eq 1) by (simpl; lia). change (zlen (Big.be_fixed 1 i)) with 1. lia.
  - assert (0 < i / 256) by (pose proof (Z.div_pos i 256); lia).
    rewrite IH; [|split; [lia|apply Z.div_lt_upper_bound; lia]|done].
    enough (zlen (Big.Bytes i) = zlen (Big.Bytes (i / 256)) + 1) by lia.
    rewrite !Big.zlen_Bytes.
    assert (Hbl : Big.BitLen i = Big.BitLen (i / 256) + 8); [|rewrite Hbl].
    { unfold Big.BitLen. rewrite !(proj2 (Z.eqb_neq _ _)) by lia.
      rewrite !Z.abs_eq by lia. change 256 with (2 ^ 8).
      rewrite <- Z.shiftr_div_pow2, Z.log2_shiftr by lia.
      assert (8 <= Z.log2 i); [|lia]. apply Z.log2_le_pow2; [lia|].
      pose proof (Z.mul_div_le i 256). lia. }
    replace (Big.BitLen (i / 256) + 8 + 7) with (Big.BitLen (i / 256) + 7 + 1 * 8) by lia.
    rewrite Z.div_add by lia. lia.
Qed.

Lemma intsize_spec i : 0 < i < 2 ^ 64 -> Enc.intsize i = zlen (Big.Bytes i).
Proof.
  intros. unfold Enc.intsize. rewrite intsize_loop_spec; [lia| |lia].
  change (256 ^ Z.of_nat 8) with (2 ^ 64). lia.
Qed.

Lemma zlen_Bytes_u64 i : 0 < i < 2 ^ 64 -> 1 <= zlen (Big.Bytes i) <= 8.
Proof.
  intros. split.
  - destruct (Big.Bytes i) as [|] eqn:E.
    + pose proof (Big.SetBytes_Bytes i) as H'. rewrite E in H'. cbn in H'. lia.
    + rewrite zlen_cons. pose proof (zlen_nonneg l). lia.
  - apply Big.zlen_Bytes_le; [lia|]. change (256 ^ 8) with (2 ^ 64). lia.
Qed.

Lemma puthead_spec small large n :
  0 <= n < 2 ^ 64 -> 0 <= small <= 0xC0 -> 0 <= large <= 0xF7 ->
  Enc.puthead small large n = Spec.head small large n.
Proof.
  intros Hn Hs Hl. unfold Enc.puthead, Spec.head, u8. case_match; bool_to_prop.
  - rewrite Z.mod_small by lia. done.
  - rewrite putint_Bytes by lia. pose proof (zlen_Bytes_u64 n).
    rewrite Z.mod_small by lia. done.
Qed.

Lemma zlen_head small large n : 0 <= n < 2 ^ 64 ->
  zlen (Spec.head small large n) = Enc.headsize n.
Proof.
  intros. unfold Spec.head, Enc.headsize. case_match; bool_to_prop; [done|].
  rewrite zlen_cons, intsize_spec by lia. lia.
Qed.

End sizes.

(** ** The encoder implements the format *)
Section encoder.

Lemma encodeStringHeader_spec n w :
  0 <= n < 2 ^ 64 -> Enc.encodeStringHeader n w = Enc.append (Spec.head 0x80 0xB7 n) w.
Proof.
  intros. rewrite <- puthead_spec by lia.
  unfold Enc.encodeStringHeader, Enc.puthead. by case_match.
Qed.

Lemma append_append a b w : Enc.append b (Enc.append a w) = Enc.append (a ++ b) w.
Proof. unfold Enc.append. simpl. by rewrite app_assoc. Qed.

Lemma encodeString_spec b w :
  zlen b < 2 ^ 64 -> Enc.encodeString b w = Enc.append (Spec.string b) w.
Proof.
  intros Hb. pose proof (zlen_nonneg b). unfold Enc.encodeString, Spec.string.
  destruct b as [|x [|y b]].
  - rewrite encodeStringHeader_spec by done. apply append_append.
  - replace (x <=? 0x7F) with (x <? 0x80) by (apply eq_true_iff_eq; lia).
    case_match; [done|]. rewrite encodeStringHeader_spec by lia. apply append_append.
  - rewrite encodeStringHeader_spec by lia. apply append_append.
Qed.

Lemma string_Bytes_small i : 0 < i < 128 -> Spec.string (Big.Bytes i) = [i].
Proof.
  intros. rewrite (Bytes_eq 1) by (simpl; lia). cbn [Big.be_fixed app Spec.string].
  rewrite Z.mod_small by lia. by rewrite (proj2 (Z.ltb_lt _ _)) by lia.
Qed.

Lemma writeUint_spec i w : 0 <= i < 2 ^ 64 ->
  Enc.writeUint i w = Enc.append (Spec.string (Big.Bytes i)) w.
Proof.
  intros Hi. unfold Enc.writeUint.
  destruct (Z.eqb_spec i 0) as [->|]; [done|].
  destruct (Z.ltb_spec i 128).
  - rewrite string_Bytes_small by lia. unfold u8. by rewrite Z.mod_small by lia.
  - rewrite putint_Bytes by lia. f_equal. pose proof (zlen_Bytes_u64 i).
    assert (Hs : Spec.string (Big.Bytes i) = Spec.head 0x80 0xB7 (zlen (Big.Bytes i)) ++ Big.Bytes i).
    { unfold Spec.string. destruct (Big.Bytes i) as [|x [|? ?]] eqn:E; [done| |done].
      assert (x = i).
      { pose proof (Big.SetBytes_Bytes i) as Hv. rewrite E, Z.abs_eq in Hv by lia.
        rewrite <- Hv. cbn. lia. }
      subst x. by rewrite (proj2 (Z.ltb_ge _ _)) by lia. }
    rewrite Hs. unfold Spec.head, u8. rewrite (proj2 (Z.ltb_lt _ _)) by lia.
    rewrite Z.mod_small by lia. done.
Qed.

(** [merge] with a later starting point: data before the next header is copied. *)
Lemma merge_skip hs p n s :
  0 <= p -> 0 <= n -> p + n <= zlen s -> Forall (fun h => p + n <= h.(Enc.offset)) hs ->
  Enc.merge hs p s = ztake n (zdrop p s) ++ Enc.merge hs (p + n) s.
Proof.
  intros Hp Hn Hlen Hhs. destruct hs as [|h hs]; cbn [Enc.merge].
  - unfold ztake, zdrop. replace (Z.to_nat (p + n)) with (Z.to_nat p + Z.to_nat n)%nat by lia.
    rewrite <- drop_drop. symmetry. apply take_drop.
  - apply Forall_cons in Hhs as [Hh _]. rewrite (app_assoc (ztake n (zdrop p s))). f_equal.
    unfold ztake, zdrop.
    replace (Z.to_nat (h.(Enc.offset) - p))
      with (Z.to_nat n + Z.to_nat (h.(Enc.offset) - (p + n)))%nat by lia.
    replace (Z.to_nat (p + n)) with (Z.to_nat p + Z.to_nat n)%nat by lia.
    rewrite <- drop_drop. generalize (drop (Z.to_nat p) s) as t. intros t.
    rewrite <- (take_drop (Z.to_nat n) (take (_ + _) t)).
    rewrite take_take, Nat.min_l by lia. f_equal.
    rewrite skipn_firstn_comm. f_equal. lia.
Qed.

(** What a writer adds to the buffer: [sd] string bytes and headers [hs] whose
    merge is the encoding [e], whatever is written afterwards. *)
Definition emits (e : bytes) (w w' : Enc.encbuf) : Prop :=
  exists sd hs,
    w'.(Enc.str) = w.(Enc.str) ++ sd /\
    w'.(Enc.lheads) = w.(Enc.lheads) ++ hs /\
    Enc.buf_size w' = Enc.buf_size w + zlen e /\
    Forall (fun h => zlen w.(Enc.str) <= h.(Enc.offset)) hs /\
    forall t ks, Forall (fun h => zlen w'.(Enc.str) <= h.(Enc.offset)) ks ->
      Enc.merge (hs ++ ks) (zlen w.(Enc.str)) (w'.(Enc.str) ++ t) =
      e ++ Enc.merge ks (zlen w'.(Enc.str)) (w'.(Enc.str) ++ t).

Lemma emits_append b w : emits b w (Enc.append b w).
Proof.
  exists b, []. unfold Enc.buf_size. cbn [Enc.append Enc.str Enc.lheads Enc.lhsize].
  rewrite !app_nil_r, !zlen_app. split_and!; [done|done|lia|constructor|].
  intros t ks Hks. cbn [app].
  pose proof (zlen_nonneg w.(Enc.str)). pose proof (zlen_nonneg b). pose proof (zlen_nonneg t).
  rewrite (merge_skip ks _ (zlen b)) by (rewrite ?zlen_app; auto; lia). f_equal.
  unfold ztake, zdrop, zlen. rewrite !Nat2Z.id.
  rewrite <- app_assoc, drop_app_length, take_app_length. done.
Qed.

Lemma emits_nil w : emits [] w w.
Proof.
  exists [], []. rewrite !app_nil_r. split_and!; [done..|rewrite zlen_nil; lia|constructor|done].
Qed.

Lemma emits_trans e1 e2 w1 w2 w3 :
  emits e1 w1 w2 -> emits e2 w2 w3 -> emits (e1 ++ e2) w1 w3.
Proof.
  intros (sd1 & hs1 & Hs1 & Hh1 & Hb1 & Ho1 & Hm1) (sd2 & hs2 & Hs2 & Hh2 & Hb2 & Ho2 & Hm2).
  assert (Hle1 : zlen w1.(Enc.str) <= zlen w2.(Enc.str)).
  { rewrite Hs1, zlen_app. pose proof (zlen_nonneg sd1). lia. }
  assert (Hle2 : zlen w2.(Enc.str) <= zlen w3.(Enc.str)).
  { rewrite Hs2, zlen_app. pose proof (zlen_nonneg sd2). lia. }
  exists (sd1 ++ sd2), (hs1 ++ hs2). split_and!.
  - by rewrite Hs2, Hs1, app_assoc.
  - by rewrite Hh2, Hh1, app_assoc.
  - rewrite zlen_app. lia.
  - apply Forall_app. split; [done|]. eapply Forall_impl; [exact Ho2|]. intros h Hh; cbv beta in *; lia.
  - intros t ks Hks. rewrite <- !app_assoc.
    rewrite Hs2, <- app_assoc, Hm1.
    + rewrite app_assoc, <- Hs2. f_equal. by apply Hm2.
    + apply Forall_app. split; [done|]. eapply Forall_impl; [exact Hks|]. intros h Hh; cbv beta in *; lia.
Qed.

(** Closing a list turns the emitted content into a list encoding. *)
Lemma emits_list e w w' :
  zlen e < 2 ^ 64 -> emits e (Enc.list w).2 w' ->
  emits (Spec.lst e) w (Enc.listEnd (Enc.list w).1 w').
Proof.
  intros He (sd & hs & Hs & Hh & Hb & Ho & Hm).
  unfold Enc.list in *. cbn [fst snd Enc.str Enc.lheads Enc.lhsize] in *.
  unfold Enc.buf_size in *. cbn [Enc.str Enc.lhsize] in *.
  pose proof (zlen_nonneg e).
  unfold Enc.listEnd, Enc.buf_size. rewrite Hh, <- app_assoc. cbn [app].
  rewrite list_lookup_middle by done. cbn [Enc.offset Enc.size].
  replace (zlen w'.(Enc.str) + w'.(Enc.lhsize) - zlen w.(Enc.str) - w.(Enc.lhsize))
    with (zlen e) by lia.
  rewrite insert_app_r_alt, Nat.sub_diag by done. cbn [app].
  exists sd, ({| Enc.offset := zlen w.(Enc.str); Enc.size := zlen e |} :: hs).
  cbn [Enc.str Enc.lheads Enc.lhsize].
  split_and!; [done|done| |by constructor|].
  - unfold Spec.lst. rewrite zlen_app, zlen_head by lia. unfold Enc.headsize.
    unfold Enc.buf_size. cbn [Enc.str Enc.lhsize]. lia.
  - intros t ks Hks. cbn [app Enc.merge Enc.offset]. rewrite Z.sub_diag.
    unfold ztake. cbn [Z.to_nat take app]. rewrite Hm by done.
    unfold Enc.listhead_encode, Spec.lst. cbn [Enc.size].
    rewrite puthead_spec by lia. by rewrite <- app_assoc.
Qed.

Lemma value_ind' (P : Enc.value -> Prop) :
  (forall b, P (Enc.VRaw b)) -> (forall i, P (Enc.VUint i)) -> (forall b, P (Enc.VBool b)) ->
  (forall i, P (Enc.VBigInt i)) -> (forall b, P (Enc.VBytes b)) -> P Enc.VNilInterface ->
  (forall l, Forall P l -> P (Enc.VList l)) -> (forall l, Forall P l -> P (Enc.VTail l)) ->
  forall v, P v.
Proof.
  intros H1 H2 H3 H4 H5 H6 H7 H8.
  fix IH 1. intros [b|i|b|i|b| |l|l];
    [apply H1|apply H2|apply H3|apply H4|apply H5|apply H6|apply H7|apply H8];
    (induction l as [|v l IHl]; constructor; [apply IH|apply IHl]).
Qed.

Lemma zlen_string_ge b : zlen b <= zlen (Spec.string b).
Proof.
  unfold Spec.string. destruct b as [|x [|y b]]; [done| |].
  - case_match; rewrite ?zlen_app; pose proof (zlen_nonneg (Spec.head 128 183 1)); lia.
  - rewrite zlen_app. pose proof (zlen_nonneg (Spec.head 128 183 (zlen (x :: y :: b)))). lia.
Qed.

Lemma zlen_lst_ge b : zlen b <= zlen (Spec.lst b).
Proof.
  unfold Spec.lst. rewrite zlen_app.
  pose proof (zlen_nonneg (Spec.head 0xC0 0xF7 (zlen b))). lia.
Qed.

Fixpoint writes (l : list Enc.value) (w : Enc.encbuf) : rlp Enc.encbuf :=
  match l with
  | [] => Done w
  | v :: l => w ← Enc.write v w; writes l w
  end.

Lemma write_list l w :
  Enc.write (Enc.VList l) w =
  (w' ← writes l (Enc.list w).2; Done (Enc.listEnd (Enc.list w).1 w')).
Proof. done. Qed.

Lemma writes_spec l :
  Forall (fun v => forall w, Spec.encodable v -> zlen (Spec.enc v) < 2 ^ 64 ->
    exists w', Enc.write v w = Done w' /\ emits (Spec.enc v) w w') l ->
  forall w, Forall Spec.encodable l -> zlen (concat (map Spec.enc l)) < 2 ^ 64 ->
  exists w', writes l w = Done w' /\ emits (concat (map Spec.enc l)) w w'.
Proof.
  induction 1 as [|v l Hv Hl IH]; intros w Henc Hlen.
  { exists w. split; [done|]. apply emits_nil. }
  cbn [map concat] in *. rewrite zlen_app in Hlen. apply Forall_cons in Henc as [? ?].
  pose proof (zlen_nonneg (Spec.enc v)).
  pose proof (zlen_nonneg (concat (map Spec.enc l))).
  destruct (Hv w) as (w1 & Hw1 & He1); [done|lia|].
  destruct (IH w1) as (w2 & Hw2 & He2); [done|lia|].
  exists w2. split; [|by eapply emits_trans].
  cbn [writes]. rewrite Hw1. exact Hw2.
Qed.

Lemma write_spec v : forall w, Spec.encodable v -> zlen (Spec.enc v) < 2 ^ 64 ->
  exists w', Enc.write v w = Done w' /\ emits (Spec.enc v) w w'.
Proof.
  induction v as [b|i|b|i|b| |l IH|l IH] using value_ind'; intros w Henc Hlen;
    inversion Henc; subst; cbn [Spec.enc] in *.
  - eexists. split; [reflexivity|]. apply emits_append.
  - eexists. split; [reflexivity|]. rewrite writeUint_spec by done. apply emits_append.
  - eexists. split; [reflexivity|]. destruct b; apply emits_append.
  - destruct i as [i|]; cbn [Enc.write Enc.writeBigIntPtr default] in *.
    2: { eexists. split; [reflexivity|]. apply emits_append. }
    unfold Enc.writeBigInt. cbn in *. rewrite (proj2 (Z.ltb_ge _ _)) by lia.
    pose proof (zlen_string_ge (Big.Bytes i)).
    destruct (Z.eqb_spec i 0) as [->|];
      (eexists; split; [reflexivity|]); rewrite ?encodeString_spec by lia; apply emits_append.
  - eexists. split; [reflexivity|]. pose proof (zlen_string_ge b).
    rewrite encodeString_spec by lia. apply emits_append.
  - eexists. split; [reflexivity|]. apply emits_append.
  - pose proof (zlen_lst_ge (concat (map Spec.enc l))).
    destruct (writes_spec l IH (Enc.list w).2) as (w' & Hw & He); [done|lia|].
    exists (Enc.listEnd (Enc.list w).1 w'). rewrite write_list, Hw.
    split; [done|]. apply emits_list; [lia|done].
  - by apply (writes_spec l IH w).
Qed.

Lemma EncodeToBytes_spec v : Spec.encodable v -> zlen (Spec.enc v) < 2 ^ 64 ->
  Enc.EncodeToBytes v = Done (Spec.enc v).
Proof.
  intros Henc Hlen. destruct (write_spec v Enc.reset Henc Hlen) as (w' & Hw & sd & hs & Hs & Hh & _ & _ & Hm).
  unfold Enc.EncodeToBytes. rewrite Hw. cbn [mbind outcome_bind]. f_equal.
  unfold Enc.toBytes. cbn in Hh. rewrite Hh.
  specialize (Hm [] [] (Forall_nil_2 _)). rewrite !app_nil_r in Hm.
  change (zlen (Enc.str Enc.reset)) with 0 in Hm. rewrite Hm. cbn [Enc.merge].
  unfold zdrop, zlen. rewrite Nat2Z.id, drop_all. apply app_nil_r.
Qed.

End encoder.

(** ** The splitter accepts exactly the canonical encodings *)
Section splitter.

(** The canonical encoding of one item of each kind. *)
Inductive item : Kind -> bytes -> bytes -> Prop :=
| item_byte x : 0 <= x < 0x80 -> item Byte [x] [x]
| item_string c :
    (forall x, c = [x] -> 0x80 <= x) -> item String c (Spec.head 0x80 0xB7 (zlen c) ++ c)
| item_list c : item List c (Spec.lst c).

Lemma Bytes_SetBytes x l :
  is_bytes (x :: l) -> x <> 0 -> Big.Bytes (Big.SetBytes (x :: l)) = x :: l.
Proof.
  intros Hb Hx. pose proof Hb as [Hx' Hl]%is_bytes_cons. unfold is_byte in Hx'.
  rewrite (Bytes_eq (length (x :: l))); [by apply Big.be_fixed_SetBytes|simpl; lia|].
  pose proof (Big.SetBytes_bound (x :: l) Hb) as Hbd. unfold zlen in Hbd.
  rewrite !Z.pow_mul_r by (simpl length; lia). change (2 ^ 8) with 256.
  split; [|apply Hbd]. rewrite Big.SetBytes_cons.
  pose proof (Big.SetBytes_bound l Hl). unfold zlen in *. simpl length.
  replace (Z.of_nat (S (length l)) - 1) with (Z.of_nat (length l)) by lia. nia.
Qed.

Lemma slice_app_head {A} (a b c : list A) :
  slice (a ++ b ++ c) (zlen a) (zlen a + zlen b) = Some b.
Proof.
  pose proof (zlen_nonneg a). pose proof (zlen_nonneg b). pose proof (zlen_nonneg c).
  rewrite slice_Some by (rewrite ?zlen_app; lia). f_equal.
  replace (zlen a + zlen b - zlen a) with (zlen b) by lia.
  unfold ztake, zdrop, zlen. by rewrite !Nat2Z.id, drop_app_length, take_app_length.
Qed.

Lemma slice_app_tail {A} (a b : list A) : slice (a ++ b) (zlen a) (zlen (a ++ b)) = Some b.
Proof.
  pose proof (zlen_nonneg a). pose proof (zlen_nonneg b). rewrite zlen_app.
  rewrite <- (app_nil_r b) at 1. apply slice_app_head.
Qed.

Lemma checkSize_spec k buf ts cs :
  0 <= ts <= zlen buf -> zlen buf < 2 ^ 64 ->
  Raw.checkSize buf k ts cs =
    if cs <=? zlen buf - ts then Done (k, ts, cs) else Error ErrValueTooLarge.
Proof.
  intros. unfold Raw.checkSize. rewrite u64_small by lia. rewrite Z.gtb_ltb, Z.leb_antisym.
  by destruct (_ <? _).
Qed.

(** A long length field: the bytes of [n] for some [n >= 56]. *)
Lemma readSize_spec b slen n :
  is_bytes b -> 1 <= slen <= 8 ->
  Raw.readSize b slen = Done n <->
  56 <= n < 2 ^ 64 /\ exists t, b = Big.Bytes n ++ t /\ zlen (Big.Bytes n) = slen.
Proof.
  intros Hb Hs. unfold Raw.readSize. rewrite Z.gtb_ltb. split.
  - case_match eqn:E; [done|]. bool_to_prop. intros H.
    pose proof (take_drop (Z.to_nat slen) b) as Hsplit.
    set (l := take (Z.to_nat slen) b) in *.
    assert (Hlen : zlen l = slen) by (subst l; unfold zlen in *; rewrite length_take; lia).
    assert (Hl : is_bytes l) by (by apply Forall_take).
    rewrite <- Hsplit, <- Hlen, sizeBytes_spec in H by (done || lia).
    case_match eqn:E2; [done|]. bool_to_prop.
    destruct l as [|x l]; [rewrite zlen_nil in Hlen; lia|].
    cbn [app] in H. rewrite zget_0 in H. simpl_outcome in H.
    case_match eqn:E3; [done|]. bool_to_prop. injection H as <-. pose proof (Big.SetBytes_bound _ Hl) as Hbd.
    split.
    + split; [done|]. eapply Z.lt_le_trans; [apply Hbd|]. rewrite Hlen.
      change (2 ^ 64) with (256 ^ 8). apply Z.pow_le_mono_r; lia.
    + exists (drop (Z.to_nat slen) b). by rewrite Bytes_SetBytes.
  - intros (Hn & t & -> & Hlen). rewrite zlen_app. pose proof (zlen_nonneg t).
    rewrite (proj2 (Z.ltb_ge _ _)) by lia. rewrite <- Hlen.
    rewrite sizeBytes_spec by (auto with golib; lia).
    rewrite Big.SetBytes_Bytes, Z.abs_eq by lia. rewrite (proj2 (Z.ltb_ge _ _)) by lia.
    destruct (Big.Bytes n) as [|x l] eqn:E; [rewrite zlen_nil in Hlen; lia|].
    cbn [app]. rewrite zget_0. simpl_outcome. case_match eqn:E3; [|done]. bool_to_prop. subst x.
    (* a leading zero byte would make the encoding longer than needed *)
    exfalso. pose proof (Big.SetBytes_Bytes n) as Hv. rewrite E, Z.abs_eq in Hv by lia.
    rewrite Big.SetBytes_cons, Z.mul_0_l, Z.add_0_l in Hv.
    assert (Hl : is_bytes l).
    { pose proof (Big.is_bytes_Bytes n) as Hb'. rewrite E in Hb'.
      by apply is_bytes_cons in Hb' as [_ ?]. }
    pose proof (Big.SetBytes_bound l Hl) as Hbd. rewrite Hv in Hbd.
    assert (zlen (Big.Bytes n) <= zlen l).
    { apply Big.zlen_Bytes_le; [apply zlen_nonneg|lia]. }
    rewrite E, zlen_cons in *. lia.
Qed.

Lemma head_short small large n : n < 56 -> Spec.head small large n = [small + n].
Proof. intros. unfold Spec.head. by rewrite (proj2 (Z.ltb_lt _ _)) by lia. Qed.

Lemma head_long small large n :
  56 <= n -> Spec.head small large n = (large + zlen (Big.Bytes n)) :: Big.Bytes n.
Proof. intros. unfold Spec.head. by rewrite (proj2 (Z.ltb_ge _ _)) by lia. Qed.

(** The slices [Split] takes once the header is known. *)
Definition split_at (b : bytes) (m : rlp (Kind * Z * Z)) : rlp (Kind * bytes * bytes) :=
  '(k, ts, cs) ← m;
  content ← or_panic (slice b ts (ts + cs));
  rest ← or_panic (slice b (ts + cs) (zlen b));
  mret (k, content, rest).

Lemma split_at_head (h t : bytes) k cs :
  0 <= cs <= zlen t ->
  split_at (h ++ t) (Done (k, zlen h, cs)) = Done (k, ztake cs t, zdrop cs t).
Proof.
  intros Hcs. set (c := ztake cs t). set (r := zdrop cs t).
  assert (Ht : t = c ++ r) by (symmetry; apply take_drop).
  assert (Hc : cs = zlen c) by (subst c; rewrite zlen_ztake; lia).
  unfold split_at. simpl_outcome. rewrite Ht, Hc, slice_app_head. simpl_outcome.
  rewrite app_assoc, <- zlen_app, slice_app_tail. done.
Qed.

(** Headers of one byte. *)
Lemma short_sound k' small x b k c r :
  small <= x -> zlen b < 2 ^ 63 ->
  (forall c r, zlen c = x - small -> b = c ++ r -> item k' c ([x] ++ c)) ->
  split_at (x :: b) (Raw.checkSize (x :: b) k' 1 (x - small)) = Done (k, c, r) ->
  exists e, item k c e /\ x :: b = e ++ r.
Proof.
  intros Hs Hlen Hitem. pose proof (zlen_nonneg b).
  rewrite checkSize_spec by (rewrite zlen_cons; lia).
  rewrite zlen_cons. case_match; bool_to_prop; [|done].
  rewrite (split_at_head [x] b k' (x - small) ltac:(lia)
    : split_at (_ :: b) (Done (k', 1, _)) = _).
  intros [= <- <- <-].
  assert (Hbs : b = ztake (x - small) b ++ zdrop (x - small) b) by (symmetry; apply take_drop).
  eexists. split; [eapply Hitem; [rewrite zlen_ztake; lia|done]|].
  cbn [app]. f_equal. done.
Qed.

(** Headers with a length field. *)
Lemma long_sound k' small large x b k c r :
  is_bytes b -> 1 <= x - large <= 8 -> zlen b < 2 ^ 63 ->
  (forall c, 56 <= zlen c -> item k' c (Spec.head small large (zlen c) ++ c)) ->
  split_at (x :: b) (s ← Raw.readSize b (x - large);
                     Raw.checkSize (x :: b) k' (x - large + 1) s) = Done (k, c, r) ->
  exists e, item k c e /\ x :: b = e ++ r.
Proof.
  intros Hb Hsl Hlen Hitem.
  destruct (Raw.readSize b (x - large)) as [s| | |] eqn:Ers; try done.
  apply readSize_spec in Ers as (Hs & t & Ht & Hsz); [|done..].
  pose proof (zlen_nonneg t).
  assert (Hzb : zlen b = x - large + zlen t) by (rewrite Ht, zlen_app; lia).
  simpl_outcome. rewrite checkSize_spec by (rewrite zlen_cons; lia).
  rewrite zlen_cons. case_match; bool_to_prop; [|done].
  pose proof (split_at_head (x :: Big.Bytes s) t k' s ltac:(lia)) as Hsp.
  rewrite zlen_cons, Hsz in Hsp. cbn [app] in Hsp. rewrite <- Ht in Hsp.
  rewrite Hsp. intros [= <- <- <-].
  assert (Hc : zlen (ztake s t) = s) by (rewrite zlen_ztake; lia).
  exists (Spec.head small large s ++ ztake s t). split.
  - rewrite <- Hc at 2. apply Hitem. lia.
  - rewrite head_long, Hsz by lia. rewrite <- app_assoc. cbn [app].
    replace (large + (x - large)) with x by lia. f_equal. rewrite Ht at 1.
    f_equal. symmetry. apply take_drop.
Qed.

Lemma item_string_short c x :
  (forall y, c = [y] -> 0x80 <= y) -> zlen c = x - 0x80 -> x < 0xB8 -> item String c ([x] ++ c).
Proof.
  intros Hc Hx Hs. replace x with (0x80 + zlen c) by lia.
  rewrite <- (head_short _ 0xB7) by lia. by constructor.
Qed.

Lemma Split_sound b k c r :
  is_bytes b -> zlen b < 2 ^ 63 ->
  Raw.Split b = Done (k, c, r) -> exists e, item k c e /\ b = e ++ r.
Proof.
  intros Hb Hlen. change (Raw.Split b) with (split_at b (Raw.readKind b)).
  destruct b as [|x b]; [done|].
  pose proof Hb as [Hx Hb']%is_bytes_cons. unfold is_byte in Hx.
  pose proof (zlen_nonneg b). rewrite zlen_cons in Hlen.
  unfold Raw.readKind. change (zdrop 1 (x :: b)) with b.
  case_match eqn:E1; bool_to_prop.
  { rewrite checkSize_spec by (rewrite zlen_cons; lia).
    rewrite (proj2 (Z.leb_le _ _)) by (rewrite zlen_cons; lia).
    rewrite (split_at_head [] (x :: b) Byte 1 ltac:(rewrite zlen_cons; lia)
      : split_at (x :: b) (Done (Byte, 0, 1)) = _).
    intros [= <- <- <-]. exists [x]. split; [apply (item_byte x); lia|done]. }
  case_match eqn:E2; bool_to_prop.
  { destruct (Z.eqb_spec (x - 0x80) 1) as [Hx1|Hx1].
    - destruct b as [|y b]; [done|]. change (zget (_ :: y :: b) 1) with (Some y).
      simpl_outcome. destruct (Z.ltb_spec y 128); [done|].
      apply short_sound; [lia|lia|]. intros c' r' Hc' Hbc. apply item_string_short; [|done|lia].
      intros z ->. cbn [app] in Hbc. injection Hbc as -> _. done.
    - apply short_sound; [lia|lia|]. intros c' r' Hc' _. apply item_string_short; [|done|lia].
      intros z ->. change (zlen [z]) with 1 in Hc'. lia. }
  case_match eqn:E3; bool_to_prop.
  { apply (long_sound String 0x80 0xB7); [done|lia..|]. intros c' Hc'. constructor.
    intros z ->. change (zlen [z]) with 1 in Hc'. lia. }
  case_match eqn:E4; bool_to_prop.
  - apply short_sound; [lia|lia|]. intros c' r' Hc' _. replace x with (0xC0 + zlen c') by lia.
    rewrite <- (head_short _ 0xF7) by lia. constructor.
  - apply (long_sound List 0xC0 0xF7); [done|lia..|]. intros c' Hc'. constructor.
Qed.

(** The content and the rest follow the header. *)
Lemma split_at_done (h c r : bytes) k :
  split_at (h ++ c ++ r) (Done (k, zlen h, zlen c)) = Done (k, c, r).
Proof.
  pose proof (zlen_nonneg c). pose proof (zlen_nonneg r).
  rewrite split_at_head by (rewrite zlen_app; lia).
  unfold ztake, zdrop, zlen. by rewrite Nat2Z.id, take_app_length, drop_app_length.
Qed.

Lemma checkSize_done (h c r : bytes) k :
  zlen (h ++ c ++ r) < 2 ^ 63 ->
  Raw.checkSize (h ++ c ++ r) k (zlen h) (zlen c) = Done (k, zlen h, zlen c).
Proof.
  rewrite !zlen_app. pose proof (zlen_nonneg h). pose proof (zlen_nonneg c).
  pose proof (zlen_nonneg r). intros. rewrite checkSize_spec by (rewrite !zlen_app; lia).
  by rewrite !zlen_app, (proj2 (Z.leb_le _ _)) by lia.
Qed.

Lemma readKind_short k small c r :
  (k = String /\ small = 0x80 /\ (forall x, c = [x] -> 0x80 <= x)) \/ (k = List /\ small = 0xC0) ->
  zlen c < 56 -> Raw.readKind ((small + zlen c) :: c ++ r) =
                 Raw.checkSize ([small + zlen c] ++ c ++ r) k 1 (zlen c).
Proof.
  intros Hk Hc. pose proof (zlen_nonneg c). unfold Raw.readKind.
  destruct Hk as [(-> & -> & Hx)|(-> & ->)].
  - rewrite (proj2 (Z.ltb_ge _ _)), (proj2 (Z.ltb_lt _ _)) by lia.
    replace (0x80 + zlen c - 0x80) with (zlen c) by lia.
    destruct (Z.eqb_spec (zlen c) 1); [|done].
    destruct c as [|x [|]]; [done| |rewrite !zlen_cons in *; pose proof (zlen_nonneg l); lia].
    specialize (Hx x eq_refl). change (zget _ 1) with (Some x). simpl_outcome.
    by rewrite (proj2 (Z.ltb_ge _ _)) by lia.
  - rewrite !(proj2 (Z.ltb_ge (0xC0 + zlen c) _)), (proj2 (Z.ltb_lt _ _)) by lia.
    by replace (0xC0 + zlen c - 0xC0) with (zlen c) by lia.
Qed.

Lemma readKind_long k large c r :
  is_bytes c -> is_bytes r ->
  (k = String /\ large = 0xB7) \/ (k = List /\ large = 0xF7) ->
  56 <= zlen c < 2 ^ 64 ->
  Raw.readKind ((large + zlen (Big.Bytes (zlen c))) :: Big.Bytes (zlen c) ++ c ++ r) =
  Raw.checkSize (((large + zlen (Big.Bytes (zlen c))) :: Big.Bytes (zlen c)) ++ c ++ r) k
    (zlen (Big.Bytes (zlen c)) + 1) (zlen c).
Proof.
  intros Hc Hr Hk Hlen. pose proof (zlen_Bytes_u64 (zlen c) ltac:(lia)) as Hsz.
  set (l := Big.Bytes (zlen c)) in *.
  assert (Hrs : Raw.readSize (l ++ c ++ r) (zlen l) = Done (zlen c)).
  { apply readSize_spec; [apply is_bytes_app; split; [apply Big.is_bytes_Bytes|];
      by apply is_bytes_app|lia|]. split; [lia|]. by eexists. }
  unfold Raw.readKind. change (zdrop 1 (_ :: l ++ c ++ r)) with (l ++ c ++ r).
  destruct Hk as [(-> & ->)|(-> & ->)].
  - rewrite !(proj2 (Z.ltb_ge (0xB7 + zlen l) _)), (proj2 (Z.ltb_lt _ _)) by lia.
    replace (0xB7 + zlen l - 0xB7) with (zlen l) by lia. by rewrite Hrs.
  - rewrite !(proj2 (Z.ltb_ge (0xF7 + zlen l) _)) by lia.
    replace (0xF7 + zlen l - 0xF7) with (zlen l) by lia. by rewrite Hrs.
Qed.

Lemma Split_complete k c e r :
  is_bytes c -> is_bytes r -> item k c e -> zlen (e ++ r) < 2 ^ 63 ->
  Raw.Split (e ++ r) = Done (k, c, r).
Proof.
  intros Hc Hr Hitem Hlen. change (Raw.Split ?b) with (split_at b (Raw.readKind b)).
  assert (Hgen : forall small large,
    (k = String /\ small = 0x80 /\ large = 0xB7 /\ (forall x, c = [x] -> 0x80 <= x)) \/
    (k = List /\ small = 0xC0 /\ large = 0xF7) ->
    e = Spec.head small large (zlen c) ++ c ->
    split_at (e ++ r) (Raw.readKind (e ++ r)) = Done (k, c, r)).
  { intros small large Hk ->. rewrite <- app_assoc in *.
    assert (Hzc : zlen c < 2 ^ 63).
    { rewrite !zlen_app in Hlen. pose proof (zlen_nonneg r).
      pose proof (zlen_nonneg (Spec.head small large (zlen c))). lia. }
    destruct (decide (zlen c < 56)) as [Hs|Hs].
    - rewrite head_short in * by done. cbn [app] in *. rewrite (readKind_short k) by naive_solver.
      rewrite (checkSize_done [small + zlen c] c r k Hlen : Raw.checkSize _ k 1 _ = _).
      apply (split_at_done [small + zlen c] c r k).
    - rewrite head_long in * by lia. cbn [app] in *.
      rewrite (readKind_long k) by (done || lia || naive_solver).
      rewrite <- (zlen_cons (large + zlen (Big.Bytes (zlen c)))).
      rewrite checkSize_done by done.
      apply (split_at_done (_ :: Big.Bytes (zlen c)) c r k). }
  destruct Hitem as [x Hx|c Hx|c].
  - cbn [app] in *. unfold Raw.readKind. rewrite (proj2 (Z.ltb_lt _ _)) by lia.
    pose proof (zlen_nonneg r).
    rewrite checkSize_spec, (proj2 (Z.leb_le _ _)) by (rewrite zlen_cons in *; lia).
    apply (split_at_done [] [x] r Byte).
  - apply (Hgen 0x80 0xB7); [|done]. left. naive_solver.
  - apply (Hgen 0xC0 0xF7); [|done]. right. naive_solver.
Qed.

(** On byte strings shorter than 2^63, [Split] succeeds exactly on a
    canonically encoded item followed by the rest, and returns its kind, its
    content and the rest; no other input is accepted. *)
Lemma Split_canonical (b : bytes) (k : Kind) (c r : bytes)
  (Hb : is_bytes b) (Hlen : zlen b < 2 ^ 63) :
  Raw.Split b = Done (k, c, r) <-> is_bytes c /\ exists e, item k c e /\ b = e ++ r.
Proof.
  split.
  - intros H. destruct (Split_sound b k c r Hb Hlen H) as (e & He & ->).
    split; [|by exists e]. apply is_bytes_app in Hb as [Hb _].
    destruct He; [done|..]; unfold Spec.lst in *; by apply is_bytes_app in Hb as [_ ?].
  - intros (Hc & e & He & ->). apply is_bytes_app in Hb as [_ Hr].
    by apply Split_complete.
Qed.

(** Every outcome of [readKind]: a header within the input, an error, or the
    out-of-range read of [buf[1]]. *)
Lemma readSize_outcome b slen :
  1 <= slen -> (exists n, Raw.readSize b slen = Done n /\ 56 <= n /\ slen <= zlen b) \/
               (exists e, Raw.readSize b slen = Error e).
Proof.
  intros Hs. unfold Raw.readSize. rewrite Z.gtb_ltb.
  case_match eqn:E1; [by eauto|]. case_match eqn:E2; [by eauto|]. bool_to_prop.
  destruct (zget_Some b 0) as [x Hx]; [lia|]. rewrite Hx. simpl_outcome.
  case_match; [by eauto|]. left. eexists. split; [done|]. lia.
Qed.

Lemma readKind_outcome b :
  is_bytes b -> zlen b < 2 ^ 63 ->
  (exists k ts cs, Raw.readKind b = Done (k, ts, cs) /\ 0 <= ts /\ 0 <= cs /\
                   1 <= ts + cs <= zlen b) \/
  (exists e, Raw.readKind b = Error e) \/ (Raw.readKind b = Panic /\ b = [0x81]).
Proof.
  intros Hb Hlen. destruct b as [|x b]; [by right; left; eexists|].
  pose proof Hb as [Hx _]%is_bytes_cons. unfold is_byte in Hx. pose proof (zlen_nonneg b).
  rewrite zlen_cons in *.
  assert (Hcheck : forall k ts cs, 0 <= ts <= zlen b + 1 -> 0 <= cs -> 1 <= ts + cs ->
    (exists k' ts' cs', Raw.checkSize (x :: b) k ts cs = Done (k', ts', cs') /\ 0 <= ts' /\
       0 <= cs' /\ 1 <= ts' + cs' <= zlen b + 1) \/
    (exists e, Raw.checkSize (x :: b) k ts cs = Error e)).
  { intros k ts cs Hts Hcs Hsum. rewrite checkSize_spec by (rewrite zlen_cons; lia).
    rewrite zlen_cons. case_match; bool_to_prop; [left|right; by eexists].
    do 3 eexists. split; [done|]. lia. }
  assert (Hlong : forall k slen, 1 <= slen ->
    (exists k' ts cs, (s ← Raw.readSize b slen; Raw.checkSize (x :: b) k (slen + 1) s) =
       Done (k', ts, cs) /\ 0 <= ts /\ 0 <= cs /\ 1 <= ts + cs <= zlen b + 1) \/
    (exists e, (s ← Raw.readSize b slen; Raw.checkSize (x :: b) k (slen + 1) s) = Error e)).
  { intros k slen Hs. destruct (readSize_outcome b slen Hs) as [(n & -> & Hn & Hl)|(e & ->)].
    - simpl_outcome. apply Hcheck; lia.
    - right. by eexists. }
  unfold Raw.readKind. change (zdrop 1 (x :: b)) with b.
  repeat case_match; bool_to_prop;
    try (destruct (Hcheck Byte 0 1) as [?|?]; [lia..|by left|by right; left]);
    try (destruct (Hcheck String 1 (x - 128)) as [?|?]; [lia..|by left|by right; left]);
    try (destruct (Hcheck List 1 (x - 192)) as [?|?]; [lia..|by left|by right; left]);
    try (destruct (Hlong String (x - 183)) as [?|?]; [lia..|by left|by right; left]);
    try (destruct (Hlong List (x - 247)) as [?|?]; [lia..|by left|by right; left]).
  destruct b as [|y b]; [right; right; split; [done|f_equal; lia]|].
  change (zget (x :: y :: b) 1) with (Some y). simpl_outcome.
  case_match; [right; left; by eexists|].
  destruct (Hcheck String 1 (x - 128)) as [?|?]; [lia..|by left|by right; left].
Qed.

(** C29: [Split] never indexes out of range, except on the single byte 0x81,
    where the test [buf[1] < 128] of [readKind] is not guarded by the length. *)
Lemma Split_panics (b : bytes) (Hb : is_bytes b) (Hlen : zlen b < 2 ^ 63) :
  Raw.Split b = Panic <-> b = [0x81].
Proof.
  split; [|by intros ->].
  change (Raw.Split b) with (split_at b (Raw.readKind b)).
  destruct (readKind_outcome b Hb Hlen) as [(k & ts & cs & -> & Hts & Hcs & Hsum)|[[e ->]|[-> ?]]];
    [|done..].
  unfold split_at. simpl_outcome. rewrite !slice_Some by lia. done.
Qed.

End splitter.

(** ** Round trip *)

(** Every encoding is made of bytes. *)
Lemma is_bytes_head small large n : 0 <= small -> small + 55 < 256 -> 0 <= large ->
  large + 8 < 256 -> 0 <= n < 2 ^ 64 -> is_bytes (Spec.head small large n).
Proof.
  intros. unfold Spec.head. case_match; bool_to_prop.
  - apply is_bytes_cons. split; [unfold is_byte; lia|constructor].
  - apply is_bytes_cons. split; [|apply Big.is_bytes_Bytes].
    pose proof (Big.zlen_Bytes_le n 8 ltac:(lia) ltac:(change (256 ^ 8) with (2 ^ 64); lia)).
    pose proof (zlen_nonneg (Big.Bytes n)). unfold is_byte. lia.
Qed.

Lemma is_bytes_string b : is_bytes b -> zlen b < 2 ^ 64 -> is_bytes (Spec.string b).
Proof.
  intros Hb Hl. pose proof (zlen_nonneg b).
  assert (Hh : is_bytes (Spec.head 0x80 0xB7 (zlen b) ++ b)).
  { apply is_bytes_app. split; [apply is_bytes_head; lia|done]. }
  unfold Spec.string. destruct b as [|x [|y b]]; [done| |done]. by case_match.
Qed.

Lemma is_bytes_concat (f : Enc.value -> bytes) l :
  Forall (fun v => zlen (f v) < 2 ^ 64 -> is_bytes (f v)) l ->
  zlen (concat (map f l)) < 2 ^ 64 -> is_bytes (concat (map f l)).
Proof.
  induction 1 as [|v l Hv Hl IH]; simpl; [constructor|]. rewrite zlen_app.
  pose proof (zlen_nonneg (f v)). pose proof (zlen_nonneg (concat (map f l))).
  intros. apply is_bytes_app. split; [apply Hv|apply IH]; lia.
Qed.

Lemma is_bytes_enc v : Spec.encodable v -> zlen (Spec.enc v) < 2 ^ 64 -> is_bytes (Spec.enc v).
Proof.
  assert (Hbig : forall i, zlen (Spec.string (Big.Bytes i)) < 2 ^ 64 ->
    is_bytes (Spec.string (Big.Bytes i))).
  { intros i Hi. pose proof (zlen_string_ge (Big.Bytes i)).
    apply is_bytes_string; [apply Big.is_bytes_Bytes|lia]. }
  assert (Hall : forall l, Forall (fun v => Spec.encodable v -> zlen (Spec.enc v) < 2 ^ 64 ->
      is_bytes (Spec.enc v)) l -> Forall Spec.encodable l ->
    Forall (fun v => zlen (Spec.enc v) < 2 ^ 64 -> is_bytes (Spec.enc v)) l).
  { intros l IH Hl. rewrite Forall_forall in *. eauto. }
  induction v as [b|i|b|i|b| |l IH|l IH] using value_ind'; intros Henc Hlen;
    inversion Henc; subst; cbn [Spec.enc] in *; auto.
  - pose proof (zlen_string_ge b). apply is_bytes_string; [done|lia].
  - by apply (bool_decide_unpack _).
  - pose proof (zlen_lst_ge (concat (map Spec.enc l))).
    pose proof (zlen_nonneg (concat (map Spec.enc l))).
    apply is_bytes_app. split; [apply is_bytes_head; lia|]. apply is_bytes_concat; [auto|lia].
  - by apply is_bytes_concat; [auto|].
Qed.

Lemma string_item b : is_bytes b -> exists k, k <> List /\ item k b (Spec.string b).
Proof.
  intros Hb. unfold Spec.string. destruct b as [|x [|y b]].
  - exists String. split; [done|]. by constructor.
  - apply is_bytes_cons in Hb as [Hx _]. unfold is_byte in Hx. case_match; bool_to_prop.
    + exists Byte. split; [done|]. constructor. lia.
    + exists String. split; [done|]. apply (item_string [x]). intros ? [= <-]. lia.
  - exists String. split; [done|]. by apply item_string.
Qed.

Lemma zlen_string_bound b : zlen b < 2 ^ 62 -> zlen (Spec.string b) <= zlen b + 9.
Proof.
  intros Hb. pose proof (zlen_nonneg b).
  assert (Hh : zlen (Spec.head 0x80 0xB7 (zlen b)) <= 9).
  { unfold Spec.head. case_match; [by vm_compute|]. rewrite zlen_cons.
    pose proof (Big.zlen_Bytes_le (zlen b) 8 ltac:(lia) ltac:(change (256 ^ 8) with (2 ^ 64); lia)). lia. }
  unfold Spec.string. destruct b as [|x [|y b]]; rewrite ?zlen_app; [lia| |lia].
  case_match; rewrite ?zlen_app; [change (zlen [x]) with 1; lia|].
  change (zlen [x]) with 1 in *. lia.
Qed.



(** Splitting the encoding of a byte string gives back the string and the
    input after it; splitting the encoding of a list gives the encodings of its
    elements. *)
Lemma encode_split_roundtrip (b r : bytes) (l : list Enc.value)
    (Hb : is_bytes b) (Hr : is_bytes r) (Hlen : zlen b + zlen r < 2 ^ 62)
    (Hl : Forall Spec.encodable l)
    (Hsize : zlen (Spec.enc (Enc.VList l) ++ r) < 2 ^ 63) :
  (exists e k, Enc.EncodeToBytes (Enc.VBytes b) = Done e /\ k <> List /\
               Raw.Split (e ++ r) = Done (k, b, r)) /\
  (exists e, Enc.EncodeToBytes (Enc.VList l) = Done e /\
             Raw.Split (e ++ r) = Done (List, concat (map Spec.enc l), r)).
Proof.
  pose proof (zlen_nonneg b). pose proof (zlen_nonneg r). split.
  - destruct (string_item b Hb) as (k&Hk&Hitem). exists (Spec.string b), k.
    pose proof (zlen_string_bound b ltac:(lia)). split_and!; [|done|].
    + apply (EncodeToBytes_spec (Enc.VBytes b)); [by constructor|simpl; lia].
    + apply Split_complete; [done|done|done|]. rewrite zlen_app. lia.
  - exists (Spec.enc (Enc.VList l)). rewrite zlen_app in Hsize. split.
    + apply EncodeToBytes_spec; [by constructor|lia].
    + pose proof (zlen_lst_ge (concat (map Spec.enc l))). cbn [Spec.enc] in *.
      apply Split_complete; [|done|constructor|by rewrite zlen_app].
      apply (is_bytes_enc (Enc.VTail l)); [by constructor|]. cbn [Spec.enc]. lia.
Qed.

