(* ===== verification/RlpDecode.v ===== *)
(** [rlp/decode.go]: the decoder.

    A [Stream] reads from a [bytes.Reader]: [input] is what is left of it.  The
    decoders that [makeDecoder] selects by reflection are [decode], by recursion on
    a description of the type; the results are the values of the encoder's
    universe.  Types with a [DecodeRLP] method of their own are left out, and so
    are the type and path in error texts. *)
From S2P Require Import Prelude GoBig Rlp.

Module Dec.

Inductive message :=
| nonCanonicalInteger
| nonCanonicalSize
| expectedList
| expectedString
| stringTooLong
| stringTooShort
| tooManyElements
| tooFewElements
| listTooShort.

Inductive err :=
| EOL
| ErrExpectedString
| ErrExpectedList
| ErrCanonInt
| ErrCanonSize
| ErrElemTooLarge
| ErrValueTooLarge
| ErrMoreThanOneValue
| errNotInList
| errNotAtEOL
| errUintOverflow
| io_EOF
| io_ErrUnexpectedEOF
| invalidBoolean (n : Z)
| decodeError (msg : message).

Definition wrapStreamError (e : err) : err :=
  match e with
  | ErrCanonInt => decodeError nonCanonicalInteger
  | ErrCanonSize => decodeError nonCanonicalSize
  | ErrExpectedList => decodeError expectedList
  | ErrExpectedString => decodeError expectedString
  | errUintOverflow => decodeError stringTooLong
  | errNotAtEOL => decodeError tooManyElements
  | e => e
  end.

(** ** Streams *)

(** [kind] is [None] for -1; the innermost list is the head of [stack]. *)
Record Stream := {
  input : bytes;
  remaining : Z;
  limited : bool;
  kind : option Kind;
  size : Z;
  byteval : Z;
  kinderr : option err;
  stack : list (Z * Z);
}.

(** Field assignments. *)
Definition set_kind (s : Stream) (k : option Kind) : Stream :=
  {| input := input s; remaining := remaining s; limited := limited s; kind := k; size := size s;
     byteval := byteval s; kinderr := kinderr s; stack := stack s |}.
Definition set_read (s : Stream) (k : option Kind) (n : Z) (e : option err) : Stream :=
  {| input := input s; remaining := remaining s; limited := limited s; kind := k; size := n;
     byteval := byteval s; kinderr := e; stack := stack s |}.
Definition set_byteval (s : Stream) (b : Z) : Stream :=
  {| input := input s; remaining := remaining s; limited := limited s; kind := kind s; size := size s;
     byteval := b; kinderr := kinderr s; stack := stack s |}.
Definition set_stack (s : Stream) (st : list (Z * Z)) : Stream :=
  {| input := input s; remaining := remaining s; limited := limited s; kind := kind s; size := size s;
     byteval := byteval s; kinderr := kinderr s; stack := st |}.
Definition set_remaining (s : Stream) (n : Z) : Stream :=
  {| input := input s; remaining := n; limited := limited s; kind := kind s; size := size s;
     byteval := byteval s; kinderr := kinderr s; stack := stack s |}.
Definition set_input (s : Stream) (b : bytes) : Stream :=
  {| input := b; remaining := remaining s; limited := limited s; kind := kind s; size := size s;
     byteval := byteval s; kinderr := kinderr s; stack := stack s |}.
Definition rearm (s : Stream) : Stream := set_kind s None.

Abbreviation DM := (SM Stream err).

(** [Reset] with a [bytes.Reader] discovers the limit when none is given. *)
Definition Reset (r : bytes) (inputLimit : Z) : Stream :=
  {| input := r; remaining := if inputLimit >? 0 then inputLimit else zlen r; limited := true;
     kind := None; size := 0; byteval := 0; kinderr := None; stack := [] |}.
Definition NewStream (r : bytes) (inputLimit : Z) : Stream := Reset r inputLimit.

(** The check against the innermost list, then the one against the input. *)
Definition willRead (n : Z) : DM unit := fun s =>
  let s := rearm s in
  let '(r, s) :=
    match stack s with
    | (pos, sz) :: st =>
        if n >? u64 (sz - pos) then (Some ErrElemTooLarge, s)
        else (None, set_stack s ((u64 (pos + n), sz) :: st))
    | [] => (None, s)
    end in
  match r with
  | Some e => (Error e, s)
  | None =>
      if limited s then
        if n >? remaining s then (Error ErrValueTooLarge, s)
        else (Done tt, set_remaining s (remaining s - n))
      else (Done tt, s)
  end.

(** What the reader does: one byte, or the bytes of a whole buffer. *)
Definition next_byte : DM Z := fun s =>
  match input s with
  | [] => (Error io_ErrUnexpectedEOF, s)
  | b :: r => (Done b, set_input s r)
  end.
Definition next_bytes (n : Z) : DM bytes := fun s =>
  if zlen (input s) <? n then (Error io_ErrUnexpectedEOF, set_input s [])
  else (Done (ztake n (input s)), set_input s (zdrop n (input s))).

Definition readByte : DM Z := _ ← willRead 1; next_byte.
(** [readFull] of a buffer of [n] bytes: the bytes read. *)
Definition readFull (n : Z) : DM bytes := _ ← willRead n; next_bytes n.

(** The buffer holds [8 - size] zeros in front of the bytes read. *)
Definition readUint (sz : Z) : DM Z :=
  if sz =? 0 then _ ← modify rearm; mret 0
  else if sz =? 1 then readByte
  else
    let start := 8 - sz in
    b ← readFull (8 - start);
    first ← unwrap (zget b 0);
    if first =? 0 then throw ErrCanonSize
    else mret (Big.SetBytes (zeros start ++ b)).

(** Runs [m] and returns its error as a value. *)
Definition try {A} (m : DM A) : DM (A + err) := fun s =>
  match m s with
  | (Done a, s) => (Done (inl a), s)
  | (Error e, s) => (Done (inr e), s)
  | (Panic, s) => (Panic, s)
  | (NoFuel, s) => (NoFuel, s)
  end.

(** [size, err = s.readUint(n); if err == nil && size < 56 { err = ErrCanonSize }] *)
Definition readLongSize (n : Z) : DM (Z * option err) :=
  r ← try (readUint n);
  mret (match r with
        | inl sz => (sz, if sz <? 56 then Some ErrCanonSize else None)
        | inr e => (0, Some e)
        end).

(** Kind, size and error. *)
Definition readKind : DM (Kind * Z * option err) :=
  r ← try readByte;
  match r with
  | inr e =>
      top ← gets (fun s => bool_decide (stack s = []));
      let e := if (top : bool) then
                 match e with io_ErrUnexpectedEOF | ErrValueTooLarge => io_EOF | e => e end
               else e in
      mret (Byte, 0, Some e)
  | inl b =>
      _ ← modify (fun s => set_byteval s 0);
      if b <? 0x80 then _ ← modify (fun s => set_byteval s b); mret (Byte, 0, None)
      else if b <? 0xB8 then mret (String, b - 0x80, None)
      else if b <? 0xC0 then '(sz, e) ← readLongSize (b - 0xB7); mret (String, sz, e)
      else if b <? 0xF8 then mret (List, b - 0xC0, None)
      else '(sz, e) ← readLongSize (b - 0xF7); mret (List, sz, e)
  end.

Definition Kind_ : DM (Kind * Z) := fun s =>
  match kind s with
  | Some k => (match kinderr s with None => Done (k, size s) | Some e => Error e end, s)
  | None =>
      let s := set_read s None (size s) None in
      if match stack s with (pos, sz) :: _ => pos =? sz | [] => false end then (Error EOL, s)
      else
        match readKind s with
        | (Done (k, n, e), s) =>
            let e := match e with
              | Some e => Some e
              | None =>
                  match stack s with
                  | [] => if limited s && (n >? remaining s) then Some ErrValueTooLarge else None
                  | (pos, sz) :: _ => if n >? u64 (sz - pos) then Some ErrElemTooLarge else None
                  end
              end in
            let s := set_read s (Some k) n e in
            (match e with None => Done (k, n) | Some e => Error e end, s)
        | (Error e, s) => (Error e, s)
        | (Panic, s) => (Panic, s)
        | (NoFuel, s) => (NoFuel, s)
        end
  end.

Definition Bytes : DM bytes :=
  '(k, sz) ← Kind_;
  match k with
  | Byte => _ ← modify rearm; b ← gets byteval; mret [b]
  | String =>
      b ← readFull sz;
      if sz =? 1 then
        b0 ← unwrap (zget b 0);
        if b0 <? 128 then throw ErrCanonSize else mret b
      else mret b
  | List => throw ErrExpectedString
  end.

(** [headsize(size)] bytes of header are put in front of the content. *)
Definition Raw_ : DM bytes :=
  '(k, sz) ← Kind_;
  match k with
  | Byte => _ ← modify rearm; b ← gets byteval; mret [b]
  | String => b ← readFull sz; mret (Enc.puthead 0x80 0xB7 sz ++ b)
  | List => b ← readFull sz; mret (Enc.puthead 0xC0 0xF7 sz ++ b)
  end.

Definition uint (maxbits : Z) : DM Z :=
  '(k, sz) ← Kind_;
  match k with
  | Byte =>
      b ← gets byteval;
      if b =? 0 then throw ErrCanonInt else _ ← modify rearm; mret b
  | String =>
      if sz >? maxbits / 8 then throw errUintOverflow
      else
        r ← try (readUint sz);
        match r with
        | inr ErrCanonSize => throw ErrCanonInt
        | inr e => throw e
        | inl v => if (sz >? 0) && (v <? 128) then throw ErrCanonSize else mret v
        end
  | List => throw ErrExpectedString
  end.
Definition Uint : DM Z := uint 64.

Definition Bool : DM bool :=
  num ← uint 8;
  if num =? 0 then mret false else if num =? 1 then mret true else throw (invalidBoolean num).

Definition List_ : DM Z :=
  '(k, sz) ← Kind_;
  match k with
  | List => _ ← modify (fun s => set_read (set_stack s ((0, sz) :: stack s)) None 0 (kinderr s)); mret sz
  | _ => throw ErrExpectedList
  end.

Definition ListEnd : DM unit := fun s =>
  match stack s with
  | [] => (Error errNotInList, s)
  | (pos, sz) :: st =>
      if negb (pos =? sz) then (Error errNotAtEOL, s)
      else
        let st := match st with [] => [] | (pos', sz') :: st => (u64 (pos' + sz), sz') :: st end in
        (Done tt, set_read (set_stack s st) None 0 (kinderr s))
  end.

(** ** Decoders *)

(** The types [makeDecoder] distinguishes. *)
Inductive gotype :=
| TyRaw
| TyUint (bits : Z)
| TyBool
| TyBigInt
| TyBytes                                       (* byte slices and strings *)
| TyByteArray (n : nat)
| TySlice (elem : gotype)
| TyArray (n : nat) (elem : gotype)
| TyStruct (fields : list gotype) (tail : option gotype)
| TyPtr (elem : gotype)
| TyOptPtr (elem : gotype)                      (* a pointer field with the "nil" tag *)
| TyInterface.

(** [if err != nil { return wrapStreamError(err, typ) }] *)
Definition wrap {A} (m : DM A) : DM A := fun s =>
  match m s with
  | (Error e, s) => (Error (wrapStreamError e), s)
  | r => r
  end.

Definition decodeBigInt : DM Enc.value :=
  b ← wrap Bytes;
  if bool_decide (head b = Some 0) then throw (decodeError nonCanonicalInteger)
  else mret (Enc.VBigInt (Some (Big.SetBytes b))).

(** For a single byte the error of [s.Uint] is dropped. *)
Definition decodeByteArray (vlen : nat) : DM Enc.value :=
  '(k, sz) ← Kind_;
  match k with
  | Byte =>
      if bool_decide (vlen = 0%nat) then throw (decodeError stringTooLong)
      else if bool_decide (1 < vlen)%nat then throw (decodeError stringTooShort)
      else
        r ← try Uint;
        mret (Enc.VBytes [match r with inl bv => bv | inr _ => 0 end])
  | String =>
      if Z.of_nat vlen <? sz then throw (decodeError stringTooLong)
      else if Z.of_nat vlen >? sz then throw (decodeError stringTooShort)
      else
        b ← readFull sz;
        if sz =? 1 then
          b0 ← unwrap (zget b 0);
          if b0 <? 128 then throw (decodeError nonCanonicalSize) else mret (Enc.VBytes b)
        else mret (Enc.VBytes b)
  | List => throw (decodeError expectedString)
  end.

(** [decodeSliceElems]: elements up to the end of the list. *)
Fixpoint decodeSliceElems (elemdec : DM Enc.value) (fuel : nat) : DM (list Enc.value) :=
  match fuel with
  | O => fun s => (NoFuel, s)
  | S fuel =>
      r ← try elemdec;
      match r with
      | inr EOL => mret []
      | inr e => throw e
      | inl v => l ← decodeSliceElems elemdec fuel; mret (v :: l)
      end
  end.

Definition decodeListSlice (elemdec : DM Enc.value) (fuel : nat) : DM Enc.value :=
  sz ← wrap List_;
  if sz =? 0 then _ ← ListEnd; mret (Enc.VList [])
  else l ← decodeSliceElems elemdec fuel; _ ← ListEnd; mret (Enc.VList l).

(** The elements of an array; [tooFew] when the list ends before. *)
Fixpoint decodeArrayElems (elemdec : DM Enc.value) (n : nat) : DM (list Enc.value) :=
  match n with
  | O => mret []
  | S n =>
      r ← try elemdec;
      match r with
      | inr EOL => throw (decodeError listTooShort)
      | inr e => throw e
      | inl v => l ← decodeArrayElems elemdec n; mret (v :: l)
      end
  end.

Definition decodeListArray (elemdec : DM Enc.value) (n : nat) : DM Enc.value :=
  _ ← wrap List_; l ← decodeArrayElems elemdec n; _ ← wrap ListEnd; mret (Enc.VList l).

Fixpoint decodeInterface (fuel : nat) : DM Enc.value :=
  match fuel with
  | O => fun s => (NoFuel, s)
  | S fuel =>
      '(k, _) ← Kind_;
      match k with
      | List => decodeListSlice (decodeInterface fuel) fuel
      | _ => b ← Bytes; mret (Enc.VBytes b)
      end
  end.

(** The value a nil pointer is encoded as: [makePtrWriter]. *)
Fixpoint nil_value (t : gotype) : Enc.value :=
  match t with
  | TyRaw => Enc.VRaw []
  | TyUint _ => Enc.VUint 0
  | TyBool => Enc.VBool false
  | TyBigInt => Enc.VBigInt (Some 0)
  | TyBytes | TyByteArray _ => Enc.VBytes []
  | TySlice _ | TyArray _ _ | TyStruct _ _ => Enc.VList []
  | TyPtr t | TyOptPtr t => nil_value t
  | TyInterface => Enc.VNilInterface
  end.

Section fields.
Variable decode : gotype -> DM Enc.value.
(** One struct field after the other; the end of the list is an error. *)
Definition decodeField (t : gotype) : DM Enc.value := fun s =>
  match decode t s with
  | (Error EOL, s) => (Error (decodeError tooFewElements), s)
  | r => r
  end.
Fixpoint decodeFields (ts : list gotype) : DM (list Enc.value) :=
  match ts with
  | [] => mret []
  | t :: ts => v ← decodeField t; l ← decodeFields ts; mret (v :: l)
  end.
End fields.

Fixpoint decode (fuel : nat) (t : gotype) : DM Enc.value :=
  match t with
  | TyRaw => b ← Raw_; mret (Enc.VRaw b)
  | TyUint bits => n ← wrap (uint bits); mret (Enc.VUint n)
  | TyBool => b ← wrap Bool; mret (Enc.VBool b)
  | TyBigInt => decodeBigInt
  | TyBytes => b ← wrap Bytes; mret (Enc.VBytes b)
  | TyByteArray n => decodeByteArray n
  | TySlice t => decodeListSlice (decode fuel t) fuel
  | TyArray n t => decodeListArray (decode fuel t) n
  | TyStruct ts tail =>
      _ ← wrap List_;
      vs ← decodeFields (decode fuel) ts;
      tl ← match tail with
           | None => mret []
           | Some t => l ← decodeSliceElems (decode fuel t) fuel; mret [Enc.VTail l]
           end;
      _ ← wrap ListEnd;
      mret (Enc.VList (vs ++ tl))
  | TyPtr t => decode fuel t
  | TyOptPtr t =>
      r ← try Kind_;
      match r with
      | inr e => _ ← modify rearm; throw e
      | inl (k, sz) =>
          if (sz =? 0) && negb (bool_decide (k = Byte)) then _ ← modify rearm; mret (nil_value t)
          else decode fuel t
      end
  | TyInterface => decodeInterface fuel
  end.

(** Enough for every element and level of nesting of [b]. *)
Definition DecodeBytes (t : gotype) (b : bytes) : outcome err Enc.value :=
  match decode (S (length b)) t (NewStream b (zlen b)) with
  | (Done v, s) => if zlen (input s) >? 0 then Error ErrMoreThanOneValue else Done v
  | (Error e, _) => Error e
  | (Panic, _) => Panic
  | (NoFuel, _) => NoFuel
  end.

End Dec.
