(* ===== verification/RlpDecodeOk.v ===== *)
(** The decoder accepts exactly the canonical encodings of the values of a type. *)
From S2P Require Import Prelude GoBig Rlp RlpDecode.
Import Dec.

(** ** Headers *)

(** [header k n h]: [h] announces a value of kind [k] with [n] bytes of content. *)
Inductive header : Kind -> Z -> bytes -> Prop :=
| header_byte x : 0 <= x < 0x80 -> header Byte 0 [x]
| header_string n : 0 <= n -> header String n (Spec.head 0x80 0xB7 n)
| header_list n : 0 <= n -> header List n (Spec.head 0xC0 0xF7 n).

(** The byte a header of kind [Byte] holds. *)
Definition header_val (k : Kind) (h : bytes) : Z := match k with Byte => nth 0 h 0 | _ => 0 end.

Lemma header_nonneg k n h : header k n h -> 0 <= n.
Proof. by destruct 1. Qed.

Lemma header_nonempty k n h : header k n h -> h <> [].
Proof. destruct 1; [done|..]; unfold Spec.head; by case_match. Qed.

(** The first byte of a header and what follows it. *)
Lemma header_cases k n h : header k n h -> n < 2 ^ 64 ->
  (k = Byte /\ n = 0 /\ exists x, h = [x] /\ 0 <= x < 0x80) \/
  (k = String /\ n < 56 /\ h = [0x80 + n]) \/
  (k = String /\ 56 <= n /\ h = (0xB7 + zlen (Big.Bytes n)) :: Big.Bytes n) \/
  (k = List /\ n < 56 /\ h = [0xC0 + n]) \/
  (k = List /\ 56 <= n /\ h = (0xF7 + zlen (Big.Bytes n)) :: Big.Bytes n).
Proof.
  intros Hh Hn. destruct Hh as [x Hx|n Hpos|n Hpos]; [left; eauto|..];
    (destruct (Z.lt_ge_cases n 56); [rewrite head_short by done|rewrite head_long by done]); eauto 10.
Qed.

Lemma Bytes_inj a b : 0 <= a -> 0 <= b -> Big.Bytes a = Big.Bytes b -> a = b.
Proof.
  intros Ha Hb E. pose proof (Big.SetBytes_Bytes a) as H1. rewrite E, Big.SetBytes_Bytes in H1. lia.
Qed.

(** No leading zero. *)
Lemma Bytes_head_nonzero m l : 0 <= m -> Big.Bytes m <> 0 :: l.
Proof.
  intros Hm E. pose proof (Big.SetBytes_Bytes m) as Hv. rewrite E, Big.SetBytes_cons in Hv.
  assert (Hl : is_bytes l) by (pose proof (Big.is_bytes_Bytes m) as Hb; rewrite E in Hb; by apply is_bytes_cons in Hb as [_ ?]).
  pose proof (Big.SetBytes_bound l Hl). pose proof (Big.zlen_Bytes_le m (zlen l) (zlen_nonneg l)) as Hle.
  rewrite E, zlen_cons in Hle. lia.
Qed.

Lemma app_same_length {A} (a b x y : list A) : zlen a = zlen b -> a ++ x = b ++ y -> a = b /\ x = y.
Proof. intros Hl E. apply app_inj_1 in E; [done|unfold zlen in Hl; lia]. Qed.

Lemma header_unique k n h x k' n' h' y : header k n h -> header k' n' h' -> n < 2 ^ 64 -> n' < 2 ^ 64 ->
  h ++ x = h' ++ y -> k = k' /\ n = n' /\ h = h' /\ x = y.
Proof.
  intros H H' Hn Hn' E. pose proof (header_nonneg _ _ _ H). pose proof (header_nonneg _ _ _ H').
  assert (Hlong : forall m, 56 <= m < 2 ^ 64 -> 1 <= zlen (Big.Bytes m) <= 8) by (intros; apply zlen_Bytes_u64; lia).
  destruct (header_cases _ _ _ H Hn) as [(->&->&v&->&?)|[(->&?&->)|[(->&?&->)|[(->&?&->)|(->&?&->)]]]],
    (header_cases _ _ _ H' Hn') as [(->&->&v'&->&?)|[(->&?&->)|[(->&?&->)|[(->&?&->)|(->&?&->)]]]];
    cbn [app] in E; injection E as E1 E2;
    try (pose proof (Hlong n ltac:(lia))); try (pose proof (Hlong n' ltac:(lia))); try lia.
  - by subst.
  - assert (n = n') as -> by lia. done.
  - apply app_same_length in E2 as [E2 ->]; [|lia]. apply Bytes_inj in E2 as ->; [done|lia..].
  - assert (n = n') as -> by lia. done.
  - apply app_same_length in E2 as [E2 ->]; [|lia]. apply Bytes_inj in E2 as ->; [done|lia..].
Qed.

(** ** Running a sequence *)
Section run.
Context {St E A B : Type} (m : SM St E A) (k : A -> SM St E B) (s s' : St).
Lemma run_done a : m s = (Done a, s') -> (m ≫= k) s = k a s'.
Proof. unfold mbind, SM_bind. by intros ->. Qed.
Lemma run_error e : m s = (Error e, s') -> (m ≫= k) s = (Error e, s').
Proof. unfold mbind, SM_bind. by intros ->. Qed.
End run.

(** ** Positions *)
Section stream.

(** The stream before a value: [W] is what is left of the innermost list, or of the
    input, [R] what follows it; [fr] is the size of the innermost list. *)
Definition here (fr : option Z) (st : list (Z * Z)) (W R : bytes) (n b : Z) (e : option err) : Stream :=
  {| input := W ++ R; remaining := zlen W + zlen R; limited := true; kind := None; size := n; byteval := b;
     kinderr := e; stack := match fr with None => [] | Some sz => (sz - zlen W, sz) :: st end |}.

Record placed (fr : option Z) (W R : bytes) : Prop := {
  placed_bytes : is_bytes W;
  placed_small : zlen W + zlen R < 2 ^ 62;
  placed_frame : match fr with None => R = [] | Some sz => zlen W <= sz < 2 ^ 62 end;
}.

Lemma placed_suffix fr A W R : placed fr (A ++ W) R -> placed fr W R.
Proof.
  intros [Hb Hs Hf]. rewrite zlen_app in *. pose proof (zlen_nonneg A).
  split; [by apply is_bytes_app in Hb as [_ ?]|lia|]. destruct fr; [lia|done].
Qed.

Lemma placed_window fr W R : placed fr W R -> zlen W < 2 ^ 62.
Proof. intros [_ Hs _]. pose proof (zlen_nonneg R). lia. Qed.

Lemma willRead_ok fr st A W R n b e : placed fr (A ++ W) R ->
  willRead (zlen A) (here fr st (A ++ W) R n b e) = (Done tt, set_input (here fr st W R n b e) (A ++ W ++ R)).
Proof.
  intros [Hb Hs Hf]. unfold willRead, here, rearm, set_kind, set_stack, set_remaining, set_input. rewrite zlen_app in *.
  pose proof (zlen_nonneg A). pose proof (zlen_nonneg W). pose proof (zlen_nonneg R).
  destruct fr as [sz|]; cbn; rewrite ?u64_small by lia; rewrite ?Z.gtb_ltb, !(proj2 (Z.ltb_ge _ _)) by lia;
    cbn; rewrite ?Z.gtb_ltb, ?(proj2 (Z.ltb_ge _ _)) by lia; cbn; rewrite <- ?app_assoc, ?u64_small by lia;
    repeat f_equal; lia.
Qed.

Lemma willRead_fail fr st W R m n b e : placed fr W R -> zlen W < m ->
  exists e' s', willRead m (here fr st W R n b e) = (Error e', s') /\ e' <> EOL /\
    (fr = None -> e' = ErrValueTooLarge) /\ stack s' = stack (here fr st W R n b e).
Proof.
  intros [Hb Hs Hf] Hm. unfold willRead, here, rearm, set_kind.
  pose proof (zlen_nonneg W). pose proof (zlen_nonneg R). destruct fr as [sz|]; cbn.
  - rewrite u64_small by lia. rewrite Z.gtb_ltb, (proj2 (Z.ltb_lt _ _)) by lia. by do 2 eexists.
  - subst R. rewrite zlen_nil. rewrite Z.gtb_ltb, (proj2 (Z.ltb_lt _ _)) by lia. by do 2 eexists.
Qed.

Lemma readByte_ok fr st x W R n b e : placed fr (x :: W) R ->
  readByte (here fr st (x :: W) R n b e) = (Done x, here fr st W R n b e).
Proof.
  intros Hp. pose proof (willRead_ok fr st [x] W R n b e Hp) as Hw. unfold readByte, mbind, SM_bind.
  change (zlen [x]) with 1 in Hw. cbn [app] in Hw. by rewrite Hw.
Qed.

Lemma readByte_end fr st R n b e : placed fr [] R ->
  exists e' s', readByte (here fr st [] R n b e) = (Error e', s') /\ e' <> EOL /\
    (fr = None -> e' = ErrValueTooLarge) /\ stack s' = stack (here fr st [] R n b e).
Proof.
  intros Hp. destruct (willRead_fail fr st [] R 1 n b e Hp) as (e'&s'&Hw&Hr); [done|].
  unfold readByte, mbind, SM_bind. rewrite Hw. by exists e', s'.
Qed.

Lemma readFull_ok fr st A W R n b e : placed fr (A ++ W) R ->
  readFull (zlen A) (here fr st (A ++ W) R n b e) = (Done A, here fr st W R n b e).
Proof.
  intros Hp. unfold readFull, mbind, SM_bind. rewrite willRead_ok by done. unfold next_bytes, set_input; cbn.
  rewrite !zlen_app. pose proof (zlen_nonneg W). pose proof (zlen_nonneg R). rewrite (proj2 (Z.ltb_ge _ _)) by lia.
  unfold ztake, zdrop, zlen. by rewrite !Nat2Z.id, take_app_length, drop_app_length.
Qed.

Lemma readFull_fail fr st W R m n b e : placed fr W R -> zlen W < m ->
  exists e' s', readFull m (here fr st W R n b e) = (Error e', s') /\ e' <> EOL.
Proof.
  intros Hp Hm. destruct (willRead_fail fr st W R m n b e Hp Hm) as (e'&s'&Hw&He&_).
  unfold readFull, mbind, SM_bind. rewrite Hw. by exists e', s'.
Qed.

Lemma split_at_len {A} (W : list A) n : 0 <= n <= zlen W -> exists X Y, W = X ++ Y /\ zlen X = n.
Proof.
  intros Hn. exists (ztake n W), (zdrop n W). split; [symmetry; apply take_drop|].
  rewrite zlen_ztake by lia. lia.
Qed.

Lemma readUint_ok fr st A W R n b e : placed fr (A ++ W) R -> 1 <= zlen A <= 8 ->
  readUint (zlen A) (here fr st (A ++ W) R n b e) =
    (if bool_decide (zlen A = 1) || negb (bool_decide (head A = Some 0)) then Done (Big.SetBytes A) else Error ErrCanonSize,
     here fr st W R n b e).
Proof.
  intros Hp Hl. unfold readUint. rewrite (proj2 (Z.eqb_neq _ _)) by lia.
  destruct A as [|x A]; [rewrite zlen_nil in Hl; lia|]. destruct (zlen (x :: A) =? 1) eqn:E; bool_to_prop.
  - rewrite bool_decide_eq_true_2 by done. assert (A = []) as -> by (apply zlen_0; rewrite zlen_cons in E; lia).
    cbn [app orb]. rewrite readByte_ok by done. unfold Big.SetBytes. cbn. by rewrite Z.add_0_l.
  - rewrite bool_decide_eq_false_2 by done. cbn [orb]. replace (8 - (8 - zlen (x :: A))) with (zlen (x :: A)) by lia.
    unfold mbind, SM_bind, unwrap. rewrite readFull_ok by done. rewrite zget_0. cbn [or_panic head].
    destruct (x =? 0) eqn:Ex; bool_to_prop.
    + subst x. by rewrite bool_decide_eq_true_2.
    + rewrite bool_decide_eq_false_2 by congruence. cbn. by rewrite Big.SetBytes_zeros.
Qed.

Lemma readUint_fail fr st W R l n b e : placed fr W R -> zlen W < l ->
  exists e' s', readUint l (here fr st W R n b e) = (Error e', s') /\ e' <> EOL.
Proof.
  intros Hp Hl. pose proof (zlen_nonneg W). unfold readUint. rewrite (proj2 (Z.eqb_neq _ _)) by lia.
  destruct (l =? 1) eqn:E; bool_to_prop.
  - subst l. assert (W = []) as -> by (apply zlen_0; lia).
    destruct (readByte_end fr st R n b e Hp) as (e'&s'&->&He&_). by exists e', s'.
  - replace (8 - (8 - l)) with l by lia. destruct (readFull_fail fr st W R l n b e Hp Hl) as (e'&s'&Hr&He).
    unfold mbind, SM_bind. rewrite Hr. by exists e', s'.
Qed.

Lemma readLongSize_ok fr st W R l n b e : placed fr W R -> 1 <= l <= 8 ->
  match readLongSize l (here fr st W R n b e) with
  | (Done (sz, None), s') => 56 <= sz < 2 ^ 64 /\ exists W1, W = Big.Bytes sz ++ W1 /\ zlen (Big.Bytes sz) = l /\
      s' = here fr st W1 R n b e
  | (Done (_, Some e'), s') => e' <> EOL /\ forall m W1, 56 <= m -> zlen (Big.Bytes m) = l -> W <> Big.Bytes m ++ W1
  | _ => False
  end.
Proof.
  intros Hp Hl. unfold readLongSize, mbind, SM_bind, try. destruct (Z.lt_ge_cases (zlen W) l) as [Hlt|Hge].
  { destruct (readUint_fail fr st W R l n b e Hp Hlt) as (e'&s'&->&He). cbn. split; [done|].
    intros m W1 _ Hm ->. rewrite zlen_app in Hlt. pose proof (zlen_nonneg W1). lia. }
  destruct (split_at_len W l) as (A&W1&->&<-); [lia|]. rewrite readUint_ok by done.
  pose proof (placed_bytes _ _ _ Hp) as [HA _]%is_bytes_app.
  assert (Huniq : forall m W2, zlen (Big.Bytes m) = zlen A -> A ++ W1 = Big.Bytes m ++ W2 -> A = Big.Bytes m).
  { intros m W2 Hm Hw. by apply app_same_length in Hw as [? _]. }
  destruct (bool_decide (zlen A = 1) || _) eqn:E; cbn.
  - destruct (Big.SetBytes A <? 56) eqn:E2; bool_to_prop.
    + split; [done|]. intros m W2 Hm Hml Hw. apply Huniq in Hw as ->; [|done].
      rewrite Big.SetBytes_Bytes in E2. lia.
    + assert (HAB : Big.Bytes (Big.SetBytes A) = A).
      { destruct A as [|x A]; [rewrite zlen_nil in Hl; lia|]. apply Bytes_SetBytes; [done|]. intros ->.
        destruct E as [E|E]; [|by rewrite bool_decide_eq_true_2 in E by done]. apply bool_decide_eq_true in E.
        rewrite zlen_cons in E. assert (A = []) as -> by (apply zlen_0; lia). done. }
      split; [|exists W1; by rewrite HAB]. split; [done|]. eapply Z.lt_le_trans; [by apply Big.SetBytes_bound|].
      change (2 ^ 64) with (256 ^ 8). apply Z.pow_le_mono_r; lia.
  - split; [done|]. intros m W2 Hm Hml Hw. apply Huniq in Hw as ->; [|done].
    apply orb_false_iff in E as [_ E]. apply negb_false_iff, bool_decide_eq_true in E.
    destruct (Big.Bytes m) as [|x l] eqn:Em; [done|]. injection E as ->. by apply (Bytes_head_nonzero m l); [lia|].
Qed.

(** ** Reading a header *)

Definition no_header (W : bytes) : Prop := forall k m h W1, header k m h -> m < 2 ^ 64 -> W <> h ++ W1.

Definition kind_read (fr : option Z) (st : list (Z * Z)) (W R : bytes) (n : Z) (e : option err)
    (r : outcome err (Kind * Z * option err) * Stream) : Prop :=
  match r with
  | (Done (k, sz, None), s') => exists h W1, header k sz h /\ sz < 2 ^ 64 /\ W = h ++ W1 /\
      s' = here fr st W1 R n (header_val k h) e
  | (Done (_, _, Some e'), _) => e' <> EOL /\ no_header W
  | _ => False
  end.

(** A first byte that announces a length of [l] bytes. *)
Lemma no_long_header x W l : 1 <= l <= 8 -> x = 0xB7 + l \/ x = 0xF7 + l ->
  (forall m W1, 56 <= m -> zlen (Big.Bytes m) = l -> W <> Big.Bytes m ++ W1) -> no_header (x :: W).
Proof.
  intros Hl Hx Hno k m h W1 Hh Hm E. pose proof (header_nonneg _ _ _ Hh) as Hnn.
  assert (Hlong : 56 <= m -> 1 <= zlen (Big.Bytes m) <= 8) by (intros; apply zlen_Bytes_u64; lia).
  destruct (header_cases _ _ _ Hh Hm) as [(->&->&v&->&?)|[(->&?&->)|[(->&?&->)|[(->&?&->)|(->&?&->)]]]];
    cbn [app] in E; injection E as E1 E2; try lia; eapply Hno; try done; lia.
Qed.

Lemma readKind_longform fr st x W R n e k tag : placed fr (x :: W) R -> 1 <= x - tag <= 8 ->
  (k = String /\ tag = 0xB7) \/ (k = List /\ tag = 0xF7) ->
  kind_read fr st (x :: W) R n e
    (('(sz, e) ← readLongSize (x - tag); mret (k, sz, e)) (here fr st W R n 0 e)).
Proof.
  intros Hp Hl Hk. pose proof (placed_suffix fr [x] W R Hp) as Hp'.
  pose proof (readLongSize_ok fr st W R (x - tag) n 0 e Hp' Hl) as Hr. unfold mbind, SM_bind.
  destruct (readLongSize _ _) as [[[sz [e'|]]| | |] s']; try done; cbn [mret SM_ret kind_read].
  - destruct Hr as [He Hno]. split; [done|]. eapply (no_long_header x W (x - tag)); [done|lia|done].
  - destruct Hr as (Hsz&W1&->&Hlen&->). exists (x :: Big.Bytes sz), W1.
    assert (Hh : header k sz (x :: Big.Bytes sz)).
    { replace x with (tag + zlen (Big.Bytes sz)) by lia.
      destruct Hk as [[-> ->]|[-> ->]]; [rewrite <- (head_long 0x80) by lia|rewrite <- (head_long 0xC0) by lia]; constructor; lia. }
    split_and!; [done|lia|done|]. by destruct Hk as [[-> _]|[-> _]].
Qed.

Lemma readKind_ok fr st W R n b e : placed fr W R -> kind_read fr st W R n e (readKind (here fr st W R n b e)).
Proof.
  intros Hp. unfold readKind, try. destruct W as [|x W].
  { destruct (readByte_end fr st R n b e Hp) as (e'&s'&Hr&He&Htop&Hst). unfold mbind, SM_bind. rewrite Hr.
    cbn. rewrite Hst. split; [|intros k m h W1 Hh _ E; destruct (header_nonempty _ _ _ Hh); by destruct h].
    destruct fr; cbn; [done|by rewrite Htop]. }
  pose proof (placed_bytes _ _ _ Hp) as [Hx _]%is_bytes_cons. unfold is_byte in Hx.
  erewrite run_done by (unfold try; by rewrite readByte_ok). cbv iota beta. erewrite run_done by done.
  change (set_byteval (here fr st W R n b e) 0) with (here fr st W R n 0 e).
  destruct (x <? 0x80) eqn:E1; bool_to_prop.
  { exists [x], W. split_and!; [constructor; lia|lia|done|done]. }
  destruct (x <? 0xB8) eqn:E2; bool_to_prop.
  { exists [x], W. split_and!; [|lia|done|done].
    replace [x] with (Spec.head 0x80 0xB7 (x - 0x80)) by (rewrite head_short by lia; f_equal; lia). constructor; lia. }
  destruct (x <? 0xC0) eqn:E3; bool_to_prop; [apply readKind_longform; [done|lia|by left]|].
  destruct (x <? 0xF8) eqn:E4; bool_to_prop; [|apply readKind_longform; [done|lia|by right]].
  exists [x], W. split_and!; [|lia|done|done].
  replace [x] with (Spec.head 0xC0 0xF7 (x - 0xC0)) by (rewrite head_short by lia; f_equal; lia). constructor; lia.
Qed.

(** The stream after a header. *)
Definition armed (fr : option Z) (st : list (Z * Z)) (W R : bytes) (k : Kind) (n b : Z) : Stream :=
  set_read (here fr st W R n b None) (Some k) n None.

Definition at_end (fr : option Z) (W : bytes) : Prop := W = [] /\ fr <> None.

Lemma Kind_ok fr st W R n b e : placed fr W R ->
  match Kind_ (here fr st W R n b e) with
  | (Done (k, sz), s') => exists h W1, header k sz h /\ W = h ++ W1 /\ sz <= zlen W1 /\
      s' = armed fr st W1 R k sz (header_val k h)
  | (Error e', s') => (forall k m h W1, header k m h -> W = h ++ W1 -> zlen W1 < m) /\
      (e' = EOL <-> at_end fr W) /\ (e' = EOL -> s' = here fr st W R n b None)
  | _ => False
  end.
Proof.
  intros Hp. unfold Kind_. cbn [kind here]. pose proof (placed_small _ _ _ Hp). pose proof (zlen_nonneg R).
  change (set_read (here fr st W R n b e) None _ None) with (here fr st W R n b None).
  destruct (match stack _ with [] => false | _ => _ end) eqn:Eend.
  { destruct fr as [sz|]; cbn in Eend; [|done]. bool_to_prop. assert (W = []) as -> by (apply zlen_0; lia).
    split_and!; [|by split; [intros _; split|]|done]. intros k m h W1 Hh E.
    destruct (header_nonempty _ _ _ Hh). by destruct h. }
  assert (Hne : ~ at_end fr W).
  { intros [-> Hfr]. destruct fr as [sz|]; [|done]. cbn in Eend. rewrite zlen_nil in Eend. bool_to_prop. lia. }
  pose proof (readKind_ok fr st W R n b None Hp) as Hr. unfold kind_read in Hr.
  destruct (readKind _) as [[[[k sz] [e'|]]| | |] s']; try done.
  { destruct Hr as [He Hno]. split_and!; [|by split|done]. intros k' m h W1 Hh -> .
    destruct (Z.lt_ge_cases (zlen W1) m) as [?|Hle]; [done|]. rewrite zlen_app in *. pose proof (zlen_nonneg h).
    by destruct (Hno k' m h W1 Hh ltac:(lia)). }
  destruct Hr as (h&W1&Hh&Hsz&->&->). rewrite zlen_app in *. pose proof (zlen_nonneg h). pose proof (zlen_nonneg W1).
  pose proof (placed_suffix _ _ _ _ Hp) as [_ _ Hf].
  assert (Hchk : match stack (here fr st W1 R n (header_val k h) None) with
    | [] => if limited (here fr st W1 R n (header_val k h) None) &&
              (sz >? remaining (here fr st W1 R n (header_val k h) None)) then Some ErrValueTooLarge else None
    | (pos, sz0) :: _ => if sz >? u64 (sz0 - pos) then Some ErrElemTooLarge else None
    end = if zlen W1 <? sz then Some (if fr then ErrElemTooLarge else ErrValueTooLarge) else None).
  { destruct fr as [f|]; cbn; rewrite Z.gtb_ltb.
    - rewrite u64_small by lia. by replace (f - (f - zlen W1)) with (zlen W1) by lia.
    - subst R. by rewrite zlen_nil, Z.add_0_r. }
  rewrite Hchk. destruct (zlen W1 <? sz) eqn:E; bool_to_prop.
  - split_and!; [|split; [by destruct fr|done]|by destruct fr]. intros k' m h' W1' Hh' E'.
    destruct (Z.lt_ge_cases (zlen W1') m) as [?|Hle]; [done|].
    assert (zlen h' + zlen W1' = zlen h + zlen W1) by (rewrite <- !zlen_app; by f_equal). pose proof (zlen_nonneg h').
    destruct (header_unique _ _ _ W1 _ _ _ W1' Hh Hh' Hsz ltac:(lia) E') as (_&->&_&->). lia.
  - exists h, W1. by split_and!.
Qed.

Lemma Kind_armed fr st W R k n b : Kind_ (armed fr st W R k n b) = (Done (k, n), armed fr st W R k n b).
Proof. done. Qed.

Lemma readFull_armed fr st A W R k n b : placed fr (A ++ W) R ->
  readFull (zlen A) (armed fr st (A ++ W) R k n b) = (Done A, here fr st W R n b None).
Proof. intros Hp. rewrite <- (readFull_ok fr st A W R n b None Hp). done. Qed.

(** ** Reading a value *)

(** [P a c]: [c] is an encoding of [a].  A read returns a value whose encoding starts
    the window, or fails because there is none; it reports the end of a list. *)
Definition reads {A} (P : A -> bytes -> Prop) (fr : option Z) (st : list (Z * Z)) (W R : bytes)
    (r : outcome err A * Stream) : Prop :=
  match r with
  | (Done a, s') => exists c W' n b e, P a c /\ W = c ++ W' /\ s' = here fr st W' R n b e
  | (Error e', s') => (forall a c W', P a c -> W <> c ++ W') /\ (e' = EOL <-> at_end fr W) /\
      (e' = EOL -> exists n b e, s' = here fr st W R n b e)
  | _ => False
  end.

(** Encodings are a header and the content it announces. *)
Definition framed {A} (P : A -> bytes -> Prop) : Prop :=
  forall a c, P a c -> exists k h p, header k (zlen p) h /\ c = h ++ p.

Lemma frame_unique W k h p W1 k' h' p' W' : zlen W < 2 ^ 62 ->
  header k (zlen p) h -> W = h ++ p ++ W1 -> header k' (zlen p') h' -> W = (h' ++ p') ++ W' ->
  k = k' /\ h = h' /\ p = p' /\ W1 = W'.
Proof.
  intros Hs Hh -> Hh' E. rewrite <- app_assoc in E. rewrite !zlen_app in Hs.
  assert (Hl : zlen (h ++ p ++ W1) = zlen (h' ++ p' ++ W')) by (by rewrite E). rewrite !zlen_app in Hl.
  pose proof (zlen_nonneg h). pose proof (zlen_nonneg h'). pose proof (zlen_nonneg W1). pose proof (zlen_nonneg W').
  destruct (header_unique _ _ _ _ _ _ _ _ Hh Hh' ltac:(lia) ltac:(lia) E) as (->&Hn&->&E2).
  by apply app_same_length in E2 as [-> ->].
Qed.

(** A failure after the header [h] with content [p]. *)
Lemma reads_error {A} (P : A -> bytes -> Prop) fr st W R k h p W1 e s' : placed fr W R -> framed P ->
  header k (zlen p) h -> W = h ++ p ++ W1 -> e <> EOL -> (forall a, ~ P a (h ++ p)) ->
  reads P fr st W R (Error e, s').
Proof.
  intros Hp Hfr Hh HW He Hno. split_and!.
  - intros a c W' Ha Ec. destruct (Hfr a c Ha) as (k'&h'&p'&Hh'&->).
    destruct (frame_unique W k h p W1 k' h' p' W' (placed_window _ _ _ Hp) Hh HW Hh' Ec) as (->&->&->&->). by eapply Hno.
  - split; [done|]. intros [-> _]. destruct (header_nonempty _ _ _ Hh). by destruct h.
  - done.
Qed.

Lemma reads_kind {A} (P : A -> bytes -> Prop) (f : Kind * Z -> DM A) fr st W R n b e : placed fr W R -> framed P ->
  (forall k h p W1, header k (zlen p) h -> W = h ++ p ++ W1 -> placed fr (p ++ W1) R ->
     reads P fr st W R (f (k, zlen p) (armed fr st (p ++ W1) R k (zlen p) (header_val k h)))) ->
  reads P fr st W R ((Kind_ ≫= f) (here fr st W R n b e)).
Proof.
  intros Hp Hfr Hf. pose proof (Kind_ok fr st W R n b e Hp) as Hk. unfold mbind, SM_bind.
  destruct (Kind_ _) as [[[k sz]|e'| |] s']; try done.
  - destruct Hk as (h&W1&Hh&->&Hle&->). pose proof (header_nonneg _ _ _ Hh).
    destruct (split_at_len W1 sz) as (p&W2&->&<-); [lia|]. apply Hf; [done|done|by eapply placed_suffix].
  - destruct Hk as (Hno&Heol&Hs). split_and!; [|done|by intros ?%Hs; eauto].
    intros a c W' Ha ->. destruct (Hfr a c Ha) as (k&h&p&Hh&->).
    pose proof (Hno k (zlen p) h (p ++ W') Hh ltac:(by rewrite app_assoc)) as Hlt.
    rewrite zlen_app in Hlt. pose proof (zlen_nonneg W'). lia.
Qed.

Lemma reads_wrap {A} (P : A -> bytes -> Prop) fr st W R (m : DM A) s :
  reads P fr st W R (m s) -> reads P fr st W R (wrap m s).
Proof.
  unfold wrap, reads. destruct (m s) as [[a|e| |] s']; try done. intros (Hno&Heol&Hs).
  assert (wrapStreamError e = EOL <-> e = EOL) as Hw by by destruct e.
  split_and!; [done|by rewrite Hw|by rewrite Hw].
Qed.

(** A computation on the value read. *)
Lemma reads_map {A B} (P : A -> bytes -> Prop) (Q : B -> bytes -> Prop) (f : A -> B) fr st W R (m : DM A) s :
  (forall b c, Q b c <-> exists a, b = f a /\ P a c) ->
  reads P fr st W R (m s) -> reads Q fr st W R ((a ← m; mret (f a)) s).
Proof.
  intros Hq. unfold reads, mbind, SM_bind. destruct (m s) as [[a|e| |] s']; try done.
  - intros (c&W'&n&b&e&Hp&->&->). cbn. exists c, W', n, b, e. split_and!; [|done|done]. apply Hq. eauto.
  - intros (Hno&Heol&Hs). split_and!; [|done|done]. intros b c W' (a&->&Ha)%Hq. by apply (Hno a).
Qed.

(** ** Strings *)

Definition encodes_bytes (c e : bytes) : Prop := is_bytes c /\ e = Spec.string c.

(** A string is a single small byte, or a header and its content. *)
Lemma string_cases c : is_bytes c ->
  (exists x, c = [x] /\ 0 <= x < 0x80 /\ Spec.string c = [x] ++ []) \/
  ((forall x, c = [x] -> 0x80 <= x) /\ Spec.string c = Spec.head 0x80 0xB7 (zlen c) ++ c).
Proof.
  intros Hc. unfold Spec.string. destruct c as [|x [|y c]]; [by right| |by right].
  pose proof Hc as [Hx _]%is_bytes_cons. unfold is_byte in Hx. destruct (x <? 0x80) eqn:E; bool_to_prop.
  - left. exists x. split_and!; [done|lia|lia|done].
  - right. split; [by intros ? [= ->]|done].
Qed.

Lemma framed_bytes : framed encodes_bytes.
Proof.
  intros c e [Hc ->]. destruct (string_cases c Hc) as [(x&->&Hx&->)|[_ ->]].
  - exists Byte, [x], []. by split; [constructor|].
  - exists String, (Spec.head 0x80 0xB7 (zlen c)), c. by split; [constructor; apply zlen_nonneg|].
Qed.

(** Which string has a given header and content. *)
Lemma string_inv c k h p : is_bytes c -> header k (zlen p) h -> zlen (h ++ p) < 2 ^ 64 -> Spec.string c = h ++ p ->
  (k = Byte /\ c = h /\ exists x, h = [x] /\ 0 <= x < 0x80) \/
  (k = String /\ c = p /\ forall x, p = [x] -> 0x80 <= x).
Proof.
  intros Hc Hh Hl E. pose proof (zlen_string_ge c) as Hcl. rewrite E in Hcl. rewrite zlen_app in *. pose proof (zlen_nonneg h).
  destruct (string_cases c Hc) as [(x&->&Hx&Es)|[Hc2 Es]]; rewrite Es in E.
  - left. destruct (header_unique Byte 0 [x] [] k (zlen p) h p) as (<-&_&<-&_); try done; [by constructor|lia|]. eauto.
  - right. destruct (header_unique String (zlen c) (Spec.head 0x80 0xB7 (zlen c)) c k (zlen p) h p) as (<-&_&_&<-); try done; try lia.
    constructor. apply zlen_nonneg.
Qed.

Lemma header_byte_inv n h : header Byte n h -> n = 0 /\ exists x, h = [x] /\ 0 <= x < 0x80.
Proof. inversion 1; eauto. Qed.
Lemma header_string_inv n h : header String n h -> h = Spec.head 0x80 0xB7 n.
Proof. by inversion 1. Qed.
Lemma header_list_inv n h : header List n h -> h = Spec.head 0xC0 0xF7 n.
Proof. by inversion 1. Qed.

(** The bytes read, when they are not one small byte. *)
Lemma string_long c : (forall x, c = [x] -> 0x80 <= x) -> Spec.string c = Spec.head 0x80 0xB7 (zlen c) ++ c.
Proof.
  intros Hc. unfold Spec.string. destruct c as [|x [|y c]]; [done| |done].
  by rewrite (proj2 (Z.ltb_ge _ _)) by (by apply Hc).
Qed.

Lemma placed_part fr h p W1 R : placed fr (h ++ p ++ W1) R -> zlen (h ++ p) < 2 ^ 62 /\ is_bytes p.
Proof.
  intros [Hb Hs _]. apply is_bytes_app in Hb as [_ [Hb _]%is_bytes_app]. rewrite !zlen_app in Hs.
  pose proof (zlen_nonneg h). pose proof (zlen_nonneg W1). pose proof (zlen_nonneg R). rewrite zlen_app. split; [lia|done].
Qed.

Lemma Bytes_ok fr st W R n b e : placed fr W R -> reads encodes_bytes fr st W R (Bytes (here fr st W R n b e)).
Proof.
  intros Hp. apply reads_kind; [done|apply framed_bytes|]. intros k h p W1 Hh HW Hp1.
  rewrite HW in Hp. destruct (placed_part _ _ _ _ _ Hp) as [Hlp Hbp]. destruct k.
  - apply header_byte_inv in Hh as [Hz (x&->&Hx)]. apply zlen_0 in Hz as ->.
    change (reads encodes_bytes fr st W R (Done [x], here fr st W1 R 0 x None)).
    exists [x], W1. do 3 eexists. split_and!; [|done|done]. split; [|by unfold Spec.string; rewrite (proj2 (Z.ltb_lt _ _)) by lia].
    apply is_bytes_cons. split; [unfold is_byte; lia|constructor].
  - erewrite run_done by by apply readFull_armed. apply header_string_inv in Hh as ->.
    assert (Hgood : (forall x, p = [x] -> 0x80 <= x) ->
      reads encodes_bytes fr st W R (Done p, (here fr st W1 R (zlen p) (header_val String (Spec.head 0x80 0xB7 (zlen p))) None))).
    { intros Hx. exists (Spec.string p), W1. do 3 eexists. split_and!; [by split| |done]. by rewrite string_long, <- app_assoc. }
    destruct (zlen p =? 1) eqn:E1; bool_to_prop; [|apply Hgood; by intros x ->].
    destruct p as [|x [|y p]]; [done| |rewrite !zlen_cons in E1; pose proof (zlen_nonneg p); lia].
    cbn [unwrap]. rewrite zget_0. erewrite run_done by done.
    destruct (x <? 128) eqn:E2; bool_to_prop; [|apply Hgood; by intros ? [= ->]].
    eapply (reads_error _ fr st W R String _ [x] W1); [by rewrite HW|apply framed_bytes|constructor; lia|done|done|].
    intros a [Ha Ea]. symmetry in Ea. apply (string_inv a String _ [x] Ha) in Ea as [(?&_)|(_&_&Hx)];
      [done|specialize (Hx x eq_refl); lia|apply header_string; lia|lia].
  - eapply (reads_error _ fr st W R List h p W1); [by rewrite HW|apply framed_bytes|done|done|done|].
    intros a [Ha Ea]. symmetry in Ea. apply (string_inv a List h p Ha Hh) in Ea as [(?&_)|(?&_)]; done || lia.
Qed.

(** ** Other leaves *)

(** A raw value is checked as far as its header goes. *)
Definition encodes_raw (b e : bytes) : Prop :=
  e = b /\ is_bytes b /\ exists k h p, header k (zlen p) h /\ b = h ++ p.

Lemma Raw_ok fr st W R n b e : placed fr W R -> reads encodes_raw fr st W R (Raw_ (here fr st W R n b e)).
Proof.
  intros Hp. apply reads_kind; [done|by intros a c [-> [_ (k&h&p&?&->)]]; eauto|]. intros k h p W1 Hh HW Hp1.
  rewrite HW in Hp. destruct (placed_part _ _ _ _ _ Hp) as [Hlp Hbp]. rewrite zlen_app in Hlp.
  assert (is_bytes (h ++ p)) by (pose proof (placed_bytes _ _ _ Hp) as Hb; rewrite app_assoc in Hb; by apply is_bytes_app in Hb as [? _]).
  pose proof (zlen_nonneg h). pose proof (zlen_nonneg p).
  assert (Hgood : reads encodes_raw fr st W R (Done (h ++ p), here fr st W1 R (zlen p) (header_val k h) None)).
  { exists (h ++ p), W1. do 3 eexists. split_and!; [split; eauto 10|by rewrite <- app_assoc|done]. }
  destruct k.
  - apply header_byte_inv in Hh as [Hz (x&->&Hx)]. apply zlen_0 in Hz as ->. apply Hgood.
  - erewrite run_done by by apply readFull_armed. rewrite puthead_spec by lia.
    apply header_string_inv in Hh as <-. apply Hgood.
  - erewrite run_done by by apply readFull_armed. rewrite puthead_spec by lia.
    apply header_list_inv in Hh as <-. apply Hgood.
Qed.

Definition encodes_uint (bits i : Z) (e : bytes) : Prop := 0 <= i < 2 ^ bits /\ e = Spec.string (Big.Bytes i).

Lemma framed_uint bits : framed (encodes_uint bits).
Proof. intros i e [Hi ->]. apply (framed_bytes (Big.Bytes i)). split; [apply Big.is_bytes_Bytes|done]. Qed.

Lemma readUint_armed l fr st W R k n b : readUint l (armed fr st W R k n b) = readUint l (here fr st W R n b None).
Proof. unfold readUint. destruct (l =? 0); [done|]. by destruct (l =? 1). Qed.

(** Which integer has a given content. *)
Lemma uint_inv bits i k h p : encodes_uint bits i (h ++ p) -> header k (zlen p) h -> zlen (h ++ p) < 2 ^ 64 ->
  (k = Byte /\ h = [i] /\ 0 < i) \/ (k = String /\ p = Big.Bytes i /\ (i = 0 \/ 0x80 <= i)).
Proof.
  intros [Hi E] Hh Hl. symmetry in E.
  apply (string_inv _ k h p) in E as [(->&E&x&->&Hx)|(->&E&Hx)]; [..|apply Big.is_bytes_Bytes|done|done].
  - left. assert (Hxi : x = i).
    { pose proof (Big.SetBytes_Bytes i) as Hs. rewrite E in Hs. unfold Big.SetBytes in Hs. cbn in Hs. lia. }
    subst x. split_and!; [done|done|]. destruct (Z.eq_dec i 0) as [->|]; [done|lia].
  - right. split_and!; [done|done|]. destruct (Z.lt_ge_cases i 0x80) as [Hlt|]; [|by right]. left.
    destruct (Z.eq_dec i 0) as [|Hne]; [done|]. exfalso.
    assert (Hb : Big.Bytes i = [i]) by (rewrite (Bytes_eq 1) by (simpl; lia); cbn; by rewrite Z.mod_small by lia).
    rewrite Hb in E. specialize (Hx i ltac:(done)). lia.
Qed.

Lemma uint_ok bits fr st W R n b e : placed fr W R -> bits = 8 \/ bits = 16 \/ bits = 32 \/ bits = 64 ->
  reads (encodes_uint bits) fr st W R (uint bits (here fr st W R n b e)).
Proof.
  intros Hp Hbits. assert (Hb8 : exists w, bits = 8 * w /\ 1 <= w <= 8 /\ bits / 8 = w /\ 2 ^ bits = 256 ^ w).
  { destruct Hbits as [->|[->|[->| ->]]]; [exists 1|exists 2|exists 4|exists 8]; by vm_compute. }
  destruct Hb8 as (w&->&Hw&Hw8&Hpow). apply reads_kind; [done|apply framed_uint|]. intros k h p W1 Hh HW Hp1.
  rewrite HW in Hp. destruct (placed_part _ _ _ _ _ Hp) as [Hlp Hbp].
  assert (Herr : forall er s', er <> EOL ->
    (forall i, encodes_uint (8 * w) i (h ++ p) -> (k = Byte /\ h = [i] /\ 0 < i) \/
       (k = String /\ p = Big.Bytes i /\ (i = 0 \/ 0x80 <= i)) -> False) ->
    reads (encodes_uint (8 * w)) fr st W R (Error er, s')).
  { intros er s' He Hno. eapply (reads_error _ fr st W R k h p W1); [by rewrite HW|apply framed_uint|done..|].
    intros i Hi. eapply Hno; [done|]. eapply uint_inv; [done|done|lia]. }
  destruct k.
  - apply header_byte_inv in Hh as [Hz (x&->&Hx)]. apply zlen_0 in Hz as ->. cbn [header_val nth].
    erewrite run_done by done. change (byteval _) with x. destruct (x =? 0) eqn:E; bool_to_prop.
    + apply Herr; [done|]. intros i _ [(_&[= <-]&?)|(?&_)]; [lia|done].
    + exists [x], W1. do 3 eexists. split_and!; [|done|done]. split; [|symmetry; apply string_Bytes_small; cbn; lia].
      cbn. split; [lia|]. rewrite Hpow. eapply Z.lt_le_trans; [|apply (Z.pow_le_mono_r 256 1 w); lia]. lia.
  - rewrite Hw8, Z.gtb_ltb. destruct (w <? zlen p) eqn:E; bool_to_prop.
    { apply Herr; [done|]. intros i [Hi _] [(?&_)|(_&->&_)]; [done|].
      pose proof (Big.zlen_Bytes_le i w ltac:(lia) ltac:(lia)). lia. }
    destruct (zlen p =? 0) eqn:E0; bool_to_prop.
    { apply zlen_0 in E0 as ->. apply header_string_inv in Hh as ->.
      exists [0x80], W1. do 3 eexists. split_and!; [|done|done]. split; [|done]. split; [lia|apply Z.pow_pos_nonneg; lia]. }
    pose proof (zlen_nonneg p). unfold mbind, SM_bind, try.
    rewrite readUint_armed, readUint_ok by (done || lia). destruct (bool_decide (zlen p = 1) || _) eqn:E1.
    2:{ apply orb_false_iff in E1 as [_ E1]. apply negb_false_iff, bool_decide_eq_true in E1.
        apply Herr; [done|]. intros i [Hi _] [(?&_)|(_&->&_)]; [done|].
        destruct (Big.Bytes i) as [|x l] eqn:Ei; [done|]. injection E1 as ->. apply (Bytes_head_nonzero i l); [lia|done]. }
    assert (Hv : Big.Bytes (Big.SetBytes p) = p \/ p = [0]).
    { destruct p as [|x p]; [done|]. apply orb_true_iff in E1 as [E1|E1].
      - apply bool_decide_eq_true in E1. rewrite zlen_cons in E1. assert (p = []) as -> by (apply zlen_0; lia).
        destruct (Z.eq_dec x 0) as [->|]; [by right|left; by apply Bytes_SetBytes].
      - left. apply Bytes_SetBytes; [done|]. intros ->. by rewrite bool_decide_eq_true_2 in E1. }
    pose proof (Big.SetBytes_bound p Hbp) as Hbd. rewrite Z.gtb_ltb, (proj2 (Z.ltb_lt _ _)) by lia. cbn [andb].
    destruct (Big.SetBytes p <? 128) eqn:E2; bool_to_prop.
    + apply Herr; [done|]. intros i [Hi _] [(?&_)|(_&->&Hi2)]; [done|]. rewrite Big.SetBytes_Bytes in E2.
      destruct Hi2 as [->|?]; [done|lia].
    + destruct Hv as [Hv| ->]; [|done]. apply header_string_inv in Hh as ->.
      exists (Spec.string p), W1. do 3 eexists. split_and!; [| |done].
      * split; [|by rewrite Hv]. rewrite Hpow. split; [lia|]. eapply Z.lt_le_trans; [apply Hbd|]. apply Z.pow_le_mono_r; lia.
      * rewrite HW, app_assoc. f_equal. apply eq_sym, string_long. intros x ->. unfold Big.SetBytes in E2. cbn in E2. lia.
  - apply Herr; [done|]. by intros i _ [(?&_)|(?&_)].
Qed.

(** ** Values computed from what was read *)

Definition unique {A} (P : A -> bytes -> Prop) : Prop :=
  forall a c x a' c' x', P a c -> P a' c' -> zlen (c ++ x) < 2 ^ 62 -> c ++ x = c' ++ x' -> a = a'.

(** A check of the value read: [None] is an error. *)
Lemma reads_filter {A B} (P : A -> bytes -> Prop) (Q : B -> bytes -> Prop) (f : A -> option B) (er : A -> err)
    (k : A -> DM B) fr st W R (m : DM A) s :
  placed fr W R -> unique P -> (forall b c, Q b c <-> exists a, f a = Some b /\ P a c) ->
  (forall a c, P a c -> c <> []) ->
  (forall a s, k a s = match f a with Some b => (Done b, s) | None => (Error (er a), s) end /\ er a <> EOL) ->
  reads P fr st W R (m s) -> reads Q fr st W R ((m ≫= k) s).
Proof.
  intros Hp Hu Hq Hne Hk. unfold reads, mbind, SM_bind. destruct (m s) as [[a|e| |] s']; try done.
  - intros (c&W'&n&b&e&Ha&->&->). destruct (Hk a (here fr st W' R n b e)) as [-> He]. destruct (f a) as [v|] eqn:Ef.
    + exists c, W', n, b, e. split_and!; [|done|done]. apply Hq. eauto.
    + split_and!; [|split; [done|]|done].
      * intros v c' W2 (a'&Ea&Ha')%Hq E. pose proof (placed_small _ _ _ Hp). pose proof (zlen_nonneg R).
        assert (a = a') as -> by (eapply (Hu a c W' a' c' W2); try done; lia). congruence.
      * intros [E _]. apply app_eq_nil in E as [-> _]. by destruct (Hne a []).
  - intros (Hno&Heol&Hs). split_and!; [|done|done]. intros v c' W2 (a'&Ea&Ha')%Hq. by apply (Hno a').
Qed.

Lemma string_nonempty c : Spec.string c <> [].
Proof. unfold Spec.string, Spec.head. repeat case_match; done. Qed.

Lemma string_unique c x c' x' : is_bytes c -> is_bytes c' -> zlen (Spec.string c ++ x) < 2 ^ 62 ->
  Spec.string c ++ x = Spec.string c' ++ x' -> c = c' /\ x = x'.
Proof.
  intros Hc Hc' Hl E. assert (Hl' : zlen (Spec.string c' ++ x') < 2 ^ 62) by by rewrite <- E.
  destruct (framed_bytes c _ (conj Hc eq_refl)) as (k&h&p&Hh&Es), (framed_bytes c' _ (conj Hc' eq_refl)) as (k'&h'&p'&Hh'&Es').
  rewrite Es, Es' in *. rewrite !zlen_app in *. pose proof (zlen_nonneg h). pose proof (zlen_nonneg h').
  pose proof (zlen_nonneg x). pose proof (zlen_nonneg x'). rewrite <- !app_assoc in E.
  pose proof (zlen_nonneg p). pose proof (zlen_nonneg p').
  destruct (header_unique _ _ _ _ _ _ _ _ Hh Hh' ltac:(lia) ltac:(lia) E) as (->&Hn&->&E2).
  assert (Hcase : forall c0 p0, is_bytes c0 -> header k' (zlen p0) h' -> zlen (h' ++ p0) < 2 ^ 64 -> Spec.string c0 = h' ++ p0 ->
    c0 = match k' with Byte => h' | _ => p0 end /\ (k' = Byte -> p0 = [])).
  { intros c0 p0 Hc0 Hh0 Hl0 E0. destruct (string_inv c0 k' h' p0 Hc0 Hh0 Hl0 E0) as [(->&->&_)|(->&->&_)]; [|done].
    split; [done|]. intros _. apply header_byte_inv in Hh0 as [Hz _]. by apply zlen_0. }
  destruct (Hcase c p Hc Hh ltac:(rewrite zlen_app; lia) Es) as [-> Hp0].
  destruct (Hcase c' p' Hc' Hh' ltac:(rewrite zlen_app; lia) Es') as [-> Hp0'].
  destruct k'; [rewrite Hp0, Hp0' in E2 by done; by split|..];
    by apply app_same_length in E2 as [-> ->].
Qed.

Lemma unique_bytes : unique encodes_bytes.
Proof. intros c e x c' e' x' [Hc ->] [Hc' ->] Hl E. by apply string_unique in E as [? _]. Qed.

Lemma unique_uint bits : unique (encodes_uint bits).
Proof.
  intros i e x i' e' x' [Hi ->] [Hi' ->] Hl E. apply string_unique in E as [E _]; [|apply Big.is_bytes_Bytes..|done].
  by apply Bytes_inj; [lia..|].
Qed.

Definition encodes_bool (v : bool) (e : bytes) : Prop := e = Spec.string (Big.Bytes (if v then 1 else 0)).

Lemma Bool_ok fr st W R n b e : placed fr W R -> reads encodes_bool fr st W R (Bool (here fr st W R n b e)).
Proof.
  intros Hp. eapply (reads_filter (encodes_uint 8) _ (fun i => if i =? 0 then Some false else if i =? 1 then Some true else None)
    invalidBoolean); [done|apply unique_uint| | | |by apply uint_ok; [|left]].
  - intros v c. split.
    + intros ->. exists (if v then 1 else 0). split; [by destruct v|]. split; [by destruct v|done].
    + intros (i&Hi&_&->). unfold encodes_bool. repeat case_match; bool_to_prop; simplify_eq; done.
  - intros i c [_ ->]. apply string_nonempty.
  - intros i s. split; [|done]. destruct (i =? 0); [done|]. by destruct (i =? 1).
Qed.

Definition encodes_bigint (v : Enc.value) (e : bytes) : Prop :=
  exists i, 0 <= i /\ v = Enc.VBigInt (Some i) /\ e = Spec.string (Big.Bytes i).

Lemma decodeBigInt_ok fr st W R n b e : placed fr W R ->
  reads encodes_bigint fr st W R (decodeBigInt (here fr st W R n b e)).
Proof.
  intros Hp. eapply (reads_filter encodes_bytes _
    (fun c => if bool_decide (head c = Some 0) then None else Some (Enc.VBigInt (Some (Big.SetBytes c))))
    (fun _ => decodeError nonCanonicalInteger)); [done|apply unique_bytes| | | |by apply reads_wrap, Bytes_ok].
  - intros v c. split.
    + intros (i&Hi&->&->). exists (Big.Bytes i). split; [|split; [apply Big.is_bytes_Bytes|done]].
      rewrite bool_decide_eq_false_2; [|by intros H; destruct (Big.Bytes i) as [|y l] eqn:E; [done|];
        injection H as ->; eapply (Bytes_head_nonzero i l); [done|]].
      by rewrite Big.SetBytes_Bytes, Z.abs_eq.
    + intros (a&Ha&Hb&->). case_bool_decide as Hh; [done|]. injection Ha as <-. exists (Big.SetBytes a).
      pose proof (Big.SetBytes_bound a Hb). split_and!; [lia|done|]. f_equal. destruct a as [|y a]; [done|].
      symmetry. apply Bytes_SetBytes; [done|]. by intros ->.
  - intros c d [_ ->]. apply string_nonempty.
  - intros c s. split; [|done]. by case_bool_decide.
Qed.

Definition encodes_array (n : nat) (v : Enc.value) (e : bytes) : Prop :=
  exists c, is_bytes c /\ length c = n /\ v = Enc.VBytes c /\ e = Spec.string c.

Lemma decodeByteArray_ok fr st W R len n b e : placed fr W R -> len <> 1%nat ->
  reads (encodes_array len) fr st W R (decodeByteArray len (here fr st W R n b e)).
Proof.
  intros Hp Hlen. assert (Hfr : framed (encodes_array len)).
  { intros v c0 (c&Hc&_&->&->). by apply (framed_bytes c). }
  apply reads_kind; [done|done|]. intros k h p W1 Hh HW Hp1. rewrite HW in Hp.
  destruct (placed_part _ _ _ _ _ Hp) as [Hlp Hbp].
  assert (Herr : forall m s', (forall c, is_bytes c -> length c = len -> (k = Byte /\ c = h /\ exists x, h = [x] /\ 0 <= x < 0x80) \/
       (k = String /\ c = p /\ forall x, p = [x] -> 0x80 <= x) -> False) ->
    reads (encodes_array len) fr st W R (Error (decodeError m), s')).
  { intros m s' Hno. eapply (reads_error _ fr st W R k h p W1); [by rewrite HW|done..|].
    intros v (c&Hc&Hl&->&E). eapply Hno; [done|done|]. apply string_inv; [done|done|lia|done]. }
  destruct k.
  - case_bool_decide; [|case_bool_decide; [|lia]]; apply Herr;
      intros c _ Hl [(_&->&x&->&_)|(?&_)]; try done; simpl in Hl; lia.
  - destruct (Z.of_nat len <? zlen p) eqn:E1; bool_to_prop.
    { apply Herr. intros c _ Hl [(?&_)|(_&->&_)]; [done|]. unfold zlen in E1. lia. }
    destruct (Z.of_nat len >? zlen p) eqn:E2; bool_to_prop.
    { apply Herr. intros c _ Hl [(?&_)|(_&->&_)]; [done|]. unfold zlen in E2. lia. }
    assert (Hpl : length p = len) by (unfold zlen in *; lia).
    erewrite run_done by by apply readFull_armed. rewrite (proj2 (Z.eqb_neq _ _)) by (unfold zlen; lia).
    apply header_string_inv in Hh as ->. exists (Spec.string p), W1. do 3 eexists.
    split_and!; [by exists p| |done]. rewrite HW, app_assoc. f_equal. symmetry. apply string_long.
    intros x ->. simpl in Hpl. lia.
  - apply Herr. by intros c _ _ [(?&_)|(?&_)].
Qed.
End stream.
