(* ===== verification/RlpDecodeTheorems.v ===== *)
(** Decoding lists, the theorems on [DecodeBytes], and decoding what was encoded for types
    with optional pointers. *)
From S2P Require Import Prelude GoBig Rlp RlpDecode RlpDecodeOk CommonTypes.
Import Dec.

(** ** The values of a type *)

(** What an empty interface holds. *)
Inductive iface : Enc.value -> Prop :=
| iface_bytes b : is_bytes b -> iface (Enc.VBytes b)
| iface_list l : Forall iface l -> iface (Enc.VList l).

Section each.
Context (typed : gotype -> Enc.value -> Prop).
Fixpoint typed_fields (ts : list gotype) (vs : list Enc.value) : Prop :=
  match ts, vs with
  | [], [] => True
  | t :: ts, v :: vs => typed t v /\ typed_fields ts vs
  | _, _ => False
  end.
End each.

Fixpoint typed (t : gotype) (v : Enc.value) : Prop :=
  match t with
  | TyRaw => exists b, v = Enc.VRaw b /\ encodes_raw b b
  | TyUint bits => exists i, v = Enc.VUint i /\ 0 <= i < 2 ^ bits
  | TyBool => exists b, v = Enc.VBool b
  | TyBigInt => exists i, v = Enc.VBigInt (Some i) /\ 0 <= i
  | TyBytes => exists b, v = Enc.VBytes b /\ is_bytes b
  | TyByteArray n => exists b, v = Enc.VBytes b /\ is_bytes b /\ length b = n
  | TySlice t => exists l, v = Enc.VList l /\ Forall (typed t) l
  | TyArray n t => exists l, v = Enc.VList l /\ Forall (typed t) l /\ length l = n
  | TyStruct ts tail => exists l, v = Enc.VList l /\
      match tail with
      | None => typed_fields typed ts l
      | Some t => exists l0 tl, l = l0 ++ [Enc.VTail tl] /\ typed_fields typed ts l0 /\ Forall (typed t) tl
      end
  | TyPtr t => typed t v
  | TyOptPtr t => v = nil_value t \/ typed t v
  | TyInterface => iface v
  end.

(** Types with one encoding per value that the decoder reads correctly: no "nil"
    tags, and no arrays of one byte. *)
Fixpoint strict (t : gotype) : Prop :=
  match t with
  | TyRaw | TyBool | TyBigInt | TyBytes | TyInterface => True
  | TyUint bits => bits = 8 \/ bits = 16 \/ bits = 32 \/ bits = 64
  | TyByteArray n => n <> 1%nat
  | TySlice t | TyArray _ t | TyPtr t => strict t
  | TyStruct ts tail =>
      foldr (fun t P => strict t /\ P) True ts /\ match tail with None => True | Some t => strict t end
  | TyOptPtr _ => False
  end.

Section gotype_ind.
Variable P : gotype -> Prop.
Hypothesis Hraw : P TyRaw.
Hypothesis Huint : forall bits, P (TyUint bits).
Hypothesis Hbool : P TyBool.
Hypothesis Hbig : P TyBigInt.
Hypothesis Hbytes : P TyBytes.
Hypothesis Harr : forall n, P (TyByteArray n).
Hypothesis Hslice : forall t, P t -> P (TySlice t).
Hypothesis Harray : forall n t, P t -> P (TyArray n t).
Hypothesis Hstruct : forall ts tail, Forall P ts -> (forall t, tail = Some t -> P t) -> P (TyStruct ts tail).
Hypothesis Hptr : forall t, P t -> P (TyPtr t).
Hypothesis Hopt : forall t, P t -> P (TyOptPtr t).
Hypothesis Hif : P TyInterface.

Fixpoint gotype_ind' (t : gotype) : P t :=
  match t with
  | TyRaw => Hraw
  | TyUint bits => Huint bits
  | TyBool => Hbool
  | TyBigInt => Hbig
  | TyBytes => Hbytes
  | TyByteArray n => Harr n
  | TySlice t => Hslice t (gotype_ind' t)
  | TyArray n t => Harray n t (gotype_ind' t)
  | TyStruct ts tail =>
      Hstruct ts tail
        ((fix all ts : Forall P ts :=
            match ts with [] => Forall_nil_2 P | t :: ts => Forall_cons_2 P t ts (gotype_ind' t) (all ts) end) ts)
        (match tail with
         | None => fun t H => match H with end
         | Some t0 => fun t H => eq_ind t0 P (gotype_ind' t0) t (f_equal (default t0) H)
         end)
  | TyPtr t => Hptr t (gotype_ind' t)
  | TyOptPtr t => Hopt t (gotype_ind' t)
  | TyInterface => Hif
  end.
End gotype_ind.

(** ** Lists *)

Abbreviation encs l := (concat (map Spec.enc l)).
Definition encodes (T : Enc.value -> Prop) (v : Enc.value) (c : bytes) : Prop := T v /\ c = Spec.enc v.

Section lists.

(** The frame of a list of the size of [C], between its start and its end. *)
Lemma List_armed fr st C W R b : placed fr (C ++ W) R ->
  List_ (armed fr st (C ++ W) R List (zlen C) b) =
    (Done (zlen C), here (Some (zlen C)) (stack (here fr st (C ++ W) R 0 0 None)) C (W ++ R) 0 b None).
Proof.
  intros Hp. unfold List_. erewrite run_done by apply Kind_armed. cbv beta iota. erewrite run_done by done.
  unfold armed, here, set_read, set_stack, mret, SM_ret. cbn -[zlen]. rewrite Z.sub_diag, !zlen_app, app_assoc.
  by rewrite Z.add_assoc.
Qed.

Lemma ListEnd_ok fr st C W R n b e n' b' e' : placed fr (C ++ W) R ->
  ListEnd (here (Some (zlen C)) (stack (here fr st (C ++ W) R n' b' e')) [] (W ++ R) n b e) =
    (Done tt, here fr st W R 0 b e).
Proof.
  intros [_ Hs Hf]. unfold ListEnd, here, set_read, set_stack. cbn -[zlen].
  rewrite zlen_nil, Z.sub_0_r, Z.eqb_refl, !zlen_app, Z.add_0_l in *. cbn -[zlen].
  pose proof (zlen_nonneg C). pose proof (zlen_nonneg W). pose proof (zlen_nonneg R).
  destruct fr as [f|]; [|done]. cbn -[zlen]. rewrite u64_small by lia.
  by replace (f - (zlen C + zlen W) + zlen C) with (f - zlen W) by lia.
Qed.

Lemma ListEnd_fail sz st W R n b e : W <> [] ->
  ListEnd (here (Some sz) st W R n b e) = (Error errNotAtEOL, here (Some sz) st W R n b e).
Proof.
  intros HW. unfold ListEnd. cbn -[zlen]. rewrite (proj2 (Z.eqb_neq _ _)); [done|].
  pose proof (zlen_nonneg W). intros E. apply HW, zlen_0. lia.
Qed.

Lemma placed_list fr C W R : placed fr (C ++ W) R -> placed (Some (zlen C)) C (W ++ R).
Proof.
  intros [Hb Hs Hf]. apply is_bytes_app in Hb as [Hb _]. rewrite !zlen_app in *. pose proof (zlen_nonneg W).
  pose proof (zlen_nonneg R). split; [done|rewrite zlen_app; lia|lia].
Qed.

(** The elements: what is read from the content [C] of a list; what is left makes the
    list one of another type. *)
Definition reads_elems (Tl : list Enc.value -> Prop) (fr : option Z) (st : list (Z * Z)) (C R : bytes)
    (r : outcome err (list Enc.value) * Stream) : Prop :=
  match r with
  | (Done l, s') => Tl l /\ exists C' n b e, C = encs l ++ C' /\ s' = here fr st C' R n b e /\
      (C' <> [] -> forall l', Tl l' -> C <> encs l')
  | (Error er, _) => er <> EOL /\ forall l, Tl l -> C <> encs l
  | _ => False
  end.

Definition list_of (Tl : list Enc.value -> Prop) (v : Enc.value) : Prop := exists l, v = Enc.VList l /\ Tl l.

Lemma framed_list Tl : framed (encodes (list_of Tl)).
Proof.
  intros v c [(l&->&_) ->]. exists List, (Spec.head 0xC0 0xF7 (zlen (encs l))), (encs l).
  split; [constructor; apply zlen_nonneg|done].
Qed.

Lemma fin_cases (fin : DM unit) s : fin = ListEnd \/ fin = wrap ListEnd ->
  match ListEnd s with
  | (Done u, s') => fin s = (Done u, s')
  | (Error er, s') => exists er', fin s = (Error er', s') /\ er' <> EOL
  | _ => False
  end.
Proof.
  intros Hfin. destruct (ListEnd s) as [[u|er| |] s'] eqn:E.
  - destruct Hfin as [->| ->]; [done|]. unfold wrap. by rewrite E.
  - assert (er <> EOL) by (unfold ListEnd in E; repeat case_match; naive_solver).
    destruct Hfin as [->| ->]; [by exists er|]. unfold wrap. rewrite E. eexists. split; [done|]. by destruct er.
  - unfold ListEnd in E. repeat case_match; naive_solver.
  - unfold ListEnd in E. repeat case_match; naive_solver.
Qed.

(** Operations that start by looking at the header. *)
Definition kind_first {A} (m : DM A) : Prop :=
  (forall s r s', Kind_ s = (Done r, s') -> Kind_ s' = (Done r, s') -> m s = m s') /\
  (forall s e s', Kind_ s = (Error e, s') -> exists e', m s = (Error e', s') /\ (e' = EOL <-> e = EOL)).

Lemma kind_first_bind {A B} (m : DM A) (k : A -> DM B) : kind_first m -> kind_first (m ≫= k).
Proof.
  intros [H1 H2]. split.
  - intros s r s' Hk Hk'. unfold mbind, SM_bind. by rewrite (H1 s r s').
  - intros s e s' Hk. destruct (H2 s e s' Hk) as (e'&Hm&He). exists e'. split; [by apply run_error|done].
Qed.

Lemma kind_first_List : kind_first (wrap List_).
Proof.
  split.
  - intros s r s' Hk Hk'. unfold wrap, List_. by rewrite !(run_done _ _ _ _ _ Hk), !(run_done _ _ _ _ _ Hk').
  - intros s e s' Hk. exists (wrapStreamError e). unfold wrap, List_. rewrite (run_error _ _ _ _ _ Hk). split; [done|].
    by destruct e.
Qed.

Lemma reads_first {A} (P : A -> bytes -> Prop) (m : DM A) fr st W R n b e : placed fr W R -> framed P -> kind_first m ->
  (forall k h p W1, header k (zlen p) h -> W = h ++ p ++ W1 -> placed fr (p ++ W1) R ->
     reads P fr st W R (m (armed fr st (p ++ W1) R k (zlen p) (header_val k h)))) ->
  reads P fr st W R (m (here fr st W R n b e)).
Proof.
  intros Hp Hfr [Hm1 Hm2] Hf. pose proof (reads_kind P (fun _ => m) fr st W R n b e Hp Hfr Hf) as Hr.
  unfold mbind, SM_bind in Hr. pose proof (Kind_ok fr st W R n b e Hp) as Hk.
  destruct (Kind_ _) as [[[k sz]|e'| |] s'] eqn:Ek; try done.
  - destruct Hk as (h&W1&Hh&HW&Hle&->). by rewrite (Hm1 _ _ _ Ek).
  - destruct (Hm2 _ _ _ Ek) as (e2&->&He2). unfold reads in *. by rewrite He2.
Qed.

Lemma reads_list_armed (Tl : list Enc.value -> Prop) (body : Z -> DM (list Enc.value)) (fin : DM unit)
    fr st W R k h C W1 : placed fr W R -> fin = ListEnd \/ fin = wrap ListEnd ->
  (forall st R n b e, placed (Some (zlen C)) C R ->
     reads_elems Tl (Some (zlen C)) st C R (body (zlen C) (here (Some (zlen C)) st C R n b e))) ->
  header k (zlen C) h -> W = h ++ C ++ W1 -> placed fr (C ++ W1) R ->
  reads (encodes (list_of Tl)) fr st W R
    ((sz ← wrap List_; l ← body sz; _ ← fin; mret (Enc.VList l)) (armed fr st (C ++ W1) R k (zlen C) (header_val k h))).
Proof.
  intros Hp Hfin Hbody Hh HW Hp1.
  assert (Herr : forall er s', er <> EOL -> (forall l, k = List -> Tl l -> encs l <> C) ->
    reads (encodes (list_of Tl)) fr st W R (Error er, s')).
  { intros er s' He Hno. eapply (reads_error _ fr st W R k h C W1); [done|apply framed_list|done..|].
    intros v [(l&->&Hl) E]. cbn [Spec.enc] in E. unfold Spec.lst in E. rewrite HW in Hp.
    destruct (placed_part _ _ _ _ _ Hp) as [Hlen _]. pose proof Hlen as Hlen'. rewrite E in Hlen'. rewrite zlen_app in *.
    pose proof (zlen_nonneg h). pose proof (zlen_nonneg (Spec.head 0xC0 0xF7 (zlen (encs l)))).
    destruct (header_unique k (zlen C) h C List (zlen (encs l)) _ (encs l) Hh (header_list _ (zlen_nonneg _)))
      as (->&_&_&->); [lia|lia|done|]. by apply (Hno l). }
  destruct k; [by apply Herr|by apply Herr|].
  erewrite run_done by (unfold wrap; by rewrite List_armed).
  pose proof (Hbody (stack (here fr st (C ++ W1) R 0 0 None)) (W1 ++ R) 0 (header_val List h) None (placed_list _ _ _ _ Hp1)) as Hb.
  unfold reads_elems in Hb. unfold mbind at 1, SM_bind at 1.
  destruct (body (zlen C) _) as [[l|er| |] s'] eqn:Eb; try done.
  2:{ destruct Hb as [He Hno]. apply Herr; [done|]. intros l _ Hl E. by apply (Hno l Hl). }
  destruct Hb as (Hl&C'&n&b&e&HC&->&Hrest). destruct (decide (C' = [])) as [->|HC'].
  - pose proof (fin_cases fin (here (Some (zlen C)) (stack (here fr st (C ++ W1) R 0 0 None)) [] (W1 ++ R) n b e) Hfin) as Hf.
    rewrite ListEnd_ok in Hf by done. unfold mbind, SM_bind. rewrite Hf. rewrite app_nil_r in HC.
    exists (h ++ C), W1. do 3 eexists. split_and!; [|by rewrite <- app_assoc|done].
    split; [by exists l|]. cbn [Spec.enc]. rewrite <- HC. unfold Spec.lst. f_equal. by apply header_list_inv.
  - pose proof (fin_cases fin (here (Some (zlen C)) (stack (here fr st (C ++ W1) R 0 0 None)) C' (W1 ++ R) n b e) Hfin) as Hf.
    rewrite ListEnd_fail in Hf by done. destruct Hf as (er&Hf&Her). unfold mbind, SM_bind. rewrite Hf.
    apply Herr; [done|]. intros l' _ Hl' E. by apply (Hrest HC' l').
Qed.

Lemma reads_list (Tl : list Enc.value -> Prop) (body : Z -> DM (list Enc.value)) (fin : DM unit) fr st W R n b e :
  placed fr W R -> fin = ListEnd \/ fin = wrap ListEnd ->
  (forall C st R n b e, placed (Some (zlen C)) C R -> (length C < length W)%nat ->
     reads_elems Tl (Some (zlen C)) st C R (body (zlen C) (here (Some (zlen C)) st C R n b e))) ->
  reads (encodes (list_of Tl)) fr st W R
    ((sz ← wrap List_; l ← body sz; _ ← fin; mret (Enc.VList l)) (here fr st W R n b e)).
Proof.
  intros Hp Hfin Hbody. apply reads_first; [done|apply framed_list|apply kind_first_bind, kind_first_List|].
  intros k h C W1 Hh HW Hp1. eapply reads_list_armed; try done. intros st' R' n' b' e' HpC. apply Hbody; [done|].
  rewrite HW, !length_app. pose proof (header_nonempty _ _ _ Hh). destruct h; [done|]. simpl. lia.
Qed.

(** ** Elements *)

(** What the decoder of an element does. *)
Definition reader (bound : nat) (T : Enc.value -> Prop) (m : DM Enc.value) : Prop :=
  forall fr st W R n b e, placed fr W R -> (length W < bound)%nat ->
    reads (encodes T) fr st W R (m (here fr st W R n b e)).

Record good (T : Enc.value -> Prop) : Prop := {
  good_framed : framed (encodes T);
  good_unique : unique (encodes T);
}.

Lemma good_nonempty T v : good T -> T v -> Spec.enc v <> [].
Proof.
  intros [Hf _] Hv. destruct (Hf v (Spec.enc v)) as (k&h&p&Hh&->); [done|].
  pose proof (header_nonempty _ _ _ Hh). by destruct h.
Qed.

Lemma good_inj T v v' x x' : good T -> T v -> T v' -> zlen (Spec.enc v ++ x) < 2 ^ 62 ->
  Spec.enc v ++ x = Spec.enc v' ++ x' -> v = v' /\ x = x'.
Proof.
  intros [_ Hu] Hv Hv' Hl E. assert (v = v') as <- by by eapply (Hu v _ x v' _ x').
  by apply app_inv_head in E.
Qed.

Lemma reader_end bound T m fr st R n b e : good T -> reader bound T m -> (0 < bound)%nat -> fr <> None -> placed fr [] R ->
  exists n' b' e', m (here fr st [] R n b e) = (Error EOL, here fr st [] R n' b' e').
Proof.
  intros HT Hm Hb Hfr Hp. pose proof (Hm fr st [] R n b e Hp Hb) as Hr. unfold reads in Hr.
  destruct (m _) as [[v|er| |] s']; try done.
  - destruct Hr as (c&W'&?&?&?&[Hv ->]&E&_). symmetry in E. apply app_eq_nil in E as [E _].
    by destruct (good_nonempty T v).
  - destruct Hr as (_&Heol&Hs). assert (er = EOL) as -> by by apply Heol. destruct (Hs eq_refl) as (?&?&?&->). eauto.
Qed.

Lemma decodeSliceElems_ok bound T m fuel : good T -> reader bound T m -> forall fr st C R n b e,
  fr <> None -> placed fr C R -> (length C < bound)%nat -> (length C < fuel)%nat ->
  match decodeSliceElems m fuel (here fr st C R n b e) with
  | (Done l, s') => Forall T l /\ C = encs l /\ exists n b e, s' = here fr st [] R n b e
  | (Error er, _) => er <> EOL /\ forall l, Forall T l -> C <> encs l
  | _ => False
  end.
Proof.
  intros HT Hm. induction fuel as [|fuel IH]; intros fr st C R n b e Hfr Hp Hb Hfuel; [lia|]. cbn [decodeSliceElems].
  unfold mbind at 1, SM_bind at 1, try. pose proof (Hm fr st C R n b e Hp Hb) as Hr. unfold reads in Hr.
  destruct (m _) as [[v|er| |] s'] eqn:Em; try done.
  - destruct Hr as (c&W'&n'&b'&e'&[Hv ->]&->&->). pose proof (good_nonempty T v HT Hv) as Hne.
    rewrite length_app in *. destruct (Spec.enc v) as [|x c] eqn:Ev; [done|]. simpl in Hb, Hfuel.
    specialize (IH fr st W' R n' b' e' Hfr (placed_suffix _ _ _ _ Hp) ltac:(lia) ltac:(lia)).
    unfold mbind, SM_bind. destruct (decodeSliceElems m fuel _) as [[l|er| |] s'']; try done.
    + destruct IH as (Hl&->&?&?&?&->). cbn. rewrite Ev. split; [by constructor|]. split; [done|eauto].
    + destruct IH as (He&Hno). split; [done|]. intros l Hl E. destruct Hl as [|v' l Hv' Hl]; [done|].
      change (encs (v' :: l)) with (Spec.enc v' ++ encs l) in E. rewrite <- Ev in E. apply (good_inj T v v' W' (encs l) HT Hv Hv') in E as [_ E]; [by apply (Hno l)|].
      rewrite Ev. pose proof (placed_small _ _ _ Hp). pose proof (zlen_nonneg R). lia.
  - destruct Hr as (Hno&Heol&Hs). destruct (decide (C = [])) as [->|HC].
    + assert (er = EOL) as -> by by apply Heol. destruct (Hs eq_refl) as (?&?&?&->). cbn. split; [constructor|eauto].
    + assert (Her : er <> EOL) by (intros ->; by destruct (proj1 Heol eq_refl)).
      assert (forall l, Forall T l -> C <> encs l) as Hl.
      { intros l Hl E. destruct Hl as [|v' l Hv' Hl]; [done|]. by apply (Hno v' (Spec.enc v') (encs l)). }
      destruct er; try done; by split.
Qed.

(** A fixed number of elements. *)
Definition reads_prefix (Tl : list Enc.value -> Prop) (fr : option Z) (st : list (Z * Z)) (C R : bytes)
    (r : outcome err (list Enc.value) * Stream) : Prop :=
  match r with
  | (Done l, s') => Tl l /\ exists C' n b e, C = encs l ++ C' /\ s' = here fr st C' R n b e
  | (Error er, _) => er <> EOL /\ forall l C', Tl l -> C <> encs l ++ C'
  | _ => False
  end.

(** One element and the rest; the end of the list is the error [er0]. *)
Definition then_rest (r : outcome err Enc.value * Stream) (er0 : err) (rest : DM (list Enc.value))
    : outcome err (list Enc.value) * Stream :=
  match r with
  | (Done v, s) => (l ← rest; mret (v :: l)) s
  | (Error EOL, s) => (Error er0, s)
  | (Error e, s) => (Error e, s)
  | (Panic, s) => (Panic, s)
  | (NoFuel, s) => (NoFuel, s)
  end.

Lemma prefix_step T (Tl Tl' : list Enc.value -> Prop) r er0 rest fr st C R : good T -> placed fr C R -> er0 <> EOL ->
  (forall l, Tl' l <-> exists v l', l = v :: l' /\ T v /\ Tl l') ->
  reads (encodes T) fr st C R r ->
  (forall C' n b e, placed fr C' R -> (length C' <= length C)%nat -> reads_prefix Tl fr st C' R (rest (here fr st C' R n b e))) ->
  reads_prefix Tl' fr st C R (then_rest r er0 rest).
Proof.
  intros HT Hp Her0 HTl Hr Hrest. unfold reads in Hr. destruct r as [[v|er| |] s']; try done; cbn [then_rest].
  - destruct Hr as (c&W'&n&b&e&[Hv ->]&HC&->). rewrite HC in Hp. pose proof (placed_suffix _ _ _ _ Hp) as Hp'.
    specialize (Hrest W' n b e Hp' ltac:(rewrite HC, length_app; lia)). unfold mbind, SM_bind. unfold reads_prefix in Hrest.
    destruct (rest _) as [[l|er| |] s'']; try done; cbn.
    + destruct Hrest as (Hl&C'&?&?&?&->&->). split; [apply HTl; eauto|]. rewrite HC, app_assoc. eauto 10.
    + destruct Hrest as [He Hno]. split; [done|]. intros l C' (v'&l'&->&Hv'&Hl')%HTl E. rewrite HC in E. cbn in E.
      rewrite <- app_assoc in E. apply (good_inj T v v' _ _ HT Hv Hv') in E as [_ E]; [by apply (Hno l' C')|].
      pose proof (placed_small _ _ _ Hp). pose proof (zlen_nonneg R). lia.
  - destruct Hr as (Hno&_&_). assert (forall l C', Tl' l -> C <> encs l ++ C') as Hno'.
    { intros l C' (v'&l'&->&Hv'&Hl')%HTl E. cbn in E. rewrite <- app_assoc in E. by apply (Hno v' _ (encs l' ++ C')) in E. }
    destruct er; by split.
Qed.

Lemma prefix_nil (Tl : list Enc.value -> Prop) fr st C R n b e : (forall l, Tl l <-> l = []) ->
  reads_prefix Tl fr st C R (Done [], here fr st C R n b e).
Proof. intros H. split; [by apply H|]. exists C, n, b, e. done. Qed.

Definition array_elems (T : Enc.value -> Prop) (n : nat) (l : list Enc.value) : Prop := Forall T l /\ length l = n.

Lemma decodeArrayElems_ok bound T m k : good T -> reader bound T m -> forall fr st C R n b e,
  placed fr C R -> (length C < bound)%nat ->
  reads_prefix (array_elems T k) fr st C R (decodeArrayElems m k (here fr st C R n b e)).
Proof.
  intros HT Hm. induction k as [|k IH]; intros fr st C R n b e Hp Hb; cbn [decodeArrayElems].
  { apply prefix_nil. intros l. split; [by intros [_ ->%nil_length_inv]|by intros ->; split; [constructor|]]. }
  assert ((r ← try m; match r with inr EOL => throw (decodeError listTooShort) | inr e => throw e
      | inl v => l ← decodeArrayElems m k; mret (v :: l) end) (here fr st C R n b e)
    = then_rest (m (here fr st C R n b e)) (decodeError listTooShort) (decodeArrayElems m k)) as ->.
  { unfold mbind at 1, SM_bind at 1, try. destruct (m _) as [[v|er| |] s']; try done. by destruct er. }
  eapply (prefix_step T (array_elems T k)); [done|done|done| |by apply Hm|].
  - intros l. split.
    + intros [Hl Hk]. destruct Hl as [|v l Hv Hl]; [done|]. exists v, l. split_and!; [done|done|]. split; [done|]. by injection Hk.
    + intros (v&l'&->&Hv&Hl&Hk). split; [by constructor|]. simpl. by f_equal.
  - intros C' n' b' e' Hp' Hle. apply IH; [done|lia].
Qed.

Lemma decodeFields_ok bound (typ : gotype -> Enc.value -> Prop) (dec : gotype -> DM Enc.value) ts :
  Forall (fun t => good (typ t) /\ reader bound (typ t) (dec t)) ts -> forall fr st C R n b e,
  placed fr C R -> (length C < bound)%nat ->
  reads_prefix (typed_fields typ ts) fr st C R (decodeFields dec ts (here fr st C R n b e)).
Proof.
  induction 1 as [|t ts [HT Hm] _ IH]; intros fr st C R n b e Hp Hb; cbn [decodeFields].
  { apply prefix_nil. by intros []. }
  assert ((v ← decodeField dec t; l ← decodeFields dec ts; mret (v :: l)) (here fr st C R n b e)
    = then_rest (dec t (here fr st C R n b e)) (decodeError tooFewElements) (decodeFields dec ts)) as ->.
  { unfold mbind at 1, SM_bind at 1, decodeField. destruct (dec t _) as [[v|er| |] s']; try done. by destruct er. }
  eapply (prefix_step (typ t) (typed_fields typ ts)); [done|done|done| |by apply Hm|].
  - intros [|v l]; cbn; [split; [done|by intros (?&?&?&_)]|]. split; [intros [??]; eauto|by intros (?&?&[= -> ->]&?&?)].
  - intros C' n' b' e' Hp' Hle. apply IH; [done|lia].
Qed.
End lists.

(** ** Values are determined by their encodings *)
Section good.

Lemma good_string (T : Enc.value -> Prop) (content : Enc.value -> bytes) :
  (forall v, T v -> is_bytes (content v) /\ Spec.enc v = Spec.string (content v)) ->
  (forall v v', T v -> T v' -> content v = content v' -> v = v') -> good T.
Proof.
  intros Hc Hinj. split.
  - intros v c [Hv ->]. destruct (Hc v Hv) as [Hb ->]. by apply (framed_bytes (content v)).
  - intros v c x v' c' x' [Hv ->] [Hv' ->] Hl E. apply Hinj; [done|done|].
    destruct (Hc v Hv) as [Hb Ev], (Hc v' Hv') as [Hb' Ev']. rewrite Ev in *. rewrite Ev' in E.
    by apply string_unique in E as [? _].
Qed.

Definition inj_elems (Tl : list Enc.value -> Prop) : Prop :=
  forall l l', Tl l -> Tl l' -> zlen (encs l) < 2 ^ 62 -> encs l = encs l' -> l = l'.

Lemma lst_inj c x c' x' : zlen (Spec.lst c ++ x) < 2 ^ 62 -> Spec.lst c ++ x = Spec.lst c' ++ x' ->
  c = c' /\ zlen c < 2 ^ 62.
Proof.
  intros Hl E. assert (Hl' : zlen (Spec.lst c' ++ x') < 2 ^ 62) by by rewrite <- E. unfold Spec.lst in *.
  rewrite <- !app_assoc in *. rewrite !zlen_app in *. pose proof (zlen_nonneg x). pose proof (zlen_nonneg x').
  pose proof (zlen_nonneg (Spec.head 0xC0 0xF7 (zlen c))). pose proof (zlen_nonneg (Spec.head 0xC0 0xF7 (zlen c'))).
  pose proof (zlen_nonneg c). pose proof (zlen_nonneg c').
  destruct (header_unique List (zlen c) _ (c ++ x) List (zlen c') _ (c' ++ x') (header_list _ (zlen_nonneg c)) (header_list _ (zlen_nonneg c')))
    as (_&Hn&_&E2); [lia|lia|done|]. apply app_same_length in E2 as [-> _]; [split; [done|lia]|done].
Qed.

(** A string is not a list. *)
Lemma string_not_list b c x x' : is_bytes b -> zlen (Spec.string b ++ x) < 2 ^ 62 ->
  Spec.string b ++ x <> Spec.lst c ++ x'.
Proof.
  intros Hb Hl E. assert (Hl' : zlen (Spec.lst c ++ x') < 2 ^ 62) by by rewrite <- E.
  destruct (framed_bytes b _ (conj Hb eq_refl)) as (k&h&p&Hh&Es). rewrite Es in *. unfold Spec.lst in *.
  rewrite <- !app_assoc in *. rewrite !zlen_app in *. pose proof (zlen_nonneg x). pose proof (zlen_nonneg x').
  pose proof (zlen_nonneg (Spec.head 0xC0 0xF7 (zlen c))). pose proof (zlen_nonneg h). pose proof (zlen_nonneg c).
  pose proof (zlen_nonneg p).
  destruct (header_unique k (zlen p) h (p ++ x) List (zlen c) _ (c ++ x') Hh (header_list _ (zlen_nonneg c)))
    as (->&_&_&_); [lia|lia|done|].
  apply (string_inv b List h p Hb Hh) in Es as [(?&_)|(?&_)]; [done|done|rewrite zlen_app; lia].
Qed.

Lemma good_list Tl : inj_elems Tl -> good (list_of Tl).
Proof.
  intros Hinj. split; [apply framed_list|]. intros v c x v' c' x' [(l&->&Hl) ->] [(l'&->&Hl') ->] Hlen E.
  apply lst_inj in E as [E Hs]; [|done]. f_equal. by apply Hinj.
Qed.

(** Elements that are determined one by one. *)
Lemma elems_inj (T : Enc.value -> Prop) l : (forall v, T v -> Spec.enc v <> []) ->
  Forall (fun v => T v /\ forall x v' x', T v' -> zlen (Spec.enc v ++ x) < 2 ^ 62 ->
    Spec.enc v ++ x = Spec.enc v' ++ x' -> v = v') l ->
  forall l', Forall T l' -> zlen (encs l) < 2 ^ 62 -> encs l = encs l' -> l = l'.
Proof.
  intros Hne. induction 1 as [|v l [Hv Hu] _ IH]; intros l' Hl' Hlen E.
  - destruct Hl' as [|v' l' Hv' _]; [done|]. cbn in E. symmetry in E. apply app_eq_nil in E as [E _]. by destruct (Hne v').
  - destruct Hl' as [|v' l' Hv' Hl']; [cbn in E; apply app_eq_nil in E as [E _]; by destruct (Hne v)|].
    cbn in E, Hlen. assert (v = v') as <- by by eapply Hu. apply app_inv_head in E. f_equal. apply IH; [done| |done].
    rewrite zlen_app in Hlen. pose proof (zlen_nonneg (Spec.enc v)). lia.
Qed.

Lemma inj_slice T : good T -> inj_elems (Forall T).
Proof.
  intros HT l l' Hl Hl' Hlen E. eapply (elems_inj T); [by intros; eapply good_nonempty| |done|done|done].
  eapply Forall_impl; [done|]. intros v Hv. split; [done|]. intros x v' x' Hv' Hs Ev.
  by eapply (good_inj T v v' x x').
Qed.

Lemma fields_inj (typ : gotype -> Enc.value -> Prop) ts : Forall (fun t => good (typ t)) ts ->
  forall l l' x x', typed_fields typ ts l -> typed_fields typ ts l' -> zlen (encs l ++ x) < 2 ^ 62 ->
  encs l ++ x = encs l' ++ x' -> l = l' /\ x = x'.
Proof.
  induction 1 as [|t ts Ht _ IH]; intros [|v l] [|v' l'] x x' Hl Hl' Hs E; try done.
  destruct Hl as [Hv Hl], Hl' as [Hv' Hl']. cbn in E, Hs. rewrite <- !app_assoc in *.
  apply (good_inj (typ t) v v') in E as [-> E]; try done.
  destruct (IH l l' x x') as [-> ->]; try done. rewrite zlen_app in Hs. pose proof (zlen_nonneg (Spec.enc v')). lia.
Qed.

Lemma good_iface : good iface.
Proof.
  assert (Hf : framed (encodes iface)).
  { intros v c [Hv ->]. destruct Hv as [b Hb|l Hl]; [by apply (framed_bytes b)|].
    apply (framed_list (fun _ => True) (Enc.VList l)). by split; [exists l|]. }
  split; [done|].
  assert (Hat : forall v, iface v -> forall x v' x', iface v' -> zlen (Spec.enc v ++ x) < 2 ^ 62 ->
    Spec.enc v ++ x = Spec.enc v' ++ x' -> v = v').
  { induction v as [| | | |b| |l IH|] using value_ind'; intros Hv x v' x' Hv' Hs E; try by inversion Hv.
    - inversion Hv as [? Hb|]; subst. destruct Hv' as [b' Hb'|l' Hl'].
      + by apply string_unique in E as [-> _].
      + exfalso. eapply (string_not_list b (encs l')); [done|done|done].
    - inversion Hv as [|? Hl]; subst. destruct Hv' as [b' Hb'|l' Hl'].
      + exfalso. symmetry in E. eapply (string_not_list b' (encs l) x' x); [done| |done].
        change (Spec.string b') with (Spec.enc (Enc.VBytes b')). by rewrite E.
      + apply lst_inj in E as [E Hs']; [|done]. f_equal. eapply (elems_inj iface); [| |done|done|done].
        * intros v Hv0. destruct (Hf v (Spec.enc v)) as (k&h&p&Hh&->); [done|].
          pose proof (header_nonempty _ _ _ Hh). by destruct h.
        * rewrite Forall_forall in *. intros v Hin. split; [by apply Hl|]. by apply IH; [|apply Hl]. }
  intros v c x v' c' x' [Hv ->] [Hv' ->] Hs E. by eapply Hat.
Qed.

Lemma good_typed t : strict t -> good (typed t).
Proof.
  induction t as [|bits| | | |n|t IH|n t IH|ts tail IH IHtail|t IH|t IH|] using gotype_ind'; intros Hst.
  - split.
    + intros v c [(b&->&_&_&k&h&p&Hh&->) ->]. by exists k, h, p.
    + intros v c x v' c' x' [(b&->&_&_&k&h&p&Hh&->) ->] [(b'&->&_&_&k'&h'&p'&Hh'&->) ->] Hs E. cbn in E, Hs.
      destruct (frame_unique ((h ++ p) ++ x) k h p x k' h' p' x') as (_&->&->&_); try done. by rewrite app_assoc.
  - apply (good_string _ (fun v => match v with Enc.VUint i => Big.Bytes i | _ => [] end)).
    + intros v (i&->&Hi). split; [apply Big.is_bytes_Bytes|done].
    + intros v v' (i&->&Hi) (i'&->&Hi') E. f_equal. by apply Bytes_inj; [lia..|].
  - apply (good_string _ (fun v => match v with Enc.VBool b => Big.Bytes (if b then 1 else 0) | _ => [] end)).
    + intros v (b&->). split; [apply Big.is_bytes_Bytes|done].
    + intros v v' (b&->) (b'&->) E. f_equal. by destruct b, b'.
  - apply (good_string _ (fun v => match v with Enc.VBigInt (Some i) => Big.Bytes i | _ => [] end)).
    + intros v (i&->&Hi). split; [apply Big.is_bytes_Bytes|done].
    + intros v v' (i&->&Hi) (i'&->&Hi') E. do 2 f_equal. by apply Bytes_inj.
  - apply (good_string _ (fun v => match v with Enc.VBytes b => b | _ => [] end)).
    + by intros v (b&->&Hb).
    + intros v v' (b&->&_) (b'&->&_) E. by f_equal.
  - apply (good_string _ (fun v => match v with Enc.VBytes b => b | _ => [] end)).
    + by intros v (b&->&Hb&_).
    + intros v v' (b&->&_) (b'&->&_) E. by f_equal.
  - apply good_list, inj_slice, IH, Hst.
  - apply (good_list (array_elems (typed t) n)). intros l l' [Hl _] [Hl' _]. by apply (inj_slice (typed t) (IH Hst)).
  - destruct Hst as [Hts Htail].
    assert (Hg : Forall (fun t => good (typed t)) ts).
    { clear -IH Hts. induction IH as [|t ts Ht _ IHl]; [constructor|]. destruct Hts as [? ?]. constructor; auto. }
    destruct tail as [t|].
    + eapply (good_list (fun l => exists l0 tl, l = l0 ++ [Enc.VTail tl] /\ typed_fields typed ts l0 /\ Forall (typed t) tl)).
      intros l l' (l0&tl&->&Hl&Htl) (l0'&tl'&->&Hl'&Htl') Hs E. rewrite !map_app, !concat_app in *. cbn in E, Hs.
      rewrite !app_nil_r in *. destruct (fields_inj typed ts Hg l0 l0' _ _ Hl Hl' Hs E) as [-> E']. do 3 f_equal.
      apply (inj_slice (typed t)); [by apply IHtail|done|done| |done].
      rewrite zlen_app in Hs. pose proof (zlen_nonneg (encs l0')). lia.
    + apply (good_list (typed_fields typed ts)). intros l l' Hl Hl' Hs E.
      destruct (fields_inj typed ts Hg l l' [] []) as [-> _]; [done|done|by rewrite app_nil_r|by rewrite !app_nil_r|done].
  - by apply IH.
  - done.
  - apply good_iface.
Qed.
End good.

(** ** The decoder *)
Section decoder.

Lemma reads_ext {A} (P Q : A -> bytes -> Prop) fr st W R r : (forall a c, P a c <-> Q a c) ->
  reads P fr st W R r -> reads Q fr st W R r.
Proof.
  intros He. unfold reads. destruct r as [[a|e| |] s']; try done.
  - intros (c&W'&n&b&e&?%He&?&?). by exists c, W', n, b, e.
  - intros (Hno&?&?). split_and!; [|done|done]. intros a c W' ?%He. by apply (Hno a).
Qed.

(** A leaf: the value is a function of what was read. *)
Lemma reader_leaf {A} (P : A -> bytes -> Prop) (T : Enc.value -> Prop) (f : A -> Enc.value) (m : DM A) bound :
  (forall v c, encodes T v c <-> exists a, v = f a /\ P a c) ->
  (forall fr st W R n b e, placed fr W R -> reads P fr st W R (m (here fr st W R n b e))) ->
  reader bound T (a ← m; mret (f a)).
Proof. intros HT Hm fr st W R n b e Hp _. eapply reads_map; [done|by apply Hm]. Qed.

(** After the header, a reader for the values of its kind is one for all. *)
Lemma reads_restrict (Q Q' : Enc.value -> bytes -> Prop) fr st W R k h p W1 r : placed fr W R -> framed Q' ->
  header k (zlen p) h -> W = h ++ p ++ W1 ->
  (forall v, Q' v (h ++ p) -> Q v (h ++ p)) -> (forall v c, Q v c -> Q' v c) ->
  reads Q fr st W R r -> reads Q' fr st W R r.
Proof.
  intros Hp Hfr Hh HW Hsub Hsup. unfold reads. destruct r as [[v|e| |] s']; try done.
  - intros (c&W'&n&b&e&?%Hsup&?&?). by exists c, W', n, b, e.
  - intros (Hno&?&?). split_and!; [|done|done]. intros v c W' Hv E. destruct (Hfr v c Hv) as (k'&h'&p'&Hh'&->).
    destruct (frame_unique W k h p W1 k' h' p' W' (placed_window _ _ _ Hp) Hh HW Hh' E) as (->&->&->&->).
    by apply (Hno v (h' ++ p') W'); [apply Hsub|].
Qed.

Definition slice_body (elemdec : DM Enc.value) (fuel : nat) (sz : Z) : DM (list Enc.value) :=
  if sz =? 0 then mret [] else decodeSliceElems elemdec fuel.

Lemma decodeListSlice_body elemdec fuel s : decodeListSlice elemdec fuel s =
  (sz ← wrap List_; l ← slice_body elemdec fuel sz; _ ← ListEnd; mret (Enc.VList l)) s.
Proof.
  unfold decodeListSlice, slice_body, mbind, SM_bind. destruct (wrap List_ s) as [[sz|e| |] s']; try done.
  by destruct (sz =? 0).
Qed.

Lemma slice_body_ok bound T m fuel C st R n b e : good T -> reader bound T m -> placed (Some (zlen C)) C R ->
  (length C < bound)%nat -> (length C < fuel)%nat ->
  reads_elems (Forall T) (Some (zlen C)) st C R (slice_body m fuel (zlen C) (here (Some (zlen C)) st C R n b e)).
Proof.
  intros HT Hm Hp Hb Hf. unfold slice_body. destruct (zlen C =? 0) eqn:E; bool_to_prop.
  - apply zlen_0 in E as ->. split; [constructor|]. exists [], n, b, e. done.
  - pose proof (decodeSliceElems_ok bound T m fuel HT Hm (Some (zlen C)) st C R n b e) as Hr.
    specialize (Hr ltac:(done) Hp Hb Hf). unfold reads_elems. destruct (decodeSliceElems m fuel _) as [[l|er| |] s']; try done.
    destruct Hr as (Hl&HC&?&?&?&->). split; [done|]. exists []. do 3 eexists. by rewrite app_nil_r.
Qed.

Lemma kind_first_Bytes : kind_first Bytes.
Proof.
  split.
  - intros s r s' Hk Hk'. unfold Bytes. by rewrite !(run_done _ _ _ _ _ Hk), !(run_done _ _ _ _ _ Hk').
  - intros s e s' Hk. exists e. unfold Bytes. by rewrite (run_error _ _ _ _ _ Hk).
Qed.

Lemma Bytes_armed fr st W R k h p W1 : placed fr W R -> header k (zlen p) h -> W = h ++ p ++ W1 -> placed fr (p ++ W1) R ->
  reads encodes_bytes fr st W R (Bytes (armed fr st (p ++ W1) R k (zlen p) (header_val k h))).
Proof.
  intros Hp Hh HW Hp1. pose proof (Bytes_ok fr st W R 0 0 None Hp) as Hb. pose proof (Kind_ok fr st W R 0 0 None Hp) as Hk.
  destruct (Kind_ _) as [[[k' sz]|e'| |] s'] eqn:Ek; try done.
  - destruct Hk as (h'&W1'&Hh'&HW'&Hle&->). pose proof (header_nonneg _ _ _ Hh').
    destruct (split_at_len W1' sz) as (p'&W2&->&<-); [lia|].
    rewrite <- app_assoc in HW' || idtac. rewrite app_assoc in HW'.
    destruct (frame_unique W k h p W1 k' h' p' W2 (placed_window _ _ _ Hp) Hh HW Hh' HW') as (->&->&->&->).
    by rewrite (proj1 kind_first_Bytes _ _ _ Ek) in Hb.
  - exfalso. destruct Hk as (Hno&_). specialize (Hno k (zlen p) h (p ++ W1) Hh HW). rewrite zlen_app in Hno.
    pose proof (zlen_nonneg W1). lia.
Qed.

Lemma decodeInterface_ok fuel : reader fuel iface (decodeInterface fuel).
Proof.
  induction fuel as [|fuel IH]; intros fr st W R n b e Hp Hf; [lia|]. cbn [decodeInterface].
  apply reads_kind; [done|apply good_framed, good_iface|]. intros k h p W1 Hh HW Hp1.
  assert (Hlen : zlen (h ++ p) < 2 ^ 62) by (rewrite HW in Hp; by apply placed_part in Hp as [? _]).
  assert (Hstr : k <> List -> reads (encodes iface) fr st W R
    ((b ← Bytes; mret (Enc.VBytes b)) (armed fr st (p ++ W1) R k (zlen p) (header_val k h)))).
  { intros Hk. eapply (reads_restrict (encodes (fun v => exists c, v = Enc.VBytes c /\ is_bytes c)) _ fr st W R k h p W1);
      [done|apply good_framed, good_iface|done|done| | |].
    - intros v [[c Hc|l Hl] E]; [split; [eauto|done]|]. exfalso. cbn in E.
      destruct (header_unique k (zlen p) h p List (zlen (encs l)) _ (encs l) Hh (header_list _ (zlen_nonneg _)))
        as (->&_); [..|done|done].
      + rewrite zlen_app in Hlen. pose proof (zlen_nonneg h). lia.
      + rewrite E in Hlen. unfold Spec.lst in Hlen. rewrite zlen_app in Hlen.
        pose proof (zlen_nonneg (Spec.head 0xC0 0xF7 (zlen (encs l)))). lia.
    - intros v c [(c0&->&Hc) ->]. by split; [constructor|].
    - eapply (reads_map encodes_bytes); [|by apply Bytes_armed].
      intros v c. split; [intros [(c0&->&Hc) ->]; by exists c0|intros (c0&->&Hc&->); split; eauto]. }
  destruct k; [by apply Hstr|by apply Hstr|]. clear Hstr. rewrite decodeListSlice_body.
  eapply (reads_restrict (encodes (list_of (Forall iface))) _ fr st W R List h p W1);
    [done|apply good_framed, good_iface|done|done| | |].
  - intros v [[c Hc|l Hl] E]; [|split; [by exists l|done]]. exfalso. symmetry in E. cbn in E.
    apply (string_inv c List h p Hc Hh) in E as [(?&_)|(?&_)]; [done|done|lia].
  - intros v c [(l&->&Hl) ->]. by split; [constructor|].
  - eapply (reads_list_armed _ (slice_body (decodeInterface fuel) fuel) ListEnd fr st W R List h p W1); try done; [by left|].
    intros st' R' n' b' e' HpC. apply (slice_body_ok fuel); [apply good_iface|done|done|..];
      rewrite HW, !length_app in Hf; pose proof (header_nonempty _ _ _ Hh); (destruct h; [done|]); simpl in Hf; lia.
Qed.

Lemma strict_fields ts (P : gotype -> Prop) : Forall (fun t => strict t -> P t) ts ->
  foldr (fun t Q => strict t /\ Q) True ts -> Forall P ts.
Proof. induction 1 as [|t ts Ht _ IH]; [constructor|]. intros [? ?]. constructor; auto. Qed.

Definition struct_body (fuel : nat) (ts : list gotype) (tail : option gotype) : DM (list Enc.value) :=
  vs ← decodeFields (decode fuel) ts;
  tl ← match tail with
       | None => mret []
       | Some t => l ← decodeSliceElems (decode fuel t) fuel; mret [Enc.VTail l]
       end;
  mret (vs ++ tl).

Lemma decode_struct fuel ts tail s : decode fuel (TyStruct ts tail) s =
  (_ ← wrap List_; l ← struct_body fuel ts tail; _ ← wrap ListEnd; mret (Enc.VList l)) s.
Proof.
  cbn [decode]. unfold struct_body, mbind, SM_bind. destruct (wrap List_ s) as [[sz|e| |] s']; try done.
  destruct (decodeFields (decode fuel) ts s') as [[vs|e| |] s2]; try done. destruct tail as [t|]; [|done].
  by destruct (decodeSliceElems (decode fuel t) fuel s2) as [[l|e| |] s3].
Qed.

Definition struct_elems (ts : list gotype) (tail : option gotype) (l : list Enc.value) : Prop :=
  match tail with
  | None => typed_fields typed ts l
  | Some t => exists l0 tl, l = l0 ++ [Enc.VTail tl] /\ typed_fields typed ts l0 /\ Forall (typed t) tl
  end.

Lemma encs_tail l tl : encs (l ++ [Enc.VTail tl]) = encs l ++ encs tl.
Proof. rewrite map_app, concat_app. cbn. by rewrite app_nil_r. Qed.

Lemma struct_body_ok fuel ts tail : Forall (fun t => good (typed t) /\ reader fuel (typed t) (decode fuel t)) ts ->
  (forall t, tail = Some t -> good (typed t) /\ reader fuel (typed t) (decode fuel t)) ->
  forall C st R n b e, placed (Some (zlen C)) C R -> (length C < fuel)%nat ->
  reads_elems (struct_elems ts tail) (Some (zlen C)) st C R (struct_body fuel ts tail (here (Some (zlen C)) st C R n b e)).
Proof.
  intros Hts Htail C st R n b e Hp Hlen. unfold struct_body, mbind at 1, SM_bind at 1.
  pose proof (decodeFields_ok fuel typed (decode fuel) ts Hts (Some (zlen C)) st C R n b e Hp Hlen) as Hf.
  assert (Hinj : forall l l' x x', typed_fields typed ts l -> typed_fields typed ts l' -> C = encs l ++ x ->
    encs l ++ x = encs l' ++ x' -> l = l' /\ x = x').
  { intros l l' x x' Hl Hl' HC. apply (fields_inj typed ts); [|done|done|rewrite <- HC; by eapply placed_window].
    eapply Forall_impl; [done|]. by intros t [? _]. }
  unfold reads_prefix in Hf. destruct (decodeFields (decode fuel) ts _) as [[vs|er| |] s']; try done.
  2:{ destruct Hf as [He Hno]. split; [done|]. intros l Hl. destruct tail as [t|].
      - destruct Hl as (l0&tl&->&Hl&_). rewrite encs_tail. by apply Hno.
      - intros E. apply (Hno l [] Hl). by rewrite app_nil_r. }
  destruct Hf as (Hvs&C'&n'&b'&e'&HC&->). destruct tail as [t|].
  - destruct (Htail t eq_refl) as [Hg Hr]. unfold mbind, SM_bind.
    assert (Hp' : placed (Some (zlen C)) C' R) by (eapply (placed_suffix _ (encs vs)); by rewrite <- HC).
    assert (Hlen' : (length C' < fuel)%nat) by (rewrite HC, length_app in Hlen; lia).
    pose proof (decodeSliceElems_ok fuel (typed t) (decode fuel t) fuel Hg Hr (Some (zlen C)) st C' R n' b' e' ltac:(done)
      Hp' Hlen' Hlen') as Hs.
    destruct (decodeSliceElems (decode fuel t) fuel _) as [[l|er| |] s']; try done; cbn.
    + destruct Hs as (Hl&HC'&n2&b2&e2&->). split; [by exists vs, l|]. exists [], n2, b2, e2.
      split_and!; [|done|done]. by rewrite encs_tail, app_nil_r, <- HC'.
    + destruct Hs as [He Hno]. split; [done|]. intros l (l0&tl&->&Hl0&Htl) E. rewrite encs_tail in E.
      destruct (Hinj vs l0 C' (encs tl) Hvs Hl0 HC) as [-> ->]; [by rewrite <- HC|]. by apply (Hno tl).
  - erewrite run_done by done. unfold mret, SM_ret. rewrite app_nil_r. split; [done|]. exists C', n', b', e'. split_and!; [done|done|].
    intros Hne l' Hl' E. rewrite HC in E. destruct (Hinj vs l' C' [] Hvs Hl' HC) as [_ ->]; [by rewrite app_nil_r|done].
Qed.

Lemma array_prefix T k l l' x : good T -> array_elems T k l -> array_elems T k l' -> zlen (encs l ++ x) < 2 ^ 62 ->
  encs l ++ x = encs l' -> x = [].
Proof.
  intros HT [Hl <-]. revert l'. induction Hl as [|v l Hv _ IH]; intros l' [Hl' Hlen] Hs E.
  - by destruct l'.
  - destruct Hl' as [|v' l' Hv' Hl']; [done|]. cbn in E, Hs. rewrite <- app_assoc in E, Hs.
    apply (good_inj T v v' _ _ HT Hv Hv' Hs) in E as [-> E]. apply (IH l'); [split; [done|by injection Hlen]| |done].
    rewrite zlen_app in Hs. pose proof (zlen_nonneg (Spec.enc v')). lia.
Qed.

Lemma decode_reader t : strict t -> forall fuel, reader fuel (typed t) (decode fuel t).
Proof.
  induction t as [|bits| | | |k|t IH|k t IH|ts tail IH IHtail|t IH|t IH|] using gotype_ind'; intros Hst fuel.
  - eapply (reader_leaf encodes_raw); [|by intros; apply Raw_ok].
    intros v c. split; [intros [(b&->&Hb) ->]; exists b; cbn; by split|].
    intros (b&->&->&Hb). split; [exists b; by split|done].
  - eapply (reader_leaf (encodes_uint bits)); [|by intros; apply reads_wrap, uint_ok].
    intros v c. split; [intros [(i&->&Hi) ->]; by exists i|]. intros (i&->&Hi&->). split; [by exists i|done].
  - eapply (reader_leaf encodes_bool); [|by intros; apply reads_wrap, Bool_ok].
    intros v c. split; [intros [(b&->) ->]; by exists b|]. intros (b&->&->). split; [by exists b|done].
  - intros fr st W R n b e Hp _. eapply reads_ext; [|by apply decodeBigInt_ok].
    intros v c. split; [intros (i&Hi&->&->); split; [by exists i|done]|]. intros [(i&->&Hi) ->]. by exists i.
  - eapply (reader_leaf encodes_bytes); [|by intros; apply reads_wrap, Bytes_ok].
    intros v c. split; [intros [(b&->&Hb) ->]; by exists b|]. intros (b&->&Hb&->). split; [by exists b|done].
  - intros fr st W R n b e Hp _. eapply reads_ext; [|by apply decodeByteArray_ok].
    intros v c. split; [intros (c0&Hc&Hl&->&->); split; [by exists c0|done]|]. intros [(c0&->&Hc&Hl) ->]. by exists c0.
  - intros fr st W R n b e Hp Hf. cbn [decode]. rewrite decodeListSlice_body.
    apply (reads_list (Forall (typed t))); [done|by left|]. intros C st' R' n' b' e' HpC HC.
    apply (slice_body_ok fuel); [by apply good_typed|by apply IH|done|lia|lia].
  - intros fr st W R n b e Hp Hf. cbn [decode]. unfold decodeListArray.
    apply (reads_list (array_elems (typed t) k) (fun _ => decodeArrayElems (decode fuel t) k)); [done|by right|].
    intros C st' R' n' b' e' HpC HC.
    pose proof (decodeArrayElems_ok fuel (typed t) (decode fuel t) k (good_typed t Hst) (IH Hst fuel) (Some (zlen C)) st' C R'
      n' b' e' HpC ltac:(lia)) as Hr. unfold reads_prefix, reads_elems in *.
    destruct (decodeArrayElems _ k _) as [[l|er| |] s']; try done.
    + destruct Hr as (Hl&C'&?&?&?&HCl&->). split; [done|]. exists C'. do 3 eexists. split_and!; [done|done|].
      intros Hne l' Hl' E. apply Hne. apply (array_prefix (typed t) k l l' C' (good_typed t Hst) Hl Hl').
      * rewrite <- HCl. by eapply placed_window.
      * by rewrite <- HCl.
    + destruct Hr as [He Hno]. split; [done|]. intros l Hl E. apply (Hno l [] Hl). by rewrite app_nil_r.
  - destruct Hst as [Hts Htail]. intros fr st W R n b e Hp Hf. rewrite decode_struct.
    assert (Hall : Forall (fun t => good (typed t) /\ reader fuel (typed t) (decode fuel t)) ts).
    { apply strict_fields; [|done]. eapply Forall_impl; [apply IH|]. intros t Ht Hs. split; [by apply good_typed|by apply Ht]. }
    apply (reads_list (struct_elems ts tail) (fun _ => struct_body fuel ts tail)); [done|by right|].
    intros C st' R' n' b' e' HpC HC. apply struct_body_ok; [done| |done|lia].
    intros t ->. split; [by apply good_typed|by apply IHtail].
  - by apply IH.
  - done.
  - apply decodeInterface_ok.
Qed.
End decoder.

(** ** Theorems *)

Lemma iface_encodable v : iface v -> Spec.encodable v.
Proof.
  induction v as [| | | |b| |l IH|] using value_ind'; intros Hv; inversion Hv as [? Hb|? Hl]; subst; [by constructor|].
  constructor. rewrite Forall_forall in *. auto.
Qed.

Lemma typed_encodable t : strict t -> forall v, typed t v -> Spec.encodable v.
Proof.
  induction t as [|bits| | | |k|t IH|k t IH|ts tail IH IHtail|t IH|t IH|] using gotype_ind'; intros Hst v Hv.
  - destruct Hv as (b&->&_&Hb&_). by constructor.
  - destruct Hv as (i&->&Hi). constructor. destruct Hst as [->|[->|[->| ->]]]; lia.
  - destruct Hv as (b&->). constructor.
  - destruct Hv as (i&->&Hi). by constructor.
  - destruct Hv as (b&->&Hb). by constructor.
  - destruct Hv as (b&->&Hb&_). by constructor.
  - destruct Hv as (l&->&Hl). constructor. eapply Forall_impl; [done|]. by apply IH.
  - destruct Hv as (l&->&Hl&_). constructor. eapply Forall_impl; [done|]. by apply IH.
  - destruct Hst as [Hts Htail].
    assert (Hf : forall l, typed_fields typed ts l -> Forall Spec.encodable l).
    { pose proof (strict_fields ts (fun t => forall v, typed t v -> Spec.encodable v) IH Hts) as Hall. clear -Hall.
      induction Hall as [|t ts Ht _ IHl]; intros [|v l] Hl; try done. destruct Hl. constructor; auto. }
    destruct Hv as (l&->&Hl). constructor. destruct tail as [t|]; [|by apply Hf].
    destruct Hl as (l0&tl&->&Hl&Htl). apply Forall_app. split; [by apply Hf|]. constructor; [|constructor].
    constructor. eapply Forall_impl; [done|]. by apply (IHtail t).
  - by apply IH.
  - done.
  - by apply iface_encodable.
Qed.

Lemma DecodeBytes_ok t b : strict t -> is_bytes b -> zlen b < 2 ^ 62 ->
  match DecodeBytes t b with
  | Done v => typed t v /\ Spec.enc v = b
  | Error _ => forall v, typed t v -> Spec.enc v <> b
  | _ => False
  end.
Proof.
  intros Hst Hb Hlen. unfold DecodeBytes.
  assert (Hs : NewStream b (zlen b) = here None [] b [] 0 0 None).
  { unfold NewStream, Reset, here. rewrite app_nil_r. change (zlen []) with 0. rewrite Z.add_0_r. by destruct (zlen b >? 0). }
  assert (Hp : placed None b []) by (split; [done|rewrite zlen_nil; lia|done]).
  rewrite Hs. pose proof (decode_reader t Hst (S (length b)) None [] b [] 0 0 None Hp ltac:(lia)) as Hr.
  destruct (decode _ t _) as [[v|e| |] s']; try done; cbn in Hr.
  - destruct Hr as (c&W'&n&x&e&[Hv ->]&HW&->). cbn [input here]. rewrite app_nil_r. destruct (zlen W' >? 0) eqn:E; bool_to_prop.
    + intros v' Hv' E'. rewrite <- (app_nil_r (Spec.enc v')), HW in E'. symmetry in E'.
      apply (good_inj _ v v' W' [] (good_typed t Hst) Hv Hv') in E' as [_ ->]; [done|by rewrite <- HW].
    + assert (W' = []) as -> by (apply zlen_0; pose proof (zlen_nonneg W'); lia). by rewrite app_nil_r in HW.
  - destruct Hr as (Hno&_). intros v Hv E. apply (Hno v (Spec.enc v) []); [done|]. by rewrite app_nil_r.
Qed.


Lemma DecodeBytes_enc t v : strict t -> typed t v -> zlen (Spec.enc v) < 2 ^ 62 ->
  Enc.EncodeToBytes v = Done (Spec.enc v) /\ DecodeBytes t (Spec.enc v) = Done v.
Proof.
  intros Hst Hv Hlen. pose proof (typed_encodable t Hst v Hv) as He. split; [apply EncodeToBytes_spec; [done|lia]|].
  pose proof (DecodeBytes_ok t (Spec.enc v) Hst ltac:(apply is_bytes_enc; [done|lia]) Hlen) as H.
  destruct (DecodeBytes t (Spec.enc v)) as [v'|e| |]; try done; [|by destruct (H v Hv)].
  destruct H as [Hv' E]. f_equal. symmetry. apply (good_inj _ v v' [] [] (good_typed t Hst) Hv Hv'); rewrite ?app_nil_r; done.
Qed.


(** A list of one array of one zero byte. *)
Definition zero_byte_list : bytes := [0xC1; 0x00].

(** An array of one zero byte is decoded without being consumed, because [Uint]
    rejects the byte before it is marked as read and [decodeByteArray] drops the
    error: decoding a slice of such arrays from the encoding of a one-element slice
    runs out of every bound. *)
Lemma zero_byte_array_loops (fuel : nat) :
  Enc.EncodeToBytes (Enc.VList [Enc.VBytes [0]]) = Done zero_byte_list /\
  fst (decode fuel (TySlice (TyByteArray 1)) (NewStream zero_byte_list (zlen zero_byte_list))) = NoFuel.
Proof.
  split; [by vm_compute|].
  set (s := {| input := []; remaining := 0; limited := true; kind := Some Byte; size := 0; byteval := 0;
               kinderr := None; stack := [(1, 1)] |}).
  assert (Hloop : forall fuel s0, decodeByteArray 1 s0 = (Done (Enc.VBytes [0]), s) ->
    fst (decodeSliceElems (decodeByteArray 1) fuel s0) = NoFuel).
  { clear fuel. induction fuel as [|fuel IH]; intros s0 Hs; [done|]. cbn [decodeSliceElems].
    erewrite run_done by (unfold try; by rewrite Hs). cbv iota beta. specialize (IH s ltac:(by vm_compute)).
    unfold mbind, SM_bind. by destruct (decodeSliceElems _ fuel s) as [[] s']; simpl in IH. }
  cbn [decode]. unfold decodeListSlice. erewrite run_done by by vm_compute. cbn [Z.eqb].
  unfold mbind, SM_bind.
  match goal with |- context [decodeSliceElems (decodeByteArray 1) fuel ?s0] => specialize (Hloop fuel s0 ltac:(by vm_compute)) end.
  by destruct (decodeSliceElems _ fuel _) as [[] s']; simpl in Hloop.
Qed.

(** ** Instances *)
Definition sample_type : gotype := TyStruct [TyUint 64; TyBigInt; TyByteArray 4; TyBytes] None.
Definition sample_value : Enc.value :=
  Enc.VList [Enc.VUint 300; Enc.VBigInt (Some 7); Enc.VBytes [1; 2; 3; 4]; Enc.VBytes []].

Lemma sample_strict : strict sample_type.
Proof. cbn. split_and!; try done. by right; right; right. Qed.

Lemma sample_typed : typed sample_type sample_value.
Proof.
  eexists. split; [done|]. cbn. split_and!; try done.
  - eexists. split; [done|lia].
  - eexists. split; [done|lia].
  - eexists. split_and!; [done| |done]. by apply (bool_decide_unpack _).
  - eexists. split; [done|constructor].
Qed.



(** Decoding what was encoded, for types with optional pointers.

    A nil pointer is read from the empty string and from the empty list, so these types
    have values with two encodings; what the encoder writes is still read back. *)

(** The length of a short string. *)
Lemma zlen_string b : zlen b <= 55 -> zlen (Spec.string b) <= zlen b + 1.
Proof.
  intros Hb. assert (Hh : zlen (Spec.head 0x80 0xB7 (zlen b) ++ b) = zlen b + 1).
  { rewrite zlen_app. unfold Spec.head. replace (zlen b <? 56) with true by (symmetry; bool_to_prop; lia). unfold zlen at 1. cbn. lia. }
  unfold Spec.string. destruct b as [|x [|y b]]; [cbn; lia| |rewrite Hh; lia].
  destruct (x <? 0x80); [unfold zlen; cbn; lia|]. unfold zlen. cbn. lia.
Qed.

Section roundtrip.
Variable fuel : nat.

(** The decoder reads an encoded value and stops behind it. *)
Definition reads_back (t : gotype) : Prop := forall v fr st W R n b e,
  typed t v -> placed fr (Spec.enc v ++ W) R -> (length (Spec.enc v ++ W) < fuel)%nat ->
  exists n' b' e', decode fuel t (here fr st (Spec.enc v ++ W) R n b e) = (Done v, here fr st W R n' b' e').

Lemma reads_back_strict t : strict t -> reads_back t.
Proof.
  intros Hst v fr st W R n b e Hv Hp Hf. pose proof (decode_reader t Hst fuel fr st _ R n b e Hp Hf) as Hr.
  unfold reads in Hr. destruct (decode fuel t _) as [[a|er| |] s']; try done.
  - destruct Hr as (c & W' & n' & b' & e' & [Ha ->] & E & ->).
    apply (good_inj (typed t) v a W W' (good_typed t Hst) Hv Ha) in E as [-> ->]; [by exists n', b', e'|by eapply placed_window].
  - destruct Hr as (Hno & _). by destruct (Hno v (Spec.enc v) W).
Qed.

Lemma Kind_back fr st k h p W R n b e : placed fr ((h ++ p) ++ W) R -> header k (zlen p) h ->
  Kind_ (here fr st ((h ++ p) ++ W) R n b e) = (Done (k, zlen p), armed fr st (p ++ W) R k (zlen p) (header_val k h)).
Proof.
  intros Hp Hh. pose proof (Kind_ok fr st _ R n b e Hp) as Hk. rewrite <- app_assoc in Hk |- *.
  destruct (Kind_ _) as [[[k' sz]|er| |] s']; try done.
  - destruct Hk as (h' & W1 & Hh' & E & Hle & ->). pose proof (header_nonneg _ _ _ Hh').
    destruct (split_at_len W1 sz) as (p' & W2 & -> & <-); [lia|].
    destruct (frame_unique (h ++ p ++ W) k h p W k' h' p' W2) as (-> & -> & -> & ->); try done.
    + rewrite app_assoc. by eapply placed_window.
    + by rewrite <- app_assoc.
  - destruct Hk as (Hno & _). pose proof (Hno k (zlen p) h (p ++ W) Hh eq_refl) as H. rewrite zlen_app in H.
    pose proof (zlen_nonneg W). lia.
Qed.

Lemma reads_back_opt k : (1 < k)%nat -> reads_back (TyOptPtr (TyByteArray k)).
Proof.
  intros Hk v fr st W R n b e [->|Hv] Hp Hf; cbn [decode nil_value].
  - pose proof (Kind_back fr st String [0x80] [] W R n b e Hp (header_string 0 ltac:(lia))) as E.
    unfold mbind at 1, SM_bind at 1, try. cbn [nil_value Spec.enc Spec.string] in *. change (Spec.head _ _ _ ++ []) with ([0x80] ++ @nil Z).
    rewrite E. by do 3 eexists.
  - destruct (reads_back_strict (TyByteArray k) ltac:(cbn; lia) v fr st W R n b e Hv Hp Hf) as (n' & b' & e' & E).
    cbn [decode] in E. exists n', b', e'. destruct Hv as (c & -> & Hc & Hl).
    cbn [Spec.enc] in *. rewrite string_long in * by (intros x ->; simpl in Hl; lia).
    pose proof (Kind_back fr st String _ c W R n b e Hp (header_string _ (zlen_nonneg c))) as Ek.
    unfold mbind at 1, SM_bind at 1, try. rewrite Ek. rewrite (proj2 (Z.eqb_neq _ _)) by (unfold zlen; lia). cbn [andb].
    rewrite <- E. unfold decodeByteArray. by erewrite !run_done by (exact Ek || apply Kind_armed).
Qed.

(** The fields of a struct, one after the other. *)
Lemma fields_back ts : Forall reads_back ts -> forall l fr st W R n b e, typed_fields typed ts l ->
  placed fr (encs l ++ W) R -> (length (encs l ++ W) < fuel)%nat ->
  exists n' b' e', decodeFields (decode fuel) ts (here fr st (encs l ++ W) R n b e) = (Done l, here fr st W R n' b' e').
Proof.
  induction 1 as [|t ts Ht _ IH]; intros [|v l] fr st W R n b e Hl Hp Hf; try done; cbn [decodeFields]; [by do 3 eexists|].
  destruct Hl as [Hv Hl]. change (encs (v :: l)) with (Spec.enc v ++ encs l) in *. rewrite <- app_assoc in *.
  destruct (Ht v fr st (encs l ++ W) R n b e Hv Hp Hf) as (n1 & b1 & e1 & E1).
  destruct (IH l fr st W R n1 b1 e1 Hl) as (n2 & b2 & e2 & E2); [by eapply placed_suffix|rewrite length_app in Hf; lia|].
  exists n2, b2, e2. unfold mbind, SM_bind, decodeField at 1. rewrite E1, E2. done.
Qed.

(** A list whose elements [body] reads. *)
Lemma list_back (body : Z -> DM (list Enc.value)) (fin : DM unit) l fr st W R n b e :
  fin = ListEnd \/ fin = wrap ListEnd -> placed fr (Spec.enc (Enc.VList l) ++ W) R ->
  (forall st R n b e, placed (Some (zlen (encs l))) (encs l) R -> exists n' b' e',
     body (zlen (encs l)) (here (Some (zlen (encs l))) st (encs l) R n b e) =
       (Done l, here (Some (zlen (encs l))) st [] R n' b' e')) ->
  exists n' b' e', (sz ← wrap List_; l ← body sz; _ ← fin; mret (Enc.VList l)) (here fr st (Spec.enc (Enc.VList l) ++ W) R n b e) =
    (Done (Enc.VList l), here fr st W R n' b' e').
Proof.
  intros Hfin Hp Hb. cbn [Spec.enc] in *. unfold Spec.lst in *.
  assert (Hp1 : placed fr (encs l ++ W) R) by (rewrite <- app_assoc in Hp; by eapply placed_suffix).
  pose proof (Kind_back fr st List _ (encs l) W R n b e Hp (header_list _ (zlen_nonneg _))) as Ek.
  pose proof (List_armed fr st (encs l) W R (header_val List (Spec.head 192 247 (zlen (encs l)))) Hp1) as EL.
  assert (El : wrap List_ (here fr st ((Spec.head 192 247 (zlen (encs l)) ++ encs l) ++ W) R n b e) =
    (Done (zlen (encs l)), here (Some (zlen (encs l))) (stack (here fr st (encs l ++ W) R 0 0 None)) (encs l) (W ++ R) 0
       (header_val List (Spec.head 192 247 (zlen (encs l)))) None)).
  { rewrite (proj1 kind_first_List _ _ _ Ek (Kind_armed _ _ _ _ _ _ _)). unfold wrap. by rewrite EL. }
  erewrite run_done by exact El.
  destruct (Hb (stack (here fr st (encs l ++ W) R 0 0 None)) (W ++ R) 0 (header_val List (Spec.head 192 247 (zlen (encs l)))) None)
    as (n1 & b1 & e1 & E1); [by eapply placed_list|]. erewrite run_done by exact E1.
  pose proof (fin_cases fin (here (Some (zlen (encs l))) (stack (here fr st (encs l ++ W) R 0 0 None)) [] (W ++ R) n1 b1 e1) Hfin) as Hf.
  exists 0, b1, e1.   rewrite ListEnd_ok in Hf by done. by erewrite run_done by exact Hf.
Qed.

(** The end of a list, at which a struct or a strict type is read. *)
Definition ends (t : gotype) : Prop := forall sz st R n b e, placed (Some sz) [] R -> exists n' b' e',
  decode fuel t (here (Some sz) st [] R n b e) = (Error EOL, here (Some sz) st [] R n' b' e').

Lemma ends_struct ts : ends (TyStruct ts None).
Proof.
  intros sz st R n b e Hp. rewrite decode_struct. pose proof (Kind_ok (Some sz) st [] R n b e Hp) as Hk.
  destruct (Kind_ _) as [[[k n1]|er| |] s'] eqn:Ek; try done.
  - destruct Hk as (h & W1 & Hh & E & _). pose proof (header_nonempty _ _ _ Hh). by destruct h.
  - destruct Hk as (_ & He & Hs). assert (er = EOL) as -> by by apply He. rewrite (Hs eq_refl) in Ek.
    destruct (proj2 kind_first_List _ _ _ Ek) as (e' & El & Ee). assert (e' = EOL) as -> by by apply Ee.
    do 3 eexists. by erewrite run_error by exact El.
Qed.
Lemma ends_strict t : strict t -> (0 < fuel)%nat -> ends t.
Proof. intros Hst Hf sz st R n b e Hp. by apply (reader_end fuel (typed t)); [apply good_typed|apply decode_reader|..]. Qed.

(** The elements of a slice, up to the end of the list. *)
Lemma slice_back t : reads_back t -> ends t -> (forall v, typed t v -> Spec.enc v <> []) ->
  forall l k sz st R n b e, Forall (typed t) l -> placed (Some sz) (encs l) R -> (length (encs l) < fuel)%nat ->
  (length (encs l) < k)%nat ->
  exists n' b' e', decodeSliceElems (decode fuel t) k (here (Some sz) st (encs l) R n b e) = (Done l, here (Some sz) st [] R n' b' e').
Proof.
  intros Ht He Hne l. induction l as [|v l IH]; intros k sz st R n b e Hl Hp Hf Hk; (destruct k as [|k]; [lia|]); cbn [decodeSliceElems].
  - destruct (He sz st R n b e Hp) as (n' & b' & e' & E). exists n', b', e'. unfold mbind at 1, SM_bind at 1, try.
    change (encs []) with (@nil Z). by rewrite E.
  - apply Forall_cons in Hl as [Hv Hl]. change (encs (v :: l)) with (Spec.enc v ++ encs l) in *.
    destruct (Ht v (Some sz) st (encs l) R n b e Hv Hp Hf) as (n1 & b1 & e1 & E1). specialize (Hne v Hv).
    rewrite length_app in Hf, Hk. assert (0 < length (Spec.enc v))%nat by (destruct (Spec.enc v); [done|simpl; lia]).
    destruct (IH k sz st R n1 b1 e1 Hl) as (n2 & b2 & e2 & E2); [by eapply placed_suffix|lia|lia|].
    exists n2, b2, e2. unfold mbind, SM_bind, try. rewrite E1, E2. done.
Qed.

Lemma reads_back_struct ts : Forall reads_back ts -> reads_back (TyStruct ts None).
Proof.
  intros Hts v fr st W R n b e (l & -> & Hl) Hp Hf. rewrite decode_struct.
  apply (list_back (fun _ => struct_body fuel ts None)); [by right|done|]. intros st' R' n' b' e' HpC.
  destruct (fields_back ts Hts l (Some (zlen (encs l))) st' [] R' n' b' e' Hl) as (n1 & b1 & e1 & E).
  - by rewrite app_nil_r.
  - rewrite app_nil_r. cbn [Spec.enc] in Hf. unfold Spec.lst in Hf. rewrite !length_app in Hf. lia.
  - rewrite app_nil_r in E. exists n1, b1, e1. unfold struct_body. erewrite run_done by exact E.
    erewrite run_done by done. unfold mret, SM_ret. by rewrite app_nil_r.
Qed.

Lemma reads_back_slice t : reads_back t -> ends t -> (forall v, typed t v -> Spec.enc v <> []) -> reads_back (TySlice t).
Proof.
  intros Ht He Hne v fr st W R n b e (l & -> & Hl) Hp Hf. cbn [decode]. rewrite decodeListSlice_body.
  apply list_back; [by left|done|]. intros st' R' n' b' e' HpC. unfold slice_body.
  cbn [Spec.enc] in Hf. unfold Spec.lst in Hf. rewrite !length_app in Hf.
  destruct (zlen (encs l) =? 0) eqn:E; bool_to_prop; [|apply (slice_back t); try done; lia].
  apply zlen_0 in E. assert (l = []) as ->; [|by do 3 eexists].
  destruct Hl as [|v l Hv Hl]; [done|]. change (encs (v :: l)) with (Spec.enc v ++ encs l) in E.
  apply app_eq_nil in E as [E _]. by destruct (Hne v Hv).
Qed.
End roundtrip.

(** Nothing is encoded as the empty string. *)
Lemma enc_nonempty t v : strict t \/ (exists ts, t = TyStruct ts None) -> typed t v -> Spec.enc v <> [].
Proof.
  intros [Hst|[ts ->]] Hv; [apply (good_nonempty (typed t)); [by apply good_typed|done]|].
  destruct Hv as (l & -> & _). cbn [Spec.enc]. unfold Spec.lst, Spec.head. by destruct (_ <? _).
Qed.

(** What [rlp.DecodeBytes] makes of an encoded value. *)
Lemma DecodeBytes_back t v : reads_back (S (length (Spec.enc v))) t -> typed t v -> is_bytes (Spec.enc v) -> zlen (Spec.enc v) < 2 ^ 62 ->
  Spec.enc v <> [] ->
  DecodeBytes t (Spec.enc v) = Done v /\ exists s, decode (S (length (Spec.enc v))) t (NewStream (Spec.enc v) 0) = (Done v, s).
Proof.
  intros Ht Hv Hb Hl Hne.
  assert (Hs : forall limit, limit = 0 \/ limit = zlen (Spec.enc v) -> NewStream (Spec.enc v) limit = here None [] (Spec.enc v ++ []) [] 0 0 None).
  { intros limit Hlim. unfold NewStream, Reset, here. rewrite !app_nil_r. change (zlen (@nil Z)) with 0. rewrite Z.add_0_r.
    assert (zlen (Spec.enc v) >? 0 = true) as E.
    { apply Z.gtb_lt. pose proof (zlen_nonneg (Spec.enc v)). destruct (decide (zlen (Spec.enc v) = 0)) as [E%zlen_0|]; [done|lia]. }
    destruct Hlim as [->| ->]; [done|]. by rewrite E. }
  destruct (Ht v None [] [] [] 0 0 None Hv) as (n & b & e & E).
  - rewrite app_nil_r. split; [done|change (zlen (@nil Z)) with 0; lia|done].
  - rewrite app_nil_r. lia.
  - unfold DecodeBytes. rewrite !Hs by auto. rewrite E. split; [done|by eexists].
Qed.
