(* ===== verification/Heap.v ===== *)
(** Go's [container/heap] over a slice, as the transaction lists and the price
    queue use it.

    The slice is a list; [Less] of the source compares elements.  The lemmas hold
    for every [less] that is a strict weak order: each operation keeps the heap
    property and the elements, and the first element is a least one. *)
From S2P Require Import Prelude.

Module Heap.

Section heap.
Context {A : Type} (less : A -> A -> bool).
Implicit Types l : list A.

(** [h.Less(i, j)] and [h.Swap(i, j)], for indices of the slice. *)
Definition Less l (i j : nat) : bool :=
  match l !! i, l !! j with Some x, Some y => less x y | _, _ => false end.
Definition Swap l (i j : nat) : list A :=
  match l !! i, l !! j with Some x, Some y => <[i := y]> (<[j := x]> l) | _, _ => l end.

(** [(j - 1) / 2]; Go rounds [-1 / 2] to 0. *)
Definition parent (j : nat) : nat := Nat.div2 (pred j).

(** At most [j] swaps move an element from index [j] to the front. *)
Fixpoint up_loop (fuel : nat) l (j : nat) : list A :=
  match fuel with
  | O => l
  | S fuel =>
      let i := parent j in
      if (i =? j)%nat || negb (Less l j i) then l else up_loop fuel (Swap l i j) i
  end.
Definition up l (j : nat) : list A := up_loop (S j) l j.

(** Every swap at least doubles the index, which stays below [n]. *)
Fixpoint down_loop (fuel : nat) l (i n : nat) : list A :=
  match fuel with
  | O => l
  | S fuel =>
      let j1 := (2 * i + 1)%nat in
      if (n <=? j1)%nat then l
      else
        let j2 := S j1 in
        let j := if (j2 <? n)%nat && negb (Less l j1 j2) then j2 else j1 in
        if negb (Less l j i) then l else down_loop fuel (Swap l i j) j n
  end.
Definition down l (i n : nat) : list A := down_loop n l i n.

(** [for i := n/2 - 1; i >= 0; i--] *)
Fixpoint init_loop (k : nat) l (n : nat) : list A :=
  match k with O => l | S i => init_loop i (down l i n) n end.
Definition Init l : list A := init_loop (Nat.div2 (length l)) l (length l).

Definition Push l (x : A) : list A := let l := l ++ [x] in up l (pred (length l)).

(** [h.Pop()] of the sources removes and returns the last element; [None] is the
    panic on an empty slice. *)
Definition pop_last l : option (A * list A) :=
  x ← last l; Some (x, take (pred (length l)) l).
Definition Pop l : option (A * list A) :=
  let n := pred (length l) in pop_last (down (Swap l 0 n) 0 n).
Definition Remove l (i : nat) : option (A * list A) :=
  let n := pred (length l) in
  let l := if (n =? i)%nat then l else up (down (Swap l i n) i n) i in
  pop_last l.
Definition Fix l (i : nat) : list A := up (down l i (length l)) i.

(** ** Lemmas *)

(** Not above. *)
Definition le (x y : A) : Prop := less y x = false.

Class StrictWeak : Prop := {
  less_irrefl x : less x x = false;
  less_trans x y z : le x y -> le y z -> le x z;
  less_asym x y : less x y = true -> le x y;
}.

(** The elements at [p] and [c], when there are such, are in order. *)
Definition ok l (p c : nat) : Prop := forall x y, l !! p = Some x -> l !! c = Some y -> le x y.
Definition heap (n : nat) l : Prop := forall i, (0 < i < n)%nat -> ok l (parent i) i.

Lemma parent_lt i : (0 < i)%nat -> (parent i < i)%nat.
Proof. intros Hi. unfold parent. rewrite Nat.div2_div. apply Nat.Div0.div_lt_upper_bound. lia. Qed.
Lemma parent_child i k : parent k = i -> (0 < k)%nat -> k = (2 * i + 1)%nat \/ k = (2 * i + 2)%nat.
Proof.
  unfold parent. intros <- Hk. rewrite Nat.div2_div.
  pose proof (Nat.div_mod_eq (pred k) 2). pose proof (Nat.mod_upper_bound (pred k) 2). lia.
Qed.
Lemma parent_1 i : parent (2 * i + 1) = i.
Proof. unfold parent. rewrite Nat.add_1_r. apply Nat.div2_double. Qed.
Lemma parent_2 i : parent (S (2 * i + 1)) = i.
Proof. unfold parent. rewrite Nat.add_1_r. simpl pred. apply Nat.div2_succ_double. Qed.

Lemma Swap_perm l i j : Swap l i j ≡ₚ l.
Proof.
  unfold Swap. destruct (l !! i) as [x|] eqn:Hi, (l !! j) as [y|] eqn:Hj; try done.
  by apply Permutation_insert_swap.
Qed.

Lemma lookup_Swap l i j k : (i < length l)%nat -> (j < length l)%nat ->
  Swap l i j !! k = if decide (k = i) then l !! j else if decide (k = j) then l !! i else l !! k.
Proof.
  intros Hi Hj. unfold Swap.
  destruct (lookup_lt_is_Some_2 l i Hi) as [x Hx], (lookup_lt_is_Some_2 l j Hj) as [y Hy].
  rewrite Hx, Hy. repeat case_decide; subst.
  - by rewrite list_lookup_insert_eq by (by rewrite length_insert).
  - rewrite list_lookup_insert_ne by done. by rewrite list_lookup_insert_eq.
  - by rewrite !list_lookup_insert_ne.
Qed.

Lemma Less_true l i j : Less l i j = true -> exists x y, l !! i = Some x /\ l !! j = Some y /\ less x y = true.
Proof. unfold Less. destruct (l !! i), (l !! j); naive_solver. Qed.
Lemma Less_false l i j : Less l i j = false -> ok l j i.
Proof. unfold Less, ok, le. intros H x y Hx Hy. by rewrite Hx, Hy in H. Qed.

Lemma ok_get l p c x y : ok l p c -> l !! p = Some x -> l !! c = Some y -> le x y.
Proof. eauto. Qed.

Context {SW : StrictWeak}.

Lemma ok_trans l p q c : (q < length l)%nat -> ok l p q -> ok l q c -> ok l p c.
Proof.
  intros Hq H1 H2 x z Hx Hz. destruct (lookup_lt_is_Some_2 l q Hq) as [y Hy].
  eapply less_trans; eauto.
Qed.

(** ** Moving up *)

(** In order but for the element at [j], which may be too small. *)
Definition rising (n : nat) l (j : nat) : Prop :=
  (forall i, (0 < i < n)%nat -> i <> j -> ok l (parent i) i) /\
  (forall i, (0 < i < n)%nat -> parent i = j -> (0 < j)%nat -> ok l (parent j) i).

Lemma rising_step n l j : (0 < j < n)%nat -> (n <= length l)%nat -> Less l j (parent j) = true ->
  rising n l j -> rising n (Swap l (parent j) j) (parent j).
Proof.
  intros Hj Hn (x & y & Hx & Hy & Hlt)%Less_true [Ha Hb].
  pose proof (parent_lt j ltac:(lia)) as Hp. pose proof (less_asym _ _ Hlt) as Hxy.
  assert (forall k, Swap l (parent j) j !! k =
            if decide (k = parent j) then Some x else if decide (k = j) then Some y else l !! k) as Hs.
  { intros k. by rewrite lookup_Swap, Hx, Hy by lia. }
  split.
  - intros i Hi Hne u v. rewrite !Hs. pose proof (parent_lt i ltac:(lia)).
    repeat case_decide; intros; simplify_eq; try lia; try done.
    + eapply less_trans; [exact Hxy|]. eapply (Ha i); eauto. congruence.
    + eapply (Hb i); eauto. lia.
    + eapply (Ha i); eauto.
  - intros i Hi Hpi Hp0 u v. rewrite !Hs. pose proof (parent_lt (parent j) ltac:(lia)).
    repeat case_decide; intros; simplify_eq; try lia.
    + eapply (Ha (parent j)); eauto; lia.
    + eapply less_trans; [eapply (Ha (parent j)); eauto; lia|]. eapply (Ha i); eauto. congruence.
Qed.

Lemma rising_heap n l j : ok l (parent j) j \/ j = 0%nat -> rising n l j -> heap n l.
Proof.
  intros Hok [Ha _] i Hi. destruct (decide (i = j)) as [->|]; [|eauto]. destruct Hok; [done|lia].
Qed.

Lemma up_loop_ok fuel n l j : (j < fuel)%nat -> (j < n)%nat -> (n <= length l)%nat -> rising n l j ->
  heap n (up_loop fuel l j) /\ up_loop fuel l j ≡ₚ l /\
  (forall k, (n <= k)%nat -> up_loop fuel l j !! k = l !! k).
Proof.
  revert l j. induction fuel as [|fuel IH]; intros l j Hf Hj Hn Hr; [lia|]. simpl.
  destruct (Nat.eqb_spec (parent j) j) as [E|E].
  { split; [|done]. eapply rising_heap; [|done]. right. destruct j; [done|].
    pose proof (parent_lt (S j) ltac:(lia)). lia. }
  destruct (Less l j (parent j)) eqn:HL; simpl.
  - assert (0 < j)%nat by (destruct j; [done|lia]). pose proof (parent_lt j ltac:(lia)).
    assert (length (Swap l (parent j) j) = length l) as Hlen by (apply Permutation_length, Swap_perm).
    destruct (IH (Swap l (parent j) j) (parent j)) as (H1 & H2 & H3); [lia..| |].
    { by apply rising_step. }
    split; [done|]. split; [by rewrite H2, Swap_perm|]. intros k Hk. rewrite H3 by done.
    rewrite lookup_Swap by lia. rewrite !decide_False by lia. done.
  - split; [|done]. eapply rising_heap; [|done]. left. by apply Less_false.
Qed.

Lemma up_ok n l j : (j < n)%nat -> (n <= length l)%nat -> rising n l j ->
  heap n (up l j) /\ up l j ≡ₚ l /\ (forall k, (n <= k)%nat -> up l j !! k = l !! k).
Proof. intros. apply up_loop_ok; [lia|done..]. Qed.

(** ** Moving down *)

(** In order below the elements from [m] on. *)
Definition heap_from (m n : nat) l : Prop := forall i, (0 < i < n)%nat -> (m <= parent i)%nat -> ok l (parent i) i.

(** The same but for the element at [i], which may be too large. *)
Definition sinking (m n : nat) l (i : nat) : Prop :=
  (forall k, (0 < k < n)%nat -> (m <= parent k)%nat -> parent k <> i -> ok l (parent k) k) /\
  (forall k, (0 < k < n)%nat -> parent k = i -> (0 < i)%nat -> (m <= parent i)%nat -> ok l (parent i) k).

(** [j] is the least child of [i]. *)
Lemma sinking_step m n l i j : (m <= i < n)%nat -> (0 < j < n)%nat -> (n <= length l)%nat -> parent j = i ->
  (forall k, (0 < k < n)%nat -> parent k = i -> ok l j k) -> Less l j i = true ->
  sinking m n l i -> sinking m n (Swap l i j) j.
Proof.
  intros Hi Hj Hn Hp Hmin (y & x & Hy & Hx & Hlt)%Less_true [Ha Hb].
  pose proof (parent_lt j ltac:(lia)) as Hpj. pose proof (less_asym _ _ Hlt) as Hyx.
  assert (forall k, Swap l i j !! k =
            if decide (k = i) then Some y else if decide (k = j) then Some x else l !! k) as Hs.
  { intros k. by rewrite lookup_Swap, Hx, Hy by lia. }
  split.
  - intros k Hk Hm Hne u v. rewrite !Hs. pose proof (parent_lt k ltac:(lia)).
    repeat case_decide; intros; simplify_eq; try lia; try done.
    + eapply (Hmin k); eauto.
    + eapply (Hb j); eauto; lia.
    + eapply (Ha k); eauto.
  - intros k Hk Hpk _ Hm u v. rewrite !Hs. pose proof (parent_lt k ltac:(lia)).
    repeat case_decide; intros; simplify_eq; try lia.
    eapply (Ha k); eauto; lia.
Qed.

Lemma sinking_heap m n l i : (forall k, (0 < k < n)%nat -> parent k = i -> ok l i k) -> sinking m n l i ->
  heap_from m n l.
Proof.
  intros Hok [Ha _] k Hk Hm. destruct (decide (parent k = i)) as [E|]; [|eauto]. rewrite E. auto.
Qed.

(** The child that [down] compares with its parent. *)
Definition child l (i n : nat) : nat :=
  let j1 := (2 * i + 1)%nat in
  if (S j1 <? n)%nat && negb (Less l j1 (S j1)) then S j1 else j1.

Lemma child_spec l i n : (2 * i + 1 < n)%nat -> (n <= length l)%nat ->
  let j := child l i n in
  (i < j < n)%nat /\ parent j = i /\ (forall k, (0 < k < n)%nat -> parent k = i -> ok l j k).
Proof.
  intros Hj Hn. unfold child. destruct (Nat.ltb_spec (S (2 * i + 1)) n) as [H2|H2]; cbn [andb].
  - destruct (Less l (2 * i + 1) (S (2 * i + 1))) eqn:HL; cbn [negb]; cbv zeta; (split; [lia|]).
    + split; [apply parent_1|]. intros k Hk Hpk. destruct (parent_child _ _ Hpk ltac:(lia)) as [->| ->].
      * intros x y ??. simplify_eq. apply less_irrefl.
      * replace (2 * i + 2)%nat with (S (2 * i + 1)) by lia.
        apply Less_true in HL as (x & y & Hx & Hy & Hlt). intros u v ??. simplify_eq. by apply less_asym.
    + split; [apply parent_2|]. intros k Hk Hpk. destruct (parent_child _ _ Hpk ltac:(lia)) as [->| ->].
      * by apply Less_false.
      * replace (2 * i + 2)%nat with (S (2 * i + 1)) by lia. intros x y ??. simplify_eq. apply less_irrefl.
  - cbv zeta. split; [lia|]. split; [apply parent_1|]. intros k Hk Hpk.
    destruct (parent_child _ _ Hpk ltac:(lia)) as [->| ->]; [|lia].
    intros x y ??. simplify_eq. apply less_irrefl.
Qed.

Lemma down_loop_ok fuel m n l i : (n <= fuel + i)%nat -> (m <= i < n)%nat -> (n <= length l)%nat -> sinking m n l i ->
  heap_from m n (down_loop fuel l i n) /\ down_loop fuel l i n ≡ₚ l /\
  (forall k, (n <= k)%nat -> down_loop fuel l i n !! k = l !! k).
Proof.
  revert l i. induction fuel as [|fuel IH]; intros l i Hf Hi Hn Hs; [lia|]. cbn [down_loop].
  destruct (Nat.leb_spec n (2 * i + 1)) as [Hle|Hlt].
  { split; [|done]. eapply sinking_heap; [|done]. intros k Hk Hpk. destruct (parent_child _ _ Hpk ltac:(lia)) as [->| ->]; lia. }
  fold (child l i n). destruct (child_spec l i n Hlt Hn) as (Hc & Hp & Hmin).
  destruct (Less l (child l i n) i) eqn:HL; simpl.
  - assert (length (Swap l i (child l i n)) = length l) as Hlen by (apply Permutation_length, Swap_perm).
    destruct (IH (Swap l i (child l i n)) (child l i n)) as (H1 & H2 & H3); [lia..| |].
    { apply sinking_step; try done; lia. }
    split; [done|]. split; [by rewrite H2, Swap_perm|]. intros k Hk. rewrite H3 by done.
    rewrite lookup_Swap by lia. rewrite !decide_False by lia. done.
  - split; [|done]. eapply sinking_heap; [|done]. intros k Hk Hpk.
    apply Less_false in HL. eapply ok_trans; [|done|by apply Hmin]. lia.
Qed.

Lemma down_ok m n l i : (m <= i < n)%nat -> (n <= length l)%nat -> sinking m n l i ->
  heap_from m n (down l i n) /\ down l i n ≡ₚ l /\ (forall k, (n <= k)%nat -> down l i n !! k = l !! k).
Proof. intros. apply down_loop_ok; [lia|done..]. Qed.

(** Nothing happens to an element that is not above its children. *)
Lemma down_stays n l i : (n <= length l)%nat -> (forall k, (0 < k < n)%nat -> parent k = i -> ok l i k) ->
  down l i n = l.
Proof.
  intros Hn Hok. unfold down. destruct n as [|n]; [done|]. cbn [down_loop].
  destruct (Nat.leb_spec (S n) (2 * i + 1)) as [Hle|Hlt]; [done|].
  fold (child l i (S n)). destruct (child_spec l i (S n) Hlt Hn) as (Hc & Hp & Hmin).
  destruct (Less l (child l i (S n)) i) eqn:HL; [|done].
  apply Less_true in HL as (x & y & Hx & Hy & Hlt'). pose proof (Hok (child l i (S n)) ltac:(lia) Hp _ _ Hy Hx) as H.
  unfold le in H. congruence.
Qed.

Lemma up_stays n l j : (j < n)%nat -> heap n l -> up l j = l.
Proof.
  intros Hj Hh. unfold up. cbn [up_loop]. destruct (Nat.eqb_spec (parent j) j) as [|Hne]; [done|].
  destruct (Less l j (parent j)) eqn:HL; [|done].
  apply Less_true in HL as (x & y & Hx & Hy & Hlt). assert (0 < j)%nat by (destruct j; [done|lia]).
  pose proof (Hh j ltac:(lia) _ _ Hy Hx) as H'. unfold le in H'. congruence.
Qed.

(** ** The operations *)

Abbreviation heap_list l := (heap (length l) l).

Lemma heap_mono n m l : (m <= n)%nat -> heap n l -> heap m l.
Proof. intros Hm Hh i Hi. apply Hh. lia. Qed.

(** The first element is a least one. *)
Lemma heap_min n l i : heap n l -> (i < n)%nat -> (n <= length l)%nat -> ok l 0 i.
Proof.
  intros Hh. induction i as [i IH] using lt_wf_ind. intros Hi Hn.
  destruct i as [|i]; [intros x y ??; simplify_eq; apply less_irrefl|].
  pose proof (parent_lt (S i) ltac:(lia)). eapply (ok_trans _ _ (parent (S i))); [lia|apply IH; lia|apply Hh; lia].
Qed.

Lemma heap_head x l : heap_list (x :: l) -> Forall (le x) (x :: l).
Proof.
  intros Hh. apply Forall_lookup. intros i y Hy. apply (heap_min _ _ i Hh); [|done..].
  by eapply lookup_lt_Some.
Qed.

Lemma heap_nil : heap_list (@nil A).
Proof. intros i Hi. simpl in Hi. lia. Qed.

Lemma Push_ok l x : heap_list l -> heap_list (Push l x) /\ Push l x ≡ₚ x :: l.
Proof.
  intros Hh. unfold Push. rewrite length_app. simpl. rewrite Nat.add_1_r. simpl.
  destruct (up_ok (S (length l)) (l ++ [x]) (length l)) as (H1 & H2 & _); [lia|rewrite length_app; simpl; lia| |].
  - split.
    + intros i Hi Hne u v. pose proof (parent_lt i ltac:(lia)). rewrite !lookup_app_l by lia. apply Hh. lia.
    + intros i Hi Hp. pose proof (parent_lt i ltac:(lia)). lia.
  - split; [|by rewrite H2, Permutation_app_comm].
    rewrite (Permutation_length H2), length_app. simpl. by rewrite Nat.add_1_r.
Qed.

Lemma pop_last_snoc l x : pop_last (l ++ [x]) = Some (x, l).
Proof.
  unfold pop_last. rewrite last_snoc. simpl. rewrite length_app. simpl. rewrite Nat.add_1_r. simpl.
  by rewrite take_app_length.
Qed.

(** A list whose first [n] elements are a heap, with one more. *)
Lemma pop_last_ok n l x : length l = S n -> l !! n = Some x -> heap n l ->
  exists l', pop_last l = Some (x, l') /\ heap_list l' /\ l ≡ₚ x :: l'.
Proof.
  intros Hl Hx Hh. exists (take n l).
  assert (l = take n l ++ [x]) as E.
  { by rewrite <- (take_S_r l n x Hx), take_ge by lia. }
  assert (length (take n l) = n) as Hlen by (rewrite length_take; lia).
  split; [rewrite E at 1; apply pop_last_snoc|]. split.
  - rewrite Hlen. intros i Hi u v. pose proof (parent_lt i ltac:(lia)). rewrite !lookup_take_lt by lia. by apply Hh.
  - rewrite E at 1. by rewrite Permutation_app_comm.
Qed.

Lemma Pop_ok x l : heap_list (x :: l) ->
  exists l', Pop (x :: l) = Some (x, l') /\ heap_list l' /\ l' ≡ₚ l.
Proof.
  intros Hh. unfold Pop. simpl pred. set (w := Swap (x :: l) 0 (length l)).
  assert (w ≡ₚ x :: l) as Hw by apply Swap_perm.
  assert (w !! length l = Some x) as Hlast.
  { unfold w. rewrite lookup_Swap by (simpl; lia). repeat case_decide; try done; try congruence.
    assert (length l = 0)%nat as -> by lia. done. }
  assert (exists w', down w 0 (length l) = w' /\ heap (length l) w' /\ w' ≡ₚ w /\ w' !! length l = Some x)
    as (w' & -> & Hh' & Hp & Hx).
  { destruct l as [|y l]; [exists w; split_and!; try done; intros i Hi; simpl in Hi; lia|].
    destruct (down_ok 0 (length (y :: l)) w 0) as (H1 & H2 & H3).
    - simpl. lia.
    - rewrite (Permutation_length Hw). simpl. lia.
    - split; [|intros; lia]. intros k Hk _ Hne u v.
      pose proof (parent_lt k ltac:(lia)). unfold w.
      rewrite !lookup_Swap by (simpl in *; lia). rewrite !decide_False by lia. apply Hh. simpl in *. lia.
    - eexists. split_and!; try done; [intros k Hk; apply H1; lia|]. by rewrite H3. }
  destruct (pop_last_ok (length l) w' x) as (l' & ? & ? & Hl'); try done.
  { by rewrite (Permutation_length Hp), (Permutation_length Hw). }
  exists l'. split_and!; try done. apply (Permutation_cons_inv (a := x)). by rewrite <- Hl', Hp, Hw.
Qed.

Lemma Remove_ok l i x : heap_list l -> l !! i = Some x ->
  exists l', Remove l i = Some (x, l') /\ heap_list l' /\ l ≡ₚ x :: l'.
Proof.
  intros Hh Hx. pose proof (lookup_lt_Some _ _ _ Hx) as Hi. unfold Remove.
  destruct (Nat.eqb_spec (pred (length l)) i) as [<-|Hne].
  { apply (pop_last_ok (pred (length l))); [lia|done|]. apply (heap_mono (length l)); [lia|done]. }
  set (n := pred (length l)) in *. set (w := Swap l i n). assert (w ≡ₚ l) as Hw by apply Swap_perm.
  assert (length w = length l) as Hlen by by apply Permutation_length.
  assert (w !! n = Some x) as Hlast.
  { unfold w. rewrite lookup_Swap by lia. by rewrite decide_False, decide_True by lia. }
  assert (forall k, (0 < k < n)%nat -> k <> i -> parent k <> i -> ok w (parent k) k) as Ha.
  { intros k Hk ?? u v. pose proof (parent_lt k ltac:(lia)). unfold w.
    rewrite !lookup_Swap by lia. rewrite !decide_False by lia. apply Hh. lia. }
  assert (forall k, (0 < k < n)%nat -> parent k = i -> (0 < i)%nat -> ok w (parent i) k) as Hb.
  { intros k Hk Hpk ? u v. pose proof (parent_lt k ltac:(lia)). pose proof (parent_lt i ltac:(lia)). unfold w.
    rewrite !lookup_Swap by lia. rewrite !decide_False by lia. intros.
    apply (ok_trans l (parent i) i k); [lia|apply Hh; lia|rewrite <- Hpk; apply Hh; lia|done..]. }
  enough (heap n (up (down w i n) i) /\ up (down w i n) i ≡ₚ w /\ up (down w i n) i !! n = w !! n) as (H1 & H2 & H3).
  { destruct (pop_last_ok n (up (down w i n) i) x) as (l' & ? & ? & ?).
    - rewrite (Permutation_length H2), Hlen. lia.
    - by rewrite H3.
    - done.
    - exists l'. split_and!; try done. by rewrite <- Hw, <- H2. }
  destruct (decide ((0 < i)%nat /\ Less w i (parent i) = true)) as [[H0 HL]|Hno].
  - rewrite down_stays; [|lia|].
    + destruct (up_ok n w i) as (? & ? & Hk); [lia|lia| |split_and!; auto].
      split; [|done]. intros k Hk Hki. destruct (decide (parent k = i)) as [E|]; [|by apply Ha].
      rewrite E. intros u v Hu Hv. apply Less_true in HL as (a & b & Hxa & Hb' & Hab). simplify_eq.
      eapply less_trans; [apply less_asym, Hab|]. eapply Hb; eauto.
    + intros k Hk Hpk u v Hu Hv. apply Less_true in HL as (a & b & Hxa & Hb' & Hab). simplify_eq.
      eapply less_trans; [apply less_asym, Hab|]. eapply Hb; eauto.
  - destruct (down_ok 0 n w i) as (H1 & H2 & H3); [lia|lia| |].
    + split; [|auto]. intros k Hk _ Hpk. destruct (decide (k = i)) as [->|]; [|by apply Ha].
      apply Less_false. apply not_true_iff_false. intros ?. apply Hno. split; [lia|done].
    + rewrite (up_stays n); [|lia|intros k Hk; apply H1; lia]. split_and!; [intros k Hk; apply H1; lia|done|auto].
Qed.

Lemma Init_ok l : heap_list (Init l) /\ Init l ≡ₚ l.
Proof.
  unfold Init. set (n := length l).
  assert (forall k l', (k <= n)%nat -> length l' = n -> heap_from k n l' ->
            heap_from 0 n (init_loop k l' n) /\ init_loop k l' n ≡ₚ l') as Hloop.
  { induction k as [|k IH]; intros l' Hk Hl Hh; [done|]. simpl.
    destruct (down_ok k n l' k) as (H1 & H2 & _); [lia|lia| |].
    - split; [intros i Hi Hm Hne; apply Hh; lia|]. intros i Hi Hp H0 Hm. pose proof (parent_lt k H0). lia.
    - destruct (IH (down l' k n)) as [H3 H4]; [lia|by rewrite (Permutation_length H2)|done|].
      split; [done|]. by rewrite H4. }
  destruct (Hloop (Nat.div2 n) l) as [H1 H2]; [|done| |].
  - rewrite Nat.div2_div. apply Nat.Div0.div_le_upper_bound. lia.
  - intros i Hi Hm. exfalso. revert Hm. rewrite Nat.div2_div. unfold parent. rewrite Nat.div2_div.
    pose proof (Nat.div_mod_eq n 2). pose proof (Nat.mod_upper_bound n 2).
    pose proof (Nat.div_mod_eq (pred i) 2). pose proof (Nat.mod_upper_bound (pred i) 2). lia.
  - split; [|done]. rewrite (Permutation_length H2). intros i Hi. apply H1; [done|lia].
Qed.

(** [Fix] after the first element was replaced. *)
Lemma Fix_head_ok x y l : heap_list (x :: l) -> heap_list (Fix (y :: l) 0) /\ Fix (y :: l) 0 ≡ₚ y :: l.
Proof.
  intros Hh. unfold Fix. destruct (down_ok 0 (length (y :: l)) (y :: l) 0) as (H1 & H2 & _); [simpl; lia|done| |].
  - split; [|lia]. intros k Hk _ Hne u v. destruct k as [|k]; [lia|]. destruct (parent (S k)) as [|p] eqn:E; [done|].
    intros Hu Hv. apply (Hh (S k) Hk); by rewrite ?E.
  - assert (heap (length (y :: l)) (down (y :: l) 0 (length (y :: l)))) as H3 by (intros i Hi; apply H1; lia).
    rewrite (up_stays (length (y :: l))); [|simpl; lia|done]. by rewrite (Permutation_length H2).
Qed.
End heap.
End Heap.
