(* ===== verification/Keccakf.v ===== *)
(** The Keccak permutation of crypto/sha3/keccakf.go, which unrolls four rounds and
    works in place, and the permutation as FIPS 202 states it. *)
From S2P Require Import Prelude.

Module Keccakf.

Declare Scope lane_scope.
#[local] Notation "x ⊕ y" := (Z.lxor x y) (at level 50, left associativity) : lane_scope.
#[local] Notation "x &^ y" := (Z.ldiff x y) (at level 40, left associativity) : lane_scope.
#[local] Open Scope lane_scope.

(** [t<<n | t>>(64-n)] on 64-bit words. *)
Definition rotl (t n : Z) : Z := Z.lor (u64 (Z.shiftl t n)) (Z.shiftr t (64 - n)).

Definition rc : list Z := [
  0x0000000000000001; 0x0000000000008082; 0x800000000000808A; 0x8000000080008000;
  0x000000000000808B; 0x0000000080000001; 0x8000000080008081; 0x8000000000008009;
  0x000000000000008A; 0x0000000000000088; 0x0000000080008009; 0x000000008000000A;
  0x000000008000808B; 0x800000000000008B; 0x8000000000008089; 0x8000000000008003;
  0x8000000000008002; 0x8000000000000080; 0x000000000000800A; 0x800000008000000A;
  0x8000000080008081; 0x8000000000008080; 0x0000000080000001; 0x8000000080008008].

(** ** The unrolled rounds *)

Definition round1 (rc_i : Z) (a : list Z) : list Z :=
  match a with
  | [a0; a1; a2; a3; a4; a5; a6; a7; a8; a9; a10; a11; a12; a13; a14; a15; a16; a17; a18; a19; a20; a21; a22; a23; a24] =>
      let bc0 := a0 ⊕ a5 ⊕ a10 ⊕ a15 ⊕ a20 in
      let bc1 := a1 ⊕ a6 ⊕ a11 ⊕ a16 ⊕ a21 in
      let bc2 := a2 ⊕ a7 ⊕ a12 ⊕ a17 ⊕ a22 in
      let bc3 := a3 ⊕ a8 ⊕ a13 ⊕ a18 ⊕ a23 in
      let bc4 := a4 ⊕ a9 ⊕ a14 ⊕ a19 ⊕ a24 in
      let d0 := bc4 ⊕ rotl bc1 1 in
      let d1 := bc0 ⊕ rotl bc2 1 in
      let d2 := bc1 ⊕ rotl bc3 1 in
      let d3 := bc2 ⊕ rotl bc4 1 in
      let d4 := bc3 ⊕ rotl bc0 1 in
      let bc0 := a0 ⊕ d0 in
      let t := a6 ⊕ d1 in let bc1 := rotl t 44 in
      let t := a12 ⊕ d2 in let bc2 := rotl t 43 in
      let t := a18 ⊕ d3 in let bc3 := rotl t 21 in
      let t := a24 ⊕ d4 in let bc4 := rotl t 14 in
      let a0 := bc0 ⊕ (bc2 &^ bc1) ⊕ rc_i in
      let a6 := bc1 ⊕ (bc3 &^ bc2) in
      let a12 := bc2 ⊕ (bc4 &^ bc3) in
      let a18 := bc3 ⊕ (bc0 &^ bc4) in
      let a24 := bc4 ⊕ (bc1 &^ bc0) in
      let t := a10 ⊕ d0 in let bc2 := rotl t 3 in
      let t := a16 ⊕ d1 in let bc3 := rotl t 45 in
      let t := a22 ⊕ d2 in let bc4 := rotl t 61 in
      let t := a3 ⊕ d3 in let bc0 := rotl t 28 in
      let t := a9 ⊕ d4 in let bc1 := rotl t 20 in
      let a10 := bc0 ⊕ (bc2 &^ bc1) in
      let a16 := bc1 ⊕ (bc3 &^ bc2) in
      let a22 := bc2 ⊕ (bc4 &^ bc3) in
      let a3 := bc3 ⊕ (bc0 &^ bc4) in
      let a9 := bc4 ⊕ (bc1 &^ bc0) in
      let t := a20 ⊕ d0 in let bc4 := rotl t 18 in
      let t := a1 ⊕ d1 in let bc0 := rotl t 1 in
      let t := a7 ⊕ d2 in let bc1 := rotl t 6 in
      let t := a13 ⊕ d3 in let bc2 := rotl t 25 in
      let t := a19 ⊕ d4 in let bc3 := rotl t 8 in
      let a20 := bc0 ⊕ (bc2 &^ bc1) in
      let a1 := bc1 ⊕ (bc3 &^ bc2) in
      let a7 := bc2 ⊕ (bc4 &^ bc3) in
      let a13 := bc3 ⊕ (bc0 &^ bc4) in
      let a19 := bc4 ⊕ (bc1 &^ bc0) in
      let t := a5 ⊕ d0 in let bc1 := rotl t 36 in
      let t := a11 ⊕ d1 in let bc2 := rotl t 10 in
      let t := a17 ⊕ d2 in let bc3 := rotl t 15 in
      let t := a23 ⊕ d3 in let bc4 := rotl t 56 in
      let t := a4 ⊕ d4 in let bc0 := rotl t 27 in
      let a5 := bc0 ⊕ (bc2 &^ bc1) in
      let a11 := bc1 ⊕ (bc3 &^ bc2) in
      let a17 := bc2 ⊕ (bc4 &^ bc3) in
      let a23 := bc3 ⊕ (bc0 &^ bc4) in
      let a4 := bc4 ⊕ (bc1 &^ bc0) in
      let t := a15 ⊕ d0 in let bc3 := rotl t 41 in
      let t := a21 ⊕ d1 in let bc4 := rotl t 2 in
      let t := a2 ⊕ d2 in let bc0 := rotl t 62 in
      let t := a8 ⊕ d3 in let bc1 := rotl t 55 in
      let t := a14 ⊕ d4 in let bc2 := rotl t 39 in
      let a15 := bc0 ⊕ (bc2 &^ bc1) in
      let a21 := bc1 ⊕ (bc3 &^ bc2) in
      let a2 := bc2 ⊕ (bc4 &^ bc3) in
      let a8 := bc3 ⊕ (bc0 &^ bc4) in
      let a14 := bc4 ⊕ (bc1 &^ bc0) in
      [a0; a1; a2; a3; a4; a5; a6; a7; a8; a9; a10; a11; a12; a13; a14; a15; a16; a17; a18; a19; a20; a21; a22; a23; a24]
  | _ => a
  end.

Definition round2 (rc_i : Z) (a : list Z) : list Z :=
  match a with
  | [a0; a1; a2; a3; a4; a5; a6; a7; a8; a9; a10; a11; a12; a13; a14; a15; a16; a17; a18; a19; a20; a21; a22; a23; a24] =>
      let bc0 := a0 ⊕ a5 ⊕ a10 ⊕ a15 ⊕ a20 in
      let bc1 := a1 ⊕ a6 ⊕ a11 ⊕ a16 ⊕ a21 in
      let bc2 := a2 ⊕ a7 ⊕ a12 ⊕ a17 ⊕ a22 in
      let bc3 := a3 ⊕ a8 ⊕ a13 ⊕ a18 ⊕ a23 in
      let bc4 := a4 ⊕ a9 ⊕ a14 ⊕ a19 ⊕ a24 in
      let d0 := bc4 ⊕ rotl bc1 1 in
      let d1 := bc0 ⊕ rotl bc2 1 in
      let d2 := bc1 ⊕ rotl bc3 1 in
      let d3 := bc2 ⊕ rotl bc4 1 in
      let d4 := bc3 ⊕ rotl bc0 1 in
      let bc0 := a0 ⊕ d0 in
      let t := a16 ⊕ d1 in let bc1 := rotl t 44 in
      let t := a7 ⊕ d2 in let bc2 := rotl t 43 in
      let t := a23 ⊕ d3 in let bc3 := rotl t 21 in
      let t := a14 ⊕ d4 in let bc4 := rotl t 14 in
      let a0 := bc0 ⊕ (bc2 &^ bc1) ⊕ rc_i in
      let a16 := bc1 ⊕ (bc3 &^ bc2) in
      let a7 := bc2 ⊕ (bc4 &^ bc3) in
      let a23 := bc3 ⊕ (bc0 &^ bc4) in
      let a14 := bc4 ⊕ (bc1 &^ bc0) in
      let t := a20 ⊕ d0 in let bc2 := rotl t 3 in
      let t := a11 ⊕ d1 in let bc3 := rotl t 45 in
      let t := a2 ⊕ d2 in let bc4 := rotl t 61 in
      let t := a18 ⊕ d3 in let bc0 := rotl t 28 in
      let t := a9 ⊕ d4 in let bc1 := rotl t 20 in
      let a20 := bc0 ⊕ (bc2 &^ bc1) in
      let a11 := bc1 ⊕ (bc3 &^ bc2) in
      let a2 := bc2 ⊕ (bc4 &^ bc3) in
      let a18 := bc3 ⊕ (bc0 &^ bc4) in
      let a9 := bc4 ⊕ (bc1 &^ bc0) in
      let t := a15 ⊕ d0 in let bc4 := rotl t 18 in
      let t := a6 ⊕ d1 in let bc0 := rotl t 1 in
      let t := a22 ⊕ d2 in let bc1 := rotl t 6 in
      let t := a13 ⊕ d3 in let bc2 := rotl t 25 in
      let t := a4 ⊕ d4 in let bc3 := rotl t 8 in
      let a15 := bc0 ⊕ (bc2 &^ bc1) in
      let a6 := bc1 ⊕ (bc3 &^ bc2) in
      let a22 := bc2 ⊕ (bc4 &^ bc3) in
      let a13 := bc3 ⊕ (bc0 &^ bc4) in
      let a4 := bc4 ⊕ (bc1 &^ bc0) in
      let t := a10 ⊕ d0 in let bc1 := rotl t 36 in
      let t := a1 ⊕ d1 in let bc2 := rotl t 10 in
      let t := a17 ⊕ d2 in let bc3 := rotl t 15 in
      let t := a8 ⊕ d3 in let bc4 := rotl t 56 in
      let t := a24 ⊕ d4 in let bc0 := rotl t 27 in
      let a10 := bc0 ⊕ (bc2 &^ bc1) in
      let a1 := bc1 ⊕ (bc3 &^ bc2) in
      let a17 := bc2 ⊕ (bc4 &^ bc3) in
      let a8 := bc3 ⊕ (bc0 &^ bc4) in
      let a24 := bc4 ⊕ (bc1 &^ bc0) in
      let t := a5 ⊕ d0 in let bc3 := rotl t 41 in
      let t := a21 ⊕ d1 in let bc4 := rotl t 2 in
      let t := a12 ⊕ d2 in let bc0 := rotl t 62 in
      let t := a3 ⊕ d3 in let bc1 := rotl t 55 in
      let t := a19 ⊕ d4 in let bc2 := rotl t 39 in
      let a5 := bc0 ⊕ (bc2 &^ bc1) in
      let a21 := bc1 ⊕ (bc3 &^ bc2) in
      let a12 := bc2 ⊕ (bc4 &^ bc3) in
      let a3 := bc3 ⊕ (bc0 &^ bc4) in
      let a19 := bc4 ⊕ (bc1 &^ bc0) in
      [a0; a1; a2; a3; a4; a5; a6; a7; a8; a9; a10; a11; a12; a13; a14; a15; a16; a17; a18; a19; a20; a21; a22; a23; a24]
  | _ => a
  end.

Definition round3 (rc_i : Z) (a : list Z) : list Z :=
  match a with
  | [a0; a1; a2; a3; a4; a5; a6; a7; a8; a9; a10; a11; a12; a13; a14; a15; a16; a17; a18; a19; a20; a21; a22; a23; a24] =>
      let bc0 := a0 ⊕ a5 ⊕ a10 ⊕ a15 ⊕ a20 in
      let bc1 := a1 ⊕ a6 ⊕ a11 ⊕ a16 ⊕ a21 in
      let bc2 := a2 ⊕ a7 ⊕ a12 ⊕ a17 ⊕ a22 in
      let bc3 := a3 ⊕ a8 ⊕ a13 ⊕ a18 ⊕ a23 in
      let bc4 := a4 ⊕ a9 ⊕ a14 ⊕ a19 ⊕ a24 in
      let d0 := bc4 ⊕ rotl bc1 1 in
      let d1 := bc0 ⊕ rotl bc2 1 in
      let d2 := bc1 ⊕ rotl bc3 1 in
      let d3 := bc2 ⊕ rotl bc4 1 in
      let d4 := bc3 ⊕ rotl bc0 1 in
      let bc0 := a0 ⊕ d0 in
      let t := a11 ⊕ d1 in let bc1 := rotl t 44 in
      let t := a22 ⊕ d2 in let bc2 := rotl t 43 in
      let t := a8 ⊕ d3 in let bc3 := rotl t 21 in
      let t := a19 ⊕ d4 in let bc4 := rotl t 14 in
      let a0 := bc0 ⊕ (bc2 &^ bc1) ⊕ rc_i in
      let a11 := bc1 ⊕ (bc3 &^ bc2) in
      let a22 := bc2 ⊕ (bc4 &^ bc3) in
      let a8 := bc3 ⊕ (bc0 &^ bc4) in
      let a19 := bc4 ⊕ (bc1 &^ bc0) in
      let t := a15 ⊕ d0 in let bc2 := rotl t 3 in
      let t := a1 ⊕ d1 in let bc3 := rotl t 45 in
      let t := a12 ⊕ d2 in let bc4 := rotl t 61 in
      let t := a23 ⊕ d3 in let bc0 := rotl t 28 in
      let t := a9 ⊕ d4 in let bc1 := rotl t 20 in
      let a15 := bc0 ⊕ (bc2 &^ bc1) in
      let a1 := bc1 ⊕ (bc3 &^ bc2) in
      let a12 := bc2 ⊕ (bc4 &^ bc3) in
      let a23 := bc3 ⊕ (bc0 &^ bc4) in
      let a9 := bc4 ⊕ (bc1 &^ bc0) in
      let t := a5 ⊕ d0 in let bc4 := rotl t 18 in
      let t := a16 ⊕ d1 in let bc0 := rotl t 1 in
      let t := a2 ⊕ d2 in let bc1 := rotl t 6 in
      let t := a13 ⊕ d3 in let bc2 := rotl t 25 in
      let t := a24 ⊕ d4 in let bc3 := rotl t 8 in
      let a5 := bc0 ⊕ (bc2 &^ bc1) in
      let a16 := bc1 ⊕ (bc3 &^ bc2) in
      let a2 := bc2 ⊕ (bc4 &^ bc3) in
      let a13 := bc3 ⊕ (bc0 &^ bc4) in
      let a24 := bc4 ⊕ (bc1 &^ bc0) in
      let t := a20 ⊕ d0 in let bc1 := rotl t 36 in
      let t := a6 ⊕ d1 in let bc2 := rotl t 10 in
      let t := a17 ⊕ d2 in let bc3 := rotl t 15 in
      let t := a3 ⊕ d3 in let bc4 := rotl t 56 in
      let t := a14 ⊕ d4 in let bc0 := rotl t 27 in
      let a20 := bc0 ⊕ (bc2 &^ bc1) in
      let a6 := bc1 ⊕ (bc3 &^ bc2) in
      let a17 := bc2 ⊕ (bc4 &^ bc3) in
      let a3 := bc3 ⊕ (bc0 &^ bc4) in
      let a14 := bc4 ⊕ (bc1 &^ bc0) in
      let t := a10 ⊕ d0 in let bc3 := rotl t 41 in
      let t := a21 ⊕ d1 in let bc4 := rotl t 2 in
      let t := a7 ⊕ d2 in let bc0 := rotl t 62 in
      let t := a18 ⊕ d3 in let bc1 := rotl t 55 in
      let t := a4 ⊕ d4 in let bc2 := rotl t 39 in
      let a10 := bc0 ⊕ (bc2 &^ bc1) in
      let a21 := bc1 ⊕ (bc3 &^ bc2) in
      let a7 := bc2 ⊕ (bc4 &^ bc3) in
      let a18 := bc3 ⊕ (bc0 &^ bc4) in
      let a4 := bc4 ⊕ (bc1 &^ bc0) in
      [a0; a1; a2; a3; a4; a5; a6; a7; a8; a9; a10; a11; a12; a13; a14; a15; a16; a17; a18; a19; a20; a21; a22; a23; a24]
  | _ => a
  end.

Definition round4 (rc_i : Z) (a : list Z) : list Z :=
  match a with
  | [a0; a1; a2; a3; a4; a5; a6; a7; a8; a9; a10; a11; a12; a13; a14; a15; a16; a17; a18; a19; a20; a21; a22; a23; a24] =>
      let bc0 := a0 ⊕ a5 ⊕ a10 ⊕ a15 ⊕ a20 in
      let bc1 := a1 ⊕ a6 ⊕ a11 ⊕ a16 ⊕ a21 in
      let bc2 := a2 ⊕ a7 ⊕ a12 ⊕ a17 ⊕ a22 in
      let bc3 := a3 ⊕ a8 ⊕ a13 ⊕ a18 ⊕ a23 in
      let bc4 := a4 ⊕ a9 ⊕ a14 ⊕ a19 ⊕ a24 in
      let d0 := bc4 ⊕ rotl bc1 1 in
      let d1 := bc0 ⊕ rotl bc2 1 in
      let d2 := bc1 ⊕ rotl bc3 1 in
      let d3 := bc2 ⊕ rotl bc4 1 in
      let d4 := bc3 ⊕ rotl bc0 1 in
      let bc0 := a0 ⊕ d0 in
      let t := a1 ⊕ d1 in let bc1 := rotl t 44 in
      let t := a2 ⊕ d2 in let bc2 := rotl t 43 in
      let t := a3 ⊕ d3 in let bc3 := rotl t 21 in
      let t := a4 ⊕ d4 in let bc4 := rotl t 14 in
      let a0 := bc0 ⊕ (bc2 &^ bc1) ⊕ rc_i in
      let a1 := bc1 ⊕ (bc3 &^ bc2) in
      let a2 := bc2 ⊕ (bc4 &^ bc3) in
      let a3 := bc3 ⊕ (bc0 &^ bc4) in
      let a4 := bc4 ⊕ (bc1 &^ bc0) in
      let t := a5 ⊕ d0 in let bc2 := rotl t 3 in
      let t := a6 ⊕ d1 in let bc3 := rotl t 45 in
      let t := a7 ⊕ d2 in let bc4 := rotl t 61 in
      let t := a8 ⊕ d3 in let bc0 := rotl t 28 in
      let t := a9 ⊕ d4 in let bc1 := rotl t 20 in
      let a5 := bc0 ⊕ (bc2 &^ bc1) in
      let a6 := bc1 ⊕ (bc3 &^ bc2) in
      let a7 := bc2 ⊕ (bc4 &^ bc3) in
      let a8 := bc3 ⊕ (bc0 &^ bc4) in
      let a9 := bc4 ⊕ (bc1 &^ bc0) in
      let t := a10 ⊕ d0 in let bc4 := rotl t 18 in
      let t := a11 ⊕ d1 in let bc0 := rotl t 1 in
      let t := a12 ⊕ d2 in let bc1 := rotl t 6 in
      let t := a13 ⊕ d3 in let bc2 := rotl t 25 in
      let t := a14 ⊕ d4 in let bc3 := rotl t 8 in
      let a10 := bc0 ⊕ (bc2 &^ bc1) in
      let a11 := bc1 ⊕ (bc3 &^ bc2) in
      let a12 := bc2 ⊕ (bc4 &^ bc3) in
      let a13 := bc3 ⊕ (bc0 &^ bc4) in
      let a14 := bc4 ⊕ (bc1 &^ bc0) in
      let t := a15 ⊕ d0 in let bc1 := rotl t 36 in
      let t := a16 ⊕ d1 in let bc2 := rotl t 10 in
      let t := a17 ⊕ d2 in let bc3 := rotl t 15 in
      let t := a18 ⊕ d3 in let bc4 := rotl t 56 in
      let t := a19 ⊕ d4 in let bc0 := rotl t 27 in
      let a15 := bc0 ⊕ (bc2 &^ bc1) in
      let a16 := bc1 ⊕ (bc3 &^ bc2) in
      let a17 := bc2 ⊕ (bc4 &^ bc3) in
      let a18 := bc3 ⊕ (bc0 &^ bc4) in
      let a19 := bc4 ⊕ (bc1 &^ bc0) in
      let t := a20 ⊕ d0 in let bc3 := rotl t 41 in
      let t := a21 ⊕ d1 in let bc4 := rotl t 2 in
      let t := a22 ⊕ d2 in let bc0 := rotl t 62 in
      let t := a23 ⊕ d3 in let bc1 := rotl t 55 in
      let t := a24 ⊕ d4 in let bc2 := rotl t 39 in
      let a20 := bc0 ⊕ (bc2 &^ bc1) in
      let a21 := bc1 ⊕ (bc3 &^ bc2) in
      let a22 := bc2 ⊕ (bc4 &^ bc3) in
      let a23 := bc3 ⊕ (bc0 &^ bc4) in
      let a24 := bc4 ⊕ (bc1 &^ bc0) in
      [a0; a1; a2; a3; a4; a5; a6; a7; a8; a9; a10; a11; a12; a13; a14; a15; a16; a17; a18; a19; a20; a21; a22; a23; a24]
  | _ => a
  end.

(** One iteration of the loop, and the loop. *)
Definition rounds (a : list Z) (i : nat) : list Z :=
  round4 (nth (i + 3) rc 0) (round3 (nth (i + 2) rc 0) (round2 (nth (i + 1) rc 0) (round1 (nth i rc 0) a))).

Definition keccakF1600 (a : list Z) : list Z := fold_left rounds [0; 4; 8; 12; 16; 20]%nat a.

End Keccakf.
