(* ===== verification/KeccakfOk.v ===== *)
(** The unrolled permutation of crypto/sha3/keccakf.go is the one of FIPS 202: four rounds
    leave every lane where it was, and in between the lanes are where [place] puts them. *)
From S2P Require Import Prelude Keccakf.
Import Keccakf.

#[local] Notation "x ⊕ y" := (Z.lxor x y) (at level 50, left associativity).

(** ** The permutation as FIPS 202 states it *)

Module Fips202.

(** [A[x, y]], coordinates modulo 5, and the state with a lane for each pair. *)
Definition lane (A : list Z) (x y : nat) : Z := nth (x mod 5 + 5 * (y mod 5)) A 0.
Definition lanes (f : nat -> nat -> Z) : list Z := map (fun i => f (i mod 5) (i / 5))%nat (seq 0 25).

Definition theta (A : list Z) : list Z :=
  let C x := lane A x 0 ⊕ lane A x 1 ⊕ lane A x 2 ⊕ lane A x 3 ⊕ lane A x 4 in
  let D x := C (x + 4)%nat ⊕ rotl (C (x + 1)%nat) 1 in
  lanes (fun x y => lane A x y ⊕ D x).

(** The rotation offsets, along the walk from (1, 0). *)
Fixpoint walk (n t x y : nat) (X Y : nat) : Z :=
  match n with
  | O => 0
  | S n =>
      if bool_decide (x = X /\ y = Y) then Z.of_nat ((t + 1) * (t + 2) / 2 mod 64)
      else walk n (S t) y ((2 * x + 3 * y) mod 5) X Y
  end.
Definition offset (x y : nat) : Z := walk 24 0 1 0 x y.

Definition rho (A : list Z) : list Z :=
  lanes (fun x y => if offset x y =? 0 then lane A x y else rotl (lane A x y) (offset x y)).

Definition pi (A : list Z) : list Z := lanes (fun x y => lane A (x + 3 * y) x).

(** [A[x, y]] xor (not [A[x+1, y]] and [A[x+2, y]]). *)
Definition chi (A : list Z) : list Z :=
  lanes (fun x y => lane A x y ⊕ Z.ldiff (lane A (x + 2) y) (lane A (x + 1) y)).

(** The round constants, from the shift register with feedback [x^8 + x^6 + x^5 + x^4 + 1]. *)
Definition shift (R : list bool) : list bool :=
  match R with
  | [r0; r1; r2; r3; r4; r5; r6; r7] => [r7; r0; r1; r2; xorb r3 r7; xorb r4 r7; xorb r5 r7; r6]
  | _ => R
  end.
Definition rc_bit (t : nat) : bool :=
  default false (head (Nat.iter (t mod 255) shift [true; false; false; false; false; false; false; false])).
Definition RC (i : nat) : Z :=
  fold_left (fun z j => if rc_bit (j + 7 * i) then Z.setbit z (2 ^ Z.of_nat j - 1) else z) (seq 0 7) 0.

Definition iota (c : Z) (A : list Z) : list Z :=
  match A with a :: A => a ⊕ c :: A | [] => [] end.

Definition round (c : Z) (A : list Z) : list Z := iota c (chi (pi (rho (theta A)))).
Definition keccakf (A : list Z) : list Z := fold_left (fun A i => round (RC i) A) (seq 0 24) A.

End Fips202.

(** ** Rounds in place *)

(** Where the code keeps the lanes after one more round: [A[x, y]] in row [x + 2y] of its
    column. *)
Definition place (A : list Z) : list Z := Fips202.lanes (fun x r => Fips202.lane A x (3 * (r + 4 * x))).

(** Sums of a column in any order. *)
Lemma xor_perm (l l' : list Z) : l ≡ₚ l' -> foldr Z.lxor 0 l = foldr Z.lxor 0 l'.
Proof.
  induction 1 as [|x l l' _ IH|x y l|l l' l'' _ IH _ IH']; cbn [foldr]; [done|by rewrite IH| |by rewrite IH].
  rewrite <- !Z.lxor_assoc. f_equal. apply Z.lxor_comm.
Qed.

Lemma xor_column a b c d e : a ⊕ b ⊕ c ⊕ d ⊕ e = foldr Z.lxor 0 [a; b; c; d; e].
Proof. cbn [foldr]. by rewrite Z.lxor_0_r, !Z.lxor_assoc. Qed.

Ltac column a b c d e a' b' c' d' e' :=
  replace (a ⊕ b ⊕ c ⊕ d ⊕ e) with (a' ⊕ b' ⊕ c' ⊕ d' ⊕ e')
    by (rewrite !xor_column; apply xor_perm; solve_Permutation).

Section rounds.
Variables (c a0 a1 a2 a3 a4 a5 a6 a7 a8 a9 a10 a11 a12 a13 a14 a15 a16 a17 a18 a19 a20 a21 a22 a23 a24 : Z).
Let A : list Z :=
  [a0; a1; a2; a3; a4; a5; a6; a7; a8; a9; a10; a11; a12; a13; a14; a15; a16; a17; a18; a19; a20; a21; a22; a23; a24].

Lemma round1_lanes : round1 c A = place (Fips202.round c A).
Proof. subst A. cbv -[Z.lxor Z.ldiff rotl]. reflexivity. Qed.

Lemma round2_lanes : round2 c (place A) = place (place (Fips202.round c A)).
Proof.
  subst A. cbv -[Z.lxor Z.ldiff rotl].
  column a0 a15 a5 a20 a10 a0 a5 a10 a15 a20.
  column a11 a1 a16 a6 a21 a1 a6 a11 a16 a21.
  column a22 a12 a2 a17 a7 a2 a7 a12 a17 a22.
  column a8 a23 a13 a3 a18 a3 a8 a13 a18 a23.
  column a19 a9 a24 a14 a4 a4 a9 a14 a19 a24.
  reflexivity.
Qed.

Lemma round3_lanes : round3 c (place (place A)) = place (place (place (Fips202.round c A))).
Proof.
  subst A. cbv -[Z.lxor Z.ldiff rotl].
  column a0 a20 a15 a10 a5 a0 a5 a10 a15 a20.
  column a16 a11 a6 a1 a21 a1 a6 a11 a16 a21.
  column a7 a2 a22 a17 a12 a2 a7 a12 a17 a22.
  column a23 a18 a13 a8 a3 a3 a8 a13 a18 a23.
  column a14 a9 a4 a24 a19 a4 a9 a14 a19 a24.
  reflexivity.
Qed.

Lemma round4_lanes : round4 c (place (place (place A))) = Fips202.round c A.
Proof.
  subst A. cbv -[Z.lxor Z.ldiff rotl].
  column a0 a10 a20 a5 a15 a0 a5 a10 a15 a20.
  column a6 a16 a1 a11 a21 a1 a6 a11 a16 a21.
  column a12 a22 a7 a17 a2 a2 a7 a12 a17 a22.
  column a18 a3 a13 a23 a8 a3 a8 a13 a18 a23.
  column a24 a9 a19 a4 a14 a4 a9 a14 a19 a24.
  reflexivity.
Qed.
End rounds.

Lemma lanes_25 (A : list Z) : length A = 25%nat -> exists f, A = map f (seq 0 25).
Proof. intros H. exists (fun i => nth i A 0). by do 26 (destruct A as [|? A]; try discriminate H). Qed.

Lemma length_round c A : length A = 25%nat -> length (Fips202.round c A) = 25%nat.
Proof. done. Qed.

(** Four rounds in place are four rounds. *)
Lemma rounds_ok A i : length A = 25%nat ->
  rounds A i = fold_left (fun A c => Fips202.round c A)
    [nth i rc 0; nth (i + 1)%nat rc 0; nth (i + 2)%nat rc 0; nth (i + 3)%nat rc 0] A.
Proof.
  intros H. unfold rounds. cbn [fold_left]. destruct (lanes_25 A H) as [f ->].
  unfold seq, map at 1. rewrite round1_lanes. set (B := Fips202.round _ _).
  destruct (lanes_25 B eq_refl) as [g ->]. unfold seq, map at 1. rewrite round2_lanes. set (C := Fips202.round _ _).
  destruct (lanes_25 C eq_refl) as [h ->]. unfold seq, map at 1. rewrite round3_lanes. set (D := Fips202.round _ _).
  destruct (lanes_25 D eq_refl) as [k ->]. unfold seq, map at 1. by rewrite round4_lanes.
Qed.

Lemma rc_ok : rc = map Fips202.RC (seq 0 24).
Proof. vm_compute. reflexivity. Qed.

(** Rotation moves bit [i - n] to [i]. *)
Lemma rotl_testbit t n i : 0 <= t < 2 ^ 64 -> 0 <= n < 64 -> 0 <= i < 64 ->
  Z.testbit (rotl t n) i = Z.testbit t ((i - n) mod 64).
Proof.
  intros Ht Hn Hi. unfold rotl, u64. rewrite Z.lor_spec, Z.mod_pow2_bits_low, Z.shiftl_spec, Z.shiftr_spec by lia.
  destruct (Z.ltb_spec i n).
  - rewrite Z.testbit_neg_r by lia. rewrite orb_false_l. f_equal.
    replace ((i - n) mod 64) with (i - n + 64); [lia|]. apply Zmod_unique with (-1); lia.
  - rewrite (Z.mod_small (i - n)) by lia. replace (Z.testbit t (i + (64 - n))) with false; [by rewrite orb_false_r|].
    symmetry. destruct (Z.eq_dec t 0) as [->|]; [apply Z.testbit_0_l|]. apply Z.bits_above_log2; [lia|].
    apply Z.log2_lt_pow2; [lia|]. apply Z.lt_le_trans with (2 ^ 64); [lia|]. apply Z.pow_le_mono_r; lia.
Qed.

Lemma length_fips l A : length A = 25%nat -> length (fold_left (fun A c => Fips202.round c A) l A) = 25%nat.
Proof. revert A. induction l as [|c l IH]; intros A H; [done|]. cbn [fold_left]. by apply IH. Qed.

(** The first iterations of the loop. *)
Lemma iterations_ok A n : length A = 25%nat -> (n <= 6)%nat ->
  fold_left rounds (take n [0; 4; 8; 12; 16; 20]%nat) A = fold_left (fun A i => Fips202.round (Fips202.RC i) A) (seq 0 (4 * n)) A.
Proof.
  intros HA Hn. transitivity (fold_left (fun A c => Fips202.round c A) (map Fips202.RC (seq 0 (4 * n))) A).
  2:{ generalize (seq 0 (4 * n)). intros l. revert A HA. induction l as [|i l IH]; intros A HA; [done|]. by apply IH. }
  do 7 (destruct n as [|n]; [cbn [take fold_left]; rewrite ?rounds_ok by (repeat (apply length_fips || rewrite rounds_ok); done);
    rewrite ?rc_ok, <- ?fold_left_app; reflexivity|]). lia.
Qed.

Lemma keccakF1600_fips A : length A = 25%nat -> keccakF1600 A = Fips202.keccakf A.
Proof. intros H. exact (iterations_ok A 6 H (le_n 6)). Qed.

Lemma length_keccakf A : length A = 25%nat -> length (Fips202.keccakf A) = 25%nat.
Proof.
  unfold Fips202.keccakf. generalize (seq 0 24). intros l. revert A. induction l as [|i l IH]; intros A H; [done|]. by apply IH.
Qed.

(** ** Lanes stay 64-bit words *)

Definition word (x : Z) : Prop := 0 <= x < 2 ^ 64.

Lemma lane_bits x : 0 <= x -> (forall i, 64 <= i -> Z.testbit x i = false) -> word x.
Proof.
  intros H0 H. split; [done|]. destruct (Z.eq_dec x 0) as [->|]; [done|]. apply Z.log2_lt_pow2; [lia|].
  destruct (Z.le_gt_cases 64 (Z.log2 x)) as [Hl|]; [|lia]. pose proof (H _ Hl) as E. rewrite Z.bit_log2 in E by lia. done.
Qed.

Lemma bits_lane x i : word x -> 64 <= i -> Z.testbit x i = false.
Proof.
  intros [H0 H] Hi. destruct (Z.eq_dec x 0) as [->|]; [apply Z.testbit_0_l|]. apply Z.bits_above_log2; [lia|].
  apply Z.log2_lt_pow2; [lia|]. apply Z.lt_le_trans with (2 ^ 64); [done|]. apply Z.pow_le_mono_r; lia.
Qed.

Lemma lane_lxor x y : word x -> word y -> word (x ⊕ y).
Proof.
  intros Hx Hy. apply lane_bits; [apply Z.lxor_nonneg; destruct Hx, Hy; lia|]. intros i Hi.
  by rewrite Z.lxor_spec, !bits_lane.
Qed.

Lemma lane_ldiff x y : word x -> word (Z.ldiff x y).
Proof.
  intros Hx. apply lane_bits; [apply Z.ldiff_nonneg; destruct Hx; by left|]. intros i Hi. by rewrite Z.ldiff_spec, bits_lane.
Qed.

Lemma lane_rotl x n : 0 <= n < 64 -> word x -> word (rotl x n).
Proof.
  intros Hn Hx. apply lane_bits.
  - apply Z.lor_nonneg. split; [apply Z.mod_pos_bound; lia|]. apply Z.shiftr_nonneg. by destruct Hx.
  - intros i Hi. unfold rotl, u64. rewrite Z.lor_spec, Z.mod_pow2_bits_high, Z.shiftr_spec by lia. apply bits_lane; [done|lia].
Qed.

Lemma lanes_words f : (forall x y, (x < 5)%nat -> (y < 5)%nat -> word (f x y)) -> Forall word (Fips202.lanes f).
Proof.
  intros H. unfold Fips202.lanes. apply Forall_map, Forall_forall. intros i Hi%elem_of_seq.
  apply H; [by apply Nat.mod_upper_bound|]. apply Nat.Div0.div_lt_upper_bound. lia.
Qed.

Lemma lane_word A x y : Forall word A -> word (Fips202.lane A x y).
Proof.
  intros H. unfold Fips202.lane. set (i := (_ + _)%nat). destruct (nth_in_or_default i A 0) as [Hi| ->]; [|by vm_compute].
  rewrite List.Forall_forall in H. by apply H.
Qed.

Lemma lanes_round c A : word c -> Forall word A -> Forall word (Fips202.round c A).
Proof.
  intros Hc HA. unfold Fips202.round.
  assert (Forall word (Fips202.theta A)) as H1.
  { apply lanes_words. intros x y _ _. repeat (apply lane_lxor || apply lane_rotl || apply lane_word); done. }
  assert (Forall word (Fips202.rho (Fips202.theta A))) as H2.
  { apply lanes_words. intros x y Hx Hy. destruct (_ =? 0); [by apply lane_word|]. apply lane_rotl; [|by apply lane_word].
    do 5 (destruct x as [|x]; [do 5 (destruct y as [|y]; [vm_compute; intuition congruence|]); lia|]). lia. }
  assert (Forall word (Fips202.pi (Fips202.rho (Fips202.theta A)))) as H3 by (apply lanes_words; intros x y _ _; by apply lane_word).
  assert (Forall word (Fips202.chi (Fips202.pi (Fips202.rho (Fips202.theta A))))) as H4.
  { apply lanes_words. intros x y _ _. apply lane_lxor; [by apply lane_word|]. apply lane_ldiff. by apply lane_word. }
  destruct H4 as [|x l Hx Hl]; [constructor|]. constructor; [by apply lane_lxor|done].
Qed.

(** C10: the unrolled permutation that works in place is the Keccak permutation of FIPS 202:
    every iteration of its loop is four rounds of theta, rho, pi, chi and iota, with the
    rotation offsets of the walk and the round constants of the shift register, and the
    lanes stay 64-bit words. *)
Theorem keccakF1600_correct (a : list Z) (Ha : length a = 25%nat) (Hw : Forall word a) :
  keccakF1600 a = Fips202.keccakf a /\ Forall word (keccakF1600 a) /\
  forall n, (n <= 6)%nat -> fold_left rounds (take n [0; 4; 8; 12; 16; 20]%nat) a =
    fold_left (fun A i => Fips202.round (Fips202.RC i) A) (seq 0 (4 * n)) a.
Proof.
  split; [by apply keccakF1600_fips|]. split; [|intros n Hn; by apply iterations_ok].
  rewrite keccakF1600_fips by done. clear Ha. revert a Hw. unfold Fips202.keccakf.
  assert (Forall (fun i => word (Fips202.RC i)) (seq 0 24)) as H by (apply (bool_decide_unpack _); vm_compute; exact I).
  induction H as [|i l Hi _ IH]; intros a Hw; [done|]. cbn [fold_left]. apply IH. by apply lanes_round.
Qed.

Lemma keccakF1600_correct_witness : keccakF1600 (replicate 25 1) = Fips202.keccakf (replicate 25 1).
Proof.
  refine (proj1 (keccakF1600_correct (replicate 25 1) eq_refl _)). apply Forall_replicate. unfold word. lia.
Defined.
