(* ===== verification/Sha3.v ===== *)
(** The sponge of crypto/sha3 (sha3.go, hashes.go, shake.go, xor_generic.go) and the hash
    functions of crypto/crypto.go on top of it.  The buffer of a sponge is a slice of its own
    array [storage]: its offset and its length. *)
From S2P Require Import Prelude GoBig Keccakf.

Module Sha3.
Import Keccakf.

Inductive spongeDirection := spongeAbsorbing | spongeSqueezing.

Definition maxRate : Z := 168.

Record state := {
  a : list Z;
  storage : bytes;
  buf : option (Z * Z);
  rate : Z;
  dsbyte : Z;
  outputLen : Z;
  direction : spongeDirection;
}.

Definition with_a (d : state) (x : list Z) : state :=
  Build_state x (storage d) (buf d) (rate d) (dsbyte d) (outputLen d) (direction d).
Definition with_storage (d : state) (x : bytes) : state :=
  Build_state (a d) x (buf d) (rate d) (dsbyte d) (outputLen d) (direction d).
Definition with_buf (d : state) (off n : Z) : state :=
  Build_state (a d) (storage d) (Some (off, n)) (rate d) (dsbyte d) (outputLen d) (direction d).
Definition with_direction (d : state) (x : spongeDirection) : state :=
  Build_state (a d) (storage d) (buf d) (rate d) (dsbyte d) (outputLen d) x.

Definition New (rate dsbyte outputLen : Z) : state :=
  Build_state (replicate 25 0) (zeros maxRate) None rate dsbyte outputLen spongeAbsorbing.

Definition NewKeccak256 : state := New 136 0x01 32.
Definition NewKeccak512 : state := New 72 0x01 64.
Definition New224 : state := New 144 0x06 28.
Definition New256 : state := New 136 0x06 32.
Definition New384 : state := New 104 0x06 48.
Definition New512 : state := New 72 0x06 64.
Definition NewShake128 : state := New 168 0x1f 0.
Definition NewShake256 : state := New 136 0x1f 0.

(** [len(d.buf)], [cap(d.buf)] and the bytes of [d.buf]. *)
Definition buf_off (d : state) : Z := from_option fst 0 (buf d).
Definition buf_len (d : state) : Z := from_option snd 0 (buf d).
Definition buf_cap (d : state) : Z := from_option (fun b => maxRate - b.1) 0 (buf d).
Definition buf_bytes (d : state) : bytes := ztake (buf_len d) (zdrop (buf_off d) (storage d)).

(** [binary.LittleEndian]. *)
Definition Uint64 (b : bytes) : Z := Big.SetBytes (rev (ztake 8 b)).
Definition PutUint64 (v : Z) : bytes := rev (Big.be_fixed 8 v).

Fixpoint xor_words (n : nat) (a : list Z) (b : bytes) : list Z :=
  match n, a with
  | S n, x :: a => Z.lxor x (Uint64 b) :: xor_words n a (zdrop 8 b)
  | _, _ => a
  end.
Definition xorInGeneric (a : list Z) (b : bytes) : list Z := xor_words (length b / 8) a b.

Definition copyOutGeneric (a : list Z) (b : bytes) : bytes :=
  let n := (length b / 8)%nat in concat (map PutUint64 (take n a)) ++ drop (8 * n) b.

Definition Reset (d : state) : state :=
  with_buf (with_direction (with_a d (replicate 25 0)) spongeAbsorbing) 0 0.

(** [clone] slices the copied array again; slicing below its start panics. *)
Definition clone (d : state) : option state :=
  match direction d with
  | spongeAbsorbing => Some (with_buf d 0 (buf_len d))
  | spongeSqueezing =>
      let lo := rate d - buf_cap d in
      if (0 <=? lo) && (lo <=? rate d) then Some (with_buf d lo (rate d - lo)) else None
  end.

(** [d.buf = d.storage[:d.rate]; copyOut(d, d.buf)]. *)
Definition refill (d : state) : state :=
  let d := with_buf d 0 (rate d) in
  with_storage d (copyOutGeneric (a d) (buf_bytes d) ++ zdrop (rate d) (storage d)).

Definition permute (d : state) : state :=
  match direction d with
  | spongeAbsorbing => with_a (with_buf d 0 0) (keccakF1600 (xorInGeneric (a d) (buf_bytes d)))
  | spongeSqueezing => refill (with_a d (keccakF1600 (a d)))
  end.

(** [append(d.buf, p...)] within the array; growing out of it is not modelled. *)
Inductive grown := outgrown.
Definition append (d : state) (p : bytes) : outcome grown state :=
  let e := buf_off d + buf_len d in
  if e + zlen p <=? maxRate then
    Done (with_buf (with_storage d (ztake e (storage d) ++ p ++ zdrop (e + zlen p) (storage d)))
            (buf_off d) (buf_len d + zlen p))
  else Error outgrown.

Definition not_nil (d : state) : state :=
  match buf d with Some _ => d | None => with_buf d 0 0 end.

Definition padAndPermute (d : state) : outcome grown state :=
  d ← append (not_nil d) [dsbyte d];
  let zerosStart := buf_len d in
  let s := ztake zerosStart (storage d) ++ zeros (rate d - zerosStart) ++ zdrop (rate d) (storage d) in
  let s := alter (fun x => Z.lxor x 0x80) (Z.to_nat (rate d - 1)) s in
  let d := permute (with_buf (with_storage d s) 0 (rate d)) in
  Done (refill (with_direction d spongeSqueezing)).

Fixpoint write_loop (fuel : nat) (p : bytes) (d : state) : outcome grown state :=
  match p, fuel with
  | [], _ => Done d
  | _, O => NoFuel
  | _, S fuel =>
      if (buf_len d =? 0) && (rate d <=? zlen p) then
        write_loop fuel (zdrop (rate d) p) (with_a d (keccakF1600 (xorInGeneric (a d) (ztake (rate d) p))))
      else
        let todo := Z.min (rate d - buf_len d) (zlen p) in
        d ← append d (ztake todo p);
        write_loop fuel (zdrop todo p) (if buf_len d =? rate d then permute d else d)
  end.

Definition Write (p : bytes) (d : state) : outcome grown state :=
  match direction d with
  | spongeAbsorbing => write_loop (length p) p (not_nil d)
  | spongeSqueezing => Panic
  end.

(** The bytes read into [out], of which [n] are missing. *)
Fixpoint read_loop (fuel : nat) (n : Z) (out : bytes) (d : state) : outcome grown (bytes * state) :=
  if n <=? 0 then Done (out, d)
  else match fuel with
  | O => NoFuel
  | S fuel =>
      let k := Z.min n (buf_len d) in
      let out := out ++ ztake k (buf_bytes d) in
      let d := with_buf d (buf_off d + k) (buf_len d - k) in
      read_loop fuel (n - k) out (if buf_len d =? 0 then permute d else d)
  end.

Definition Read (n : Z) (d : state) : outcome grown (bytes * state) :=
  d ← match direction d with spongeAbsorbing => padAndPermute d | spongeSqueezing => Done d end;
  read_loop (Z.to_nat n) n [] d.

Definition Sum (pre : bytes) (d : state) : outcome grown bytes :=
  match clone d with
  | None => Panic
  | Some dup => '(h, _) ← Read (outputLen dup) dup; Done (pre ++ h)
  end.

(** crypto/crypto.go *)
Fixpoint write_all (data : list bytes) (d : state) : outcome grown state :=
  match data with
  | [] => Done d
  | b :: data => d ← Write b d; write_all data d
  end.
Definition Keccak256 (data : list bytes) : outcome grown bytes :=
  d ← write_all data NewKeccak256; Sum [] d.
Definition Keccak512 (data : list bytes) : outcome grown bytes :=
  d ← write_all data NewKeccak512; Sum [] d.

(** hashes.go, shake.go: the digest of one byte string. *)
Definition digest (d : state) (data : bytes) : outcome grown bytes := d ← Write data d; Sum [] d.
Definition ShakeSum128 (n : Z) (data : bytes) : outcome grown bytes :=
  d ← Write data NewShake128; '(out, _) ← Read n d; Done out.
Definition ShakeSum256 (n : Z) (data : bytes) : outcome grown bytes :=
  d ← Write data NewShake256; '(out, _) ← Read n d; Done out.

End Sha3.
