(* ===== verification/Sha3Ok.v ===== *)
(** The sponge of crypto/sha3 absorbs and squeezes what FIPS 202 says, however the message
    is cut into writes and the output into reads. *)
From S2P Require Import Prelude GoBig CommonTypes Keccakf KeccakfOk Sha3.
Import Keccakf Sha3.
#[local] Opaque keccakF1600 Fips202.keccakf.

(** ** The sponge construction *)

Module Sponge.
Section sponge.
Variables (r ds : Z).

(** The 25 lanes of a string of 200 bytes, and the bytes of the lanes. *)
Definition lanes_of (b : bytes) : list Z := map (fun i => Uint64 (drop (8 * i) b)) (seq 0 25).
Definition bytes_of (A : list Z) : bytes := concat (map PutUint64 A).

(** The message, the domain bits with the first bit of the padding, zeros, the last bit. *)
Definition pad (m : bytes) : bytes :=
  let q := r - zlen m mod r in
  m ++ alter (fun x => Z.lxor x 0x80) (Z.to_nat (q - 1)) (ds :: zeros (q - 1)).

Definition blocks (m : bytes) : list bytes := map (fun i => ztake r (zdrop (i * r) m)) (seqZ 0 (zlen m / r)).

Definition absorb_block (A : list Z) (b : bytes) : list Z :=
  Fips202.keccakf (zip_with Z.lxor A (lanes_of (b ++ zeros (200 - r)))).
Definition absorb (m : bytes) : list Z := fold_left absorb_block (blocks m) (replicate 25 0).

(** Byte [i] of the output comes from the state after [i / r] further permutations. *)
Definition out_byte (A : list Z) (i : Z) : Z :=
  nth (Z.to_nat (i mod r)) (bytes_of (Nat.iter (Z.to_nat (i / r)) Fips202.keccakf A)) 0.
Definition output (m : bytes) (pos n : Z) : bytes := map (out_byte (absorb (pad m))) (seqZ pos n).
End sponge.
End Sponge.
Import Sponge.

(** ** Words and bytes *)

Lemma length_PutUint64 v : length (PutUint64 v) = 8%nat.
Proof. unfold PutUint64. by rewrite length_rev, Big.length_be_fixed. Qed.

Lemma length_bytes_of A : length (bytes_of A) = (8 * length A)%nat.
Proof.
  unfold bytes_of. induction A as [|x A IH]; [done|]. cbn [map concat].
  rewrite length_app, IH, length_PutUint64. cbn [length]. lia.
Qed.

Lemma take_bytes_of n A : take (8 * n) (bytes_of A) = concat (map PutUint64 (take n A)).
Proof.
  revert A. induction n as [|n IH]; intros A; [by rewrite Nat.mul_0_r|]. destruct A as [|x A]; [by rewrite take_nil|].
  unfold bytes_of. cbn [map concat take]. replace (8 * S n)%nat with (length (PutUint64 x) + 8 * n)%nat by (rewrite length_PutUint64; lia).
  rewrite take_app_add. f_equal. apply IH.
Qed.

Lemma is_bytes_bytes_of A : is_bytes (bytes_of A).
Proof.
  unfold bytes_of. induction A as [|x A IH]; [constructor|]. cbn [map concat]. apply is_bytes_app. split; [|done].
  unfold PutUint64. apply Forall_rev, Big.is_bytes_be_fixed.
Qed.

Lemma Uint64_zeros n : Uint64 (replicate n 0) = 0.
Proof.
  unfold Uint64, ztake. rewrite take_replicate.
  rewrite rev_alt. fold (reverse (replicate (Z.to_nat 8 `min` n) 0)). rewrite reverse_replicate.
  generalize (Z.to_nat 8 `min` n)%nat. intros k. pose proof (Big.SetBytes_zeros (Z.of_nat k) []) as H.
  unfold zeros in H. by rewrite Nat2Z.id, app_nil_r in H.
Qed.

Lemma Uint64_app b c : (8 <= length b)%nat -> Uint64 (b ++ c) = Uint64 b.
Proof. intros H. unfold Uint64, ztake. by rewrite take_app_le by lia. Qed.

(** Padding words with zero lanes changes nothing. *)
Lemma xor_words_zip n a b : (n <= length a)%nat ->
  xor_words n a b = zip_with Z.lxor a (map (fun i => Uint64 (drop (8 * i) b)) (seq 0 n) ++ replicate (length a - n) 0).
Proof.
  revert a b. induction n as [|n IH]; intros a b Hn.
  - cbn [seq map app xor_words]. rewrite Nat.sub_0_r. destruct a as [|x a]; [done|].
    change (xor_words 0 (x :: a) b) with (x :: a). generalize (x :: a). clear. intros a.
    induction a as [|x a IH]; [done|]. cbn [length replicate zip_with]. by rewrite Z.lxor_0_r, <- IH.
  - destruct a as [|x a]; [cbn [length] in Hn; lia|]. cbn [length] in Hn. cbn [xor_words seq map app zip_with length Nat.sub].
    rewrite Nat.mul_0_r, drop_0. f_equal. rewrite IH by lia. f_equal. f_equal. rewrite <- seq_shift, map_map. apply map_ext.
    intros i. unfold zdrop. rewrite drop_drop. do 2 f_equal. lia.
Qed.

Section lanes.
Variable r : Z.
Hypothesis Hr : 0 < r <= maxRate /\ r mod 8 = 0.

Lemma rate_words : exists n : nat, r = 8 * Z.of_nat n /\ (1 <= n <= 21)%nat.
Proof.
  destruct Hr as [H1 H2]. exists (Z.to_nat (r / 8)). unfold maxRate in H1. pose proof (Z.div_mod r 8 ltac:(lia)). lia.
Qed.

Lemma lanes_of_padded b : zlen b = r -> exists n : nat, length b = (8 * n)%nat /\ (1 <= n <= 21)%nat /\
  lanes_of (b ++ zeros (200 - r)) = map (fun i => Uint64 (drop (8 * i) b)) (seq 0 n) ++ replicate (25 - n) 0.
Proof.
  intros Hb. destruct rate_words as (n & Hn & Hn'). exists n. unfold zlen in Hb. split; [lia|]. split; [lia|].
  unfold lanes_of. replace 25%nat with (n + (25 - n))%nat at 1 by lia. rewrite seq_app, map_app. f_equal.
  - apply map_ext_in. intros i [_ Hi]%in_seq. rewrite drop_app_le by lia. apply Uint64_app. rewrite length_drop. lia.
  - replace (25 - n)%nat with (length (seq (0 + n) (25 - n))) at 2 by apply length_seq.
    assert (forall i, i ∈ seq (0 + n) (25 - n) -> Uint64 (drop (8 * i) (b ++ zeros (200 - r))) = 0) as H.
    { intros i Hi%elem_of_seq. rewrite drop_app_ge by lia. unfold zeros. rewrite drop_replicate. apply Uint64_zeros. }
    revert H. generalize (seq (0 + n) (25 - n)). intros l H. induction l as [|i l IH]; [done|]. cbn [map length replicate].
    rewrite H by left. f_equal. apply IH. intros j Hj. apply H. by right.
Qed.

Lemma xorIn_block a b : length a = 25%nat -> zlen b = r ->
  xorInGeneric a b = zip_with Z.lxor a (lanes_of (b ++ zeros (200 - r))).
Proof.
  intros Ha Hb. destruct (lanes_of_padded b Hb) as (n & Hn & Hn' & ->). unfold xorInGeneric.
  rewrite Hn, Nat.mul_comm, Nat.div_mul by lia. rewrite xor_words_zip by lia. by rewrite Ha.
Qed.

Lemma keccak_block a b : length a = 25%nat -> zlen b = r -> keccakF1600 (xorInGeneric a b) = absorb_block r a b.
Proof.
  intros Ha Hb. rewrite xorIn_block by done. unfold absorb_block. rewrite keccakF1600_fips; [done|]. rewrite length_zip_with_l_eq; [done|].
  rewrite Ha. unfold lanes_of. by rewrite length_map, length_seq.
Qed.

Lemma length_absorb_block a b : length a = 25%nat -> length (absorb_block r a b) = 25%nat.
Proof.
  intros Ha. unfold absorb_block. rewrite length_keccakf; [done|]. rewrite length_zip_with_l_eq; [done|]. rewrite Ha. unfold lanes_of. by rewrite length_map, length_seq.
Qed.

Lemma length_absorb m : length (absorb r m) = 25%nat.
Proof.
  unfold absorb. assert (forall l A, length A = 25%nat -> length (fold_left (absorb_block r) l A) = 25%nat) as H; [|by apply H].
  induction l as [|b l IH]; intros A HA; [done|]. cbn [fold_left]. apply IH. by apply length_absorb_block.
Qed.

Lemma copyOut_rate a b : zlen b = r -> copyOutGeneric a b = ztake r (bytes_of a).
Proof.
  intros Hb. destruct rate_words as (n & Hn & Hn'). unfold zlen in Hb. unfold copyOutGeneric.
  replace (length b) with (8 * n)%nat by lia. rewrite Nat.mul_comm, Nat.div_mul, drop_ge, app_nil_r by lia.
  unfold ztake. replace (Z.to_nat r) with (8 * n)%nat by lia. symmetry. apply take_bytes_of.
Qed.

(** ** Blocks *)

Lemma blocks_snoc m b : zlen m mod r = 0 -> zlen b = r -> blocks r (m ++ b) = blocks r m ++ [b].
Proof.
  intros Hm Hb. destruct Hr as [Hr1 _]. unfold blocks. rewrite zlen_app, Hb.
  pose proof (Z.div_mod (zlen m) r ltac:(lia)) as Ek. rewrite Hm in Ek. set (k := zlen m / r) in *.
  pose proof (zlen_nonneg m). assert (0 <= k) by (apply Z.div_pos; lia).
  replace ((zlen m + r) / r) with (k + 1) by (rewrite Ek; apply Z.div_unique with 0; lia).
  rewrite seqZ_app, map_app by lia. f_equal.
  - apply map_ext_in. intros i Hi%list_elem_of_In%elem_of_seqZ. unfold ztake, zdrop. unfold zlen in *.
    rewrite drop_app_le by nia. apply take_app_le. rewrite length_drop. nia.
  - cbn [seqZ map]. replace (0 + k) with k by lia. change (seqZ k 1) with [0 + k]. cbn [map].
    replace ((0 + k) * r) with (zlen m) by lia. unfold zdrop, zlen. rewrite Nat2Z.id, drop_app_length. f_equal.
    unfold ztake. apply take_ge. unfold zlen in Hb. lia.
Qed.

Lemma absorb_snoc m b : zlen m mod r = 0 -> zlen b = r -> absorb r (m ++ b) = absorb_block r (absorb r m) b.
Proof. intros Hm Hb. unfold absorb. rewrite blocks_snoc by done. by rewrite fold_left_app. Qed.
End lanes.

(** ** The state of a sponge *)

Section states.
Variables (r ds n : Z).
Hypothesis Hr : 0 < r <= maxRate /\ r mod 8 = 0.
Hypothesis Hn : 0 <= n.

Definition sponge (d : state) : Prop :=
  rate d = r /\ dsbyte d = ds /\ outputLen d = n /\ zlen (storage d) = maxRate.

(** [m] has been absorbed: whole blocks into the lanes, the rest is in the buffer. *)
Definition absorbing (m : bytes) (d : state) : Prop :=
  sponge d /\ direction d = spongeAbsorbing /\ exists m0 rest,
    m = m0 ++ rest /\ zlen m0 mod r = 0 /\ zlen rest < r /\ a d = absorb r m0 /\
    (buf d = Some (0, zlen rest) \/ buf d = None /\ rest = []) /\ ztake (zlen rest) (storage d) = rest.

(** [pos] bytes of the output of the lanes [A] have been read. *)
Definition squeezing (A : list Z) (pos : Z) (d : state) : Prop :=
  sponge d /\ direction d = spongeSqueezing /\ length A = 25%nat /\ exists (k : nat) j,
    0 <= j < r /\ pos = Z.of_nat k * r + j /\ a d = Nat.iter k Fips202.keccakf A /\
    buf d = Some (j, r - j) /\ ztake r (storage d) = ztake r (bytes_of (a d)).

Lemma absorbing_New : absorbing [] (New r ds n).
Proof.
  split; [by repeat split|]. split; [done|]. exists [], []. destruct Hr as [H _].
  split; [done|]. split; [done|]. split; [by apply H|]. split; [|split; [by right|done]].
  unfold absorb, blocks. change (zlen []) with 0. by rewrite Z.div_0_l by lia.
Qed.

Lemma absorbing_Reset d : sponge d -> absorbing [] (Reset d).
Proof.
  intros Hs. destruct absorbing_New as (_ & _ & m0 & rest & E & H1 & H2 & H3 & _ & _).
  symmetry in E. apply app_eq_nil in E as [-> ->].
  split; [done|]. split; [done|]. exists [], []. split; [done|]. split; [done|]. split; [done|]. split; [exact H3|]. by split; [left|].
Qed.

Lemma absorbing_not_nil m d : absorbing m d -> exists m0 rest, m = m0 ++ rest /\ zlen m0 mod r = 0 /\ zlen rest < r /\
  sponge (not_nil d) /\ direction (not_nil d) = spongeAbsorbing /\ a (not_nil d) = absorb r m0 /\
  buf (not_nil d) = Some (0, zlen rest) /\ ztake (zlen rest) (storage (not_nil d)) = rest.
Proof.
  intros (Hs & Hd & m0 & rest & -> & H1 & H2 & H3 & H4 & H5). exists m0, rest. unfold not_nil.
  destruct Hs as (? & ? & ? & ?). destruct H4 as [E|[E ->]]; rewrite E; by repeat split.
Qed.

Lemma buf_bytes_eq d off len : buf d = Some (off, len) -> buf_bytes d = ztake len (zdrop off (storage d)).
Proof. intros E. unfold buf_bytes, buf_len, buf_off. by rewrite E. Qed.

(** Appending to the buffer within the rate. *)
Lemma append_ok d rest p : sponge d -> buf d = Some (0, zlen rest) -> ztake (zlen rest) (storage d) = rest ->
  zlen rest + zlen p <= r ->
  exists d', append d p = Done d' /\ sponge d' /\ direction d' = direction d /\ a d' = a d /\
    buf d' = Some (0, zlen (rest ++ p)) /\ ztake (zlen (rest ++ p)) (storage d') = rest ++ p.
Proof.
  intros (E1 & E2 & E3 & E4) Hb Hst Hl. unfold append, buf_off, buf_len. rewrite Hb. cbn [from_option fst snd].
  pose proof (zlen_nonneg rest). pose proof (zlen_nonneg p). destruct Hr as [Hr1 _].
  rewrite (proj2 (Z.leb_le _ _)) by lia. eexists. split; [reflexivity|]. replace (0 + zlen rest) with (zlen rest) by lia.
  rewrite Hst. split; [|split; [done|split; [done|split]]].
  - split; [done|]. split; [done|]. split; [done|]. cbn [storage with_buf with_storage].
    rewrite !zlen_app, zlen_zdrop by lia. rewrite E4. lia.
  - cbn [buf with_buf]. by rewrite zlen_app.
  - cbn [storage with_buf with_storage]. rewrite app_assoc. unfold ztake, zlen. rewrite Nat2Z.id. by rewrite take_app_length.
Qed.

(** A full buffer is absorbed. *)
Lemma permute_ok d m0 b : sponge d -> direction d = spongeAbsorbing -> a d = absorb r m0 -> zlen m0 mod r = 0 ->
  buf d = Some (0, zlen b) -> ztake (zlen b) (storage d) = b -> zlen b = r ->
  sponge (permute d) /\ direction (permute d) = spongeAbsorbing /\ a (permute d) = absorb r (m0 ++ b) /\ buf (permute d) = Some (0, 0).
Proof.
  intros Hs Hd Ha Hm Hb Hst Hl. unfold permute. rewrite Hd. split; [done|]. split; [done|]. split; [|done].
  cbn [a with_a]. rewrite (buf_bytes_eq d 0 (zlen b)) by done. change (zdrop 0 (storage d)) with (storage d). rewrite Hst.
  rewrite Ha, absorb_snoc by done. apply keccak_block; [done| |done]. by apply length_absorb.
Qed.

Lemma multiple_app (m b : bytes) : zlen m mod r = 0 -> zlen b = r -> zlen (m ++ b) mod r = 0.
Proof. intros Hm Hb. rewrite zlen_app, Hb. destruct Hr. rewrite <- (Z.mul_1_l r) at 1. rewrite Z.mod_add by lia. done. Qed.

Lemma write_loop_ok fuel : forall p d m0 rest, (length p <= fuel)%nat -> sponge d -> direction d = spongeAbsorbing ->
  a d = absorb r m0 -> zlen m0 mod r = 0 -> zlen rest < r -> buf d = Some (0, zlen rest) -> ztake (zlen rest) (storage d) = rest ->
  exists d', write_loop fuel p d = Done d' /\ absorbing ((m0 ++ rest) ++ p) d'.
Proof.
  destruct Hr as [Hr1 _]. induction fuel as [|fuel IH]; intros p d m0 rest Hf Hs Hd Ha Hm Hl Hb Hst.
  { destruct p; [|cbn [length] in Hf; lia]. exists d. split; [done|]. rewrite app_nil_r. split; [done|]. split; [done|].
    exists m0, rest. split; [done|]. split; [done|]. split; [done|]. split; [done|]. by split; [left|]. }
  destruct p as [|x p].
  { exists d. split; [done|]. rewrite app_nil_r. split; [done|]. split; [done|].
    exists m0, rest. split; [done|]. split; [done|]. split; [done|]. split; [done|]. by split; [left|]. }
  cbn [write_loop]. set (q := x :: p) in *. assert (1 <= zlen q) by (unfold q; rewrite zlen_cons; pose proof (zlen_nonneg p); lia).
  assert (rate d = r) as -> by apply Hs. unfold buf_len at 1. rewrite Hb. cbn [from_option snd].
  pose proof (zlen_nonneg rest). destruct ((zlen rest =? 0) && (r <=? zlen q)) eqn:E.
  - apply andb_prop in E as [E1%Z.eqb_eq E2%Z.leb_le]. apply zlen_0 in E1 as ->. rewrite app_nil_r.
    assert (zlen (ztake r q) = r) as Hq by (rewrite zlen_ztake by lia; lia).
    destruct (IH (zdrop r q) (with_a d (keccakF1600 (xorInGeneric (a d) (ztake r q)))) (m0 ++ ztake r q) []) as (d' & -> & H'); try done.
    + unfold zdrop. rewrite length_drop. lia.
    + cbn [a with_a]. rewrite Ha, absorb_snoc by done. apply keccak_block; [done| |done]. by apply length_absorb.
    + by apply multiple_app.
    + exists d'. split; [done|]. rewrite app_nil_r, <- app_assoc in H'. unfold ztake, zdrop in H'. by rewrite take_drop in H'.
  - set (todo := Z.min (r - buf_len d) (zlen q)). assert (todo = Z.min (r - zlen rest) (zlen q)) as Ht by (unfold todo, buf_len; by rewrite Hb).
    assert (zlen (ztake todo q) = todo) as Hz by (rewrite zlen_ztake by lia; lia).
    destruct (append_ok d rest (ztake todo q)) as (d' & -> & Hs' & Hd' & Ha' & Hb' & Hst'); [done..|lia|]. cbn [mbind outcome_bind].
    assert (zlen (rest ++ ztake todo q) = zlen rest + todo) as Hrest by (rewrite zlen_app; lia).
    assert ((m0 ++ rest) ++ q = (m0 ++ rest ++ ztake todo q) ++ zdrop todo q) as Hsplit.
    { rewrite <- !app_assoc. do 2 f_equal. unfold ztake, zdrop. by rewrite take_drop. }
    rewrite Hsplit. assert (buf_len d' = zlen rest + todo) as Hbl by (unfold buf_len; rewrite Hb'; by cbn [from_option snd]).
    assert (length (zdrop todo q) <= fuel)%nat as Hf' by (unfold zdrop; rewrite length_drop; unfold zlen in *; lia).
    assert (rate d' = r) as -> by apply Hs'. rewrite Hbl. destruct (Z.eqb_spec (zlen rest + todo) r) as [E'|E'].
    + destruct (permute_ok d' m0 (rest ++ ztake todo q)) as (P1 & P2 & P3 & P4); [done|by rewrite Hd'|by rewrite Ha'|done|done|done|lia|].
      destruct (IH (zdrop todo q) (permute d') (m0 ++ rest ++ ztake todo q) []) as (d'' & -> & H''); try done.
      * apply multiple_app; [done|lia].
      * change (zlen []) with 0. lia.
      * exists d''. split; [done|]. by rewrite app_nil_r in H''.
    + destruct (IH (zdrop todo q) d' m0 (rest ++ ztake todo q)) as (d'' & -> & H''); try done.
      * by rewrite Hd'.
      * by rewrite Ha'.
      * lia.
      * by exists d''.
Qed.

Lemma Write_ok m p d : absorbing m d -> exists d', Write p d = Done d' /\ absorbing (m ++ p) d'.
Proof.
  intros H. pose proof H as (_ & Hd & _). unfold Write. rewrite Hd.
  destruct (absorbing_not_nil m d H) as (m0 & rest & -> & H1 & H2 & Hs & Hd' & Ha & Hb & Hst).
  by apply (write_loop_ok (length p) p (not_nil d) m0 rest).
Qed.

(** ** Squeezing *)

Lemma length_iter (k : nat) A : length A = 25%nat -> length (Nat.iter k Fips202.keccakf A) = 25%nat.
Proof. intros HA. induction k as [|k IH]; [done|]. rewrite Nat.iter_succ. by rewrite length_keccakf. Qed.

Lemma zlen_bytes_of A : length A = 25%nat -> zlen (bytes_of A) = 200.
Proof. intros HA. unfold zlen. rewrite length_bytes_of, HA. done. Qed.

Lemma refill_ok d A (k : nat) : sponge d -> direction d = spongeSqueezing -> length A = 25%nat ->
  a d = Nat.iter k Fips202.keccakf A -> squeezing A (Z.of_nat k * r) (refill d).
Proof.
  intros (E1 & E2 & E3 & E4) Hd HA Ha. unfold maxRate in *. destruct Hr as [Hr1 _]. unfold maxRate in *.
  assert (zlen (ztake r (storage d)) = r) as Hl by (rewrite zlen_ztake by lia; lia).
  assert (zlen (ztake r (bytes_of (a d))) = r) as Hl'.
  { rewrite zlen_ztake by lia. rewrite Ha, zlen_bytes_of by (by apply length_iter). lia. }
  assert (storage (refill d) = ztake r (bytes_of (a d)) ++ zdrop r (storage d)) as Hs.
  { unfold refill. cbn [storage with_storage with_buf a]. rewrite E1.
    rewrite (buf_bytes_eq (with_buf d 0 r) 0 r) by done. cbn [storage with_buf]. change (zdrop 0 (storage d)) with (storage d).
    rewrite (copyOut_rate r Hr) by done. cbn [rate with_buf]. by rewrite E1. }
  split. { split; [done|]. split; [done|]. split; [done|]. rewrite Hs, zlen_app, Hl', zlen_zdrop by lia. unfold maxRate. lia. }
  split; [done|]. split; [done|]. exists k, 0. split; [lia|]. split; [lia|]. split; [done|].
  split; [cbn [refill buf with_storage with_buf]; do 2 f_equal; lia|]. change (a (refill d)) with (a d).
  rewrite Hs. unfold ztake at 1. rewrite take_app_le by (unfold zlen in *; lia). apply take_ge. unfold zlen in *. lia.
Qed.

Lemma padded m0 rest : zlen m0 mod r = 0 -> zlen rest < r ->
  pad r ds (m0 ++ rest) = m0 ++ alter (fun x => Z.lxor x 0x80) (Z.to_nat (r - 1)) (rest ++ ds :: zeros (r - zlen rest - 1)).
Proof.
  intros Hm Hl. pose proof (zlen_nonneg rest). destruct Hr as [Hr1 _]. unfold pad. rewrite zlen_app.
  rewrite Z.add_mod, Hm, Z.add_0_l, Z.mod_mod, (Z.mod_small (zlen rest)) by lia. rewrite <- app_assoc. f_equal.
  replace (Z.to_nat (r - 1)) with (length rest + Z.to_nat (r - zlen rest - 1))%nat by (unfold zlen in *; lia).
  by rewrite alter_app_r.
Qed.

Lemma padAndPermute_ok m d : absorbing m d -> exists d', padAndPermute d = Done d' /\ squeezing (absorb r (pad r ds m)) 0 d'.
Proof.
  intros H. destruct (absorbing_not_nil m d H) as (m0 & rest & -> & H1 & H2 & Hs & Hd & Ha & Hb & Hst).
  pose proof (zlen_nonneg rest) as H0. pose proof Hr as [Hr1 _]. unfold padAndPermute.
  replace (dsbyte d) with ds by (destruct H as ((_ & -> & _) & _); done).
  destruct (append_ok (not_nil d) rest [ds]) as (d1 & -> & Hs1 & Hd1 & Ha1 & Hb1 & Hst1); [done..|change (zlen [ds]) with 1; lia|].
  cbn [mbind outcome_bind]. assert (buf_len d1 = zlen rest + 1) as -> by (unfold buf_len; rewrite Hb1; cbn [from_option snd]; by rewrite zlen_app).
  assert (rate d1 = r) as -> by apply Hs1. rewrite zlen_app in Hst1. change (zlen [ds]) with 1 in Hst1. rewrite Hst1.
  set (blk := alter (fun x => Z.lxor x 0x80) (Z.to_nat (r - 1)) (rest ++ ds :: zeros (r - zlen rest - 1))).
  assert (zlen (rest ++ ds :: zeros (r - zlen rest - 1)) = r) as Hlen by (rewrite zlen_app, zlen_cons, zlen_zeros; lia).
  assert (zlen blk = r) as Hblk by (unfold blk, zlen; rewrite length_alter; exact Hlen).
  assert (alter (fun x => Z.lxor x 0x80) (Z.to_nat (r - 1)) ((rest ++ [ds]) ++ zeros (r - (zlen rest + 1)) ++ zdrop r (storage d1)) =
          blk ++ zdrop r (storage d1)) as ->.
  { replace (r - (zlen rest + 1)) with (r - zlen rest - 1) by lia. rewrite <- app_assoc, (app_assoc [ds]), (app_assoc rest).
    apply alter_app_l. cbn [app]. unfold zlen at 1 in Hlen. lia. }
  set (d2 := with_buf _ 0 r). assert (zlen (zdrop r (storage d1)) = maxRate - r) as Htl.
  { destruct Hs1 as (_ & _ & _ & E). rewrite zlen_zdrop by lia. lia. }
  destruct (permute_ok d2 m0 blk) as (P1 & P2 & P3 & P4).
  - destruct Hs1 as (? & ? & ? & ?). split; [done|]. split; [done|]. split; [done|].
    change (storage d2) with (blk ++ zdrop r (storage d1)). rewrite zlen_app. lia.
  - change (direction d2) with (direction d1). by rewrite Hd1.
  - change (a d2) with (a d1). by rewrite Ha1.
  - done.
  - change (buf d2) with (Some (0, r)). by rewrite Hblk.
  - change (storage d2) with (blk ++ zdrop r (storage d1)). unfold ztake, zlen. rewrite Nat2Z.id. by rewrite take_app_length.
  - done.
  - eexists. split; [reflexivity|]. rewrite padded by done. fold blk.
    apply (refill_ok (with_direction (permute d2) spongeSqueezing) (absorb r (m0 ++ blk)) 0); [done|done| |done].
    by apply length_absorb.
Qed.

(** Output bytes of one block. *)
Lemma out_bytes A (k : nat) j c : length A = 25%nat -> 0 <= j -> 0 <= c -> j + c <= r ->
  map (out_byte r A) (seqZ (Z.of_nat k * r + j) c) = ztake c (zdrop j (bytes_of (Nat.iter k Fips202.keccakf A))).
Proof.
  intros HA Hj Hc Hjc. set (B := Nat.iter k Fips202.keccakf A). assert (zlen (bytes_of B) = 200) as HB by (apply zlen_bytes_of, length_iter, HA).
  destruct Hr as [Hr1 _]. unfold maxRate in Hr1. apply (list_eq_same_length _ _ (Z.to_nat c)).
  - unfold ztake, zdrop. rewrite length_take, length_drop. unfold zlen in HB. lia.
  - rewrite length_map, length_seqZ. done.
  - intros i x y Hi Hx Hy. rewrite list_lookup_fmap in Hx. rewrite lookup_seqZ_lt in Hx by lia. cbn [fmap option_fmap option_map] in Hx.
    injection Hx as <-. unfold ztake, zdrop in Hy. rewrite lookup_take_lt, lookup_drop in Hy by lia.
    unfold out_byte. replace (Z.of_nat k * r + j + Z.of_nat i) with (j + Z.of_nat i + Z.of_nat k * r) by lia.
    rewrite Z.mod_add, Z.div_add, Z.mod_small, Z.div_small by lia. rewrite Z.add_0_l, Nat2Z.id. fold B.
    apply nth_lookup_Some with (d := 0) in Hy. rewrite <- Hy. f_equal. lia.
Qed.

Lemma read_loop_ok fuel : forall c out d A pos, 0 <= c <= Z.of_nat fuel -> squeezing A pos d -> exists d',
  read_loop fuel c out d = Done (out ++ map (out_byte r A) (seqZ pos c), d') /\ squeezing A (pos + c) d'.
Proof.
  pose proof Hr as [Hr1 _]. induction fuel as [|fuel IH]; intros c out d A pos Hc Hsq.
  { replace c with 0 by lia. exists d. cbn [read_loop]. change (seqZ pos 0) with (@nil Z). cbn [Z.leb map]. rewrite app_nil_r.
    split; [done|]. by rewrite Z.add_0_r. }
  cbn [read_loop]. destruct (Z.leb_spec c 0).
  { replace c with 0 by lia. exists d. change (seqZ pos 0) with (@nil Z). cbn [map]. rewrite app_nil_r.
    split; [done|]. by rewrite Z.add_0_r. }
  pose proof Hsq as ((E1 & E2 & E3 & E4) & Hd & HA & k & j & Hj & -> & Ha & Hb & Hst).
  assert (buf_len d = r - j) as Hbl by (unfold buf_len; by rewrite Hb).
  assert (buf_off d = j) as Hbo by (unfold buf_off; by rewrite Hb). rewrite Hbl, Hbo.
  set (x := Z.min c (r - j)). assert (ztake x (buf_bytes d) = map (out_byte r A) (seqZ (Z.of_nat k * r + j) x)) as ->.
  { rewrite out_bytes by (done || lia). rewrite <- Ha, (buf_bytes_eq d j (r - j)) by done. unfold ztake, zdrop in *.
    rewrite take_take, !take_drop_commute. f_equal.
    replace (Z.to_nat j + Z.to_nat x `min` Z.to_nat (r - j))%nat with ((Z.to_nat j + Z.to_nat x) `min` Z.to_nat r)%nat by lia.
    rewrite <- take_take, Hst, take_take. f_equal. lia. }
  set (d1 := with_buf d (j + x) (r - j - x)).
  assert (exists d2, (if buf_len d1 =? 0 then permute d1 else d1) = d2 /\ squeezing A (Z.of_nat k * r + j + x) d2) as (d2 & -> & H2).
  { eexists. split; [reflexivity|]. change (buf_len d1) with (r - j - x). destruct (Z.eqb_spec (r - j - x) 0) as [E|E].
    - unfold permute. change (direction d1) with (direction d). rewrite Hd.
      replace (Z.of_nat k * r + j + x) with (Z.of_nat (S k) * r) by lia. apply refill_ok; [done|done|done|].
      cbn [a with_a]. change (a d1) with (a d). rewrite Ha, Nat.iter_succ. rewrite keccakF1600_fips; [done|]. by apply length_iter.
    - split; [done|]. split; [done|]. split; [done|]. exists k, (j + x). split; [lia|]. split; [lia|]. split; [done|].
      split; [|done]. unfold d1. cbn [buf with_buf]. do 2 f_equal. lia. }
  destruct (IH (c - x) (out ++ map (out_byte r A) (seqZ (Z.of_nat k * r + j) x)) d2 A (Z.of_nat k * r + j + x)) as (d' & -> & H'); [lia|done|].
  exists d'. split; [|by replace (Z.of_nat k * r + j + c) with (Z.of_nat k * r + j + x + (c - x)) by lia].
  rewrite <- app_assoc, <- map_app, <- seqZ_app by lia. by replace (x + (c - x)) with c by lia.
Qed.

Lemma Read_absorbing m d c : 0 <= c -> absorbing m d -> exists d',
  Read c d = Done (output r ds m 0 c, d') /\ squeezing (absorb r (pad r ds m)) c d'.
Proof.
  intros Hc H. pose proof H as (_ & Hd & _). unfold Read. rewrite Hd. destruct (padAndPermute_ok m d H) as (d1 & -> & H1).
  cbn [mbind outcome_bind]. destruct (read_loop_ok (Z.to_nat c) c [] d1 _ 0 ltac:(lia) H1) as (d' & E & H'). by exists d'.
Qed.

Lemma Read_squeezing A pos d c : 0 <= c -> squeezing A pos d -> exists d',
  Read c d = Done (map (out_byte r A) (seqZ pos c), d') /\ squeezing A (pos + c) d'.
Proof.
  intros Hc H. pose proof H as (_ & Hd & _). unfold Read. rewrite Hd. cbn [mbind outcome_bind].
  destruct (read_loop_ok (Z.to_nat c) c [] d A pos ltac:(lia) H) as (d' & E & H'). by exists d'.
Qed.

Lemma clone_absorbing m d : absorbing m d -> exists d', clone d = Some d' /\ absorbing m d'.
Proof.
  intros (Hs & Hd & m0 & rest & -> & H1 & H2 & H3 & H4 & H5). unfold clone. rewrite Hd. eexists. split; [reflexivity|].
  split; [done|]. split; [done|]. exists m0, rest. split; [done|]. split; [done|]. split; [done|]. split; [done|]. split; [|done].
  left. cbn [buf with_buf]. unfold buf_len. destruct H4 as [->|[-> ->]]; done.
Qed.

Lemma Sum_absorbing pre m d : absorbing m d -> Sum pre d = Done (pre ++ output r ds m 0 n).
Proof.
  intros H. unfold Sum. destruct (clone_absorbing m d H) as (d1 & -> & H1).
  replace (outputLen d1) with n by (destruct H1 as ((_ & _ & -> & _) & _); done).
  destruct (Read_absorbing m d1 n Hn H1) as (d2 & -> & _). done.
Qed.
End states.
