(* ===== verification/VmTypes.v ===== *)
(** [core/vm]: the data of the virtual machine.

    The operand stack ([stack.go]) is a list with the top first; memory
    ([memory.go]) is its byte store and the last total gas fee; a contract
    ([contract.go]) is a record, its [jumpdests] pointer being the [jumpdests]
    field of the machine state because a call tree shares one map; [StateDB] is
    the interface of [interface.go] as a type class.  Big integers are values:
    the integer pool ([intpool.go]) only recycles storage. *)
From S2P Require Import Prelude GoBig CommonMath CommonTypes Params Rlp.

Abbreviation Hash := (list Z).
Abbreviation Address := (list Z).

(** ** Errors (errors.go, jump_table.go, stack_table.go) *)

Inductive vmerror :=
| ErrOutOfGas
| ErrCodeStoreOutOfGas
| ErrDepth
| ErrInsufficientBalance
| errGasUintOverflow
| errStackUnderflow (have want : Z)
| errStackLimit (have : Z)
| errInvalidOpcode (op : Z)
| errInvalidJump (nop pos : Z).
#[export] Instance vmerror_eq_dec : EqDecision vmerror.
Proof. solve_decision. Defined.

(** ** core/types/log.go *)

Record Log := {
  log_Address : Address;
  log_Topics : list Hash;
  log_Data : bytes;
  log_BlockNumber : Z;
  log_TxHash : Hash;
  log_TxIndex : Z;
  log_BlockHash : Hash;
  log_Index : Z;
  log_Removed : bool;
}.

(** ** interface.go: the state database used by the machine *)

(** Getters may fill caches, so they return a new state as well.
    [RevertToSnapshot] panics ([None]) on an unknown revision. *)
Class StateDB (S : Type) := {
  CreateAccount : Address -> S -> S;
  SubBalance : Address -> Z -> S -> S;
  AddBalance : Address -> Z -> S -> S;
  GetBalance : Address -> S -> Z * S;
  GetNonce : Address -> S -> Z * S;
  SetNonce : Address -> Z -> S -> S;
  GetCodeHash : Address -> S -> Hash * S;
  GetCode : Address -> S -> bytes * S;
  SetCode : Address -> bytes -> S -> S;
  GetCodeSize : Address -> S -> Z * S;
  AddRefund : Z -> S -> S;
  GetRefund : S -> Z;
  GetState : Address -> Hash -> S -> Hash * S;
  SetState : Address -> Hash -> Hash -> S -> S;
  Suicide : Address -> S -> bool * S;
  HasSuicided : Address -> S -> bool * S;
  Exist : Address -> S -> bool * S;
  Empty : Address -> S -> bool * S;
  RevertToSnapshot : Z -> S -> option S;
  Snapshot : S -> Z * S;
  AddLog : Log -> S -> S;
  AddPreimage : Hash -> bytes -> S -> S;
  (** assignment through the pointer that [GetRefund] returns *)
  poke_refund : Z -> S -> S;
}.

(** ** crypto.go *)

(** [Keccak256] and the hash functions behind the precompiled contracts.
    [Ecrecover] is the foreign secp256k1 routine. *)
Class Crypto := {
  Keccak256 : bytes -> bytes;
  Sha256 : bytes -> bytes;
  Ripemd160 : bytes -> bytes;
  Ecrecover : bytes -> bytes -> option bytes;
}.

(** Documented sizes of the results. *)
Class CryptoOk `{Crypto} : Prop := {
  Keccak256_size b : Common.is_array 32 (Keccak256 b);
  Sha256_size b : Common.is_array 32 (Sha256 b);
  Ripemd160_size b : Common.is_array 20 (Ripemd160 b);
  Ecrecover_size h sig pub : Ecrecover h sig = Some pub -> Common.is_array 65 pub;
}.

Section crypto.
Context `{Crypto}.

Definition Keccak256Hash (data : bytes) : Hash := Keccak256 data.

(** The error of [EncodeToBytes] is dropped; the encoding of two short values
    does not fail. *)
Definition CreateAddress (b : Address) (nonce : Z) : Address :=
  match Enc.EncodeToBytes (Enc.VList [Enc.VBytes b; Enc.VUint nonce]) with
  | Done data => Common.BytesToAddress (zdrop 12 (Keccak256 data))
  | _ => Common.BytesToAddress (zdrop 12 (Keccak256 []))
  end.

Definition secp256k1_N : Z :=
  0xfffffffffffffffffffffffffffffffebaaedce6af48a03bbfd25e8cd0364141.
Definition secp256k1_halfN : Z := secp256k1_N / 2.

Definition ValidateSignatureValues (v r s : Z) (omaha : bool) : bool :=
  if (r <? 1) || (s <? 1) then false
  else if omaha && (s >? secp256k1_halfN) then false
  else (r <? secp256k1_N) && (s <? secp256k1_N) && ((v =? 0) || (v =? 1)).
End crypto.

(** ** memory.go *)
Module Memory.

Record t := { store : bytes; lastGasCost : Z }.
Definition NewMemory : t := {| store := []; lastGasCost := 0 |}.
Definition with_store (m : t) (s : bytes) : t :=
  {| store := s; lastGasCost := m.(lastGasCost) |}.
Definition Len (m : t) : Z := zlen m.(store).

(** [None] is a panic: the explicit one, or a slice expression out of range. *)
Definition Set_ (m : t) (offset size : Z) (value : bytes) : option t :=
  if size >? Len m then None
  else if size >? 0 then
    if (offset <=? u64 (offset + size)) && (u64 (offset + size) <=? Len m)
    then Some (with_store m (copy_at m.(store) offset size value))
    else None
  else Some m.

Definition Resize (m : t) (size : Z) : t :=
  if Len m <? size
  then with_store m (m.(store) ++ zeros (size - Len m)) else m.

Definition Get (m : t) (offset size : Z) : option bytes :=
  if size =? 0 then Some []
  else if Len m >? offset then
    cpy ← (if 0 <=? size then Some (zeros size) else None);
    src ← slice m.(store) offset (i64 (offset + size));
    Some (gocopy cpy src)
  else Some [].

Definition GetPtr (m : t) (offset size : Z) : option bytes :=
  if size =? 0 then Some []
  else if Len m >? offset then slice m.(store) offset (i64 (offset + size))
  else Some [].

(** [memory.store[off] = b] *)
Definition set_byte (m : t) (off b : Z) : option t :=
  with_store m <$> zset m.(store) off b.

End Memory.

(** ** analysis.go *)

Abbreviation destinations := (gmap (list Z) (gset Z)).

(** ** contract.go *)

(** [ContractRef]: an account, or a contract of the call tree.  Of a contract
    only the fields that are read through the interface are kept; they are set
    by [NewContract]/[AsDelegate] and never assigned afterwards. *)
Inductive ContractRef :=
| AccountRef (a : Address)
| ContractPtr (self callerAddress : Address) (value : Z).

Definition ref_Address (r : ContractRef) : Address :=
  match r with AccountRef a => a | ContractPtr a _ _ => a end.

Record Contract := {
  CallerAddress : Address;
  caller : ContractRef;
  self : Address;
  Code : bytes;
  CodeHash : Hash;
  CodeAddr : option Address;
  Input : bytes;
  Gas : Z;
  value : Z;
  DelegateCall : bool;
}.

Definition contract_ref (c : Contract) : ContractRef :=
  ContractPtr c.(self) c.(CallerAddress) c.(value).

Definition with_Gas (c : Contract) (g : Z) : Contract :=
  {| CallerAddress := c.(CallerAddress); caller := c.(caller); self := c.(self);
     Code := c.(Code); CodeHash := c.(CodeHash); CodeAddr := c.(CodeAddr);
     Input := c.(Input); Gas := g; value := c.(value); DelegateCall := c.(DelegateCall) |}.
Definition with_Input (c : Contract) (i : bytes) : Contract :=
  {| CallerAddress := c.(CallerAddress); caller := c.(caller); self := c.(self);
     Code := c.(Code); CodeHash := c.(CodeHash); CodeAddr := c.(CodeAddr);
     Input := i; Gas := c.(Gas); value := c.(value); DelegateCall := c.(DelegateCall) |}.

(** [nil] as [value] (a delegate call) is 0; [AsDelegate] replaces it. *)
Definition NewContract (caller : ContractRef) (object : Address) (value gas : Z) : Contract :=
  {| CallerAddress := ref_Address caller; caller := caller; self := object;
     Code := []; CodeHash := Common.zeroHash; CodeAddr := None; Input := [];
     Gas := gas; value := value; DelegateCall := false |}.

(** The cache a new contract uses: the parent's, or a fresh map. *)
Definition inherit_jumpdests (caller : ContractRef) (d : destinations) : destinations :=
  match caller with AccountRef _ => ∅ | ContractPtr _ _ _ => d end.

(** Panics when the caller is not a contract. *)
Definition AsDelegate (c : Contract) : option Contract :=
  match c.(caller) with
  | AccountRef _ => None
  | ContractPtr _ callerAddress v =>
      Some {| CallerAddress := callerAddress; caller := c.(caller); self := c.(self);
              Code := c.(Code); CodeHash := c.(CodeHash); CodeAddr := c.(CodeAddr);
              Input := c.(Input); Gas := c.(Gas); value := v; DelegateCall := true |}
  end.

Definition SetCallCode (c : Contract) (addr : Address) (hash : Hash) (code : bytes) : Contract :=
  {| CallerAddress := c.(CallerAddress); caller := c.(caller); self := c.(self);
     Code := code; CodeHash := hash; CodeAddr := Some addr;
     Input := c.(Input); Gas := c.(Gas); value := c.(value); DelegateCall := c.(DelegateCall) |}.

Definition GetByte (c : Contract) (n : Z) : Z := default 0 (zget c.(Code) n).
Definition GetOp (c : Contract) (n : Z) : Z := GetByte c n.

Definition UseGas (c : Contract) (gas : Z) : bool * Contract :=
  if c.(Gas) <? gas then (false, c) else (true, with_Gas c (u64 (c.(Gas) - gas))).

(** ** The state a running contract works on *)

(** What is shared by all contracts of the machine: the state database, the call
    depth, the jump destination cache of the call tree, and the number of loop
    iterations so far (the time at which [Cancel] is observed). *)
Record World (S : Type) := {
  statedb : S;
  depth : Z;
  jumpdests : destinations;
  ticks : Z;
}.
Arguments statedb {S}. Arguments depth {S}. Arguments jumpdests {S}. Arguments ticks {S}.
Arguments Build_World {S}.

Definition with_statedb {S} (w : World S) (s : S) : World S :=
  Build_World s w.(depth) w.(jumpdests) w.(ticks).
Definition with_depth {S} (w : World S) (d : Z) : World S :=
  Build_World w.(statedb) d w.(jumpdests) w.(ticks).
Definition with_jumpdests {S} (w : World S) (d : destinations) : World S :=
  Build_World w.(statedb) w.(depth) d w.(ticks).
Definition with_ticks {S} (w : World S) (n : Z) : World S :=
  Build_World w.(statedb) w.(depth) w.(jumpdests) n.

(** The local variables of [Interpreter.Run]. *)
Record Frame (S : Type) := {
  pc : Z;
  contract : Contract;
  mem : Memory.t;
  stack : list Z;
  world : World S;
}.
Arguments pc {S}. Arguments contract {S}. Arguments mem {S}. Arguments stack {S}.
Arguments world {S}. Arguments Build_Frame {S}.

Definition with_pc {S} (f : Frame S) (p : Z) : Frame S :=
  Build_Frame p f.(contract) f.(mem) f.(stack) f.(world).
Definition with_contract {S} (f : Frame S) (c : Contract) : Frame S :=
  Build_Frame f.(pc) c f.(mem) f.(stack) f.(world).
Definition with_mem {S} (f : Frame S) (m : Memory.t) : Frame S :=
  Build_Frame f.(pc) f.(contract) m f.(stack) f.(world).
Definition with_stack {S} (f : Frame S) (s : list Z) : Frame S :=
  Build_Frame f.(pc) f.(contract) f.(mem) s f.(world).
Definition with_world {S} (f : Frame S) (w : World S) : Frame S :=
  Build_Frame f.(pc) f.(contract) f.(mem) f.(stack) w.

Abbreviation VM S := (SM (Frame S) vmerror).
Abbreviation WM S := (SM (World S) vmerror).

(** ** stack.go and access to the shared state *)
Section access.
Context {S : Type}.

Definition push (d : Z) : VM S unit := modify (fun f => with_stack f (d :: f.(stack))).
Definition pop : VM S Z := fun f =>
  match f.(stack) with
  | [] => (Panic, f)
  | d :: st => (Done d, with_stack f st)
  end.
(** [st.data[st.len()-n-1]] *)
Definition Back (n : Z) : VM S Z := st ← gets stack; unwrap (zget st n).
Definition dup (n : Z) : VM S unit := st ← gets stack; x ← unwrap (zget st (n - 1)); push x.
Definition swap (n : Z) : VM S unit :=
  st ← gets stack;
  x ← unwrap (zget st (n - 1));
  top ← unwrap (zget st 0);
  st ← unwrap (zset st (n - 1) top);
  st ← unwrap (zset st 0 x);
  modify (fun f => with_stack f st).

(** Calls of [tiltvm.StateDB]. *)
Definition db_get {A} (g : S -> A * S) : VM S A := fun f =>
  let '(a, s) := g f.(world).(statedb) in (Done a, with_world f (with_statedb f.(world) s)).
Definition db_do (g : S -> S) : VM S unit :=
  modify (fun f => with_world f (with_statedb f.(world) (g f.(world).(statedb)))).

Definition mem_get (offset size : Z) : VM S bytes :=
  m ← gets mem; unwrap (Memory.Get m offset size).
Definition mem_set (offset size : Z) (v : bytes) : VM S unit :=
  m ← gets mem; m ← unwrap (Memory.Set_ m offset size v); modify (fun f => with_mem f m).

(** [contract.UseGas] and [contract.Gas += g] on the running contract. *)
Definition use_gas (gas : Z) : VM S bool := fun f =>
  let '(ok, c) := UseGas f.(contract) gas in (Done ok, with_contract f c).
Definition add_gas (g : Z) : VM S unit :=
  modify (fun f => with_contract f (with_Gas f.(contract) (u64 (f.(contract).(Gas) + g)))).
End access.

(** ** tiltvm.go, interpreter.go: environment and configuration *)

Record Context (S : Type) := {
  CanTransfer : Address -> Z -> S -> bool * S;
  Transfer : Address -> Address -> Z -> S -> S;
  GetHash : Z -> Hash;
  Origin : Address;
  GasPrice : Z;
  Coinbase : Address;
  GasLimit : Z;
  BlockNumber : Z;
  Time : Z;
  Difficulty : Z;
}.
Arguments CanTransfer {S}. Arguments Transfer {S}. Arguments GetHash {S}. Arguments Origin {S}.
Arguments GasPrice {S}. Arguments Coinbase {S}. Arguments GasLimit {S}.
Arguments BlockNumber {S}. Arguments Time {S}. Arguments Difficulty {S}.

(** The options that change execution; tracing and JIT options do not appear.
    [cancelAt] is the loop iteration from which the [abort] flag is set by a
    concurrent [Cancel], if ever. *)
Record Config := {
  NoRecursion : bool;
  DisableGasMetering : bool;
  EnablePreimageRecording : bool;
  cancelAt : option Z;
}.

(** What instructions use of the machine itself: the methods of [TiltVM] that
    start a new contract.  Each returns its results and an optional error. *)
Record Calls (S : Type) := {
  do_Call : ContractRef -> Address -> bytes -> Z -> Z -> WM S (bytes * Z * option vmerror);
  do_CallCode : ContractRef -> Address -> bytes -> Z -> Z -> WM S (bytes * Z * option vmerror);
  do_DelegateCall : ContractRef -> Address -> bytes -> Z -> WM S (bytes * Z * option vmerror);
  do_Create : ContractRef -> bytes -> Z -> Z -> WM S (bytes * Address * Z * option vmerror);
}.
Arguments do_Call {S}. Arguments do_CallCode {S}. Arguments do_DelegateCall {S}.
Arguments do_Create {S}.

(** Runs a machine-level call from inside an instruction. *)
Definition on_world {S A} (m : WM S A) : VM S A := fun f =>
  let '(r, w) := m f.(world) in (r, with_world f w).
