(* ===== verification/TrieEncoding.v ===== *)
(** [trie/encoding.go]: key encodings of the trie.

    KEYBYTES is the key itself; HEX has one byte per nibble and an optional
    terminator 16; COMPACT packs the nibbles and puts oddness and terminator into
    a flag nibble.  The theorems say that the conversions are inverse to each
    other. *)
From S2P Require Import Prelude.

(** ** Definitions *)

Definition hasTerm (s : bytes) : bool :=
  (zlen s >? 0) && bool_decide (zget s (zlen s - 1) = Some 16).

(** [decodeNibbles(nibbles, bytes)]: the target after the call; [None] when an
    index is out of range. *)
Fixpoint decodeNibbles (nibbles buf : bytes) : option bytes :=
  match nibbles, buf with
  | [], _ => Some buf
  | hi :: lo :: nibbles, _ :: buf =>
      buf ← decodeNibbles nibbles buf;
      Some (Z.lor (u8 (Z.shiftl hi 4)) lo :: buf)
  | _, _ => None
  end.

Definition hexToCompact (hex : bytes) : option bytes :=
  let terminator := if hasTerm hex then 1 else 0 in
  let hex := if hasTerm hex then ztake (zlen hex - 1) hex else hex in
  let buf := zeros (zlen hex / 2 + 1) in
  let flag := u8 (Z.shiftl terminator 5) in
  if Z.land (zlen hex) 1 =? 1 then
    first ← zget hex 0;
    rest ← decodeNibbles (zdrop 1 hex) (zdrop 1 buf);
    Some (Z.lor (Z.lor flag (Z.shiftl 1 4)) first :: rest)
  else
    rest ← decodeNibbles hex (zdrop 1 buf);
    Some (flag :: rest).

Definition keybytesToHex (str : bytes) : bytes :=
  flat_map (fun b => [b / 16; b mod 16]) str ++ [16].

Definition compactToHex (compact : bytes) : option bytes :=
  let base := keybytesToHex compact in
  let base := ztake (zlen base - 1) base in
  base0 ← zget base 0;
  let base := if base0 >=? 2 then base ++ [16] else base in
  let chop := 2 - Z.land base0 1 in
  slice base chop (zlen base).

(** The explicit panic on an odd length is [None], too. *)
Definition hexToKeybytes (hex : bytes) : option bytes :=
  let hex := if hasTerm hex then ztake (zlen hex - 1) hex else hex in
  if negb (Z.land (zlen hex) 1 =? 0) then None
  else decodeNibbles hex (zeros ((zlen hex + 1) / 2)).

Fixpoint prefixLen (a b : bytes) : nat :=
  match a, b with
  | x :: a, y :: b => if x =? y then S (prefixLen a b) else O
  | _, _ => O
  end.

(** ** Hexadecimal keys *)

Definition is_nibble (x : Z) : Prop := 0 <= x < 16.
Definition nibbles (l : bytes) : Prop := Forall is_nibble l.
#[export] Instance is_nibble_dec x : Decision (is_nibble x).
Proof. unfold is_nibble. apply _. Defined.

(** A complete key: nibbles and the terminator. *)
Definition hexkey (k : bytes) : Prop := exists l, nibbles l /\ k = l ++ [16].

Lemma hexkey_cons x k : hexkey (x :: k) <-> (x = 16 /\ k = []) \/ (is_nibble x /\ hexkey k).
Proof.
  split.
  - intros ([|y l]&Hl&He); simplify_eq/=; [by left|].
    apply Forall_cons in Hl as [Hy Hl]. right. split; [done|]. by exists l.
  - intros [[-> ->]|[Hx (l&Hl&->)]]; [exists []; by split; [apply Forall_nil|]|].
    exists (x :: l). split; [by apply Forall_cons|done].
Qed.

Lemma hexkey_nil : ~ hexkey [].
Proof. intros (l&_&He). by destruct l. Qed.

(** What follows a proper prefix of a key is a key, and the prefix is nibbles. *)
Lemma hexkey_app k r : r <> [] -> hexkey (k ++ r) <-> nibbles k /\ hexkey r.
Proof.
  intros Hr. induction k as [|x k IH]; simpl.
  - split; [|by intros [_ ?]]. intros; split; [by apply Forall_nil|done].
  - rewrite hexkey_cons, IH. unfold nibbles. rewrite Forall_cons. split.
    + intros [[_ ?]|?]; [by destruct k|tauto].
    + tauto.
Qed.

Lemma nibbles_no_term k : nibbles k -> ~ hexkey k.
Proof.
  intros Hk (l&_&->). apply Forall_app in Hk as [_ Hk].
  apply Forall_cons in Hk as [[] _]. lia.
Qed.

Lemma hexkey_keybytesToHex b : is_bytes b -> hexkey (keybytesToHex b).
Proof.
  intros Hb. eexists. split; [|done]. induction Hb as [|x b Hx _ IH]; [by apply Forall_nil|].
  unfold is_byte in Hx. simpl. unfold nibbles.
  rewrite !Forall_cons. unfold is_nibble. split_and!; try done.
  - apply Z.div_pos; lia.
  - apply Z.div_lt_upper_bound; lia.
  - apply Z.mod_pos_bound. lia.
  - apply Z.mod_pos_bound. lia.
Qed.

(** ** Round trips *)

(** The nibbles of a byte string. *)
Abbreviation unpack := (flat_map (fun b => [b / 16; b mod 16])).

Lemma length_unpack b : length (unpack b) = (2 * length b)%nat.
Proof. induction b as [|x b IH]; [done|]. simpl in *. lia. Qed.

Lemma pack_byte hi lo : is_nibble hi -> is_nibble lo ->
  Z.lor (u8 (Z.shiftl hi 4)) lo = hi * 16 + lo.
Proof.
  unfold is_nibble. intros Hhi Hlo. pose proof (Z.shiftl_mul_pow2 hi 4 ltac:(lia)) as Hs.
  unfold u8. rewrite Z.mod_small by lia. pose proof (Z.add_lor_land (Z.shiftl hi 4) lo) as Ha.
  enough (Z.land (Z.shiftl hi 4) lo = 0) by lia.
  apply Z.bits_inj'. intros i Hi. rewrite Z.land_spec, Z.bits_0.
  destruct (Z.lt_ge_cases i 4).
  - by rewrite Z.shiftl_spec_low by lia.
  - rewrite (Z.bits_above_log2 lo i); [by rewrite andb_false_r|lia|].
    destruct (decide (lo = 0)) as [->|]; [simpl; lia|].
    apply Z.log2_lt_pow2; [lia|]. pose proof (Z.pow_le_mono_r 2 4 i). lia.
Qed.

Lemma decodeNibbles_spec l : forall buf, nibbles l -> length l = (2 * length buf)%nat ->
  exists b, decodeNibbles l buf = Some b /\ is_bytes b /\ unpack b = l.
Proof.
  induction l as [l IH] using (induction_ltof1 _ (@length Z)). intros buf Hl Hlen.
  destruct l as [|hi [|lo l]], buf as [|x buf]; simpl in Hlen; try lia.
  - exists []. split_and!; [done|by apply Forall_nil|done].
  - do 2 apply Forall_cons in Hl as [? Hl].
    destruct (IH l ltac:(unfold ltof; simpl; lia) buf Hl ltac:(lia)) as (b&Hd&Hb&Hu).
    exists (hi * 16 + lo :: b). simpl. rewrite Hd. simpl. rewrite pack_byte by done.
    unfold is_nibble in *. split_and!; [done|apply is_bytes_cons; split; [unfold is_byte; lia|done]|].
    rewrite Hu. f_equal; [|f_equal].
    + rewrite Z.div_add_l by lia. rewrite Z.div_small; lia.
    + rewrite Z.add_comm, Z.mod_add by lia. apply Z.mod_small. lia.
Qed.

Lemma hasTerm_nibbles k : nibbles k -> hasTerm k = false.
Proof.
  intros Hk. unfold hasTerm. apply andb_false_iff. right. apply bool_decide_eq_false.
  unfold zget. case_match; [|done]. intros Hl%list_elem_of_lookup_2.
  eapply Forall_forall in Hl; [|apply Hk]. unfold is_nibble in Hl. lia.
Qed.

Lemma hasTerm_snoc k : hasTerm (k ++ [16]) = true /\ ztake (zlen (k ++ [16]) - 1) (k ++ [16]) = k.
Proof.
  unfold hasTerm. rewrite zlen_app. change (zlen [16]) with 1. rewrite Z.add_simpl_r.
  pose proof (zlen_nonneg k). split.
  - rewrite (proj2 (Z.gtb_lt _ _)) by lia. simpl. apply bool_decide_eq_true.
    unfold zget. rewrite (proj2 (Z.leb_le _ _)) by lia. unfold zlen. rewrite Nat2Z.id.
    by apply list_lookup_middle.
  - unfold ztake, zlen. rewrite Nat2Z.id. apply take_app_length.
Qed.

Lemma hasTerm_spec k : nibbles k \/ hexkey k ->
  exists l, nibbles l /\ (if hasTerm k then ztake (zlen k - 1) k else k) = l /\
            k = l ++ (if hasTerm k then [16] else []).
Proof.
  intros [Hk|(l&Hl&->)].
  - exists k. rewrite hasTerm_nibbles by done. by rewrite app_nil_r.
  - exists l. destruct (hasTerm_snoc l) as [-> ->]. done.
Qed.

Lemma land_1 z : Z.land z 1 = z mod 2.
Proof. by apply (Z.land_ones z 1). Qed.

Lemma land_1_parity n : Z.land (Z.of_nat (2 * n)) 1 = 0 /\ Z.land (Z.of_nat (S (2 * n))) 1 = 1.
Proof.
  rewrite !land_1. split.
  - replace (Z.of_nat (2 * n)) with (Z.of_nat n * 2) by lia. by apply Z.mod_mul.
  - replace (Z.of_nat (S (2 * n))) with (1 + Z.of_nat n * 2) by lia. by rewrite Z.mod_add.
Qed.

Lemma even_or_odd (n : nat) : exists m, n = (2 * m)%nat \/ n = S (2 * m).
Proof. destruct (Nat.Even_or_Odd n) as [[m ?]|[m ?]]; exists m; lia. Qed.

(** The flag byte: terminator in bit 5, oddness in bit 4, then a nibble. *)
Lemma flag_byte (t : bool) x : is_nibble x ->
  Z.lor (Z.lor (u8 (Z.shiftl (if t then 1 else 0) 5)) (Z.shiftl 1 4)) x
  = (if t then 48 else 16) + x.
Proof.
  intros Hx. destruct t.
  - change (Z.lor _ (Z.shiftl 1 4)) with (u8 (Z.shiftl 3 4)).
    rewrite pack_byte by (done || (unfold is_nibble; lia)). lia.
  - change (Z.lor _ (Z.shiftl 1 4)) with (u8 (Z.shiftl 1 4)).
    rewrite pack_byte by (done || (unfold is_nibble; lia)). lia.
Qed.

(** What [compactToHex] makes of a flag byte and packed nibbles. *)
Lemma compactToHex_flag x c : is_byte x ->
  compactToHex (x :: c) =
  Some ((if Z.land (x / 16) 1 =? 1 then [x mod 16] else []) ++ unpack c
        ++ (if x / 16 >=? 2 then [16] else [])).
Proof.
  intros Hx. unfold compactToHex, keybytesToHex.
  cbv zeta. destruct (hasTerm_snoc (unpack (x :: c))) as [_ ->].
  change (unpack (x :: c)) with (x / 16 :: x mod 16 :: unpack c).
  rewrite zget_0. simpl mbind. set (u := unpack c). set (t := if x / 16 >=? 2 then [16] else []).
  replace (if x / 16 >=? 2 then _ else _) with (x / 16 :: x mod 16 :: u ++ t)
    by (subst t; case_match; simpl; by rewrite ?app_nil_r).
  pose proof (Z.land_ones (x / 16) 1 ltac:(lia)) as Hl. change (Z.ones 1) with 1 in Hl.
  pose proof (Z.mod_pos_bound (x / 16) (2 ^ 1) ltac:(lia)).
  pose proof (zlen_nonneg (u ++ t)).
  rewrite slice_Some by (rewrite ?zlen_cons; lia).
  unfold ztake. rewrite take_ge
    by (unfold zdrop, zlen; rewrite length_drop; simpl length; lia).
  f_equal. case_match; bool_to_prop.
  - by rewrite H1.
  - by replace (Z.land (x / 16) 1) with 0 by lia.
Qed.

Lemma hexToCompact_ok k : nibbles k \/ hexkey k ->
  exists c, hexToCompact k = Some c /\ is_bytes c /\ 0 < zlen c <= zlen k + 1 /\
            compactToHex c = Some k.
Proof.
  intros Hk. destruct (hasTerm_spec k Hk) as (l&Hl&Hs&He).
  unfold hexToCompact. rewrite Hs. set (t := hasTerm k) in *.
  assert (Hkl : zlen l <= zlen k) by (rewrite He, zlen_app; pose proof (zlen_nonneg (if t then [16] else [])); lia).
  destruct (even_or_odd (length l)) as (m&[Hm|Hm]); unfold zlen at 1; rewrite Hm;
    destruct (land_1_parity m) as [Hp Hp']; rewrite ?Hp, ?Hp'; cbn [Z.eqb Pos.eqb].
  - destruct (decodeNibbles_spec l (zdrop 1 (zeros (zlen l / 2 + 1))) Hl) as (b&->&Hb&Hu).
    { unfold zdrop, zeros, zlen. rewrite length_drop, length_replicate, Hm.
      replace (Z.of_nat (2 * m)) with (Z.of_nat m * 2) by lia. rewrite Z.div_mul by lia. lia. }
    eexists. simpl mbind. split; [done|].
    pose proof (length_unpack b) as Hub. rewrite Hu in Hub.
    split_and!; [by apply is_bytes_cons; split; [destruct t; by vm_compute|]|..].
    1,2: rewrite zlen_cons; unfold zlen in *; lia.
    rewrite compactToHex_flag by (destruct t; by vm_compute). rewrite Hu.
    rewrite He at 1. by destruct t.
  - destruct l as [|x l]; [done|]. apply Forall_cons in Hl as [Hx Hl].
    rewrite zget_0. simpl mbind. change (zdrop 1 (x :: l)) with l.
    destruct (decodeNibbles_spec l (zdrop 1 (zeros (zlen (x :: l) / 2 + 1))) Hl) as (b&->&Hb&Hu).
    { unfold zdrop, zeros, zlen. rewrite length_drop, length_replicate, Hm.
      replace (Z.of_nat (S (2 * m))) with (1 + Z.of_nat m * 2) by lia.
      rewrite Z.div_add by lia. simpl in Hm. change (1 / 2) with 0. lia. }
    eexists. simpl mbind. rewrite flag_byte by done. split; [done|].
    pose proof (length_unpack b) as Hub. rewrite Hu in Hub. unfold is_nibble in Hx.
    assert (Hx' : is_byte ((if t then 48 else 16) + x)) by (unfold is_byte; destruct t; lia).
    split_and!; [by apply is_bytes_cons|..].
    1,2: rewrite zlen_cons in *; unfold zlen in *; simpl in Hm; lia.
    rewrite compactToHex_flag by done. rewrite Hu, He.
    replace ((if t then 48 else 16) + x) with (x + (if t then 3 else 1) * 16) by (destruct t; lia).
    rewrite Z.div_add, Z.mod_add, Z.div_small, Z.mod_small by lia. by destruct t.
Qed.

Lemma unpack_inj b b' : unpack b = unpack b' -> b = b'.
Proof.
  revert b'. induction b as [|x b IH]; intros [|y b']; simpl; try done.
  intros [= Hd Hm Hu]. f_equal; [|by apply IH].
  rewrite (Z.div_mod x 16), (Z.div_mod y 16) by lia. congruence.
Qed.

Lemma keybytesToHex_inj b b' : keybytesToHex b = keybytesToHex b' -> b = b'.
Proof. intros [Hu _]%app_inj_tail. by apply unpack_inj. Qed.

Lemma hexToKeybytes_ok b : is_bytes b -> hexToKeybytes (keybytesToHex b) = Some b.
Proof.
  intros Hb. unfold hexToKeybytes, keybytesToHex.
  destruct (hasTerm_snoc (unpack b)) as [-> ->]. unfold zlen at 1. rewrite length_unpack.
  destruct (land_1_parity (length b)) as [-> _]. cbn [Z.eqb negb].
  destruct (hexkey_keybytesToHex b Hb) as (l&Hl&[Hu _]%app_inj_tail). subst l.
  destruct (decodeNibbles_spec (unpack b) (zeros ((zlen (unpack b) + 1) / 2)) Hl) as (b'&->&_&Hb').
  - unfold zeros, zlen. rewrite length_replicate, length_unpack.
    replace (Z.of_nat (2 * length b) + 1) with (1 + Z.of_nat (length b) * 2) by lia.
    rewrite Z.div_add by lia. change (1 / 2) with 0. lia.
  - f_equal. by apply unpack_inj.
Qed.

(** [prefixLen] is the length of the longest common prefix. *)
Lemma prefixLen_spec a b : exists p a' b', a = p ++ a' /\ b = p ++ b' /\
  prefixLen a b = length p /\
  match a', b' with x :: _, y :: _ => x <> y | _, _ => True end.
Proof.
  revert b. induction a as [|x a IH]; intros [|y b]; simpl.
  - by exists [], [], [].
  - by exists [], [], (y :: b).
  - by exists [], (x :: a), [].
  - case_match eqn:E; bool_to_prop.
    + subst y. destruct (IH b) as (p&a'&b'&->&->&->&?). by exists (x :: p), a', b'.
    + by exists [], (x :: a), (y :: b).
Qed.

(** The compact form of a key determines it: unpacking what [hexToCompact]
    produces gives back the nibbles with or without terminator, and the
    conversion between key bytes and nibbles is inverse, too. *)
Lemma key_encodings_roundtrip (k b : bytes) (Hk : nibbles k \/ hexkey k) (Hb : is_bytes b) :
  (exists c, hexToCompact k = Some c /\ compactToHex c = Some k) /\
  hexToKeybytes (keybytesToHex b) = Some b.
Proof.
  split; [|by apply hexToKeybytes_ok].
  destruct (hexToCompact_ok k Hk) as (c&?&_&_&?). by exists c.
Qed.

(** The compact form of a key has at least the flag byte; on the empty string,
    which a corrupt node can hold, [compactToHex] indexes out of range. *)
Lemma compactToHex_panics (c : bytes) (Hc : is_bytes c) : compactToHex c = None <-> c = [].
Proof.
  split; [|by intros ->]. destruct c as [|x c]; [done|].
  apply is_bytes_cons in Hc as [Hx _]. by rewrite compactToHex_flag.
Qed.

