(* ===== verification/TrieTree.v ===== *)
(** Merkle-Patricia trees as mathematical objects.

    A [tree] is what a trie looks like when every node is loaded; [tget] is its
    content.  [wf n t]: the minimal form the trie maintains, for keys of at most
    [n] nibbles.  Trees in minimal form are canonical: equal contents have equal
    trees ([tree_canonical]), which is what makes a root hash identify a state. *)
From S2P Require Import Prelude TrieEncoding.

Inductive tree :=
| TNil
| TValue (v : bytes)
| TShort (k : bytes) (t : tree)
| TFull (ts : list tree).

Lemma tree_ind' (P : tree -> Prop) :
  P TNil -> (forall v, P (TValue v)) -> (forall k t, P t -> P (TShort k t)) ->
  (forall ts, Forall P ts -> P (TFull ts)) -> forall t, P t.
Proof.
  intros HN HV HS HF. fix IH 1. intros [|v|k t|ts]; [done|apply HV|apply HS, IH|].
  apply HF. induction ts; constructor; [apply IH|done].
Qed.

#[export] Instance is_TNil_dec (t : tree) : Decision (t = TNil).
Proof. destruct t; [by left|by right..]. Defined.

(** [k] without its prefix [p]. *)
Fixpoint strip (p k : bytes) : option bytes :=
  match p, k with
  | [], _ => Some k
  | x :: p, y :: k => if x =? y then strip p k else None
  | _ :: _, [] => None
  end.

(** The value at a path. *)
Fixpoint tget (t : tree) (key : bytes) : option bytes :=
  match t with
  | TNil => None
  | TValue v => match key with [] => Some v | _ => None end
  | TShort k t => rest ← strip k key; tget t rest
  | TFull ts =>
      match key with
      | [] => None
      | x :: key => g ← zget (map tget ts) x; g key
      end
  end.

Definition value_ok (v : bytes) : Prop := v <> [] /\ is_bytes v /\ zlen v < 2 ^ 32.

Inductive wf : nat -> tree -> Prop :=
| wf_leaf n k v : hexkey k -> (length k <= n)%nat -> value_ok v -> wf n (TShort k (TValue v))
| wf_ext n m k ts : k <> [] -> nibbles k -> n = (length k + m)%nat -> wf m (TFull ts) ->
    wf n (TShort k (TFull ts))
| wf_full n ts : length ts = 17%nat ->
    (forall i c, ts !! i = Some c -> (i < 16)%nat -> c <> TNil -> wf n c) ->
    (forall c, ts !! 16%nat = Some c -> c = TNil \/ exists v, c = TValue v /\ value_ok v) ->
    (exists i j c d, i <> j /\ ts !! i = Some c /\ ts !! j = Some d /\ c <> TNil /\ d <> TNil) ->
    wf (S n) (TFull ts).

(** The empty trie or a tree in minimal form. *)
Definition wf0 (n : nat) (t : tree) : Prop := t = TNil \/ wf n t.

(** ** Paths *)

Lemma strip_app p k : strip p (p ++ k) = Some k.
Proof. induction p as [|x p IH]; simpl; [done|]. by rewrite Z.eqb_refl. Qed.

Lemma strip_Some p k r : strip p k = Some r <-> k = p ++ r.
Proof.
  split; [|intros ->; apply strip_app].
  revert k. induction p as [|x p IH]; intros k; simpl; [congruence|].
  destruct k as [|y k]; [done|]. case_match eqn:E; [|done]. bool_to_prop. subst y.
  intros ->%IH. done.
Qed.

Lemma tget_short k t q : tget (TShort k t) (k ++ q) = tget t q.
Proof. simpl. by rewrite strip_app. Qed.

Lemma tget_short_inv k t q v : tget (TShort k t) q = Some v ->
  exists r, q = k ++ r /\ tget t r = Some v.
Proof. simpl. intros (r&Hs%strip_Some&Hr)%bind_Some. by exists r. Qed.

Lemma tget_full ts x k :
  tget (TFull ts) (x :: k) = (c ← zget ts x; tget c k).
Proof.
  simpl. unfold zget. case_match; [|done]. rewrite list_lookup_fmap.
  by destruct (ts !! Z.to_nat x).
Qed.

Lemma tget_child ts (i : nat) k c : ts !! i = Some c ->
  tget (TFull ts) (Z.of_nat i :: k) = tget c k.
Proof.
  intros Hc. rewrite tget_full. unfold zget.
  rewrite (proj2 (Z.leb_le _ _)) by lia. by rewrite Nat2Z.id, Hc.
Qed.

(** The children of a full node are its keys' first elements. *)
Lemma tget_full_inv ts k v : tget (TFull ts) k = Some v ->
  exists i c r, k = Z.of_nat i :: r /\ ts !! i = Some c /\ tget c r = Some v.
Proof.
  destruct k as [|x k]; [done|]. rewrite tget_full. unfold zget.
  destruct (0 <=? x) eqn:Ex; [|done]. bool_to_prop. intros (c&Hc&Hv)%bind_Some.
  exists (Z.to_nat x), c, k. by rewrite Z2Nat.id.
Qed.

Lemma wf_not_nil n t : wf n t -> t <> TNil.
Proof. by intros []. Qed.

(** ** Contents of a tree in minimal form *)

Lemma tget_key n t : wf n t -> forall k v, tget t k = Some v ->
  hexkey k /\ (length k <= n)%nat /\ value_ok v.
Proof.
  induction 1 as [n k' v' Hk Hl Hv|n m k' ts Hk Hn -> _ IH|n ts Hlen _ IH Hlast _]; intros k v.
  - intros (r&->&Hr)%tget_short_inv. destruct r; [|done]. rewrite app_nil_r. by simplify_eq/=.
  - intros (r&->&Hr)%tget_short_inv. destruct (IH r v Hr) as (?&?&?). rewrite length_app. split_and!; [|lia|done].
    apply hexkey_app; [|done]. intros ->. by apply hexkey_nil in H.
  - intros (i&c&r&->&Hc&Hg)%tget_full_inv.
    pose proof (lookup_lt_Some _ _ _ Hc) as Hi. rewrite hexkey_cons. simpl.
    destruct (decide (i = 16%nat)) as [->|].
    + destruct (Hlast c Hc) as [->|(v'&->&Hv)]; [done|]. destruct r; [|done].
      simplify_eq/=. split_and!; [by left|lia|done].
    + destruct (IH i c Hc ltac:(lia) ltac:(by intros ->) r v Hg) as (?&?&?).
      split_and!; [|lia|done]. right. split; [unfold is_nibble; lia|done].
Qed.

Lemma tget_exists n t : wf n t -> exists k v, tget t k = Some v.
Proof.
  induction 1 as [n k' v' Hk Hl Hv|n m k' ts Hk Hn -> _ IH|n ts Hlen Hwf IH Hlast Htwo].
  - exists k', v'. by rewrite <- (app_nil_r k') at 2; rewrite tget_short.
  - destruct IH as (r&v&Hr). exists (k' ++ r), v. by rewrite tget_short.
  - destruct Htwo as (i&_&c&_&_&Hi&_&Hc&_).
    pose proof (lookup_lt_Some _ _ _ Hi) as Hlt.
    destruct (decide (i = 16%nat)) as [->|].
    + destruct (Hlast c Hi) as [->|(v&->&_)]; [done|].
      exists [Z.of_nat 16], v. by rewrite (tget_child ts 16 [] _ Hi).
    + destruct (IH i c Hi ltac:(lia) Hc) as (r&v&Hr).
      exists (Z.of_nat i :: r), v. by rewrite (tget_child ts i r c Hi).
Qed.

(** Two keys that differ in their first element. *)
Lemma full_two_keys n ts : wf n (TFull ts) ->
  exists x y r s v w, x <> y /\ tget (TFull ts) (x :: r) = Some v /\ tget (TFull ts) (y :: s) = Some w.
Proof.
  inversion 1 as [| |? ? Hlen Hwf Hlast (i&j&c&d&Hij&Hi&Hj&Hc&Hd)]; subst.
  assert (Hin : forall i c, ts !! i = Some c -> c <> TNil -> exists r v, tget c r = Some v).
  { intros i' c' Hi' Hc'. pose proof (lookup_lt_Some _ _ _ Hi') as Hlt.
    destruct (decide (i' = 16%nat)) as [->|].
    - destruct (Hlast c' Hi') as [->|(v&->&_)]; [done|]. by exists [], v.
    - eapply tget_exists, (Hwf i' c'); [done|lia|done]. }
  destruct (Hin i c Hi Hc) as (r&v&Hr), (Hin j d Hj Hd) as (s&w&Hs).
  exists (Z.of_nat i), (Z.of_nat j), r, s, v, w.
  split; [lia|]. by rewrite (tget_child _ _ _ _ Hi), (tget_child _ _ _ _ Hj).
Qed.

(** ** Canonicity *)

(** Keys below a short node start with its key; [k] is the longest such prefix
    when two of them part right after it. *)
Lemma common_prefix_le (p q r s : bytes) x y u w : x <> y ->
  p ++ x :: r = q ++ u -> p ++ y :: s = q ++ w -> exists z, p = q ++ z.
Proof.
  intros Hxy. revert q. induction p as [|a p IH]; intros [|b q] H1 H2; simpl in *.
  - by exists [].
  - congruence.
  - by exists (a :: p).
  - injection H1 as -> H1. injection H2 as H2. destruct (IH q H1 H2) as (z&->). by exists z.
Qed.

Lemma ext_key_le n m k k' ts ts' : wf n (TShort k (TFull ts)) -> wf m (TShort k' (TFull ts')) ->
  (forall key, tget (TShort k (TFull ts)) key = tget (TShort k' (TFull ts')) key) ->
  exists z, k = k' ++ z.
Proof.
  intros H _ Heq. inversion H as [|? ? ? ? _ _ _ Hf|]; subst.
  destruct (full_two_keys _ _ Hf) as (x&y&r&s&v&w&Hxy&Hx&Hy).
  assert (Hin : forall q u, tget (TFull ts) q = Some u -> exists z, k ++ q = k' ++ z).
  { intros q u Hq. specialize (Heq (k ++ q)). rewrite tget_short, Hq in Heq. symmetry in Heq.
    apply tget_short_inv in Heq as (z&Hz&_). by exists z. }
  destruct (Hin _ _ Hx) as (z&Hz), (Hin _ _ Hy) as (z'&Hz').
  by eapply common_prefix_le.
Qed.

Lemma leaf_single k v k1 v1 : tget (TShort k (TValue v)) k1 = Some v1 -> k1 = k /\ v1 = v.
Proof.
  intros (r&->&Hr)%tget_short_inv. destruct r; [|done]. rewrite app_nil_r. by simplify_eq/=.
Qed.

(** A tree with a full node holds more than one key, so it is no leaf. *)
Lemma leaf_vs_full n k v k' ts : wf n (TFull ts) ->
  ~ (forall key, tget (TShort k (TValue v)) (k' ++ key) = tget (TFull ts) key).
Proof.
  intros H Heq. destruct (full_two_keys _ _ H) as (x&y&r&s&v1&w&Hxy&Hx&Hy).
  rewrite <- Heq in Hx, Hy. apply leaf_single in Hx as [Hx _], Hy as [Hy _].
  rewrite <- Hy in Hx. apply app_inv_head in Hx. congruence.
Qed.

(** All keys below a short node begin alike. *)
Lemma short_vs_full n m k ts ts' : k <> [] -> wf n (TFull ts) -> wf m (TFull ts') ->
  ~ (forall key, tget (TShort k (TFull ts)) key = tget (TFull ts') key).
Proof.
  intros Hk _ H Heq. destruct (full_two_keys _ _ H) as (x&y&r&s&v&w&Hxy&Hx&Hy).
  rewrite <- Heq in Hx, Hy. destruct k as [|z k]; [done|].
  apply tget_short_inv in Hx as (?&Hx&_), Hy as (?&Hy&_). simpl in Hx, Hy. congruence.
Qed.

Lemma tget_nil_ext n t : wf n t -> ~ (forall key, tget t key = None).
Proof. intros H Heq. destruct (tget_exists n t H) as (k&v&Hk). congruence. Qed.

Lemma tree_canonical n t : wf n t -> forall m t', wf m t' ->
  (forall key, tget t key = tget t' key) -> t = t'.
Proof.
  induction 1 as [n k v Hk Hl Hv|n m k ts Hk Hn -> Hf IH|n ts Hlen Hwf IH Hlast Htwo];
    intros m' t' Ht' Heq.
  - destruct Ht' as [? k' v' Hk' _ _|? ? k' ts' _ _ _ Hf'|? ts'].
    + assert (Hg : tget (TShort k (TValue v)) k = Some v)
        by (rewrite <- (app_nil_r k) at 2; by rewrite tget_short).
      rewrite Heq in Hg. by apply leaf_single in Hg as [-> ->].
    + destruct (leaf_vs_full _ k v k' _ Hf'). intros key. by rewrite Heq, tget_short.
    + destruct (leaf_vs_full (S n0) k v [] ts' ltac:(by constructor)). apply Heq.
  - destruct Ht' as [? k' v' Hk' _ _|? m' k' ts' Hk' ? -> Hf'|? ts'].
    + destruct (leaf_vs_full _ k' v' k _ Hf). intros key. by rewrite <- Heq, tget_short.
    + destruct (ext_key_le _ _ k k' ts ts' ltac:(by econstructor) ltac:(by econstructor) Heq) as (z&Hz).
      destruct (ext_key_le _ _ k' k ts' ts ltac:(by econstructor) ltac:(by econstructor)
                  ltac:(by intros; rewrite Heq)) as (z'&Hz').
      assert (k = k') as ->.
      { rewrite Hz, <- app_assoc in Hz'. rewrite <- (app_nil_r k') in Hz' at 1.
        apply app_inv_head in Hz'. destruct z; [|done]. by rewrite Hz, app_nil_r. }
      f_equal. eapply IH; [done|]. intros key.
      specialize (Heq (k' ++ key)). by rewrite !tget_short in Heq.
    + by destruct (short_vs_full m (S n) k ts ts' Hk Hf ltac:(by constructor)).
  - destruct Ht' as [? k' v' Hk' _ _|? m' k' ts' Hk' ? -> Hf'|n' ts' Hlen' Hwf' Hlast' _].
    + destruct (leaf_vs_full (S n) k' v' [] ts ltac:(by constructor)).
      intros key. symmetry. apply Heq.
    + destruct (short_vs_full m' (S n) k' ts' ts Hk' Hf' ltac:(by constructor)).
      by intros; rewrite Heq.
    + f_equal. apply list_eq_same_length with 17%nat; [done|done|]. intros i c d Hi Hc Hd.
      assert (Hcd : forall key, tget c key = tget d key).
      { intros key. rewrite <- (tget_child ts i key c Hc), <- (tget_child ts' i key d Hd). apply Heq. }
      destruct (decide (i = 16%nat)) as [->|Hne].
      * specialize (Hcd []). destruct (Hlast c Hc) as [->|(?&->&_)], (Hlast' d Hd) as [->|(?&->&_)];
          simpl in Hcd; congruence.
      * destruct (decide (c = TNil)) as [->|Hcn], (decide (d = TNil)) as [->|Hdn].
        -- done.
        -- destruct (tget_nil_ext _ d (Hwf' i d Hd ltac:(lia) Hdn)). by intros; rewrite <- Hcd.
        -- destruct (tget_nil_ext _ c (Hwf i c Hc ltac:(lia) Hcn)). apply Hcd.
        -- apply (IH i c Hc ltac:(lia) Hcn _ d (Hwf' i d Hd ltac:(lia) Hdn) Hcd).
Qed.
