(* ===== verification/TrieEdit.v ===== *)
(** Edits of trees in minimal form: splitting a short node, replacing a child,
    collapsing a full node with one child left. *)
From S2P Require Import Prelude TrieEncoding TrieTree.

(** The children of a full node: subtrees, then the value. *)
Definition child_ok (m : nat) (i : nat) (c : tree) : Prop :=
  c = TNil \/ ((i < 16)%nat /\ wf m c) \/ (i = 16%nat /\ exists v, c = TValue v /\ value_ok v).

Lemma wf_children m ts i c : wf (S m) (TFull ts) -> ts !! i = Some c -> child_ok m i c.
Proof.
  inversion 1 as [| |? ? Hlen Hwf Hlast _]; subst. intros Hc.
  pose proof (lookup_lt_Some _ _ _ Hc). unfold child_ok.
  destruct (decide (c = TNil)); [by left|right]. destruct (decide (i = 16%nat)) as [->|].
  - right. split; [done|]. destruct (Hlast c Hc) as [->|?]; done.
  - left. split; [lia|]. eapply Hwf; eauto with lia.
Qed.

Lemma wf_full_length m ts : wf m (TFull ts) -> length ts = 17%nat /\ exists m', m = S m'.
Proof. inversion 1; subst. split; [done|by eexists]. Qed.

Lemma wf_full_intro m ts : length ts = 17%nat -> (forall i c, ts !! i = Some c -> child_ok m i c) ->
  (exists i j c d, i <> j /\ ts !! i = Some c /\ ts !! j = Some d /\ c <> TNil /\ d <> TNil) ->
  wf (S m) (TFull ts).
Proof.
  intros Hlen Hc Htwo. constructor; [done|..|done].
  - intros i c Hi Hlt Hn. destruct (Hc i c Hi) as [->|[[_ ?]|[-> _]]]; [done|done|lia].
  - intros c Hi. destruct (Hc _ c Hi) as [->|[[? _]|[_ ?]]]; [by left|lia|by right].
Qed.

(** ** Positions *)

(** What a position holds and the rest of the key there: a subtree with a key, or
    a value slot with nothing left. *)
Definition at_pos (m : nat) (t : tree) (rest : bytes) : Prop :=
  (wf0 m t /\ hexkey rest) \/
  ((t = TNil \/ exists v, t = TValue v /\ value_ok v) /\ rest = []).

Lemma at_pos_wf m t rest : wf m t -> at_pos m t rest -> hexkey rest.
Proof. intros Hwf [[_ ?]|[[->|(?&->&_)] ?]]; [done|inversion Hwf..]. Qed.

Lemma hexkey_range x rest : hexkey (x :: rest) -> 0 <= x < 17.
Proof. intros [[-> _]|[Hx _]]%hexkey_cons; [lia|unfold is_nibble in Hx; lia]. Qed.

Lemma zget_lookup {A} (l : list A) x c : zget l x = Some c <-> l !! Z.to_nat x = Some c /\ 0 <= x.
Proof.
  unfold zget. case_match eqn:E; bool_to_prop; [|split; [done|lia]]. split; [done|by intros []].
Qed.

Lemma at_pos_child m ts x rest : wf (S m) (TFull ts) -> hexkey (x :: rest) ->
  exists c, zget ts x = Some c /\ at_pos m c rest /\ 0 <= x < 17.
Proof.
  intros Hwf Hk. destruct (wf_full_length _ _ Hwf) as [Hlen _].
  pose proof (hexkey_range x rest Hk) as Hx.
  destruct (zget_Some ts x) as [c Hc]; [unfold zlen; lia|]. exists c. split_and!; [done| |lia..].
  apply zget_lookup in Hc as [Hc _]. pose proof (wf_children m ts _ c Hwf Hc) as Hch.
  apply hexkey_cons in Hk as [[-> ->]|[Hx' Hk]].
  - right. split; [|done]. destruct Hch as [->|[[? _]|[_ ?]]]; [by left|simpl in *; lia|by right].
  - left. split; [|done]. unfold is_nibble in Hx'.
    destruct Hch as [->|[[_ ?]|[? _]]]; [by left|by right|lia].
Qed.

Lemma at_pos_short m k c r : wf m (TShort k c) -> hexkey (k ++ r) ->
  exists m', at_pos m' c r /\ (m' <= m)%nat /\ k <> [] /\
             ((length (k ++ r) <= m)%nat -> (length r <= m')%nat) /\
             ((exists ts, c = TFull ts /\ m = (length k + m')%nat) \/ (r = [] /\ exists v, c = TValue v)).
Proof.
  intros Hwf Hk. rewrite length_app.
  inversion Hwf as [? ? v' Hk' Hle Hv|? m' ? ts Hk0 Hk' ? Hf'|]; subst.
  - assert (r = []) as ->.
    { destruct r; [done|]. apply hexkey_app in Hk as [Hk _]; [|done]. by apply nibbles_no_term in Hk. }
    exists 0%nat. split_and!; [|lia|by intros ->; apply hexkey_nil in Hk'|simpl; lia|by right; eauto].
    right. split; [right; by exists v'|done].
  - exists m'. split_and!; [|lia|done|lia|by left; eauto]. left. split; [by right|].
    destruct r; [rewrite app_nil_r in Hk; by apply nibbles_no_term in Hk|].
    by apply hexkey_app in Hk as [_ ?].
Qed.

(** What an insertion leaves at a position. *)
Definition filled (m : nat) (t : tree) (rest : bytes) : Prop :=
  (wf m t /\ hexkey rest) \/ ((exists v, t = TValue v /\ value_ok v) /\ rest = []).

Lemma filled_child m i c rest x : filled m c rest -> hexkey (x :: rest) -> i = Z.to_nat x ->
  child_ok m i c /\ c <> TNil.
Proof.
  intros Hf Hk ->. apply hexkey_cons in Hk as [[-> ->]|[Hx Hk]].
  - destruct Hf as [[_ Hk]|[(v&->&Hv) _]]; [by apply hexkey_nil in Hk|].
    split; [|done]. right. right. split; [done|]. by exists v.
  - destruct Hf as [[Hc _]|[_ ->]]; [|by apply hexkey_nil in Hk].
    split; [|by eapply wf_not_nil]. right. left. unfold is_nibble in Hx. split; [lia|done].
Qed.

(** ** Replacing a child *)

Lemma tget_set_child ts x c z r : 0 <= x < zlen ts ->
  tget (TFull (<[Z.to_nat x := c]> ts)) (z :: r) = if z =? x then tget c r else tget (TFull ts) (z :: r).
Proof.
  unfold zlen. intros Hx. rewrite !tget_full. unfold zget. case_match eqn:E; bool_to_prop.
  - case_match; bool_to_prop.
    + subst z. by rewrite list_lookup_insert_eq by lia.
    + by rewrite list_lookup_insert_ne by lia.
  - rewrite (proj2 (Z.eqb_neq _ _)) by lia. done.
Qed.

Lemma set_child_ok m ts x c : length ts = 17%nat -> (forall i d, ts !! i = Some d -> child_ok m i d) ->
  0 <= x < 17 -> child_ok m (Z.to_nat x) c ->
  length (<[Z.to_nat x := c]> ts) = 17%nat /\
  (forall i d, <[Z.to_nat x := c]> ts !! i = Some d -> child_ok m i d).
Proof.
  intros Hlen Hts Hx Hc. split; [by rewrite length_insert|]. intros i d.
  destruct (decide (i = Z.to_nat x)) as [->|Hi].
  - rewrite list_lookup_insert_eq by lia. by intros [= <-].
  - rewrite list_lookup_insert_ne by done. apply Hts.
Qed.

Lemma wf_set_child m ts x c : wf (S m) (TFull ts) -> 0 <= x < 17 -> child_ok m (Z.to_nat x) c ->
  c <> TNil -> wf (S m) (TFull (<[Z.to_nat x := c]> ts)).
Proof.
  intros Hwf Hx Hc Hn. destruct (wf_full_length _ _ Hwf) as [Hlen _].
  destruct (set_child_ok m ts x c Hlen (fun i d => wf_children m ts i d Hwf) Hx Hc) as [Hl Hch].
  apply wf_full_intro; [done|done|].
  inversion Hwf as [| |? ? _ _ _ (i&j&ci&cj&Hij&Hi&Hj&Hci&Hcj)]; subst.
  assert (exists k ck, k <> Z.to_nat x /\ ts !! k = Some ck /\ ck <> TNil) as (k&ck&Hk&Hck&Hnk).
  { destruct (decide (i = Z.to_nat x)) as [->|]; [by exists j, cj|by exists i, ci]. }
  exists k, (Z.to_nat x), ck, c.
  rewrite list_lookup_insert_ne, list_lookup_insert_eq by (done || lia). done.
Qed.

(** ** Splitting a short node *)

(** A subtree behind a possibly empty prefix. *)
Definition pre (k : bytes) (c : tree) : tree := match k with [] => c | _ => TShort k c end.

Lemma tget_pre k c r : tget (pre k c) r = tget (TShort k c) r.
Proof. by destruct k. Qed.

Lemma strip_self k : strip k k = Some [].
Proof. apply strip_Some. by rewrite app_nil_r. Qed.

Lemma strip_cons_ne x y k r : x <> y -> strip (x :: k) (y :: r) = None.
Proof. intros. simpl. by rewrite (proj2 (Z.eqb_neq _ _)). Qed.

Lemma strip_app_l p q k : strip (p ++ q) k = (r ← strip p k; strip q r).
Proof.
  revert k. induction p as [|x p IH]; intros k; [done|]. destruct k as [|y k]; [done|].
  simpl. case_match; [apply IH|done].
Qed.

(** What is below the first nibble after a prefix of the key of a short node. *)
Lemma short_tail m q x k c : wf (length q + S m) (TShort (q ++ x :: k) c) ->
  nibbles q /\ 0 <= x < 17 /\ child_ok m (Z.to_nat x) (pre k c) /\ pre k c <> TNil.
Proof.
  inversion 1 as [? ? v Hk Hle Hv|? m' ? ts Hk0 Hk Hm Hf|]; subst.
  - apply hexkey_app in Hk as [Hq Hk]; [|done]. split; [done|].
    split; [by eapply hexkey_range|]. apply hexkey_cons in Hk as [[-> ->]|[Hx Hk]].
    + split; [|done]. right. right. split; [done|]. by exists v.
    + destruct k as [|y k]; [by apply hexkey_nil in Hk|]. split; [|done]. right. left.
      unfold is_nibble in Hx. split; [lia|]. constructor; [done| |done].
      rewrite length_app in Hle. simpl in *. lia.
  - apply Forall_app in Hk as [Hq Hk]. apply Forall_cons in Hk as [Hx Hk].
    unfold is_nibble in Hx. rewrite length_app in Hm. simpl in Hm.
    split_and!; [done|lia|lia| |by destruct k].
    right. left. split; [lia|]. destruct k as [|y k]; simpl in *.
    + by replace m with m' by lia.
    + econstructor; [done|done| |done]. simpl. lia.
Qed.

(** Two subtrees that part after a common prefix. *)
Definition branch (x : Z) (cx : tree) (y : Z) (cy : tree) : tree :=
  TFull (<[Z.to_nat y := cy]> (<[Z.to_nat x := cx]> (replicate 17 TNil))).

Lemma branch_ok m x cx y cy : x <> y -> 0 <= x < 17 -> 0 <= y < 17 ->
  child_ok m (Z.to_nat x) cx -> child_ok m (Z.to_nat y) cy -> cx <> TNil -> cy <> TNil ->
  wf (S m) (branch x cx y cy).
Proof.
  intros Hxy Hx Hy Hcx Hcy Hnx Hny.
  destruct (set_child_ok m (replicate 17 TNil) x cx) as [Hl1 Hc1]; [done| |done|done|].
  { intros i d [-> _]%lookup_replicate. by left. }
  destruct (set_child_ok m _ y cy Hl1 Hc1 Hy Hcy) as [Hl2 Hc2].
  apply wf_full_intro; [done|done|]. exists (Z.to_nat x), (Z.to_nat y), cx, cy.
  rewrite list_lookup_insert_ne, !list_lookup_insert_eq by (rewrite ?length_insert, ?length_replicate; lia).
  split_and!; [lia|done..].
Qed.

Lemma tget_branch x cx y cy z r : 0 <= x < 17 -> 0 <= y < 17 ->
  tget (branch x cx y cy) (z :: r) = if z =? y then tget cy r else if z =? x then tget cx r else None.
Proof.
  intros Hx Hy. unfold branch.
  rewrite tget_set_child by (unfold zlen; rewrite length_insert, length_replicate; lia).
  rewrite tget_set_child by (unfold zlen; rewrite length_replicate; lia).
  rewrite tget_full. destruct (zget (replicate 17 TNil) z) as [c|] eqn:E; [|done].
  apply zget_lookup in E as [[-> _]%lookup_replicate _]. done.
Qed.

(** The content with one key set. *)
Definition tput (get : bytes -> option bytes) (key : bytes) (v : option bytes) (k : bytes) : option bytes :=
  if bool_decide (k = key) then v else get k.

Lemma tget_leaf k v r : tget (TShort k (TValue v)) r = if bool_decide (r = k) then Some v else None.
Proof.
  simpl. destruct (strip k r) as [s|] eqn:E; simpl.
  - apply strip_Some in E as ->. destruct s.
    + by rewrite app_nil_r, bool_decide_eq_true_2.
    + rewrite bool_decide_eq_false_2; [done|]. rewrite <- (app_nil_r k) at 2. by intros ?%app_inv_head.
  - rewrite bool_decide_eq_false_2; [done|]. intros ->. by rewrite strip_self in E.
Qed.

(** Inserting a key that parts from the one of a short node. *)
Lemma split_short m q x k c y key v : x <> y ->
  wf m (TShort (q ++ x :: k) c) -> wf m (TShort (q ++ y :: key) (TValue v)) ->
  wf m (pre q (branch x (pre k c) y (pre key (TValue v)))) /\
  forall r, tget (pre q (branch x (pre k c) y (pre key (TValue v)))) r =
            tput (tget (TShort (q ++ x :: k) c)) (q ++ y :: key) (Some v) r.
Proof.
  intros Hxy Hk Hkey.
  assert (exists m', m = (length q + S m')%nat) as (m'&->).
  { exists (m - length q - 1)%nat. inversion Hkey as [? ? ? _ Hl _| |]; subst.
    rewrite length_app in Hl. simpl in Hl. lia. }
  destruct (short_tail _ _ _ _ _ Hk) as (Hq&Hx&Hcx&Hnx), (short_tail _ _ _ _ _ Hkey) as (_&Hy&Hcy&Hny).
  pose proof (branch_ok m' x _ y _ Hxy Hx Hy Hcx Hcy Hnx Hny) as Hb. split.
  { destruct q as [|z q]; [done|]. by econstructor. }
  intros r. rewrite tget_pre. unfold tput. cbn [tget]. rewrite strip_app_l.
  destruct (strip q r) as [s|] eqn:E; cbn [mbind option_bind].
  - apply strip_Some in E as ->. destruct s as [|z s].
    { simpl. rewrite bool_decide_eq_false_2; [done|]. intros ?%app_inv_head. done. }
    change (tget (TFull ?l)) with (tget (TFull l)). fold (branch x (pre k c) y (pre key (TValue v))).
    rewrite tget_branch by done. case_match eqn:Ez; bool_to_prop.
    + subst z. rewrite tget_pre, tget_leaf, strip_cons_ne by done. simpl.
      destruct (decide (s = key)) as [->|]; [by rewrite !bool_decide_eq_true_2|].
      rewrite !bool_decide_eq_false_2; [done| |done]. intros ?%app_inv_head. congruence.
    + rewrite bool_decide_eq_false_2 by (intros ?%app_inv_head; congruence). simpl.
      rewrite (Z.eqb_sym x z). case_match; [|done]. apply tget_pre.
  - rewrite bool_decide_eq_false_2; [done|]. intros ->. by rewrite strip_app in E.
Qed.

(** ** Joining short nodes and collapsing full ones *)

(** A key prefix in front of a tree: short nodes are joined. *)
Definition join (k : bytes) (c : tree) : tree :=
  match c with TShort k' c' => TShort (k ++ k') c' | _ => TShort k c end.

Lemma tget_join k c s : tget (join k c) s = tget (TShort k c) s.
Proof. destruct c; try done. cbn [join tget]. rewrite strip_app_l. by destruct (strip k s). Qed.

Lemma wf_join m k c : k <> [] -> nibbles k -> wf m c -> wf (length k + m) (join k c).
Proof.
  intros Hk Hn. destruct 1 as [n k' v Hk' Hl Hv|n m k' ts Hk' Hn' -> Hf|n ts]; simpl.
  - constructor; [|rewrite length_app; lia|done]. apply hexkey_app; [|done].
    intros ->. by apply hexkey_nil in Hk'.
  - apply (wf_ext _ m); [by destruct k|by apply Forall_app|rewrite length_app; lia|done].
  - apply (wf_ext _ (S n)); [done|done|done|by constructor].
Qed.

Lemma tget_short_one a c x s : tget (TShort [a] c) (x :: s) = if a =? x then tget c s else None.
Proof. simpl. by case_match. Qed.

(** The only child [c] of a full node, at index [i]. *)
Lemma collapse_ok m ts i c : length ts = 17%nat -> ts !! i = Some c -> c <> TNil -> child_ok m i c ->
  (forall j d, ts !! j = Some d -> j <> i -> d = TNil) ->
  wf (S m) (join [Z.of_nat i] c) /\ forall s, tget (join [Z.of_nat i] c) s = tget (TFull ts) s.
Proof.
  intros Hlen Hi Hn Hc Hother. pose proof (lookup_lt_Some _ _ _ Hi). split.
  - destruct Hc as [->|[[Hlt Hc]|[-> (v&->&Hv)]]]; [done| |].
    + apply (wf_join m [Z.of_nat i]); [done| |done]. apply Forall_singleton. unfold is_nibble. lia.
    + constructor; [|simpl; lia|done]. exists []. split; [constructor|done].
  - intros s. rewrite tget_join. destruct s as [|x s]; [done|]. rewrite tget_short_one.
    case_match eqn:E; bool_to_prop.
    + subst x. by rewrite (tget_child ts i s c Hi).
    + rewrite tget_full. destruct (zget ts x) as [d|] eqn:Ed; [|done]. simpl.
      apply zget_lookup in Ed as [Ed Hx]. by rewrite (Hother _ d Ed) by lia.
Qed.

(** Removing a child leaves two children, or one. *)
Lemma remove_child m ts x c : wf (S m) (TFull ts) -> 0 <= x < 17 -> child_ok m (Z.to_nat x) c ->
  exists i d, <[Z.to_nat x := c]> ts !! i = Some d /\ d <> TNil.
Proof.
  intros Hwf Hx Hc. inversion Hwf as [| |? ? _ _ _ (i&j&ci&cj&Hij&Hi&Hj&Hci&Hcj)]; subst.
  destruct (decide (i = Z.to_nat x)) as [->|].
  - exists j, cj. by rewrite list_lookup_insert_ne.
  - exists i, ci. by rewrite list_lookup_insert_ne.
Qed.
