(* ===== verification/TrieNode.v ===== *)
(** [trie/node.go] and [trie/hasher.go]: nodes, their decoding from the database
    and the computation of their hashes; [tiltdb/memory_database.go].

    The [node] interface is an inductive type whose [nilNode] is the nil
    interface.  A node is never modified after it is linked into a trie (every
    update copies it), so nodes are values. *)
From S2P Require Import Prelude CommonTypes Rlp VmTypes TrieEncoding.

(** ** Databases *)

(** [trie.DatabaseReader] and [trie.DatabaseWriter].  [Db_Get] is [None] for an
    error or a nil value, [Db_Put] for an error. *)
Class Database (D : Type) := {
  Db_Get : bytes -> D -> option bytes;
  Db_Put : bytes -> bytes -> D -> option D;
}.

(** What the trie relies on: [Put] stores the value and nothing else. *)
Class DatabaseOk (D : Type) `{Database D} : Prop := {
  Db_Get_Put k v d d' k' : Db_Put k v d = Some d' ->
    Db_Get k' d' = if bool_decide (k' = k) then Some v else Db_Get k' d;
}.

(** [tiltdb.MemDatabase] *)
Definition MemDatabase : Type := gmap bytes bytes.
Definition NewMemDatabase : MemDatabase := ∅.
Definition MemDatabase_Put (key value : bytes) (db : MemDatabase) : option MemDatabase :=
  Some (<[key := Common.CopyBytes value]> db).
Definition MemDatabase_Get (key : bytes) (db : MemDatabase) : option bytes := db !! key.
Definition MemDatabase_Delete (key : bytes) (db : MemDatabase) : MemDatabase := delete key db.

(** [tiltdb.memBatch]: puts are collected and applied in order by [Write]. *)
Definition memBatch : Type := list (bytes * bytes).
Definition memBatch_Put (key value : bytes) (b : memBatch) : memBatch :=
  b ++ [(Common.CopyBytes key, Common.CopyBytes value)].
Definition memBatch_Write (b : memBatch) (db : gmap bytes bytes) : gmap bytes bytes :=
  fold_left (fun (db : gmap bytes bytes) kv => <[kv.1 := kv.2]> db) b db.

#[export] Instance MemDatabase_Database : Database MemDatabase := {
  Db_Get := MemDatabase_Get;
  Db_Put := MemDatabase_Put;
}.

(** ** Nodes *)

Record nodeFlag := { flag_hash : option bytes; gen : Z; dirty : bool }.

Inductive node :=
| nilNode
| fullNode (Children : list node) (flags : nodeFlag)
| shortNode (Key : bytes) (Val : node) (flags : nodeFlag)
| hashNode (h : bytes)
| valueNode (v : bytes).

Definition u16 (z : Z) : Z := z mod 2 ^ 16.

Definition flag_canUnload (f : nodeFlag) (cachegen cachelimit : Z) : bool :=
  negb f.(dirty) && (u16 (cachegen - f.(gen)) >=? cachelimit).

Definition canUnload (n : node) (cachegen cachelimit : Z) : bool :=
  match n with
  | fullNode _ f | shortNode _ _ f => flag_canUnload f cachegen cachelimit
  | _ => false
  end.

(** [n.cache()]: calling a method of the nil interface panics. *)
Definition cache (n : node) : option (option bytes * bool) :=
  match n with
  | nilNode => None
  | fullNode _ f | shortNode _ _ f => Some (f.(flag_hash), f.(dirty))
  | hashNode _ | valueNode _ => Some (None, true)
  end.

Definition is_nil (n : node) : bool := match n with nilNode => true | _ => false end.

(** ** Decoding *)

Inductive decodeFailure :=
| errUnexpectedEOF
| errRlp (e : rlperr)
| errNotList (e : rlperr)
| errElements (c : Z)
| errValueNode (e : rlperr)
| errOversized (size : Z)
| errRefSize (size : Z).

(** An error with the path to the invalid child, innermost first. *)
Inductive ctx := ctx_short | ctx_full | ctx_val | ctx_index (i : Z).
Inductive decodeErr :=
| plainError (what : decodeFailure)
| decodeError (what : decodeFailure) (stack : list ctx).

Definition wrapError (e : decodeErr) (c : ctx) : decodeErr :=
  match e with
  | decodeError what stack => decodeError what (stack ++ [c])
  | plainError what => decodeError what [c]
  end.

Definition map_error {E E' A} (f : E -> E') (m : outcome E A) : outcome E' A :=
  match m with
  | Done a => Done a
  | Error e => Error (f e)
  | Panic => Panic
  | NoFuel => NoFuel
  end.

Definition hashLen : Z := Common.HashLength.

Section decode.
Variable decodeNode : option bytes -> bytes -> Z -> outcome decodeErr node.

Definition decodeRef (buf : bytes) (cachegen : Z) : outcome decodeErr (node * bytes) :=
  '(kind, val, rest) ← map_error (fun e => plainError (errRlp e)) (Raw.Split buf);
  if decide (kind = List) then
    let size := zlen buf - zlen rest in
    if size >? hashLen then Error (plainError (errOversized size))
    else n ← decodeNode None buf cachegen; Done (n, rest)
  else if bool_decide (kind = String) && (zlen val =? 0) then Done (nilNode, rest)
  else if bool_decide (kind = String) && (zlen val =? 32) then Done (hashNode val, rest)
  else Error (plainError (errRefSize (zlen val))).

Definition decodeShort (hash : option bytes) (elems : bytes) (cachegen : Z)
  : outcome decodeErr node :=
  '(kbuf, rest) ← map_error (fun e => plainError (errRlp e)) (Raw.SplitString elems);
  let flag := {| flag_hash := hash; gen := cachegen; dirty := false |} in
  key ← or_panic (compactToHex kbuf);
  if hasTerm key then
    '(val, _) ← map_error (fun e => plainError (errValueNode e)) (Raw.SplitString rest);
    Done (shortNode key (valueNode val) flag)
  else
    '(r, _) ← map_error (fun e => wrapError e ctx_val) (decodeRef rest cachegen);
    Done (shortNode key r flag).

(** [for i := 0; i < 16; i++]: [n] more children from index [i] on. *)
Fixpoint decodeChildren (n : nat) (i : Z) (elems : bytes) (cachegen : Z)
  : outcome decodeErr (list node * bytes) :=
  match n with
  | O => Done ([], elems)
  | S n =>
      '(cld, rest) ← map_error (fun e => wrapError e (ctx_index i)) (decodeRef elems cachegen);
      '(clds, rest) ← decodeChildren n (i + 1) rest cachegen;
      Done (cld :: clds, rest)
  end.

Definition decodeFull (hash : option bytes) (elems : bytes) (cachegen : Z)
  : outcome decodeErr node :=
  '(clds, elems) ← decodeChildren 16 0 elems cachegen;
  '(val, _) ← map_error (fun e => plainError (errRlp e)) (Raw.SplitString elems);
  let last := if zlen val >? 0 then valueNode val else nilNode in
  Done (fullNode (clds ++ [last]) {| flag_hash := hash; gen := cachegen; dirty := false |}).

Definition decodeNode_body (hash : option bytes) (buf : bytes) (cachegen : Z)
  : outcome decodeErr node :=
  if zlen buf =? 0 then Error (plainError errUnexpectedEOF)
  else
    '(elems, _) ← map_error (fun e => plainError (errNotList e)) (Raw.SplitList buf);
    c ← (match Raw.CountValues elems with
         | Error _ => Done 0
         | m => map_error (fun e => plainError (errRlp e)) m
         end);
    if c =? 2 then map_error (fun e => wrapError e ctx_short) (decodeShort hash elems cachegen)
    else if c =? 17 then map_error (fun e => wrapError e ctx_full) (decodeFull hash elems cachegen)
    else Error (plainError (errElements c)).
End decode.

Fixpoint decodeNode_n (fuel : nat) (hash : option bytes) (buf : bytes) (cachegen : Z)
  : outcome decodeErr node :=
  match fuel with
  | O => NoFuel
  | S fuel => decodeNode_body (decodeNode_n fuel) hash buf cachegen
  end.

(** An embedded node is shorter than the list around it, so the length of the
    buffer bounds the nesting. *)
Definition decodeNode (hash : option bytes) (buf : bytes) (cachegen : Z) : outcome decodeErr node :=
  decodeNode_n (S (length buf)) hash buf cachegen.

Definition mustDecodeNode {E} (hash : option bytes) (buf : bytes) (cachegen : Z) : outcome E node :=
  match decodeNode hash buf cachegen with
  | Done n => Done n
  | Error _ | Panic => Panic
  | NoFuel => NoFuel
  end.

(** ** Hashing *)

(** The value the RLP encoder sees: the unexported flags are skipped, a nil
    interface is the empty list. *)
Fixpoint node_value (n : node) : Enc.value :=
  match n with
  | nilNode => Enc.VNilInterface
  | fullNode cs _ => Enc.VList (map node_value cs)
  | shortNode k v _ => Enc.VList [Enc.VBytes k; node_value v]
  | hashNode h => Enc.VBytes h
  | valueNode v => Enc.VBytes v
  end.

(** The error of a failed [Put]. *)
Inductive dberr := errPut.

Section hasher.
Context {CR : Crypto} {D : Type} {DB : Database D}.
Variables cachegen cachelimit : Z.

(** The state is the [DatabaseWriter] argument; [None] is nil. *)
Abbreviation HM := (SM (option D) dberr).

Definition put (key value : bytes) : HM unit := fun d =>
  match d with
  | None => (Done tt, None)
  | Some d =>
      match Db_Put key value d with
      | Some d => (Done tt, Some d)
      | None => (Error errPut, Some d)
      end
  end.

Definition store (n : node) (force : bool) : HM node :=
  match n with
  | nilNode | hashNode _ => mret n
  | _ =>
      enc ← unwrap (match Enc.EncodeToBytes (node_value n) with Done e => Some e | _ => None end);
      if (zlen enc <? 32) && negb force then mret n
      else
        '(h, _) ← unwrap (cache n);
        let h := default (Keccak256 enc) h in
        _ ← put h enc;
        mret (hashNode h)
  end.

Section children.
Variable hash : node -> bool -> HM (node * node).

(** [for i := 0; i < 16; i++], then the value of the node: [n] more children are
    hashed, the rest is kept. *)
Definition hash_loop :=
  fix hash_loop (n : nat) (cs : list node) {struct cs} : HM (list node * list node) :=
  match n, cs with
  | O, [] => mret ([], [])
  | O, c :: rest => mret ((if is_nil c then valueNode [] else c) :: rest, c :: rest)
  | S _, [] => crash
  | S n, c :: cs =>
      '(collapsed, cached) ← (if is_nil c then mret (valueNode [], c) else hash c false);
      '(collapseds, cacheds) ← hash_loop n cs;
      mret (collapsed :: collapseds, cached :: cacheds)
  end.

Definition hashChildren (original : node) : HM (node * node) :=
  match original with
  | shortNode k v f =>
      ck ← unwrap (hexToCompact k);
      '(collapsed, cached) ←
        (match v with valueNode _ => mret (v, v) | _ => hash v false end);
      let collapsed := if is_nil collapsed then valueNode [] else collapsed in
      mret (shortNode ck collapsed f, shortNode (Common.CopyBytes k) cached f)
  | fullNode cs f =>
      '(collapsed, cached) ← hash_loop 16 cs;
      mret (fullNode collapsed f, fullNode cached f)
  | _ => mret (original, original)
  end.
End children.

(** The early returns of [hash]: what is known of [n] without walking it. *)
Definition cached_hash (n : node) (h : option bytes) (dirty storing : bool) : option (node * node) :=
  h ← h;
  if negb storing then Some (hashNode h, n)
  else if canUnload n cachegen cachelimit then Some (hashNode h, hashNode h)
  else if negb dirty then Some (hashNode h, n)
  else None.

(** Caches the hash; in commit mode the node is clean. *)
Definition set_flags (hashed : node) (storing : bool) (f : nodeFlag) : nodeFlag :=
  {| flag_hash := match hashed with hashNode h => Some h | _ => None end;
     gen := f.(gen);
     dirty := if storing then false else f.(dirty) |}.

Definition cache_result (hashed : node) (storing : bool) (cached : node) : node :=
  match cached with
  | shortNode k v f => shortNode k v (set_flags hashed storing f)
  | fullNode cs f => fullNode cs (set_flags hashed storing f)
  | n => n
  end.

Fixpoint hash (n : node) (force : bool) {struct n} : HM (node * node) :=
  '(h, dirty) ← unwrap (cache n);
  storing ← gets (fun d => bool_decide (is_Some d));
  match cached_hash n h dirty storing with
  | Some r => mret r
  | None =>
      '(collapsed, cached) ← hashChildren hash n;
      hashed ← store collapsed force;
      mret (hashed, cache_result hashed storing cached)
  end.
End hasher.
