(* ===== verification/TrieRep.v ===== *)
(** How nodes in memory and in the database represent a tree.

    [tenc t] is the encoding of a tree as the format defines it: every subtree is
    replaced by its hash, or embedded when its encoding is shorter than a hash.
    [rep d b t n]: node [n] represents [t], with children loaded or not; a hash
    node represents the tree whose encodings the database holds.  [b] marks the
    root, which is hashed whatever its size.  Decoding the encoding of a tree gives
    a node that represents it ([decode_ok]). *)
From S2P Require Import Prelude GoBig CommonTypes Rlp VmTypes TrieEncoding TrieTree TrieEdit.
From S2P Require Import TrieNode.

(** ** The encoding of a tree *)
Section encoding.
Context {CR : Crypto}.

Definition compact (k : bytes) : bytes := default [] (hexToCompact k).

(** A child within its parent: the hash of its encoding, or the child itself. *)
Definition ref_of (v : Enc.value) : Enc.value :=
  let e := Spec.enc v in if zlen e <? 32 then v else Enc.VBytes (Keccak256 e).

Fixpoint tval (t : tree) : Enc.value :=
  let tref (c : tree) :=
    match c with
    | TNil => Enc.VBytes []
    | TValue v => Enc.VBytes v
    | _ => ref_of (tval c)
    end in
  match t with
  | TNil => Enc.VBytes []
  | TValue v => Enc.VBytes v
  | TShort k c => Enc.VList [Enc.VBytes (compact k); tref c]
  | TFull ts => Enc.VList (map tref ts)
  end.

Definition tref (c : tree) : Enc.value :=
  match c with
  | TNil => Enc.VBytes []
  | TValue v => Enc.VBytes v
  | _ => ref_of (tval c)
  end.

Definition tenc (t : tree) : bytes := Spec.enc (tval t).
Definition thash (t : tree) : bytes := Keccak256 (tenc t).

(** The root hash of a tree. *)
Definition troot (t : tree) (empty : bytes) : bytes :=
  match t with TNil => empty | _ => thash t end.

(** Trees that are nodes of their own. *)
Definition is_node (t : tree) : Prop :=
  match t with TShort _ _ | TFull _ => True | _ => False end.

Lemma tval_short k c : tval (TShort k c) = Enc.VList [Enc.VBytes (compact k); tref c].
Proof. done. Qed.

Lemma tval_full ts : tval (TFull ts) = Enc.VList (map tref ts).
Proof. done. Qed.

Lemma tref_node t : is_node t -> tref t = ref_of (tval t).
Proof. by destruct t. Qed.

Lemma wf_is_node n t : wf n t -> is_node t.
Proof. by intros []. Qed.

Lemma tenc_short k c : tenc (TShort k c) = Spec.lst (Spec.string (compact k) ++ Spec.enc (tref c)).
Proof. unfold tenc. rewrite tval_short. simpl. by rewrite app_nil_r. Qed.

Lemma tenc_full ts : tenc (TFull ts) = Spec.lst (concat (map (fun c => Spec.enc (tref c)) ts)).
Proof. unfold tenc. rewrite tval_full. cbn [Spec.enc]. by rewrite map_map. Qed.
End encoding.

(** ** Sizes *)
Section sizes.
Context {CR : Crypto} {CK : CryptoOk}.

Lemma zlen_head_le small large n : 0 <= n < 2 ^ 64 -> 1 <= zlen (Spec.head small large n) <= 9.
Proof.
  intros Hn. unfold Spec.head. case_match; [by vm_compute|]. rewrite zlen_cons.
  pose proof (Big.zlen_Bytes_le n 8 ltac:(lia) ltac:(change (256 ^ 8) with (2 ^ 64); lia)).
  pose proof (zlen_nonneg (Big.Bytes n)). lia.
Qed.

Lemma zlen_lst_bound c : zlen c < 2 ^ 64 -> zlen c < zlen (Spec.lst c) <= zlen c + 9.
Proof.
  intros Hc. pose proof (zlen_nonneg c). unfold Spec.lst. rewrite zlen_app.
  pose proof (zlen_head_le 0xC0 0xF7 (zlen c) ltac:(lia)). lia.
Qed.

Lemma compact_ok k : nibbles k \/ hexkey k ->
  hexToCompact k = Some (compact k) /\ is_bytes (compact k) /\ zlen (compact k) <= zlen k + 1 /\
  compactToHex (compact k) = Some k.
Proof.
  intros Hk. destruct (hexToCompact_ok k Hk) as (c&Hc&?&?&?). unfold compact. rewrite Hc. naive_solver.
Qed.

Lemma zlen_hash b : zlen (Keccak256 b) = 32 /\ is_bytes (Keccak256 b).
Proof. destruct (Keccak256_size b). done. Qed.

Lemma string_hash b : zlen (Spec.string (Keccak256 b)) = 33.
Proof.
  destruct (zlen_hash b) as [Hl _]. revert Hl. generalize (Keccak256 b). intros h Hl.
  assert (Hh : zlen (Spec.head 0x80 0xB7 (zlen h) ++ h) = 33) by (rewrite zlen_app, Hl; done).
  unfold Spec.string. destruct h as [|x [|y h]]; [done..|done].
Qed.

Lemma ref_of_ok v : Spec.encodable v ->
  Spec.encodable (ref_of v) /\ zlen (Spec.enc (ref_of v)) <= 33.
Proof.
  intros Hv. unfold ref_of. case_match; bool_to_prop; [split; [done|lia]|].
  split; [constructor; apply zlen_hash|]. cbn [Spec.enc]. rewrite string_hash. lia.
Qed.

(** The bound on the encoding of a node that the proofs carry. *)
Definition size_limit : Z := 2 ^ 34.

Lemma value_enc v : value_ok v -> Spec.encodable (Enc.VBytes v) /\ zlen (Spec.enc (Enc.VBytes v)) <= 2 ^ 32 + 9.
Proof.
  intros (_&Hb&Hl). split; [by constructor|]. cbn [Spec.enc].
  pose proof (zlen_string_bound v ltac:(lia)). lia.
Qed.

Lemma concat_size (l : list tree) b : (forall c, c ∈ l -> zlen (Spec.enc (tref c)) <= b) ->
  zlen (concat (map (fun c => Spec.enc (tref c)) l)) <= b * zlen l.
Proof.
  induction l as [|c l IH]; intros Hl; [by rewrite Z.mul_0_r|]. simpl. rewrite zlen_app, zlen_cons.
  specialize (IH ltac:(intros; apply Hl; by right)).
  pose proof (Hl c ltac:(by left)). lia.
Qed.

Lemma tval_ok m t : wf m t -> Z.of_nat m < 2 ^ 32 ->
  Spec.encodable (tval t) /\ zlen (tenc t) < size_limit.
Proof.
  induction 1 as [n k v Hk Hl Hv|n m k ts Hk Hn -> Hwf IH|n ts Hlen Hwf IH Hlast Htwo]; intros Hm.
  - destruct (compact_ok k ltac:(by right)) as (_&Hb&Hz&_), (value_enc v Hv) as [He Hs].
    rewrite tval_short, tenc_short. split; [repeat constructor; [done|apply Hv]|].
    assert (zlen k <= Z.of_nat n) by (unfold zlen; lia).
    pose proof (zlen_string_bound (compact k) ltac:(lia)).
    change (Spec.enc (tref (TValue v))) with (Spec.enc (Enc.VBytes v)) in *.
    pose proof (zlen_lst_bound (Spec.string (compact k) ++ Spec.enc (Enc.VBytes v))
                  ltac:(rewrite zlen_app; lia)). rewrite zlen_app in *. unfold size_limit. lia.
  - destruct (compact_ok k ltac:(by left)) as (_&Hb&Hz&_).
    destruct (ref_of_ok _ (proj1 (IH ltac:(lia)))) as [He Hs].
    change (ref_of (tval (TFull ts))) with (tref (TFull ts)) in *.
    rewrite tval_short, tenc_short. split; [repeat constructor; done|].
    assert (zlen k <= Z.of_nat (length k + m)) by (unfold zlen; lia).
    pose proof (zlen_string_bound (compact k) ltac:(lia)).
    pose proof (zlen_lst_bound (Spec.string (compact k) ++ Spec.enc (tref (TFull ts)))
                  ltac:(rewrite zlen_app; lia)). rewrite zlen_app in *. unfold size_limit. lia.
  - assert (Hc : forall i c, ts !! i = Some c ->
        Spec.encodable (tref c) /\ zlen (Spec.enc (tref c)) <= if decide (i < 16)%nat then 33 else 2 ^ 32 + 9).
    { intros i c Hc. pose proof (lookup_lt_Some _ _ _ Hc).
      destruct (decide (c = TNil)) as [->|Hcn].
      { split; [by repeat constructor|]. case_decide; by vm_compute. }
      case_decide.
      - specialize (IH i c Hc ltac:(lia) Hcn ltac:(lia)) as [He _].
        rewrite tref_node by (eapply wf_is_node, Hwf; eauto with lia). by apply ref_of_ok.
      - assert (i = 16%nat) as -> by lia. destruct (Hlast c Hc) as [->|(v&->&Hv)]; [done|].
        by apply value_enc. }
    rewrite tval_full, tenc_full. split.
    { constructor. apply Forall_map, Forall_lookup. intros i c Hi. by apply (Hc i). }
    assert (zlen (take 16 ts) = 16 /\ zlen (drop 16 ts) = 1) as [Ht Hd]
      by (unfold zlen; rewrite length_take, length_drop, Hlen; done).
    epose proof (concat_size (take 16 ts) 33 _) as H1.
    epose proof (concat_size (drop 16 ts) (2 ^ 32 + 9) _) as H2.
    rewrite Ht in H1. rewrite Hd in H2.
    rewrite <- (take_drop 16 ts) at 1. rewrite map_app, concat_app.
    match goal with |- zlen (Spec.lst ?c) < _ => pose proof (zlen_lst_bound c) as Hz end.
    rewrite zlen_app in *. unfold size_limit. lia.
    Unshelve.
    + intros c (i&Hi)%list_elem_of_lookup_1. rewrite lookup_take_Some in Hi. destruct Hi as [Hi ?].
      destruct (Hc i c Hi) as [_ Hx]. by rewrite decide_True in Hx by lia.
    + intros c (i&Hi)%list_elem_of_lookup_1. rewrite lookup_drop in Hi.
      destruct (Hc _ c Hi) as [_ Hx]. by rewrite decide_False in Hx by lia.
Qed.
End sizes.

(** ** Representation *)
Create HintDb trie.

Section rep.
Context {CR : Crypto}.
(** The node database, as [Db_Get]. *)
Variable get : bytes -> option bytes.

(** [b] forces a hash for the root; otherwise only long encodings have one. *)
Definition hashed (b : bool) (t : tree) : Prop := b = true \/ 32 <= zlen (tenc t).

(** The database holds every node of [t] that is referred to by its hash. *)
Inductive stored : bool -> tree -> Prop :=
| stored_nil b : stored b TNil
| stored_value b v : stored b (TValue v)
| stored_short b k c : (hashed b (TShort k c) -> get (thash (TShort k c)) = Some (tenc (TShort k c))) ->
    stored false c -> stored b (TShort k c)
| stored_full b ts : (hashed b (TFull ts) -> get (thash (TFull ts)) = Some (tenc (TFull ts))) ->
    (forall i c, ts !! i = Some c -> stored false c) -> stored b (TFull ts).

(** A cached hash is the hash of the node; a clean node is stored. *)
Definition flag_ok (b : bool) (t : tree) (f : nodeFlag) : Prop :=
  (forall h, f.(flag_hash) = Some h -> h = thash t /\ hashed b t) /\
  (f.(dirty) = false -> stored b t).

Inductive rep : bool -> tree -> node -> Prop :=
| rep_nil b : rep b TNil nilNode
| rep_value b v : rep b (TValue v) (valueNode v)
| rep_short b k c n f : flag_ok b (TShort k c) f -> rep false c n ->
    rep b (TShort k c) (shortNode k n f)
| rep_full b ts cs f : flag_ok b (TFull ts) f -> length cs = length ts ->
    (forall i c n, ts !! i = Some c -> cs !! i = Some n -> rep false c n) ->
    rep b (TFull ts) (fullNode cs f)
| rep_hash b t : is_node t -> hashed b t -> stored b t -> rep b t (hashNode (thash t)).

Lemma stored_get b t : is_node t -> hashed b t -> stored b t -> get (thash t) = Some (tenc t).
Proof. intros Ht Hh Hs. destruct Hs; solve [by destruct Ht | auto]. Qed.

Lemma rep_nil_inv b n : rep b TNil n -> n = nilNode.
Proof. inversion 1; subst; done. Qed.

Lemma rep_value_inv b v n : rep b (TValue v) n -> n = valueNode v.
Proof. inversion 1; subst; done. Qed.

(** A node is nil exactly for the empty tree. *)
Lemma rep_is_nil b t n : rep b t n -> is_nil n = true <-> t = TNil.
Proof. intros [|? ?| | |? t' Ht]; try done. by destruct t'. Qed.

Lemma new_flag_ok b t g : flag_ok b t {| flag_hash := None; gen := g; dirty := true |}.
Proof. by split. Qed.
End rep.

#[export] Hint Resolve new_flag_ok : trie.
#[export] Hint Constructors rep stored : trie.

(** Representations survive the growth of the database; only the entries of nodes
    matter. *)
Section mono.
Context {CR : Crypto}.
Variables get get' : bytes -> option bytes.

Section nodes.
Hypothesis Hsub : forall t, get (thash t) = Some (tenc t) -> get' (thash t) = Some (tenc t).

Lemma stored_mono_nodes b t : stored get b t -> stored get' b t.
Proof. induction 1; constructor; auto. Qed.

Lemma flag_ok_mono b t f : flag_ok get b t f -> flag_ok get' b t f.
Proof.
  intros [Hh Hd]. split; [done|]. intros. by apply stored_mono_nodes; auto.
Qed.

Lemma rep_mono_nodes b t n : rep get b t n -> rep get' b t n.
Proof. induction 1; constructor; eauto using flag_ok_mono, stored_mono_nodes. Qed.
End nodes.

Hypothesis Hsub : forall h e, get h = Some e -> get' h = Some e.

Lemma stored_mono b t : stored get b t -> stored get' b t.
Proof. apply stored_mono_nodes. intros. by apply Hsub. Qed.
Lemma rep_mono b t n : rep get b t n -> rep get' b t n.
Proof. apply rep_mono_nodes. intros. by apply Hsub. Qed.
End mono.

(** ** Decoding *)

Ltac simpl_decode := cbn [map_error mbind outcome_bind mret outcome_ret or_panic].

Section decoding.
Context {CR : Crypto} {CK : CryptoOk}.

Lemma Split_string b r : is_bytes b -> is_bytes r -> zlen b + zlen r < 2 ^ 62 ->
  exists k, k <> List /\ (k = String \/ zlen b = 1) /\ Raw.Split (Spec.string b ++ r) = Done (k, b, r).
Proof.
  intros Hb Hr Hlen. destruct (string_item b Hb) as (k&Hk&Hitem). exists k.
  pose proof (zlen_nonneg r). pose proof (zlen_nonneg b).
  pose proof (zlen_string_bound b ltac:(lia)).
  split_and!; [done|by destruct Hitem; auto|]. apply Split_complete; [done..|]. rewrite zlen_app. lia.
Qed.

Lemma SplitString_string b r : is_bytes b -> is_bytes r -> zlen b + zlen r < 2 ^ 62 ->
  Raw.SplitString (Spec.string b ++ r) = Done (b, r).
Proof.
  intros. destruct (Split_string b r) as (k&Hk&_&Hs); [done..|].
  unfold Raw.SplitString. rewrite Hs. simpl_outcome. by rewrite decide_False.
Qed.

Lemma Split_lst c r : is_bytes c -> is_bytes r -> zlen c + zlen r < 2 ^ 62 ->
  Raw.Split (Spec.lst c ++ r) = Done (List, c, r).
Proof.
  intros Hb Hr Hlen. pose proof (zlen_nonneg c). pose proof (zlen_nonneg r).
  pose proof (zlen_lst_bound c ltac:(lia)). apply Split_complete; [done|done|constructor|].
  rewrite zlen_app. lia.
Qed.

Lemma SplitList_lst c r : is_bytes c -> is_bytes r -> zlen c + zlen r < 2 ^ 62 ->
  Raw.SplitList (Spec.lst c ++ r) = Done (c, r).
Proof.
  intros. unfold Raw.SplitList. rewrite Split_lst by done. simpl_outcome. by rewrite decide_True.
Qed.

(** One round of counting skips what [Split] takes off. *)
Lemma count_step fuel i b k c r : b <> [] -> Raw.Split b = Done (k, c, r) ->
  Raw.countValues_loop (S fuel) i b = Raw.countValues_loop fuel (i + 1) r.
Proof.
  intros Hb. unfold Raw.Split. destruct b as [|x b]; [done|]. cbn [Raw.countValues_loop].
  destruct (Raw.readKind (x :: b)) as [[[k' ts] cs]| | |]; simpl_outcome; try done.
  destruct (slice (x :: b) ts (ts + cs)); simpl_outcome; [|done].
  destruct (slice (x :: b) (ts + cs) _); simpl_outcome; [|done].
  by intros [= _ _ ->].
Qed.

(** Strings and lists, the only values inside an encoded node. *)
Inductive plain : Enc.value -> Prop :=
| plain_bytes b : is_bytes b -> plain (Enc.VBytes b)
| plain_list l : Forall Spec.encodable l -> plain (Enc.VList l).

Lemma Split_plain v r : plain v -> is_bytes r -> zlen (Spec.enc v) + zlen r < 2 ^ 62 ->
  exists k c, Raw.Split (Spec.enc v ++ r) = Done (k, c, r).
Proof.
  intros [b Hb|l Hl] Hr Hlen; cbn [Spec.enc] in *.
  - pose proof (zlen_string_ge b). destruct (Split_string b r) as (k&_&_&Hs); [done|done|lia|].
    by exists k, b.
  - set (c := concat (map Spec.enc l)) in *. pose proof (zlen_nonneg c). pose proof (zlen_nonneg r).
    pose proof (zlen_lst_ge c).
    exists List, c. apply Split_lst; [|done|lia].
    pose proof (is_bytes_enc (Enc.VList l) ltac:(by constructor) ltac:(simpl; fold c; lia)) as Hbl.
    cbn [Spec.enc] in Hbl. by apply is_bytes_app in Hbl as [_ ?].
Qed.

Lemma enc_plain_nonempty v : plain v -> zlen (Spec.enc v) < 2 ^ 64 -> 1 <= zlen (Spec.enc v).
Proof.
  intros [b Hb|l Hl] Hz; cbn [Spec.enc] in *.
  - pose proof (zlen_string_ge b). destruct b as [|x b]; [done|]. rewrite zlen_cons in *.
    pose proof (zlen_nonneg b). lia.
  - pose proof (zlen_lst_ge (concat (map Spec.enc l))).
    pose proof (zlen_lst_bound (concat (map Spec.enc l)) ltac:(lia)).
    pose proof (zlen_nonneg (concat (map Spec.enc l))). lia.
Qed.

Lemma plain_encodable v : plain v -> Spec.encodable v.
Proof. intros []; by constructor. Qed.

Lemma count_spec l : Forall plain l -> forall fuel i,
  zlen (concat (map Spec.enc l)) < 2 ^ 60 -> (length (concat (map Spec.enc l)) <= fuel)%nat ->
  Raw.countValues_loop fuel i (concat (map Spec.enc l)) = Done (i + zlen l).
Proof.
  induction 1 as [|v l Hv Hl IH]; intros fuel i Hz Hf; cbn [map concat].
  - rewrite zlen_nil, Z.add_0_r. by destruct fuel.
  - cbn [map concat] in *. rewrite zlen_app in Hz. rewrite length_app in Hf.
    pose proof (zlen_nonneg (concat (map Spec.enc l))). pose proof (zlen_nonneg (Spec.enc v)).
    pose proof (enc_plain_nonempty v Hv ltac:(lia)) as H1.
    assert (Hr : is_bytes (concat (map Spec.enc l))).
    { apply is_bytes_concat; [|lia]. eapply Forall_impl; [apply Hl|]. intros ? ?%plain_encodable.
      by apply is_bytes_enc. }
    destruct (Split_plain v (concat (map Spec.enc l)) Hv Hr ltac:(lia)) as (k&c&Hs).
    destruct fuel as [|fuel]; [unfold zlen in *; lia|].
    rewrite (count_step fuel i _ k c _) by (done || (destruct (Spec.enc v); done)).
    rewrite IH by (lia || (unfold zlen in *; lia)). f_equal. rewrite zlen_cons. lia.
Qed.

Lemma tval_plain m t : wf m t -> Z.of_nat m < 2 ^ 32 -> plain (tval t).
Proof.
  intros Hwf Hm. pose proof (proj1 (tval_ok m t Hwf Hm)) as He.
  destruct Hwf; rewrite ?tval_short, ?tval_full in *; constructor; by inversion He.
Qed.

Lemma tref_plain m i c : child_ok m i c -> Z.of_nat m < 2 ^ 32 -> plain (tref c).
Proof.
  intros [->|[[_ Hc]|[_ (v&->&Hv)]]] Hm; [by repeat constructor| |constructor; apply Hv].
  rewrite tref_node by by eapply wf_is_node. unfold ref_of.
  case_match; [by eapply tval_plain|]. constructor. apply zlen_hash.
Qed.

(** The content of an encoded node: the encodings of its references. *)
Lemma tenc_content m t : wf m t -> Z.of_nat m < 2 ^ 32 ->
  exists l, tval t = Enc.VList l /\ Forall plain l /\
    tenc t = Spec.lst (concat (map Spec.enc l)) /\ is_bytes (concat (map Spec.enc l)) /\
    zlen (concat (map Spec.enc l)) < zlen (tenc t) < size_limit.
Proof.
  intros Hwf Hm. destruct (tval_ok m t Hwf Hm) as [He Hs].
  assert (exists l, tval t = Enc.VList l /\ Forall plain l) as (l&Hl&Hp).
  { destruct Hwf as [n k v Hk _ Hv|n m k ts Hk Hn -> Hf|n ts Hlen ? ?]; rewrite ?tval_short, ?tval_full.
    - eexists. split; [done|]. repeat constructor; [|apply Hv]. by apply compact_ok; right.
    - eexists. split; [done|]. repeat constructor; [by apply compact_ok; left|].
      apply (tref_plain m 0); [|lia]. right. left. split; [lia|done].
    - eexists. split; [done|]. apply Forall_map, Forall_lookup. intros i c Hi.
      apply (tref_plain n i); [|lia]. eapply wf_children; [|done]. by constructor. }
  exists l. unfold tenc in *. rewrite Hl in *. cbn [Spec.enc] in *.
  pose proof (zlen_lst_ge (concat (map Spec.enc l))). unfold size_limit in *.
  pose proof (zlen_lst_bound (concat (map Spec.enc l)) ltac:(lia)).
  split_and!; try done; try lia. apply is_bytes_concat; [|lia].
  eapply Forall_impl; [apply Hp|]. intros ? ?%plain_encodable. by apply is_bytes_enc.
Qed.

(** A node that is in memory. *)
Definition loaded (n : node) : Prop :=
  match n with shortNode _ _ _ | fullNode _ _ => True | _ => False end.

Section decode_tree.
Variable g : Z.

(** What the encoding of a tree decodes to: subtrees with a hash stay unloaded. *)
Fixpoint dnode (h : option bytes) (t : tree) : node :=
  let dref (c : tree) :=
    match c with
    | TNil => nilNode
    | TValue v => valueNode v
    | _ => if zlen (tenc c) <? 32 then dnode None c else hashNode (thash c)
    end in
  let flag := {| flag_hash := h; gen := g; dirty := false |} in
  match t with
  | TNil => nilNode
  | TValue v => valueNode v
  | TShort k c => shortNode k (dref c) flag
  | TFull ts => fullNode (map dref ts) flag
  end.

Definition dref (c : tree) : node :=
  match c with
  | TNil => nilNode
  | TValue v => valueNode v
  | _ => if zlen (tenc c) <? 32 then dnode None c else hashNode (thash c)
  end.

Lemma dref_node c : is_node c ->
  dref c = if zlen (tenc c) <? 32 then dnode None c else hashNode (thash c).
Proof. by destruct c. Qed.

(** Decoding of the encoding of [t] within a buffer. *)
Definition decodes (fuel : nat) (t : tree) (h : option bytes) : Prop :=
  forall r, is_bytes r -> zlen r < 2 ^ 60 -> decodeNode_n fuel h (tenc t ++ r) g = Done (dnode h t).

Lemma decodeRef_ok m c fuel r : c = TNil \/ wf m c -> Z.of_nat m < 2 ^ 32 ->
  (wf m c -> zlen (tenc c) < 32 -> decodes fuel c None) -> is_bytes r -> zlen r < 2 ^ 60 ->
  decodeRef (decodeNode_n fuel) (Spec.enc (tref c) ++ r) g = Done (dref c, r).
Proof.
  intros Hc Hm Hd Hr Hz. unfold decodeRef. destruct Hc as [->|Hc].
  { change (Spec.enc (tref TNil)) with (Spec.string []).
    destruct (Split_string [] r) as (k&Hk&[->|?]&Hs); [by constructor|done|rewrite zlen_nil; lia| |done].
    rewrite Hs. simpl_decode. by rewrite decide_False. }
  rewrite tref_node, dref_node by by eapply wf_is_node. unfold ref_of. fold (tenc c).
  case_match; bool_to_prop; [fold (tenc c)|cbn [Spec.enc]; fold (thash c)].
  - destruct (tenc_content m c Hc Hm) as (l&_&_&He&Hb&Hsz). pose proof (zlen_nonneg r).
    assert (Hsplit : Raw.Split (tenc c ++ r) = Done (List, concat (map Spec.enc l), r)).
    { rewrite He. apply Split_lst; [done..|]. unfold size_limit in *. lia. }
    rewrite Hsplit. simpl_decode. rewrite decide_True by done. rewrite zlen_app.
    unfold hashLen, Common.HashLength.
    rewrite Z.gtb_ltb, (proj2 (Z.ltb_ge _ _)) by lia. by rewrite (Hd Hc) by done.
  - destruct (zlen_hash (tenc c)) as [Hl Hb]. fold (thash c) in Hl, Hb.
    destruct (Split_string (thash c) r) as (k&Hk&Hk'&Hs); [done|done|lia|].
    rewrite Hs. simpl_decode. rewrite decide_False by done. rewrite Hl. by destruct Hk' as [->|?]; [|lia].
Qed.

Lemma decodeChildren_ok m fuel ts : Z.of_nat m < 2 ^ 32 ->
  Forall (fun c => (c = TNil \/ wf m c) /\ (wf m c -> zlen (tenc c) < 32 -> decodes fuel c None)) ts ->
  forall i r, is_bytes r ->
  zlen (concat (map (fun c => Spec.enc (tref c)) ts)) + zlen r < 2 ^ 60 ->
  decodeChildren (decodeNode_n fuel) (length ts) i
    (concat (map (fun c => Spec.enc (tref c)) ts) ++ r) g = Done (map dref ts, r).
Proof.
  intros Hm. induction 1 as [|c ts (Hc&Hd) Hts IH]; intros i r Hr Hz; cbn [map concat length]; [done|].
  cbn [map concat] in Hz. rewrite zlen_app in Hz. rewrite <- app_assoc.
  set (rest := concat (map (fun c => Spec.enc (tref c)) ts)) in *.
  pose proof (zlen_nonneg (Spec.enc (tref c))). pose proof (zlen_nonneg rest). pose proof (zlen_nonneg r).
  cbn [decodeChildren]. rewrite (decodeRef_ok m c fuel (rest ++ r) Hc Hm Hd).
  - simpl_decode. by rewrite IH by (done || lia).
  - apply is_bytes_app. split; [|done]. subst rest. rewrite <- (map_map tref Spec.enc).
    apply is_bytes_concat; [|rewrite map_map; lia].
    apply Forall_map. eapply Forall_impl; [apply Hts|]. intros c' (Hc'&_) ?.
    apply is_bytes_enc; [|done]. eapply plain_encodable, (tref_plain m 0); [|done].
    destruct Hc' as [->|?]; [by left|right; left; split; [lia|done]].
  - rewrite zlen_app. lia.
Qed.

(** The list around a node, and the number of its elements. *)
Lemma decodeNode_list m t fuel h r : wf m t -> Z.of_nat m < 2 ^ 32 -> is_bytes r -> zlen r < 2 ^ 60 ->
  exists l, tval t = Enc.VList l /\ Forall plain l /\ zlen (concat (map Spec.enc l)) < size_limit /\
    (length (concat (map Spec.enc l)) < length (tenc t))%nat /\
    decodeNode_n (S fuel) h (tenc t ++ r) g =
      (let elems := concat (map Spec.enc l) in
       if zlen l =? 2 then map_error (fun e => wrapError e ctx_short) (decodeShort (decodeNode_n fuel) h elems g)
       else if zlen l =? 17 then map_error (fun e => wrapError e ctx_full) (decodeFull (decodeNode_n fuel) h elems g)
       else Error (plainError (errElements (zlen l)))).
Proof.
  intros Hwf Hm Hr Hz. destruct (tenc_content m t Hwf Hm) as (l&Hl&Hp&He&Hb&Hs).
  pose proof (zlen_nonneg r). pose proof (zlen_nonneg (concat (map Spec.enc l))).
  unfold size_limit in *. exists l. split_and!; [done|done|lia|unfold zlen in *; lia|].
  cbn [decodeNode_n]. unfold decodeNode_body.
  rewrite (proj2 (Z.eqb_neq _ _)) by (rewrite zlen_app; lia).
  rewrite He, SplitList_lst by (done || lia). simpl_decode.
  unfold Raw.CountValues. rewrite count_spec by (done || lia). by simpl_decode.
Qed.

Lemma decode_leaf m k v h fuel : wf m (TShort k (TValue v)) -> Z.of_nat m < 2 ^ 32 ->
  decodes (S fuel) (TShort k (TValue v)) h.
Proof.
  intros Hwf Hm r Hr Hz.
  destruct (decodeNode_list m _ fuel h r Hwf Hm Hr Hz) as (l&Hl'&Hp&Hs&_&->).
  inversion Hwf as [? ? ? Hk _ (_&Hvb&Hvl)| |]; subst.
  assert (l = [Enc.VBytes (compact k); tref (TValue v)]) as -> by (rewrite tval_short in Hl'; congruence).
  cbn [map concat tref Spec.enc] in *. rewrite app_nil_r in *. change (zlen [_; _]) with 2. cbv zeta.
  rewrite (Z.eqb_refl 2). destruct (compact_ok k ltac:(by right)) as (_&Hcb&_&Hck).
  pose proof (zlen_string_ge (compact k)). pose proof (zlen_string_ge v).
  rewrite zlen_app in Hs. unfold size_limit in Hs.
  pose proof (zlen_nonneg (compact k)). pose proof (zlen_nonneg v).
  unfold decodeShort. rewrite SplitString_string by (done || lia || (apply is_bytes_string; [done|lia])).
  simpl_decode. rewrite Hck. simpl_decode.
  destruct Hk as (l&_&->). destruct (hasTerm_snoc l) as [-> _].
  rewrite <- (app_nil_r (Spec.string v)).
  by rewrite SplitString_string by (done || constructor || (rewrite zlen_nil; lia)).
Qed.

Lemma decode_ext m k ts h fuel : wf m (TShort k (TFull ts)) -> Z.of_nat m < 2 ^ 32 ->
  (zlen (tenc (TFull ts)) < 32 -> (length (tenc (TFull ts)) < length (tenc (TShort k (TFull ts))))%nat ->
   decodes fuel (TFull ts) None) ->
  decodes (S fuel) (TShort k (TFull ts)) h.
Proof.
  intros Hwf Hm Hd r Hr Hz.
  destruct (decodeNode_list m _ fuel h r Hwf Hm Hr Hz) as (l&Hl'&Hp&Hs&Hle&->).
  inversion Hwf as [|? m' ? ? _ Hk -> Hf|]; subst.
  assert (l = [Enc.VBytes (compact k); tref (TFull ts)]) as -> by (rewrite tval_short in Hl'; congruence).
  cbn [map concat] in *. rewrite app_nil_r in *. change (zlen [_; _]) with 2. cbv zeta.
  rewrite (Z.eqb_refl 2). destruct (compact_ok k ltac:(by left)) as (_&Hcb&_&Hck).
  change (Spec.enc (Enc.VBytes (compact k))) with (Spec.string (compact k)) in *.
  pose proof (zlen_string_ge (compact k)). pose proof (zlen_nonneg (compact k)).
  rewrite zlen_app in Hs. unfold size_limit in Hs. pose proof (zlen_nonneg (Spec.enc (tref (TFull ts)))).
  apply Forall_cons in Hp as [_ Hp]. apply Forall_cons in Hp as [Hp _].
  unfold decodeShort. rewrite SplitString_string
    by (done || lia || (apply is_bytes_enc; [by apply plain_encodable|lia])).
  simpl_decode. rewrite Hck. simpl_decode. rewrite hasTerm_nibbles by done.
  rewrite <- (app_nil_r (Spec.enc (tref (TFull ts)))).
  rewrite (decodeRef_ok m' (TFull ts) fuel []); [done|by right|lia| |constructor|by rewrite zlen_nil].
  intros _ Hsmall. apply Hd; [done|]. rewrite tref_node in Hle by done. unfold ref_of in Hle.
  fold (tenc (TFull ts)) in Hle. rewrite (proj2 (Z.ltb_lt _ _) Hsmall) in Hle.
  fold (tenc (TFull ts)) in Hle. rewrite length_app in Hle. lia.
Qed.

(** The value slot of a full node. *)
Lemma SplitString_last m c : child_ok m 16 c -> exists v, Raw.SplitString (Spec.enc (tref c)) = Done (v, []) /\
  dref c = if zlen v >? 0 then valueNode v else nilNode.
Proof.
  intros [->|[[? _]|[_ (v&->&Hv&Hb&Hl)]]]; [by exists []|lia|]. exists v. cbn [tref Spec.enc dref]. split.
  - rewrite <- (app_nil_r (Spec.string v)). apply SplitString_string; [done|constructor|rewrite zlen_nil; lia].
  - destruct v as [|x v]; [done|]. rewrite zlen_cons. pose proof (zlen_nonneg v).
    by rewrite (proj2 (Z.gtb_lt _ _)) by lia.
Qed.

Lemma snoc_17 {A} (l : list A) : length l = 17%nat -> exists l' x, l = l' ++ [x] /\ length l' = 16%nat.
Proof.
  intros Hl. destruct l as [|x l _] using rev_ind; [done|].
  exists l, x. rewrite length_app in Hl. simpl in Hl. split; [done|lia].
Qed.

Lemma length_concat_elem {A} (f : A -> bytes) l x : x ∈ l -> (length (f x) <= length (concat (map f l)))%nat.
Proof.
  induction l as [|y l IH]; [by intros ?%not_elem_of_nil|]. simpl. rewrite length_app.
  intros [->|Hx]%elem_of_cons; [lia|]. specialize (IH Hx). lia.
Qed.

Lemma decode_full m ts h fuel : wf (S m) (TFull ts) -> Z.of_nat (S m) < 2 ^ 32 ->
  (forall i c, ts !! i = Some c -> (i < 16)%nat -> wf m c -> zlen (tenc c) < 32 ->
     (length (tenc c) < length (tenc (TFull ts)))%nat -> decodes fuel c None) ->
  decodes (S fuel) (TFull ts) h.
Proof.
  intros Hwf Hm Hd r Hr Hz.
  destruct (decodeNode_list (S m) _ fuel h r Hwf Hm Hr Hz) as (l&Hl'&Hp&Hs&Hle&->).
  destruct (wf_full_length _ _ Hwf) as [Hlen _].
  assert (l = map tref ts) as -> by (rewrite tval_full in Hl'; congruence).
  assert (zlen (map tref ts) = 17) as -> by (unfold zlen; by rewrite length_map, Hlen).
  change (17 =? 2) with false. change (17 =? 17) with true. cbv zeta iota.
  pose proof (fun i c => wf_children m ts i c Hwf) as Hch. rewrite map_map in *.
  destruct (snoc_17 ts Hlen) as (cs&last&Hts&Hcs).
  assert (Hlast : ts !! 16%nat = Some last) by (rewrite Hts, <- Hcs; by apply list_lookup_middle).
  pose proof (fun c => length_concat_elem (fun c => Spec.enc (tref c)) ts c) as Hel.
  assert (Hcat : concat (map (fun c => Spec.enc (tref c)) ts) =
                 concat (map (fun c => Spec.enc (tref c)) cs) ++ Spec.enc (tref last)).
  { rewrite Hts, map_app, concat_app. cbn [map concat]. by rewrite app_nil_r. }
  rewrite Hcat in *. rewrite zlen_app in Hs. unfold size_limit in Hs.
  destruct (SplitString_last m last (Hch _ _ Hlast)) as (v&Hv&Hdl).
  pose proof (zlen_nonneg (concat (map (fun c => Spec.enc (tref c)) cs))).
  pose proof (zlen_nonneg (Spec.enc (tref last))).
  unfold decodeFull. rewrite <- Hcs. rewrite (decodeChildren_ok m fuel cs); [|lia| | |lia].
  - simpl_decode. rewrite Hv. simpl_decode. rewrite <- Hdl. f_equal.
    change (dnode h (TFull ts)) with
      (fullNode (map dref ts) {| flag_hash := h; gen := g; dirty := false |}).
    by rewrite Hts, map_app.
  - apply Forall_lookup. intros i c Hi. pose proof (lookup_lt_Some _ _ _ Hi) as Hlt.
    assert (Hi' : ts !! i = Some c) by (rewrite Hts; by apply lookup_app_l_Some).
    split; [destruct (Hch i c Hi') as [->|[[_ ?]|[-> _]]]; [by left|by right|lia]|].
    intros Hc Hsmall. apply (Hd i c); [done|lia|done..|].
    eapply Nat.le_lt_trans; [|apply Hle]. specialize (Hel c ltac:(by eapply list_elem_of_lookup_2)).
    rewrite tref_node in Hel by by eapply wf_is_node. unfold ref_of in Hel. fold (tenc c) in Hel.
    rewrite (proj2 (Z.ltb_lt _ _) Hsmall) in Hel. exact Hel.
  - apply is_bytes_enc; [|lia]. eapply plain_encodable, tref_plain; [by apply Hch|lia].
Qed.

(** Decoding is exact, for every bound that exceeds the length. *)
Lemma decode_exact m t : wf m t -> Z.of_nat m < 2 ^ 32 -> forall h fuel,
  (length (tenc t) < fuel)%nat -> decodes fuel t h.
Proof.
  induction 1 as [n k v Hk Hl Hv|n m k ts Hk Hn -> Hf IH|n ts Hlen Hwf IH Hlast Htwo];
    intros Hm h fuel Hfuel; (destruct fuel as [|fuel]; [lia|]).
  - by eapply decode_leaf; [constructor|..].
  - eapply decode_ext; [by econstructor|done..|]. intros _ Hlt. apply IH; lia.
  - eapply decode_full; [by constructor|done..|]. intros i c Hi Hlt Hc _ Hle.
    apply (IH i c Hi Hlt); [by eapply wf_not_nil|lia|lia].
Qed.

Lemma decodeNode_tenc m t h : wf m t -> Z.of_nat m < 2 ^ 32 -> decodeNode h (tenc t) g = Done (dnode h t).
Proof.
  intros Hwf Hm. unfold decodeNode.
  pose proof (decode_exact m t Hwf Hm h (S (length (tenc t))) ltac:(lia) []) as Hd.
  rewrite app_nil_r in Hd. apply Hd; [constructor|by rewrite zlen_nil].
Qed.

(** The decoded node represents the tree where the database holds the rest. *)
Lemma rep_dnode get m t : wf m t -> forall b h, stored get b t ->
  h = None \/ (h = Some (thash t) /\ hashed b t) -> rep get b t (dnode h t) /\ loaded (dnode h t).
Proof.
  assert (Hflag : forall b t h, stored get b t -> h = None \/ (h = Some (thash t) /\ hashed b t) ->
    flag_ok get b t {| flag_hash := h; gen := g; dirty := false |}).
  { intros b t' h Hs Hh. split; [|done]. intros h' Hh'. simpl in Hh'. destruct Hh as [->|[-> Hh]]; naive_solver. }
  assert (Href : forall c m, wf m c -> (forall b h, stored get b c -> h = None \/ (h = Some (thash c) /\ hashed b c) ->
    rep get b c (dnode h c) /\ loaded (dnode h c)) -> stored get false c -> rep get false c (dref c)).
  { intros c m' Hc IH Hs. rewrite dref_node by by eapply wf_is_node. case_match; bool_to_prop.
    - apply IH; [done|by left].
    - constructor; [by eapply wf_is_node|by right|done]. }
  induction 1 as [n k v Hk Hl Hv|n m k ts Hk Hn -> Hf IH|n ts Hlen Hwf IH Hlast Htwo]; intros b h Hst Hh;
    (split; [|done]).
  - constructor; [by apply Hflag|constructor].
  - inversion Hst as [| |? ? ? _ Hst'|]; subst. constructor; [by apply Hflag|]. by eapply (Href (TFull ts)).
  - inversion Hst as [| | |? ? _ Hst']; subst.
    change (dnode h (TFull ts)) with
      (fullNode (map dref ts) {| flag_hash := h; gen := g; dirty := false |}).
    constructor; [by apply Hflag|by rewrite length_map|]. intros i c nd Hc.
    rewrite list_lookup_fmap, Hc. intros [= <-]. pose proof (lookup_lt_Some _ _ _ Hc).
    destruct (decide (c = TNil)) as [->|Hcn]; [constructor|].
    destruct (decide (i = 16%nat)) as [->|].
    + destruct (Hlast c Hc) as [->|(v&->&_)]; [done|constructor].
    + eapply (Href c n); [by eapply Hwf; eauto with lia|by eapply (IH i c); eauto with lia|by eapply Hst'].
Qed.
End decode_tree.
End decoding.
