(* ===== verification/Trie.v ===== *)
(** [trie/trie.go], [trie/secure_trie.go] and [trie/proof.go].

    A trie reads nodes from its database on demand.  The database is an argument
    of the operations, the trie is passed along.  A corrupt database can hold a
    cycle, so the recursive operations take a bound; twice the length of the key
    is enough on a trie that represents a map. *)
From S2P Require Import Prelude CommonTypes Rlp VmTypes TrieEncoding TrieNode.

Inductive trieerr :=
| MissingNodeError (RootHash NodeHash : Hash) (PrefixLen SuffixLen : Z)
| errDatabase.

Definition emptyRoot : Hash :=
  [0x56; 0xe8; 0x1f; 0x17; 0x1b; 0xcc; 0x55; 0xa6; 0xff; 0x83; 0x45; 0xe6; 0x92; 0xc0; 0xf8; 0x6e;
   0x5b; 0x48; 0xe0; 0x1b; 0x99; 0x6c; 0xad; 0xc0; 0x01; 0x62; 0x2f; 0xb5; 0xe3; 0x63; 0xb4; 0x21].

(** ** trie.go *)
Module Trie.

Record t := { root : node; originalRoot : Hash; cachegen : Z; cachelimit : Z }.

Definition with_root (tr : t) (n : node) : t :=
  {| root := n; originalRoot := originalRoot tr; cachegen := cachegen tr;
     cachelimit := cachelimit tr |}.
Definition SetCacheLimit (tr : t) (l : Z) : t :=
  {| root := root tr; originalRoot := originalRoot tr; cachegen := cachegen tr; cachelimit := l |}.
Definition newFlag (tr : t) : nodeFlag :=
  {| flag_hash := None; gen := cachegen tr; dirty := true |}.

Section trie.
Context {D : Type} {DB : Database D}.
Variable db : D.

Definition resolveHash (tr : t) (n prefix suffix : bytes) : outcome trieerr node :=
  match Db_Get n db with
  | None => Error (MissingNodeError (originalRoot tr) (Common.BytesToHash n) (zlen prefix) (zlen suffix))
  | Some enc => mustDecodeNode (Some n) enc (cachegen tr)
  end.

Definition resolve (tr : t) (n : node) (prefix suffix : bytes) : outcome trieerr node :=
  match n with
  | hashNode h => resolveHash tr h prefix suffix
  | _ => Done n
  end.

Definition New (root : Hash) : outcome trieerr t :=
  let tr := {| root := nilNode; originalRoot := root; cachegen := 0; cachelimit := 0 |} in
  if bool_decide (root <> Common.zeroHash) && bool_decide (root <> emptyRoot) then
    rootnode ← resolveHash tr root [] [];
    Done (with_root tr rootnode)
  else Done tr.

Section operations.
Variable tr : t.

Definition with_gen (f : nodeFlag) : nodeFlag :=
  {| flag_hash := f.(flag_hash); gen := cachegen tr; dirty := f.(dirty) |}.

Fixpoint tryGet (fuel : nat) (origNode : node) (key : bytes) (pos : Z)
  : outcome trieerr (bytes * node * bool) :=
  match fuel with
  | O => NoFuel
  | S fuel =>
      match origNode with
      | nilNode => Done ([], nilNode, false)
      | valueNode v => Done (v, origNode, false)
      | shortNode k v f =>
          if (zlen key - pos <? zlen k) || bool_decide (slice key pos (pos + zlen k) <> Some k)
          then Done ([], origNode, false)
          else
            '(value, newnode, didResolve) ← tryGet fuel v key (pos + zlen k);
            Done (value, if (didResolve : bool) then shortNode k newnode (with_gen f) else origNode, didResolve)
      | fullNode cs f =>
          x ← or_panic (zget key pos);
          child ← or_panic (zget cs x);
          '(value, newnode, didResolve) ← tryGet fuel child key (pos + 1);
          if (didResolve : bool) then
            cs ← or_panic (zset cs x newnode);
            Done (value, fullNode cs (with_gen f), didResolve)
          else Done (value, origNode, didResolve)
      | hashNode h =>
          prefix ← or_panic (slice key 0 pos);
          suffix ← or_panic (slice key pos (zlen key));
          child ← resolveHash tr h prefix suffix;
          '(value, newnode, _) ← tryGet fuel child key pos;
          Done (value, newnode, true)
      end
  end.

Fixpoint insert (fuel : nat) (n : node) (prefix key : bytes) (value : node)
  : outcome trieerr (bool * node) :=
  match fuel with
  | O => NoFuel
  | S fuel =>
      if zlen key =? 0 then
        match n, value with
        | valueNode v, valueNode v' => Done (negb (bool_decide (v = v')), value)
        | valueNode _, _ => Panic
        | _, _ => Done (true, value)
        end
      else
        match n with
        | shortNode nKey nVal f =>
            let matchlen := prefixLen key nKey in
            if bool_decide (matchlen = length nKey) then
              '(dirty, nn) ← insert fuel nVal (prefix ++ take matchlen key) (drop matchlen key) value;
              if negb (dirty : bool) then Done (false, n)
              else Done (true, shortNode nKey nn (newFlag tr))
            else
              let branch := replicate 17 nilNode in
              x ← or_panic (nKey !! matchlen);
              '(_, c) ← insert fuel nilNode (prefix ++ take (S matchlen) nKey)
                          (drop (S matchlen) nKey) nVal;
              branch ← or_panic (zset branch x c);
              y ← or_panic (key !! matchlen);
              '(_, c) ← insert fuel nilNode (prefix ++ take (S matchlen) key)
                          (drop (S matchlen) key) value;
              branch ← or_panic (zset branch y c);
              let branch := fullNode branch (newFlag tr) in
              if bool_decide (matchlen = O) then Done (true, branch)
              else Done (true, shortNode (take matchlen key) branch (newFlag tr))
        | fullNode cs f =>
            x ← or_panic (zget key 0);
            child ← or_panic (zget cs x);
            '(dirty, nn) ← insert fuel child (prefix ++ [x]) (drop 1 key) value;
            if negb (dirty : bool) then Done (false, n)
            else
              cs ← or_panic (zset cs x nn);
              Done (true, fullNode cs (newFlag tr))
        | nilNode => Done (true, shortNode key value (newFlag tr))
        | hashNode h =>
            rn ← resolveHash tr h prefix key;
            '(dirty, nn) ← insert fuel rn prefix key value;
            if negb (dirty : bool) then Done (false, rn) else Done (true, nn)
        | valueNode _ => Panic
        end
  end.

Definition concat (s1 s2 : bytes) : bytes := s1 ++ s2.

(** The index of the only child, -1 without children, -2 with several. *)
Fixpoint only_child (pos i : Z) (cs : list node) : Z :=
  match cs with
  | [] => pos
  | cld :: cs =>
      if negb (is_nil cld) then
        if pos =? -1 then only_child i (i + 1) cs else -2
      else only_child pos (i + 1) cs
  end.

Fixpoint delete (fuel : nat) (n : node) (prefix key : bytes) : outcome trieerr (bool * node) :=
  match fuel with
  | O => NoFuel
  | S fuel =>
      match n with
      | shortNode nKey nVal f =>
          let matchlen := prefixLen key nKey in
          if bool_decide (matchlen < length nKey)%nat then Done (false, n)
          else if bool_decide (matchlen = length key) then Done (true, nilNode)
          else
            '(dirty, child) ← delete fuel nVal (prefix ++ take (length nKey) key)
                                (drop (length nKey) key);
            if negb (dirty : bool) then Done (false, n)
            else
              match child with
              | shortNode cKey cVal _ => Done (true, shortNode (concat nKey cKey) cVal (newFlag tr))
              | _ => Done (true, shortNode nKey child (newFlag tr))
              end
      | fullNode cs f =>
          x ← or_panic (zget key 0);
          child ← or_panic (zget cs x);
          '(dirty, nn) ← delete fuel child (prefix ++ [x]) (drop 1 key);
          if negb (dirty : bool) then Done (false, n)
          else
            cs ← or_panic (zset cs x nn);
            let pos := only_child (-1) 0 cs in
            if pos >=? 0 then
              cld ← or_panic (zget cs pos);
              if negb (pos =? 16) then
                cnode ← resolve tr cld prefix [pos];
                match cnode with
                | shortNode cKey cVal _ => Done (true, shortNode (pos :: cKey) cVal (newFlag tr))
                | _ => Done (true, shortNode [pos] cld (newFlag tr))
                end
              else Done (true, shortNode [pos] cld (newFlag tr))
            else Done (true, fullNode cs (newFlag tr))
      | valueNode _ => Done (true, nilNode)
      | nilNode => Done (false, nilNode)
      | hashNode h =>
          rn ← resolveHash tr h prefix key;
          '(dirty, nn) ← delete fuel rn prefix key;
          if negb (dirty : bool) then Done (false, rn) else Done (true, nn)
      end
  end.
End operations.

(** *** The methods *)

(** [TryGet]: the value, and the trie with the nodes loaded on the way. *)
Definition TryGet (fuel : nat) (tr : t) (key : bytes) : outcome trieerr (bytes * t) :=
  let key := keybytesToHex key in
  '(value, newroot, didResolve) ← tryGet tr fuel (root tr) key 0;
  Done (value, if (didResolve : bool) then with_root tr newroot else tr).

Definition TryUpdate (fuel : nat) (tr : t) (key value : bytes) : outcome trieerr t :=
  let k := keybytesToHex key in
  if negb (zlen value =? 0) then
    '(_, n) ← insert tr fuel (root tr) [] k (valueNode value);
    Done (with_root tr n)
  else
    '(_, n) ← delete tr fuel (root tr) [] k;
    Done (with_root tr n).

Definition TryDelete (fuel : nat) (tr : t) (key : bytes) : outcome trieerr t :=
  let k := keybytesToHex key in
  '(_, n) ← delete tr fuel (root tr) [] k;
  Done (with_root tr n).

(** The variants that log an error and go on. *)
Definition ignore {A} (m : outcome trieerr A) (a : A) : outcome trieerr A :=
  match m with Error _ => Done a | m => m end.

Definition Get (fuel : nat) (tr : t) (key : bytes) : outcome trieerr (bytes * t) :=
  ignore (TryGet fuel tr key) ([], tr).
Definition Update (fuel : nat) (tr : t) (key value : bytes) : outcome trieerr t :=
  ignore (TryUpdate fuel tr key value) tr.
Definition Delete (fuel : nat) (tr : t) (key : bytes) : outcome trieerr t :=
  ignore (TryDelete fuel tr key) tr.
End trie.

(** *** Hashing and committing *)
Section commit.
Context {CR : Crypto} {D : Type} {DB : Database D}.

Definition hashRoot (tr : t) : SM (option D) dberr (node * node) :=
  match root tr with
  | nilNode => mret (hashNode emptyRoot, nilNode)
  | n => hash (cachegen tr) (cachelimit tr) n true
  end.

(** [hash.(hashNode)] *)
Definition as_hash (n : node) : option bytes :=
  match n with hashNode h => Some h | _ => None end.

Definition Hash_ (tr : t) : outcome dberr (Hash * t) :=
  '(hash, cached) ← fst (hashRoot tr None);
  h ← or_panic (as_hash hash);
  Done (Common.BytesToHash h, with_root tr cached).

(** The state is the trie and the database written to. *)
Definition CommitTo : SM (t * D) dberr Hash := fun '(tr, d) =>
  match hashRoot tr (Some d) with
  | (Done (hash, cached), Some d) =>
      match as_hash hash with
      | Some h =>
          (Done (Common.BytesToHash h),
           ({| root := cached; originalRoot := originalRoot tr;
               cachegen := u16 (cachegen tr + 1); cachelimit := cachelimit tr |}, d))
      | None => (Panic, (tr, d))
      end
  | (Error e, Some d) => (Error e, (tr, d))
  | (NoFuel, Some d) => (NoFuel, (tr, d))
  | (_, _) => (Panic, (tr, d))
  end.
End commit.
End Trie.

(** ** secure_trie.go *)
Module SecureTrie.

(** [owner] is [t == t.secKeyCacheOwner]: false in a fresh value and in a copy. *)
Record t := { trie : Trie.t; secKeyCache : gmap bytes bytes; owner : bool }.

Definition copy (s : t) : t :=
  {| trie := trie s; secKeyCache := secKeyCache s; owner := false |}.

Definition secureKeyPrefix : bytes :=
  [0x73; 0x65; 0x63; 0x75; 0x72; 0x65; 0x2d; 0x6b; 0x65; 0x79; 0x2d].
Definition secKey (key : bytes) : bytes := secureKeyPrefix ++ key.

Section secure.
Context {CR : Crypto} {D : Type} {DB : Database D}.

Definition hashKey (key : bytes) : bytes := Keccak256 key.

Definition getSecKeyCache (s : t) : gmap bytes bytes :=
  if owner s then secKeyCache s else ∅.
(** The trie after [getSecKeyCache] and an assignment to the map it returned. *)
Definition with_cache (s : t) (tr : Trie.t) (c : gmap bytes bytes) : t :=
  {| trie := tr; secKeyCache := c; owner := true |}.
Definition with_trie (s : t) (tr : Trie.t) : t :=
  {| trie := tr; secKeyCache := secKeyCache s; owner := owner s |}.

Definition NewSecure (db : D) (root : Hash) (cachelimit : Z) : outcome trieerr t :=
  tr ← Trie.New db root;
  Done {| trie := Trie.SetCacheLimit tr cachelimit; secKeyCache := ∅; owner := false |}.

Definition TryGet (db : D) (fuel : nat) (s : t) (key : bytes) : outcome trieerr (bytes * t) :=
  '(v, tr) ← Trie.TryGet db fuel (trie s) (hashKey key);
  Done (v, with_trie s tr).

Definition TryUpdate (db : D) (fuel : nat) (s : t) (key value : bytes) : outcome trieerr t :=
  let hk := hashKey key in
  tr ← Trie.TryUpdate db fuel (trie s) hk value;
  Done (with_cache s tr (<[hk := Common.CopyBytes key]> (getSecKeyCache s))).

(** The preimage is dropped before the trie is accessed: also when that fails. *)
Definition TryDelete (db : D) (fuel : nat) (s : t) (key : bytes) : outcome trieerr unit * t :=
  let hk := hashKey key in
  let s := with_cache s (trie s) (base.delete hk (getSecKeyCache s)) in
  match Trie.TryDelete db fuel (trie s) hk with
  | Done tr => (Done tt, with_trie s tr)
  | Error e => (Error e, s)
  | Panic => (Panic, s)
  | NoFuel => (NoFuel, s)
  end.

(** The variants that log an error and go on. *)
Definition Get (db : D) (fuel : nat) (s : t) (key : bytes) : outcome trieerr (bytes * t) :=
  Trie.ignore (TryGet db fuel s key) ([], s).
Definition Update (db : D) (fuel : nat) (s : t) (key value : bytes) : outcome trieerr t :=
  Trie.ignore (TryUpdate db fuel s key value) s.
Definition Delete (db : D) (fuel : nat) (s : t) (key : bytes) : outcome trieerr t :=
  let '(r, s) := TryDelete db fuel s key in
  _ ← Trie.ignore r tt; Done s.

Definition GetKey (db : D) (s : t) (shaKey : bytes) : bytes * t :=
  let c := getSecKeyCache s in
  let s := with_cache s (trie s) c in
  match c !! shaKey with
  | Some key => (key, s)
  | None => (default [] (Db_Get (secKey shaKey) db), s)
  end.

Definition Hash_ (s : t) : outcome dberr (Hash * t) :=
  '(h, tr) ← Trie.Hash_ (trie s);
  Done (h, with_trie s tr).

(** [for hk, key := range t.secKeyCache]; the order of the puts is the order of
    [map_to_list]. *)
Fixpoint put_all (l : list (bytes * bytes)) : SM D dberr unit :=
  match l with
  | [] => mret tt
  | (hk, key) :: l =>
      _ ← (fun d => match Db_Put (secKey hk) key d with
                    | Some d => (Done tt, d)
                    | None => (Error errPut, d)
                    end);
      put_all l
  end.

Definition CommitTo : SM (t * D) dberr Hash := fun '(s, d) =>
  let c := getSecKeyCache s in
  match put_all (map_to_list c) d with
  | (Done _, d) =>
      let '(r, (tr, d)) := Trie.CommitTo (trie s, d) in
      (r, (with_cache s tr ∅, d))
  | (Error e, d) => (Error e, (with_cache s (trie s) c, d))
  | (Panic, d) => (Panic, (s, d))
  | (NoFuel, d) => (NoFuel, (s, d))
  end.
End secure.
End SecureTrie.

(** ** proof.go *)
Module Proof.

Section prove.
Context {CR : Crypto} {D : Type} {DB : Database D}.

(** The nodes on the path to [key]; [None] when a node is missing. *)
Fixpoint path_nodes (db : D) (tr : Trie.t) (fuel : nat) (tn : node) (key : bytes)
  : outcome Empty_set (option (list node)) :=
  match fuel with
  | O => NoFuel
  | S fuel =>
      if (zlen key =? 0) || is_nil tn then Done (Some [])
      else
        match tn with
        | shortNode k v _ =>
            rest ← (if (zlen key <? zlen k) || bool_decide (take (length k) key <> k)
                    then path_nodes db tr fuel nilNode key
                    else path_nodes db tr fuel v (drop (length k) key));
            Done (option_map (cons tn) rest)
        | fullNode cs _ =>
            x ← or_panic (zget key 0);
            child ← or_panic (zget cs x);
            rest ← path_nodes db tr fuel child (drop 1 key);
            Done (option_map (cons tn) rest)
        | hashNode h =>
            match Trie.resolveHash db tr h [] [] with
            | Done tn => path_nodes db tr fuel tn key
            | Error _ => Done None
            | Panic => Panic
            | NoFuel => NoFuel
            end
        | _ => Panic
        end
  end.

(** The proof elements of the nodes from index [i] on, hashed without database. *)
Fixpoint elements (i : Z) (nodes : list node) : outcome dberr (list bytes) :=
  match nodes with
  | [] => Done []
  | n :: nodes =>
      '(n, _) ← fst (hashChildren (hash (D:=D) 0 0) n None);
      hn ← fst (store (D:=D) n false None);
      rest ← elements (i + 1) nodes;
      if bool_decide (is_Some (Trie.as_hash hn)) || (i =? 0) then
        enc ← or_panic (match Enc.EncodeToBytes (node_value n) with Done e => Some e | _ => None end);
        Done (enc :: rest)
      else Done rest
  end.

Definition Prove (db : D) (fuel : nat) (tr : Trie.t) (key : bytes) : outcome dberr (list bytes) :=
  let key := keybytesToHex key in
  match path_nodes db tr fuel (Trie.root tr) key with
  | Done (Some nodes) => elements 0 nodes
  | Done None => Done []
  | Error _ | Panic => Panic
  | NoFuel => NoFuel
  end.
End prove.

Section verify.
Context {CR : Crypto}.

Inductive prooferr :=
| errHashMismatch (i : Z)
| errBadNode (i : Z) (e : decodeErr)
| errKeyMismatch (i : Z)
| errAdditionalNodes
| errEndOfProof.

(** [None] is a panic: of the default case, of an index, or of [tn.(valueNode)]. *)
Fixpoint get (tn : node) (key : bytes) : option (bytes * node) :=
  match key with
  | [] => match tn with valueNode _ => Some ([], tn) | _ => None end
  | x :: rest =>
      match tn with
      | shortNode k v _ =>
          if (zlen key <? zlen k) || bool_decide (take (length k) key <> k)
          then Some ([], nilNode)
          else get v (drop (length k) key)
      | fullNode cs _ => g ← zget (map get cs) x; g rest
      | hashNode _ => Some (key, tn)
      | nilNode => Some (key, nilNode)
      | valueNode _ => None
      end
  end.

(** [for i, buf := range proof]; [last] is [len(proof)-1], a nil value is [None]. *)
Fixpoint verify_loop (i last : Z) (key wantHash : bytes) (proof : list bytes)
  : outcome prooferr (option bytes) :=
  match proof with
  | [] => Error errEndOfProof
  | buf :: proof =>
      if bool_decide (Keccak256 buf <> wantHash) then Error (errHashMismatch i)
      else
        n ← map_error (errBadNode i) (decodeNode (Some wantHash) buf 0);
        '(keyrest, cld) ← or_panic (get n key);
        match cld with
        | nilNode => if negb (i =? last) then Error (errKeyMismatch i) else Done None
        | hashNode h => verify_loop (i + 1) last keyrest h proof
        | valueNode v => if negb (i =? last) then Error errAdditionalNodes else Done (Some v)
        | _ => verify_loop (i + 1) last key wantHash proof
        end
  end.

Definition VerifyProof (rootHash : Hash) (key : bytes) (proof : list bytes)
  : outcome prooferr (option bytes) :=
  verify_loop 0 (zlen proof - 1) (keybytesToHex key) rootHash proof.
End verify.
End Proof.
