(* ===== verification/TrieOk.v ===== *)
(** The trie operations on represented trees: lookup, insertion and deletion act
    on the content as on a map and keep the minimal form. *)
From S2P Require Import Prelude GoBig CommonTypes Rlp VmTypes TrieEncoding TrieTree TrieEdit.
From S2P Require Import TrieNode TrieRep Trie.

Lemma zget_middle {A} (p : list A) x r : zget (p ++ x :: r) (zlen p) = Some x.
Proof.
  unfold zget. rewrite (proj2 (Z.leb_le _ _)) by apply zlen_nonneg.
  unfold zlen. rewrite Nat2Z.id. by apply list_lookup_middle.
Qed.

Section operations.
Context {CR : Crypto} {CK : CryptoOk} {D : Type} {DB : Database D}.
Variable db : D.
Variable tr : Trie.t.

Abbreviation get := (fun h => Db_Get h db).
Abbreviation rep := (rep get).

Lemma resolveHash_ok m t b h p s : wf m t -> Z.of_nat m < 2 ^ 32 -> rep b t (hashNode h) ->
  exists n, Trie.resolveHash db tr h p s = Done n /\ rep b t n /\ loaded n.
Proof.
  intros Hwf Hm Hrep. inversion Hrep as [| | | |? ? Hn Hh Hst]; subst.
  unfold Trie.resolveHash. rewrite (stored_get _ _ _ Hn Hh Hst).
  unfold mustDecodeNode. rewrite (decodeNode_tenc _ m) by done. eexists. split; [done|].
  eapply rep_dnode; [done|done|by right].
Qed.

(** The key comparison of [tryGet], and the one of proofs, is [strip]. *)
Lemma slice_strip (p rest k : bytes) :
  (zlen (p ++ rest) - zlen p <? zlen k) ||
    bool_decide (slice (p ++ rest) (zlen p) (zlen p + zlen k) <> Some k) =
  bool_decide (strip k rest = None).
Proof.
  rewrite zlen_app. replace (zlen p + zlen rest - zlen p) with (zlen rest) by lia.
  destruct (strip k rest) as [r|] eqn:E.
  - apply strip_Some in E as ->. rewrite slice_app_head.
    rewrite !bool_decide_eq_false_2, zlen_app by naive_solver.
    pose proof (zlen_nonneg r). by rewrite (proj2 (Z.ltb_ge _ _)) by lia.
  - rewrite (bool_decide_eq_true_2 (None = None)) by done. apply orb_true_iff.
    destruct (Z.lt_ge_cases (zlen rest) (zlen k)); [left; by apply Z.ltb_lt|right].
    apply bool_decide_eq_true. intros Hs. pose proof (zlen_nonneg p). pose proof (zlen_nonneg k).
    rewrite slice_Some in Hs by (rewrite ?zlen_app; lia). injection Hs as Hs.
    replace (zlen p + zlen k - zlen p) with (zlen k) in Hs by lia.
    unfold zdrop, ztake, zlen in Hs. rewrite !Nat2Z.id, drop_app_length in Hs.
    assert (strip k rest = Some (drop (length k) rest)); [|congruence].
    apply strip_Some. by rewrite <- Hs at 1; rewrite take_drop.
Qed.

Lemma newFlag_ok b t : flag_ok get b t (Trie.newFlag tr).
Proof. apply new_flag_ok. Qed.
Local Hint Resolve newFlag_ok : core.

Lemma with_gen_ok b t f : flag_ok get b t f -> flag_ok get b t (Trie.with_gen tr f).
Proof. done. Qed.

(** Bounds for the recursion: one step for a hash, one for a node in memory. *)
Definition enough (fuel : nat) (n : node) (rest : bytes) : Prop :=
  (2 * length rest + 1 <= fuel \/ (loaded n /\ rest <> [] /\ 2 * length rest <= fuel))%nat.

Lemma rep_children ts cs b f x c : rep b (TFull ts) (fullNode cs f) -> zget ts x = Some c ->
  exists n, zget cs x = Some n /\ rep false c n.
Proof.
  inversion 1 as [| | |? ? ? ? _ Hlen Hc|]; subst. intros [Hx Hx0]%zget_lookup.
  destruct (lookup_lt_is_Some_2 cs (Z.to_nat x)) as [n Hn].
  { rewrite Hlen. by eapply lookup_lt_Some. }
  exists n. unfold zget. rewrite (proj2 (Z.leb_le _ _)) by lia. eauto.
Qed.

(** Replacing a child of a full node. *)
Lemma rep_set_child b ts cs f f' x c n : rep b (TFull ts) (fullNode cs f) ->
  0 <= x < zlen ts -> rep false c n -> flag_ok get b (TFull (<[Z.to_nat x := c]> ts)) f' ->
  rep b (TFull (<[Z.to_nat x := c]> ts)) (fullNode (<[Z.to_nat x := n]> cs) f').
Proof.
  inversion 1 as [| | |? ? ? ? _ Hlen Hc|]; subst. intros Hx Hn Hf.
  constructor; [done|by rewrite !length_insert|]. intros i c' n' Hc' Hn'.
  unfold zlen in Hx. destruct (decide (i = Z.to_nat x)) as [->|Hi].
  - rewrite list_lookup_insert_eq in Hc' by lia. rewrite list_lookup_insert_eq in Hn' by lia. by simplify_eq.
  - rewrite list_lookup_insert_ne in Hc' by done. rewrite list_lookup_insert_ne in Hn' by done. eauto.
Qed.

Lemma tryGet_ok fuel : forall m t b n p rest, at_pos m t rest -> Z.of_nat m < 2 ^ 32 -> rep b t n ->
  enough fuel n rest ->
  exists n' r, Trie.tryGet db tr fuel n (p ++ rest) (zlen p) = Done (default [] (tget t rest), n', r) /\
               rep b t n'.
Proof.
  induction fuel as [|fuel IH]; intros m t b n p rest Hpos Hm Hrep Hf.
  { destruct Hf as [?|(_&?&?)]; [lia|]. destruct rest; [done|simpl in *; lia]. }
  destruct Hpos as [[[->|Hwf] Hk]|[Hv ->]].
  { apply rep_nil_inv in Hrep as ->. exists nilNode, false. split; [done|constructor]. }
  2:{ destruct Hv as [->|(v&->&Hv)].
      - apply rep_nil_inv in Hrep as ->. exists nilNode, false. by split; [|constructor].
      - apply rep_value_inv in Hrep as ->. exists (valueNode v), false. by split; [|constructor]. }
  destruct n as [|cs f|k v f|h|v]; [by inversion Hrep; subst; inversion Hwf| | | |by inversion Hrep; subst; inversion Hwf].
  - inversion Hrep as [| | |? ts ? ? Hfl Hlen Hc|]; subst.
    destruct (wf_full_length _ _ Hwf) as [Hl17 [m' ->]].
    destruct rest as [|x rest]; [by apply hexkey_nil in Hk|].
    destruct (at_pos_child m' ts x rest Hwf Hk) as (c&Hx&Hcpos&Hx17).
    destruct (rep_children ts cs b f x c Hrep Hx) as (n&Hn&Hrn).
    cbn [Trie.tryGet]. rewrite zget_middle. simpl_decode. rewrite Hn. simpl_decode. rewrite tget_full, Hx. simpl.
    destruct (IH m' c false n (p ++ [x]) rest Hcpos ltac:(lia) Hrn) as (n'&r&Hg&Hr').
    { left. unfold enough in Hf. simpl in Hf. lia. }
    rewrite <- app_assoc, zlen_app in Hg. cbn [app] in Hg. change (zlen [x]) with 1 in Hg.
    rewrite Hg. simpl_decode. destruct r.
    + rewrite zset_Some by (unfold zlen; lia). simpl_decode. do 2 eexists. split; [done|].
      apply zget_lookup in Hx as [Hx _].
      rewrite <- (list_insert_id ts (Z.to_nat x) c) by done.
      apply (rep_set_child _ ts cs f); [done|unfold zlen; lia|done|].
      rewrite list_insert_id by done. by apply with_gen_ok.
    + do 2 eexists. split; [done|done].
  - inversion Hrep as [| |? ? c ? ? Hfl Hc| |]; subst. cbn [Trie.tryGet]. rewrite slice_strip.
    cbn [tget]. destruct (strip k rest) as [r|] eqn:Es.
    + rewrite bool_decide_eq_false_2 by done. apply strip_Some in Es as ->.
      destruct (at_pos_short m k c r Hwf Hk) as (m'&Hcp&Hm'&Hk0&_).
      destruct (IH m' c false v (p ++ k) r Hcp ltac:(lia) Hc) as (n'&b'&Hg&Hr').
      { left. destruct k; [done|]. unfold enough in Hf. rewrite length_app in Hf. simpl in Hf. lia. }
      rewrite <- app_assoc, zlen_app in Hg. rewrite Hg. simpl_decode. do 2 eexists. split; [done|].
      destruct b'; [|done]. by constructor.
    + rewrite bool_decide_eq_true_2 by done. do 2 eexists. split; [done|done].
  - cbn [Trie.tryGet]. pose proof (zlen_nonneg p). pose proof (zlen_nonneg rest).
    rewrite slice_Some by (rewrite ?zlen_app; lia). simpl_decode.
    rewrite slice_Some by (rewrite ?zlen_app; lia). simpl_decode.
    edestruct (resolveHash_ok m t b h) as (n&->&Hrn&Hl); [done..|]. simpl_decode.
    assert (rest <> []) by by intros ->; apply hexkey_nil in Hk.
    destruct (IH m t b n p rest) as (n'&r&Hg&Hr'); [by left; split; [right|]|done|done| |].
    { right. split_and!; [done..|]. destruct Hf as [?|([]&_)]. lia. }
    rewrite Hg. simpl_decode. by do 2 eexists.
Qed.

(** *** Insertion *)

(** The result of inserting [v] at [key]: the new node represents a tree with the
    new content; an undirtied one represents the old tree. *)
Definition inserted (m : nat) (b : bool) (t : tree) (key v : bytes) (r : outcome trieerr (bool * node)) : Prop :=
  exists d n t', r = Done (d, n) /\ rep b t' n /\ filled m t' key /\
    (forall k, tget t' k = tput (tget t) key (Some v) k) /\ (d = false -> t' = t) /\
    (forall ts, t = TFull ts -> exists ts', t' = TFull ts').

Lemma insert_slot fuel m t b n p v : t = TNil \/ (exists v', t = TValue v' /\ value_ok v') ->
  value_ok v -> rep b t n -> inserted m b t [] v (Trie.insert db tr (S fuel) n p [] (valueNode v)).
Proof.
  intros Ht Hv Hrep. assert (Hput : forall k, tget (TValue v) k = tput (tget t) [] (Some v) k).
  { intros k. unfold tput. destruct k as [|x k]; [done|]. by destruct Ht as [->|(v'&->&_)]. }
  assert (Hfill : filled m (TValue v) []) by (right; split; [by exists v|done]).
  destruct Ht as [->|(v'&->&_)].
  - apply rep_nil_inv in Hrep as ->. exists true, (valueNode v), (TValue v).
    split_and!; try done. constructor.
  - apply rep_value_inv in Hrep as ->.
    exists (negb (bool_decide (v' = v))), (valueNode v), (TValue v).
    split_and!; try done; [constructor|]. intros ?%negb_false_iff%bool_decide_eq_true. congruence.
Qed.

(** Inserting into the empty tree puts a node behind the rest of the key. *)
Definition wrap (k : bytes) (n : node) : node :=
  match k with [] => n | _ => shortNode k n (Trie.newFlag tr) end.

Lemma wrap_if (k : bytes) n : (if zlen k =? 0 then Done (true, n)
    else Done (true, shortNode k n (Trie.newFlag tr)) : outcome trieerr (bool * node)) = Done (true, wrap k n).
Proof.
  destruct k as [|x k]; [done|]. rewrite zlen_cons. pose proof (zlen_nonneg k).
  by rewrite (proj2 (Z.eqb_neq _ _)) by lia.
Qed.

Lemma rep_pre b k c n : rep false c n -> (k = [] -> rep b c n) -> rep b (pre k c) (wrap k n).
Proof. intros Hn Hb. destruct k; [by apply Hb|]. constructor; [done|done]. Qed.

Lemma rep_branch b x cx nx y cy ny : 0 <= x < 17 -> 0 <= y < 17 -> rep false cx nx -> rep false cy ny ->
  rep b (branch x cx y cy)
    (fullNode (<[Z.to_nat y := ny]> (<[Z.to_nat x := nx]> (replicate 17 nilNode))) (Trie.newFlag tr)).
Proof.
  intros Hx Hy Hnx Hny.
  eapply (rep_set_child b _ _ (Trie.newFlag tr)); [eapply (rep_set_child b _ _ (Trie.newFlag tr))|..];
    try done; try (unfold zlen; rewrite ?length_insert, length_replicate; lia).
  constructor; [done|done|]. intros i c n [-> _]%lookup_replicate [-> _]%lookup_replicate. constructor.
Qed.

Lemma insert_split fuel m b q x k c n f p y key v : x <> y ->
  wf m (TShort (q ++ x :: k) c) -> wf m (TShort (q ++ y :: key) (TValue v)) ->
  rep b (TShort (q ++ x :: k) c) (shortNode (q ++ x :: k) n f) ->
  prefixLen (q ++ y :: key) (q ++ x :: k) = length q ->
  inserted m b (TShort (q ++ x :: k) c) (q ++ y :: key) v
    (Trie.insert db tr (S (S fuel)) (shortNode (q ++ x :: k) n f) p (q ++ y :: key) (valueNode v)).
Proof.
  intros Hxy Hk Hkey Hrep Hp. inversion Hrep as [| |? ? ? ? ? _ Hn| |]; subst.
  destruct (split_short m q x k c y key v Hxy Hk Hkey) as [Hwf Hput].
  assert (exists m', m = (length q + S m')%nat) as (m'&->).
  { exists (m - length q - 1)%nat. inversion Hkey as [? ? ? _ Hl _| |]; subst.
    rewrite length_app in Hl. simpl in Hl. lia. }
  destruct (short_tail _ _ _ _ _ Hk) as (Hq&Hx&_), (short_tail _ _ _ _ _ Hkey) as (_&Hy&_).
  cbn [Trie.insert]. rewrite (proj2 (Z.eqb_neq _ _))
    by (rewrite zlen_app, zlen_cons; pose proof (zlen_nonneg q); pose proof (zlen_nonneg key); lia).
  rewrite Hp, bool_decide_eq_false_2 by (rewrite length_app; simpl; lia).
  rewrite !list_lookup_middle by done. simpl_decode.
  change (drop (S (length q)) (q ++ x :: k)) with (drop (S (length q)) (q ++ [x] ++ k)).
  change (drop (S (length q)) (q ++ y :: key)) with (drop (S (length q)) (q ++ [y] ++ key)).
  rewrite !(app_assoc q [_]), !drop_app_length' by (rewrite length_app; simpl; lia).
  rewrite !wrap_if. simpl_decode. rewrite zset_Some by (unfold zlen; rewrite length_replicate; lia).
  simpl_decode. rewrite zset_Some by (unfold zlen; rewrite length_insert, length_replicate; lia). simpl_decode.
  rewrite take_app_length. set (bn := fullNode _ _).
  assert (Hbr : forall b', rep b' (branch x (pre k c) y (pre key (TValue v))) bn).
  { intros b'. apply rep_branch; [done|done|by apply rep_pre|apply rep_pre; [|intros _]; constructor]. }
  exists true, (wrap q bn), (pre q (branch x (pre k c) y (pre key (TValue v)))).
  split_and!; [by destruct q|by apply rep_pre; [|intros _]| |done|done|done].
  left. split; [done|]. by inversion Hkey.
Qed.

Lemma zlen_key_ne key : hexkey key -> (zlen key =? 0) = false.
Proof.
  intros Hk. apply Z.eqb_neq. destruct key; [by apply hexkey_nil in Hk|].
  rewrite zlen_cons. pose proof (zlen_nonneg key). lia.
Qed.

(** Where a complete key leaves the key of a short node. *)
Lemma key_vs_short m key k c : wf m (TShort k c) -> hexkey key ->
  (exists r, key = k ++ r /\ prefixLen key k = length k) \/
  (exists q x k' y key', k = q ++ x :: k' /\ key = q ++ y :: key' /\ x <> y /\
     prefixLen key k = length q).
Proof.
  intros Hwf Hk. destruct (prefixLen_spec key k) as (q&key'&k'&->&->&Hl&Hne).
  destruct k' as [|x k'].
  - left. exists key'. by rewrite app_nil_r in *.
  - right. destruct key' as [|y key']; [|by exists q, x, k', y, key'; split_and!; auto].
    exfalso. rewrite app_nil_r in *. eapply nibbles_no_term, Hk.
    inversion Hwf as [? ? ? Hk' _ _|? ? ? ? _ Hk' _ _|]; subst.
    + by apply hexkey_app in Hk' as [? _].
    + by apply Forall_app in Hk' as [? _].
Qed.

Lemma insert_short_below m b k c n f r v d nn c' : wf m (TShort k c) ->
  rep b (TShort k c) (shortNode k n f) -> hexkey (k ++ r) -> (length (k ++ r) <= m)%nat ->
  rep false c' nn -> filled (m - length k) c' r -> (forall s, tget c' s = tput (tget c) r (Some v) s) ->
  (d = false -> c' = c) -> (forall ts, c = TFull ts -> exists ts', c' = TFull ts') ->
  inserted m b (TShort k c) (k ++ r) v
    (if negb d then Done (false, shortNode k n f) else Done (true, shortNode k nn (Trie.newFlag tr))).
Proof.
  intros Hwf Hrep Hk Hm Hnn Hfill Hput Hd Hfull.
  assert (Hget : forall s, tget (TShort k c') s = tput (tget (TShort k c)) (k ++ r) (Some v) s).
  { intros s. unfold tput. cbn [tget]. destruct (strip k s) as [s'|] eqn:E; simpl.
    - apply strip_Some in E as ->. rewrite Hput. unfold tput.
      destruct (decide (s' = r)) as [->|]; [by rewrite !bool_decide_eq_true_2|].
      rewrite !bool_decide_eq_false_2; [done| |done]. by intros ?%app_inv_head.
    - rewrite bool_decide_eq_false_2; [done|]. intros ->. by rewrite strip_app in E. }
  destruct d; simpl.
  - exists true, (shortNode k nn (Trie.newFlag tr)), (TShort k c').
    split_and!; [done|by constructor| |done|done|done]. left. split; [|done].
    destruct (at_pos_short m k c r Hwf Hk) as (m'&_&_&Hk0&_&[(ts&->&->)|[-> (v'&->)]]).
    + destruct (Hfull ts eq_refl) as (ts'&->). inversion Hwf as [|? ? ? ? _ Hnib ? ?|]; subst.
      destruct Hfill as [[Hc' _]|[_ ->]]; [|rewrite app_nil_r in Hk; by destruct (nibbles_no_term k)].
      replace (length k + m' - length k)%nat with m' in Hc' by lia. by apply (wf_ext _ m').
    + destruct Hfill as [[_ ?%hexkey_nil]|[(v2&->&Hv2) _]]; [done|]. inversion Hwf; subst. by constructor.
  - exists false, (shortNode k n f), (TShort k c). rewrite (Hd eq_refl) in Hget.
    split_and!; try done. by left.
Qed.

Lemma insert_full_below m b ts cs f x c r v d nn c' : wf (S m) (TFull ts) ->
  rep b (TFull ts) (fullNode cs f) -> hexkey (x :: r) -> zget ts x = Some c ->
  rep false c' nn -> filled m c' r -> (forall s, tget c' s = tput (tget c) r (Some v) s) ->
  (d = false -> c' = c) ->
  inserted (S m) b (TFull ts) (x :: r) v
    (if negb d then Done (false, fullNode cs f)
     else cs ← or_panic (zset cs x nn); Done (true, fullNode cs (Trie.newFlag tr))).
Proof.
  intros Hwf Hrep Hk Hx Hnn Hfill Hput Hd. pose proof (hexkey_range _ _ Hk) as Hr.
  destruct (wf_full_length _ _ Hwf) as [Hlen _].
  destruct (filled_child m _ c' r x Hfill Hk eq_refl) as [Hc' Hn'].
  assert (Hget : forall s, tget (TFull (<[Z.to_nat x := c']> ts)) s = tput (tget (TFull ts)) (x :: r) (Some v) s).
  { intros [|z s]; [done|]. rewrite tget_set_child by (unfold zlen; lia). unfold tput.
    case_match; bool_to_prop.
    - subst z. rewrite Hput, tget_full, Hx. unfold tput. simpl.
      destruct (decide (s = r)) as [->|]; [by rewrite !bool_decide_eq_true_2|].
      rewrite !bool_decide_eq_false_2; congruence.
    - rewrite bool_decide_eq_false_2; congruence. }
  destruct d; simpl.
  - pose proof Hrep as Hrep'. inversion Hrep' as [| | |? ? ? ? _ Hl _|]; subst.
    rewrite zset_Some by (unfold zlen; lia). simpl_decode.
    do 3 eexists. split_and!; [done| | |done|done|by eauto].
    + eapply rep_set_child; [done|unfold zlen; lia|done|done].
    + left. split; [|done]. by apply wf_set_child.
  - exists false, (fullNode cs f), (TFull ts). rewrite (Hd eq_refl) in Hget.
    apply zget_lookup in Hx as [Hx _]. rewrite list_insert_id in Hget by done.
    split_and!; try done; [by left|by eauto].
Qed.

Lemma insert_ok fuel : forall m t b n p key v, at_pos m t key -> (length key <= m)%nat ->
  Z.of_nat m < 2 ^ 32 -> value_ok v -> rep b t n -> enough fuel n key ->
  inserted m b t key v (Trie.insert db tr fuel n p key (valueNode v)).
Proof.
  induction fuel as [|fuel IH]; intros m t b n p key v Hpos Hlen Hm Hv Hrep Hf.
  { destruct Hf as [?|(_&?&?)]; [lia|]. destruct key; [done|simpl in *; lia]. }
  destruct Hpos as [[Ht Hk]|[Hslot ->]]; [|by apply insert_slot].
  destruct Ht as [->|Hwf].
  { apply rep_nil_inv in Hrep as ->. cbn [Trie.insert]. rewrite zlen_key_ne by done.
    exists true, (shortNode key (valueNode v) (Trie.newFlag tr)), (TShort key (TValue v)).
    split_and!; try done; [by constructor; [|constructor]|by left; split; [constructor|]|].
    intros k. rewrite tget_leaf. done. }
  destruct n as [|cs f|k n f|h|v']; [by inversion Hrep; subst; inversion Hwf| | | |by inversion Hrep; subst; inversion Hwf].
  - inversion Hrep as [| | |? ts ? ? _ _ _|]; subst. destruct (wf_full_length _ _ Hwf) as [_ [m' ->]].
    destruct key as [|x r]; [by apply hexkey_nil in Hk|].
    destruct (at_pos_child m' ts x r Hwf Hk) as (c&Hx&Hcpos&_).
    destruct (rep_children ts cs b f x c Hrep Hx) as (n&Hn&Hrn). simpl in Hlen.
    cbn [Trie.insert]. rewrite zlen_key_ne, zget_0 by done. simpl_decode. rewrite Hn. simpl_decode.
    destruct (IH m' c false n (p ++ [x]) r v Hcpos ltac:(lia) ltac:(lia) Hv Hrn)
      as (d&nn&c'&Hi&Hnn&Hfill&Hput&Hd&_); [left; unfold enough in Hf; simpl in Hf; lia|].
    change (drop 1 (x :: r)) with r. rewrite Hi. simpl_decode. by eapply insert_full_below.
  - inversion Hrep as [| |? ? c ? ? _ Hn| |]; subst.
    destruct (key_vs_short m key k c Hwf Hk) as [(r&->&Hp)|(q&x&k'&y&key'&->&->&Hxy&Hp)].
    + destruct (at_pos_short m k c r Hwf Hk) as (m'&Hcp&Hm'&Hk0&Hl&Hc).
      cbn [Trie.insert]. rewrite zlen_key_ne, Hp, bool_decide_eq_true_2, drop_app_length by done.
      destruct (IH m' c false n (p ++ take (length k) (k ++ r)) r v Hcp (Hl Hlen) ltac:(lia) Hv Hn)
        as (d&nn&c'&Hi&Hnn&Hfill&Hput&Hd&Hfull).
      { left. destruct k; [done|]. unfold enough in Hf. rewrite length_app in Hf. simpl in Hf. lia. }
      rewrite Hi. simpl_decode. eapply insert_short_below; try done.
      destruct Hc as [(ts&_&->)|[-> _]]; [by rewrite Nat.add_comm, Nat.add_sub|].
      destruct Hfill as [[_ ?%hexkey_nil]|?]; [done|by right].
    + destruct fuel as [|fuel]; [exfalso; unfold enough in Hf; rewrite length_app in Hf; simpl in Hf; lia|].
      apply insert_split; try done. by constructor.
  - cbn [Trie.insert]. rewrite zlen_key_ne by done.
    edestruct (resolveHash_ok m t b h) as (n&->&Hrn&Hl); [done..|]. simpl_decode.
    destruct (IH m t b n p key v) as (d&nn&t'&Hi&Hnn&Hfill&Hput&Hd&Hfull);
      [by left; split; [right|]|done|done|done|done| |].
    { right. split_and!; [done|by intros ->; apply hexkey_nil in Hk|].
      destruct Hf as [?|([]&_)]. lia. }
    rewrite Hi. simpl_decode. destruct d; simpl.
    + by exists true, nn, t'.
    + exists false, n, t. rewrite (Hd eq_refl) in *. by split_and!.
Qed.

(** *** Deletion *)

Lemma only_child_from pos cs : forall i, 0 <= pos ->
  (Trie.only_child pos i cs = pos /\ Forall (fun n => is_nil n = true) cs) \/
  (Trie.only_child pos i cs = -2 /\ exists j n, cs !! j = Some n /\ is_nil n = false).
Proof.
  induction cs as [|c cs IH]; intros i Hpos; [by left|]. simpl.
  destruct (is_nil c) eqn:E; simpl.
  - destruct (IH (i + 1) Hpos) as [[-> ?]|[-> (j&n&?&?)]]; [left; by auto|right].
    split; [done|]. by exists (S j), n.
  - rewrite (proj2 (Z.eqb_neq _ _)) by lia. right. split; [done|]. by exists O, c.
Qed.

Lemma only_child_spec cs : forall i, 0 <= i ->
  (exists j n, Trie.only_child (-1) i cs = i + Z.of_nat j /\ cs !! j = Some n /\ is_nil n = false /\
     forall j' n', cs !! j' = Some n' -> j' <> j -> is_nil n' = true) \/
  (Trie.only_child (-1) i cs < 0 /\
     ((exists j j' n n', j <> j' /\ cs !! j = Some n /\ cs !! j' = Some n' /\ is_nil n = false /\ is_nil n' = false)
      \/ Forall (fun n => is_nil n = true) cs)).
Proof.
  induction cs as [|c cs IH]; intros i Hi; [right; split; [done|by right]|]. simpl.
  destruct (is_nil c) eqn:E; simpl.
  - destruct (IH (i + 1) ltac:(lia)) as [(j&n&->&Hj&Hn&Ho)|[Hneg Hr]].
    + left. exists (S j), n. split_and!; [lia|done|done|]. intros [|j'] n' Hj'; [by intros; simplify_eq/=|].
      intros. apply (Ho j'); [done|lia].
    + right. split; [done|]. destruct Hr as [(j&j'&n&n'&?&?&?&?&?)|?]; [|right; by constructor].
      left. exists (S j), (S j'), n, n'. split_and!; [lia|done..].
  - destruct (only_child_from i cs (i + 1) Hi) as [[-> Hall]|[-> (j&n&Hj&Hn)]].
    + left. exists O, c. split_and!; [lia|done|done|]. intros [|j'] n' Hj' Hne; [done|].
      exact (Forall_lookup_1 _ cs j' n' Hall Hj').
    + right. split; [done|]. left. exists O, (S j), c, n. by split_and!.
Qed.

Definition deleted (m : nat) (b : bool) (t : tree) (key : bytes) (r : outcome trieerr (bool * node)) : Prop :=
  exists d n t', r = Done (d, n) /\ rep b t' n /\ wf0 m t' /\ (key = [] -> t' = TNil) /\
    (forall k, tget t' k = tput (tget t) key None k) /\ (d = false -> t' = t) /\
    (d = true -> Trie.as_hash n = None) /\ (forall ts, t = TFull ts -> t' <> TNil).

(** Nothing is removed where nothing is found. *)
Lemma deleted_none m b t key n : wf0 m t -> rep b t n -> tget t key = None -> (key = [] -> t = TNil) ->
  deleted m b t key (Done (false, n)).
Proof.
  intros Hwf Hrep Hnone Hnil. exists false, n, t. split_and!; try done.
  - intros k. unfold tput. case_bool_decide; [by subst|done].
  - by intros ts ->.
Qed.

(** A key that parts from the one of a short node. *)
Lemma delete_mismatch m b q x k c y key n f p fuel : x <> y ->
  wf m (TShort (q ++ x :: k) c) -> rep b (TShort (q ++ x :: k) c) n ->
  prefixLen (q ++ y :: key) (q ++ x :: k) = length q -> n = shortNode (q ++ x :: k) f p ->
  forall pr, deleted m b (TShort (q ++ x :: k) c) (q ++ y :: key)
    (Trie.delete db tr (S fuel) n pr (q ++ y :: key)).
Proof.
  intros Hxy Hwf Hrep Hp -> pr. cbn [Trie.delete]. rewrite Hp, bool_decide_eq_true_2
    by (rewrite length_app; simpl; lia).
  apply deleted_none; [by right|done| |by destruct q]. cbn [tget]. rewrite strip_app_l, strip_app. simpl.
  by rewrite (proj2 (Z.eqb_neq _ _)).
Qed.

Lemma tput_short k c r s :
  tput (tget (TShort k c)) (k ++ r) None s = (s' ← strip k s; tput (tget c) r None s').
Proof.
  unfold tput. cbn [tget]. destruct (strip k s) as [s'|] eqn:E; simpl.
  - apply strip_Some in E as ->. destruct (decide (s' = r)) as [->|]; [by rewrite !bool_decide_eq_true_2|].
    rewrite !bool_decide_eq_false_2; [done|done|]. by intros ?%app_inv_head.
  - by case_match.
Qed.

(** Short nodes in front of what a deletion leaves of a subtree. *)
Lemma rep_join b k c n : rep false c n -> Trie.as_hash n = None -> is_node c ->
  rep b (join k c) (match n with
                    | shortNode k' v _ => shortNode (k ++ k') v (Trie.newFlag tr)
                    | _ => shortNode k n (Trie.newFlag tr)
                    end).
Proof.
  intros Hrep Hh Hc. inversion Hrep; subst; try done; constructor; try done.
Qed.

Lemma wf0_node m t : wf0 m t -> t <> TNil -> is_node t.
Proof. intros [?|?] ?; [done|by eapply wf_is_node]. Qed.

Lemma delete_short_below m m' b k ts n f r d nn c' : wf m (TShort k (TFull ts)) -> m = (length k + m')%nat ->
  rep b (TShort k (TFull ts)) (shortNode k n f) ->
  rep false c' nn -> wf0 m' c' -> (forall s, tget c' s = tput (tget (TFull ts)) r None s) ->
  (d = false -> c' = TFull ts) -> (d = true -> Trie.as_hash nn = None) -> c' <> TNil -> k <> [] ->
  deleted m b (TShort k (TFull ts)) (k ++ r)
    (if negb d then Done (false, shortNode k n f)
     else match nn with
          | shortNode cKey cVal _ => Done (true, shortNode (Trie.concat k cKey) cVal (Trie.newFlag tr))
          | _ => Done (true, shortNode k nn (Trie.newFlag tr))
          end).
Proof.
  intros Hwf -> Hrep Hnn Hwf' Hput Hd Hh Hn Hk0.
  assert (Hget : forall s, tget (join k c') s = tput (tget (TShort k (TFull ts))) (k ++ r) None s).
  { intros s. rewrite tget_join, tput_short. cbn [tget]. destruct (strip k s); [apply Hput|done]. }
  destruct d; simpl.
  - eexists true, _, (join k c'). split_and!; [|by apply rep_join; [|auto|eapply wf0_node]| |by destruct k|done|done| |done].
    + by destruct nn.
    + right. inversion Hwf; subst. apply wf_join; [done|done|by destruct Hwf'].
    + intros _. by destruct nn.
  - rewrite (Hd eq_refl) in Hget. exists false, (shortNode k n f), (TShort k (TFull ts)).
    split_and!; try done; [by right|by destruct k].
Qed.

Lemma resolve_ok m t b n p s : wf m t -> Z.of_nat m < 2 ^ 32 -> rep b t n ->
  exists n', Trie.resolve db tr n p s = Done n' /\ rep b t n' /\ loaded n'.
Proof.
  intros Hwf Hm Hrep. destruct n; [| | |by eapply resolveHash_ok|].
  - by inversion Hrep; subst; inversion Hwf.
  - by eexists.
  - by eexists.
  - by inversion Hrep; subst; inversion Hwf.
Qed.

(** The nodes of a full node that stays, or collapses to its only child. *)
Lemma delete_full_rest m b ts cs f p : length ts = 17%nat ->
  (forall i c, ts !! i = Some c -> child_ok m i c) -> (exists i c, ts !! i = Some c /\ c <> TNil) ->
  Z.of_nat m < 2 ^ 32 -> rep b (TFull ts) (fullNode cs f) -> (flag_hash f = None) ->
  exists n t', (let pos := Trie.only_child (-1) 0 cs in
    if pos >=? 0 then
      cld ← or_panic (zget cs pos);
      if negb (pos =? 16) then
        cnode ← Trie.resolve db tr cld p [pos];
        match cnode with
        | shortNode cKey cVal _ => Done (true, shortNode (pos :: cKey) cVal (Trie.newFlag tr))
        | _ => Done (true, shortNode [pos] cld (Trie.newFlag tr))
        end
      else Done (true, shortNode [pos] cld (Trie.newFlag tr))
    else Done (true, fullNode cs f)) = Done (true, n) /\
    rep b t' n /\ wf (S m) t' /\ Trie.as_hash n = None /\ forall s, tget t' s = tget (TFull ts) s.
Proof.
  intros Hlen Hch Hsome Hm Hrep Hf. inversion Hrep as [| | |? ? ? ? _ Hl Hc|]; subst.
  assert (Hnil : forall i c n, ts !! i = Some c -> cs !! i = Some n -> is_nil n = true <-> c = TNil).
  { intros. by eapply rep_is_nil, Hc. }
  cbv zeta. destruct (only_child_spec cs 0 ltac:(lia)) as [(j&n&->&Hj&Hn&Ho)|[Hneg Hr]].
  - rewrite Z.add_0_l. rewrite Z.geb_leb, (proj2 (Z.leb_le _ _)) by lia.
    assert (zget cs (Z.of_nat j) = Some n) as -> by (apply zget_lookup; rewrite Nat2Z.id; split; [done|lia]).
    simpl_decode. destruct (lookup_lt_is_Some_2 ts j) as [c Hj'].
    { rewrite <- Hl. by eapply lookup_lt_Some. }
    assert (Hcn : c <> TNil) by (intros Hc0; apply (Hnil j c n) in Hc0; congruence).
    destruct (collapse_ok m ts j c Hlen Hj' Hcn (Hch j c Hj')) as [Hwf Hget].
    { intros j' d Hd Hne. destruct (lookup_lt_is_Some_2 cs j') as [n' Hn'].
      { rewrite Hl. by eapply lookup_lt_Some. }
      eapply Hnil; [done|done|]. by eapply Ho. }
    pose proof (Hc j c n Hj' Hj) as Hrn.
    destruct (Hch j c Hj') as [->|[[Hlt Hwfc]|[-> (v&->&Hv)]]]; [done| |].
    + rewrite (proj2 (Z.eqb_neq _ _)) by lia. simpl negb. cbv iota.
      edestruct (resolve_ok m c false n) as (n0&->&Hr0&Hl0); [done..|]. simpl_decode.
      destruct n0 as [|cs0 f0|k0 v0 f0|h0|v0]; try done.
      * inversion Hr0; subst. do 2 eexists. split_and!; [done| |done|done|done].
        constructor; [done|done].
      * inversion Hr0; subst. do 2 eexists. split_and!; [done| |done|done|done].
        constructor; [done|done].
    + apply rep_value_inv in Hrn as ->. change (Z.of_nat 16 =? 16) with true. simpl.
      do 2 eexists. split_and!; [done| |done|done|done]. simpl. constructor; [done|constructor].
  - rewrite Z.geb_leb, (proj2 (Z.leb_gt _ _)) by lia. do 2 eexists.
    split_and!; [done|done| |done|done]. apply wf_full_intro; [done|done|].
    destruct Hr as [(j&j'&n&n'&Hne&Hj&Hj'&Hn&Hn')|Hall].
    + destruct (lookup_lt_is_Some_2 ts j) as [c Hcj]; [rewrite <- Hl; by eapply lookup_lt_Some|].
      destruct (lookup_lt_is_Some_2 ts j') as [c' Hcj']; [rewrite <- Hl; by eapply lookup_lt_Some|].
      exists j, j', c, c'. split_and!; [done..| |]; intros Hc0.
      * apply (Hnil j c n Hcj Hj) in Hc0. congruence.
      * apply (Hnil j' c' n' Hcj' Hj') in Hc0. congruence.
    + destruct Hsome as (i&c&Hi&Hcn). destruct (lookup_lt_is_Some_2 cs i) as [n Hn].
      { rewrite Hl. by eapply lookup_lt_Some. }
      destruct Hcn. eapply Hnil; [done|done|]. exact (Forall_lookup_1 _ cs i n Hall Hn).
Qed.

Lemma tput_full ts x c c' r s : zget ts x = Some c -> 0 <= x < zlen ts ->
  (forall s, tget c' s = tput (tget c) r None s) ->
  tget (TFull (<[Z.to_nat x := c']> ts)) s = tput (tget (TFull ts)) (x :: r) None s.
Proof.
  intros Hx Hr Hput. destruct s as [|z s]; [done|]. rewrite tget_set_child by done. unfold tput.
  case_match; bool_to_prop.
  - subst z. rewrite Hput, tget_full, Hx. unfold tput. simpl.
    destruct (decide (s = r)) as [->|]; [by rewrite !bool_decide_eq_true_2|].
    rewrite !bool_decide_eq_false_2; congruence.
  - rewrite bool_decide_eq_false_2; congruence.
Qed.

Lemma delete_ok fuel : forall m t b n p key, at_pos m t key -> Z.of_nat m < 2 ^ 32 -> rep b t n ->
  enough fuel n key -> deleted m b t key (Trie.delete db tr fuel n p key).
Proof.
  induction fuel as [|fuel IH]; intros m t b n p key Hpos Hm Hrep Hf.
  { destruct Hf as [?|(_&?&?)]; [lia|]. destruct key; [done|simpl in *; lia]. }
  destruct Hpos as [[Ht Hk]|[Hslot ->]].
  2:{ destruct Hslot as [->|(v&->&Hv)].
      - apply rep_nil_inv in Hrep as ->. by apply deleted_none; [left|constructor| |].
      - apply rep_value_inv in Hrep as ->. exists true, nilNode, TNil.
        split_and!; try done; [constructor|by left|]. intros [|x k]; done. }
  destruct Ht as [->|Hwf]; [apply rep_nil_inv in Hrep as ->; by apply deleted_none; [left|constructor| |]|].
  destruct n as [|cs f|k n f|h|v']; [by inversion Hrep; subst; inversion Hwf| | | |by inversion Hrep; subst; inversion Hwf].
  - inversion Hrep as [| | |? ts ? ? _ Hlc _|]; subst. destruct (wf_full_length _ _ Hwf) as [Hl17 [m' ->]].
    destruct key as [|x r]; [by apply hexkey_nil in Hk|].
    destruct (at_pos_child m' ts x r Hwf Hk) as (c&Hx&Hcpos&Hx17).
    destruct (rep_children ts cs b f x c Hrep Hx) as (n&Hn&Hrn).
    cbn [Trie.delete]. rewrite zget_0. simpl_decode. rewrite Hn. simpl_decode.
    change (drop 1 (x :: r)) with r.
    destruct (IH m' c false n (p ++ [x]) r Hcpos ltac:(lia) Hrn)
      as (d&nn&c'&Hi&Hnn&Hwf'&Hk'&Hput&Hd&_&_); [left; unfold enough in Hf; simpl in Hf; lia|].
    rewrite Hi. simpl_decode. destruct d; simpl negb; cbv iota.
    + assert (Hc' : child_ok m' (Z.to_nat x) c').
      { destruct Hwf' as [->|Hwf']; [by left|]. right. left. split; [|done].
        apply hexkey_cons in Hk as [[-> ->]|[Hxn _]]; [|unfold is_nibble in Hxn; lia].
        rewrite (Hk' eq_refl) in Hwf'. inversion Hwf'. }
      rewrite zset_Some by (unfold zlen; lia). simpl_decode.
      destruct (set_child_ok m' ts x c' Hl17 (fun i d => wf_children m' ts i d Hwf) Hx17 Hc') as [Hl' Hch'].
      destruct (delete_full_rest m' b (<[Z.to_nat x := c']> ts) (<[Z.to_nat x := nn]> cs) (Trie.newFlag tr) p)
        as (n'&t'&Hr&Hr'&Hwft&Hh&Hget); [done|done|by eapply remove_child|lia| |done|].
      { eapply rep_set_child; [done|unfold zlen; lia|done|done]. }
      cbv zeta in Hr |- *. rewrite Hr. exists true, n', t'. split_and!; try done; [by right| |].
      * intros s. rewrite Hget. eapply tput_full; [done|unfold zlen; lia|done].
      * intros _ _. by eapply wf_not_nil.
    + exists false, (fullNode cs f), (TFull ts). split_and!; try done; [by right|].
      rewrite (Hd eq_refl) in Hput. intros s.
      rewrite <- (tput_full ts x c c r) by (done || (unfold zlen; lia)).
      apply zget_lookup in Hx as [Hx _]. by rewrite list_insert_id.
  - inversion Hrep as [| |? ? c ? ? _ Hn| |]; subst.
    destruct (key_vs_short m key k c Hwf Hk) as [(r&->&Hp)|(q&x&k'&y&key'&->&->&Hxy&Hp)];
      [|by eapply delete_mismatch].
    destruct (at_pos_short m k c r Hwf Hk) as (m'&Hcp&Hm'&Hk0&Hl&Hc).
    cbn [Trie.delete]. rewrite Hp, bool_decide_eq_false_2, drop_app_length by lia.
    destruct Hc as [(ts&->&->)|[-> (v&->)]].
    + rewrite bool_decide_eq_false_2.
      2:{ rewrite length_app. destruct r; [|simpl; lia]. destruct Hcp as [[_ ?%hexkey_nil]|[[?|(?&?&_)] _]]; done. }
      destruct (IH m' (TFull ts) false n (p ++ take (length k) (k ++ r)) r Hcp ltac:(lia) Hn)
        as (d&nn&c'&Hi&Hnn&Hwf'&_&Hput&Hd&Hh&Hfull).
      { left. destruct k; [done|]. unfold enough in Hf. rewrite length_app in Hf. simpl in Hf. lia. }
      rewrite Hi. simpl_decode. eapply delete_short_below; eauto.
    + rewrite bool_decide_eq_true_2 by by rewrite app_nil_r.
      exists true, nilNode, TNil. split_and!; try done; [constructor|by left|].
      intros s. rewrite app_nil_r. unfold tput. rewrite tget_leaf. by case_bool_decide.
  - cbn [Trie.delete]. edestruct (resolveHash_ok m t b h) as (n&->&Hrn&Hl); [done..|]. simpl_decode.
    destruct (IH m t b n p key) as (d&nn&t'&Hi&Hnn&Hwf'&Hk'&Hput&Hd&Hh&Hfull); [by left; split; [right|]|done|done| |].
    { right. split_and!; [done|by intros ->; apply hexkey_nil in Hk|]. destruct Hf as [?|([]&_)]. lia. }
    rewrite Hi. simpl_decode. destruct d; simpl.
    + by exists true, nn, t'.
    + exists false, n, t. rewrite (Hd eq_refl) in *. by split_and!.
Qed.
End operations.
