(* ===== verification/TrieHash.v ===== *)
(** Hashing and committing: whatever is cached, loaded or already stored, the
    hasher computes the hash the format defines, and a commit leaves every node of
    the tree in the database.

    Two different node encodings with the same hash would break any such store, so
    the results on writing assume that there are none among the encodings [U] that
    occur; hashing alone needs no assumption.  The last part shows that without collisions the
    encoding of a tree determines it. *)
From S2P Require Import Prelude GoBig CommonTypes Rlp VmTypes TrieEncoding TrieTree TrieEdit TrieNode TrieRep Trie TrieOk.

Section hashing.
Context {CR : Crypto} {CK : CryptoOk} {D : Type} {DB : Database D} {DK : DatabaseOk D}.

(** What reads see: the database of the trie, overlaid with what was written. *)
Variable base : bytes -> option bytes.
Definition overlay (d : D) (h : bytes) : option bytes :=
  match Db_Get h d with Some e => Some e | None => base h end.
Definition view (d : option D) : bytes -> option bytes :=
  match d with None => base | Some d => overlay d end.

(** The node encodings in play, without collisions. *)
Variable U : bytes -> Prop.
Hypothesis U_inj : forall x y, U x -> U y -> Keccak256 x = Keccak256 y -> x = y.

(** Entries under a hash are what was hashed. *)
Definition addressed (v : bytes -> option bytes) : Prop :=
  forall h e, v h = Some e -> zlen h = 32 -> U e /\ Keccak256 e = h.

Inductive known : tree -> Prop :=
| known_nil : known TNil
| known_value v : known (TValue v)
| known_short k c : U (tenc (TShort k c)) -> known c -> known (TShort k c)
| known_full ts : U (tenc (TFull ts)) -> (forall i c, ts !! i = Some c -> known c) -> known (TFull ts).

Definition grows (v v' : bytes -> option bytes) : Prop := forall h e, v h = Some e -> v' h = Some e.

(** From one writer to the next. *)
Record steps (d d' : option D) : Prop := {
  steps_some : is_Some d <-> is_Some d';
  steps_grows : grows (view d) (view d');
  steps_addressed : is_Some d -> addressed (view d) -> addressed (view d');
}.

Lemma steps_refl d : steps d d.
Proof. split; [done|by intros h e|done]. Qed.

Lemma steps_trans d1 d2 d3 : steps d1 d2 -> steps d2 d3 -> steps d1 d3.
Proof.
  intros [Hs Hg Ha] [Hs' Hg' Ha']. split; [by rewrite Hs|by intros h e ?%Hg; apply Hg'|].
  intros Hd ?. apply Ha'; [by apply Hs|by apply Ha].
Qed.

(** A failed write; without a writer nothing fails. *)
Definition failed (d d' : option D) : Prop := steps d d' /\ is_Some d.

Lemma failed_trans d d1 d2 : steps d d1 -> failed d1 d2 -> failed d d2.
Proof. intros Hs [Hs2 Hd]. split; [by eapply steps_trans|]. by apply (steps_some _ _ Hs). Qed.

Lemma put_ok e d : (is_Some d -> U e /\ addressed (view d)) ->
  match put (Keccak256 e) e d with
  | (Done _, d') => steps d d' /\ (is_Some d' -> view d' (Keccak256 e) = Some e)
  | (Error _, d') => failed d d'
  | _ => False
  end.
Proof.
  intros Hpre. unfold put. destruct d as [d|]; [|by split; [apply steps_refl|intros []]].
  destruct (Hpre ltac:(done)) as [He Ha]. destruct (Db_Put _ e d) as [d'|] eqn:Hput; [|by split; [apply steps_refl|]].
  assert (Hv : forall k, view (Some d') k = if bool_decide (k = Keccak256 e) then Some e else view (Some d) k).
  { intros k. simpl. unfold overlay. rewrite (Db_Get_Put _ _ _ _ k Hput). by case_bool_decide. }
  split; [|intros _; rewrite Hv; by rewrite bool_decide_eq_true_2]. split; [done|..].
  - intros h e' Hh. rewrite Hv. case_bool_decide; [|done]. subst h.
    destruct (Ha _ _ Hh) as [He' Hk]; [apply zlen_hash|]. f_equal. by apply U_inj.
  - intros _ _ h e' Hh. rewrite Hv in Hh. case_bool_decide; [|by apply Ha]. by simplify_eq.
Qed.

(** ** Results *)

(** What the parent of [t] sees. *)
Definition refers (b : bool) (t : tree) (hn : node) : Prop :=
  (hashed b t /\ hn = hashNode (thash t)) \/ (~ hashed b t /\ node_value hn = tval t /\ loaded hn).

Lemma not_hashed b t : ~ hashed b t -> b = false /\ zlen (tenc t) < 32.
Proof.
  unfold hashed. intros Hh. destruct b; [by destruct Hh; left|]. split; [done|].
  destruct (Z.lt_ge_cases (zlen (tenc t)) 32); [done|by destruct Hh; right].
Qed.

Lemma refers_tref t hn : is_node t -> refers false t hn -> node_value hn = tref t /\ is_nil hn = false.
Proof.
  intros Ht Hr. rewrite tref_node by done. unfold ref_of. fold (tenc t).
  destruct Hr as [[[?|Hh] ->]|([_ Hh]%not_hashed&Hv&Hl)]; [done| |].
  - by rewrite (proj2 (Z.ltb_ge _ _)) by lia.
  - rewrite (proj2 (Z.ltb_lt _ _)) by done. by destruct hn.
Qed.

Definition writable (d : option D) (t : tree) : Prop := is_Some d -> known t /\ addressed (view d).

Definition hash_post (b : bool) (t : tree) (d : option D) (r : outcome dberr (node * node) * option D) : Prop :=
  match r with
  | (Done (hn, n), d') =>
      refers b t hn /\ steps d d' /\ rep (view d') b t n /\ (is_Some d' -> stored (view d') b t)
  | (Error _, d') => failed d d'
  | _ => False
  end.

(** The database holds the node itself, and already holds what is below. *)
Definition below (v : bytes -> option bytes) (t : tree) : Prop :=
  match t with
  | TShort _ c => stored v false c
  | TFull ts => forall i c, ts !! i = Some c -> stored v false c
  | _ => True
  end.

Lemma stored_intro v b t : (hashed b t -> v (thash t) = Some (tenc t)) -> below v t -> stored v b t.
Proof. destruct t; simpl; by constructor. Qed.

Lemma below_mono v v' t : grows v v' -> below v t -> below v' t.
Proof. intros Hg. destruct t; simpl; eauto using stored_mono. Qed.

(** ** Storing a node *)

Definition node_flag (n : node) : option nodeFlag :=
  match n with shortNode _ _ f | fullNode _ f => Some f | _ => None end.

Lemma hashed_dec b t : {hashed b t} + {~ hashed b t}.
Proof.
  unfold hashed. destruct b; [left; by left|].
  destruct (decide (32 <= zlen (tenc t))); [left; by right|right; by intros [?|?]].
Qed.

Lemma store_ok m t b d n f : wf m t -> Z.of_nat m < 2 ^ 32 -> node_value n = tval t ->
  node_flag n = Some f -> (forall h, flag_hash f = Some h -> h = thash t) -> writable d t ->
  match store n b d with
  | (Done hn, d') => refers b t hn /\ steps d d' /\
      (is_Some d' -> hashed b t -> view d' (thash t) = Some (tenc t))
  | (Error _, d') => failed d d'
  | _ => False
  end.
Proof.
  intros Hwf Hm Hval Hf Hfh Hw. destruct (tval_ok m t Hwf Hm) as [Henc Hsz].
  assert (Hstore : store n b d =
    (if (zlen (tenc t) <? 32) && negb b then mret n
     else _ ← put (thash t) (tenc t); mret (hashNode (thash t))) d).
  { assert (He : Enc.EncodeToBytes (node_value n) = Done (tenc t)).
    { rewrite Hval. apply EncodeToBytes_spec; [done|]. fold (tenc t). unfold size_limit in Hsz. lia. }
    assert (Hc : (zlen (tenc t) <? 32) && negb b = false -> exists dd, cache n = Some (flag_hash f, dd) /\
              default (Keccak256 (tenc t)) (flag_hash f) = thash t).
    { intros _. destruct n; simpl in Hf; simplify_eq; eexists; (split; [done|]);
        destruct (flag_hash f) as [h|] eqn:Eh; [by rewrite (Hfh h eq_refl)|done|by rewrite (Hfh h eq_refl)|done]. }
    unfold store, mbind, SM_bind, unwrap.
    destruct n; simpl in Hf; try done; rewrite He; cbn [or_panic];
      (destruct (_ && _); [done|]); destruct Hc as (dd&Hc&Hd); try done; rewrite Hc; cbn [or_panic]; by rewrite Hd. }
  rewrite Hstore. destruct (hashed_dec b t) as [Hh|Hh].
  - replace (_ && _) with false.
    2:{ symmetry. apply andb_false_iff. destruct Hh as [->|?]; [by right|left; by apply Z.ltb_ge]. }
    pose proof (put_ok (tenc t) d) as Hput. fold (thash t) in Hput. unfold mbind, SM_bind.
    assert (Hu : is_Some d -> U (tenc t) /\ addressed (view d)).
    { intros [Hk Ha]%Hw. split; [|done]. by destruct Hwf; inversion Hk. }
    specialize (Hput Hu). destruct (put (thash t) (tenc t) d) as [[]d']; try done.
    cbn [mret SM_ret]. destruct Hput as [Hs Hv]. split_and!; [by left|done|by auto].
  - replace (_ && _) with true.
    2:{ destruct (not_hashed b t Hh) as [-> ?]. by rewrite (proj2 (Z.ltb_lt _ _)). }
    cbn. split_and!; [right|apply steps_refl|by intros]. split_and!; [done|done|]. by destruct n.
Qed.

(** ** Children *)

(** Immediate subtrees. *)
Inductive sub : tree -> tree -> Prop :=
| sub_short k c : sub c (TShort k c)
| sub_full ts i c : ts !! i = Some c -> sub c (TFull ts).

Section children.
Variables cachegen cachelimit : Z.
Abbreviation hash := (hash (D:=D) cachegen cachelimit).

(** Hashing of a subtree, whatever represents it. *)
Definition hashes (t : tree) : Prop := forall b n d, rep (view d) b t n -> writable d t ->
  hash_post b t d (hash n b d).

Definition loop_post (ts : list tree) (d : option D) (r : outcome dberr (list node * list node) * option D) : Prop :=
  match r with
  | (Done (cos, cas), d') =>
      map node_value cos = map tref ts /\ Forall2 (rep (view d') false) ts cas /\ steps d d' /\
      (is_Some d' -> Forall (stored (view d') false) ts)
  | (Error _, d') => failed d d'
  | _ => False
  end.

Lemma writable_steps d d' t : steps d d' -> writable d t -> writable d' t.
Proof. intros [Hs _ Ha] Hw Hd. apply Hs in Hd. destruct (Hw Hd) as [? ?]. split; [done|by apply Ha]. Qed.

Lemma slot_value c : c = TNil \/ (exists v, c = TValue v /\ value_ok v) -> forall v n, rep v false c n ->
  node_value (if is_nil n then valueNode [] else n) = tref c /\ stored v false c.
Proof.
  intros [->|(x&->&_)] v n Hr.
  - apply rep_nil_inv in Hr as ->. split; [done|constructor].
  - apply rep_value_inv in Hr as ->. split; [done|constructor].
Qed.

Definition hash_child (n : node) : SM (option D) dberr (node * node) :=
  if is_nil n then mret (valueNode [], n) else hash n false.

Lemma hash_child_ok c n d : c = TNil \/ (is_node c /\ hashes c) -> rep (view d) false c n -> writable d c ->
  match hash_child n d with
  | (Done (co, ca), d') => node_value co = tref c /\ rep (view d') false c ca /\ steps d d' /\
                           (is_Some d' -> stored (view d') false c)
  | (Error _, d') => failed d d'
  | _ => False
  end.
Proof.
  intros Hc Hn Hw. unfold hash_child. destruct (is_nil n) eqn:En.
  - assert (c = TNil) as -> by by eapply rep_is_nil. cbn. split_and!; [done|done|apply steps_refl|constructor].
  - destruct Hc as [->|[Hc Hh]]; [by apply rep_nil_inv in Hn as ->|].
    specialize (Hh false n d Hn Hw). unfold hash_post in Hh.
    destruct (hash n false d) as [[[hn n']| | |] d']; try done.
    destruct Hh as (Href&?&?&?). split_and!; [by apply refers_tref|done..].
Qed.

Lemma hash_loop_ok last : (last = TNil \/ exists v, last = TValue v /\ value_ok v) ->
  forall ts cs d, Forall (fun c => c = TNil \/ (is_node c /\ hashes c)) ts ->
  Forall2 (rep (view d) false) (ts ++ [last]) cs -> (is_Some d -> Forall known (ts ++ [last]) /\ addressed (view d)) ->
  loop_post (ts ++ [last]) d (hash_loop hash (length ts) cs d).
Proof.
  intros Hlast. induction ts as [|c ts IH]; intros cs d Hts Hcs Hw; cbn [app length] in *.
  - apply Forall2_cons_inv_l in Hcs as (n&cs'&Hn&Hnil&->). apply Forall2_nil_inv_l in Hnil as ->.
    destruct (slot_value last Hlast _ _ Hn) as [Hv Hs]. cbn. split_and!; [by rewrite Hv|by constructor|apply steps_refl|].
    intros _. by constructor.
  - apply Forall2_cons_inv_l in Hcs as (n&cs'&Hn&Hcs&->). apply Forall_cons in Hts as [Hc Hts].
    pose proof (hash_child_ok c n d Hc Hn) as Hhead.
    change (hash_loop hash (S (length ts)) (n :: cs') d) with
      (('(co, ca) ← hash_child n; '(cos, cas) ← hash_loop hash (length ts) cs';
        mret (co :: cos, ca :: cas)) d).
    unfold mbind, SM_bind at 1.
    destruct (hash_child n d) as [[[co ca]| | |] d'].
    2,3,4: apply Hhead; intros [Hk Ha]%Hw; split; [by apply Forall_cons in Hk as [? _]|done].
    destruct Hhead as (Hv&Hr&Hs&Hst); [intros [Hk Ha]%Hw; split; [by apply Forall_cons in Hk as [? _]|done]|].
    pose proof Hs as [Hsome Hg Ha].
    specialize (IH cs' d' Hts). unfold loop_post in IH |- *.
    assert (H1 : Forall2 (rep (view d') false) (ts ++ [last]) cs').
    { eapply Forall2_impl; [apply Hcs|]. intros ? ? ?. by eapply rep_mono. }
    assert (H2 : is_Some d' -> Forall known (ts ++ [last]) /\ addressed (view d')).
    { intros Hd. apply Hsome in Hd. destruct (Hw Hd) as [Hk Had]. split; [by apply Forall_cons in Hk as [_ ?]|by apply Ha]. }
    specialize (IH H1 H2). unfold SM_bind. destruct (hash_loop hash (length ts) cs' d') as [[[cos cas]| | |] d2]; try done.
    + destruct IH as (Hvs&Hrs&Hs2&Hsts). pose proof Hs2 as [Hsome2 Hg2 _]. cbn. split_and!.
      * by rewrite Hv, Hvs.
      * constructor; [by eapply rep_mono|done].
      * by eapply steps_trans.
      * intros Hd. constructor; [|by auto]. eapply stored_mono; [apply Hg2|]. apply Hst. by apply Hsome2.
    + by eapply failed_trans.
Qed.

(** The collapsed node has the fields of the tree, the cached one represents it
    under any flags that are right. *)
Definition children_post (b : bool) (t : tree) (f : nodeFlag) (d : option D)
    (r : outcome dberr (node * node) * option D) : Prop :=
  match r with
  | (Done (co, ca), d') =>
      node_value co = tval t /\ node_flag co = Some f /\ steps d d' /\
      (is_Some d' -> below (view d') t) /\
      forall hn st v, grows (view d') v -> flag_ok v b t (set_flags hn st f) ->
        rep v b t (cache_result hn st ca)
  | (Error _, d') => failed d d'
  | _ => False
  end.

Lemma hashChildren_leaf m b d k v n f : wf m (TShort k (TValue v)) ->
  rep (view d) b (TShort k (TValue v)) (shortNode k n f) ->
  children_post b (TShort k (TValue v)) f d (hashChildren hash (shortNode k n f) d).
Proof.
  intros Hwf Hrep. inversion Hrep as [| |? ? ? ? ? _ Hn| |]; subst. apply rep_value_inv in Hn as ->.
  inversion Hwf as [? ? ? Hk _ _| |]; subst. destruct (compact_ok k ltac:(by right)) as (Hc&_).
  unfold hashChildren, mbind, SM_bind, unwrap. rewrite Hc. cbn. rewrite Common.CopyBytes_id.
  split_and!; [done|done|apply steps_refl|intros _; constructor|]. intros hn st w _ Hfl.
  constructor; [done|constructor].
Qed.

Lemma hashChildren_ext m b d k ts n f : wf m (TShort k (TFull ts)) ->
  rep (view d) b (TShort k (TFull ts)) (shortNode k n f) -> writable d (TShort k (TFull ts)) ->
  hashes (TFull ts) ->
  children_post b (TShort k (TFull ts)) f d (hashChildren hash (shortNode k n f) d).
Proof.
  intros Hwf Hrep Hw Hh. inversion Hrep as [| |? ? ? ? ? _ Hn| |]; subst.
  inversion Hwf as [|? ? ? ? _ Hk _ _|]; subst. destruct (compact_ok k ltac:(by left)) as (Hc&_).
  assert (Hwc : writable d (TFull ts)) by (intros [Hk' ?]%Hw; split; [by inversion Hk'|done]).
  specialize (Hh false n d Hn Hwc).
  assert (Heq : hashChildren hash (shortNode k n f) d =
    ('(co, ca) ← hash n false;
     mret (shortNode (compact k) (if is_nil co then valueNode [] else co) f, shortNode k ca f)) d).
  { unfold hashChildren, mbind, SM_bind, unwrap. rewrite Hc, Common.CopyBytes_id. cbn [or_panic].
    destruct n; try done. inversion Hn. }
  rewrite Heq. unfold mbind, SM_bind. unfold hash_post in Hh. destruct (hash n false d) as [[[co ca]| | |] d']; try done.
  destruct Hh as (Href&Hs&Hr&Hst). destruct (refers_tref (TFull ts) co) as [Hv Hnil]; [done..|].
  cbn. rewrite Hnil, Hv.
  split_and!; [done|done|done|done|]. intros hn st w Hg Hfl. constructor; [done|]. by eapply rep_mono.
Qed.

Lemma hashChildren_full m b d ts cs f : wf (S m) (TFull ts) ->
  rep (view d) b (TFull ts) (fullNode cs f) -> writable d (TFull ts) ->
  (forall i c, ts !! i = Some c -> (i < 16)%nat -> wf m c -> hashes c) ->
  children_post b (TFull ts) f d (hashChildren hash (fullNode cs f) d).
Proof.
  intros Hwf Hrep Hw Hh. inversion Hrep as [| | |? ? ? ? _ Hl Hn|]; subst.
  destruct (wf_full_length _ _ Hwf) as [Hlen _]. pose proof (fun i c => wf_children m ts i c Hwf) as Hch.
  destruct (snoc_17 ts Hlen) as (l&last&Hts&Hl16).
  assert (Hlast : ts !! 16%nat = Some last) by (rewrite Hts, <- Hl16; by apply list_lookup_middle).
  assert (Hloop : loop_post ts d (hash_loop hash 16 cs d)).
  { rewrite Hts in *. rewrite <- Hl16. apply hash_loop_ok.
    - destruct (Hch _ _ Hlast) as [->|[[? _]|[_ ?]]]; [by left|lia|by right].
    - apply Forall_lookup. intros i c Hi. pose proof (lookup_lt_Some _ _ _ Hi) as Hlt. rewrite Hl16 in Hlt.
      pose proof (lookup_app_l_Some l [last] i c Hi) as Hi'.
      destruct (Hch i c Hi') as [->|[[_ ?]|[? _]]]; [by left| |lia].
      right. split; [by eapply wf_is_node|by eapply Hh].
    - apply Forall2_same_length_lookup_2; [by rewrite Hl|]. intros i c n Hc Hn'. by eapply Hn.
    - intros [Hk Ha]%Hw. split; [|done]. apply Forall_lookup. inversion Hk; subst. eauto. }
  unfold hashChildren, mbind, SM_bind. destruct (hash_loop hash 16 cs d) as [[[cos cas]| | |] d']; try done.
  destruct Hloop as (Hv&Hr&Hs&Hst). cbn. rewrite Hv.
  split_and!; [done|done|done| |].
  - intros Hd i c Hc. by eapply (Forall_lookup_1 _ _ _ _ (Hst Hd)).
  - intros hn st w Hg Hfl. constructor; [done|by symmetry; eapply Forall2_length|].
    intros i c n Hc Hn'. eapply rep_mono; [apply Hg|]. by eapply Forall2_lookup_lr.
Qed.

(** ** Hashing a node in memory *)

Lemma cached_hash_ok m b t n f d r : wf m t -> rep (view d) b t n -> node_flag n = Some f ->
  flag_ok (view d) b t f ->
  cached_hash cachegen cachelimit n (flag_hash f) (dirty f) (bool_decide (is_Some d)) = Some r ->
  hash_post b t d (Done r, d).
Proof.
  intros Hwf Hrep Hf [Hfh Hfd]. unfold cached_hash. destruct (flag_hash f) as [h|]; [|done]. simpl.
  destruct (Hfh h eq_refl) as [-> Hh].
  assert (Hpost : (is_Some d -> stored (view d) b t) -> hash_post b t d (Done (hashNode (thash t), n), d)).
  { intros. split_and!; [by left|apply steps_refl|done|done]. }
  case_bool_decide as Hd; simpl.
  - destruct (canUnload n cachegen cachelimit) eqn:Eu; [|destruct (dirty f) eqn:Ed]; intros [= <-].
    + assert (Hst : stored (view d) b t).
      { apply Hfd. destruct n; simpl in Hf, Eu; try done; simplify_eq; unfold flag_canUnload in Eu;
          by destruct (dirty f). }
      split_and!; [by left|apply steps_refl| |done]. constructor; [by eapply wf_is_node|done|done].
    + apply Hpost. auto.
  - intros [= <-]. apply Hpost. done.
Qed.

Lemma hash_loaded m b t n f d : wf m t -> Z.of_nat m < 2 ^ 32 -> rep (view d) b t n ->
  node_flag n = Some f -> flag_ok (view d) b t f -> writable d t ->
  children_post b t f d (hashChildren hash n d) -> hash_post b t d (hash n b d).
Proof.
  intros Hwf Hm Hrep Hf Hfl Hw Hch.
  assert (Heq : hash n b d =
    match cached_hash cachegen cachelimit n (flag_hash f) (dirty f) (bool_decide (is_Some d)) with
    | Some r => (Done r, d)
    | None => ('(co, ca) ← hashChildren hash n; hn ← store co b;
               mret (hn, cache_result hn (bool_decide (is_Some d)) ca)) d
    end).
  { destruct n; simpl in Hf; try done; simplify_eq; cbn [hash]; unfold mbind, SM_bind, unwrap, gets;
      cbn [cache or_panic]; by destruct (cached_hash _ _ _ _ _ _). }
  rewrite Heq. destruct (cached_hash _ _ _ _ _ _) eqn:Ec; [by eapply cached_hash_ok|].
  unfold mbind, SM_bind. unfold children_post in Hch. destruct (hashChildren hash n d) as [[[co ca]| | |] d1]; try done.
  destruct Hch as (Hv&Hcf&Hs&Hbelow&Hca). pose proof Hs as [Hsome Hg Ha].
  pose proof (store_ok m t b d1 co f Hwf Hm Hv Hcf (fun h Hh => proj1 (proj1 Hfl h Hh))
                (writable_steps _ _ _ Hs Hw)) as Hst.
  destruct (store co b d1) as [[hn| | |] d2]; try done; [|by eapply failed_trans].
  destruct Hst as (Href&Hs2&Hput). pose proof Hs2 as [Hsome2 Hg2 _].
  assert (Hstored : is_Some d2 -> stored (view d2) b t).
  { intros Hd. apply stored_intro; [by auto|]. eapply below_mono; [apply Hg2|]. apply Hbelow. by apply Hsome2. }
  cbn. split_and!; [done|by eapply steps_trans| |done]. apply Hca; [done|].
  split; simpl.
  - intros h Hh. destruct Href as [[? ->]|(_&_&Hl)]; [by simplify_eq|by destruct hn].
  - case_bool_decide as Hd.
    + intros _. apply Hstored. by apply Hsome2, Hsome.
    + intros Hdirty. eapply stored_mono; [apply Hg2|]. eapply stored_mono; [apply Hg|]. by apply Hfl.
Qed.

Lemma hash_unloaded b t h d : rep (view d) b t (hashNode h) -> hash_post b t d (hash (hashNode h) b d).
Proof.
  intros Hrep. inversion Hrep as [| | | |? ? Ht Hh Hst]; subst. cbn.
  split_and!; [by left|apply steps_refl|done|done].
Qed.

(** A represented node is unloaded, or in memory with flags that are right. *)
Lemma rep_cases b t d n : is_node t -> rep (view d) b t n ->
  (exists h, n = hashNode h) \/ exists f, loaded n /\ node_flag n = Some f /\ flag_ok (view d) b t f.
Proof. intros Ht Hrep. destruct Hrep; try done; [right; eauto..|left; eauto]. Qed.

Lemma hashChildren_ok m t : wf m t -> forall b n f d,
  (forall m' c, wf m' c -> (m' <= m)%nat -> sub c t -> hashes c) ->
  rep (view d) b t n -> loaded n -> node_flag n = Some f -> writable d t ->
  children_post b t f d (hashChildren hash n d).
Proof.
  intros Hwf b n f d Hsub Hrep Hl Hf Hw. destruct Hwf as [m k v Hk Hle Hv|m m' k ts Hk Hn -> Hfull|m ts Hlen Hwf Hlast Htwo];
    inversion Hrep; subst; try done; simpl in Hf; simplify_eq.
  - eapply (hashChildren_leaf m); [by constructor|done].
  - eapply (hashChildren_ext (length k + m')); [by apply (wf_ext _ m')|done|done|].
    apply (Hsub m'); [done|lia|constructor].
  - eapply (hashChildren_full m); [by constructor|done|done|]. intros i c Hi _ Hc.
    apply (Hsub m); [done|lia|]. by econstructor.
Qed.

Lemma hash_ok m t : wf m t -> Z.of_nat m < 2 ^ 32 -> hashes t.
Proof.
  intros Hwf. revert m Hwf. induction t as [|v|k t IH|ts IH] using tree_ind'; intros m Hwf Hm b n d Hrep Hw;
    [inversion Hwf..| |];
    (destruct (rep_cases _ _ _ _ (wf_is_node _ _ Hwf) Hrep) as [[h ->]|(f&Hl&Hf&Hfl)]; [by apply hash_unloaded|]);
    (eapply hash_loaded; try done; eapply hashChildren_ok; try done); intros m' c Hc Hle Hs; inversion Hs; subst.
  - eapply IH; [done|lia].
  - rewrite Forall_lookup in IH. eapply IH; [done|done|lia].
Qed.
End children.
End hashing.

(** Without hash collisions the encoding of a tree determines the tree. *)

Section injectivity.
Context {CR : Crypto} {CK : CryptoOk}.

(** ** RLP items *)

Lemma string_inj b b' : is_bytes b -> is_bytes b' -> zlen b < 2 ^ 60 -> zlen b' < 2 ^ 60 ->
  Spec.string b = Spec.string b' -> b = b'.
Proof.
  intros Hb Hb' Hl Hl' He.
  pose proof (SplitString_string b [] Hb ltac:(constructor) ltac:(rewrite zlen_nil; lia)) as H1.
  pose proof (SplitString_string b' [] Hb' ltac:(constructor) ltac:(rewrite zlen_nil; lia)) as H2.
  rewrite He in H1. congruence.
Qed.

(** A list is no string. *)
Lemma lst_string c b : is_bytes c -> is_bytes b -> zlen c < 2 ^ 60 -> zlen b < 2 ^ 60 ->
  Spec.lst c <> Spec.string b.
Proof.
  intros Hc Hb Hl Hl' He.
  pose proof (Split_lst c [] Hc ltac:(constructor) ltac:(rewrite zlen_nil; lia)) as H1.
  destruct (Split_string b [] Hb ltac:(constructor) ltac:(rewrite zlen_nil; lia)) as (k&Hk&_&H2).
  rewrite He in H1. congruence.
Qed.

Lemma concat_inj l : Forall plain l -> forall l', Forall plain l' ->
  zlen (concat (map Spec.enc l)) < 2 ^ 60 ->
  concat (map Spec.enc l) = concat (map Spec.enc l') -> map Spec.enc l = map Spec.enc l'.
Proof.
  assert (Hbytes : forall l, Forall plain l -> zlen (concat (map Spec.enc l)) < 2 ^ 60 ->
    is_bytes (concat (map Spec.enc l))).
  { intros k Hk Hz. apply is_bytes_concat; [|lia]. eapply Forall_impl; [apply Hk|].
    intros ? ?%plain_encodable. by apply is_bytes_enc. }
  assert (Hne : forall v r, plain v -> zlen (Spec.enc v ++ r) < 2 ^ 60 -> Spec.enc v ++ r <> []).
  { intros v r Hv Hz He. rewrite zlen_app in Hz. pose proof (zlen_nonneg r).
    pose proof (enc_plain_nonempty v Hv ltac:(lia)). apply app_nil in He as [He _]. by rewrite He, zlen_nil in *. }
  induction 1 as [|v l Hv Hl IH]; intros l' Hl' Hz He; (destruct Hl' as [|v' l' Hv' Hl']); cbn [map concat] in *.
  - done.
  - by destruct (Hne v' (concat (map Spec.enc l')) Hv'); [rewrite <- He|].
  - by destruct (Hne v (concat (map Spec.enc l)) Hv).
  - pose proof Hz as Hz'. rewrite He in Hz'. rewrite zlen_app in Hz, Hz'.
    pose proof (zlen_nonneg (Spec.enc v)). pose proof (zlen_nonneg (Spec.enc v')).
    pose proof (zlen_nonneg (concat (map Spec.enc l))). pose proof (zlen_nonneg (concat (map Spec.enc l'))).
    destruct (Split_plain v (concat (map Spec.enc l)) Hv (Hbytes l Hl ltac:(lia)) ltac:(lia)) as (k&c&Hs1).
    destruct (Split_plain v' (concat (map Spec.enc l')) Hv' (Hbytes l' Hl' ltac:(lia)) ltac:(lia)) as (k'&c'&Hs2).
    rewrite He in Hs1. rewrite Hs2 in Hs1. injection Hs1 as _ _ Hr. rewrite Hr in He.
    apply app_inv_tail in He. rewrite He. f_equal. apply IH; [done|lia|done].
Qed.

(** ** Trees *)
Variable U : bytes -> Prop.
Hypothesis U_inj : forall x y, U x -> U y -> Keccak256 x = Keccak256 y -> x = y.

Lemma known_U t : is_node t -> known U t -> U (tenc t).
Proof. intros Ht Hk. destruct Hk; solve [by destruct Ht | done]. Qed.

(** The encoding of a subtree within its parent. *)
Lemma ref_cases m c : wf m c -> Z.of_nat m < 2 ^ 32 ->
  (exists l, zlen (tenc c) < 32 /\ Spec.enc (tref c) = tenc c /\ tenc c = Spec.lst l /\ is_bytes l /\ zlen l < 2 ^ 60)
  \/ Spec.enc (tref c) = Spec.string (thash c).
Proof.
  intros Hwf Hm. rewrite tref_node by by eapply wf_is_node. unfold ref_of. fold (tenc c).
  case_match; bool_to_prop; [left|by right].
  destruct (tenc_content m c Hwf Hm) as (l&_&_&He&Hb&Hs). eexists. split_and!; [done|done|done|done|].
  unfold size_limit in Hs. lia.
Qed.

Lemma ref_inj m m' c c' : wf m c -> wf m' c' -> Z.of_nat m < 2 ^ 32 -> Z.of_nat m' < 2 ^ 32 ->
  known U c -> known U c' -> Spec.enc (tref c) = Spec.enc (tref c') -> tenc c = tenc c'.
Proof.
  intros Hwf Hwf' Hm Hm' Hk Hk' He.
  destruct (zlen_hash (tenc c)) as [Hz Hb], (zlen_hash (tenc c')) as [Hz' Hb'].
  fold (thash c) in Hz, Hb. fold (thash c') in Hz', Hb'.
  destruct (ref_cases m c Hwf Hm) as [(l&_&H1&Hl&Hlb&Hlz)|H1],
    (ref_cases m' c' Hwf' Hm') as [(l'&_&H2&Hl'&Hlb'&Hlz')|H2]; rewrite H1, H2 in He.
  - done.
  - rewrite Hl in He. by apply lst_string in He; [|done..|lia].
  - rewrite Hl' in He. symmetry in He. by apply lst_string in He; [|done..|lia].
  - apply string_inj in He; [|done|done|lia|lia].
    apply U_inj; [| |done]; by apply known_U; [eapply wf_is_node|].
Qed.

Lemma ref_not_nil m c : wf m c -> Z.of_nat m < 2 ^ 32 -> Spec.enc (tref c) <> Spec.enc (tref TNil).
Proof.
  intros Hwf Hm He. change (Spec.enc (tref TNil)) with (Spec.string []) in He.
  destruct (zlen_hash (tenc c)) as [Hz Hb]. fold (thash c) in Hz, Hb.
  destruct (ref_cases m c Hwf Hm) as [(l&_&H1&Hl&Hlb&Hlz)|H1]; rewrite H1 in He.
  - rewrite Hl in He. apply lst_string in He; [done|done|constructor|done|by rewrite zlen_nil].
  - apply string_inj in He; [|done|constructor|lia|by rewrite zlen_nil]. by rewrite He in Hz.
Qed.

Lemma child_inj m m' i c c' : child_ok m i c -> child_ok m' i c' -> Z.of_nat m < 2 ^ 32 ->
  Z.of_nat m' < 2 ^ 32 -> known U c -> known U c' ->
  (wf m c -> wf m' c' -> tenc c = tenc c' -> c = c') ->
  Spec.enc (tref c) = Spec.enc (tref c') -> c = c'.
Proof.
  intros Hc Hc' Hm Hm' Hk Hk' IH He.
  destruct Hc as [->|[[Hi Hc]|[Hi (v&->&Hv&Hvb&Hvl)]]], Hc' as [->|[[Hi' Hc']|[Hi' (v'&->&Hv'&Hvb'&Hvl')]]];
    try lia; try done.
  - symmetry in He. by apply (ref_not_nil m') in He.
  - apply (string_inj [] v') in He; [by destruct Hv'|constructor|done|by rewrite zlen_nil|lia].
  - by apply (ref_not_nil m) in He.
  - apply IH; [done|done|]. by eapply (ref_inj m m').
  - apply (string_inj v []) in He; [by destruct Hv|done|constructor|lia|by rewrite zlen_nil].
  - f_equal. by apply (string_inj v v') in He; [|done|done|lia|lia].
Qed.

(** Equal encodings have equal parts. *)
Lemma tenc_parts m m' t t' : wf m t -> wf m' t' -> Z.of_nat m < 2 ^ 32 -> Z.of_nat m' < 2 ^ 32 ->
  tenc t = tenc t' -> exists l l', tval t = Enc.VList l /\ tval t' = Enc.VList l' /\
    map Spec.enc l = map Spec.enc l'.
Proof.
  intros Hwf Hwf' Hm Hm' He.
  destruct (tenc_content m t Hwf Hm) as (l&Hl&Hp&Hc&Hb&Hs), (tenc_content m' t' Hwf' Hm') as (l'&Hl'&Hp'&Hc'&Hb'&Hs').
  unfold size_limit in *. exists l, l'. split_and!; [done|done|]. apply concat_inj; [done|done|lia|].
  pose proof (SplitList_lst _ [] Hb ltac:(constructor) ltac:(rewrite zlen_nil; lia)) as H1.
  pose proof (SplitList_lst _ [] Hb' ltac:(constructor) ltac:(rewrite zlen_nil; lia)) as H2.
  rewrite <- Hc, He, Hc' in H1. congruence.
Qed.

Lemma compact_inj k k' : nibbles k \/ hexkey k -> nibbles k' \/ hexkey k' -> zlen k < 2 ^ 59 -> zlen k' < 2 ^ 59 ->
  Spec.string (compact k) = Spec.string (compact k') -> k = k'.
Proof.
  intros Hk Hk' Hz Hz' He. destruct (compact_ok k Hk) as (_&Hb&Hl&Hc), (compact_ok k' Hk') as (_&Hb'&Hl'&Hc').
  apply string_inj in He; [|done|done|lia|lia]. congruence.
Qed.

Lemma tenc_inj m t : wf m t -> Z.of_nat m < 2 ^ 32 -> forall m' t', wf m' t' -> Z.of_nat m' < 2 ^ 32 ->
  known U t -> known U t' -> tenc t = tenc t' -> t = t'.
Proof.
  induction 1 as [n k v Hk Hl Hv|n m k ts Hk0 Hk -> Hf IH|n ts Hlen Hwf IH Hlast Htwo];
    intros Hm m' t' Hwf' Hm' Hkn Hkn' He.
  - destruct (tenc_parts n m' (TShort k (TValue v)) t') as (l&l'&H1&H2&Hmap); [by constructor|done..|].
    rewrite tval_short in H1. destruct Hwf' as [n' k' v' Hk' Hl' Hv'|n' m' k' ts' Hk0' Hk' -> Hf'|n' ts' Hlen'].
    + rewrite tval_short in H2. injection H1 as <-. injection H2 as <-. cbn [map] in Hmap. injection Hmap as Hmk Hmv.
      apply (compact_inj k k') in Hmk; [|by right|by right|unfold zlen; lia|unfold zlen; lia].
      destruct Hv as (_&?&?), Hv' as (_&?&?). apply (string_inj v v') in Hmv; [by subst|done|done|lia|lia].
    + rewrite tval_short in H2. injection H1 as <-. injection H2 as <-. cbn [map] in Hmap. injection Hmap as Hmk _.
      apply (compact_inj k k') in Hmk; [|by right|by left|unfold zlen; lia|unfold zlen; lia].
      subst k'. by destruct (nibbles_no_term k).
    + rewrite tval_full in H2. simplify_eq. apply (f_equal length) in Hmap. by rewrite !length_map, Hlen' in Hmap.
  - destruct (tenc_parts (length k + m) m' (TShort k (TFull ts)) t') as (l&l'&H1&H2&Hmap);
      [by apply (wf_ext _ m)|done..|].
    rewrite tval_short in H1. destruct Hwf' as [n' k' v' Hk' Hl' Hv'|n' m' k' ts' Hk0' Hk' -> Hf'|n' ts' Hlen'].
    + rewrite tval_short in H2. injection H1 as <-. injection H2 as <-. cbn [map] in Hmap. injection Hmap as Hmk _.
      apply (compact_inj k k') in Hmk; [|by left|by right|unfold zlen; lia|unfold zlen; lia].
      subst k'. by destruct (nibbles_no_term k).
    + rewrite tval_short in H2. injection H1 as <-. injection H2 as <-. cbn [map] in Hmap. injection Hmap as Hmk Hmv.
      apply (compact_inj k k') in Hmk; [|by left|by left|unfold zlen; lia|unfold zlen; lia].
      subst k'. f_equal. inversion Hkn; inversion Hkn'; subst.
      eapply IH; [lia|done|lia|done|done|]. eapply (ref_inj m m'); try done; lia.
    + rewrite tval_full in H2. simplify_eq. apply (f_equal length) in Hmap. by rewrite !length_map, Hlen' in Hmap.
  - destruct (tenc_parts (S n) m' (TFull ts) t') as (l&l'&H1&H2&Hmap); [by constructor|done..|].
    rewrite tval_full in H1. destruct Hwf' as [n' k' v' Hk' Hl' Hv'|n' m' k' ts' Hk0' Hk' -> Hf'|n' ts' Hlen' Hw' Hla' Htwo'].
    + rewrite tval_short in H2. simplify_eq. apply (f_equal length) in Hmap. by rewrite !length_map, Hlen in Hmap.
    + rewrite tval_short in H2. simplify_eq. apply (f_equal length) in Hmap. by rewrite !length_map, Hlen in Hmap.
    + rewrite tval_full in H2. simplify_eq. f_equal. inversion Hkn as [| | |? _ Hkc]; inversion Hkn' as [| | |? _ Hkc']; subst.
      apply list_eq_same_length with 17%nat; [done|done|]. intros i c d Hi Hc Hd.
      eapply (child_inj n n' i); [| |lia|lia|by eauto|by eauto| |].
      * eapply wf_children; [|done]. by constructor.
      * eapply wf_children; [|done]. by constructor.
      * intros Hwc Hwd Heq. destruct (decide (i < 16)%nat).
        -- eapply IH; eauto; [by eapply wf_not_nil|lia|lia].
        -- assert (i = 16%nat) as -> by lia. destruct (Hlast c Hc) as [->|(?&->&_)]; inversion Hwc.
      * apply (f_equal (fun l => l !! i)) in Hmap. rewrite !list_lookup_fmap, Hc, Hd in Hmap. by simplify_eq/=.
Qed.
End injectivity.
