(* ===== verification/TrieMap.v ===== *)
(** The trie is a finite map.

    [trie_ok limit get T m]: trie [T], over a node store read by [get], holds the
    map [m] from keys of at most [limit] nibbles to non-empty values. *)
From S2P Require Import Prelude GoBig CommonTypes Rlp VmTypes TrieEncoding TrieTree TrieEdit.
From S2P Require Import TrieNode TrieRep Trie TrieOk TrieHash.

Definition contents (t : tree) (m : gmap bytes bytes) : Prop :=
  forall k v, tget t k = Some v <-> exists key, k = keybytesToHex key /\ m !! key = Some v.

(** What [Update] makes of a map: an empty value deletes the key. *)
Definition map_update (key value : bytes) (m : gmap bytes bytes) : gmap bytes bytes :=
  if zlen value =? 0 then delete key m else <[key := value]> m.

(** Recursion bound for an operation on [key]. *)
Definition key_fuel (key : bytes) : nat := (4 * length key + 3)%nat.

Lemma contents_lookup t m key : contents t m -> tget t (keybytesToHex key) = m !! key.
Proof.
  intros Hc. destruct (m !! key) as [v|] eqn:E.
  - apply Hc. by exists key.
  - destruct (tget t (keybytesToHex key)) as [v|] eqn:Eg; [|done].
    apply Hc in Eg as (key'&?%keybytesToHex_inj&?). by simplify_eq.
Qed.

Lemma contents_put t t' m key (v : option bytes) : contents t m ->
  (forall k, tget t' k = tput (tget t) (keybytesToHex key) v k) ->
  contents t' (match v with Some v => <[key := v]> m | None => delete key m end).
Proof.
  intros Hc Hput k w. rewrite Hput. unfold tput. case_bool_decide as Hk.
  - subst k. destruct v as [v|]; split.
    + intros [= ->]. exists key. by rewrite lookup_insert_eq.
    + intros (key'&->%keybytesToHex_inj&Hl). by rewrite lookup_insert_eq in Hl.
    + done.
    + intros (key'&->%keybytesToHex_inj&Hl). by rewrite lookup_delete_eq in Hl.
  - rewrite (Hc k w). split; intros (key'&->&Hl); exists key'; (split; [done|]);
      (assert (key <> key') by (intros ->; done)); destruct v.
    + by rewrite lookup_insert_ne.
    + by rewrite lookup_delete_ne.
    + by rewrite lookup_insert_ne in Hl.
    + by rewrite lookup_delete_ne in Hl.
Qed.

(** Equal contents, equal trees. *)
Lemma contents_unique n n' t t' m : wf0 n t -> wf0 n' t' -> contents t m -> contents t' m -> t = t'.
Proof.
  intros Hwf Hwf' Hc Hc'. assert (Heq : forall k, tget t k = tget t' k).
  { intros k. destruct (tget t k) as [v|] eqn:E.
    - symmetry. by apply Hc', Hc.
    - destruct (tget t' k) as [v|] eqn:E'; [|done]. apply Hc', Hc in E'. congruence. }
  destruct Hwf as [->|Hwf], Hwf' as [->|Hwf']; [done| | |by eapply tree_canonical].
  - destruct (tget_nil_ext _ _ Hwf'). intros k. by rewrite <- Heq.
  - destruct (tget_nil_ext _ _ Hwf). intros k. by rewrite Heq.
Qed.

Lemma length_hex key : length (keybytesToHex key) = (2 * length key + 1)%nat.
Proof. unfold keybytesToHex. rewrite length_app, length_unpack. simpl. lia. Qed.

Section operations.
Context {CR : Crypto} {CK : CryptoOk} {D : Type} {DB : Database D} {DK : DatabaseOk D}.
Variable limit : nat.
Hypothesis Hlimit : Z.of_nat limit < 2 ^ 32.

Definition trie_ok (get : bytes -> option bytes) (T : Trie.t) (m : gmap bytes bytes) : Prop :=
  exists t, wf0 limit t /\ rep get true t (Trie.root T) /\ contents t m.

Definition key_ok (key : bytes) : Prop := is_bytes key /\ (2 * length key + 1 <= limit)%nat.

Lemma enough_key fuel n key : (key_fuel key <= fuel)%nat -> enough fuel n (keybytesToHex key).
Proof. unfold key_fuel. intros. left. rewrite length_hex. lia. Qed.

Lemma trie_ok_mono get get' T m : (forall h e, get h = Some e -> get' h = Some e) ->
  trie_ok get T m -> trie_ok get' T m.
Proof. intros Hg (t&?&?&?). exists t. split_and!; [done|by eapply rep_mono|done]. Qed.

Section with_db.
Variable db : D.
Abbreviation get := (fun h => Db_Get h db).

Lemma TryGet_ok fuel T m key : trie_ok get T m -> is_bytes key -> (key_fuel key <= fuel)%nat ->
  exists T', Trie.TryGet db fuel T key = Done (default [] (m !! key), T') /\ trie_ok get T' m.
Proof.
  intros (t&Hwf&Hrep&Hc) Hb Hf. unfold Trie.TryGet.
  destruct (tryGet_ok db T fuel limit t true (Trie.root T) [] (keybytesToHex key)) as (n&r&Hg&Hr);
    [left; split; [done|by apply hexkey_keybytesToHex]|done|done|by apply enough_key|].
  change (zlen []) with 0 in Hg. cbn [app] in Hg. rewrite Hg. simpl_decode.
  rewrite (contents_lookup t m key Hc). eexists. split; [done|].
  exists t. split_and!; [done| |done]. by destruct r.
Qed.

Lemma TryDelete_ok fuel T m key : trie_ok get T m -> is_bytes key -> (key_fuel key <= fuel)%nat ->
  exists T', Trie.TryDelete db fuel T key = Done T' /\ trie_ok get T' (delete key m).
Proof.
  intros (t&Hwf&Hrep&Hc) Hb Hf. unfold Trie.TryDelete.
  destruct (delete_ok db T fuel limit t true (Trie.root T) [] (keybytesToHex key))
    as (d&n&t'&Hd&Hr&Hwf'&_&Hput&_);
    [left; split; [done|by apply hexkey_keybytesToHex]|done|done|by apply enough_key|].
  rewrite Hd. simpl_decode. eexists. split; [done|]. exists t'. split_and!; [done|done|].
  by apply (contents_put t t' m key None).
Qed.

Lemma TryUpdate_ok fuel T m key value : trie_ok get T m -> key_ok key -> is_bytes value ->
  zlen value < 2 ^ 32 -> (key_fuel key <= fuel)%nat ->
  exists T', Trie.TryUpdate db fuel T key value = Done T' /\ trie_ok get T' (map_update key value m).
Proof.
  intros Hok [Hb Hl] Hv Hvl Hf. unfold Trie.TryUpdate, map_update.
  destruct (zlen value =? 0) eqn:E; simpl negb; cbv iota; [by apply TryDelete_ok|].
  destruct Hok as (t&Hwf&Hrep&Hc).
  destruct (insert_ok db T fuel limit t true (Trie.root T) [] (keybytesToHex key) value)
    as (d&n&t'&Hi&Hr&Hfill&Hput&_).
  - left. split; [done|by apply hexkey_keybytesToHex].
  - by rewrite length_hex.
  - done.
  - split_and!; [|done|done]. intros ->. by rewrite zlen_nil in E.
  - done.
  - by apply enough_key.
  - rewrite Hi. simpl_decode. eexists. split; [done|]. exists t'. split_and!.
    + destruct Hfill as [[? _]|[_ Hnil]]; [by right|].
      by destruct (hexkey_nil); rewrite <- Hnil; apply hexkey_keybytesToHex.
    + done.
    + by apply (contents_put t t' m key (Some value)).
Qed.
End with_db.

(** ** Root hashes *)

(** [root_of h m]: [h] is the root hash of the map [m]. *)
Definition root_of (h : Hash) (m : gmap bytes bytes) : Prop :=
  exists t n, wf0 n t /\ contents t m /\ h = troot t emptyRoot.

Lemma root_of_unique h h' m : root_of h m -> root_of h' m -> h = h'.
Proof. intros (t&n&Hwf&Hc&->) (t'&n'&Hwf'&Hc'&->). by rewrite (contents_unique n n' t t' m). Qed.

Lemma BytesToHash_hash b : Common.BytesToHash (Keccak256 b) = Keccak256 b.
Proof.
  destruct (zlen_hash b) as [Hl Hb]. rewrite Common.BytesToHash_spec by done.
  rewrite <- (Big.be_fixed_SetBytes (Keccak256 b)) at 2 by done. f_equal. unfold zlen in Hl. lia.
Qed.

Lemma hashed_root t hn : is_node t -> refers true t hn -> Trie.as_hash hn = Some (thash t).
Proof. intros Ht [[_ ->]|[Hh _]]; [done|]. by destruct Hh; left. Qed.

Lemma hashRoot_node get t T : rep get true t (Trie.root T) -> t <> TNil ->
  Trie.hashRoot (D:=D) T = hash (Trie.cachegen T) (Trie.cachelimit T) (Trie.root T) true.
Proof.
  intros Hrep Ht. unfold Trie.hashRoot.
  destruct (Trie.root T) eqn:Er; try done. by destruct Ht; eapply rep_is_nil.
Qed.

Lemma root_of_node n t m : wf n t -> contents t m -> root_of (thash t) m.
Proof. intros Hwf Hc. exists t, n. split_and!; [by right|done|]. by destruct Hwf. Qed.

Lemma root_of_empty m : contents TNil m -> root_of emptyRoot m.
Proof. intros Hc. exists TNil, O. split_and!; [by left|done|done]. Qed.

Lemma Hash_ok get T m : trie_ok get T m ->
  exists h T', Trie.Hash_ (D:=D) T = Done (h, T') /\ root_of h m /\ trie_ok get T' m.
Proof.
  intros (t&Hwf&Hrep&Hc). unfold Trie.Hash_. destruct Hwf as [->|Hwf].
  - unfold Trie.hashRoot. apply rep_nil_inv in Hrep as ->. cbn.
    exists emptyRoot. eexists. split; [by vm_compute|]. split; [by apply root_of_empty|].
    exists TNil. split_and!; [by left|constructor|done].
  - assert (Hp : hash_post (D:=D) get (fun _ => False) true t None
      (hash (Trie.cachegen T) (Trie.cachelimit T) (Trie.root T) true None)).
    { eapply (hash_ok get (fun _ => False)); [by intros|done|done|done|by intros []]. }
    rewrite (hashRoot_node get t) by (done || by eapply wf_not_nil).
    unfold hash_post in Hp. destruct (hash _ _ _ true None) as [[[hn n]| | |] d'] eqn:Eh; try done;
      [|by destruct Hp as [_ []]].
    destruct Hp as (Href&Hs&Hr&_). cbn [fst]. simpl_decode. rewrite (hashed_root t) by (done || by eapply wf_is_node).
    simpl_decode. rewrite (BytesToHash_hash (tenc t) : _ (thash t) = _).
    do 2 eexists. split; [done|]. split; [by eapply root_of_node|].
    exists t. split_and!; [by right| |done]. destruct d'; [|done].
    destruct Hs as [Hsome _ _]. by destruct (proj2 Hsome (mk_is_Some _ _ eq_refl)).
Qed.

(** ** Committing and opening *)
Section commit.
Variable base : bytes -> option bytes.
Variable U : bytes -> Prop.
Hypothesis U_inj : forall x y, U x -> U y -> Keccak256 x = Keccak256 y -> x = y.

(** The encodings of the nodes that hold [m] are in [U]. *)
Definition map_known (m : gmap bytes bytes) : Prop :=
  forall t n, wf0 n t -> contents t m -> known U t.

(** The nodes that hold [m] can be read. *)
Definition map_stored (get : bytes -> option bytes) (h : Hash) (m : gmap bytes bytes) : Prop :=
  exists t, wf0 limit t /\ contents t m /\ h = troot t emptyRoot /\ stored get true t.

Lemma CommitTo_ok T d m : trie_ok (overlay base d) T m -> map_known m -> addressed U (overlay base d) ->
  match Trie.CommitTo (T, d) with
  | (Done h, (T', d')) => root_of h m /\ trie_ok (overlay base d') T' m /\
      map_stored (overlay base d') h m /\ addressed U (overlay base d') /\
      grows (overlay base d) (overlay base d')
  | (Error _, (T', d')) => T' = T /\ addressed U (overlay base d') /\ grows (overlay base d) (overlay base d')
  | _ => False
  end.
Proof.
  intros (t&Hwf&Hrep&Hc) Hk Ha. unfold Trie.CommitTo. destruct Hwf as [->|Hwf].
  - unfold Trie.hashRoot. apply rep_nil_inv in Hrep as ->. cbn.
    assert (Common.BytesToHash emptyRoot = emptyRoot) as -> by by vm_compute.
    split_and!; [by apply root_of_empty| |exists TNil; split_and!; [by left|done|done|constructor]|done|by intros h e].
    exists TNil. split_and!; [by left|constructor|done].
  - assert (Hp : hash_post (D:=D) base U true t (Some d)
      (hash (Trie.cachegen T) (Trie.cachelimit T) (Trie.root T) true (Some d))).
    { eapply (hash_ok base U); [done|done|done|done|]. intros _. split; [|done]. eapply Hk; [by right|done]. }
    rewrite (hashRoot_node (overlay base d) t) by (done || by eapply wf_not_nil).
    unfold hash_post in Hp. destruct (hash _ _ _ true (Some d)) as [[[hn n]| | |] d'] eqn:Eh; try done.
    + destruct Hp as (Href&[Hsome Hg Ha']&Hr&Hst).
      destruct d' as [d'|]; [|by destruct (proj1 Hsome (mk_is_Some _ _ eq_refl))].
      rewrite (hashed_root t) by (done || by eapply wf_is_node).
      rewrite (BytesToHash_hash (tenc t) : _ (thash t) = _).
      split_and!; [by eapply root_of_node| | |by apply Ha'|done].
      * exists t. split_and!; [by right|done|done].
      * exists t. split_and!; [by right|done|by destruct Hwf|by apply Hst].
    + destruct Hp as [[Hsome Hg Ha'] _].
      destruct d' as [d'|]; [|by destruct (proj1 Hsome (mk_is_Some _ _ eq_refl))].
      split_and!; [done|by apply Ha'|done].
Qed.
End commit.

(** Opening a root that the database holds; the hash must not be one of the two
    that stand for the empty trie. *)
Lemma New_ok db h m : map_stored (fun x => Db_Get x db) h m ->
  (m <> ∅ -> h <> Common.zeroHash /\ h <> emptyRoot) ->
  exists T, Trie.New db h = Done T /\ trie_ok (fun x => Db_Get x db) T m.
Proof.
  intros (t&Hwf&Hc&->&Hst) Hne. unfold Trie.New. destruct Hwf as [->|Hwf].
  - simpl troot. rewrite (bool_decide_eq_false_2 (emptyRoot <> emptyRoot)) by (by intros []).
    rewrite andb_false_r. eexists. split; [done|]. exists TNil. split_and!; [by left|constructor|done].
  - assert (Hroot : troot t emptyRoot = thash t) by by destruct Hwf.
    rewrite Hroot in *. destruct Hne as [H1 H2].
    { intros ->. destruct (tget_exists _ _ Hwf) as (k&v&Hg). apply Hc in Hg as (?&_&Hl).
      by rewrite lookup_empty in Hl. }
    rewrite !bool_decide_eq_true_2 by done. simpl andb. cbv iota.
    set (T0 := {| Trie.root := nilNode |}).
    destruct (resolveHash_ok db T0 limit t true (thash t) [] [] Hwf Hlimit) as (n&->&Hr&_).
    { constructor; [by eapply wf_is_node|by left|done]. }
    simpl_decode. eexists. split; [done|]. exists t. split_and!; [by right|done|done].
Qed.

(** A zero or empty root opens the empty trie. *)
Lemma New_empty db h : h = Common.zeroHash \/ h = emptyRoot ->
  exists T, Trie.New db h = Done T /\ trie_ok (fun x => Db_Get x db) T ∅.
Proof.
  intros Hh. unfold Trie.New. assert (Hc : bool_decide (h <> Common.zeroHash) && bool_decide (h <> emptyRoot) = false).
  { apply andb_false_iff. destruct Hh as [->| ->]; [left|right]; apply bool_decide_eq_false_2; by intros []. }
  rewrite Hc. eexists. split; [done|]. exists TNil. split_and!; [by left|constructor|].
  intros k v. split; [done|]. intros (?&_&Hl). by rewrite lookup_empty in Hl.
Qed.
End operations.
