(* ===== verification/StateSpec.v ===== *)
(** What the state database promises to its clients.

    [View] is the abstract state: a map from addresses to accounts, the refund
    counter, the logs and the preimages.  [StateLaws] says how each operation
    of [core/vm/interface.go] acts on it, and that a snapshot can be restored
    as long as no older one has been.  The virtual machine is verified against
    this class; the journalled database of [core/state] implements it. *)
From Stdlib Require Export FunctionalExtensionality.
From S2P Require Import Prelude GoBig CommonMath CommonTypes Params VmTypes.

(** ** Abstract states *)

Record account := {
  acc_nonce : Z;
  acc_balance : Z;
  acc_codeHash : Hash;
  acc_code : bytes;
  acc_storage : Hash -> Hash;
  acc_suicided : bool;
}.

Record View := {
  accounts : Address -> option account;
  refund : Z;
  logs : Hash -> list Log;
  preimages : Hash -> option bytes;
}.

Definition fupd {A} (f : list Z -> A) (k : list Z) (x : A) : list Z -> A :=
  fun k' => if decide (k' = k) then x else f k'.

Section operations.
Context {CR : Crypto}.

Definition emptyCodeHash : Hash := Keccak256 [].

Definition new_account : account :=
  {| acc_nonce := 0; acc_balance := 0; acc_codeHash := emptyCodeHash; acc_code := [];
     acc_storage := fun _ => Common.zeroHash; acc_suicided := false |}.

Definition with_balance (o : account) (b : Z) : account :=
  {| acc_nonce := o.(acc_nonce); acc_balance := b; acc_codeHash := o.(acc_codeHash);
     acc_code := o.(acc_code); acc_storage := o.(acc_storage);
     acc_suicided := o.(acc_suicided) |}.
Definition with_nonce (o : account) (n : Z) : account :=
  {| acc_nonce := n; acc_balance := o.(acc_balance); acc_codeHash := o.(acc_codeHash);
     acc_code := o.(acc_code); acc_storage := o.(acc_storage);
     acc_suicided := o.(acc_suicided) |}.
Definition with_code (o : account) (h : Hash) (c : bytes) : account :=
  {| acc_nonce := o.(acc_nonce); acc_balance := o.(acc_balance); acc_codeHash := h;
     acc_code := c; acc_storage := o.(acc_storage); acc_suicided := o.(acc_suicided) |}.
Definition with_storage (o : account) (k v : Hash) : account :=
  {| acc_nonce := o.(acc_nonce); acc_balance := o.(acc_balance);
     acc_codeHash := o.(acc_codeHash); acc_code := o.(acc_code);
     acc_storage := fupd o.(acc_storage) k v; acc_suicided := o.(acc_suicided) |}.
Definition with_suicided (o : account) (b : bool) : account :=
  {| acc_nonce := o.(acc_nonce); acc_balance := o.(acc_balance);
     acc_codeHash := o.(acc_codeHash); acc_code := o.(acc_code);
     acc_storage := o.(acc_storage); acc_suicided := b |}.

Definition set_account (v : View) (a : Address) (o : option account) : View :=
  {| accounts := fupd v.(accounts) a o; refund := v.(refund); logs := v.(logs);
     preimages := v.(preimages) |}.
Definition get_or_new (v : View) (a : Address) : account := default new_account (accounts v a).
Definition upd_account (v : View) (a : Address) (g : account -> account) : View :=
  set_account v a (Some (g (get_or_new v a))).
Definition set_refund (v : View) (n : Z) : View :=
  {| accounts := v.(accounts); refund := n; logs := v.(logs); preimages := v.(preimages) |}.
Definition set_logs (v : View) (h : Hash) (l : list Log) : View :=
  {| accounts := v.(accounts); refund := v.(refund); logs := fupd v.(logs) h l;
     preimages := v.(preimages) |}.
Definition set_preimage (v : View) (h : Hash) (p : option bytes) : View :=
  {| accounts := v.(accounts); refund := v.(refund); logs := v.(logs);
     preimages := fupd v.(preimages) h p |}.

Definition abs_balance (v : View) (a : Address) : Z := from_option acc_balance 0 (accounts v a).
Definition abs_nonce (v : View) (a : Address) : Z := from_option acc_nonce 0 (accounts v a).
Definition abs_codeHash (v : View) (a : Address) : Hash :=
  from_option acc_codeHash Common.zeroHash (accounts v a).
Definition abs_code (v : View) (a : Address) : bytes := from_option acc_code [] (accounts v a).
Definition abs_state (v : View) (a : Address) (k : Hash) : Hash :=
  from_option (fun o => acc_storage o k) Common.zeroHash (accounts v a).
Definition abs_suicided (v : View) (a : Address) : bool :=
  from_option acc_suicided false (accounts v a).
Definition acc_empty (o : account) : bool :=
  (acc_nonce o =? 0) && (acc_balance o =? 0) && bool_decide (acc_codeHash o = emptyCodeHash).
Definition abs_empty (v : View) (a : Address) : bool := from_option acc_empty true (accounts v a).

Definition abs_CreateAccount (a : Address) (v : View) : View :=
  set_account v a (Some (with_balance new_account (abs_balance v a))).
Definition abs_AddBalance (a : Address) (n : Z) (v : View) : View :=
  upd_account v a (fun o => with_balance o (acc_balance o + n)).
Definition abs_SubBalance (a : Address) (n : Z) (v : View) : View :=
  upd_account v a (fun o => with_balance o (acc_balance o - n)).
Definition abs_SetNonce (a : Address) (n : Z) (v : View) : View :=
  upd_account v a (fun o => with_nonce o n).
Definition abs_SetCode (a : Address) (c : bytes) (v : View) : View :=
  upd_account v a (fun o => with_code o (Keccak256Hash c) c).
Definition abs_SetState (a : Address) (k x : Hash) (v : View) : View :=
  upd_account v a (fun o => with_storage o k x).
Definition abs_Suicide (a : Address) (v : View) : View :=
  match accounts v a with
  | None => v
  | Some o => set_account v a (Some (with_balance (with_suicided o true) 0))
  end.
Definition abs_AddPreimage (h : Hash) (p : bytes) (v : View) : View :=
  match preimages v h with Some _ => v | None => set_preimage v h (Some p) end.
End operations.

(** ** The contract of the database *)

Section laws.
Context {S : Type} {DB : StateDB S} {CR : Crypto}.

(** Reverting to [id] succeeds and gives the abstract state [v]. *)
Definition restores (view : S -> View) (inv : S -> Prop) (s : S) (id : Z) (v : View) : Prop :=
  exists s', RevertToSnapshot id s = Some s' /\ view s' = v /\ inv s'.

(** [s'] is a later state of [s]: every snapshot of [s] is still good. *)
Definition keeps (view : S -> View) (inv : S -> Prop) (s s' : S) : Prop :=
  inv s' /\ forall id v, restores view inv s id v -> restores view inv s' id v.

(** A getter: its value, and nothing else is observable. *)
Definition reads {A} (view : S -> View) (inv : S -> Prop) (g : S -> A * S) (val : View -> A)
  : Prop := forall s, inv s ->
  fst (g s) = val (view s) /\ view (snd (g s)) = view s /\ keeps view inv s (snd (g s)).

Definition writes (view : S -> View) (inv : S -> Prop) (g : S -> S) (f : View -> View) : Prop :=
  forall s, inv s -> view (g s) = f (view s) /\ keeps view inv s (g s).
End laws.

Class StateLaws (S : Type) {DB : StateDB S} {CR : Crypto} := {
  view : S -> View;
  inv : S -> Prop;

  law_GetBalance a : reads view inv (GetBalance a) (fun v => abs_balance v a);
  law_GetNonce a : reads view inv (GetNonce a) (fun v => abs_nonce v a);
  law_GetCodeHash a : reads view inv (GetCodeHash a) (fun v => abs_codeHash v a);
  law_GetCode a : reads view inv (GetCode a) (fun v => abs_code v a);
  law_GetState a k : reads view inv (GetState a k) (fun v => abs_state v a k);
  law_HasSuicided a : reads view inv (HasSuicided a) (fun v => abs_suicided v a);
  law_Exist a : reads view inv (Exist a) (fun v => bool_decide (is_Some (accounts v a)));
  law_Empty a : reads view inv (Empty a) (fun v => abs_empty v a);
  law_GetRefund s : inv s -> GetRefund s = refund (view s);
  (** The size may come from a cache, of which only the range is promised. *)
  law_GetCodeSize a s : inv s ->
    0 <= fst (GetCodeSize a s) < 2 ^ 63 /\ view (snd (GetCodeSize a s)) = view s /\
    keeps view inv s (snd (GetCodeSize a s));

  law_CreateAccount a : writes view inv (CreateAccount a) (abs_CreateAccount a);
  law_AddBalance a n : writes view inv (AddBalance a n) (abs_AddBalance a n);
  law_SubBalance a n : writes view inv (SubBalance a n) (abs_SubBalance a n);
  law_SetNonce a n : writes view inv (SetNonce a n) (abs_SetNonce a n);
  law_SetCode a c : zlen c < 2 ^ 63 -> writes view inv (SetCode a c) (abs_SetCode a c);
  law_SetState a k x : writes view inv (SetState a k x) (abs_SetState a k x);
  law_Suicide a : writes view inv (fun s => snd (Suicide a s)) (abs_Suicide a);
  law_AddRefund n : writes view inv (AddRefund n) (fun v => set_refund v (refund v + n));
  law_AddPreimage h p : writes view inv (AddPreimage h p) (abs_AddPreimage h p);
  (** Not journalled. *)
  law_poke_refund n s : inv s ->
    view (poke_refund n s) = set_refund (view s) n /\ inv (poke_refund n s);
  (** A log is stamped with its position before it is recorded. *)
  law_AddLog l s : inv s -> exists h l',
    log_Address l' = log_Address l /\ log_Topics l' = log_Topics l /\
    log_Data l' = log_Data l /\
    view (AddLog l s) = set_logs (view s) h (logs (view s) h ++ [l']) /\
    keeps view inv s (AddLog l s);

  law_Snapshot s : inv s ->
    view (snd (Snapshot s)) = view s /\ keeps view inv s (snd (Snapshot s)) /\
    restores view inv (snd (Snapshot s)) (fst (Snapshot s)) (view s) /\
    (forall id v, restores view inv s id v -> id < fst (Snapshot s));
  (** Reverting keeps the older snapshots. *)
  law_Revert s id s' : inv s -> RevertToSnapshot id s = Some s' ->
    forall id' v, id' < id -> restores view inv s id' v -> restores view inv s' id' v;
}.

(** ** Facts about abstract states *)

Lemma fupd_eq {A} (f : list Z -> A) k x : fupd f k x k = x.
Proof. unfold fupd. by rewrite decide_True. Qed.

Lemma fupd_ne {A} (f : list Z -> A) k k' x : k' <> k -> fupd f k x k' = f k'.
Proof. intros. unfold fupd. by rewrite decide_False. Qed.

Lemma fupd_id {A} (f : list Z -> A) k : fupd f k (f k) = f.
Proof. apply functional_extensionality. intros k'. unfold fupd. case_decide; by subst. Qed.

Lemma fupd_twice {A} (f : list Z -> A) k x y : fupd (fupd f k x) k y = fupd f k y.
Proof. apply functional_extensionality. intros k'. unfold fupd. by case_decide. Qed.

(** Total balance of a set of accounts, and a bound on the total supply that does
    not need an enumeration of the accounts. *)
Definition sum_balances (v : View) (l : list Address) : Z :=
  foldr (fun a n => abs_balance v a + n) 0 l.
Definition supply_le (B : Z) (v : View) : Prop :=
  forall l, NoDup l -> sum_balances v l <= B.

Lemma sum_balances_ext v v' l :
  (forall a, a ∈ l -> abs_balance v' a = abs_balance v a) ->
  sum_balances v' l = sum_balances v l.
Proof.
  induction l as [|a l IH]; [done|]. intros Hl. simpl.
  rewrite (Hl a), IH; [done| |set_solver]. set_solver.
Qed.

Lemma sum_balances_mono v v' l :
  (forall a, abs_balance v' a <= abs_balance v a) -> sum_balances v' l <= sum_balances v l.
Proof.
  intros Hle. induction l as [|a l IH]; [done|]. simpl. specialize (Hle a). lia.
Qed.

(** Effect on the sum of changing the balance of one account. *)
Lemma sum_balances_change v v' a l :
  NoDup l -> a ∈ l -> (forall b, b <> a -> abs_balance v' b = abs_balance v b) ->
  sum_balances v' l = sum_balances v l + (abs_balance v' a - abs_balance v a).
Proof.
  intros Hnd Hin Hother. induction l as [|b l IH]; [set_solver|].
  apply NoDup_cons in Hnd as [Hb Hnd]. simpl. destruct (decide (b = a)) as [->|Hne].
  - rewrite (sum_balances_ext v v' l); [lia|]. intros c Hc. apply Hother. set_solver.
  - rewrite IH, (Hother b) by set_solver. lia.
Qed.

Lemma supply_le_mono B v v' :
  (forall a, abs_balance v' a <= abs_balance v a) -> supply_le B v -> supply_le B v'.
Proof.
  intros Hle HB l Hl. etrans; [by apply sum_balances_mono|]. by apply HB.
Qed.

Lemma supply_le_balance B v a : supply_le B v -> abs_balance v a <= B.
Proof.
  intros HB. specialize (HB [a] (NoDup_singleton a)). simpl in HB. lia.
Qed.

Section funds.
Context {CR : Crypto}.

(** Moving funds between two accounts keeps the bound. *)
Lemma supply_le_move B v v' s r n :
  0 <= n <= abs_balance v s -> s <> r ->
  abs_balance v' s = abs_balance v s - n -> abs_balance v' r = abs_balance v r + n ->
  (forall a, a <> s -> a <> r -> abs_balance v' a = abs_balance v a) ->
  supply_le B v -> supply_le B v'.
Proof.
  intros Hn Hsr Hs Hr Ho HB l Hl.
  set (v1 := set_account v s (Some (with_balance (default new_account (accounts v s))
                                      (abs_balance v s - n)))).
  assert (Hv1s : abs_balance v1 s = abs_balance v s - n).
  { unfold abs_balance at 1, v1. simpl. by rewrite fupd_eq. }
  assert (Hv1o : forall a, a <> s -> abs_balance v1 a = abs_balance v a).
  { intros a Ha. unfold abs_balance, v1. simpl. by rewrite fupd_ne. }
  assert (Hv'o : forall a, a <> r -> abs_balance v' a = abs_balance v1 a).
  { intros a Ha. destruct (decide (a = s)) as [->|]; [congruence|].
    rewrite Hv1o by done. by apply Ho. }
  assert (Hv'r : abs_balance v' r = abs_balance v1 r + n) by (rewrite Hv1o; congruence).
  destruct (decide (r ∈ l)) as [Hrl|Hrl].
  - rewrite (sum_balances_change v1 v' r l) by done.
    destruct (decide (s ∈ l)) as [Hsl|Hsl].
    + rewrite (sum_balances_change v v1 s l) by done. specialize (HB l Hl). lia.
    + rewrite (sum_balances_ext v v1 l) by (intros a Ha; apply Hv1o; set_solver).
      assert (Hl' : NoDup (s :: l)) by (by apply NoDup_cons).
      specialize (HB _ Hl'). simpl in HB. lia.
  - rewrite (sum_balances_ext v1 v' l) by (intros a Ha; apply Hv'o; set_solver).
    etrans; [apply (sum_balances_mono v v1)|by apply HB].
    intros a. destruct (decide (a = s)) as [->|]; [lia|]. by rewrite Hv1o.
Qed.

(** Balances after the elementary updates. *)
Lemma abs_balance_upd v a g b :
  abs_balance (upd_account v a g) b =
  if decide (b = a) then acc_balance (g (get_or_new v a)) else abs_balance v b.
Proof. unfold abs_balance, upd_account, fupd. simpl. unfold fupd. by case_decide. Qed.

Lemma acc_balance_get_or_new v a : acc_balance (get_or_new v a) = abs_balance v a.
Proof. unfold get_or_new, abs_balance. by destruct (accounts v a). Qed.

End funds.

Definition account_ok (o : account) : Prop :=
  0 <= acc_balance o /\ is_bytes (acc_code o) /\ zlen (acc_code o) < 2 ^ 63 /\
  (forall k, Common.is_array 32 (acc_storage o k)) /\ 0 <= acc_nonce o < 2 ^ 64.

(** Well-formed states with at most [B] units in total. *)
Definition view_ok (B : Z) (v : View) : Prop :=
  (forall a o, accounts v a = Some o -> account_ok o) /\ supply_le B v /\ 0 <= refund v.

Section view_ok.
Context {CR : Crypto}.

Lemma new_account_ok : account_ok new_account.
Proof. split_and!; simpl; try lia; [constructor|done|]. intros _. apply Common.is_array_zeroHash. Qed.

Lemma get_or_new_ok B v a : view_ok B v -> account_ok (get_or_new v a).
Proof.
  intros [Hv _]. unfold get_or_new. destruct (accounts v a) eqn:E; [by eapply Hv|].
  apply new_account_ok.
Qed.

Lemma abs_balance_nonneg B v a : view_ok B v -> 0 <= abs_balance v a <= B.
Proof.
  intros Hv. split; [|by apply supply_le_balance, Hv].
  rewrite <- acc_balance_get_or_new. by apply (get_or_new_ok B).
Qed.

Lemma abs_state_array B v a k : view_ok B v -> Common.is_array 32 (abs_state v a k).
Proof.
  intros [Hv _]. unfold abs_state. destruct (accounts v a) eqn:E; simpl.
  - by eapply Hv.
  - apply Common.is_array_zeroHash.
Qed.

Lemma abs_code_ok B v a : view_ok B v -> is_bytes (abs_code v a) /\ zlen (abs_code v a) < 2 ^ 63.
Proof.
  intros [Hv _]. unfold abs_code. destruct (accounts v a) eqn:E; simpl.
  - split; by eapply Hv.
  - split; [constructor|]. rewrite zlen_nil. lia.
Qed.

(** Updates that do not raise balances. *)
Lemma view_ok_upd B v a g :
  view_ok B v -> (forall o, account_ok o -> account_ok (g o)) ->
  acc_balance (g (get_or_new v a)) <= acc_balance (get_or_new v a) ->
  view_ok B (upd_account v a g).
Proof.
  intros Hv Hg Hb. split.
  - intros b o. simpl. unfold fupd. case_decide; [|by apply Hv].
    intros [= <-]. eauto using get_or_new_ok.
  - split; [|apply Hv]. eapply supply_le_mono; [|apply Hv]. intros b. rewrite abs_balance_upd.
    case_decide; subst; [|done]. by rewrite acc_balance_get_or_new in Hb.
Qed.

Lemma view_ok_refund B v n : view_ok B v -> 0 <= n -> view_ok B (set_refund v n).
Proof. intros (?&?&?) ?. by split_and!. Qed.

Lemma view_ok_AddRefund B v n :
  view_ok B v -> 0 <= n -> view_ok B (set_refund v (refund v + n)).
Proof. intros Hv ?. apply view_ok_refund; [done|]. destruct Hv as (?&?&?). lia. Qed.

Lemma view_ok_logs B v h l : view_ok B v -> view_ok B (set_logs v h l).
Proof. done. Qed.

Lemma view_ok_AddPreimage B v h p : view_ok B v -> view_ok B (abs_AddPreimage h p v).
Proof. unfold abs_AddPreimage. by case_match. Qed.

Lemma account_ok_with_balance o b : account_ok o -> 0 <= b -> account_ok (with_balance o b).
Proof. intros (?&?&?&?&?&?) ?. by split_and!. Qed.

Lemma view_ok_CreateAccount B v a : view_ok B v -> view_ok B (abs_CreateAccount a v).
Proof.
  intros Hv. split.
  - intros b o. simpl. unfold fupd. case_decide; [|by apply Hv].
    intros [= <-]. apply account_ok_with_balance; [apply new_account_ok|].
    by apply (abs_balance_nonneg B).
  - split; [|apply Hv]. eapply supply_le_mono; [|apply Hv]. intros b.
    unfold abs_balance at 1. simpl.
    unfold fupd. by case_decide; subst.
Qed.

Lemma view_ok_SetNonce B v a n : view_ok B v -> 0 <= n < 2 ^ 64 -> view_ok B (abs_SetNonce a n v).
Proof. intros Hv [??]. apply view_ok_upd; [done| |done]. intros o (?&?&?&?&_). by split_and!. Qed.

Lemma view_ok_SetCode B v a c :
  view_ok B v -> is_bytes c -> zlen c < 2 ^ 63 -> view_ok B (abs_SetCode a c v).
Proof. intros. apply view_ok_upd; [done| |done]. intros o (?&?&?&?&?&?). by split_and!. Qed.

Lemma view_ok_SetState B v a k x :
  view_ok B v -> Common.is_array 32 x -> view_ok B (abs_SetState a k x v).
Proof.
  intros ? Hx. apply view_ok_upd; [done| |done]. intros o (?&?&?&?&?&?).
  split_and!; [done..| |done|done]. intros k'. simpl. unfold fupd. by case_decide.
Qed.

(** A covered transfer. *)
Lemma view_ok_transfer B v s r n :
  view_ok B v -> 0 <= n <= abs_balance v s ->
  view_ok B (abs_AddBalance r n (abs_SubBalance s n v)).
Proof.
  intros Hv Hn.
  assert (Hs : acc_balance (get_or_new v s) = abs_balance v s) by apply acc_balance_get_or_new.
  split.
  - intros a o Ho. unfold abs_AddBalance in Ho. simpl in Ho. unfold fupd in Ho.
    case_decide as Har.
    + injection Ho as <-. unfold get_or_new, abs_SubBalance. simpl. unfold fupd.
      case_decide; simpl.
      * apply account_ok_with_balance; [apply account_ok_with_balance|]; simpl;
          [by apply (get_or_new_ok B)|lia|lia].
      * fold (get_or_new v r). pose proof (get_or_new_ok B v r Hv) as Hr.
        apply account_ok_with_balance; [done|]. destruct Hr. lia.
    + case_decide; [|by eapply Hv]. injection Ho as <-.
      apply account_ok_with_balance; [by apply (get_or_new_ok B)|lia].
  - split; [|apply Hv]. destruct (decide (s = r)) as [->|Hsr].
    + eapply supply_le_mono; [|apply Hv]. intros a. unfold abs_AddBalance.
      rewrite abs_balance_upd. case_decide; subst.
      * simpl. rewrite acc_balance_get_or_new. unfold abs_SubBalance.
        rewrite abs_balance_upd, decide_True by done. simpl. lia.
      * unfold abs_SubBalance. by rewrite abs_balance_upd, decide_False.
    + apply (supply_le_move B v _ s r n); [done|done|..|apply Hv];
        unfold abs_AddBalance, abs_SubBalance.
      * rewrite abs_balance_upd, decide_False, abs_balance_upd, decide_True by done.
        simpl. lia.
      * rewrite abs_balance_upd, decide_True by done. simpl.
        rewrite acc_balance_get_or_new, abs_balance_upd, decide_False by congruence. done.
      * intros a Has Har. by rewrite abs_balance_upd, decide_False, abs_balance_upd,
          decide_False.
Qed.

(** Funds that leave or enter the state move the bound. *)
Lemma view_ok_sub B v a n :
  view_ok B v -> 0 <= n <= abs_balance v a -> view_ok (B - n) (abs_SubBalance a n v).
Proof.
  intros Hv Hn. split; [|split; [|apply Hv]].
  - intros b o. simpl. unfold fupd. case_decide; [|by apply Hv]. intros [= <-].
    apply account_ok_with_balance; [by apply (get_or_new_ok B)|].
    rewrite acc_balance_get_or_new. lia.
  - intros l Hl. unfold abs_SubBalance.
    assert (Ho : forall b, b <> a -> abs_balance (upd_account v a
      (fun o => with_balance o (acc_balance o - n))) b = abs_balance v b).
    { intros b Hb. by rewrite abs_balance_upd, decide_False. }
    destruct (decide (a ∈ l)) as [Hin|Hin].
    + rewrite (sum_balances_change v _ a l), abs_balance_upd, decide_True by done. simpl.
      rewrite acc_balance_get_or_new. destruct Hv as (_&HB&_). specialize (HB l Hl). lia.
    + rewrite (sum_balances_ext v _ l) by (intros b Hb; apply Ho; set_solver).
      destruct Hv as (_&HB&_). specialize (HB (a :: l)). simpl in HB.
      assert (NoDup (a :: l)) by (by apply NoDup_cons). specialize (HB ltac:(done)). lia.
Qed.

Lemma view_ok_add B v a n :
  view_ok B v -> 0 <= n -> view_ok (B + n) (abs_AddBalance a n v).
Proof.
  intros Hv Hn. split; [|split; [|apply Hv]].
  - intros b o. simpl. unfold fupd. case_decide; [|by apply Hv]. intros [= <-].
    pose proof (get_or_new_ok B v a Hv) as Ha. apply account_ok_with_balance; [done|].
    destruct Ha. lia.
  - intros l Hl. unfold abs_AddBalance.
    assert (Ho : forall b, b <> a -> abs_balance (upd_account v a
      (fun o => with_balance o (acc_balance o + n))) b = abs_balance v b).
    { intros b Hb. by rewrite abs_balance_upd, decide_False. }
    destruct Hv as (_&HB&_). specialize (HB l Hl). destruct (decide (a ∈ l)) as [Hin|Hin].
    + rewrite (sum_balances_change v _ a l), abs_balance_upd, decide_True by done. simpl.
      rewrite acc_balance_get_or_new. lia.
    + rewrite (sum_balances_ext v _ l) by (intros b Hb; apply Ho; set_solver). lia.
Qed.

(** [SELFDESTRUCT]: the balance goes to [t], then the account is emptied. *)
Lemma view_ok_suicide B v me t :
  view_ok B v -> view_ok B (abs_Suicide me (abs_AddBalance t (abs_balance v me) v)).
Proof.
  intros Hv. pose proof (abs_balance_nonneg B v me Hv) as Hme.
  assert (Hadd : forall a o, accounts (abs_AddBalance t (abs_balance v me) v) a = Some o ->
                 account_ok o).
  { intros a o. simpl. unfold fupd. case_decide; [|by apply Hv]. intros [= <-].
    pose proof (get_or_new_ok B v t Hv) as Ht. apply account_ok_with_balance; [done|].
    destruct Ht. lia. }
  assert (Hbal : forall a, abs_balance (abs_Suicide me (abs_AddBalance t (abs_balance v me) v)) a =
    if decide (a = me) then 0
    else if decide (a = t) then abs_balance v t + abs_balance v me else abs_balance v a).
  { intros a. unfold abs_Suicide, abs_balance at 1. simpl.
    destruct (fupd _ t _ me) eqn:E; simpl; unfold fupd in *; repeat case_decide; subst;
      try done; rewrite ?E; simpl; rewrite ?acc_balance_get_or_new; done. }
  split.
  - intros a o. unfold abs_Suicide. destruct (accounts _ me) eqn:E; [|apply Hadd].
    simpl. unfold fupd at 1. case_decide; [|apply Hadd]. intros [= <-].
    destruct (Hadd _ _ E) as (?&?&?&?&?&?). by split_and!.
  - split; [|unfold abs_Suicide; case_match; apply Hv].
    destruct (decide (me = t)) as [->|Hne].
    + eapply supply_le_mono; [|apply Hv]. intros a. rewrite Hbal.
      repeat case_decide; subst; lia.
    + apply (supply_le_move B v _ me t (abs_balance v me)); [lia|done|..|apply Hv].
      * rewrite Hbal, decide_True by done. lia.
      * by rewrite Hbal, decide_False, decide_True by congruence.
      * intros a ??. by rewrite Hbal, !decide_False.
Qed.
End view_ok.
