(* ===== verification/VmOpcodes.v ===== *)
(** [core/vm/opcodes.go]: the opcodes, their bytes and their names. *)
From stdpp Require Import strings.
From S2P Require Import Prelude.

Module Op.

Inductive OpCode :=
| STOP | ADD | MUL | SUB | DIV | SDIV | MOD | SMOD | ADDMOD | MULMOD | EXP | SIGNEXTEND | LT | GT
| SLT | SGT | EQ | ISZERO | AND | OR | XOR | NOT | BYTE | SHA3 | ADDRESS | BALANCE | ORIGIN
| CALLER | CALLVALUE | CALLDATALOAD | CALLDATASIZE | CALLDATACOPY | CODESIZE | CODECOPY | GASPRICE
| EXTCODESIZE | EXTCODECOPY | BLOCKHASH | COINBASE | TIMESTAMP | NUMBER | DIFFICULTY | GASLIMIT
| POP | MLOAD | MSTORE | MSTORE8 | SLOAD | SSTORE | JUMP | JUMPI | PC | MSIZE | GAS | JUMPDEST
| PUSH1 | PUSH2 | PUSH3 | PUSH4 | PUSH5 | PUSH6 | PUSH7 | PUSH8 | PUSH9 | PUSH10 | PUSH11 | PUSH12
| PUSH13 | PUSH14 | PUSH15 | PUSH16 | PUSH17 | PUSH18 | PUSH19 | PUSH20 | PUSH21 | PUSH22 | PUSH23
| PUSH24 | PUSH25 | PUSH26 | PUSH27 | PUSH28 | PUSH29 | PUSH30 | PUSH31 | PUSH32 | DUP1 | DUP2
| DUP3 | DUP4 | DUP5 | DUP6 | DUP7 | DUP8 | DUP9 | DUP10 | DUP11 | DUP12 | DUP13 | DUP14 | DUP15
| DUP16 | SWAP1 | SWAP2 | SWAP3 | SWAP4 | SWAP5 | SWAP6 | SWAP7 | SWAP8 | SWAP9 | SWAP10 | SWAP11
| SWAP12 | SWAP13 | SWAP14 | SWAP15 | SWAP16 | LOG0 | LOG1 | LOG2 | LOG3 | LOG4 | PUSH | DUP | SWAP
| CREATE | CALL | CALLCODE | RETURN | DELEGATECALL | SELFDESTRUCT.

(** The value of the constant. *)
Definition code (op : OpCode) : Z :=
  match op with
  | STOP => 0x00 | ADD => 0x01 | MUL => 0x02 | SUB => 0x03 | DIV => 0x04 | SDIV => 0x05
  | MOD => 0x06 | SMOD => 0x07 | ADDMOD => 0x08 | MULMOD => 0x09 | EXP => 0x0a | SIGNEXTEND => 0x0b
  | LT => 0x10 | GT => 0x11 | SLT => 0x12 | SGT => 0x13 | EQ => 0x14 | ISZERO => 0x15 | AND => 0x16
  | OR => 0x17 | XOR => 0x18 | NOT => 0x19 | BYTE => 0x1a | SHA3 => 0x20 | ADDRESS => 0x30
  | BALANCE => 0x31 | ORIGIN => 0x32 | CALLER => 0x33 | CALLVALUE => 0x34 | CALLDATALOAD => 0x35
  | CALLDATASIZE => 0x36 | CALLDATACOPY => 0x37 | CODESIZE => 0x38 | CODECOPY => 0x39
  | GASPRICE => 0x3a | EXTCODESIZE => 0x3b | EXTCODECOPY => 0x3c | BLOCKHASH => 0x40
  | COINBASE => 0x41 | TIMESTAMP => 0x42 | NUMBER => 0x43 | DIFFICULTY => 0x44 | GASLIMIT => 0x45
  | POP => 0x50 | MLOAD => 0x51 | MSTORE => 0x52 | MSTORE8 => 0x53 | SLOAD => 0x54 | SSTORE => 0x55
  | JUMP => 0x56 | JUMPI => 0x57 | PC => 0x58 | MSIZE => 0x59 | GAS => 0x5a | JUMPDEST => 0x5b
  | PUSH1 => 0x60 | PUSH2 => 0x61 | PUSH3 => 0x62 | PUSH4 => 0x63 | PUSH5 => 0x64 | PUSH6 => 0x65
  | PUSH7 => 0x66 | PUSH8 => 0x67 | PUSH9 => 0x68 | PUSH10 => 0x69 | PUSH11 => 0x6a
  | PUSH12 => 0x6b | PUSH13 => 0x6c | PUSH14 => 0x6d | PUSH15 => 0x6e | PUSH16 => 0x6f
  | PUSH17 => 0x70 | PUSH18 => 0x71 | PUSH19 => 0x72 | PUSH20 => 0x73 | PUSH21 => 0x74
  | PUSH22 => 0x75 | PUSH23 => 0x76 | PUSH24 => 0x77 | PUSH25 => 0x78 | PUSH26 => 0x79
  | PUSH27 => 0x7a | PUSH28 => 0x7b | PUSH29 => 0x7c | PUSH30 => 0x7d | PUSH31 => 0x7e
  | PUSH32 => 0x7f | DUP1 => 0x80 | DUP2 => 0x81 | DUP3 => 0x82 | DUP4 => 0x83 | DUP5 => 0x84
  | DUP6 => 0x85 | DUP7 => 0x86 | DUP8 => 0x87 | DUP9 => 0x88 | DUP10 => 0x89 | DUP11 => 0x8a
  | DUP12 => 0x8b | DUP13 => 0x8c | DUP14 => 0x8d | DUP15 => 0x8e | DUP16 => 0x8f | SWAP1 => 0x90
  | SWAP2 => 0x91 | SWAP3 => 0x92 | SWAP4 => 0x93 | SWAP5 => 0x94 | SWAP6 => 0x95 | SWAP7 => 0x96
  | SWAP8 => 0x97 | SWAP9 => 0x98 | SWAP10 => 0x99 | SWAP11 => 0x9a | SWAP12 => 0x9b
  | SWAP13 => 0x9c | SWAP14 => 0x9d | SWAP15 => 0x9e | SWAP16 => 0x9f | LOG0 => 0xa0 | LOG1 => 0xa1
  | LOG2 => 0xa2 | LOG3 => 0xa3 | LOG4 => 0xa4 | PUSH => 0xb0 | DUP => 0xb1 | SWAP => 0xb2
  | CREATE => 0xf0 | CALL => 0xf1 | CALLCODE => 0xf2 | RETURN => 0xf3 | DELEGATECALL => 0xf4
  | SELFDESTRUCT => 0xff
  end.
Coercion code : OpCode >-> Z.

Definition IsPush (op : Z) : bool := (PUSH1 <=? op) && (op <=? PUSH32).
Definition IsStaticJump (op : Z) : bool := op =? JUMP.

(** The names, in the order of the table. *)
Definition opCodeToString : list (Z * string) := [
  (code STOP, "STOP"); (code ADD, "ADD"); (code MUL, "MUL"); (code SUB, "SUB"); (code DIV, "DIV");
  (code SDIV, "SDIV"); (code MOD, "MOD"); (code SMOD, "SMOD"); (code EXP, "EXP");
  (code NOT, "NOT"); (code LT, "LT"); (code GT, "GT"); (code SLT, "SLT"); (code SGT, "SGT");
  (code EQ, "EQ"); (code ISZERO, "ISZERO"); (code SIGNEXTEND, "SIGNEXTEND"); (code AND, "AND");
  (code OR, "OR"); (code XOR, "XOR"); (code BYTE, "BYTE"); (code ADDMOD, "ADDMOD");
  (code MULMOD, "MULMOD"); (code SHA3, "SHA3"); (code ADDRESS, "ADDRESS");
  (code BALANCE, "BALANCE"); (code ORIGIN, "ORIGIN"); (code CALLER, "CALLER");
  (code CALLVALUE, "CALLVALUE"); (code CALLDATALOAD, "CALLDATALOAD");
  (code CALLDATASIZE, "CALLDATASIZE"); (code CALLDATACOPY, "CALLDATACOPY");
  (code CODESIZE, "CODESIZE"); (code CODECOPY, "CODECOPY"); (code GASPRICE, "GASPRICE");
  (code BLOCKHASH, "BLOCKHASH"); (code COINBASE, "COINBASE"); (code TIMESTAMP, "TIMESTAMP");
  (code NUMBER, "NUMBER"); (code DIFFICULTY, "DIFFICULTY"); (code GASLIMIT, "GASLIMIT");
  (code EXTCODESIZE, "EXTCODESIZE"); (code EXTCODECOPY, "EXTCODECOPY"); (code POP, "POP");
  (code MLOAD, "MLOAD"); (code MSTORE, "MSTORE"); (code MSTORE8, "MSTORE8"); (code SLOAD, "SLOAD");
  (code SSTORE, "SSTORE"); (code JUMP, "JUMP"); (code JUMPI, "JUMPI"); (code PC, "PC");
  (code MSIZE, "MSIZE"); (code GAS, "GAS"); (code JUMPDEST, "JUMPDEST"); (code PUSH1, "PUSH1");
  (code PUSH2, "PUSH2"); (code PUSH3, "PUSH3"); (code PUSH4, "PUSH4"); (code PUSH5, "PUSH5");
  (code PUSH6, "PUSH6"); (code PUSH7, "PUSH7"); (code PUSH8, "PUSH8"); (code PUSH9, "PUSH9");
  (code PUSH10, "PUSH10"); (code PUSH11, "PUSH11"); (code PUSH12, "PUSH12");
  (code PUSH13, "PUSH13"); (code PUSH14, "PUSH14"); (code PUSH15, "PUSH15");
  (code PUSH16, "PUSH16"); (code PUSH17, "PUSH17"); (code PUSH18, "PUSH18");
  (code PUSH19, "PUSH19"); (code PUSH20, "PUSH20"); (code PUSH21, "PUSH21");
  (code PUSH22, "PUSH22"); (code PUSH23, "PUSH23"); (code PUSH24, "PUSH24");
  (code PUSH25, "PUSH25"); (code PUSH26, "PUSH26"); (code PUSH27, "PUSH27");
  (code PUSH28, "PUSH28"); (code PUSH29, "PUSH29"); (code PUSH30, "PUSH30");
  (code PUSH31, "PUSH31"); (code PUSH32, "PUSH32"); (code DUP1, "DUP1"); (code DUP2, "DUP2");
  (code DUP3, "DUP3"); (code DUP4, "DUP4"); (code DUP5, "DUP5"); (code DUP6, "DUP6");
  (code DUP7, "DUP7"); (code DUP8, "DUP8"); (code DUP9, "DUP9"); (code DUP10, "DUP10");
  (code DUP11, "DUP11"); (code DUP12, "DUP12"); (code DUP13, "DUP13"); (code DUP14, "DUP14");
  (code DUP15, "DUP15"); (code DUP16, "DUP16"); (code SWAP1, "SWAP1"); (code SWAP2, "SWAP2");
  (code SWAP3, "SWAP3"); (code SWAP4, "SWAP4"); (code SWAP5, "SWAP5"); (code SWAP6, "SWAP6");
  (code SWAP7, "SWAP7"); (code SWAP8, "SWAP8"); (code SWAP9, "SWAP9"); (code SWAP10, "SWAP10");
  (code SWAP11, "SWAP11"); (code SWAP12, "SWAP12"); (code SWAP13, "SWAP13");
  (code SWAP14, "SWAP14"); (code SWAP15, "SWAP15"); (code SWAP16, "SWAP16"); (code LOG0, "LOG0");
  (code LOG1, "LOG1"); (code LOG2, "LOG2"); (code LOG3, "LOG3"); (code LOG4, "LOG4");
  (code CREATE, "CREATE"); (code CALL, "CALL"); (code RETURN, "RETURN");
  (code CALLCODE, "CALLCODE"); (code DELEGATECALL, "DELEGATECALL");
  (code SELFDESTRUCT, "SELFDESTRUCT"); (code PUSH, "PUSH"); (code DUP, "DUP"); (code SWAP, "SWAP")
].

Definition hex_digit (d : Z) : string :=
  match zget ["0"; "1"; "2"; "3"; "4"; "5"; "6"; "7"; "8"; "9"; "a"; "b"; "c"; "d"; "e"; "f"] d with
  | Some s => s
  | None => ""
  end.

(** [fmt.Sprintf("%x", int(o))] of a byte: no leading zero. *)
Definition hex_byte (o : Z) : string :=
  if o <? 16 then hex_digit o else hex_digit (o / 16) +:+ hex_digit (o mod 16).

(** The first pair with the key. *)
Fixpoint lookup {A B} (eqb : A -> A -> bool) (k : A) (l : list (A * B)) : option B :=
  match l with
  | [] => None
  | (k', v) :: l => if eqb k k' then Some v else lookup eqb k l
  end.

(** [OpCode.String] *)
Definition String_ (o : Z) : string :=
  match lookup Z.eqb o opCodeToString with
  | Some str => str
  | None => "Missing opcode 0x" +:+ hex_byte o
  end.

Definition stringToOp : list (string * Z) := [
  ("STOP", code STOP); ("ADD", code ADD); ("MUL", code MUL); ("SUB", code SUB); ("DIV", code DIV);
  ("SDIV", code SDIV); ("MOD", code MOD); ("SMOD", code SMOD); ("EXP", code EXP);
  ("NOT", code NOT); ("LT", code LT); ("GT", code GT); ("SLT", code SLT); ("SGT", code SGT);
  ("EQ", code EQ); ("ISZERO", code ISZERO); ("SIGNEXTEND", code SIGNEXTEND); ("AND", code AND);
  ("OR", code OR); ("XOR", code XOR); ("BYTE", code BYTE); ("ADDMOD", code ADDMOD);
  ("MULMOD", code MULMOD); ("SHA3", code SHA3); ("ADDRESS", code ADDRESS);
  ("BALANCE", code BALANCE); ("ORIGIN", code ORIGIN); ("CALLER", code CALLER);
  ("CALLVALUE", code CALLVALUE); ("CALLDATALOAD", code CALLDATALOAD);
  ("CALLDATASIZE", code CALLDATASIZE); ("CALLDATACOPY", code CALLDATACOPY);
  ("DELEGATECALL", code DELEGATECALL); ("CODESIZE", code CODESIZE); ("CODECOPY", code CODECOPY);
  ("GASPRICE", code GASPRICE); ("BLOCKHASH", code BLOCKHASH); ("COINBASE", code COINBASE);
  ("TIMESTAMP", code TIMESTAMP); ("NUMBER", code NUMBER); ("DIFFICULTY", code DIFFICULTY);
  ("GASLIMIT", code GASLIMIT); ("EXTCODESIZE", code EXTCODESIZE);
  ("EXTCODECOPY", code EXTCODECOPY); ("POP", code POP); ("MLOAD", code MLOAD);
  ("MSTORE", code MSTORE); ("MSTORE8", code MSTORE8); ("SLOAD", code SLOAD);
  ("SSTORE", code SSTORE); ("JUMP", code JUMP); ("JUMPI", code JUMPI); ("PC", code PC);
  ("MSIZE", code MSIZE); ("GAS", code GAS); ("JUMPDEST", code JUMPDEST); ("PUSH1", code PUSH1);
  ("PUSH2", code PUSH2); ("PUSH3", code PUSH3); ("PUSH4", code PUSH4); ("PUSH5", code PUSH5);
  ("PUSH6", code PUSH6); ("PUSH7", code PUSH7); ("PUSH8", code PUSH8); ("PUSH9", code PUSH9);
  ("PUSH10", code PUSH10); ("PUSH11", code PUSH11); ("PUSH12", code PUSH12);
  ("PUSH13", code PUSH13); ("PUSH14", code PUSH14); ("PUSH15", code PUSH15);
  ("PUSH16", code PUSH16); ("PUSH17", code PUSH17); ("PUSH18", code PUSH18);
  ("PUSH19", code PUSH19); ("PUSH20", code PUSH20); ("PUSH21", code PUSH21);
  ("PUSH22", code PUSH22); ("PUSH23", code PUSH23); ("PUSH24", code PUSH24);
  ("PUSH25", code PUSH25); ("PUSH26", code PUSH26); ("PUSH27", code PUSH27);
  ("PUSH28", code PUSH28); ("PUSH29", code PUSH29); ("PUSH30", code PUSH30);
  ("PUSH31", code PUSH31); ("PUSH32", code PUSH32); ("DUP1", code DUP1); ("DUP2", code DUP2);
  ("DUP3", code DUP3); ("DUP4", code DUP4); ("DUP5", code DUP5); ("DUP6", code DUP6);
  ("DUP7", code DUP7); ("DUP8", code DUP8); ("DUP9", code DUP9); ("DUP10", code DUP10);
  ("DUP11", code DUP11); ("DUP12", code DUP12); ("DUP13", code DUP13); ("DUP14", code DUP14);
  ("DUP15", code DUP15); ("DUP16", code DUP16); ("SWAP1", code SWAP1); ("SWAP2", code SWAP2);
  ("SWAP3", code SWAP3); ("SWAP4", code SWAP4); ("SWAP5", code SWAP5); ("SWAP6", code SWAP6);
  ("SWAP7", code SWAP7); ("SWAP8", code SWAP8); ("SWAP9", code SWAP9); ("SWAP10", code SWAP10);
  ("SWAP11", code SWAP11); ("SWAP12", code SWAP12); ("SWAP13", code SWAP13);
  ("SWAP14", code SWAP14); ("SWAP15", code SWAP15); ("SWAP16", code SWAP16); ("LOG0", code LOG0);
  ("LOG1", code LOG1); ("LOG2", code LOG2); ("LOG3", code LOG3); ("LOG4", code LOG4);
  ("CREATE", code CREATE); ("CALL", code CALL); ("RETURN", code RETURN);
  ("CALLCODE", code CALLCODE); ("SELFDESTRUCT", code SELFDESTRUCT)
].

(** A missing key gives the zero value. *)
Definition StringToOp (str : string) : Z :=
  default 0 (lookup String.eqb str stringToOp).

(** Every opcode but the pseudo-codes is found again by its name. *)
Lemma StringToOp_String op : op <> PUSH -> op <> DUP -> op <> SWAP -> StringToOp (String_ (code op)) = code op.
Proof. by destruct op. Qed.

End Op.

Coercion Op.code : Op.OpCode >-> Z.
