(* ===== verification/VmGas.v ===== *)
(** [core/vm]: helpers ([common.go]), jump destination
    analysis ([analysis.go]), stack validation ([stack_table.go]), memory sizes
    ([memory_table.go]) and gas costs ([gas.go], [gas_table.go]).

    A gas function is a stateful computation: it updates [mem.lastGasCost],
    replaces the gas operand of a call on the stack and adds refunds. *)
From S2P Require Import Prelude GoBig CommonMath CommonTypes Params VmTypes VmOpcodes.
Import Math.

(** ** common.go *)

Definition calcMemSize (off l : Z) : Z := if Big.Sign l =? 0 then 0 else off + l.

(** [None] is a slice expression out of range. *)
Definition getData (data : bytes) (start size : Z) : option bytes :=
  let dlen := zlen data in
  let s := BigMin start dlen in
  let e := BigMin (s + size) dlen in
  d ← slice data (Big.Uint64 s) (Big.Uint64 e);
  Some (Common.RightPadBytes d (i64 (Big.Uint64 size))).

Definition bigUint64 (v : Z) : Z * bool := (Big.Uint64 v, Big.BitLen v >? 64).

Definition toWordSize (size : Z) : Z :=
  if size >? MaxUint64 - 31 then MaxUint64 / 32 + 1 else (size + 31) / 32.

Definition allZero (b : bytes) : bool := forallb (fun x => x =? 0) b.

(** ** analysis.go *)

Definition bigMaxUint64 : Z := MaxUint64.

(** [for pc := uint64(0); pc < uint64(len(code)); pc++]: [pc] grows in every
    round, so [length code] rounds are enough. *)
Fixpoint jumpdests_loop (fuel : nat) (code : bytes) (pc : Z) (m : gset Z) : gset Z :=
  match fuel with
  | O => m
  | S fuel =>
      match zget code pc with
      | None => m
      | Some op =>
          if Op.IsPush op then
            let a := op - Op.PUSH1 + 1 in jumpdests_loop fuel code (pc + a + 1) m
          else if op =? Op.JUMPDEST then jumpdests_loop fuel code (pc + 1) ({[pc]} ∪ m)
          else jumpdests_loop fuel code (pc + 1) m
      end
  end.
(** The positions of the JUMPDEST instructions of [code]. *)
Definition jumpdests_of (code : bytes) : gset Z := jumpdests_loop (length code) code 0 ∅.

Definition has (d : destinations) (codehash : Hash) (code : bytes) (dest : Z)
  : bool * destinations :=
  if dest >? bigMaxUint64 then (false, d)
  else
    let '(m, d) :=
      match d !! codehash with
      | Some m => (m, d)
      | None => let m := jumpdests_of code in (m, <[codehash := m]> d)
      end in
    (bool_decide (Big.Uint64 dest ∈ m), d).

(** ** stack_table.go *)

(** [require(pop)], then the limit; [None] is no error. *)
Definition makeStackFunc (pop push : Z) (st : list Z) : option vmerror :=
  if zlen st <? pop then Some (errStackUnderflow (zlen st) pop)
  else if zlen st + push - pop >? Params.StackLimit then Some (errStackLimit (zlen st))
  else None.
Definition makeDupStackFunc (n : Z) : list Z -> option vmerror := makeStackFunc n (n + 1).
Definition makeSwapStackFunc (n : Z) : list Z -> option vmerror := makeStackFunc n n.

(** ** memory_table.go *)

(** [calcMemSize(stack.Back(i), stack.Back(j))] *)
Definition memRange (st : list Z) (i j : Z) : option Z :=
  off ← zget st i; l ← zget st j; Some (calcMemSize off l).

Definition memorySha3 (st : list Z) : option Z := memRange st 0 1.
Definition memoryCalldataCopy (st : list Z) : option Z := memRange st 0 2.
Definition memoryCodeCopy (st : list Z) : option Z := memRange st 0 2.
Definition memoryExtCodeCopy (st : list Z) : option Z := memRange st 1 3.
Definition memoryMLoad (st : list Z) : option Z := off ← zget st 0; Some (calcMemSize off 32).
Definition memoryMStore8 (st : list Z) : option Z := off ← zget st 0; Some (calcMemSize off 1).
Definition memoryMStore (st : list Z) : option Z := off ← zget st 0; Some (calcMemSize off 32).
Definition memoryCreate (st : list Z) : option Z := memRange st 1 2.
Definition memoryCall (st : list Z) : option Z :=
  x ← memRange st 5 6; y ← memRange st 3 4; Some (BigMax x y).
Definition memoryCallCode (st : list Z) : option Z :=
  x ← memRange st 5 6; y ← memRange st 3 4; Some (BigMax x y).
Definition memoryDelegateCall (st : list Z) : option Z :=
  x ← memRange st 4 5; y ← memRange st 2 3; Some (BigMax x y).
Definition memoryReturn (st : list Z) : option Z := memRange st 0 1.
Definition memoryLog (st : list Z) : option Z := memRange st 0 1.

(** ** gas.go *)

Definition GasQuickStep : Z := 2.
Definition GasFastestStep : Z := 3.
Definition GasFastStep : Z := 5.
Definition GasMidStep : Z := 8.
Definition GasSlowStep : Z := 10.
Definition GasExtStep : Z := 20.

Definition callGas (gasTable : Params.GasTable) (availableGas base callCost : Z)
  : outcome vmerror Z :=
  let direct :=
    if Big.BitLen callCost >? 64 then Error errGasUintOverflow
    else Done (Big.Uint64 callCost) in
  if Params.CreateBySuicide gasTable >? 0 then
    let availableGas := u64 (availableGas - base) in
    let gas := u64 (availableGas - availableGas / 64) in
    if (Big.BitLen callCost >? 64) || (gas <? Big.Uint64 callCost) then Done gas else direct
  else direct.

(** ** gas_table.go *)
Section gas_table.
Context {S : Type} `{StateDB S}.

Abbreviation gasFunc := (Params.GasTable -> Z -> VM S Z).

(** [if x, overflow = op; overflow { return 0, errGasUintOverflow }] *)
Definition checked (r : Z * bool) : VM S Z :=
  let '(x, overflow) := r in if (overflow : bool) then throw errGasUintOverflow else mret x.

Definition lift (o : outcome vmerror Z) : VM S Z := fun f => (o, f).

Definition memoryGasCost (newMemSize : Z) : VM S Z :=
  if newMemSize >? MaxUint64 - 32 then throw errGasUintOverflow
  else if newMemSize =? 0 then mret 0
  else
    let newMemSizeWords := toWordSize newMemSize in
    let newMemSize := u64 (newMemSizeWords * 32) in
    m ← gets mem;
    if newMemSize >? Memory.Len m then
      let square := u64 (newMemSizeWords * newMemSizeWords) in
      let linCoef := u64 (newMemSizeWords * Params.MemoryGas) in
      let quadCoef := square / Params.QuadCoeffDiv in
      let newTotalFee := u64 (linCoef + quadCoef) in
      let fee := u64 (newTotalFee - Memory.lastGasCost m) in
      _ ← modify (fun f => with_mem f
            {| Memory.store := Memory.store m; Memory.lastGasCost := newTotalFee |});
      mret fee
    else mret 0.

Definition constGasFunc (gas : Z) : gasFunc := fun _ _ => mret gas.

Definition gasCalldataCopy : gasFunc := fun gt memorySize =>
  gas ← memoryGasCost memorySize;
  gas ← checked (SafeAdd gas GasFastestStep);
  l ← Back 2;
  words ← checked (bigUint64 l);
  words ← checked (SafeMul (toWordSize words) Params.CopyGas);
  checked (SafeAdd gas words).

Definition gasSStore : gasFunc := fun gt memorySize =>
  y ← Back 1;
  x ← Back 0;
  addr ← gets (fun f => f.(contract).(self));
  val ← db_get (GetState addr (Common.BigToHash x));
  if Common.EmptyHash val && negb (Common.EmptyHash (Common.BigToHash y)) then
    mret Params.SstoreSetGas
  else if negb (Common.EmptyHash val) && Common.EmptyHash (Common.BigToHash y) then
    _ ← db_do (AddRefund Params.SstoreRefundGas);
    mret Params.SstoreClearGas
  else mret Params.SstoreResetGas.

Definition makeGasLog (n : Z) : gasFunc := fun gt memorySize =>
  size ← Back 1;
  requestedSize ← checked (bigUint64 size);
  gas ← memoryGasCost memorySize;
  gas ← checked (SafeAdd gas Params.LogGas);
  gas ← checked (SafeAdd gas (u64 (n * Params.LogTopicGas)));
  memorySizeGas ← checked (SafeMul requestedSize Params.LogDataGas);
  checked (SafeAdd gas memorySizeGas).

Definition gasSha3 : gasFunc := fun gt memorySize =>
  gas ← memoryGasCost memorySize;
  gas ← checked (SafeAdd gas Params.Sha3Gas);
  size ← Back 1;
  wordGas ← checked (bigUint64 size);
  wordGas ← checked (SafeMul (toWordSize wordGas) Params.Sha3WordGas);
  checked (SafeAdd gas wordGas).

Definition gasCodeCopy : gasFunc := fun gt memorySize =>
  gas ← memoryGasCost memorySize;
  gas ← checked (SafeAdd gas GasFastestStep);
  l ← Back 2;
  wordGas ← checked (bigUint64 l);
  wordGas ← checked (SafeMul (toWordSize wordGas) Params.CopyGas);
  checked (SafeAdd gas wordGas).

Definition gasExtCodeCopy : gasFunc := fun gt memorySize =>
  gas ← memoryGasCost memorySize;
  gas ← checked (SafeAdd gas (Params.ExtcodeCopy gt));
  l ← Back 3;
  wordGas ← checked (bigUint64 l);
  wordGas ← checked (SafeMul (toWordSize wordGas) Params.CopyGas);
  checked (SafeAdd gas wordGas).

Definition gasMLoad : gasFunc := fun gt memorySize =>
  gas ← memoryGasCost memorySize;
  checked (SafeAdd gas GasFastestStep).
Definition gasMStore8 : gasFunc := fun gt memorySize =>
  gas ← memoryGasCost memorySize;
  checked (SafeAdd gas GasFastestStep).
Definition gasMStore : gasFunc := fun gt memorySize =>
  gas ← memoryGasCost memorySize;
  checked (SafeAdd gas GasFastestStep).

Definition gasCreate : gasFunc := fun gt memorySize =>
  gas ← memoryGasCost memorySize;
  checked (SafeAdd gas Params.CreateGas).

Definition gasBalance : gasFunc := fun gt _ => mret (Params.Balance gt).
Definition gasExtCodeSize : gasFunc := fun gt _ => mret (Params.ExtcodeSize gt).
Definition gasSLoad : gasFunc := fun gt _ => mret (Params.SLoad gt).

Definition gasExp : gasFunc := fun gt memorySize =>
  exponent ← Back 1;
  let expByteLen := (Big.BitLen exponent + 7) / 8 in
  let gas := u64 (expByteLen * Params.ExpByte gt) in
  checked (SafeAdd gas GasSlowStep).

(** [stack.data[stack.len()-1] = new(big.Int).SetUint64(cg)] *)
Definition set_top (v : Z) : VM S unit :=
  st ← gets stack; st ← unwrap (zset st 0 v); modify (fun f => with_stack f st).

Definition gasCall : gasFunc := fun gt memorySize =>
  v ← Back 2;
  let transfersValue := negb (Big.Sign v =? 0) in
  a ← Back 1;
  let address := Common.BigToAddress a in
  empty ← db_get (Empty address);
  let gas := Params.Calls gt in
  let gas := if (empty : bool) && transfersValue then u64 (gas + Params.CallNewAccountGas) else gas in
  let gas := if transfersValue then u64 (gas + Params.CallValueTransferGas) else gas in
  memoryGas ← memoryGasCost memorySize;
  gas ← checked (SafeAdd gas memoryGas);
  avail ← gets (fun f => f.(contract).(Gas));
  callCost ← Back 0;
  cg ← lift (callGas gt avail gas callCost);
  _ ← set_top cg;
  checked (SafeAdd gas cg).

Definition gasCallCode : gasFunc := fun gt memorySize =>
  v ← Back 2;
  let gas := Params.Calls gt in
  let gas := if negb (Big.Sign v =? 0) then u64 (gas + Params.CallValueTransferGas) else gas in
  memoryGas ← memoryGasCost memorySize;
  gas ← checked (SafeAdd gas memoryGas);
  avail ← gets (fun f => f.(contract).(Gas));
  callCost ← Back 0;
  cg ← lift (callGas gt avail gas callCost);
  _ ← set_top cg;
  checked (SafeAdd gas cg).

Definition gasReturn : gasFunc := fun gt memorySize => memoryGasCost memorySize.

Definition gasSuicide : gasFunc := fun gt memorySize =>
  a ← Back 0;
  let address := Common.BigToAddress a in
  me ← gets (fun f => f.(contract).(self));
  empty ← db_get (Empty address);
  balance ← (if (empty : bool) then db_get (GetBalance me) else mret 0);
  let gas := Params.Suicide gt in
  let gas := if (empty : bool) && negb (Big.Sign balance =? 0)
             then u64 (gas + Params.CreateBySuicide gt) else gas in
  suicided ← db_get (HasSuicided me);
  _ ← (if (suicided : bool) then mret tt else db_do (AddRefund Params.SuicideRefundGas));
  mret gas.

Definition gasDelegateCall : gasFunc := fun gt memorySize =>
  gas ← memoryGasCost memorySize;
  gas ← checked (SafeAdd gas (Params.Calls gt));
  avail ← gets (fun f => f.(contract).(Gas));
  callCost ← Back 0;
  cg ← lift (callGas gt avail gas callCost);
  _ ← set_top cg;
  checked (SafeAdd gas cg).

Definition gasPush : gasFunc := fun _ _ => mret GasFastestStep.
Definition gasSwap : gasFunc := fun _ _ => mret GasFastestStep.
Definition gasDup : gasFunc := fun _ _ => mret GasFastestStep.

End gas_table.
