(* ===== verification/VmLogic.v ===== *)
(** Program logic for the virtual machine.

    [wp m Q R f]: run from frame [f], [m] does not panic and does not exhaust a
    recursion bound; a normal result satisfies [Q], and a frame left with an
    error satisfies [R].  The rules for stack, memory and database access are
    followed by the well-formedness conditions the safety proofs carry. *)
From S2P Require Import Prelude GoBig CommonMath CommonTypes Params VmTypes StateSpec VmGas.
Import Math.

(** ** Words *)

Definition word (x : Z) : Prop := 0 <= x < 2 ^ 256.

Create HintDb words.

Lemma word_0 : word 0.
Proof. unfold word. lia. Qed.
Lemma word_1 : word 1.
Proof. unfold word. lia. Qed.
Lemma word_U256 x : word (U256 x).
Proof. apply U256_range. Qed.
Lemma word_small x n : 0 <= x < 2 ^ n -> n <= 256 -> word x.
Proof.
  intros [? Hx] Hn. split; [done|]. eapply Z.lt_le_trans; [done|].
  apply Z.pow_le_mono_r; lia.
Qed.

Lemma word_testbit x : 0 <= x -> (forall n, 256 <= n -> Z.testbit x n = false) -> word x.
Proof.
  intros Hx Hbits. split; [done|]. destruct (decide (x = 0)) as [->|]; [lia|].
  apply Z.log2_lt_pow2; [lia|]. destruct (decide (Z.log2 x < 256)); [done|].
  specialize (Hbits (Z.log2 x) ltac:(lia)). rewrite Z.bit_log2 in Hbits by lia. done.
Qed.

Lemma word_high x n : word x -> 256 <= n -> Z.testbit x n = false.
Proof.
  intros [? ?] ?. destruct (decide (x = 0)) as [->|]; [by rewrite Z.bits_0|].
  apply Z.bits_above_log2; [lia|]. apply Z.log2_lt_pow2; [lia|].
  eapply Z.lt_le_trans; [done|]. apply Z.pow_le_mono_r; lia.
Qed.

Lemma word_land x y : word x -> word y -> word (Z.land x y).
Proof.
  intros Hx Hy. apply word_testbit; [apply Z.land_nonneg; left; apply Hx|].
  intros. by rewrite Z.land_spec, word_high.
Qed.
Lemma word_lor x y : word x -> word y -> word (Z.lor x y).
Proof.
  intros Hx Hy. apply word_testbit; [apply Z.lor_nonneg; split; [apply Hx|apply Hy]|].
  intros. by rewrite Z.lor_spec, !word_high.
Qed.
Lemma word_lxor x y : word x -> word y -> word (Z.lxor x y).
Proof.
  intros Hx Hy. apply word_testbit.
  - apply Z.lxor_nonneg. split; intros; [apply Hy|apply Hx].
  - intros. by rewrite Z.lxor_spec, !word_high.
Qed.

Lemma word_SetBytes b : is_bytes b -> zlen b <= 32 -> word (Big.SetBytes b).
Proof.
  intros Hb Hl. pose proof (Big.SetBytes_bound b Hb) as [? Hlt]. split; [done|].
  eapply Z.lt_le_trans; [done|]. change (2 ^ 256) with (256 ^ 32).
  apply Z.pow_le_mono_r; lia.
Qed.
Lemma word_Hash_Big h : Common.is_array 32 h -> word (Common.Hash_Big h).
Proof. intros [? ?]. apply word_SetBytes; [done|lia]. Qed.
Lemma word_Address_Big a : Common.is_array 20 a -> word (Common.Address_Big a).
Proof. intros [? ?]. apply word_SetBytes; [done|lia]. Qed.
Lemma word_zlen {A} (l : list A) : zlen l < 2 ^ 63 -> word (zlen l).
Proof. intros. apply (word_small _ 63); [|lia]. auto using zlen_nonneg. Qed.

Lemma word_Exp x y : word (Exp x y).
Proof. apply Exp_range. Qed.
Lemma word_byte b : is_byte b -> word b.
Proof. unfold is_byte, word. lia. Qed.
Lemma word_u64 x : 0 <= x < 2 ^ 64 -> word x.
Proof. intros. apply (word_small _ 64); [done|lia]. Qed.

#[export] Hint Resolve word_Exp word_byte word_u64 : words.
#[export] Hint Resolve word_0 word_1 word_U256 word_land word_lor word_lxor
  word_Hash_Big word_Address_Big word_zlen : words.

(** ** Weakest preconditions *)
Section wp.
Context {S : Type}.

Definition wp {A} (m : VM S A) (Q : A -> Frame S -> Prop) (R : Frame S -> Prop)
    (f : Frame S) : Prop :=
  match m f with
  | (Done a, f') => Q a f'
  | (Error _, f') => R f'
  | _ => False
  end.

Lemma wp_bind {A C} (m : VM S A) (k : A -> VM S C) Q R f :
  wp m (fun a => wp (k a) Q R) R f -> wp (m ≫= k) Q R f.
Proof. unfold wp, mbind, SM_bind. by destruct (m f) as [[]]. Qed.

Lemma wp_mono {A} (m : VM S A) (Q Q' : A -> Frame S -> Prop) (R R' : Frame S -> Prop) f :
  wp m Q R f -> (forall a f', Q a f' -> Q' a f') -> (forall f', R f' -> R' f') ->
  wp m Q' R' f.
Proof. unfold wp. destruct (m f) as [[]]; auto. Qed.

Lemma wp_ret {A} (a : A) (Q : A -> Frame S -> Prop) R f : Q a f -> wp (mret a) Q R f.
Proof. done. Qed.
Lemma wp_gets {A} (g : Frame S -> A) (Q : A -> Frame S -> Prop) R f :
  Q (g f) f -> wp (gets g) Q R f.
Proof. done. Qed.
Lemma wp_modify g (Q : unit -> Frame S -> Prop) R f : Q tt (g f) -> wp (modify g) Q R f.
Proof. done. Qed.
Lemma wp_throw {A} e (Q : A -> Frame S -> Prop) (R : Frame S -> Prop) f :
  R f -> wp (throw e) Q R f.
Proof. done. Qed.
Lemma wp_unwrap {A} (o : option A) a (Q : A -> Frame S -> Prop) R f :
  o = Some a -> Q a f -> wp (unwrap o) Q R f.
Proof. by intros ->. Qed.

Lemma wp_pop x st p c m w (Q : Z -> Frame S -> Prop) R :
  Q x (Build_Frame p c m st w) -> wp pop Q R (Build_Frame p c m (x :: st) w).
Proof. done. Qed.
Lemma wp_push d p c m st w (Q : unit -> Frame S -> Prop) R :
  Q tt (Build_Frame p c m (d :: st) w) -> wp (push d) Q R (Build_Frame p c m st w).
Proof. done. Qed.
Lemma wp_Back n x f (Q : Z -> Frame S -> Prop) R :
  zget f.(stack) n = Some x -> Q x f -> wp (Back n) Q R f.
Proof. intros Hx HQ. unfold Back. apply wp_bind, wp_gets. by apply (wp_unwrap _ x). Qed.

Lemma wp_checked r (Q : Z -> Frame S -> Prop) (R : Frame S -> Prop) f :
  (snd r = false -> Q (fst r) f) -> R f -> wp (checked r) Q R f.
Proof. intros HQ HR. destruct r as [x []]; [exact HR|by apply HQ]. Qed.
End wp.

(** ** Database access *)
Section database.
Context {S : Type} {DB : StateDB S} {CR : Crypto} {SL : StateLaws S}.

Abbreviation Keeps := (keeps view inv).

Lemma keeps_refl s : inv s -> Keeps s s.
Proof. by split. Qed.
Lemma keeps_trans s1 s2 s3 : Keeps s1 s2 -> Keeps s2 s3 -> Keeps s1 s3.
Proof. intros [? H1] [? H2]. split; auto. Qed.

Lemma reads_run {A} (g : S -> A * S) val s :
  reads view inv g val -> inv s ->
  exists s', g s = (val (view s), s') /\ view s' = view s /\ Keeps s s'.
Proof.
  intros Hg Hs. destruct (Hg s Hs) as (Hval&Hv&Hk). exists (snd (g s)).
  split; [|done]. rewrite <- Hval. by destruct (g s).
Qed.

(** A bound [B] on the funds in circulation. *)
Variable B : Z.

Definition world_ok (w : World S) : Prop :=
  inv w.(statedb) /\ view_ok B (view w.(statedb)) /\ 0 <= w.(depth).

(** [w'] follows [w]: same depth, well-formed, older snapshots still good. *)
Definition later (w w' : World S) : Prop :=
  Keeps w.(statedb) w'.(statedb) /\ view_ok B (view w'.(statedb)) /\ w'.(depth) = w.(depth).

Lemma later_refl w : world_ok w -> later w w.
Proof. intros (?&?&?). split_and!; auto using keeps_refl. Qed.
Lemma later_trans w1 w2 w3 : later w1 w2 -> later w2 w3 -> later w1 w3.
Proof. intros (?&?&?) (?&?&?). split_and!; [by eapply keeps_trans|done|congruence]. Qed.
Lemma later_ok w w' : world_ok w -> later w w' -> world_ok w'.
Proof. intros (?&?&?) ([? ?]&?&Hd). split_and!; [done..|]. by rewrite Hd. Qed.

(** Changes of the shared state that do not concern the database. *)
Lemma later_cache w w' d : later w w' -> later w (with_jumpdests w' d).
Proof. done. Qed.

Lemma wp_db_get {A} (g : S -> A * S) val (Q : A -> Frame S -> Prop) R p c m st w :
  reads view inv g val -> world_ok w ->
  (forall w', later w w' -> view w'.(statedb) = view w.(statedb) ->
     Q (val (view w.(statedb))) (Build_Frame p c m st w')) ->
  wp (db_get g) Q R (Build_Frame p c m st w).
Proof.
  intros Hg (Hi&Hv&?) HQ. destruct (reads_run _ _ _ Hg Hi) as (s'&Hs'&Hview&Hk).
  unfold wp, db_get. simpl. rewrite Hs'. apply HQ; [|done].
  split_and!; [done| |done]. simpl. by rewrite Hview.
Qed.

Lemma wp_db_do (g : S -> S) h (Q : unit -> Frame S -> Prop) R p c m st w :
  writes view inv g h -> world_ok w -> view_ok B (h (view w.(statedb))) ->
  (forall w', later w w' -> view w'.(statedb) = h (view w.(statedb)) ->
     Q tt (Build_Frame p c m st w')) ->
  wp (db_do g) Q R (Build_Frame p c m st w).
Proof.
  intros Hg (Hi&Hv&?) Hok HQ. destruct (Hg _ Hi) as [Hview Hk].
  apply HQ; [|done]. split_and!; [done| |done]. simpl. by rewrite Hview.
Qed.
End database.

(** ** Memory *)

Lemma calcMemSize_pos off l : 0 < l -> calcMemSize off l = off + l.
Proof.
  intros. unfold calcMemSize, Big.Sign. case_match; [|done].
  bool_to_prop. rewrite Z.sgn_pos in * by lia. done.
Qed.

(** Access to a range that the memory covers. *)
Section memory.
Variables (m : Memory.t) (off size : Z).
Hypothesis Hbytes : is_bytes m.(Memory.store).
Hypothesis Hlen : Memory.Len m < 2 ^ 63.
Hypothesis Hoff : 0 <= off.
Hypothesis Hsize : 0 <= size.
Hypothesis Hcover : calcMemSize off size <= Memory.Len m.

Lemma memory_Get_ok :
  Memory.Get m (Big.Int64 off) (Big.Int64 size) =
    Some (if size =? 0 then [] else ztake size (zdrop off m.(Memory.store))).
Proof.
  unfold Memory.Get. destruct (decide (size = 0)) as [->|Hne]; [done|].
  rewrite calcMemSize_pos in Hcover by lia. pose proof (zlen_nonneg m.(Memory.store)).
  unfold Memory.Len in *.
  rewrite !Big.Int64_small by lia. rewrite !(proj2 (Z.eqb_neq _ _)) by lia.
  rewrite Z.gtb_ltb, (proj2 (Z.ltb_lt _ _)), (proj2 (Z.leb_le _ _)) by lia. simpl.
  rewrite i64_small, slice_Some by lia. simpl.
  replace (off + size - off) with size by lia. f_equal. apply gocopy_same.
  apply Nat2Z.inj. fold (zlen (ztake size (zdrop off m.(Memory.store)))).
  fold (zlen (zeros size)). autorewrite with golib. lia.
Qed.

Lemma memory_GetPtr_ok :
  Memory.GetPtr m (Big.Int64 off) (Big.Int64 size) =
    Some (if size =? 0 then [] else ztake size (zdrop off m.(Memory.store))).
Proof.
  unfold Memory.GetPtr. destruct (decide (size = 0)) as [->|Hne]; [done|].
  rewrite calcMemSize_pos in Hcover by lia. pose proof (zlen_nonneg m.(Memory.store)).
  unfold Memory.Len in *.
  rewrite !Big.Int64_small by lia. rewrite !(proj2 (Z.eqb_neq _ _)) by lia.
  rewrite Z.gtb_ltb, (proj2 (Z.ltb_lt _ _)) by lia.
  rewrite i64_small, slice_Some by lia. by replace (off + size - off) with size by lia.
Qed.

Lemma memory_range_ok :
  let d := if size =? 0 then [] else ztake size (zdrop off m.(Memory.store)) in
  is_bytes d /\ zlen d = size.
Proof.
  simpl. case_match; bool_to_prop; [subst; split; [constructor|done]|].
  rewrite calcMemSize_pos in Hcover by lia. unfold Memory.Len in *.
  split; [auto with golib|]. autorewrite with golib. lia.
Qed.

Lemma memory_Set_ok v : is_bytes v ->
  exists m', Memory.Set_ m (Big.Uint64 off) (Big.Uint64 size) v = Some m' /\ is_bytes m'.(Memory.store) /\ Memory.Len m' = Memory.Len m /\ Memory.lastGasCost m' = Memory.lastGasCost m.
Proof.
  intros Hv. unfold Memory.Set_. pose proof (zlen_nonneg m.(Memory.store)).
  destruct (decide (size = 0)) as [->|Hne].
  { exists m. unfold Memory.Len in *. change (Big.Uint64 0) with 0.
    rewrite Z.gtb_ltb, (proj2 (Z.ltb_ge _ _)) by lia. done. }
  rewrite calcMemSize_pos in Hcover by lia. unfold Memory.Len in *.
  rewrite !Big.Uint64_small, !Z.gtb_ltb by lia.
  rewrite (proj2 (Z.ltb_ge _ _)), (proj2 (Z.ltb_lt _ _)), u64_small by lia.
  rewrite !(proj2 (Z.leb_le _ _)) by lia. eexists. split; [done|].
  split_and!; simpl; auto with golib. by rewrite zlen_copy_at by lia.
Qed.
End memory.

(** ** Reading code and call data *)

Lemma getData_spec data start size :
  zlen data < 2 ^ 63 -> 0 <= start -> 0 <= size < 2 ^ 63 ->
  getData data start size = Some (Common.RightPadBytes (ztake size (zdrop start data)) size).
Proof.
  intros Hd Hs Hz. pose proof (zlen_nonneg data) as Hn. unfold getData.
  assert (Hmin : forall x, 0 <= x -> BigMin x (zlen data) = Z.min x (zlen data)).
  { intros x _. unfold BigMin. rewrite Z.gtb_ltb. case_match; bool_to_prop; lia. }
  rewrite !Hmin by lia. rewrite !Big.Uint64_small, i64_small by lia.
  rewrite slice_Some by lia. simpl. f_equal. f_equal.
  destruct (Z.le_gt_cases start (zlen data)) as [Hle|Hgt].
  - rewrite (Z.min_l start) by done. unfold ztake, zdrop.
    destruct (Z.le_gt_cases (start + size) (zlen data)).
    + f_equal. lia.
    + rewrite !take_ge; [done| |]; rewrite length_drop; unfold zlen in *; lia.
  - rewrite (Z.min_r start) by lia. unfold ztake, zdrop, zlen.
    rewrite !drop_ge by (unfold zlen in *; lia). by rewrite !take_nil.
Qed.

Lemma getData_ok data start size :
  is_bytes data -> zlen data < 2 ^ 63 -> 0 <= start -> 0 <= size < 2 ^ 63 ->
  exists d, getData data start size = Some d /\ is_bytes d /\ zlen d = size.
Proof.
  intros. rewrite getData_spec by done. eexists. split; [done|].
  split; [apply Common.is_bytes_RightPadBytes; auto with golib|].
  apply Common.zlen_RightPadBytes. autorewrite with golib. lia.
Qed.
