(* ===== verification/VmInstr.v ===== *)
(** [core/vm/instructions.go]: the instructions.

    An instruction runs on the [Frame] of the running contract and returns the
    bytes of the source's first result.  Integers taken from and put back into
    the integer pool do not appear.  The four instructions that start another
    contract use the [Calls] argument. *)
From S2P Require Import Prelude GoBig CommonMath CommonTypes Params VmTypes VmGas.
Import Math.

Section instructions.
Context {S : Type} {DB : StateDB S} {CR : Crypto}.
Variable ctx : Context S.
Variable cfg : Config.

Abbreviation executionFunc := (VM S bytes).

(** [return nil, nil] *)
Definition ret_nil : executionFunc := mret [].

Definition opAdd : executionFunc :=
  x ← pop; y ← pop; _ ← push (U256 (x + y)); ret_nil.
Definition opSub : executionFunc :=
  x ← pop; y ← pop; _ ← push (U256 (x - y)); ret_nil.
Definition opMul : executionFunc :=
  x ← pop; y ← pop; _ ← push (U256 (x * y)); ret_nil.
Definition opDiv : executionFunc :=
  x ← pop; y ← pop;
  _ ← (if negb (Big.Sign y =? 0) then push (U256 (Big.Div x y)) else push 0);
  ret_nil.

Definition opSdiv : executionFunc :=
  x ← pop; y ← pop;
  let x := S256 x in let y := S256 y in
  if Big.Sign y =? 0 then _ ← push 0; ret_nil
  else
    let n := if Big.Sign (x * y) <? 0 then -1 else 1 in
    let res := Big.Div (Z.abs x) (Z.abs y) in
    let res := res * n in
    _ ← push (U256 res); ret_nil.

Definition opMod : executionFunc :=
  x ← pop; y ← pop;
  _ ← (if Big.Sign y =? 0 then push 0 else push (U256 (Big.Mod x y)));
  ret_nil.

Definition opSmod : executionFunc :=
  x ← pop; y ← pop;
  let x := S256 x in let y := S256 y in
  _ ← (if Big.Sign y =? 0 then push 0
       else
         let n := if Big.Sign x <? 0 then -1 else 1 in
         let res := Big.Mod (Z.abs x) (Z.abs y) in
         let res := res * n in
         push (U256 res));
  ret_nil.

Definition opExp : executionFunc :=
  base ← pop; exponent ← pop; _ ← push (Exp base exponent); ret_nil.

Definition opSignExtend : executionFunc :=
  back ← pop;
  _ ← (if back <? 31 then
         let bit := u64 (Big.Uint64 back * 8 + 7) in
         num ← pop;
         let mask := Z.shiftl 1 bit in
         let mask := mask - 1 in
         let num := if Z.testbit num bit then Z.lor num (Z.lnot mask) else Z.land num mask in
         push (U256 num)
       else mret tt);
  ret_nil.

Definition opNot : executionFunc := x ← pop; _ ← push (U256 (Z.lnot x)); ret_nil.

Definition opLt : executionFunc :=
  x ← pop; y ← pop; _ ← (if x <? y then push 1 else push 0); ret_nil.
Definition opGt : executionFunc :=
  x ← pop; y ← pop; _ ← (if x >? y then push 1 else push 0); ret_nil.
Definition opSlt : executionFunc :=
  x ← pop; y ← pop;
  let x := S256 x in let y := S256 y in
  _ ← (if x <? S256 y then push 1 else push 0); ret_nil.
Definition opSgt : executionFunc :=
  x ← pop; y ← pop;
  let x := S256 x in let y := S256 y in
  _ ← (if x >? y then push 1 else push 0); ret_nil.
Definition opEq : executionFunc :=
  x ← pop; y ← pop; _ ← (if x =? y then push 1 else push 0); ret_nil.
Definition opIszero : executionFunc :=
  x ← pop; _ ← (if Big.Sign x >? 0 then push 0 else push 1); ret_nil.

Definition opAnd : executionFunc := x ← pop; y ← pop; _ ← push (Z.land x y); ret_nil.
Definition opOr : executionFunc := x ← pop; y ← pop; _ ← push (Z.lor x y); ret_nil.
Definition opXor : executionFunc := x ← pop; y ← pop; _ ← push (Z.lxor x y); ret_nil.

Definition opByte : executionFunc :=
  th ← pop; val ← pop;
  _ ← (if th <? 32 then
         b ← unwrap (zget (PaddedBigBytes val 32) (Big.Int64 th)); push b
       else push 0);
  ret_nil.

Definition opAddmod : executionFunc :=
  x ← pop; y ← pop; z ← pop;
  _ ← (if z >? 0 then push (U256 (Big.Mod (x + y) z)) else push 0);
  ret_nil.
Definition opMulmod : executionFunc :=
  x ← pop; y ← pop; z ← pop;
  _ ← (if z >? 0 then push (U256 (Big.Mod (x * y) z)) else push 0);
  ret_nil.

Definition opSha3 : executionFunc :=
  offset ← pop; size ← pop;
  data ← mem_get (Big.Int64 offset) (Big.Int64 size);
  let hash := Keccak256 data in
  _ ← (if EnablePreimageRecording cfg
       then db_do (AddPreimage (Common.BytesToHash hash) data) else mret tt);
  _ ← push (Big.SetBytes hash);
  ret_nil.

(** *** Environment *)

Definition opAddress : executionFunc :=
  c ← gets contract; _ ← push (Common.Address_Big c.(self)); ret_nil.
Definition opBalance : executionFunc :=
  a ← pop;
  balance ← db_get (GetBalance (Common.BigToAddress a));
  _ ← push balance; ret_nil.
Definition opOrigin : executionFunc := _ ← push (Common.Address_Big (Origin ctx)); ret_nil.
Definition opCaller : executionFunc :=
  c ← gets contract; _ ← push (Common.Address_Big c.(CallerAddress)); ret_nil.
Definition opCallValue : executionFunc :=
  c ← gets contract; _ ← push c.(value); ret_nil.
Definition opCalldataLoad : executionFunc :=
  c ← gets contract; off ← pop;
  d ← unwrap (getData c.(Input) off 32);
  _ ← push (Big.SetBytes d); ret_nil.
Definition opCalldataSize : executionFunc :=
  c ← gets contract; _ ← push (zlen c.(Input)); ret_nil.

Definition opCalldataCopy : executionFunc :=
  mOff ← pop; cOff ← pop; l ← pop;
  c ← gets contract;
  d ← unwrap (getData c.(Input) cOff l);
  _ ← mem_set (Big.Uint64 mOff) (Big.Uint64 l) d; ret_nil.

Definition opExtCodeSize : executionFunc :=
  a ← pop;
  n ← db_get (GetCodeSize (Common.BigToAddress a));
  _ ← push n; ret_nil.
Definition opCodeSize : executionFunc :=
  c ← gets contract; _ ← push (zlen c.(Code)); ret_nil.

Definition opCodeCopy : executionFunc :=
  mOff ← pop; cOff ← pop; l ← pop;
  c ← gets contract;
  codeCopy ← unwrap (getData c.(Code) cOff l);
  _ ← mem_set (Big.Uint64 mOff) (Big.Uint64 l) codeCopy; ret_nil.

Definition opExtCodeCopy : executionFunc :=
  addr ← pop;
  mOff ← pop; cOff ← pop; l ← pop;
  code ← db_get (GetCode (Common.BigToAddress addr));
  codeCopy ← unwrap (getData code cOff l);
  _ ← mem_set (Big.Uint64 mOff) (Big.Uint64 l) codeCopy; ret_nil.

Definition opGasprice : executionFunc := _ ← push (GasPrice ctx); ret_nil.

Definition opBlockhash : executionFunc :=
  num ← pop;
  let n := BlockNumber ctx - 257 in
  _ ← (if (num >? n) && (num <? BlockNumber ctx)
       then push (Common.Hash_Big (GetHash ctx (Big.Uint64 num))) else push 0);
  ret_nil.

Definition opCoinbase : executionFunc := _ ← push (Common.Address_Big (Coinbase ctx)); ret_nil.
Definition opTimestamp : executionFunc := _ ← push (U256 (Time ctx)); ret_nil.
Definition opNumber : executionFunc := _ ← push (U256 (BlockNumber ctx)); ret_nil.
Definition opDifficulty : executionFunc := _ ← push (U256 (Difficulty ctx)); ret_nil.
Definition opGasLimit : executionFunc := _ ← push (U256 (GasLimit ctx)); ret_nil.

(** *** Stack, memory, storage and flow *)

Definition opPop : executionFunc := _ ← pop; ret_nil.

Definition opMload : executionFunc :=
  offset ← pop;
  d ← mem_get (Big.Int64 offset) 32;
  _ ← push (Big.SetBytes d); ret_nil.
Definition opMstore : executionFunc :=
  mStart ← pop; val ← pop;
  _ ← mem_set (Big.Uint64 mStart) 32 (PaddedBigBytes val 32); ret_nil.
Definition opMstore8 : executionFunc :=
  off ← pop; val ← pop;
  m ← gets mem;
  m ← unwrap (Memory.set_byte m (Big.Int64 off) (u8 (Z.land (Big.Int64 val) 0xff)));
  _ ← modify (fun f => with_mem f m); ret_nil.

Definition opSload : executionFunc :=
  x ← pop;
  c ← gets contract;
  val ← db_get (GetState c.(self) (Common.BigToHash x));
  _ ← push (Common.Hash_Big val); ret_nil.
Definition opSstore : executionFunc :=
  x ← pop; val ← pop;
  c ← gets contract;
  _ ← db_do (SetState c.(self) (Common.BigToHash x) (Common.BigToHash val)); ret_nil.

(** [contract.jumpdests.has(contract.CodeHash, contract.Code, pos)] *)
Definition valid_dest (pos : Z) : VM S bool := fun f =>
  let c := f.(contract) in
  let '(ok, d) := has f.(world).(jumpdests) c.(CodeHash) c.(Code) pos in
  (Done ok, with_world f (with_jumpdests f.(world) d)).

Definition opJump : executionFunc :=
  pos ← pop;
  ok ← valid_dest pos;
  if negb (ok : bool) then
    c ← gets contract;
    throw (errInvalidJump (GetOp c (Big.Uint64 pos)) pos)
  else
    _ ← modify (fun f => with_pc f (Big.Uint64 pos)); ret_nil.

Definition opJumpi : executionFunc :=
  pos ← pop; cond ← pop;
  if negb (Big.Sign cond =? 0) then
    ok ← valid_dest pos;
    if negb (ok : bool) then
      c ← gets contract;
      throw (errInvalidJump (GetOp c (Big.Uint64 pos)) pos)
    else
      _ ← modify (fun f => with_pc f (Big.Uint64 pos)); ret_nil
  else
    _ ← modify (fun f => with_pc f (u64 (f.(pc) + 1))); ret_nil.

Definition opJumpdest : executionFunc := ret_nil.
Definition opPc : executionFunc := p ← gets pc; _ ← push p; ret_nil.
Definition opMsize : executionFunc := m ← gets mem; _ ← push (Memory.Len m); ret_nil.
Definition opGas : executionFunc := c ← gets contract; _ ← push c.(Gas); ret_nil.

(** *** Instructions that start another contract *)

Definition opCreate (calls : Calls S) : executionFunc :=
  value ← pop; offset ← pop; size ← pop;
  input ← mem_get (Big.Int64 offset) (Big.Int64 size);
  c ← gets contract;
  let gas := c.(Gas) in
  let gas := u64 (gas - gas / 64) in
  _ ← use_gas gas;
  '(_, addr, returnGas, suberr) ← on_world (do_Create calls (contract_ref c) input gas value);
  _ ← (if bool_decide (suberr = Some ErrCodeStoreOutOfGas) then push 0
       else if bool_decide (suberr ≠ None) && bool_decide (suberr ≠ Some ErrCodeStoreOutOfGas)
       then push 0
       else push (Common.Address_Big addr));
  _ ← add_gas returnGas; ret_nil.

(** The common end of the call instructions: the success flag and the returned
    bytes. *)
Definition finish_call (retOffset retSize : Z) (r : bytes * Z * option vmerror) : VM S unit :=
  let '(ret, returnGas, err) := r in
  _ ← (match err with
       | Some _ => push 0
       | None => _ ← push 1; mem_set (Big.Uint64 retOffset) (Big.Uint64 retSize) ret
       end);
  add_gas returnGas.

Definition opCall (calls : Calls S) : executionFunc :=
  g ← pop; addr ← pop; value ← pop;
  let gas := Big.Uint64 g in
  let value := U256 value in
  inOffset ← pop; inSize ← pop;
  retOffset ← pop; retSize ← pop;
  let address := Common.BigToAddress addr in
  args ← mem_get (Big.Int64 inOffset) (Big.Int64 inSize);
  let gas := if negb (Big.Sign value =? 0) then u64 (gas + Params.CallStipend) else gas in
  c ← gets contract;
  r ← on_world (do_Call calls (contract_ref c) address args gas value);
  _ ← finish_call retOffset retSize r; ret_nil.

Definition opCallCode (calls : Calls S) : executionFunc :=
  g ← pop; addr ← pop; value ← pop;
  let gas := Big.Uint64 g in
  let value := U256 value in
  inOffset ← pop; inSize ← pop;
  retOffset ← pop; retSize ← pop;
  let address := Common.BigToAddress addr in
  args ← mem_get (Big.Int64 inOffset) (Big.Int64 inSize);
  let gas := if negb (Big.Sign value =? 0) then u64 (gas + Params.CallStipend) else gas in
  c ← gets contract;
  r ← on_world (do_CallCode calls (contract_ref c) address args gas value);
  _ ← finish_call retOffset retSize r; ret_nil.

Definition opDelegateCall (calls : Calls S) : executionFunc :=
  g ← pop; to ← pop; inOffset ← pop; inSize ← pop; outOffset ← pop; outSize ← pop;
  let gas := Big.Uint64 g in
  let toAddr := Common.BigToAddress to in
  args ← mem_get (Big.Int64 inOffset) (Big.Int64 inSize);
  c ← gets contract;
  r ← on_world (do_DelegateCall calls (contract_ref c) toAddr args gas);
  _ ← finish_call outOffset outSize r; ret_nil.

Definition opReturn : executionFunc :=
  offset ← pop; size ← pop;
  m ← gets mem;
  unwrap (Memory.GetPtr m (Big.Int64 offset) (Big.Int64 size)).

Definition opStop : executionFunc := ret_nil.

Definition opSuicide : executionFunc :=
  c ← gets contract;
  balance ← db_get (GetBalance c.(self));
  a ← pop;
  _ ← db_do (AddBalance (Common.BigToAddress a) balance);
  _ ← db_get (Suicide c.(self)); ret_nil.

(** *** Instruction families *)

Fixpoint pop_topics (n : nat) : VM S (list Hash) :=
  match n with
  | O => mret []
  | Datatypes.S n => x ← pop; topics ← pop_topics n; mret (Common.BigToHash x :: topics)
  end.

Definition makeLog (size : Z) : executionFunc :=
  mStart ← pop; mSize ← pop;
  topics ← pop_topics (Z.to_nat size);
  d ← mem_get (Big.Int64 mStart) (Big.Int64 mSize);
  c ← gets contract;
  _ ← db_do (AddLog {| log_Address := c.(self); log_Topics := topics; log_Data := d;
        log_BlockNumber := Big.Uint64 (BlockNumber ctx); log_TxHash := Common.zeroHash;
        log_TxIndex := 0; log_BlockHash := Common.zeroHash; log_Index := 0;
        log_Removed := false |});
  ret_nil.

Definition makePush (size bsize : Z) : executionFunc :=
  p ← gets pc;
  c ← gets contract;
  byts ← unwrap (getData c.(Code) (u64 (p + 1)) bsize);
  _ ← push (Big.SetBytes byts);
  _ ← modify (fun f => with_pc f (u64 (f.(pc) + size))); ret_nil.

Definition makeDup (size : Z) : executionFunc := _ ← dup size; ret_nil.
Definition makeSwap (size : Z) : executionFunc := let size := size + 1 in _ ← swap size; ret_nil.

End instructions.
