(* ===== verification/VmSpec.v ===== *)
(** What single instructions compute: word arithmetic as integers modulo [2^256]
    and as two's complement, memory and storage as read-after-write, jump
    destinations as instruction boundaries, the memory fee as a quadratic. *)
From S2P Require Import Prelude GoBig CommonMath CommonTypes Params VmTypes StateSpec VmOpcodes VmGas.
From S2P Require Import VmLogic VmInstr.
Import Math.

(** ** Words *)

(** The two's complement reading of a word, and back. *)
Definition signed (x : Z) : Z := if x <? 2 ^ 255 then x else x - 2 ^ 256.
Definition to_word (x : Z) : Z := x mod 2 ^ 256.
Definition flag (b : bool) : Z := if b then 1 else 0.

Lemma S256_signed x : S256 x = signed x.
Proof. done. Qed.

Lemma U256_to_word x : U256 x = to_word x.
Proof. apply U256_mod. Qed.

Lemma Sign_zero x : (Big.Sign x =? 0) = (x =? 0).
Proof. by destruct x. Qed.

Lemma Sign_neg x : (Big.Sign x <? 0) = (x <? 0).
Proof. by destruct x. Qed.

Lemma signed_small x : - 2 ^ 255 <= x < 2 ^ 255 -> signed x = x.
Proof. intros. unfold signed. by rewrite (proj2 (Z.ltb_lt _ _)) by lia. Qed.

Lemma signed_range x : word x -> - 2 ^ 255 <= signed x < 2 ^ 255.
Proof. unfold word, signed. intros. case_match; bool_to_prop; lia. Qed.

(** Quotient and remainder rounded towards zero, as the instructions compute them. *)
Lemma quot_sign x y : y <> 0 ->
  Big.Div (Z.abs x) (Z.abs y) * (if x * y <? 0 then -1 else 1) = Z.quot x y.
Proof.
  intros Hy. unfold Big.Div. rewrite (proj2 (Z.ltb_ge _ _)) by lia.
  rewrite Z.quot_div by done. destruct (x * y <? 0) eqn:E; bool_to_prop.
  - rewrite <- Z.sgn_neg_iff, Z.sgn_mul in E. lia.
  - destruct (Z.eq_dec x 0) as [->|Hx]; [by rewrite Z.div_0_l by lia|].
    assert (Z.sgn (x * y) = 1) by (apply Z.sgn_pos_iff; nia). rewrite Z.sgn_mul in H. lia.
Qed.

Lemma rem_sign x y : y <> 0 ->
  Big.Mod (Z.abs x) (Z.abs y) * (if x <? 0 then -1 else 1) = Z.rem x y.
Proof.
  intros Hy. unfold Big.Mod. rewrite Z.abs_involutive, Z.rem_mod by done.
  destruct (x <? 0) eqn:E; bool_to_prop.
  - rewrite Z.sgn_neg by done. lia.
  - destruct (Z.eq_dec x 0) as [->|Hx]; [by rewrite Z.mod_0_l by lia|].
    rewrite Z.sgn_pos by lia. lia.
Qed.

(** ** Instructions that only use the stack *)

(** Runs an instruction down to its arithmetic. *)
Ltac run_op :=
  cbv [mbind SM_bind mret SM_ret gets modify unwrap throw or_panic pop push ret_nil
       with_stack stack pc contract mem world].

Section stack_ops.
Context {S : Type}.

(** [op] replaces the operands by the value of [F] and touches nothing else. *)
Definition computes1 (op : VM S bytes) (F : Z -> Z) : Prop :=
  forall x p c m st w, word x ->
  op (Build_Frame p c m (x :: st) w) = (Done [], Build_Frame p c m (F x :: st) w).
Definition computes2 (op : VM S bytes) (F : Z -> Z -> Z) : Prop :=
  forall x y p c m st w, word x -> word y ->
  op (Build_Frame p c m (x :: y :: st) w) = (Done [], Build_Frame p c m (F x y :: st) w).
Definition computes3 (op : VM S bytes) (F : Z -> Z -> Z -> Z) : Prop :=
  forall x y z p c m st w, word x -> word y -> word z ->
  op (Build_Frame p c m (x :: y :: z :: st) w) = (Done [], Build_Frame p c m (F x y z :: st) w).


Lemma opDiv_computes : computes2 opDiv (fun x y => if y =? 0 then 0 else x / y).
Proof.
  intros x y p c m st w Hx Hy. unfold opDiv. run_op. rewrite Sign_zero.
  unfold Big.Div, word in *. rewrite (proj2 (Z.ltb_ge y _)) by lia.
  destruct (y =? 0) eqn:E; [done|]. bool_to_prop.
  cbn [negb]. rewrite U256_small; [done|]. split; [apply Z.div_pos; lia|].
  apply Z.div_lt_upper_bound; nia.
Qed.

Lemma opMod_computes : computes2 opMod (fun x y => if y =? 0 then 0 else x mod y).
Proof.
  intros x y p c m st w Hx Hy. unfold opMod. run_op. rewrite Sign_zero.
  unfold Big.Mod, word in *. rewrite Z.abs_eq by lia.
  destruct (y =? 0) eqn:E; [done|]. bool_to_prop.
  rewrite U256_small; [done|]. pose proof (Z.mod_pos_bound x y). lia.
Qed.

Lemma signed_zero y : word y -> (signed y =? 0) = (y =? 0).
Proof.
  unfold word, signed. intros. case_match eqn:E; bool_to_prop; [done|].
  rewrite (proj2 (Z.eqb_neq y 0)) by lia. apply Z.eqb_neq. lia.
Qed.

Lemma opSdiv_computes : computes2 opSdiv (fun x y =>
  if y =? 0 then 0 else to_word (Z.quot (signed x) (signed y))).
Proof.
  intros x y p c m st w Hx Hy. unfold opSdiv. run_op. rewrite !S256_signed, Sign_zero.
  pose proof (signed_zero y Hy) as H0. rewrite H0. destruct (y =? 0) eqn:E; [done|].
  rewrite Sign_neg, quot_sign, U256_to_word; [done|]. by apply Z.eqb_neq.
Qed.

Lemma opSmod_computes : computes2 opSmod (fun x y =>
  if y =? 0 then 0 else to_word (Z.rem (signed x) (signed y))).
Proof.
  intros x y p c m st w Hx Hy. unfold opSmod. run_op. rewrite !S256_signed, Sign_zero.
  pose proof (signed_zero y Hy) as H0. rewrite H0. destruct (y =? 0) eqn:E; [done|].
  rewrite Sign_neg, rem_sign, U256_to_word; [done|]. by apply Z.eqb_neq.
Qed.

Lemma opSlt_computes : computes2 opSlt (fun x y => flag (signed x <? signed y)).
Proof.
  intros x y p c m st w Hx Hy. unfold opSlt. run_op.
  rewrite (S256_signed x), (S256_signed y), (S256_signed (signed y)).
  rewrite (signed_small (signed y)) by (by apply signed_range).
  by destruct (signed x <? signed y).
Qed.

Lemma opExp_computes : computes2 opExp (fun x y => to_word (x ^ y)).
Proof.
  intros x y p c m st w Hx Hy. unfold opExp. run_op. rewrite Exp_spec; [done|]. apply Hy.
Qed.

(** Byte [i] of a word, counted from the most significant one. *)
Lemma be_fixed_lookup n v i : (i < n)%nat ->
  Big.be_fixed n v !! i = Some (v / 256 ^ Z.of_nat (n - 1 - i) mod 256).
Proof.
  revert v. induction n as [|n IH]; intros v Hi; [lia|]. simpl.
  destruct (decide (i = n)) as [->|Hne].
  - rewrite lookup_app_r, Big.length_be_fixed by (rewrite Big.length_be_fixed; lia).
    rewrite Nat.sub_diag. simpl. replace (n - 0 - n)%nat with O by lia.
    change (256 ^ Z.of_nat 0) with 1. by rewrite Z.div_1_r.
  - rewrite lookup_app_l by (rewrite Big.length_be_fixed; lia). rewrite IH by lia.
    rewrite Z.div_div by lia. do 3 f_equal.
    replace (n - 0 - i)%nat with (Datatypes.S (n - 1 - i))%nat by lia.
    rewrite Nat2Z.inj_succ, Z.pow_succ_r by lia. done.
Qed.

Lemma opByte_computes : computes2 opByte (fun th val =>
  if th <? 32 then val / 256 ^ (31 - th) mod 256 else 0).
Proof.
  intros th val p c m st w Hth Hval. unfold word in *. unfold opByte. run_op.
  destruct (th <? 32) eqn:E; [|done]. bool_to_prop.
  rewrite PaddedBigBytes_32, Big.Int64_small by lia. unfold zget.
  rewrite (proj2 (Z.leb_le _ _)) by lia. rewrite be_fixed_lookup by lia.
  replace (Z.of_nat (32 - 1 - Z.to_nat th)) with (31 - th) by lia. done.
Qed.

(** The low [n] bits of [x] read as a signed number. *)
Definition sign_extend (n x : Z) : Z :=
  let r := x mod 2 ^ n in if r <? 2 ^ (n - 1) then r else r - 2 ^ n.

Lemma lor_lnot_ones x b : 0 <= b -> Z.lor x (Z.lnot (Z.ones b)) = x mod 2 ^ b - 2 ^ b.
Proof.
  intros Hb. replace (x mod 2 ^ b - 2 ^ b) with (x mod 2 ^ b + Z.lnot (Z.ones b)).
  2: { rewrite Z.ones_equiv. pose proof (Z.add_lnot_diag (Z.pred (2 ^ b))). lia. }
  rewrite <- Z.land_ones by done. rewrite Z.add_nocarry_lor.
  - apply Z.bits_inj'. intros i Hi. rewrite !Z.lor_spec, Z.land_spec, Z.lnot_spec by done.
    by destruct (Z.testbit x i), (Z.testbit (Z.ones b) i).
  - apply Z.bits_inj'. intros i Hi. rewrite !Z.land_spec, Z.lnot_spec, Z.bits_0 by done.
    by destruct (Z.testbit x i), (Z.testbit (Z.ones b) i).
Qed.

(** The sign bit decides which half the low bits are in. *)
Lemma low_bits_split x b : 0 <= b ->
  x mod 2 ^ (b + 1) = (if Z.testbit x b then 2 ^ b else 0) + x mod 2 ^ b.
Proof.
  intros Hb. rewrite Z.testbit_eqb by done. rewrite Z.pow_add_r, Z.mul_comm by lia.
  change (2 ^ 1) with 2. rewrite Z.mul_comm, Z.rem_mul_r by lia.
  pose proof (Z.mod_pos_bound (x / 2 ^ b) 2).
  destruct (_ =? 1) eqn:E; bool_to_prop; lia.
Qed.

Lemma extend_bits x b : 0 <= b ->
  (if Z.testbit x b then Z.lor x (Z.lnot (Z.shiftl 1 b - 1)) else Z.land x (Z.shiftl 1 b - 1)) =
  sign_extend (b + 1) x.
Proof.
  intros Hb. rewrite Z.shiftl_1_l. replace (2 ^ b - 1) with (Z.ones b) by (rewrite Z.ones_equiv; lia).
  rewrite lor_lnot_ones, Z.land_ones by done. unfold sign_extend. rewrite low_bits_split by done.
  replace (b + 1 - 1) with b by lia. pose proof (Z.mod_pos_bound x (2 ^ b)).
  assert (0 < 2 ^ b) by lia. replace (2 ^ (b + 1)) with (2 * 2 ^ b) by (rewrite Z.pow_add_r; lia).
  destruct (Z.testbit x b).
  - rewrite (proj2 (Z.ltb_ge _ _)) by lia. lia.
  - rewrite (proj2 (Z.ltb_lt _ _)) by lia. lia.
Qed.

Lemma opSignExtend_computes : computes2 opSignExtend (fun back num =>
  if back <? 31 then to_word (sign_extend (8 * (back + 1)) num) else num).
Proof.
  intros back num p c m st w Hb Hn. unfold word in *. unfold opSignExtend. run_op.
  destruct (back <? 31) eqn:E; [|done]. bool_to_prop.
  rewrite Big.Uint64_small, u64_small, extend_bits, U256_to_word by lia.
  by replace (back * 8 + 7 + 1) with (8 * (back + 1)) by lia.
Qed.

(** ** Unsigned and signed arithmetic *)

Lemma stack_ops_unsigned :
  computes2 opAdd (fun x y => to_word (x + y)) /\
  computes2 opSub (fun x y => to_word (x - y)) /\
  computes2 opMul (fun x y => to_word (x * y)) /\
  computes2 opLt (fun x y => flag (x <? y)) /\
  computes2 opGt (fun x y => flag (y <? x)) /\
  computes2 opEq (fun x y => flag (x =? y)) /\
  computes1 opIszero (fun x => flag (x =? 0)).
Proof.
  split_and!.
  - intros x y p c m st w Hx Hy. unfold opAdd. run_op. by rewrite U256_to_word.
  - intros x y p c m st w Hx Hy. unfold opSub. run_op. by rewrite U256_to_word.
  - intros x y p c m st w Hx Hy. unfold opMul. run_op. by rewrite U256_to_word.
  - intros x y p c m st w Hx Hy. unfold opLt. run_op. by destruct (x <? y).
  - intros x y p c m st w Hx Hy. unfold opGt. run_op. rewrite Z.gtb_ltb. by destruct (y <? x).
  - intros x y p c m st w Hx Hy. unfold opEq. run_op. by destruct (x =? y).
  - intros x p c m st w Hx. unfold opIszero. run_op. unfold word in Hx.
    destruct x as [|x|x]; [done|done|lia].
Qed.

Lemma opSgt_computes : computes2 opSgt (fun x y => flag (signed y <? signed x)).
Proof.
  intros x y p c m st w Hx Hy. unfold opSgt. run_op.
  rewrite (S256_signed x), (S256_signed y), Z.gtb_ltb. by destruct (signed y <? signed x).
Qed.

Lemma opNot_computes : computes1 opNot (fun x => 2 ^ 256 - 1 - x).
Proof.
  intros x p c m st w Hx. unfold opNot, word in *. run_op. rewrite U256_to_word. unfold to_word.
  replace (Z.lnot x) with (2 ^ 256 - 1 - x + -1 * 2 ^ 256) by (pose proof (Z.add_lnot_diag x); lia).
  rewrite Z.mod_add, Z.mod_small by lia. done.
Qed.

Lemma opAddmod_computes :
  computes3 opAddmod (fun x y z => if z =? 0 then 0 else (x + y) mod z).
Proof.
  intros x y z p c m st w Hx Hy Hz. unfold opAddmod, word, Big.Mod in *. run_op.
  rewrite Z.gtb_ltb, Z.abs_eq by lia. destruct (z =? 0) eqn:E; bool_to_prop; [by subst|].
  rewrite (proj2 (Z.ltb_lt _ _)) by lia.
  rewrite U256_small; [done|]. pose proof (Z.mod_pos_bound (x + y) z). lia.
Qed.

Lemma opMulmod_computes :
  computes3 opMulmod (fun x y z => if z =? 0 then 0 else (x * y) mod z).
Proof.
  intros x y z p c m st w Hx Hy Hz. unfold opMulmod, word, Big.Mod in *. run_op.
  rewrite Z.gtb_ltb, Z.abs_eq by lia. destruct (z =? 0) eqn:E; bool_to_prop; [by subst|].
  rewrite (proj2 (Z.ltb_lt _ _)) by lia.
  rewrite U256_small; [done|]. pose proof (Z.mod_pos_bound (x * y) z). lia.
Qed.
End stack_ops.

(** ** Jump destinations *)

(** Bytes of immediate data after an opcode. *)
Definition immediate (op : Z) : Z := if Op.IsPush op then op - Op.PUSH1 + 1 else 0.

(** [p] is reached from [pc] by going from instruction to instruction. *)
Inductive boundary (code : bytes) : Z -> Z -> Prop :=
| boundary_here pc : boundary code pc pc
| boundary_next pc op p :
    zget code pc = Some op -> boundary code (pc + 1 + immediate op) p -> boundary code pc p.

Definition is_jumpdest (code : bytes) (pc p : Z) : Prop :=
  boundary code pc p /\ zget code p = Some (Op.code Op.JUMPDEST).

Lemma is_jumpdest_end code pc p : zget code pc = None -> ~ is_jumpdest code pc p.
Proof.
  intros Hn [Hb Hp]. destruct Hb as [pc|pc op p Hop _]; congruence.
Qed.

Lemma is_jumpdest_step code pc op p : zget code pc = Some op ->
  is_jumpdest code pc p <->
  (p = pc /\ op = Op.JUMPDEST) \/ is_jumpdest code (pc + 1 + immediate op) p.
Proof.
  intros Hop. split.
  - intros [Hb Hp]. destruct Hb as [pc|pc op' p Hop' Hb]; simplify_eq; [by left|by right].
  - intros [[-> ->]|[Hb Hp]]; [by split; [constructor|]|]. split; [by eapply boundary_next|done].
Qed.

Lemma immediate_nonneg op : 0 <= immediate op.
Proof.
  unfold immediate. case_match eqn:E; [|done]. unfold Op.IsPush in E. bool_to_prop. lia.
Qed.

Lemma jumpdests_loop_spec fuel code pc m p : 0 <= pc -> zlen code - pc <= Z.of_nat fuel ->
  p ∈ jumpdests_loop fuel code pc m <-> p ∈ m \/ is_jumpdest code pc p.
Proof.
  revert pc m. induction fuel as [|fuel IH]; intros pc m Hpc Hf; cbn [jumpdests_loop].
  { assert (zget code pc = None) by (apply zget_None; lia).
    pose proof (is_jumpdest_end code pc p H). tauto. }
  destruct (zget code pc) as [op|] eqn:Hop.
  2: { pose proof (is_jumpdest_end code pc p Hop). tauto. }
  rewrite (is_jumpdest_step code pc op p Hop). pose proof (immediate_nonneg op) as Him.
  assert (Hnext : forall m', p ∈ jumpdests_loop fuel code (pc + 1 + immediate op) m' <->
    p ∈ m' \/ is_jumpdest code (pc + 1 + immediate op) p) by (intros; apply IH; lia).
  unfold immediate in *. destruct (Op.IsPush op) eqn:Hpush.
  - assert (op <> Op.JUMPDEST) by (intros ->; done).
    replace (pc + (op - Op.PUSH1 + 1) + 1) with (pc + 1 + (op - Op.PUSH1 + 1)) by lia.
    rewrite Hnext. tauto.
  - rewrite Z.add_0_r in *. destruct (op =? Op.JUMPDEST) eqn:Hj; bool_to_prop; rewrite Hnext.
    + rewrite elem_of_union, elem_of_singleton. tauto.
    + tauto.
Qed.

Lemma jumpdests_of_spec code p : p ∈ jumpdests_of code <-> is_jumpdest code 0 p.
Proof.
  unfold jumpdests_of. rewrite jumpdests_loop_spec by (unfold zlen; lia).
  rewrite elem_of_empty. tauto.
Qed.

(** ** Memory *)

Lemma copy_at_read {A} (l v : list A) off n : 0 <= off -> zlen v = n -> off + n <= zlen l ->
  ztake n (zdrop off (copy_at l off n v)) = v.
Proof.
  intros Ho Hv Hl. unfold copy_at, zdrop, ztake, zlen in *.
  rewrite drop_app_length' by (rewrite length_take; lia).
  rewrite gocopy_same by (rewrite length_take, length_drop; lia).
  rewrite take_app_length' by lia. done.
Qed.

(** ** The memory fee *)

(** Total fee for [w] words. *)
Definition memory_fee (w : Z) : Z := 3 * w + w * w / 512.

(** ** Theorems *)

(** C23: the unsigned instructions compute in the integers modulo 2^256: [ADD],
    [SUB], [MUL], [EXP] wrap; [DIV], [MOD], [ADDMOD], [MULMOD] are exact and give 0
    for a zero divisor; comparisons give 0 or 1; [NOT] is the complement; [BYTE] counts
    from the most significant byte.  The operands go, the rest of the frame stays. *)
Theorem word_arithmetic (S : Type) :
  computes2 (S := S) opAdd (fun x y => to_word (x + y)) /\
  computes2 (S := S) opSub (fun x y => to_word (x - y)) /\
  computes2 (S := S) opMul (fun x y => to_word (x * y)) /\
  computes2 (S := S) opDiv (fun x y => if y =? 0 then 0 else x / y) /\
  computes2 (S := S) opMod (fun x y => if y =? 0 then 0 else x mod y) /\
  computes3 (S := S) opAddmod (fun x y z => if z =? 0 then 0 else (x + y) mod z) /\
  computes3 (S := S) opMulmod (fun x y z => if z =? 0 then 0 else (x * y) mod z) /\
  computes2 (S := S) opExp (fun x y => to_word (x ^ y)) /\
  computes2 (S := S) opLt (fun x y => flag (x <? y)) /\
  computes2 (S := S) opGt (fun x y => flag (y <? x)) /\
  computes2 (S := S) opEq (fun x y => flag (x =? y)) /\
  computes1 (S := S) opIszero (fun x => flag (x =? 0)) /\
  computes1 (S := S) opNot (fun x => 2 ^ 256 - 1 - x) /\
  computes2 (S := S) opByte (fun th val =>
    if th <? 32 then val / 256 ^ (31 - th) mod 256 else 0).
Proof.
  destruct (@stack_ops_unsigned S) as (?&?&?&?&?&?&?).
  split_and!; try done; auto using opDiv_computes, opMod_computes, opAddmod_computes,
    opMulmod_computes, opExp_computes, opNot_computes, opByte_computes.
Qed.

(** The signed instructions read words as two's complement: [SDIV] and
    [SMOD] round towards zero (and wrap for [-2^255 / -1]), [SLT] and [SGT] compare
    the signed values, [SIGNEXTEND] extends the sign bit of byte [back]. *)
Lemma signed_arithmetic (S : Type) :
  computes2 (S := S) opSdiv (fun x y =>
    if y =? 0 then 0 else to_word (Z.quot (signed x) (signed y))) /\
  computes2 (S := S) opSmod (fun x y =>
    if y =? 0 then 0 else to_word (Z.rem (signed x) (signed y))) /\
  computes2 (S := S) opSlt (fun x y => flag (signed x <? signed y)) /\
  computes2 (S := S) opSgt (fun x y => flag (signed y <? signed x)) /\
  computes2 (S := S) opSignExtend (fun back num =>
    if back <? 31 then to_word (sign_extend (8 * (back + 1)) num) else num).
Proof.
  split_and!; auto using opSdiv_computes, opSmod_computes, opSlt_computes, opSgt_computes,
    opSignExtend_computes.
Qed.

(** The cached destinations of the running code, if any, are its own. *)
Definition cache_ok {S} (c : Contract) (w : World S) : Prop :=
  forall m, w.(jumpdests) !! c.(CodeHash) = Some m -> m = jumpdests_of c.(Code).

Lemma valid_dest_spec {S} p c m st (w : World S) pos :
  word pos -> cache_ok c w -> zlen c.(Code) < 2 ^ 63 ->
  exists ok w', valid_dest pos (Build_Frame p c m st w) = (Done ok, Build_Frame p c m st w') /\
    w'.(statedb) = w.(statedb) /\ cache_ok c w' /\
    (ok = true <-> is_jumpdest c.(Code) 0 pos).
Proof.
  intros Hpos Hc Hl. unfold valid_dest, has. cbn [contract world]. unfold bigMaxUint64, MaxUint64, word in *.
  destruct (pos >? _) eqn:Hbig; bool_to_prop.
  - exists false, (with_jumpdests w (jumpdests w)). split; [done|]. split; [done|]. split; [done|].
    split; [done|]. intros [_ Hp%zget_inv]. lia.
  - rewrite Big.Uint64_small by lia.
    destruct (jumpdests w !! CodeHash c) as [ds|] eqn:Hd.
    + rewrite (Hc ds Hd). eexists _, _. split; [done|]. split; [done|]. split; [done|].
      rewrite bool_decide_eq_true. apply jumpdests_of_spec.
    + eexists _, _. split; [done|]. split; [done|]. split.
      * intros ds. simpl. rewrite lookup_insert_eq. by intros [= <-].
      * rewrite bool_decide_eq_true. apply jumpdests_of_spec.
Qed.

(** C21: [JUMP] continues at [pos] exactly when the code has a [JUMPDEST]
    instruction there, reached from the start by stepping over the immediate data
    of the [PUSH] instructions; otherwise it fails with the invalid jump error and
    does not move.  This holds with the destinations computed or taken from the
    cache. *)
Lemma jump_valid {S} p c m st (w : World S) pos
    (Hpos : word pos) (Hcache : cache_ok c w) (Hlen : zlen c.(Code) < 2 ^ 63) :
  match opJump (Build_Frame p c m (pos :: st) w) with
  | (Done _, f') => is_jumpdest c.(Code) 0 pos /\ pc f' = pos /\ stack f' = st
  | (Error e, f') =>
      ~ is_jumpdest c.(Code) 0 pos /\ e = errInvalidJump (GetOp c (Big.Uint64 pos)) pos /\ pc f' = p
  | _ => False
  end.
Proof.
  destruct (valid_dest_spec p c m st w pos Hpos Hcache Hlen) as (ok&w'&Hv&_&_&Hok).
  unfold opJump, pop, mbind, SM_bind. cbn [stack with_stack pc contract mem world].
  unfold with_stack. cbn [stack pc contract mem world]. rewrite Hv. destruct ok; cbn.
  - assert (Hj : is_jumpdest (Code c) 0 pos) by (by apply Hok). split; [done|]. split; [|done].
    destruct Hj as [_ Hp%zget_inv]. apply Big.Uint64_small. lia.
  - split; [|done]. intros Hj%Hok. done.
Qed.

(** [PUSH1 3; JUMP; JUMPDEST]: a jump to 3 is fine. *)
(** C20: [MLOAD] returns the word that [MSTORE] wrote at the same offset, for
    every offset the memory covers; [MSTORE] changes only the 32 bytes there. *)
Lemma mstore_mload {S} p c m st (w : World S) off v
    (Hv : word v) (Hoff : 0 <= off) (Hcov : off + 32 <= Memory.Len m) (Hlen : Memory.Len m < 2 ^ 63)
    (Hbytes : is_bytes m.(Memory.store)) :
  exists m', opMstore (Build_Frame p c m (off :: v :: st) w) = (Done [], Build_Frame p c m' st w) /\
    opMload (Build_Frame p c m' (off :: st) w) = (Done [], Build_Frame p c m' (v :: st) w) /\
    ztake off m'.(Memory.store) = ztake off m.(Memory.store) /\
    zdrop (off + 32) m'.(Memory.store) = zdrop (off + 32) m.(Memory.store).
Proof.
  unfold Memory.Len, word in *. set (m' := Memory.with_store m (copy_at m.(Memory.store) off 32 (Big.be_fixed 32 v))).
  assert (Hs : Memory.Set_ m (Big.Uint64 off) 32 (PaddedBigBytes v 32) = Some m').
  { unfold Memory.Set_, Memory.Len. rewrite PaddedBigBytes_32, Big.Uint64_small, u64_small by lia.
    rewrite Z.gtb_ltb, (proj2 (Z.ltb_ge _ _)) by lia. cbn [Z.gtb Z.compare].
    rewrite !(proj2 (Z.leb_le _ _)) by lia. done. }
  assert (Hl' : zlen (Memory.store m') = zlen (Memory.store m)) by (apply zlen_copy_at; lia).
  assert (Hb32 : zlen (Big.be_fixed 32 v) = 32) by (unfold zlen; by rewrite Big.length_be_fixed).
  exists m'. split_and!.
  - unfold opMstore, mem_set. run_op. by rewrite Hs.
  - unfold opMload, mem_get. run_op. change 32 with (Big.Int64 32).
    rewrite memory_Get_ok; try lia; unfold Memory.Len; try lia.
    2: { rewrite calcMemSize_pos by lia. lia. }
    change (32 =? 0) with false. cbn [Memory.store m' Memory.with_store].
    rewrite copy_at_read by lia. rewrite Big.SetBytes_be_fixed, Z.mod_small; [done|].
    change (256 ^ Z.of_nat 32) with (2 ^ 256). lia.
  - simpl. unfold copy_at, ztake. rewrite take_app_le by (rewrite length_take; unfold zlen in *; lia).
    rewrite take_take. f_equal. lia.
  - simpl. unfold copy_at, zdrop, ztake, zlen in *. rewrite app_assoc.
    rewrite drop_app_length'; [done|]. rewrite length_app, length_gocopy, !length_take, length_drop. lia.
Qed.

(** C21: [SLOAD] of a key returns what [SSTORE] last wrote under it, whatever the
    database behind the interface, and other keys keep their values. *)
Lemma sstore_sload {S} {DB : StateDB S} {CR : Crypto} {SL : StateLaws S} p c m st (w : World S) k v
    (Hk : word k) (Hv : word v) (Hinv : inv w.(statedb)) :
  exists w', opSstore (Build_Frame p c m (k :: v :: st) w) = (Done [], Build_Frame p c m st w') /\
    (exists w'', opSload (Build_Frame p c m (k :: st) w') = (Done [], Build_Frame p c m (v :: st) w'')) /\
    (forall k', word k' -> k' <> k ->
       abs_state (view w'.(statedb)) c.(self) (Common.BigToHash k') =
       abs_state (view w.(statedb)) c.(self) (Common.BigToHash k')).
Proof.
  unfold word in *.
  destruct (law_SetState c.(self) (Common.BigToHash k) (Common.BigToHash v) _ Hinv) as [Hview [Hinv' _]].
  set (s' := SetState _ _ _ _) in *. exists (with_statedb w s'). split; [done|].
  assert (Hstate : forall k', abs_state (view s') (self c) (Common.BigToHash k') =
    fupd (abs_state (view (statedb w)) (self c)) (Common.BigToHash k) (Common.BigToHash v)
      (Common.BigToHash k')).
  { intros k'. rewrite Hview. unfold abs_state, abs_SetState, upd_account. simpl.
    rewrite fupd_eq. simpl. unfold fupd, get_or_new. case_decide; [done|].
    by destruct (accounts (view (statedb w)) (self c)). }
  split.
  - destruct (reads_run _ _ _ (law_GetState (self c) (Common.BigToHash k)) Hinv') as (s2&Hs2&_).
    exists (with_statedb (with_statedb w s') s2).
    unfold opSload, db_get. run_op. cbn. rewrite Hs2.
    rewrite Hstate, fupd_eq, Common.Hash_Big_BigToHash by lia. done.
  - intros k' Hk' Hne. cbn. rewrite Hstate. apply fupd_ne. intros He. apply Hne.
    apply Common.BigToHash_inj in He; lia.
Qed.

(** While sizes stay below 2^32 words the memory fee is the quadratic
    [3 w + w^2 / 512]: growing to [n] bytes charges the difference between the new
    total and the total already paid, and records the new total; a size the memory
    has already is free. *)
Lemma memoryGasCost_quadratic {S} p c m st (w : World S) n
    (Hn : 0 < n) (Hwords : (n + 31) / 32 < 2 ^ 32) (Hmod : Memory.Len m mod 32 = 0)
    (Hpaid : m.(Memory.lastGasCost) = memory_fee (Memory.Len m / 32)) :
  let words := (n + 31) / 32 in
  memoryGasCost n (Build_Frame p c m st w) =
  if Memory.Len m <? 32 * words then
    (Done (memory_fee words - memory_fee (Memory.Len m / 32)),
     Build_Frame p c {| Memory.store := m.(Memory.store);
                        Memory.lastGasCost := memory_fee words |} st w)
  else (Done 0, Build_Frame p c m st w).
Proof.
  cbv zeta. set (k := (n + 31) / 32) in *.
  assert (Hk : 32 * k <= n + 31 < 32 * k + 32).
  { pose proof (Z.div_mod (n + 31) 32). pose proof (Z.mod_pos_bound (n + 31) 32). lia. }
  assert (Hkk : 0 <= k * k < 2 ^ 64) by nia.
  assert (Hq : 0 <= k * k / 512 < 2 ^ 55).
  { split; [apply Z.div_pos; lia|apply Z.div_lt_upper_bound; lia]. }
  unfold memoryGasCost, MaxUint64. rewrite Z.gtb_ltb, (proj2 (Z.ltb_ge _ _)) by lia.
  rewrite (proj2 (Z.eqb_neq _ _)) by lia. unfold toWordSize, MaxUint64.
  rewrite Z.gtb_ltb, (proj2 (Z.ltb_ge _ _)) by lia. fold k. run_op.
  rewrite (u64_small (k * 32)) by lia. rewrite Z.gtb_ltb, (Z.mul_comm k 32).
  destruct (Memory.Len m <? 32 * k) eqn:Hlt; [|done]. bool_to_prop.
  unfold Params.MemoryGas, Params.QuadCoeffDiv. rewrite (u64_small (k * k)) by lia.
  rewrite (u64_small (k * 3)), (u64_small (k * 3 + _)) by lia.
  replace (k * 3 + k * k / 512) with (memory_fee k) by (unfold memory_fee; lia).
  rewrite Hpaid. set (j := Memory.Len m / 32) in *.
  assert (Hj : 0 <= j <= k).
  { pose proof (Z.div_mod (Memory.Len m) 32). pose proof (zlen_nonneg m.(Memory.store)).
    unfold Memory.Len in *. lia. }
  assert (0 <= memory_fee j <= memory_fee k).
  { unfold memory_fee. split; [pose proof (Z.div_pos (j * j) 512); nia|].
    pose proof (Z.div_le_mono (j * j) (k * k) 512). nia. }
  rewrite u64_small; [done|]. unfold memory_fee in *. lia.
Qed.

(** From 2^32 words on the 64-bit square wraps around, and the fee falls far
    below the quadratic: 128 GiB of memory cost [3 * 2^32] gas instead of
    [3 * 2^32 + 2^55]. *)
Lemma memoryGasCost_wraps {S} p c st (w : World S) :
  fst (memoryGasCost (32 * 2 ^ 32) (Build_Frame p c Memory.NewMemory st w)) = Done (3 * 2 ^ 32) /\
  memory_fee (2 ^ 32) = 3 * 2 ^ 32 + 2 ^ 55.
Proof. split; [reflexivity|by vm_compute]. Qed.

(** C21: [PUSHn] pushes the [n] bytes after it as a big-endian number, with zeros
    for bytes past the end of the code, and moves [pc] over them. *)
Lemma push_immediate {S} p c m st (w : World S) n
    (Hn : 1 <= n <= 32) (Hp : 0 <= p < zlen c.(Code)) (Hlen : zlen c.(Code) < 2 ^ 63) :
  let data := ztake n (zdrop (p + 1) c.(Code)) in
  makePush n n (Build_Frame p c m st w) =
  (Done [], Build_Frame (p + n) c m (Big.SetBytes data * 256 ^ (n - zlen data) :: st) w).
Proof.
  cbv zeta. unfold makePush. run_op. rewrite (u64_small (p + 1)) by lia.
  set (d := ztake n (zdrop (p + 1) (Code c))).
  assert (Hd : zlen d <= n) by (unfold d; autorewrite with golib; lia).
  rewrite getData_spec by lia. fold d. rewrite Common.RightPadBytes_spec by done. run_op.
  unfold with_pc. cbn [pc contract mem stack world].
  rewrite (u64_small (p + n)) by lia. do 3 f_equal.
  rewrite Big.SetBytes_app, zlen_zeros by lia.
  pose proof (Big.SetBytes_zeros (n - zlen d) []) as H0. rewrite app_nil_r in H0. rewrite H0.
  change (Big.SetBytes []) with 0. by rewrite Z.add_0_r.
Qed.

(** [PUSH3] with two bytes left in the code. *)
