(* ===== verification/VmJumpTable.v ===== *)
(** [core/vm/jump_table.go]: the instruction table.

    The composite literal of [NewJumpTable] is cut into six consecutive parts;
    an opcode without an entry has the zero [operation], which is not valid. *)
From S2P Require Import Prelude GoBig CommonMath CommonTypes Params VmTypes VmOpcodes VmGas VmInstr.

Record operation (S : Type) := mkop {
  execute : Calls S -> VM S bytes;
  gasCost : Params.GasTable -> Z -> VM S Z;
  validateStack : list Z -> option vmerror;
  memorySize : option (list Z -> option Z);
  halts : bool;
  jumps : bool;
  valid : bool;
}.
Arguments mkop {S}. Arguments execute {S}. Arguments gasCost {S}.
Arguments validateStack {S}. Arguments memorySize {S}. Arguments halts {S}.
Arguments jumps {S}. Arguments valid {S}.

Section jump_table.
Context {S : Type} {DB : StateDB S} {CR : Crypto}.
Variable ctx : Context S.
Variable cfg : Config.

(** The zero value: nil functions. *)
Definition zero_operation : operation S :=
  mkop (fun _ => crash) (fun _ _ => crash) (fun _ => None) None false false false.

Definition JumpTable_1 : list (Z * operation S) := [
  (Op.code Op.STOP, mkop (fun _ => opStop) (constGasFunc 0) (makeStackFunc 0 0) None true false true);
  (Op.code Op.ADD, mkop (fun _ => opAdd) (constGasFunc GasFastestStep) (makeStackFunc 2 1) None false false true);
  (Op.code Op.MUL, mkop (fun _ => opMul) (constGasFunc GasFastStep) (makeStackFunc 2 1) None false false true);
  (Op.code Op.SUB, mkop (fun _ => opSub) (constGasFunc GasFastestStep) (makeStackFunc 2 1) None false false true);
  (Op.code Op.DIV, mkop (fun _ => opDiv) (constGasFunc GasFastStep) (makeStackFunc 2 1) None false false true);
  (Op.code Op.SDIV, mkop (fun _ => opSdiv) (constGasFunc GasFastStep) (makeStackFunc 2 1) None false false true);
  (Op.code Op.MOD, mkop (fun _ => opMod) (constGasFunc GasFastStep) (makeStackFunc 2 1) None false false true);
  (Op.code Op.SMOD, mkop (fun _ => opSmod) (constGasFunc GasFastStep) (makeStackFunc 2 1) None false false true);
  (Op.code Op.ADDMOD, mkop (fun _ => opAddmod) (constGasFunc GasMidStep) (makeStackFunc 3 1) None false false true);
  (Op.code Op.MULMOD, mkop (fun _ => opMulmod) (constGasFunc GasMidStep) (makeStackFunc 3 1) None false false true);
  (Op.code Op.EXP, mkop (fun _ => opExp) (gasExp) (makeStackFunc 2 1) None false false true);
  (Op.code Op.SIGNEXTEND, mkop (fun _ => opSignExtend) (constGasFunc GasFastStep) (makeStackFunc 2 1) None false false true);
  (Op.code Op.LT, mkop (fun _ => opLt) (constGasFunc GasFastestStep) (makeStackFunc 2 1) None false false true);
  (Op.code Op.GT, mkop (fun _ => opGt) (constGasFunc GasFastestStep) (makeStackFunc 2 1) None false false true);
  (Op.code Op.SLT, mkop (fun _ => opSlt) (constGasFunc GasFastestStep) (makeStackFunc 2 1) None false false true);
  (Op.code Op.SGT, mkop (fun _ => opSgt) (constGasFunc GasFastestStep) (makeStackFunc 2 1) None false false true);
  (Op.code Op.EQ, mkop (fun _ => opEq) (constGasFunc GasFastestStep) (makeStackFunc 2 1) None false false true);
  (Op.code Op.ISZERO, mkop (fun _ => opIszero) (constGasFunc GasFastestStep) (makeStackFunc 1 1) None false false true);
  (Op.code Op.AND, mkop (fun _ => opAnd) (constGasFunc GasFastestStep) (makeStackFunc 2 1) None false false true);
  (Op.code Op.XOR, mkop (fun _ => opXor) (constGasFunc GasFastestStep) (makeStackFunc 2 1) None false false true);
  (Op.code Op.OR, mkop (fun _ => opOr) (constGasFunc GasFastestStep) (makeStackFunc 2 1) None false false true);
  (Op.code Op.NOT, mkop (fun _ => opNot) (constGasFunc GasFastestStep) (makeStackFunc 1 1) None false false true);
  (Op.code Op.BYTE, mkop (fun _ => opByte) (constGasFunc GasFastestStep) (makeStackFunc 2 1) None false false true)
].

Definition JumpTable_2 : list (Z * operation S) := [
  (Op.code Op.SHA3, mkop (fun _ => opSha3 cfg) (gasSha3) (makeStackFunc 2 1) (Some memorySha3) false false true);
  (Op.code Op.ADDRESS, mkop (fun _ => opAddress) (constGasFunc GasQuickStep) (makeStackFunc 0 1) None false false true);
  (Op.code Op.BALANCE, mkop (fun _ => opBalance) (gasBalance) (makeStackFunc 1 1) None false false true);
  (Op.code Op.ORIGIN, mkop (fun _ => opOrigin ctx) (constGasFunc GasQuickStep) (makeStackFunc 0 1) None false false true);
  (Op.code Op.CALLER, mkop (fun _ => opCaller) (constGasFunc GasQuickStep) (makeStackFunc 0 1) None false false true);
  (Op.code Op.CALLVALUE, mkop (fun _ => opCallValue) (constGasFunc GasQuickStep) (makeStackFunc 0 1) None false false true);
  (Op.code Op.CALLDATALOAD, mkop (fun _ => opCalldataLoad) (constGasFunc GasFastestStep) (makeStackFunc 1 1) None false false true);
  (Op.code Op.CALLDATASIZE, mkop (fun _ => opCalldataSize) (constGasFunc GasQuickStep) (makeStackFunc 0 1) None false false true);
  (Op.code Op.CALLDATACOPY, mkop (fun _ => opCalldataCopy) (gasCalldataCopy) (makeStackFunc 3 0) (Some memoryCalldataCopy) false false true);
  (Op.code Op.CODESIZE, mkop (fun _ => opCodeSize) (constGasFunc GasQuickStep) (makeStackFunc 0 1) None false false true);
  (Op.code Op.CODECOPY, mkop (fun _ => opCodeCopy) (gasCodeCopy) (makeStackFunc 3 0) (Some memoryCodeCopy) false false true);
  (Op.code Op.GASPRICE, mkop (fun _ => opGasprice ctx) (constGasFunc GasQuickStep) (makeStackFunc 0 1) None false false true);
  (Op.code Op.EXTCODESIZE, mkop (fun _ => opExtCodeSize) (gasExtCodeSize) (makeStackFunc 1 1) None false false true);
  (Op.code Op.EXTCODECOPY, mkop (fun _ => opExtCodeCopy) (gasExtCodeCopy) (makeStackFunc 4 0) (Some memoryExtCodeCopy) false false true);
  (Op.code Op.BLOCKHASH, mkop (fun _ => opBlockhash ctx) (constGasFunc GasExtStep) (makeStackFunc 1 1) None false false true);
  (Op.code Op.COINBASE, mkop (fun _ => opCoinbase ctx) (constGasFunc GasQuickStep) (makeStackFunc 0 1) None false false true);
  (Op.code Op.TIMESTAMP, mkop (fun _ => opTimestamp ctx) (constGasFunc GasQuickStep) (makeStackFunc 0 1) None false false true);
  (Op.code Op.NUMBER, mkop (fun _ => opNumber ctx) (constGasFunc GasQuickStep) (makeStackFunc 0 1) None false false true);
  (Op.code Op.DIFFICULTY, mkop (fun _ => opDifficulty ctx) (constGasFunc GasQuickStep) (makeStackFunc 0 1) None false false true);
  (Op.code Op.GASLIMIT, mkop (fun _ => opGasLimit ctx) (constGasFunc GasQuickStep) (makeStackFunc 0 1) None false false true);
  (Op.code Op.POP, mkop (fun _ => opPop) (constGasFunc GasQuickStep) (makeStackFunc 1 0) None false false true);
  (Op.code Op.MLOAD, mkop (fun _ => opMload) (gasMLoad) (makeStackFunc 1 1) (Some memoryMLoad) false false true);
  (Op.code Op.MSTORE, mkop (fun _ => opMstore) (gasMStore) (makeStackFunc 2 0) (Some memoryMStore) false false true)
].

Definition JumpTable_3 : list (Z * operation S) := [
  (Op.code Op.MSTORE8, mkop (fun _ => opMstore8) (gasMStore8) (makeStackFunc 2 0) (Some memoryMStore8) false false true);
  (Op.code Op.SLOAD, mkop (fun _ => opSload) (gasSLoad) (makeStackFunc 1 1) None false false true);
  (Op.code Op.SSTORE, mkop (fun _ => opSstore) (gasSStore) (makeStackFunc 2 0) None false false true);
  (Op.code Op.JUMP, mkop (fun _ => opJump) (constGasFunc GasMidStep) (makeStackFunc 1 0) None false true true);
  (Op.code Op.JUMPI, mkop (fun _ => opJumpi) (constGasFunc GasSlowStep) (makeStackFunc 2 0) None false true true);
  (Op.code Op.PC, mkop (fun _ => opPc) (constGasFunc GasQuickStep) (makeStackFunc 0 1) None false false true);
  (Op.code Op.MSIZE, mkop (fun _ => opMsize) (constGasFunc GasQuickStep) (makeStackFunc 0 1) None false false true);
  (Op.code Op.GAS, mkop (fun _ => opGas) (constGasFunc GasQuickStep) (makeStackFunc 0 1) None false false true);
  (Op.code Op.JUMPDEST, mkop (fun _ => opJumpdest) (constGasFunc Params.JumpdestGas) (makeStackFunc 0 0) None false false true);
  (Op.code Op.PUSH1, mkop (fun _ => makePush 1 1) (gasPush) (makeStackFunc 0 1) None false false true);
  (Op.code Op.PUSH2, mkop (fun _ => makePush 2 2) (gasPush) (makeStackFunc 0 1) None false false true);
  (Op.code Op.PUSH3, mkop (fun _ => makePush 3 3) (gasPush) (makeStackFunc 0 1) None false false true);
  (Op.code Op.PUSH4, mkop (fun _ => makePush 4 4) (gasPush) (makeStackFunc 0 1) None false false true);
  (Op.code Op.PUSH5, mkop (fun _ => makePush 5 5) (gasPush) (makeStackFunc 0 1) None false false true);
  (Op.code Op.PUSH6, mkop (fun _ => makePush 6 6) (gasPush) (makeStackFunc 0 1) None false false true);
  (Op.code Op.PUSH7, mkop (fun _ => makePush 7 7) (gasPush) (makeStackFunc 0 1) None false false true);
  (Op.code Op.PUSH8, mkop (fun _ => makePush 8 8) (gasPush) (makeStackFunc 0 1) None false false true);
  (Op.code Op.PUSH9, mkop (fun _ => makePush 9 9) (gasPush) (makeStackFunc 0 1) None false false true);
  (Op.code Op.PUSH10, mkop (fun _ => makePush 10 10) (gasPush) (makeStackFunc 0 1) None false false true);
  (Op.code Op.PUSH11, mkop (fun _ => makePush 11 11) (gasPush) (makeStackFunc 0 1) None false false true);
  (Op.code Op.PUSH12, mkop (fun _ => makePush 12 12) (gasPush) (makeStackFunc 0 1) None false false true);
  (Op.code Op.PUSH13, mkop (fun _ => makePush 13 13) (gasPush) (makeStackFunc 0 1) None false false true);
  (Op.code Op.PUSH14, mkop (fun _ => makePush 14 14) (gasPush) (makeStackFunc 0 1) None false false true)
].

Definition JumpTable_4 : list (Z * operation S) := [
  (Op.code Op.PUSH15, mkop (fun _ => makePush 15 15) (gasPush) (makeStackFunc 0 1) None false false true);
  (Op.code Op.PUSH16, mkop (fun _ => makePush 16 16) (gasPush) (makeStackFunc 0 1) None false false true);
  (Op.code Op.PUSH17, mkop (fun _ => makePush 17 17) (gasPush) (makeStackFunc 0 1) None false false true);
  (Op.code Op.PUSH18, mkop (fun _ => makePush 18 18) (gasPush) (makeStackFunc 0 1) None false false true);
  (Op.code Op.PUSH19, mkop (fun _ => makePush 19 19) (gasPush) (makeStackFunc 0 1) None false false true);
  (Op.code Op.PUSH20, mkop (fun _ => makePush 20 20) (gasPush) (makeStackFunc 0 1) None false false true);
  (Op.code Op.PUSH21, mkop (fun _ => makePush 21 21) (gasPush) (makeStackFunc 0 1) None false false true);
  (Op.code Op.PUSH22, mkop (fun _ => makePush 22 22) (gasPush) (makeStackFunc 0 1) None false false true);
  (Op.code Op.PUSH23, mkop (fun _ => makePush 23 23) (gasPush) (makeStackFunc 0 1) None false false true);
  (Op.code Op.PUSH24, mkop (fun _ => makePush 24 24) (gasPush) (makeStackFunc 0 1) None false false true);
  (Op.code Op.PUSH25, mkop (fun _ => makePush 25 25) (gasPush) (makeStackFunc 0 1) None false false true);
  (Op.code Op.PUSH26, mkop (fun _ => makePush 26 26) (gasPush) (makeStackFunc 0 1) None false false true);
  (Op.code Op.PUSH27, mkop (fun _ => makePush 27 27) (gasPush) (makeStackFunc 0 1) None false false true);
  (Op.code Op.PUSH28, mkop (fun _ => makePush 28 28) (gasPush) (makeStackFunc 0 1) None false false true);
  (Op.code Op.PUSH29, mkop (fun _ => makePush 29 29) (gasPush) (makeStackFunc 0 1) None false false true);
  (Op.code Op.PUSH30, mkop (fun _ => makePush 30 30) (gasPush) (makeStackFunc 0 1) None false false true);
  (Op.code Op.PUSH31, mkop (fun _ => makePush 31 31) (gasPush) (makeStackFunc 0 1) None false false true);
  (Op.code Op.PUSH32, mkop (fun _ => makePush 32 32) (gasPush) (makeStackFunc 0 1) None false false true);
  (Op.code Op.DUP1, mkop (fun _ => makeDup 1) (gasDup) (makeDupStackFunc 1) None false false true);
  (Op.code Op.DUP2, mkop (fun _ => makeDup 2) (gasDup) (makeDupStackFunc 2) None false false true);
  (Op.code Op.DUP3, mkop (fun _ => makeDup 3) (gasDup) (makeDupStackFunc 3) None false false true);
  (Op.code Op.DUP4, mkop (fun _ => makeDup 4) (gasDup) (makeDupStackFunc 4) None false false true);
  (Op.code Op.DUP5, mkop (fun _ => makeDup 5) (gasDup) (makeDupStackFunc 5) None false false true);
  (Op.code Op.DUP6, mkop (fun _ => makeDup 6) (gasDup) (makeDupStackFunc 6) None false false true)
].

Definition JumpTable_5 : list (Z * operation S) := [
  (Op.code Op.DUP7, mkop (fun _ => makeDup 7) (gasDup) (makeDupStackFunc 7) None false false true);
  (Op.code Op.DUP8, mkop (fun _ => makeDup 8) (gasDup) (makeDupStackFunc 8) None false false true);
  (Op.code Op.DUP9, mkop (fun _ => makeDup 9) (gasDup) (makeDupStackFunc 9) None false false true);
  (Op.code Op.DUP10, mkop (fun _ => makeDup 10) (gasDup) (makeDupStackFunc 10) None false false true);
  (Op.code Op.DUP11, mkop (fun _ => makeDup 11) (gasDup) (makeDupStackFunc 11) None false false true);
  (Op.code Op.DUP12, mkop (fun _ => makeDup 12) (gasDup) (makeDupStackFunc 12) None false false true);
  (Op.code Op.DUP13, mkop (fun _ => makeDup 13) (gasDup) (makeDupStackFunc 13) None false false true);
  (Op.code Op.DUP14, mkop (fun _ => makeDup 14) (gasDup) (makeDupStackFunc 14) None false false true);
  (Op.code Op.DUP15, mkop (fun _ => makeDup 15) (gasDup) (makeDupStackFunc 15) None false false true);
  (Op.code Op.DUP16, mkop (fun _ => makeDup 16) (gasDup) (makeDupStackFunc 16) None false false true);
  (Op.code Op.SWAP1, mkop (fun _ => makeSwap 1) (gasSwap) (makeSwapStackFunc 2) None false false true);
  (Op.code Op.SWAP2, mkop (fun _ => makeSwap 2) (gasSwap) (makeSwapStackFunc 3) None false false true);
  (Op.code Op.SWAP3, mkop (fun _ => makeSwap 3) (gasSwap) (makeSwapStackFunc 4) None false false true);
  (Op.code Op.SWAP4, mkop (fun _ => makeSwap 4) (gasSwap) (makeSwapStackFunc 5) None false false true);
  (Op.code Op.SWAP5, mkop (fun _ => makeSwap 5) (gasSwap) (makeSwapStackFunc 6) None false false true);
  (Op.code Op.SWAP6, mkop (fun _ => makeSwap 6) (gasSwap) (makeSwapStackFunc 7) None false false true);
  (Op.code Op.SWAP7, mkop (fun _ => makeSwap 7) (gasSwap) (makeSwapStackFunc 8) None false false true);
  (Op.code Op.SWAP8, mkop (fun _ => makeSwap 8) (gasSwap) (makeSwapStackFunc 9) None false false true);
  (Op.code Op.SWAP9, mkop (fun _ => makeSwap 9) (gasSwap) (makeSwapStackFunc 10) None false false true);
  (Op.code Op.SWAP10, mkop (fun _ => makeSwap 10) (gasSwap) (makeSwapStackFunc 11) None false false true);
  (Op.code Op.SWAP11, mkop (fun _ => makeSwap 11) (gasSwap) (makeSwapStackFunc 12) None false false true);
  (Op.code Op.SWAP12, mkop (fun _ => makeSwap 12) (gasSwap) (makeSwapStackFunc 13) None false false true);
  (Op.code Op.SWAP13, mkop (fun _ => makeSwap 13) (gasSwap) (makeSwapStackFunc 14) None false false true);
  (Op.code Op.SWAP14, mkop (fun _ => makeSwap 14) (gasSwap) (makeSwapStackFunc 15) None false false true)
].

Definition JumpTable_6 : list (Z * operation S) := [
  (Op.code Op.SWAP15, mkop (fun _ => makeSwap 15) (gasSwap) (makeSwapStackFunc 16) None false false true);
  (Op.code Op.SWAP16, mkop (fun _ => makeSwap 16) (gasSwap) (makeSwapStackFunc 17) None false false true);
  (Op.code Op.LOG0, mkop (fun _ => makeLog ctx 0) (makeGasLog 0) (makeStackFunc 2 0) (Some memoryLog) false false true);
  (Op.code Op.LOG1, mkop (fun _ => makeLog ctx 1) (makeGasLog 1) (makeStackFunc 3 0) (Some memoryLog) false false true);
  (Op.code Op.LOG2, mkop (fun _ => makeLog ctx 2) (makeGasLog 2) (makeStackFunc 4 0) (Some memoryLog) false false true);
  (Op.code Op.LOG3, mkop (fun _ => makeLog ctx 3) (makeGasLog 3) (makeStackFunc 5 0) (Some memoryLog) false false true);
  (Op.code Op.LOG4, mkop (fun _ => makeLog ctx 4) (makeGasLog 4) (makeStackFunc 6 0) (Some memoryLog) false false true);
  (Op.code Op.CREATE, mkop (opCreate) (gasCreate) (makeStackFunc 3 1) (Some memoryCreate) false false true);
  (Op.code Op.CALL, mkop (opCall) (gasCall) (makeStackFunc 7 1) (Some memoryCall) false false true);
  (Op.code Op.CALLCODE, mkop (opCallCode) (gasCallCode) (makeStackFunc 7 1) (Some memoryCall) false false true);
  (Op.code Op.RETURN, mkop (fun _ => opReturn) (gasReturn) (makeStackFunc 2 0) (Some memoryReturn) true false true);
  (Op.code Op.DELEGATECALL, mkop (opDelegateCall) (gasDelegateCall) (makeStackFunc 6 1) (Some memoryDelegateCall) false false true);
  (Op.code Op.SELFDESTRUCT, mkop (fun _ => opSuicide) (gasSuicide) (makeStackFunc 1 0) None true false true)
].

Definition NewJumpTable : list (Z * operation S) :=
  JumpTable_1 ++ JumpTable_2 ++ JumpTable_3 ++ JumpTable_4 ++ JumpTable_5 ++ JumpTable_6.

Fixpoint table_get (t : list (Z * operation S)) (op : Z) : operation S :=
  match t with
  | [] => zero_operation
  | (k, o) :: t => if k =? op then o else table_get t op
  end.
Definition defaultJumpTable (op : Z) : operation S := table_get NewJumpTable op.

End jump_table.
