(* ===== verification/VmInterp.v ===== *)
(** [core/vm]: precompiled contracts ([contracts.go]), the interpreter loop
    ([interpreter.go]), the entry points of the machine ([tiltvm.go]) and the
    value transfer functions they are configured with ([core/tiltvm.go]).

    Contracts call contracts, so the loop and the entry points are mutually
    recursive.  The knot is tied by [loop], on a bound that decreases in every
    iteration and on every call. *)
From S2P Require Import Prelude GoBig CommonMath CommonTypes Params VmTypes VmGas VmInstr.
From S2P Require Import VmJumpTable.
Import Math.

(** ** contracts.go *)
Section contracts.
Context {CR : Crypto}.

Inductive PrecompiledContract := ecrecover | sha256hash | ripemd160hash | dataCopy.

Definition PrecompiledContracts (a : Address) : option PrecompiledContract :=
  if bool_decide (a = Common.BytesToAddress [1]) then Some ecrecover
  else if bool_decide (a = Common.BytesToAddress [2]) then Some sha256hash
  else if bool_decide (a = Common.BytesToAddress [3]) then Some ripemd160hash
  else if bool_decide (a = Common.BytesToAddress [4]) then Some dataCopy
  else None.

(** [uint64(inputSize+31)/32*perWord + base] *)
Definition wordGas (inputSize perWord base : Z) : Z :=
  u64 (u64 (u64 (inputSize + 31) / 32 * perWord) + base).

Definition RequiredGas (p : PrecompiledContract) (inputSize : Z) : Z :=
  match p with
  | ecrecover => Params.EcrecoverGas
  | sha256hash => wordGas inputSize Params.Sha256WordGas Params.Sha256Gas
  | ripemd160hash => wordGas inputSize Params.Ripemd160WordGas Params.Ripemd160Gas
  | dataCopy => wordGas inputSize Params.IdentityWordGas Params.IdentityGas
  end.

(** The result, and what the caller's input holds afterwards: [append] to
    [in[64:128]] writes to index 128 of an input that was not copied for
    padding.  [None] is an index or slice out of range. *)
Definition ecrecover_Run (input : bytes) : option (bytes * bytes) :=
  let inp := Common.RightPadBytes input 128 in
  r ← Big.SetBytes <$> slice inp 64 96;
  s ← Big.SetBytes <$> slice inp 96 128;
  v ← (fun b => u8 (b - 27)) <$> zget inp 63;
  pad ← slice inp 32 63;
  if negb (allZero pad) || negb (ValidateSignatureValues v r s false) then Some ([], input)
  else
    hash ← slice inp 0 32;
    sig ← slice inp 64 128;
    let input := if zlen input >? 128 then default input (zset input 128 v) else input in
    match Ecrecover hash (sig ++ [v]) with
    | None => Some ([], input)
    | Some pubKey =>
        pk ← slice pubKey 1 (zlen pubKey);
        let h := Keccak256 pk in
        h ← slice h 12 (zlen h);
        Some (Common.LeftPadBytes h 32, input)
    end.

Definition sha256hash_Run (input : bytes) : bytes := Sha256 input.
Definition ripemd160hash_Run (input : bytes) : bytes := Common.LeftPadBytes (Ripemd160 input) 32.
Definition dataCopy_Run (input : bytes) : bytes := input.

(** [p.Run(input)]; the input is not read again by the machine. *)
Definition precompiled_Run (p : PrecompiledContract) (input : bytes) : option bytes :=
  match p with
  | ecrecover => fst <$> ecrecover_Run input
  | sha256hash => Some (sha256hash_Run input)
  | ripemd160hash => Some (ripemd160hash_Run input)
  | dataCopy => Some (dataCopy_Run input)
  end.

Definition RunPrecompiledContract (p : PrecompiledContract) (input : bytes) (c : Contract)
  : option (bytes * option vmerror * Contract) :=
  let gas := RequiredGas p (zlen input) in
  let '(ok, c) := UseGas c gas in
  if (ok : bool) then ret ← precompiled_Run p input; Some (ret, None, c)
  else Some ([], Some ErrOutOfGas, c).
End contracts.

(** ** core/tiltvm.go *)
Section transfer.
Context {S : Type} {DB : StateDB S}.

Definition core_CanTransfer (addr : Address) (amount : Z) (db : S) : bool * S :=
  let '(b, db) := GetBalance addr db in (amount <=? b, db).

Definition core_Transfer (sender recipient : Address) (amount : Z) (db : S) : S :=
  let db := SubBalance sender amount db in
  AddBalance recipient amount db.
End transfer.

(** ** interpreter.go and tiltvm.go *)
Section machine.
Context {S : Type} {DB : StateDB S} {CR : Crypto}.
Variable ctx : Context S.
Variable cfg : Config.

(** [atomic.LoadInt32(&tiltvm.env.abort) != 0] at this iteration. *)
Definition aborted : VM S bool := fun f =>
  let w := f.(world) in
  (Done (match cancelAt cfg with Some n => n <=? w.(ticks) | None => false end),
   with_world f (with_ticks w (w.(ticks) + 1))).

(** The requested memory size, in whole words. *)
Definition requested_memory (o : operation S) : VM S Z :=
  match memorySize o with
  | None => mret 0
  | Some ms =>
      st ← gets stack;
      size ← unwrap (ms st);
      memSize ← checked (bigUint64 size);
      checked (SafeMul (toWordSize memSize) 32)
  end.

(** [if err != nil || !contract.UseGas(cost) { return nil, ErrOutOfGas }] *)
Definition charge (o : operation S) (memorySize : Z) : VM S unit := fun f =>
  match gasCost o Params.ChainConfig_GasTable memorySize f with
  | (Done cost, f) =>
      (ok ← use_gas cost; if (ok : bool) then mret tt else throw ErrOutOfGas) f
  | (Error _, f) => (Error ErrOutOfGas, f)
  | (Panic, f) => (Panic, f)
  | (NoFuel, f) => (NoFuel, f)
  end.

(** One iteration of the main loop after the abort check: [Some res] leaves the
    loop with [return res, nil]. *)
Definition step (calls : Calls S) : VM S (option bytes) :=
  f ← gets id;
  let op := GetOp f.(contract) f.(pc) in
  let operation := defaultJumpTable ctx cfg op in
  if negb (valid operation) then throw (errInvalidOpcode op)
  else
    match validateStack operation f.(stack) with
    | Some err => throw err
    | None =>
        memorySize ← requested_memory operation;
        _ ← (if DisableGasMetering cfg then mret tt else charge operation memorySize);
        _ ← (if memorySize >? 0
             then modify (fun f => with_mem f (Memory.Resize f.(mem) memorySize)) else mret tt);
        res ← execute operation calls;
        if halts operation then mret (Some res)
        else if negb (jumps operation) then
          _ ← modify (fun f => with_pc f (u64 (f.(pc) + 1))); mret None
        else mret None
    end.

(** [Interpreter.Run], over the main loop: the results and the contract as the
    run leaves it. *)
Definition Run_with (main : VM S bytes) (c : Contract) (input : bytes)
  : WM S (bytes * option vmerror * Contract) := fun w =>
  let w := with_depth w (w.(depth) + 1) in
  let leave (w : World S) := with_depth w (w.(depth) - 1) in
  match (a ← CodeAddr c; PrecompiledContracts a) with
  | Some p => (or_panic (RunPrecompiledContract p input c), leave w)
  | None =>
      if zlen c.(Code) =? 0 then (Done ([], None, c), leave w)
      else
        let c := with_Input c input in
        match main (Build_Frame 0 c Memory.NewMemory [] w) with
        | (Done res, f) => (Done (res, None, f.(contract)), leave f.(world))
        | (Error e, f) => (Done ([], Some e, f.(contract)), leave f.(world))
        | (Panic, f) => (Panic, leave f.(world))
        | (NoFuel, f) => (NoFuel, leave f.(world))
        end
  end.

(** *** The entry points, over [Interpreter.Run] *)
Section entry_points.
Variable Run : Contract -> bytes -> WM S (bytes * option vmerror * Contract).

Definition wdb {A} (g : S -> A * S) : WM S A := fun w =>
  let '(a, s) := g w.(statedb) in (Done a, with_statedb w s).
Definition wdo (g : S -> S) : WM S unit :=
  modify (fun w => with_statedb w (g w.(statedb))).
Definition revert (snapshot : Z) : WM S unit := fun w =>
  match RevertToSnapshot snapshot w.(statedb) with
  | Some s => (Done tt, with_statedb w s)
  | None => (Panic, w)
  end.
Definition new_contract (caller : ContractRef) (to : Address) (value gas : Z) : WM S Contract :=
  _ ← modify (fun w => with_jumpdests w (inherit_jumpdests caller w.(jumpdests)));
  mret (NewContract caller to value gas).

(** [contract.SetCallCode(&addr, GetCodeHash(addr), GetCode(addr))] *)
Definition set_call_code (c : Contract) (addr : Address) : WM S Contract :=
  hash ← wdb (GetCodeHash addr);
  code ← wdb (GetCode addr);
  mret (SetCallCode c addr hash code).

(** [Run], then consume the gas and revert on an error. *)
Definition run_or_revert (c : Contract) (input : bytes) (snapshot : Z)
  : WM S (bytes * Z * option vmerror) :=
  '(ret, err, c) ← Run c input;
  match err with
  | None => mret (ret, c.(Gas), None)
  | Some e =>
      let '(_, c) := UseGas c c.(Gas) in
      _ ← revert snapshot;
      mret (ret, c.(Gas), Some e)
  end.

Definition Call_with (caller : ContractRef) (addr : Address) (input : bytes) (gas value : Z)
  : WM S (bytes * Z * option vmerror) :=
  d ← gets depth;
  if NoRecursion cfg && (d >? 0) then mret ([], gas, None)
  else if d >? Params.CallCreateDepth then mret ([], gas, Some ErrDepth)
  else
    can ← wdb (CanTransfer ctx (ref_Address caller) value);
    if negb (can : bool) then mret ([], gas, Some ErrInsufficientBalance)
    else
      snapshot ← wdb Snapshot;
      exists_ ← wdb (Exist addr);
      let start : WM S (bytes * Z * option vmerror) :=
        _ ← wdo (Transfer ctx (ref_Address caller) addr value);
        c ← new_contract caller addr value gas;
        c ← set_call_code c addr;
        run_or_revert c input snapshot in
      if negb (exists_ : bool) then
        if bool_decide (PrecompiledContracts addr = None) && (Big.Sign value =? 0)
        then mret ([], gas, None)
        else _ ← wdo (CreateAccount addr); start
      else start.

Definition CallCode_with (caller : ContractRef) (addr : Address) (input : bytes) (gas value : Z)
  : WM S (bytes * Z * option vmerror) :=
  d ← gets depth;
  if NoRecursion cfg && (d >? 0) then mret ([], gas, None)
  else if d >? Params.CallCreateDepth then mret ([], gas, Some ErrDepth)
  else
    can ← wdb (CanTransfer ctx (ref_Address caller) value);
    if negb (can : bool) then mret ([], gas, Some ErrInsufficientBalance)
    else
      snapshot ← wdb Snapshot;
      c ← new_contract caller (ref_Address caller) value gas;
      c ← set_call_code c addr;
      run_or_revert c input snapshot.

Definition DelegateCall_with (caller : ContractRef) (addr : Address) (input : bytes) (gas : Z)
  : WM S (bytes * Z * option vmerror) :=
  d ← gets depth;
  if NoRecursion cfg && (d >? 0) then mret ([], gas, None)
  else if d >? Params.CallCreateDepth then mret ([], gas, Some ErrDepth)
  else
    snapshot ← wdb Snapshot;
    c ← new_contract caller (ref_Address caller) 0 gas;
    c ← unwrap (AsDelegate c);
    c ← set_call_code c addr;
    run_or_revert c input snapshot.

Definition Create_with (caller : ContractRef) (code : bytes) (gas value : Z)
  : WM S (bytes * Address * Z * option vmerror) :=
  d ← gets depth;
  if NoRecursion cfg && (d >? 0) then mret ([], Common.zeroAddress, gas, None)
  else if d >? Params.CallCreateDepth then mret ([], Common.zeroAddress, gas, Some ErrDepth)
  else
    can ← wdb (CanTransfer ctx (ref_Address caller) value);
    if negb (can : bool) then mret ([], Common.zeroAddress, gas, Some ErrInsufficientBalance)
    else
      nonce ← wdb (GetNonce (ref_Address caller));
      _ ← wdo (SetNonce (ref_Address caller) (u64 (nonce + 1)));
      snapshot ← wdb Snapshot;
      let contractAddr := CreateAddress (ref_Address caller) nonce in
      _ ← wdo (CreateAccount contractAddr);
      _ ← wdo (SetNonce contractAddr 1);
      _ ← wdo (Transfer ctx (ref_Address caller) contractAddr value);
      c ← new_contract caller contractAddr value gas;
      let c := SetCallCode c contractAddr (Keccak256Hash code) code in
      '(ret, err, c) ← Run c [];
      let maxCodeSizeExceeded := zlen ret >? Params.MaxCodeSize in
      '(err, c) ← (if bool_decide (err = None) && negb maxCodeSizeExceeded then
                     let createDataGas := u64 (zlen ret * Params.CreateDataGas) in
                     let '(ok, c) := UseGas c createDataGas in
                     if (ok : bool) then _ ← wdo (SetCode contractAddr ret); mret (err, c)
                     else mret (Some ErrCodeStoreOutOfGas, c)
                   else mret (err, c));
      if maxCodeSizeExceeded
         || (bool_decide (err ≠ None) && bool_decide (err ≠ Some ErrCodeStoreOutOfGas))
      then
        _ ← revert snapshot;
        mret ([], contractAddr, 0, err)
      else
        let ret := if bool_decide (err ≠ None) then [] else ret in
        mret (ret, contractAddr, c.(Gas), err).

Definition calls_with : Calls S :=
  {| do_Call := Call_with; do_CallCode := CallCode_with;
     do_DelegateCall := DelegateCall_with; do_Create := Create_with |}.
End entry_points.

(** [for atomic.LoadInt32(&tiltvm.env.abort) == 0 { ... }] *)
Fixpoint loop (fuel : nat) : VM S bytes :=
  match fuel with
  | O => fun f => (NoFuel, f)
  | Datatypes.S fuel =>
      stop ← aborted;
      if (stop : bool) then mret []
      else
        r ← step (calls_with (Run_with (loop fuel)));
        match r with
        | Some res => mret res
        | None => loop fuel
        end
  end.

Definition Run (fuel : nat) := Run_with (loop fuel).
Definition Call (fuel : nat) := Call_with (Run fuel).
Definition CallCode (fuel : nat) := CallCode_with (Run fuel).
Definition DelegateCall (fuel : nat) := DelegateCall_with (Run fuel).
Definition Create (fuel : nat) := Create_with (Run fuel).

End machine.
