(* ===== verification/VmExec.v ===== *)
(** Every instruction that does not start another contract runs without panic
    on a checked stack and a memory that covers its operands, keeps words in
    range, and leaves the contract, the memory size and the call depth alone. *)
From S2P Require Import Prelude GoBig CommonMath CommonTypes Params VmTypes StateSpec VmGas.
From S2P Require Import VmLogic VmInstr VmInterp.
Import Math.

Definition contract_ok (c : Contract) : Prop :=
  is_bytes c.(Code) /\ zlen c.(Code) < 2 ^ 63 /\ is_bytes c.(Input) /\
  zlen c.(Input) < 2 ^ 63 /\ Common.is_array 20 c.(self) /\
  Common.is_array 20 c.(CallerAddress) /\ word c.(value) /\ 0 <= c.(Gas) < 2 ^ 64.

(** The environment of a run: block data and the transfer functions of
    [core/tiltvm.go]. *)
Definition context_ok {S} `{StateDB S} (ctx : Context S) : Prop :=
  CanTransfer ctx = core_CanTransfer /\ Transfer ctx = core_Transfer /\
  (forall n, Common.is_array 32 (GetHash ctx n)) /\ Common.is_array 20 (Origin ctx) /\
  Common.is_array 20 (Coinbase ctx) /\ word (GasPrice ctx).

(** Names the operands of an instruction. *)
Ltac operands :=
  repeat match goal with
  | H : ?n <= zlen ?st, Hst : Forall word ?st |- _ =>
      assert_fails (constr_eq n 0);
      let x := fresh "x" in let st' := fresh "st" in
      destruct st as [|x st'];
      [exfalso; rewrite zlen_nil in H; lia|];
      apply Forall_cons in Hst as [? Hst]; rewrite zlen_cons in H;
      let H' := fresh in
      assert (H' : n - 1 <= zlen st') by lia; clear H; rename H' into H;
      lazymatch type of H with ?k <= _ =>
        let k' := eval cbv in k in change k with k' in H end
  end.

Section exec.
Context {S : Type} {DB : StateDB S} {CR : Crypto} {CK : CryptoOk} {SL : StateLaws S}.
Variable B : Z.
Hypothesis HB : B < 2 ^ 256.
Variable ctx : Context S.
Variable cfg : Config.
Hypothesis Hctx : context_ok ctx.

Definition exec_pre (f : Frame S) : Prop :=
  Forall word f.(stack) /\ contract_ok f.(contract) /\ is_bytes f.(mem).(Memory.store) /\
  Memory.Len f.(mem) < 2 ^ 63 /\ 0 <= f.(pc) < 2 ^ 64 /\ world_ok B f.(world).

Definition exec_post (delta : Z) (f f' : Frame S) : Prop :=
  Forall word f'.(stack) /\ zlen f'.(stack) = zlen f.(stack) + delta /\
  f'.(contract) = f.(contract) /\ is_bytes f'.(mem).(Memory.store) /\
  Memory.Len f'.(mem) = Memory.Len f.(mem) /\
  Memory.lastGasCost f'.(mem) = Memory.lastGasCost f.(mem) /\
  0 <= f'.(pc) < 2 ^ 64 /\ later B f.(world) f'.(world).

(** The memory contains the range an instruction asks for. *)
Definition covers (ms : option (list Z -> option Z)) (f : Frame S) : Prop :=
  match ms with
  | None => True
  | Some ms => forall size, ms f.(stack) = Some size -> size <= Memory.Len f.(mem)
  end.

Definition exec_ok (pops pushes : Z) (ms : option (list Z -> option Z)) (e : VM S bytes) : Prop :=
  forall f, exec_pre f -> pops <= zlen f.(stack) -> covers ms f ->
  wp e (fun r f' => exec_post (pushes - pops) f f' /\ is_bytes r /\ zlen r < 2 ^ 63)
       (fun f' => f'.(contract) = f.(contract) /\ later B f.(world) f'.(world)) f.

Ltac start :=
  let f := fresh "f" in
  intros f Hpre Hlen Hcov; destruct f as [p c m st w];
  pose proof Hpre as (Hst&Hc&Hm&Hml&Hp&Hw);
  cbn [pc contract mem stack world] in *; operands.

Ltac run1 :=
  lazymatch goal with
  | |- wp (mbind _ _) _ _ _ => apply wp_bind
  | |- wp pop _ _ _ => apply wp_pop
  | |- wp (push _) _ _ _ => apply wp_push
  | |- wp (mret _) _ _ _ => apply wp_ret
  | |- wp ret_nil _ _ _ => apply wp_ret
  | |- wp (gets _) _ _ _ => apply wp_gets; cbn [pc contract mem stack world]
  | |- wp (modify _) _ _ _ => apply wp_modify;
      unfold with_pc, with_mem, with_stack, with_world, with_contract;
      cbn [pc contract mem stack world]
  | |- wp (if ?b then _ else _) _ _ _ => let E := fresh "E" in destruct b eqn:E
  end.
Ltac run := repeat run1.

(** The result of an instruction that only touched the stack. *)
Lemma stack_only delta p c m st w st' w' :
  exec_pre (Build_Frame p c m st w) -> Forall word st' -> zlen st' = zlen st + delta ->
  later B w w' ->
  exec_post delta (Build_Frame p c m st w) (Build_Frame p c m st' w')
  /\ is_bytes [] /\ zlen (@nil Z) < 2 ^ 63.
Proof.
  intros (?&?&?&?&?&?) ? ? ?. split; [split_and!; simpl in *; try done; lia|].
  split; [constructor|]. rewrite zlen_nil. lia.
Qed.

Ltac finish :=
  apply stack_only;
  [assumption
  |repeat (apply Forall_cons; split); eauto with words
  |autorewrite with golib; lia
  |eauto using later_refl, later_trans].
Ltac simple_op := start; run; finish.

(** *** Arithmetic and comparison *)

Lemma opAdd_ok : exec_ok 2 1 None opAdd.
Proof. unfold opAdd. simple_op. Qed.
Lemma opSub_ok : exec_ok 2 1 None opSub.
Proof. unfold opSub. simple_op. Qed.
Lemma opMul_ok : exec_ok 2 1 None opMul.
Proof. unfold opMul. simple_op. Qed.
Lemma opDiv_ok : exec_ok 2 1 None opDiv.
Proof. unfold opDiv. simple_op. Qed.
Lemma opSdiv_ok : exec_ok 2 1 None opSdiv.
Proof. unfold opSdiv. simple_op. Qed.
Lemma opMod_ok : exec_ok 2 1 None opMod.
Proof. unfold opMod. simple_op. Qed.
Lemma opSmod_ok : exec_ok 2 1 None opSmod.
Proof. unfold opSmod. simple_op. Qed.
Lemma opNot_ok : exec_ok 1 1 None opNot.
Proof. unfold opNot. simple_op. Qed.
Lemma opLt_ok : exec_ok 2 1 None opLt.
Proof. unfold opLt. simple_op. Qed.
Lemma opGt_ok : exec_ok 2 1 None opGt.
Proof. unfold opGt. simple_op. Qed.
Lemma opSlt_ok : exec_ok 2 1 None opSlt.
Proof. unfold opSlt. simple_op. Qed.
Lemma opSgt_ok : exec_ok 2 1 None opSgt.
Proof. unfold opSgt. simple_op. Qed.
Lemma opEq_ok : exec_ok 2 1 None opEq.
Proof. unfold opEq. simple_op. Qed.
Lemma opIszero_ok : exec_ok 1 1 None opIszero.
Proof. unfold opIszero. simple_op. Qed.
Lemma opAnd_ok : exec_ok 2 1 None opAnd.
Proof. unfold opAnd. simple_op. Qed.
Lemma opOr_ok : exec_ok 2 1 None opOr.
Proof. unfold opOr. simple_op. Qed.
Lemma opXor_ok : exec_ok 2 1 None opXor.
Proof. unfold opXor. simple_op. Qed.
Lemma opAddmod_ok : exec_ok 3 1 None opAddmod.
Proof. unfold opAddmod. simple_op. Qed.
Lemma opMulmod_ok : exec_ok 3 1 None opMulmod.
Proof. unfold opMulmod. simple_op. Qed.
Lemma opSignExtend_ok : exec_ok 2 1 None opSignExtend.
Proof. unfold opSignExtend. simple_op. Qed.
Lemma opPop_ok : exec_ok 1 0 None opPop.
Proof. unfold opPop. simple_op. Qed.
Lemma opStop_ok : exec_ok 0 0 None opStop.
Proof. unfold opStop. simple_op. Qed.
Lemma opJumpdest_ok : exec_ok 0 0 None opJumpdest.
Proof. unfold opJumpdest. simple_op. Qed.

Lemma opExp_ok : exec_ok 2 1 None opExp.
Proof. unfold opExp. simple_op. Qed.
Lemma opByte_ok : exec_ok 2 1 None opByte.
Proof.
  unfold opByte. start. run; [|finish]. bool_to_prop. unfold word in *.
  rewrite PaddedBigBytes_32, Big.Int64_small by lia.
  pose proof (Common.is_array_be_fixed 32 x0) as [Hl Hb].
  destruct (zget_Some (Big.be_fixed 32 x0) x) as [b Hx]; [lia|].
  apply (wp_unwrap _ b); [done|]. run.
  assert (is_byte b).
  { unfold zget in Hx. case_match; [|done]. by eapply Forall_lookup_1. }
  finish.
Qed.

(** *** Environment *)

Ltac contract_facts :=
  match goal with H : contract_ok _ |- _ => destruct H as (?&?&?&?&?&?&?&?) end.
Ltac env_op := start; contract_facts; destruct Hctx as (?&?&?&?&?&?); run; finish.

Lemma opAddress_ok : exec_ok 0 1 None opAddress.
Proof. unfold opAddress. env_op. Qed.
Lemma opOrigin_ok : exec_ok 0 1 None (opOrigin ctx).
Proof. unfold opOrigin. env_op. Qed.
Lemma opCaller_ok : exec_ok 0 1 None opCaller.
Proof. unfold opCaller. env_op. Qed.
Lemma opCallValue_ok : exec_ok 0 1 None opCallValue.
Proof. unfold opCallValue. env_op. Qed.
Lemma opCalldataSize_ok : exec_ok 0 1 None opCalldataSize.
Proof. unfold opCalldataSize. env_op. Qed.
Lemma opCodeSize_ok : exec_ok 0 1 None opCodeSize.
Proof. unfold opCodeSize. env_op. Qed.
Lemma opGasprice_ok : exec_ok 0 1 None (opGasprice ctx).
Proof. unfold opGasprice. env_op. Qed.
Lemma opBlockhash_ok : exec_ok 1 1 None (opBlockhash ctx).
Proof. unfold opBlockhash. env_op. Qed.
Lemma opCoinbase_ok : exec_ok 0 1 None (opCoinbase ctx).
Proof. unfold opCoinbase. env_op. Qed.
Lemma opTimestamp_ok : exec_ok 0 1 None (opTimestamp ctx).
Proof. unfold opTimestamp. env_op. Qed.
Lemma opNumber_ok : exec_ok 0 1 None (opNumber ctx).
Proof. unfold opNumber. env_op. Qed.
Lemma opDifficulty_ok : exec_ok 0 1 None (opDifficulty ctx).
Proof. unfold opDifficulty. env_op. Qed.
Lemma opGasLimit_ok : exec_ok 0 1 None (opGasLimit ctx).
Proof. unfold opGasLimit. env_op. Qed.
Lemma opPc_ok : exec_ok 0 1 None opPc.
Proof. unfold opPc. env_op. Qed.
Lemma opMsize_ok : exec_ok 0 1 None opMsize.
Proof. unfold opMsize. env_op. Qed.
Lemma opGas_ok : exec_ok 0 1 None opGas.
Proof. unfold opGas. env_op. Qed.

Lemma opCalldataLoad_ok : exec_ok 1 1 None opCalldataLoad.
Proof.
  unfold opCalldataLoad. start. contract_facts. run.
  destruct (getData_ok (Input c) x 32) as (d&Hd&Hb&Hl); [done..| |lia|].
  { match goal with H : word x |- _ => apply H end. }
  apply (wp_unwrap _ d); [done|]. run.
  assert (word (Big.SetBytes d)) by (apply word_SetBytes; [done|lia]). finish.
Qed.

(** *** Database reads *)

Lemma opBalance_ok : exec_ok 1 1 None opBalance.
Proof.
  unfold opBalance. start. run. eapply wp_db_get; [apply law_GetBalance|done|].
  intros w' Hw' Hv. run. pose proof (abs_balance_nonneg B _ (Common.BigToAddress x) (proj1 (proj2 Hw))).
  assert (word (abs_balance (view (statedb w)) (Common.BigToAddress x))) by (unfold word; lia).
  finish.
Qed.

Lemma opSload_ok : exec_ok 1 1 None opSload.
Proof.
  unfold opSload. start. run. eapply wp_db_get; [apply law_GetState|done|].
  intros w' Hw' Hv. run.
  assert (word (Common.Hash_Big (abs_state (view (statedb w)) (self c) (Common.BigToHash x)))).
  { apply word_Hash_Big. by apply (abs_state_array B), Hw. }
  finish.
Qed.

Lemma opExtCodeSize_ok : exec_ok 1 1 None opExtCodeSize.
Proof.
  unfold opExtCodeSize. start. run. unfold wp, db_get. simpl.
  destruct (law_GetCodeSize (Common.BigToAddress x) (statedb w) (proj1 Hw)) as (Hn&Hv&Hk).
  destruct (GetCodeSize _ _) as [n s']. simpl in *.
  assert (word n) by (apply (word_small _ 63); lia).
  assert (later B w (with_statedb w s')).
  { split_and!; [done| |done]. simpl. rewrite Hv. apply Hw. }
  run. finish.
Qed.

(** *** Memory *)

(** The result of an instruction that wrote to memory. *)
Lemma memory_written delta p c m st w st' w' m' :
  exec_pre (Build_Frame p c m st w) -> Forall word st' -> zlen st' = zlen st + delta ->
  later B w w' -> is_bytes m'.(Memory.store) -> Memory.Len m' = Memory.Len m ->
  Memory.lastGasCost m' = Memory.lastGasCost m ->
  exec_post delta (Build_Frame p c m st w) (Build_Frame p c m' st' w')
  /\ is_bytes [] /\ zlen (@nil Z) < 2 ^ 63.
Proof.
  intros (?&?&?&?&?&?) ? ? ? ? ? ?. split; [split_and!; simpl in *; try done; lia|].
  split; [constructor|]. rewrite zlen_nil. lia.
Qed.

Lemma wp_mem_get off size p c m st w (Q : bytes -> Frame S -> Prop) R :
  is_bytes m.(Memory.store) -> Memory.Len m < 2 ^ 63 -> word off -> word size ->
  calcMemSize off size <= Memory.Len m ->
  (forall d, d = (if size =? 0 then [] else ztake size (zdrop off m.(Memory.store))) ->
     is_bytes d -> zlen d = size -> Q d (Build_Frame p c m st w)) ->
  wp (mem_get (Big.Int64 off) (Big.Int64 size)) Q R (Build_Frame p c m st w).
Proof.
  intros Hm Hl [? ?] [? ?] Hcov HQ. unfold mem_get. run.
  eapply wp_unwrap; [by apply memory_Get_ok|].
  destruct (memory_range_ok m off size) as [? ?]; [done..|]. by apply HQ.
Qed.

Lemma wp_mem_set off size v p c m st w (Q : unit -> Frame S -> Prop) R :
  is_bytes m.(Memory.store) -> Memory.Len m < 2 ^ 63 -> 0 <= off -> 0 <= size ->
  calcMemSize off size <= Memory.Len m -> is_bytes v ->
  (forall m', Memory.Set_ m (Big.Uint64 off) (Big.Uint64 size) v = Some m' ->
     is_bytes m'.(Memory.store) -> Memory.Len m' = Memory.Len m ->
     Memory.lastGasCost m' = Memory.lastGasCost m -> Q tt (Build_Frame p c m' st w)) ->
  wp (mem_set (Big.Uint64 off) (Big.Uint64 size) v) Q R (Build_Frame p c m st w).
Proof.
  intros Hm Hl ? ? Hcov Hv HQ. unfold mem_set. run.
  destruct (memory_Set_ok m off size Hm Hl) with (v := v) as (m'&?&?&?&?); [done..|].
  apply (wp_unwrap _ m'); [done|]. run. by apply HQ.
Qed.

(** What coverage says for the operands at hand. *)
Ltac cov := match goal with H : covers _ _ |- _ => exact (H _ eq_refl) end.
Ltac finish_mem :=
  eapply memory_written;
  [assumption|by eauto|autorewrite with golib; lia|by eauto using later_refl, later_trans
  |eassumption..].

(** A copied range fits in memory, so its size is small. *)
Lemma covered_size off l n : word off -> word l -> calcMemSize off l <= n -> n < 2 ^ 63 ->
  0 <= l < 2 ^ 63.
Proof.
  intros [? ?] [? ?] Hc Hn. split; [done|]. destruct (decide (l = 0)); [lia|].
  rewrite calcMemSize_pos in Hc by lia. lia.
Qed.

Lemma opCalldataCopy_ok : exec_ok 3 0 (Some memoryCalldataCopy) opCalldataCopy.
Proof.
  unfold opCalldataCopy. start. contract_facts. run.
  assert (Hx : calcMemSize x x1 <= Memory.Len m) by cov.
  destruct (getData_ok (Input c) x0 x1) as (d&Hd&Hb&Hl); [done..| | |].
  { match goal with H : word x0 |- _ => apply H end. }
  { eauto using covered_size. }
  apply (wp_unwrap _ d); [done|]. run. unfold word in *.
  apply wp_mem_set; [done|done|lia|lia|done|done|]. intros m' _ ? ? ?. run. finish_mem.
Qed.

Lemma opCodeCopy_ok : exec_ok 3 0 (Some memoryCodeCopy) opCodeCopy.
Proof.
  unfold opCodeCopy. start. contract_facts. run.
  assert (Hx : calcMemSize x x1 <= Memory.Len m) by cov.
  destruct (getData_ok (Code c) x0 x1) as (d&Hd&Hb&Hl); [done..| | |].
  { match goal with H : word x0 |- _ => apply H end. }
  { eauto using covered_size. }
  apply (wp_unwrap _ d); [done|]. run. unfold word in *.
  apply wp_mem_set; [done|done|lia|lia|done|done|]. intros m' _ ? ? ?. run. finish_mem.
Qed.

Lemma opExtCodeCopy_ok : exec_ok 4 0 (Some memoryExtCodeCopy) opExtCodeCopy.
Proof.
  unfold opExtCodeCopy. start. run.
  assert (Hx : calcMemSize x0 x2 <= Memory.Len m) by cov.
  eapply wp_db_get; [apply law_GetCode|done|]. intros w' Hw' Hv. run.
  destruct (abs_code_ok B _ (Common.BigToAddress x) (proj1 (proj2 Hw))) as [? ?].
  destruct (getData_ok (abs_code (view (statedb w)) (Common.BigToAddress x)) x1 x2)
    as (d&Hd&Hb&Hl); [done..| | |].
  { match goal with H : word x1 |- _ => apply H end. }
  { eauto using covered_size. }
  apply (wp_unwrap _ d); [done|]. run. unfold word in *.
  apply wp_mem_set; [done|done|lia|lia|done|done|]. intros m' _ ? ? ?. run. finish_mem.
Qed.

Lemma word_32 : word 32.
Proof. unfold word. lia. Qed.

Lemma opMload_ok : exec_ok 1 1 (Some memoryMLoad) opMload.
Proof.
  unfold opMload. start. run. change 32 with (Big.Int64 32).
  apply wp_mem_get; [done..|apply word_32|cov|]. intros d _ Hd Hl. run.
  assert (word (Big.SetBytes d)) by (apply word_SetBytes; [done|lia]). finish.
Qed.

Lemma opMstore_ok : exec_ok 2 0 (Some memoryMStore) opMstore.
Proof.
  unfold opMstore. start. run. change 32 with (Big.Uint64 32) at 1. unfold word in *.
  rewrite PaddedBigBytes_32 by done.
  apply wp_mem_set; [done|done|lia|lia|cov|apply Big.is_bytes_be_fixed|].
  intros m' _ ? ? ?. run. finish_mem.
Qed.

Lemma opMstore8_ok : exec_ok 2 0 (Some memoryMStore8) opMstore8.
Proof.
  unfold opMstore8. start. run.
  assert (Hx : calcMemSize x 1 <= Memory.Len m) by cov.
  rewrite calcMemSize_pos in Hx by lia. unfold word in *. unfold Memory.Len in *.
  unfold Memory.set_byte. rewrite Big.Int64_small, zset_Some by lia.
  eapply wp_unwrap; [done|]. run. eapply memory_written; try done; simpl.
  - autorewrite with golib. lia.
  - by apply later_refl.
  - apply Forall_insert; [done|]. apply Z.mod_pos_bound. lia.
  - unfold Memory.Len, zlen. simpl. by rewrite length_insert.
Qed.

Lemma opSha3_ok : exec_ok 2 1 (Some memorySha3) (opSha3 cfg).
Proof.
  unfold opSha3. start. run.
  apply wp_mem_get; [done|done|done|done|cov|]. intros d _ Hd Hl. run.
  - eapply wp_db_do; [apply law_AddPreimage|done|apply view_ok_AddPreimage, Hw|].
    intros w' Hw' _. run. pose proof (Keccak256_size d) as [? ?].
    assert (word (Big.SetBytes (Keccak256 d))) by (apply word_SetBytes; [done|lia]). finish.
  - pose proof (Keccak256_size d) as [? ?].
    assert (word (Big.SetBytes (Keccak256 d))) by (apply word_SetBytes; [done|lia]). finish.
Qed.

Lemma opReturn_ok : exec_ok 2 0 (Some memoryReturn) opReturn.
Proof.
  unfold opReturn. start. run. assert (Hx : calcMemSize x x0 <= Memory.Len m) by cov.
  assert (0 <= x0 < 2 ^ 63) by (eauto using covered_size). unfold word in *.
  eapply wp_unwrap; [apply memory_GetPtr_ok; try done; lia|].
  destruct (memory_range_ok m x x0) as [Hr Hl]; [done|lia..|done|].
  split; [|split; [done|simpl in *; lia]].
  eapply proj1, stack_only; [done|done|autorewrite with golib; lia|by apply later_refl].
Qed.

(** *** Storage, flow and the remaining families *)

Lemma opSstore_ok : exec_ok 2 0 None opSstore.
Proof.
  unfold opSstore. start. run. eapply wp_db_do; [apply law_SetState|done| |].
  { apply view_ok_SetState; [apply Hw|apply Common.is_array_BigToHash]. }
  intros w' Hw' _. run. finish.
Qed.

Lemma opSuicide_ok : exec_ok 1 0 None opSuicide.
Proof.
  unfold opSuicide. start. run. eapply wp_db_get; [apply law_GetBalance|done|].
  intros w1 Hw1 Hv1. run. unfold wp, mbind, SM_bind, db_do, modify. simpl.
  pose proof (later_ok _ _ _ Hw Hw1) as (Hi1&_&_).
  destruct (law_AddBalance (Common.BigToAddress x) (abs_balance (view (statedb w)) (self c)) _ Hi1)
    as [Hv2 Hk2].
  set (s2 := AddBalance _ _ _) in *. clearbody s2.
  destruct (law_Suicide (self c) s2 (proj1 Hk2)) as [Hv3 Hk3].
  unfold db_get. simpl. destruct (Suicide (self c) s2) as [b s3]. simpl in *.
  assert (Hl : later B w (with_statedb (with_statedb w1 s2) s3)).
  { destruct Hw1 as (?&?&?). split_and!; simpl; [by do 2 (eapply keeps_trans; [eassumption|])| |done].
    rewrite Hv3, Hv2, Hv1. apply view_ok_suicide, Hw. }
  unfold with_world. cbn [pc contract mem stack world]. finish.
Qed.

Lemma wp_valid_dest pos p c m st w (Q : bool -> Frame S -> Prop) R :
  (forall ok d, has w.(jumpdests) c.(CodeHash) c.(Code) pos = (ok, d) ->
     Q ok (Build_Frame p c m st (with_jumpdests w d))) ->
  wp (valid_dest pos) Q R (Build_Frame p c m st w).
Proof. intros HQ. unfold wp, valid_dest. simpl. destruct (has _ _ _ _) eqn:E. by apply HQ. Qed.

(** The result of an instruction that moved the program counter. *)
Lemma jumped delta p c m st w st' w' p' :
  exec_pre (Build_Frame p c m st w) -> Forall word st' -> zlen st' = zlen st + delta ->
  later B w w' -> 0 <= p' < 2 ^ 64 ->
  exec_post delta (Build_Frame p c m st w) (Build_Frame p' c m st' w')
  /\ is_bytes [] /\ zlen (@nil Z) < 2 ^ 63.
Proof.
  intros (?&?&?&?&?&?) ? ? ? ?. split; [split_and!; simpl in *; try done; lia|].
  split; [constructor|]. rewrite zlen_nil. lia.
Qed.
Ltac finish_jump :=
  eapply jumped;
  [eassumption|by eauto|autorewrite with golib; lia|by apply later_cache, later_refl
  |auto using Big.Uint64_range, u64_range].

Lemma opJump_ok : exec_ok 1 0 None opJump.
Proof.
  unfold opJump. start. run. apply wp_valid_dest. intros ok d _. run.
  - apply wp_throw. split; [done|]. by apply later_cache, later_refl.
  - finish_jump.
Qed.

Lemma opJumpi_ok : exec_ok 2 0 None opJumpi.
Proof.
  unfold opJumpi. start. run.
  - apply wp_valid_dest. intros ok d _. run.
    + apply wp_throw. split; [done|]. by apply later_cache, later_refl.
    + finish_jump.
  - eapply jumped; [eassumption|by eauto|autorewrite with golib; lia|by apply later_refl|].
    apply u64_range.
Qed.

Lemma makePush_ok n : 0 <= n <= 32 -> exec_ok 0 1 None (makePush n n).
Proof.
  intros Hn. unfold makePush. start. contract_facts. run.
  pose proof (u64_range (p + 1)).
  destruct (getData_ok (Code c) (u64 (p + 1)) n) as (d&Hd&Hb&Hl); [done|done|lia|lia|].
  apply (wp_unwrap _ d); [done|]. run.
  assert (word (Big.SetBytes d)) by (apply word_SetBytes; [done|lia]).
  eapply jumped; [eassumption| |autorewrite with golib; lia|by apply later_refl|].
  - by apply Forall_cons.
  - apply u64_range.
Qed.

Lemma makeDup_ok n : 1 <= n -> exec_ok n (n + 1) None (makeDup n).
Proof.
  intros Hn f Hpre Hlen _. unfold makeDup, dup. destruct f as [p c m st w].
  pose proof Hpre as (Hst&_&_&_&_&Hw). simpl in *. run.
  destruct (zget_Some st (n - 1)) as [x Hx]; [lia|].
  apply (wp_unwrap _ x); [done|]. run.
  assert (word x) by (unfold zget in Hx; case_match; [by eapply Forall_lookup_1|done]).
  apply stack_only; [done|by apply Forall_cons|autorewrite with golib; lia|by apply later_refl].
Qed.

Lemma makeSwap_ok n : 1 <= n -> exec_ok (n + 1) (n + 1) None (makeSwap n).
Proof.
  intros Hn f Hpre Hlen _. unfold makeSwap, swap. destruct f as [p c m st w].
  pose proof Hpre as (Hst&_&_&_&_&Hw). simpl in *. run.
  assert (Hword : forall i y, zget st i = Some y -> word y).
  { intros i y Hy. unfold zget in Hy. case_match; [by eapply Forall_lookup_1|done]. }
  destruct (zget_Some st (n + 1 - 1)) as [x Hx]; [lia|].
  apply (wp_unwrap _ x); [done|]. run.
  destruct (zget_Some st 0) as [t Ht]; [lia|]. apply (wp_unwrap _ t); [done|]. run.
  eapply wp_unwrap; [apply zset_Some; lia|]. run.
  eapply wp_unwrap; [apply zset_Some; unfold zlen in *; rewrite length_insert; lia|]. run.
  apply stack_only; [done| | |by apply later_refl].
  - eauto using Forall_insert.
  - unfold zlen. rewrite !length_insert. lia.
Qed.

Lemma wp_pop_topics n p c m st w (Q : list Hash -> Frame S -> Prop) R :
  Z.of_nat n <= zlen st ->
  (forall topics, Q topics (Build_Frame p c m (drop n st) w)) ->
  wp (pop_topics n) Q R (Build_Frame p c m st w).
Proof.
  revert st Q. induction n as [|n IH]; intros st Q Hn HQ; simpl; run; [by apply HQ|].
  destruct st as [|x st]; [rewrite zlen_nil in Hn; lia|]. rewrite zlen_cons in Hn. run.
  apply IH; [lia|]. intros topics. run. by apply HQ.
Qed.

Lemma makeLog_ok n : 0 <= n -> exec_ok (n + 2) 0 (Some memoryLog) (makeLog ctx n).
Proof.
  intros Hn f Hpre Hlen Hcov. unfold makeLog. destruct f as [p c m st w].
  pose proof Hpre as (Hst&_&Hm&Hml&_&Hw). simpl in Hlen, Hst, Hm, Hml, Hw.
  destruct st as [|x [|y st]]; [rewrite ?zlen_cons, ?zlen_nil in Hlen; lia..|].
  rewrite !zlen_cons in Hlen. rewrite !Forall_cons in Hst. destruct Hst as (Hx&Hy&Hst).
  run. apply wp_pop_topics; [lia|]. intros topics. run.
  apply wp_mem_get; [done|done|done|done|cov|]. intros d _ Hd Hl. run.
  unfold wp, db_do, modify, mbind, SM_bind. simpl.
  match goal with |- context [AddLog ?l _] =>
    destruct (law_AddLog l (statedb w) (proj1 Hw)) as (h&l'&_&_&_&Hv&Hk);
    set (s' := AddLog l _) in * end. clearbody s'.
  apply stack_only; [done|by apply Forall_drop| |].
  - unfold zlen in *. simpl. rewrite length_drop. lia.
  - split_and!; [done| |done]. simpl. rewrite Hv. apply view_ok_logs, Hw.
Qed.
End exec.
