(* ===== verification/VmGasOk.v ===== *)
(** Gas accounting: every gas function charges at least its fixed part and the
    fee of the requested memory, without panic and without changing anything but
    the fee total, the refund counter and, for the call instructions, the gas
    operand. *)
From S2P Require Import Prelude GoBig CommonMath CommonTypes Params VmTypes StateSpec VmGas.
From S2P Require Import VmLogic VmInstr VmInterp VmExec.
Import Math.

(** ** Checked arithmetic *)
Section checked.
Context {S : Type}.

Lemma wp_SafeAdd x y (Q : Z -> Frame S -> Prop) (R : Frame S -> Prop) f :
  0 <= x < 2 ^ 64 -> 0 <= y < 2 ^ 64 -> (x + y < 2 ^ 64 -> Q (x + y) f) -> R f ->
  wp (checked (SafeAdd x y)) Q R f.
Proof.
  intros Hx Hy HQ HR. apply wp_checked; [|done]. intros Hf.
  destruct (SafeAdd x y) as [s o] eqn:E. simpl in *. subst o.
  apply SafeAdd_false in E as [-> ?]; [|done..]. by apply HQ.
Qed.

Lemma wp_SafeMul x y (Q : Z -> Frame S -> Prop) (R : Frame S -> Prop) f :
  0 <= x < 2 ^ 64 -> 0 <= y < 2 ^ 64 -> (x * y < 2 ^ 64 -> Q (x * y) f) -> R f ->
  wp (checked (SafeMul x y)) Q R f.
Proof.
  intros Hx Hy HQ HR. apply wp_checked; [|done]. intros Hf.
  destruct (SafeMul x y) as [s o] eqn:E. simpl in *. subst o.
  apply SafeMul_false in E as [-> ?]; [|done..]. by apply HQ.
Qed.

Lemma wp_bigUint64 x (Q : Z -> Frame S -> Prop) (R : Frame S -> Prop) f :
  0 <= x -> (x < 2 ^ 64 -> Q x f) -> R f -> wp (checked (bigUint64 x)) Q R f.
Proof.
  intros Hx HQ HR. apply wp_checked; [|done]. unfold bigUint64. simpl.
  rewrite Big.BitLen_gt by lia. intros ?. bool_to_prop.
  rewrite Big.Uint64_small by lia. apply HQ. lia.
Qed.
End checked.

Lemma toWordSize_spec n : 0 <= n < 2 ^ 64 -> toWordSize n = (n + 31) / 32.
Proof.
  intros Hn. unfold toWordSize, MaxUint64. rewrite Z.gtb_ltb.
  case_match; [|done]. bool_to_prop.
  change ((2 ^ 64 - 1) / 32 + 1) with (2 ^ 59).
  apply (Z.div_unique _ 32 _ (n + 31 - 32 * 2 ^ 59)); lia.
Qed.

(** ** The memory fee *)

(** What [memoryGasCost] charges for [ms] bytes (whole words): nothing when the
    memory is large enough, else the difference to the new total. *)
Definition fee_rel (m : Memory.t) (ms fee : Z) (m' : Memory.t) : Prop :=
  m'.(Memory.store) = m.(Memory.store) /\ 0 <= fee < 2 ^ 64 /\
  ((m' = m /\ fee = 0 /\ (ms = 0 \/ ms <= Memory.Len m)) \/
   (Memory.Len m < ms /\ ms <= MaxUint64 - 32 /\
    m'.(Memory.lastGasCost) = u64 (u64 (ms / 32 * 3) + u64 (ms / 32 * (ms / 32)) / 512) /\
    fee = u64 (m'.(Memory.lastGasCost) - m.(Memory.lastGasCost)))).

Lemma fee_rel_0 m : fee_rel m 0 0 m.
Proof. split_and!; [done|lia|lia|]. by left; auto. Qed.

Lemma words_of_multiple ms : 0 <= ms -> ms mod 32 = 0 -> (ms + 31) / 32 = ms / 32.
Proof.
  intros ? Hm. rewrite (Z.div_mod ms 32), Hm by lia.
  rewrite Z.add_0_r, (Z.mul_comm 32), Z.div_add_l, Z.div_mul by lia.
  change (31 / 32) with 0. lia.
Qed.

Lemma wp_memoryGasCost {S} ms p c m st (w : World S) (Q : Z -> Frame S -> Prop)
    (R : Frame S -> Prop) :
  0 <= ms < 2 ^ 64 -> ms mod 32 = 0 ->
  (forall fee m', fee_rel m ms fee m' -> Q fee (Build_Frame p c m' st w)) ->
  R (Build_Frame p c m st w) ->
  wp (memoryGasCost ms) Q R (Build_Frame p c m st w).
Proof.
  intros Hms Hmod HQ HR. unfold memoryGasCost.
  destruct (ms >? MaxUint64 - 32) eqn:Hbig; [by apply wp_throw|].
  destruct (ms =? 0) eqn:Hz; bool_to_prop; [subst; apply wp_ret, HQ, fee_rel_0|].
  apply wp_bind, wp_gets. cbn [mem].
  rewrite toWordSize_spec, words_of_multiple by lia.
  assert (Hw : u64 (ms / 32 * 32) = ms).
  { rewrite u64_small; pose proof (Z.div_mod ms 32); lia. }
  rewrite Hw. destruct (ms >? Memory.Len m) eqn:Hlen; bool_to_prop.
  - apply wp_bind, wp_modify, wp_ret. apply HQ. unfold Params.MemoryGas, Params.QuadCoeffDiv.
    split_and!; simpl; [done|apply u64_range|apply u64_range|]. right. simpl. auto.
  - apply wp_ret, HQ. split_and!; [done|lia|lia|]. left. auto.
Qed.

(** A fee that was paid out of [gas]: the fee total and the remaining gas stay
    within the initial gas, and the total pays for the memory size.  The square
    may wrap; the linear part alone bounds the size. *)
Lemma fee_paid m ms fee m' gas G :
  0 <= m.(Memory.lastGasCost) -> 3 * Memory.Len m <= 32 * m.(Memory.lastGasCost) ->
  0 <= ms < 2 ^ 64 -> ms mod 32 = 0 -> fee_rel m ms fee m' ->
  fee <= gas -> m.(Memory.lastGasCost) + gas <= G -> G < 2 ^ 64 ->
  m'.(Memory.lastGasCost) + (gas - fee) <= G /\ 0 <= m'.(Memory.lastGasCost) /\
  3 * Z.max ms (Memory.Len m') <= 32 * m'.(Memory.lastGasCost).
Proof.
  intros Hl Hm Hms Hmod (Hst&Hfee&[(->&->&Hc)|(Hlt&Hmax&Hlast&Hf)]) Hpay HG HG'.
  - pose proof (zlen_nonneg m.(Memory.store)). unfold Memory.Len in *. lia.
  - unfold MaxUint64 in Hmax. set (k := ms / 32) in *.
    assert (Hk : ms = 32 * k) by (pose proof (Z.div_mod ms 32); lia).
    assert (Hq : 0 <= u64 (k * k) / 512 < 2 ^ 55).
    { pose proof (u64_range (k * k)). split; [apply Z.div_pos; lia|].
      apply Z.div_lt_upper_bound; lia. }
    rewrite (u64_small (k * 3)) in Hlast by lia. rewrite u64_small in Hlast by lia.
    assert (Hsum : m.(Memory.lastGasCost) + fee = m'.(Memory.lastGasCost)).
    { rewrite <- (u64_small (_ + fee)), <- (u64_small m'.(Memory.lastGasCost)) by lia.
      rewrite Hf. unfold u64. rewrite Zplus_mod_idemp_r. f_equal. lia. }
    unfold Memory.Len in *. rewrite Hst. split_and!; lia.
Qed.

(** ** The gas functions *)
Section gas_functions.
Context {S : Type} {DB : StateDB S} {CR : Crypto} {CK : CryptoOk} {SL : StateLaws S}.
Variable B : Z.

Abbreviation gt := Params.ChainConfig_GasTable.

(** The frame an instruction leaves when charging fails. *)
Definition unchanged (f f' : Frame S) : Prop :=
  f'.(contract) = f.(contract) /\ later B f.(world) f'.(world).

Definition gas_ok (hasmem : bool) (pops least : Z) (g : Params.GasTable -> Z -> VM S Z) : Prop :=
  forall f ms, exec_pre B f -> pops <= zlen f.(stack) -> 0 <= ms < 2 ^ 64 -> ms mod 32 = 0 ->
  (hasmem = false -> ms = 0) ->
  wp (g gt ms) (fun cost f' => exists fee m' w',
        fee_rel f.(mem) ms fee m' /\ fee + least <= cost < 2 ^ 64 /\ later B f.(world) w' /\
        f' = Build_Frame f.(pc) f.(contract) m' f.(stack) w')
     (unchanged f) f.

Ltac gstart :=
  let f := fresh "f" in
  intros f ms Hpre Hlen Hms Hmod Hmem; destruct f as [p c m st w];
  pose proof Hpre as (Hst&_&_&_&_&Hw);
  cbn [pc contract mem stack world] in *;
  assert (Hrefl : later B w w) by (by apply later_refl).

Lemma const_gas_ok pops k least : least <= k -> 0 <= k < 2 ^ 64 ->
  gas_ok false pops least (constGasFunc k).
Proof.
  intros. gstart. rewrite (Hmem eq_refl). apply wp_ret. exists 0, m, w.
  split_and!; auto using fee_rel_0; lia.
Qed.

Lemma stack_word n (f : Frame S) : Forall word f.(stack) -> 0 <= n < zlen f.(stack) ->
  exists x, zget f.(stack) n = Some x /\ word x.
Proof.
  intros Hst Hn. destruct (zget_Some f.(stack) n Hn) as [x Hx]. exists x. split; [done|].
  unfold zget in Hx. case_match; [by eapply Forall_lookup_1|done].
Qed.

Lemma wp_Back_word n f (Q : Z -> Frame S -> Prop) R :
  Forall word f.(stack) -> 0 <= n < zlen f.(stack) ->
  (forall x, zget f.(stack) n = Some x -> word x -> Q x f) -> wp (Back n) Q R f.
Proof. intros Hst Hn HQ. destruct (stack_word n f) as (x&Hx&?); [done..|]. eauto using wp_Back. Qed.

(** Ends a run of a gas function with known fee and cost. *)
Ltac gfinish :=
  cbv beta; do 3 eexists; split; [eassumption|]; split; [lia|];
  split; [eassumption|reflexivity].
Ltac gerr := split; [reflexivity|eassumption].
Ltac gfee := 
  apply wp_memoryGasCost; [assumption|assumption| |gerr];
  let fee := fresh "fee" in let m' := fresh "m'" in let Hfee := fresh "Hfee" in
  intros fee m' Hfee; pose proof Hfee as (_&?&_).
Ltac gconsts := unfold GasFastestStep, GasSlowStep, Params.CreateGas, Params.Sha3Gas,
  Params.LogGas, Params.LogDataGas, Params.CopyGas, Params.Sha3WordGas in *;
  cbn [Params.ChainConfig_GasTable Params.TiltGasTable Params.ExtcodeCopy Params.Calls] in *.
Ltac grun1 :=
  lazymatch goal with
  | |- wp (mbind _ _) _ _ _ => apply wp_bind
  | |- wp (mret _) _ _ _ => apply wp_ret
  | |- wp (gets _) _ _ _ => apply wp_gets; cbn [pc contract mem stack world]
  | |- wp (memoryGasCost _) _ _ _ => gfee
  | |- wp (checked (SafeAdd _ _)) _ _ _ =>
      apply wp_SafeAdd; [gconsts; lia|gconsts; lia| |gerr]; intros ?
  | |- wp (checked (bigUint64 _)) _ _ _ => apply wp_bigUint64; [lia| |gerr]; intros ?
  | |- wp (Back _) _ _ _ =>
      let x := fresh "x" in let Hx := fresh "Hx" in let Hw := fresh "Hword" in
      apply wp_Back_word; [assumption|cbn [stack]; lia|]; intros x Hx Hw; unfold word in Hw
  end.
Ltac grun := repeat grun1.

Lemma toWordSize_range n : 0 <= n < 2 ^ 64 -> 0 <= toWordSize n < 2 ^ 64.
Proof.
  intros. rewrite toWordSize_spec by done. split; [apply Z.div_pos; lia|].
  apply Z.div_lt_upper_bound; lia.
Qed.

Lemma gasMLoad_ok pops : gas_ok true pops 1 gasMLoad.
Proof. unfold gasMLoad. gstart. grun. gconsts. gfinish. Qed.
Lemma gasMStore_ok pops : gas_ok true pops 1 gasMStore.
Proof. unfold gasMStore. gstart. grun. gconsts. gfinish. Qed.
Lemma gasMStore8_ok pops : gas_ok true pops 1 gasMStore8.
Proof. unfold gasMStore8. gstart. grun. gconsts. gfinish. Qed.
Lemma gasCreate_ok pops : gas_ok true pops 1 gasCreate.
Proof. unfold gasCreate. gstart. grun. gconsts. gfinish. Qed.
Lemma gasReturn_ok pops : gas_ok true pops 0 gasReturn.
Proof. unfold gasReturn. gstart. grun. gfinish. Qed.

(** The copy gas: [fee + fixed + words * perWord]. *)
Ltac gwords n :=
  apply wp_SafeMul;
  [apply (toWordSize_range n); lia|gconsts; lia| |gerr]; intros ?;
  pose proof (toWordSize_range n ltac:(lia));
  match goal with |- context [?a * ?b] =>
    let W := fresh "words" in set (W := a * b) in *;
    assert (0 <= W) by (unfold W; apply Z.mul_nonneg_nonneg; gconsts; lia);
    clearbody W
  end.

Lemma gasCalldataCopy_ok : gas_ok true 3 1 gasCalldataCopy.
Proof. unfold gasCalldataCopy. gstart. grun. gwords x. grun. gconsts. gfinish. Qed.
Lemma gasCodeCopy_ok : gas_ok true 3 1 gasCodeCopy.
Proof. unfold gasCodeCopy. gstart. grun. gwords x. grun. gconsts. gfinish. Qed.
Lemma gasExtCodeCopy_ok : gas_ok true 4 1 gasExtCodeCopy.
Proof. unfold gasExtCodeCopy. gstart. grun. gwords x. grun. gconsts. gfinish. Qed.
Lemma gasSha3_ok : gas_ok true 2 1 gasSha3.
Proof. unfold gasSha3. gstart. grun. gwords x. grun. gconsts. gfinish. Qed.

Lemma makeGasLog_ok pops n : 0 <= n <= 4 -> 2 <= pops -> gas_ok true pops 1 (makeGasLog n).
Proof.
  intros Hn Hp. unfold makeGasLog. gstart.
  rewrite (u64_small (n * Params.LogTopicGas)) by (unfold Params.LogTopicGas; lia).
  unfold Params.LogTopicGas. grun. apply wp_SafeMul; [lia|gconsts; lia| |gerr]. intros ?.
  grun. gconsts. gfinish.
Qed.

Lemma gasExp_ok : gas_ok false 2 1 gasExp.
Proof.
  unfold gasExp. gstart. rewrite (Hmem eq_refl). grun.
  pose proof (u64_range ((Big.BitLen x + 7) / 8 * Params.ExpByte gt)). grun.
  unfold GasSlowStep in *. exists 0, m, w. split_and!; auto using fee_rel_0; lia.
Qed.

Lemma gasBalance_ok pops : gas_ok false pops 1 gasBalance.
Proof. apply (const_gas_ok pops 400); lia. Qed.
Lemma gasExtCodeSize_ok pops : gas_ok false pops 1 gasExtCodeSize.
Proof. apply (const_gas_ok pops 700); lia. Qed.
Lemma gasSLoad_ok pops : gas_ok false pops 1 gasSLoad.
Proof. apply (const_gas_ok pops 200); lia. Qed.
Lemma gasPush_ok pops : gas_ok false pops 1 gasPush.
Proof. apply (const_gas_ok pops 3); lia. Qed.
Lemma gasDup_ok pops : gas_ok false pops 1 gasDup.
Proof. apply (const_gas_ok pops 3); lia. Qed.
Lemma gasSwap_ok pops : gas_ok false pops 1 gasSwap.
Proof. apply (const_gas_ok pops 3); lia. Qed.

Lemma gasSStore_ok : gas_ok false 2 1 gasSStore.
Proof.
  unfold gasSStore. gstart. rewrite (Hmem eq_refl). grun.
  eapply wp_db_get; [apply law_GetState|done|]. intros w1 Hw1 Hv1.
  assert (Hok1 : world_ok B w1) by eauto using later_ok.
  case_match; [|case_match].
  - apply wp_ret. exists 0, m, w1. split_and!; auto using fee_rel_0;
      unfold Params.SstoreSetGas; lia.
  - apply wp_bind. eapply wp_db_do; [apply law_AddRefund|done|apply view_ok_AddRefund; [apply Hok1|by vm_compute]|].
    intros w2 Hw2 _. apply wp_ret. exists 0, m, w2.
    split_and!; eauto using fee_rel_0, later_trans; unfold Params.SstoreClearGas; lia.
  - apply wp_ret. exists 0, m, w1. split_and!; auto using fee_rel_0;
      unfold Params.SstoreResetGas; lia.
Qed.

Lemma gasSuicide_ok : gas_ok false 1 0 gasSuicide.
Proof.
  unfold gasSuicide. gstart. rewrite (Hmem eq_refl). grun.
  eapply wp_db_get; [apply law_Empty|done|]. intros w1 Hw1 Hv1.
  assert (Hok1 : world_ok B w1) by eauto using later_ok. apply wp_bind.
  assert (Hrest : forall b w2, later B w w2 ->
    wp (suicided ← db_get (HasSuicided (self c));
        _ ← (if (suicided : bool) then mret tt else db_do (AddRefund Params.SuicideRefundGas));
        mret (if (abs_empty (view (statedb w)) (Common.BigToAddress x)) && negb (Big.Sign b =? 0)
              then u64 (Params.Suicide gt + Params.CreateBySuicide gt) else Params.Suicide gt))
    (fun cost f' => exists fee m' w',
        fee_rel m 0 fee m' /\ fee + 0 <= cost < 2 ^ 64 /\ later B w w' /\
        f' = Build_Frame p c m' st w')
    (unchanged (Build_Frame p c m st w)) (Build_Frame p c m st w2)).
  { intros b w2 Hw2. assert (Hok2 : world_ok B w2) by eauto using later_ok.
    apply wp_bind. eapply wp_db_get; [apply law_HasSuicided|done|]. intros w3 Hw3 _.
    assert (Hok3 : world_ok B w3) by eauto using later_ok. apply wp_bind.
    destruct (abs_suicided _ _).
    - apply wp_ret, wp_ret. exists 0, m, w3. split_and!; eauto using fee_rel_0, later_trans;
        case_match; by vm_compute.
    - eapply wp_db_do; [apply law_AddRefund|done|apply view_ok_AddRefund; [apply Hok3|by vm_compute]|].
      intros w4 Hw4 _. apply wp_ret. exists 0, m, w4.
      split_and!; eauto using fee_rel_0, later_trans; case_match; by vm_compute. }
  destruct (abs_empty _ _) eqn:He.
  - eapply wp_db_get; [apply law_GetBalance|done|]. intros w2 Hw2 _. simpl.
    apply Hrest. eauto using later_trans.
  - apply wp_ret. by apply (Hrest 0).
Qed.

(** *** Call instructions *)

Lemma callGas_ok avail base cost :
  match callGas gt avail base cost with
  | Done g => 0 <= g < 2 ^ 64
  | Error _ => True
  | _ => False
  end.
Proof.
  unfold callGas. pose proof (Big.Uint64_range cost).
  pose proof (u64_range (u64 (avail - base) - u64 (avail - base) / 64)).
  repeat case_match; try done; simplify_eq; done.
Qed.

Lemma wp_callGas avail base cost (Q : Z -> Frame S -> Prop) (R : Frame S -> Prop) f :
  (forall g, 0 <= g < 2 ^ 64 -> Q g f) -> R f -> wp (lift (callGas gt avail base cost)) Q R f.
Proof.
  intros HQ HR. unfold wp, lift. pose proof (callGas_ok avail base cost) as Hg.
  destruct (callGas _ _ _ _); auto.
Qed.

Lemma wp_set_top v x p c m st w (Q : unit -> Frame S -> Prop) R :
  Q tt (Build_Frame p c m (v :: st) w) ->
  wp (set_top v) Q R (Build_Frame p c m (x :: st) w).
Proof.
  intros HQ. unfold set_top. apply wp_bind, wp_gets, wp_bind. cbn [stack].
  eapply wp_unwrap; [apply zset_Some; rewrite zlen_cons; pose proof (zlen_nonneg st); lia|].
  by apply wp_modify.
Qed.

(** The charge for moving value, from the third operand. *)
Definition value_gas (st : list Z) : Z :=
  match st with
  | _ :: _ :: v :: _ => if v =? 0 then 0 else Params.CallValueTransferGas
  | _ => 0
  end.

Definition call_gas_ok (pops : Z) (extra : list Z -> Z) (g : Params.GasTable -> Z -> VM S Z)
  : Prop :=
  forall f ms, exec_pre B f -> pops <= zlen f.(stack) -> 0 <= ms < 2 ^ 64 -> ms mod 32 = 0 ->
  wp (g gt ms) (fun cost f' => exists fee m' w' x st cg,
        f.(stack) = x :: st /\ 0 <= cg < 2 ^ 64 /\
        fee_rel f.(mem) ms fee m' /\ fee + cg + 700 + extra f.(stack) <= cost < 2 ^ 64 /\
        later B f.(world) w' /\ f' = Build_Frame f.(pc) f.(contract) m' (cg :: st) w')
     (unchanged f) f.

Ltac gcall_end :=
  apply wp_callGas; [|gerr]; intros cg Hcg; apply wp_bind, wp_set_top;
  apply wp_SafeAdd; [lia|lia| |gerr]; intros ?; cbv beta;
  do 6 eexists; split; [reflexivity|]; split; [eassumption|]; split; [eassumption|];
  split; [lia|]; split; [eassumption|reflexivity].

Lemma Sign_eqb v : (Big.Sign v =? 0) = (v =? 0).
Proof. unfold Big.Sign. by destruct v. Qed.

Lemma gasCall_ok : call_gas_ok 7 value_gas gasCall.
Proof.
  unfold gasCall. intros f ms Hpre Hlen Hms Hmod. destruct f as [p c m st w].
  pose proof Hpre as (Hst&_&_&_&_&Hw). cbn [pc contract mem stack world] in *.
  destruct st as [|x [|a [|v st]]]; [rewrite ?zlen_cons, ?zlen_nil in Hlen; lia..|].
  apply wp_bind, (wp_Back _ v); [done|]. apply wp_bind, (wp_Back _ a); [done|]. apply wp_bind.
  eapply wp_db_get; [apply law_Empty|done|]. intros w1 Hw1 _.
  set (base := if negb (Big.Sign v =? 0) then u64 _ else _).
  set (extra := value_gas (x :: a :: v :: st)).
  assert (Hbase : 0 <= extra /\ 700 + extra <= base < 2 ^ 60).
  { subst base extra. simpl. rewrite Sign_eqb. destruct (v =? 0), (abs_empty _ _); simpl;
      split_and!; by vm_compute. }
  clearbody base extra. grun. gcall_end.
Qed.

Lemma gasCallCode_ok : call_gas_ok 7 value_gas gasCallCode.
Proof.
  unfold gasCallCode. intros f ms Hpre Hlen Hms Hmod. destruct f as [p c m st w].
  pose proof Hpre as (Hst&_&_&_&_&Hw). cbn [pc contract mem stack world] in *.
  destruct st as [|x [|a [|v st]]]; [rewrite ?zlen_cons, ?zlen_nil in Hlen; lia..|].
  assert (Hrefl : later B w w) by (by apply later_refl).
  apply wp_bind, (wp_Back _ v); [done|].
  set (base := if negb (Big.Sign v =? 0) then u64 _ else _).
  set (extra := value_gas (x :: a :: v :: st)).
  assert (Hbase : 0 <= extra /\ 700 + extra <= base < 2 ^ 60).
  { subst base extra. simpl. rewrite Sign_eqb. destruct (v =? 0); simpl;
      split_and!; by vm_compute. }
  clearbody base extra. grun. gcall_end.
Qed.

Lemma gasDelegateCall_ok : call_gas_ok 6 (fun _ => 0) gasDelegateCall.
Proof.
  unfold gasDelegateCall. intros f ms Hpre Hlen Hms Hmod. destruct f as [p c m st w].
  pose proof Hpre as (Hst&_&_&_&_&Hw). cbn [pc contract mem stack world] in *.
  destruct st as [|x st]; [rewrite zlen_nil in Hlen; lia|].
  assert (Hrefl : later B w w) by (by apply later_refl).
  grun. gconsts. gcall_end.
Qed.
End gas_functions.
