(* ===== verification/VmStep.v ===== *)
(** One iteration of the interpreter loop: from a well-formed frame an operation
    of the instruction table either fails without touching gas or snapshots it
    does not own, or leaves a well-formed frame with less gas; every entry of the table is
    such an operation. *)
From S2P Require Import Prelude GoBig CommonMath CommonTypes Params VmTypes StateSpec VmGas VmLogic VmInstr VmJumpTable VmInterp.
From S2P Require Import VmExec VmGasOk.
Import Math.

(** A caller of the machine. *)
Definition ref_ok (r : ContractRef) : Prop :=
  match r with
  | AccountRef a => Common.is_array 20 a
  | ContractPtr s c v => Common.is_array 20 s /\ Common.is_array 20 c /\ word v
  end.
Definition is_contract (r : ContractRef) : Prop :=
  match r with AccountRef _ => False | ContractPtr _ _ _ => True end.

Section step.
Context {S : Type} {DB : StateDB S} {CR : Crypto} {CK : CryptoOk} {SL : StateLaws S}.
Variable B : Z.
Hypothesis HB : B < 2 ^ 256.
Variable ctx : Context S.
Variable cfg : Config.
Hypothesis Hctx : context_ok ctx.
Hypothesis Hmeter : DisableGasMetering cfg = false.

(** ** Well-formed frames *)

(** A frame of a contract started with [G] gas. *)
Definition frame_ok (G : Z) (f : Frame S) : Prop :=
  Forall word f.(stack) /\ zlen f.(stack) <= Params.StackLimit /\ contract_ok f.(contract) /\
  is_bytes f.(mem).(Memory.store) /\ 0 <= f.(pc) < 2 ^ 64 /\ world_ok B f.(world) /\
  0 <= f.(mem).(Memory.lastGasCost) /\
  3 * Memory.Len f.(mem) <= 32 * f.(mem).(Memory.lastGasCost) /\
  f.(mem).(Memory.lastGasCost) + f.(contract).(Gas) <= G.

(** Gas up to which memory sizes stay within [int64]. *)
Definition max_gas : Z := 3 * 2 ^ 58.

Lemma frame_ok_pre G f : G < max_gas -> frame_ok G f -> exec_pre B f.
Proof.
  unfold max_gas. intros HG (?&?&Hc&?&?&?&?&?&?).
  assert (0 <= Gas (contract f)) by (destruct Hc as (?&?&?&?&?&?&?&?); lia).
  split_and!; try done; lia.
Qed.

(** ** What a call promises *)


(** A failed call returns no gas, unless it was refused before it started. *)
Definition error_gas (err : option vmerror) (gas gleft : Z) : Prop :=
  gleft = 0 \/ gleft = gas /\ (err = Some ErrDepth \/ err = Some ErrInsufficientBalance).
Definition run_call (m : WM S (bytes * Z * option vmerror)) (gas : Z) (w : World S) : Prop :=
  match m w with
  | (Done (ret, gleft, err), w') =>
      is_bytes ret /\ zlen ret < 2 ^ 63 /\ 0 <= gleft <= gas /\ later B w w' /\
      (err <> None -> view w'.(statedb) = view w.(statedb) /\ error_gas err gas gleft)
  | _ => False
  end.
(** A failed creation leaves at most the raised nonce of the creator; running
    out of gas for the code storage is the exception. *)
Definition create_undone (creator : Address) (err : option vmerror) (w w' : World S) : Prop :=
  err <> None -> err <> Some ErrCodeStoreOutOfGas ->
  view w'.(statedb) = view w.(statedb) \/
  view w'.(statedb) =
    abs_SetNonce creator (u64 (abs_nonce (view w.(statedb)) creator + 1)) (view w.(statedb)).
Definition run_create (creator : Address) (m : WM S (bytes * Address * Z * option vmerror))
    (gas : Z) (w : World S) : Prop :=
  match m w with
  | (Done (ret, addr, gleft, err), w') =>
      is_bytes ret /\ Common.is_array 20 addr /\ 0 <= gleft <= gas /\ later B w w' /\
      create_undone creator err w w'
  | _ => False
  end.

(** The calls behave for every amount of gas below [g]. *)
Record calls_ok (g : Z) (calls : Calls S) : Prop := {
  ok_Call caller addr input gas value w :
    ref_ok caller -> Common.is_array 20 addr -> is_bytes input -> zlen input < 2 ^ 63 ->
    0 <= gas < g -> word value -> world_ok B w ->
    run_call (do_Call calls caller addr input gas value) gas w;
  ok_CallCode caller addr input gas value w :
    ref_ok caller -> Common.is_array 20 addr -> is_bytes input -> zlen input < 2 ^ 63 ->
    0 <= gas < g -> word value -> world_ok B w ->
    run_call (do_CallCode calls caller addr input gas value) gas w;
  ok_DelegateCall caller addr input gas w :
    ref_ok caller -> is_contract caller -> Common.is_array 20 addr -> is_bytes input ->
    zlen input < 2 ^ 63 -> 0 <= gas < g -> world_ok B w ->
    run_call (do_DelegateCall calls caller addr input gas) gas w;
  ok_Create caller code gas value w :
    ref_ok caller -> is_bytes code -> zlen code < 2 ^ 63 -> 0 <= gas < g -> word value ->
    world_ok B w -> 
    run_create (ref_Address caller) (do_Create calls caller code gas value) gas w;
}.

(** ** The parts of an iteration *)

(** The iteration once the operation is known and its stack check passed. *)
Definition op_body (o : operation S) (calls : Calls S) : VM S (option bytes) :=
  memorySize ← requested_memory o;
  _ ← (if DisableGasMetering cfg then mret tt else charge o memorySize);
  _ ← (if memorySize >? 0
       then modify (fun f => with_mem f (Memory.Resize f.(mem) memorySize)) else mret tt);
  res ← execute o calls;
  if halts o then mret (Some res)
  else if negb (jumps o) then
    _ ← modify (fun f => with_pc f (u64 (f.(pc) + 1))); mret None
  else mret None.

Definition failed (g : Z) (f f' : Frame S) : Prop :=
  0 <= f'.(contract).(Gas) <= g /\ later B f.(world) f'.(world).

Definition op_ok (o : operation S) : Prop := forall G calls f,
  G < max_gas -> frame_ok G f -> validateStack o f.(stack) = None ->
  calls_ok f.(contract).(Gas) calls ->
  wp (op_body o calls) (fun r f' =>
       frame_ok G f' /\ later B f.(world) f'.(world) /\
       f'.(contract).(Gas) <= f.(contract).(Gas) /\
       match r with
       | Some res => is_bytes res /\ zlen res < 2 ^ 63
       | None => f'.(contract).(Gas) < f.(contract).(Gas)
       end)
     (failed f.(contract).(Gas) f) f.

Lemma wp_charge o ms (Q : unit -> Frame S -> Prop) (R : Frame S -> Prop) f :
  wp (gasCost o Params.ChainConfig_GasTable ms)
     (fun cost f1 => (cost <= f1.(contract).(Gas) ->
        Q tt (with_contract f1 (with_Gas f1.(contract) (u64 (f1.(contract).(Gas) - cost))))) /\
        R f1)
     R f ->
  wp (charge o ms) Q R f.
Proof.
  unfold wp, charge. destruct (gasCost _ _ _ _) as [[cost| | |] f1]; try done.
  intros [HQ HR]. unfold mbind, SM_bind, use_gas, UseGas.
  destruct (Gas (contract f1) <? cost) eqn:E; bool_to_prop; simpl.
  - by destruct f1.
  - by apply HQ.
Qed.

(** The memory an operation asks for, on a checked stack. *)
Definition memsize_ok (pops : Z) (ms : option (list Z -> option Z)) : Prop :=
  match ms with
  | None => True
  | Some ms => forall st, Forall word st -> pops <= zlen st ->
      exists size, ms st = Some size /\ 0 <= size
  end.

Lemma wp_requested_memory o pops (Q : Z -> Frame S -> Prop) (R : Frame S -> Prop) f :
  memsize_ok pops (memorySize o) -> Forall word f.(stack) -> pops <= zlen f.(stack) ->
  (forall ms, 0 <= ms < 2 ^ 64 -> ms mod 32 = 0 -> (memorySize o = None -> ms = 0) ->
     (forall g size, memorySize o = Some g -> g f.(stack) = Some size -> size <= ms) -> Q ms f) ->
  R f -> wp (requested_memory o) Q R f.
Proof.
  intros Hok Hst Hlen HQ HR. unfold requested_memory.
  destruct (memorySize o) as [g|] eqn:Hms.
  - destruct (Hok f.(stack) Hst Hlen) as (size&Hsize&Hpos).
    apply wp_bind, wp_gets, wp_bind. apply (wp_unwrap _ size); [done|].
    apply wp_bind, wp_bigUint64; [done| |done]. intros Hlt.
    apply wp_SafeMul; [apply toWordSize_range; lia|lia| |done]. intros Hmul.
    pose proof (toWordSize_range size ltac:(lia)). rewrite toWordSize_spec in * by lia.
    apply HQ; [lia|by apply Z.mod_mul|done|]. intros ? ? [= <-] ?. simplify_eq.
    pose proof (Z.mul_succ_div_gt (size + 31) 32). lia.
  - apply wp_ret, HQ; [lia|done|done|]. by intros.
Qed.

Lemma wp_resize ms (Q : unit -> Frame S -> Prop) R f : 0 <= ms ->
  Q tt (with_mem f (Memory.Resize f.(mem) ms)) ->
  wp (if ms >? 0 then modify (fun f => with_mem f (Memory.Resize f.(mem) ms)) else mret tt) Q R f.
Proof.
  intros Hms HQ. destruct (ms >? 0) eqn:E; [done|]. bool_to_prop.
  replace ms with 0 in HQ by lia. unfold Memory.Resize in HQ.
  rewrite (proj2 (Z.ltb_ge _ _)) in HQ by apply zlen_nonneg. by destruct f.
Qed.

Lemma Len_Resize m ms : Memory.Len (Memory.Resize m ms) = Z.max ms (Memory.Len m).
Proof.
  unfold Memory.Resize. case_match; bool_to_prop; [|lia]. unfold Memory.Len in *. simpl.
  rewrite zlen_app, zlen_zeros by lia. lia.
Qed.
Lemma is_bytes_Resize m ms :
  is_bytes m.(Memory.store) -> is_bytes (Memory.Resize m ms).(Memory.store).
Proof.
  intros. unfold Memory.Resize. case_match; [|done]. simpl.
  apply is_bytes_app. auto with golib.
Qed.
Lemma last_Resize m ms : Memory.lastGasCost (Memory.Resize m ms) = Memory.lastGasCost m.
Proof. unfold Memory.Resize. by case_match. Qed.

Lemma contract_ok_gas c g : contract_ok c -> 0 <= g < 2 ^ 64 -> contract_ok (with_Gas c g).
Proof. intros (?&?&?&?&?&?&?&?) ?. split_and!; simpl; try done; lia. Qed.

(** The frame after a charge that was paid and the memory expansion. *)
Lemma paid_frame G p c m st w ms fee m' w' st' cost :
  G < max_gas -> frame_ok G (Build_Frame p c m st w) -> 0 <= ms < 2 ^ 64 -> ms mod 32 = 0 ->
  fee_rel m ms fee m' -> fee <= cost <= c.(Gas) -> later B w w' ->
  Forall word st' -> zlen st' = zlen st ->
  frame_ok G (Build_Frame p (with_Gas c (u64 (c.(Gas) - cost))) (Memory.Resize m' ms) st' w') /\
  ms <= Memory.Len (Memory.Resize m' ms) /\ u64 (c.(Gas) - cost) = c.(Gas) - cost /\
  (Memory.Resize m' ms).(Memory.lastGasCost) + (c.(Gas) - fee) <= G.
Proof.
  unfold max_gas. intros HG (Hst&Hsl&Hc&Hb&Hp&Hw&Hl&Hm&Hlg) Hms Hmod Hfee Hcost Hlat Hst' Hlen'.
  simpl in *. pose proof Hc as (_&_&_&_&_&_&_&Hg). pose proof Hfee as (Hs&Hf&_).
  destruct (fee_paid m ms fee m' c.(Gas) G) as (Hl1&Hl2&Hl3); [done..|lia|lia|lia|].
  rewrite u64_small by lia. rewrite Len_Resize, last_Resize. split; [|split_and!; lia].
  unfold frame_ok. simpl. rewrite Len_Resize, last_Resize. split_and!; try done; try lia.
  - apply contract_ok_gas; [done|lia].
  - apply is_bytes_Resize. by rewrite Hs.
  - by eapply later_ok.
Qed.

Lemma makeStackFunc_None pops pushes st : makeStackFunc pops pushes st = None ->
  pops <= zlen st /\ zlen st + pushes - pops <= Params.StackLimit.
Proof.
  unfold makeStackFunc. intros. repeat case_match; try done. bool_to_prop. lia.
Qed.

(** Operations that do not start another contract. *)
Lemma simple_op_ok pops pushes least e g (ms : option (list Z -> option Z)) h j :
  gas_ok B (if ms then true else false) pops least g ->
  exec_ok B pops pushes ms e -> memsize_ok pops ms ->
  0 <= least -> (h = false -> 1 <= least) ->
  op_ok (mkop (fun _ => e) g (makeStackFunc pops pushes) ms h j true).
Proof.
  intros Hgas Hexec Hsize Hleast Hhalt G calls f HG Hf Hstack _.
  simpl in Hstack. apply makeStackFunc_None in Hstack as [Hpops Hlimit].
  pose proof (frame_ok_pre G f HG Hf) as Hpre. pose proof Hf as (Hst&_&Hc&_&_&Hw&_).
  unfold op_body. rewrite Hmeter.
  assert (Hfail0 : failed (Gas (contract f)) f f).
  { split; [destruct Hc as (?&?&?&?&?&?&?&?); lia|by apply later_refl]. }
  apply wp_bind, (wp_requested_memory _ pops); [done..| |done].
  intros sz Hsz Hmod Hnone Hcov. simpl in Hnone, Hcov.
  apply wp_bind, wp_charge. simpl.
  eapply wp_mono; [apply (Hgas f sz Hpre Hpops Hsz Hmod); by destruct ms; auto| |].
  2: { intros f' [Hc' ?]. split; [rewrite Hc'; apply Hfail0|done]. }
  intros cost f1 (fee&m'&w'&Hfee&Hcost&Hlat&->). destruct f as [p c m st w]. simpl in *.
  split; [|by split; [apply Hfail0|]]. intros Hpay. pose proof Hfee as (_&Hfee0&_).
  destruct (paid_frame G p c m st w sz fee m' w' st cost) as (Hf2&Hcov2&Hgas2&_);
    [done..|lia|done|done|done|].
  apply wp_bind, wp_resize; [lia|]. unfold with_contract, with_mem. simpl.
  apply wp_bind. eapply wp_mono; [apply Hexec; [by eapply frame_ok_pre|done|]| |].
  - destruct ms as [ms'|]; simpl; [|done]. intros size Hms. etrans; [|exact Hcov2].
    by eapply Hcov.
  - intros r f3 (Hpost&Hr&Hrl). destruct Hpost as (Hst3&Hlen3&Hc3&Hb3&Hl3&Hlast3&Hp3&Hlat3).
    simpl in *. destruct Hf2 as (_&_&Hc2&_&_&Hw2&Hl2&Hm2&Hg2). simpl in *.
    assert (Hf3 : frame_ok G f3).
    { split_and!; try done; try lia; try (by rewrite Hc3); try (by eapply later_ok).
      rewrite Hlast3, Hc3. simpl. lia. }
    assert (Hgas3 : Gas (contract f3) = Gas c - cost) by (rewrite Hc3; simpl; lia).
    assert (Hlat' : later B w (world f3)) by (by eapply later_trans).
    destruct h; [apply wp_ret; split_and!; try done; lia|].
    specialize (Hhalt eq_refl). destruct j; simpl.
    + apply wp_ret. split_and!; try done; lia.
    + apply wp_bind, wp_modify, wp_ret. destruct f3 as [p3 c3 m3 st3 w3]. simpl in *.
      split_and!; try done; try lia. destruct Hf3 as (?&?&?&?&?&?&?&?&?). simpl in *.
      unfold frame_ok, with_pc. simpl. pose proof (u64_range (p3 + 1)). split_and!; try done; lia.
  - intros f3 [Hc3 Hlat3]. simpl in *. split; [|by eapply later_trans].
    rewrite Hc3. simpl. lia.
Qed.

(** ** Operations that start another contract *)

(** What a call instruction does to the frame [Build_Frame p c m (cg :: st) w]:
    all operands are replaced by the flag, at most [most] gas comes back. *)
Definition called (pops most : Z) p c m st w (r : bytes) (f' : Frame S) : Prop :=
  exists b m' w' gleft,
    f' = Build_Frame p (with_Gas c (u64 (c.(Gas) + gleft))) m' (b :: zdrop pops st) w' /\
    r = [] /\ word b /\ 0 <= gleft <= most /\ later B w w' /\ is_bytes m'.(Memory.store) /\
    Memory.Len m' = Memory.Len m /\ Memory.lastGasCost m' = Memory.lastGasCost m.

(** The end shared by the three call instructions. *)
Lemma call_end most p c m st w ro rs (call : WM S (bytes * Z * option vmerror)) :
  is_bytes m.(Memory.store) -> Memory.Len m < 2 ^ 63 -> word ro -> word rs ->
  calcMemSize ro rs <= Memory.Len m -> run_call call most w ->
  wp (r ← on_world call; _ ← finish_call ro rs r; ret_nil)
     (called 0 most p c m st w) (fun _ => False) (Build_Frame p c m st w).
Proof.
  intros Hb Hl [? ?] [? ?] Hcov Hrun. apply wp_bind. unfold run_call in Hrun.
  unfold wp at 1, on_world. simpl. destruct (call w) as [[[[ret gleft] err]| | |] w1]; try done.
  destruct Hrun as (Hret&_&Hleft&Hlat&_). apply wp_bind. unfold finish_call. apply wp_bind.
  destruct err as [e|].
  - apply wp_push, wp_modify, wp_ret. exists 0, m, w1, gleft. by split_and!; auto with words; lia.
  - apply wp_bind, wp_push.
    apply wp_mem_set; [done|done|lia|lia|done|done|]. intros m' _ ? ? ?.
    apply wp_modify, wp_ret. exists 1, m', w1, gleft. by split_and!; auto with words; lia.
Qed.

(** Execution part of a call instruction. *)
Definition call_exec_ok (pops : Z) (extra : list Z -> Z) (ms : list Z -> option Z)
    (e : Calls S -> VM S bytes) : Prop :=
  forall calls g p c m st w, exec_pre B (Build_Frame p c m st w) -> pops <= zlen st ->
  covers (Some ms) (Build_Frame p c m st w) -> calls_ok g calls ->
  (forall cg, zget st 0 = Some cg -> cg < 2 ^ 64 - 10000 /\ cg + extra st < g) ->
  wp (e calls) (called pops (default 0 (zget st 0) + extra st) p c m st w) (fun _ => False)
     (Build_Frame p c m st w).

Lemma BigMax_max x y : BigMax x y = Z.max x y.
Proof. unfold BigMax. case_match; bool_to_prop; lia. Qed.

(** Operands of the instructions with a value operand. *)
Lemma value_exec_ok (e : Calls S -> VM S bytes)
    (call : Calls S -> ContractRef -> Address -> bytes -> Z -> Z -> WM S (bytes * Z * option vmerror)) :
  (forall calls, e calls =
    (g ← pop; addr ← pop; value ← pop;
     let gas := Big.Uint64 g in
     let value := U256 value in
     inOffset ← pop; inSize ← pop;
     retOffset ← pop; retSize ← pop;
     let address := Common.BigToAddress addr in
     args ← mem_get (Big.Int64 inOffset) (Big.Int64 inSize);
     let gas := if negb (Big.Sign value =? 0) then u64 (gas + Params.CallStipend) else gas in
     c ← gets contract;
     r ← on_world (call calls (contract_ref c) address args gas value);
     _ ← finish_call retOffset retSize r; ret_nil)) ->
  (forall g calls caller addr input gas value w, calls_ok g calls ->
    ref_ok caller -> Common.is_array 20 addr -> is_bytes input -> zlen input < 2 ^ 63 ->
    0 <= gas < g -> word value -> world_ok B w ->
    run_call (call calls caller addr input gas value) gas w) ->
  call_exec_ok 7 value_gas memoryCall e.
Proof.
  intros He Hcall calls g p c m st w Hpre Hlen Hcov Hok Hcg. rewrite He.
  pose proof Hpre as (Hst&Hc&Hm&Hml&_&Hw). simpl in Hst, Hlen, Hc, Hm, Hml, Hw.
  destruct st as [|cg [|a [|v [|io [|isz [|ro [|rs st]]]]]]];
    [rewrite ?zlen_cons, ?zlen_nil in Hlen; lia..|].
  rewrite !Forall_cons in Hst. destruct Hst as (Hwcg&Hwa&Hwv&Hwio&Hwis&Hwro&Hwrs&Hst).
  specialize (Hcov _ eq_refl). simpl in Hcov. rewrite BigMax_max in Hcov.
  destruct (Hcg cg eq_refl) as [Hcg1 Hcg2]. clear Hcg. simpl in Hcg2.
  do 7 (apply wp_bind, wp_pop). apply wp_bind, wp_mem_get; [done|done|done|done|lia|].
  intros d _ Hd Hdl. apply wp_bind, wp_gets.
  set (gas := if negb (Big.Sign (U256 v) =? 0) then _ else _).
  assert (Hgas : 0 <= gas <= cg + value_gas [0; 0; v]).
  { subst gas. simpl. rewrite Sign_eqb, U256_small by apply Hwv. unfold word in *.
    rewrite Big.Uint64_small by lia. unfold Params.CallStipend, Params.CallValueTransferGas in *.
    destruct (v =? 0); simpl; [lia|]. rewrite u64_small; lia. }
  simpl in Hgas. clearbody gas. destruct Hc as (?&?&?&?&?&?&?&?).
  assert (Hsz : 0 <= isz < 2 ^ 63) by (eapply (covered_size io); eauto; lia).
  eapply wp_mono; [apply (call_end gas)|..]; try done.
  - lia.
  - apply (Hcall g); try done; [apply Common.is_array_BigToAddress|lia|lia|apply word_U256].
  - intros r f' (b&m'&w'&gl&->&->&?&?&?&?&?&?). exists b, m', w', gl.
    split_and!; try done; simpl; lia.
Qed.

Lemma opCall_ok : call_exec_ok 7 value_gas memoryCall opCall.
Proof.
  apply (value_exec_ok _ do_Call); [done|]. intros. by eapply ok_Call.
Qed.
Lemma opCallCode_ok : call_exec_ok 7 value_gas memoryCallCode opCallCode.
Proof.
  apply (value_exec_ok _ do_CallCode); [done|]. intros. by eapply ok_CallCode.
Qed.

Lemma opDelegateCall_ok : call_exec_ok 6 (fun _ => 0) memoryDelegateCall opDelegateCall.
Proof.
  intros calls g p c m st w Hpre Hlen Hcov Hok Hcg. unfold opDelegateCall.
  pose proof Hpre as (Hst&Hc&Hm&Hml&_&Hw). simpl in Hst, Hlen, Hc, Hm, Hml, Hw.
  destruct st as [|cg [|a [|io [|isz [|ro [|rs st]]]]]];
    [rewrite ?zlen_cons, ?zlen_nil in Hlen; lia..|].
  rewrite !Forall_cons in Hst. destruct Hst as (Hwcg&Hwa&Hwio&Hwis&Hwro&Hwrs&Hst).
  specialize (Hcov _ eq_refl). simpl in Hcov. rewrite BigMax_max in Hcov.
  destruct (Hcg cg eq_refl) as [Hcg1 Hcg2]. clear Hcg. simpl in Hcg2.
  do 6 (apply wp_bind, wp_pop). apply wp_bind, wp_mem_get; [done|done|done|done|lia|].
  intros d _ Hd Hdl. apply wp_bind, wp_gets. unfold word in Hwcg.
  rewrite Big.Uint64_small by lia. destruct Hc as (?&?&?&?&?&?&?&?).
  assert (Hsz : 0 <= isz < 2 ^ 63) by (eapply (covered_size io); eauto; lia).
  eapply wp_mono; [apply (call_end cg)|..]; try done.
  - lia.
  - apply (ok_DelegateCall g); try done; [apply Common.is_array_BigToAddress|lia|lia].
  - intros r f' (b&m'&w'&gl&->&->&?&?&?&?&?&?). exists b, m', w', gl.
    split_and!; try done; simpl; lia.
Qed.

(** Gas function, memory size and execution together. *)
Lemma call_op_ok pops extra g ms e :
  call_gas_ok B pops extra g -> call_exec_ok pops extra ms e ->
  memsize_ok pops (Some ms) -> 1 <= pops -> (forall st, 0 <= extra st) ->
  (forall x y st, ms (x :: st) = ms (y :: st) /\ extra (x :: st) = extra (y :: st)) ->
  op_ok (mkop e g (makeStackFunc pops 1) (Some ms) false false true).
Proof.
  intros Hgas Hexec Hsize Hpops1 Hextra Htop G calls f HG Hf Hstack Hcalls.
  simpl in Hstack. apply makeStackFunc_None in Hstack as [Hpops Hlimit].
  pose proof (frame_ok_pre G f HG Hf) as Hpre. pose proof Hf as (Hst&_&Hc&_&_&Hw&_&_&HlG).
  pose proof Hc as (_&_&_&_&_&_&_&HgasC). pose proof Hf as (_&_&_&_&_&_&Hlast0&_).
  unfold op_body. rewrite Hmeter.
  assert (Hfail0 : failed (Gas (contract f)) f f) by (split; [lia|by apply later_refl]).
  apply wp_bind, (wp_requested_memory _ pops); [done..| |done].
  intros sz Hsz Hmod _ Hcov. simpl in Hcov.
  apply wp_bind, wp_charge. simpl.
  eapply wp_mono; [by apply (Hgas f sz)| |].
  2: { intros f' [Hc' ?]. split; [rewrite Hc'; apply Hfail0|done]. }
  intros cost f1 (fee&m'&w'&x&st&cg&Hstk&Hcg&Hfee&Hcost&Hlat&->).
  destruct f as [p c m st0 w]. simpl in *. subst st0. specialize (Hextra (x :: st)).
  split; [|by split; [apply Hfail0|]]. intros Hpay. pose proof Hfee as (_&Hfee0&_).
  apply Forall_cons in Hst as [Hx Hst]. unfold max_gas in *.
  assert (Hst2 : Forall word (cg :: st)) by (apply Forall_cons; eauto with words).
  destruct (paid_frame G p c m (x :: st) w sz fee m' w' (cg :: st) cost)
    as (Hf2&Hcov2&Hgas2&HlG2); [done..|lia|done|done|done|].
  apply wp_bind, wp_resize; [lia|]. unfold with_contract, with_mem. simpl.
  destruct (Htop x cg st) as [Hms Hex].
  apply wp_bind. eapply wp_mono; [eapply Hexec; [by eapply frame_ok_pre|done| |done|]|..].
  - intros size Hms'. simpl in *. etrans; [|exact Hcov2]. rewrite <- Hms in Hms'. eauto.
  - intros ? [= <-]. rewrite <- Hex. lia.
  - intros r f3 (b&m3&w3&gl&->&->&Hb&Hgl&Hlat3&Hb3&Hl3&Hlast3).
    simpl in Hgl. rewrite <- Hex in Hgl. simpl.
    apply wp_bind, wp_modify, wp_ret. unfold with_pc, with_Gas. simpl.
    destruct Hf2 as (_&_&Hc2&_&_&Hw2&Hl2&Hm2&Hg2). simpl in *.
    rewrite Hgas2. rewrite (u64_small (Gas c - cost + gl)) by lia.
    split_and!; [|by eapply later_trans|lia|lia]. unfold frame_ok. simpl.
    pose proof (u64_range (p + 1)). rewrite zlen_cons in *.
    pose proof (zlen_nonneg st). rewrite Hlast3, Hl3.
    split_and!; try done; try lia; try (by eapply later_ok).
    + apply Forall_cons. split; [done|]. by apply Forall_drop.
    + rewrite zlen_zdrop, zlen_cons by lia. lia.
    + destruct Hc as (?&?&?&?&?&?&?&?). split_and!; simpl; try done; lia.
  - done.
Qed.

(** [CREATE] *)
Lemma create_op_ok :
  op_ok (mkop opCreate gasCreate (makeStackFunc 3 1) (Some memoryCreate) false false true).
Proof.
  intros G calls f HG Hf Hstack Hcalls.
  simpl in Hstack. apply makeStackFunc_None in Hstack as [Hpops Hlimit].
  pose proof (frame_ok_pre G f HG Hf) as Hpre. pose proof Hf as (Hst&_&Hc&_&_&Hw&_&_&HlG).
  pose proof Hc as (_&_&_&_&_&_&_&HgasC).
  unfold op_body. rewrite Hmeter.
  assert (Hfail0 : failed (Gas (contract f)) f f) by (split; [lia|by apply later_refl]).
  destruct f as [p c m st w]. simpl in *.
  destruct st as [|v [|off [|sz st]]]; [rewrite ?zlen_cons, ?zlen_nil in Hpops; lia..|].
  apply wp_bind, (wp_requested_memory _ 3); simpl; [|done|done| |done].
  { intros [|a [|b [|d l]]] Hl Hll; rewrite ?zlen_cons, ?zlen_nil in Hll; try lia.
    rewrite !Forall_cons in Hl. destruct Hl as (?&[? ?]&[? ?]&?). eexists. split; [done|].
    unfold calcMemSize. case_match; lia. }
  intros ms Hms Hmod _ Hcov. specialize (Hcov _ _ eq_refl eq_refl).
  apply wp_bind, wp_charge. simpl.
  eapply wp_mono; [by apply (gasCreate_ok B 3 _ ms)| |].
  2: { intros f' [Hc' ?]. split; [rewrite Hc'; apply Hfail0|done]. }
  intros cost f1 (fee&m'&w'&Hfee&Hcost&Hlat&->). simpl in *.
  split; [|by split; [apply Hfail0|]]. intros Hpay. pose proof Hfee as (_&Hfee0&_).
  destruct (paid_frame G p c m (v :: off :: sz :: st) w ms fee m' w' (v :: off :: sz :: st) cost)
    as (Hf2&Hcov2&Hgas2&_); [done..|lia|done|done|done|].
  pose proof (frame_ok_pre G _ HG Hf2) as Hpre2.
  apply wp_bind, wp_resize; [lia|]. unfold with_contract, with_mem. simpl.
  set (m2 := Memory.Resize m' ms) in *. set (c2 := with_Gas c _) in *.
  destruct Hpre2 as (_&Hc2&Hb2&Hl2&Hp2&Hw2). simpl in *.
  rewrite !Forall_cons in Hst. destruct Hst as (Hv&Hoff&Hsz&Hst).
  apply wp_bind. unfold opCreate. do 3 (apply wp_bind, wp_pop).
  apply wp_bind, wp_mem_get; [done|done|done|done|lia|]. intros d _ Hd Hdl.
  apply wp_bind, wp_gets. cbn [contract].
  assert (Hc2g : Gas c2 = Gas c - cost) by done.
  set (gas := u64 (Gas c2 - Gas c2 / 64)).
  assert (Hgas : gas = Gas c2 - Gas c2 / 64).
  { apply u64_small. pose proof (Z.div_pos (Gas c2) 64). pose proof (Z.div_le_upper_bound (Gas c2) 64 (Gas c2)). lia. }
  assert (Hgas' : 0 <= gas <= Gas c2).
  { pose proof (Z.div_pos (Gas c2) 64). pose proof (Z.div_le_upper_bound (Gas c2) 64 (Gas c2)). lia. }
  clearbody gas.
  apply wp_bind. unfold wp at 1, use_gas, UseGas. cbn [contract].
  rewrite (proj2 (Z.ltb_ge _ _)) by lia.
  apply wp_bind. unfold wp at 1, on_world, with_contract. cbn [pc contract mem stack world].
  assert (Hszs : 0 <= sz < 2 ^ 63) by (eapply (covered_size off); eauto; lia).
  destruct Hc as (Hcode&?&?&?&Hself&Hcaller&Hval&?).
  assert (Hcr : run_create (ref_Address (contract_ref c2))
    (do_Create calls (contract_ref c2) d gas v) gas w').
  { apply (ok_Create _ _ Hcalls); [done|done|lia|lia|done|done]. }
  unfold run_create in Hcr.
  destruct (do_Create _ _ _ _ _ _) as [[[[[ret addr] gleft] err]| | |] w3]; try done.
  destruct Hcr as (Hret&Haddr&Hleft&Hlat3&_).
  apply wp_bind. eapply (wp_mono _ (fun _ f' => exists b, word b /\ f' = Build_Frame p
    (with_Gas c2 (u64 (Gas c2 - gas))) m2 (b :: st) w3) _ (fun _ => False)); [| |done].
  { repeat case_match; apply wp_push; eauto with words. }
  intros _ f' (b&Hb&->). apply wp_bind, wp_modify, wp_ret.
  unfold with_contract, with_Gas. simpl.
  rewrite Hgas2, (u64_small (Gas c - cost - gas)), u64_small by lia.
  apply wp_bind, wp_modify, wp_ret. unfold with_pc. simpl.
  split_and!; [|by eapply later_trans|lia|lia].
  destruct Hf2 as (?&?&?&?&?&?&?&?&?). unfold frame_ok. simpl in *.
  pose proof (u64_range (p + 1)). rewrite !zlen_cons in *.
  split_and!; try done; try lia.
  - by apply Forall_cons.
  - split_and!; simpl; try done; lia.
  - by apply (later_ok B w').
Qed.
End step.

(** Every entry of the instruction table is safe. *)

Create HintDb vmops discriminated.
#[export] Hint Resolve opAdd_ok opSub_ok opMul_ok opDiv_ok opSdiv_ok opMod_ok opSmod_ok
  opNot_ok opLt_ok opGt_ok opSlt_ok opSgt_ok opEq_ok opIszero_ok opAnd_ok opOr_ok opXor_ok
  opAddmod_ok opMulmod_ok opSignExtend_ok opPop_ok opStop_ok opJumpdest_ok opExp_ok opByte_ok
  opAddress_ok opOrigin_ok opCaller_ok opCallValue_ok opCalldataSize_ok opCodeSize_ok
  opGasprice_ok opBlockhash_ok opCoinbase_ok opTimestamp_ok opNumber_ok opDifficulty_ok
  opGasLimit_ok opPc_ok opMsize_ok opGas_ok opCalldataLoad_ok opBalance_ok opSload_ok
  opExtCodeSize_ok opCalldataCopy_ok opCodeCopy_ok opExtCodeCopy_ok opMload_ok opMstore_ok
  opMstore8_ok opSha3_ok opReturn_ok opSstore_ok opSuicide_ok opJump_ok opJumpi_ok : vmops.
#[export] Hint Resolve gasMLoad_ok gasMStore_ok gasMStore8_ok gasReturn_ok gasCalldataCopy_ok
  gasCodeCopy_ok gasExtCodeCopy_ok gasSha3_ok gasExp_ok gasBalance_ok gasExtCodeSize_ok
  gasSLoad_ok gasPush_ok gasDup_ok gasSwap_ok gasSStore_ok gasSuicide_ok : vmops.

Lemma calcMemSize_nonneg off l : word off -> word l -> 0 <= calcMemSize off l.
Proof. unfold word, calcMemSize. intros. case_match; lia. Qed.

Section table.
Context {S : Type} {DB : StateDB S} {CR : Crypto} {CK : CryptoOk} {SL : StateLaws S}.
Variable B : Z.
Hypothesis HB : B < 2 ^ 256.
Variable ctx : Context S.
Variable cfg : Config.
Hypothesis Hctx : context_ok ctx.
Hypothesis Hmeter : DisableGasMetering cfg = false.

Definition entry_ok (e : Z * operation S) : Prop := op_ok B cfg (snd e).

Ltac memsize :=
  let st := fresh "st" in
  intros st Hst Hlen; operands; eexists; split; [reflexivity|];
  rewrite ?BigMax_max; repeat (apply Z.max_case);
  apply calcMemSize_nonneg; (assumption || (unfold word; lia)).
Ltac op_gas :=
  first [ solve [eauto with vmops]
        | apply const_gas_ok; vm_compute; (done || (split; done))
        | apply makeGasLog_ok; lia ].
Ltac op_exec :=
  lazymatch goal with
  | |- exec_ok _ _ _ _ (makePush ?n _) => apply (makePush_ok B n); lia
  | |- exec_ok _ _ _ _ (makeDup ?n) => apply (makeDup_ok B n); lia
  | |- exec_ok _ _ _ _ (makeSwap ?n) => apply (makeSwap_ok B n); lia
  | |- exec_ok _ _ _ _ (makeLog _ ?n) => apply (makeLog_ok B ctx n); lia
  | _ => eauto with vmops
  end.
Ltac simple least :=
  apply (simple_op_ok B cfg Hmeter _ _ least);
  [op_gas|op_exec|first [exact I|memsize]|lia|intros ?; (discriminate || lia)].
Ltac call_entry gas exec :=
  eapply (call_op_ok B cfg Hmeter);
  [apply gas|apply exec|memsize|lia
  |try done; intros [|? [|? [|? ?]]]; simpl; try case_match;
   unfold Params.CallValueTransferGas; lia
  |intros ? ? [|? ?]; split; reflexivity].
Ltac entry :=
  unfold entry_ok, snd, makeDupStackFunc, makeSwapStackFunc;
  lazymatch goal with
  | |- op_ok _ _ (mkop opCreate _ _ _ _ _ _) => by apply create_op_ok
  | |- op_ok _ _ (mkop opCall _ _ _ _ _ _) => call_entry gasCall_ok opCall_ok
  | |- op_ok _ _ (mkop opCallCode _ _ _ _ _ _) => call_entry gasCallCode_ok opCallCode_ok
  | |- op_ok _ _ (mkop opDelegateCall _ _ _ _ _ _) =>
      call_entry gasDelegateCall_ok opDelegateCall_ok
  | |- op_ok _ _ (mkop _ _ _ _ true _ _) => simple 0
  | |- op_ok _ _ _ => simple 1
  end.
Ltac part := repeat (apply Forall_cons; split; [entry|]); apply Forall_nil_2.

Lemma JumpTable_1_ok : Forall entry_ok JumpTable_1.
Proof. unfold JumpTable_1. part. Qed.
Lemma JumpTable_2_ok : Forall entry_ok (JumpTable_2 ctx cfg).
Proof. unfold JumpTable_2. part. Qed.
Lemma JumpTable_3_ok : Forall entry_ok JumpTable_3.
Proof. unfold JumpTable_3. part. Qed.
Lemma JumpTable_4_ok : Forall entry_ok JumpTable_4.
Proof. unfold JumpTable_4. part. Qed.
Lemma JumpTable_5_ok : Forall entry_ok JumpTable_5.
Proof. unfold JumpTable_5. part. Qed.
Lemma JumpTable_6_ok : Forall entry_ok (JumpTable_6 ctx).
Proof. unfold JumpTable_6. part. Qed.
End table.
