(* ===== verification/VmSafety.v ===== *)
(** The virtual machine is safe: started with less than [max_gas] gas it returns
    (the recursion bound [gas + 1] is enough), never panics, never returns more
    gas than it was given, keeps the call depth, and undoes a failed call.  The bound only
    decides whether it returns. *)
From S2P Require Import Prelude GoBig CommonMath CommonTypes Params VmTypes StateSpec VmGas VmLogic VmInstr VmJumpTable VmInterp.
From S2P Require Import VmExec VmGasOk VmStep.
Import Math.

(** ** Precompiled contracts *)
Section precompiled.
Context {CR : Crypto} {CK : CryptoOk}.

Lemma ecrecover_Run_ok input : is_bytes input ->
  exists ret input', ecrecover_Run input = Some (ret, input') /\ is_bytes ret /\ zlen ret <= 32.
Proof.
  intros Hin. unfold ecrecover_Run. set (inp := Common.RightPadBytes input 128).
  assert (Hb : is_bytes inp) by (by apply Common.is_bytes_RightPadBytes).
  assert (Hl : 128 <= zlen inp).
  { subst inp. destruct (Z.le_gt_cases (zlen input) 128) as [Hle|Hgt].
    - by rewrite Common.zlen_RightPadBytes.
    - unfold Common.RightPadBytes. rewrite (proj2 (Z.ltb_lt _ _)) by lia. lia. }
  clearbody inp. rewrite !slice_Some by lia. simpl.
  destruct (zget_Some inp 63) as [v ->]; [lia|]. simpl. case_match.
  { eexists _, _. split; [done|]. split; [constructor|]. rewrite zlen_nil. lia. }
  destruct (Ecrecover _ _) as [pub|] eqn:Hec; simpl.
  2: { eexists _, _. split; [done|]. split; [constructor|]. rewrite zlen_nil. lia. }
  apply Ecrecover_size in Hec as [Hpl Hpb]. rewrite slice_Some by lia. simpl.
  destruct (Keccak256_size (ztake (zlen pub - 1) (zdrop 1 pub))) as [Hkl Hkb].
  set (h := Keccak256 _) in *. rewrite slice_Some by lia. simpl. eexists _, _. split; [done|].
  split; [apply Common.is_bytes_LeftPadBytes; auto with golib|].
  assert (Hh : zlen (ztake (zlen h - 12) (zdrop 12 h)) = 20).
  { rewrite zlen_ztake, zlen_zdrop by lia. lia. }
  unfold Common.LeftPadBytes. case_match; bool_to_prop; [lia|].
  rewrite zlen_copy_at; rewrite ?zlen_zeros; lia.
Qed.

Lemma precompiled_Run_ok p input : is_bytes input -> zlen input < 2 ^ 63 ->
  exists ret, precompiled_Run p input = Some ret /\ is_bytes ret /\ zlen ret < 2 ^ 63.
Proof.
  intros Hb Hl. destruct p; simpl.
  - destruct (ecrecover_Run_ok input Hb) as (ret&?&->&?&?). eexists. split; [done|].
    simpl. split; [done|lia].
  - destruct (Sha256_size input). eexists. split; [done|]. unfold sha256hash_Run. split; [done|lia].
  - destruct (Ripemd160_size input). eexists. split; [done|]. unfold ripemd160hash_Run.
    split; [by apply Common.is_bytes_LeftPadBytes|]. unfold Common.LeftPadBytes.
    case_match; bool_to_prop; [lia|]. rewrite zlen_copy_at; rewrite ?zlen_zeros; lia.
  - by eexists.
Qed.

Lemma RequiredGas_range p n : 0 <= RequiredGas p n.
Proof. destruct p; simpl; [unfold Params.EcrecoverGas; lia|apply u64_range..]. Qed.

Lemma RunPrecompiledContract_ok p input c :
  is_bytes input -> zlen input < 2 ^ 63 -> 0 <= c.(Gas) < 2 ^ 64 ->
  exists ret err c', RunPrecompiledContract p input c = Some (ret, err, c') /\
    is_bytes ret /\ zlen ret < 2 ^ 63 /\ 0 <= c'.(Gas) <= c.(Gas).
Proof.
  intros Hb Hl Hg. unfold RunPrecompiledContract, UseGas.
  pose proof (RequiredGas_range p (zlen input)).
  destruct (Gas c <? RequiredGas p (zlen input)) eqn:E; bool_to_prop.
  - eexists _, _, _. split; [done|]. split; [constructor|]. rewrite zlen_nil. lia.
  - destruct (precompiled_Run_ok p input Hb Hl) as (ret&->&?&?). simpl.
    eexists _, _, _. split; [done|]. split; [done|]. split; [done|].
    simpl. rewrite u64_small; lia.
Qed.
End precompiled.

(** ** The loop *)
Section machine.
Context {S : Type} {DB : StateDB S} {CR : Crypto} {CK : CryptoOk} {SL : StateLaws S}.
Variable B : Z.
Hypothesis HB : B < 2 ^ 256.
Variable ctx : Context S.
Variable cfg : Config.
Hypothesis Hctx : context_ok ctx.
Hypothesis Hmeter : DisableGasMetering cfg = false.

Lemma table_get_ok (t : list (Z * operation S)) op :
  Forall (entry_ok B cfg) t -> valid (table_get t op) = true -> op_ok B cfg (table_get t op).
Proof.
  induction 1 as [|[k o] t Ho _ IH]; simpl; [done|]. case_match; [by intros|done].
Qed.

Lemma defaultJumpTable_ok op : valid (defaultJumpTable ctx cfg op) = true ->
  op_ok B cfg (defaultJumpTable ctx cfg op).
Proof.
  apply table_get_ok. unfold NewJumpTable.
  repeat (apply Forall_app; split); eauto using JumpTable_1_ok, JumpTable_2_ok, JumpTable_3_ok,
    JumpTable_4_ok, JumpTable_5_ok, JumpTable_6_ok.
Qed.

Lemma step_ok G calls f :
  G < max_gas -> frame_ok B G f -> calls_ok B f.(contract).(Gas) calls ->
  wp (step ctx cfg calls) (fun r f' =>
       frame_ok B G f' /\ later B f.(world) f'.(world) /\
       f'.(contract).(Gas) <= f.(contract).(Gas) /\
       match r with
       | Some res => is_bytes res /\ zlen res < 2 ^ 63
       | None => f'.(contract).(Gas) < f.(contract).(Gas)
       end)
     (failed B f.(contract).(Gas) f) f.
Proof.
  intros HG Hf Hcalls. unfold step. apply wp_bind, wp_gets.
  assert (Hfail : failed B f.(contract).(Gas) f f).
  { destruct Hf as (?&?&(?&?&?&?&?&?&?&?)&?&?&?&?). split; [lia|by apply later_refl]. }
  destruct (valid _) eqn:Hvalid; simpl; [|by apply wp_throw].
  apply defaultJumpTable_ok in Hvalid.
  destruct (validateStack _ _) eqn:Hstack; [by apply wp_throw|].
  by apply (Hvalid G calls f).
Qed.

(** What a run of a contract with less than [n] gas promises. *)
Definition loop_ok (n : Z) (main : VM S bytes) : Prop := forall G f,
  G < max_gas -> frame_ok B G f -> f.(contract).(Gas) < n ->
  wp main (fun r f' => is_bytes r /\ zlen r < 2 ^ 63 /\
             0 <= f'.(contract).(Gas) <= f.(contract).(Gas) /\ later B f.(world) f'.(world))
     (failed B f.(contract).(Gas) f) f.

(** One unrolling of the loop. *)
Lemma loop_step n (next : VM S bytes) calls :
  loop_ok n next -> (forall g, g <= n -> g < max_gas -> calls_ok B g calls) ->
  loop_ok (n + 1)
    (stop ← aborted cfg;
     if (stop : bool) then mret []
     else r ← step ctx cfg calls; match r with Some res => mret res | None => next end).
Proof.
  intros Hnext Hcalls G f HG Hf Hn. apply wp_bind. unfold wp at 1, aborted.
  set (f0 := with_world f _).
  assert (Hf0 : frame_ok B G f0) by (by destruct f). assert (Hc0 : contract f0 = contract f) by done.
  assert (Hw0 : forall w, later B f0.(world) w -> later B f.(world) w) by done.
  clearbody f0. rewrite <- Hc0 in Hn |- *.
  assert (Hg : 0 <= Gas (contract f0)) by (destruct Hf0 as (?&?&(?&?&?&?&?&?&?&?)&_); lia).
  assert (HgG : Gas (contract f0) <= G) by (destruct Hf0 as (?&?&?&?&?&?&?&?&?); lia).
  case_match.
  { apply wp_ret. split_and!; [constructor|rewrite zlen_nil; lia|lia|lia|].
    apply Hw0, later_refl, Hf0. }
  assert (Hok : calls_ok B (Gas (contract f0)) calls) by (apply Hcalls; lia).
  apply wp_bind. eapply wp_mono; [exact (step_ok G calls f0 HG Hf0 Hok)| |].
  2: { intros f' [? ?]. split; [done|by apply Hw0]. }
  intros r f' (Hf'&Hlat&Hgas&Hr).
  assert (0 <= Gas (contract f')) by (destruct Hf' as (?&?&(?&?&?&?&?&?&?&?)&_); lia).
  destruct r as [res|].
  { apply wp_ret. destruct Hr. split_and!; auto. }
  eapply wp_mono; [apply (Hnext G f' HG Hf'); lia| |].
  - intros r' f'' (?&?&?&?). split_and!; try done; try lia. apply Hw0. eauto using later_trans.
  - intros f'' [? ?]. split; [lia|]. apply Hw0. eauto using later_trans.
Qed.

(** ** [Interpreter.Run] *)

Definition run_ok (n : Z)
    (run : Contract -> bytes -> WM S (bytes * option vmerror * Contract)) : Prop :=
  forall c input w, contract_ok c -> is_bytes input -> zlen input < 2 ^ 63 ->
  c.(Gas) < n -> c.(Gas) < max_gas -> world_ok B w ->
  match run c input w with
  | (Done (ret, err, c'), w') => is_bytes ret /\ zlen ret < 2 ^ 63 /\
      0 <= c'.(Gas) <= c.(Gas) /\ later B w w'
  | _ => False
  end.

Lemma later_enter w w' : later B (with_depth w (w.(depth) + 1)) w' ->
  later B w (with_depth w' (w'.(depth) - 1)).
Proof. intros (?&?&Hd). split_and!; [done|done|]. simpl in *. lia. Qed.

Lemma Run_with_ok n main : loop_ok n main -> run_ok n (Run_with main).
Proof.
  intros Hmain c input w Hc Hb Hl Hn Hmax Hw. unfold Run_with.
  pose proof Hc as (?&?&?&?&?&?&?&Hgas).
  assert (Hw1 : world_ok B (with_depth w (w.(depth) + 1))).
  { destruct Hw as (?&?&?). split_and!; simpl; try done. lia. }
  assert (Hlat : later B w (with_depth (with_depth w (depth w + 1))
                              (depth (with_depth w (depth w + 1)) - 1))).
  { by apply later_enter, later_refl. }
  destruct (CodeAddr c ≫= fun a => PrecompiledContracts a) as [p|].
  { destruct (RunPrecompiledContract_ok p input c) as (ret&err&c'&->&?&?&?); [done..|]. done. }
  destruct (zlen c.(Code) =? 0).
  { split_and!; [constructor|rewrite zlen_nil; lia|lia|lia|done]. }
  assert (Hf : frame_ok B c.(Gas) (Build_Frame 0 (with_Input c input) Memory.NewMemory []
                                    (with_depth w (w.(depth) + 1)))).
  { unfold frame_ok. simpl. split_and!; try done; try lia.
    constructor. }
  pose proof (Hmain c.(Gas) _ Hmax Hf) as Hrun. unfold wp, failed in Hrun. simpl in Hrun.
  specialize (Hrun ltac:(lia)).
  destruct (main _) as [[ret|e| |] f]; try done.
  - destruct Hrun as (?&?&?&?). split_and!; try done; try lia. by apply later_enter.
  - destruct Hrun as [? ?]. split_and!; [constructor|rewrite zlen_nil; lia|lia|lia|].
    by apply later_enter.
Qed.

(** ** Entry points *)

Definition wwp {A} (m : WM S A) (Q : A -> World S -> Prop) (w : World S) : Prop :=
  match m w with (Done a, w') => Q a w' | _ => False end.

Lemma wwp_bind {A C} (m : WM S A) (k : A -> WM S C) Q w :
  wwp m (fun a => wwp (k a) Q) w -> wwp (m ≫= k) Q w.
Proof. unfold wwp, mbind, SM_bind. by destruct (m w) as [[]]. Qed.
Lemma wwp_mono {A} (m : WM S A) (Q Q' : A -> World S -> Prop) w :
  wwp m Q w -> (forall a w', Q a w' -> Q' a w') -> wwp m Q' w.
Proof. unfold wwp. destruct (m w) as [[]]; auto. Qed.

Lemma wwp_wdb {A} (g : S -> A * S) val (Q : A -> World S -> Prop) w :
  reads view inv g val -> world_ok B w ->
  (forall w', later B w w' -> view w'.(statedb) = view w.(statedb) -> world_ok B w' ->
     Q (val (view w.(statedb))) w') ->
  wwp (wdb g) Q w.
Proof.
  intros Hg Hw HQ. pose proof Hw as (Hi&Hv&?). destruct (reads_run _ _ _ Hg Hi) as (s'&Hs'&Hview&Hk).
  unfold wwp, wdb. rewrite Hs'.
  assert (later B w (with_statedb w s')).
  { split_and!; [done| |done]. simpl. by rewrite Hview. }
  apply HQ; [done|done|]. eauto using later_ok.
Qed.

Lemma wwp_wdo (g : S -> S) h (Q : unit -> World S -> Prop) w :
  writes view inv g h -> world_ok B w -> view_ok B (h (view w.(statedb))) ->
  (forall w', later B w w' -> view w'.(statedb) = h (view w.(statedb)) -> world_ok B w' ->
     Q tt w') ->
  wwp (wdo g) Q w.
Proof.
  intros Hg Hw Hok HQ. pose proof Hw as (Hi&Hv&?). destruct (Hg _ Hi) as [Hview Hk].
  assert (later B w (with_statedb w (g w.(statedb)))).
  { split_and!; [done| |done]. simpl. by rewrite Hview. }
  apply HQ; [done|done|]. eauto using later_ok.
Qed.

(** [id] is a snapshot of [w0]: reverting to it restores [w0] and keeps the older
    snapshots. *)
Definition snapshot_of (w0 : World S) (id : Z) (w : World S) : Prop :=
  restores view inv w.(statedb) id (view w0.(statedb)) /\
  forall id' v, restores view inv w0.(statedb) id' v -> id' < id.

Lemma wwp_snapshot (Q : Z -> World S -> Prop) w0 w :
  world_ok B w0 -> later B w0 w -> view w.(statedb) = view w0.(statedb) ->
  (forall id w', later B w0 w' -> world_ok B w' -> view w'.(statedb) = view w0.(statedb) ->
     snapshot_of w0 id w' -> Q id w') ->
  wwp (wdb Snapshot) Q w.
Proof.
  intros Hw0 Hlat Hv HQ. assert (Hw : world_ok B w) by (eauto using later_ok).
  destruct (law_Snapshot w.(statedb) (proj1 Hw)) as (Hview&Hk&Hres&Hnew).
  unfold wwp, wdb. destruct (Snapshot _) as [id s']. simpl in *.
  assert (Hlat' : later B w0 (with_statedb w s')).
  { eapply later_trans; [done|]. split_and!; [done| |done]. simpl. rewrite Hview. apply Hw. }
  apply HQ; [done|eauto using later_ok|simpl; congruence|]. split; simpl; [congruence|].
  intros id' v Hr. apply (Hnew id' v). by apply (proj1 Hlat).
Qed.

Lemma snapshot_later w0 id w w' : snapshot_of w0 id w -> later B w w' -> snapshot_of w0 id w'.
Proof. intros [Hr Hn] [[_ Hk] _]. split; [by apply Hk|done]. Qed.

Lemma wwp_revert w0 id w (Q : unit -> World S -> Prop) :
  world_ok B w0 -> later B w0 w -> snapshot_of w0 id w ->
  (forall w', later B w0 w' -> view w'.(statedb) = view w0.(statedb) -> Q tt w') ->
  wwp (revert id) Q w.
Proof.
  intros Hw0 Hlat [(s'&Hrev&Hview&Hinv) Hnew] HQ. unfold wwp, revert. rewrite Hrev.
  apply HQ; [|done]. assert (Hw : world_ok B w) by (eauto using later_ok).
  destruct Hlat as ([_ Hk]&_&Hd). split_and!; [|simpl; rewrite Hview; apply Hw0|done].
  split; [done|]. intros id' v Hr. simpl. eapply law_Revert; [apply Hw|done| |by apply Hk].
  by eapply Hnew.
Qed.

(** What a call leaves: at most the gas it was given, and on an error the state
    it started from. *)
Definition call_post (gas : Z) (w : World S) (r : bytes * Z * option vmerror) (w' : World S)
  : Prop :=
  let '(ret, gleft, err) := r in
  is_bytes ret /\ zlen ret < 2 ^ 63 /\ 0 <= gleft <= gas /\ later B w w' /\
  (err <> None -> view w'.(statedb) = view w.(statedb) /\ error_gas err gas gleft).

(** [Run], then consume the gas and revert on an error. *)
Lemma run_or_revert_ok n run w0 id c input w :
  run_ok n run -> world_ok B w0 -> later B w0 w -> snapshot_of w0 id w ->
  contract_ok c -> is_bytes input -> zlen input < 2 ^ 63 -> c.(Gas) < n -> c.(Gas) < max_gas ->
  wwp (run_or_revert run c input id) (call_post c.(Gas) w0) w.
Proof.
  intros Hrun Hw0 Hlat Hsnap Hc Hb Hl Hn Hmax. unfold run_or_revert. apply wwp_bind.
  assert (Hw : world_ok B w) by (eauto using later_ok).
  pose proof (Hrun c input w Hc Hb Hl Hn Hmax Hw) as Hr. unfold wwp at 1.
  destruct (run c input w) as [[[[ret err] c']| | |] w1]; try done.
  destruct Hr as (?&?&?&Hlat1). assert (Hlat2 : later B w0 w1) by (eauto using later_trans).
  destruct err as [e|].
  - assert (Hu : UseGas c' (Gas c') = (true, with_Gas c' (u64 (Gas c' - Gas c')))).
    { unfold UseGas. by rewrite Z.ltb_irrefl. }
    rewrite Hu. apply wwp_bind. apply (wwp_revert w0); [done..|eauto using snapshot_later|].
    intros w2 ? ?. unfold wwp. simpl. rewrite Z.sub_diag. change (u64 0) with 0.
    split_and!; try done; try lia. intros _. split; [done|by left].
  - unfold wwp. simpl. split_and!; try done; lia.
Qed.

(** [core.CanTransfer] and [core.Transfer] on abstract states. *)
Lemma core_CanTransfer_reads a n :
  reads view inv (core_CanTransfer a n) (fun v => n <=? abs_balance v a).
Proof.
  intros s Hs. destruct (reads_run _ _ _ (law_GetBalance a) Hs) as (s'&Hg&?&?).
  unfold core_CanTransfer. rewrite Hg. done.
Qed.

Lemma core_Transfer_writes s r n :
  writes view inv (core_Transfer s r n) (fun v => abs_AddBalance r n (abs_SubBalance s n v)).
Proof.
  intros db Hdb. unfold core_Transfer.
  destruct (law_SubBalance s n db Hdb) as [Hv1 Hk1].
  destruct (law_AddBalance r n _ (proj1 Hk1)) as [Hv2 Hk2].
  split; [by rewrite Hv2, Hv1|]. eauto using keeps_trans.
Qed.

Lemma abs_balance_CreateAccount a b v : abs_balance (abs_CreateAccount a v) b = abs_balance v b.
Proof.
  unfold abs_CreateAccount, abs_balance at 1. simpl. unfold fupd. case_decide; [|done].
  by subst.
Qed.
Lemma abs_balance_SetNonce a n b v : abs_balance (abs_SetNonce a n v) b = abs_balance v b.
Proof.
  unfold abs_SetNonce. rewrite abs_balance_upd. case_decide; [|done]. subst.
  apply acc_balance_get_or_new.
Qed.

(** The contract of a call and its code. *)
Lemma set_call_code_ok c addr (Q : Contract -> World S -> Prop) w :
  world_ok B w -> contract_ok c ->
  (forall c' w', c'.(Gas) = c.(Gas) -> contract_ok c' -> later B w w' ->
     view w'.(statedb) = view w.(statedb) -> Q c' w') ->
  wwp (set_call_code c addr) Q w.
Proof.
  intros Hw Hc HQ. unfold set_call_code. apply wwp_bind.
  eapply wwp_wdb; [apply law_GetCodeHash|done|]. intros w1 Hl1 Hv1 Hw1. apply wwp_bind.
  eapply wwp_wdb; [apply law_GetCode|done|]. intros w2 Hl2 Hv2 Hw2.
  destruct (abs_code_ok B _ addr (proj1 (proj2 Hw1))) as [? ?].
  apply HQ; [done| |eauto using later_trans|congruence].
  destruct Hc as (?&?&?&?&?&?&?&?). split_and!; simpl; try done; lia.
Qed.

Lemma new_contract_ok caller to v gas :
  ref_ok caller -> Common.is_array 20 to -> word v -> 0 <= gas < 2 ^ 64 ->
  contract_ok (NewContract caller to v gas).
Proof.
  intros Hr Ht Hv Hg. assert (Common.is_array 20 (ref_Address caller)).
  { destruct caller; [done|]. by destruct Hr as (?&?&?). }
  split_and!; simpl; try done; try (by constructor); try apply Hv; lia.
Qed.

Lemma run_call_intro (m : WM S (bytes * Z * option vmerror)) gas w :
  wwp m (call_post gas w) w -> run_call B m gas w.
Proof. unfold wwp, run_call. by destruct (m w) as [[[[? ?] ?]| | |] ?]. Qed.

(** An early return: nothing happened. *)
Lemma early_return gas w w' err :
  0 <= gas -> later B w w' -> view w'.(statedb) = view w.(statedb) ->
  err ∈ [None; Some ErrDepth; Some ErrInsufficientBalance] ->
  wwp (mret (@nil Z, gas, err)) (call_post gas w) w'.
Proof.
  intros ??? Herr. unfold wwp. simpl. split_and!; try done; try lia; [constructor|].
  intros He. split; [done|]. right. split; [done|]. set_solver.
Qed.

Section entry.
Variable n : Z.
Variable run : Contract -> bytes -> WM S (bytes * option vmerror * Contract).
Hypothesis Hrun : run_ok n run.
Hypothesis Hn : n <= max_gas.

Lemma CallCode_with_ok caller addr input gas value w :
  ref_ok caller -> Common.is_array 20 addr -> is_bytes input -> zlen input < 2 ^ 63 ->
  0 <= gas < n -> word value -> world_ok B w ->
  run_call B (CallCode_with ctx cfg run caller addr input gas value) gas w.
Proof.
  intros Hr Ha Hb Hl Hg Hv Hw. apply run_call_intro. unfold CallCode_with.
  destruct Hctx as (Hcan&_). unfold max_gas in *.
  apply wwp_bind. unfold wwp at 1. simpl.
  assert (Hrefl : later B w w) by (by apply later_refl).
  destruct (NoRecursion cfg && _); [apply early_return; [lia|done|done|set_solver]|].
  destruct (depth w >? _); [apply early_return; [lia|done|done|set_solver]|].
  apply wwp_bind. rewrite Hcan. eapply wwp_wdb; [apply core_CanTransfer_reads|done|].
  intros w1 Hl1 Hv1 Hw1. cbv beta. destruct (value <=? _); simpl; [|by apply early_return; [lia|..|set_solver]].
  apply wwp_bind, (wwp_snapshot _ w); [done..|]. intros id w2 Hl2 Hw2 Hv2 Hs2.
  apply wwp_bind. unfold new_contract. apply wwp_bind. unfold wwp at 1. simpl.
  set (w3 := with_jumpdests w2 _). unfold wwp at 1. simpl.
  assert (Haddr : Common.is_array 20 (ref_Address caller)).
  { destruct caller; [done|]. by destruct Hr as (?&?&?). }
  apply wwp_bind, set_call_code_ok; [done|apply new_contract_ok; try done; lia|].
  intros c w4 Hgc Hc Hl4 Hv4.
  eapply wwp_mono; [eapply (run_or_revert_ok n run w id); eauto using snapshot_later, later_trans|].
  - rewrite Hgc. simpl. lia.
  - rewrite Hgc. simpl. unfold max_gas. lia.
  - rewrite Hgc. done.
Qed.

Lemma DelegateCall_with_ok caller addr input gas w :
  ref_ok caller -> is_contract caller -> Common.is_array 20 addr -> is_bytes input ->
  zlen input < 2 ^ 63 -> 0 <= gas < n -> world_ok B w ->
  run_call B (DelegateCall_with cfg run caller addr input gas) gas w.
Proof.
  intros Hr Hic Ha Hb Hl Hg Hw. apply run_call_intro. unfold DelegateCall_with, max_gas in *.
  apply wwp_bind. unfold wwp at 1. simpl.
  assert (Hrefl : later B w w) by (by apply later_refl).
  destruct (NoRecursion cfg && _); [apply early_return; [lia|done|done|set_solver]|].
  destruct (depth w >? _); [apply early_return; [lia|done|done|set_solver]|].
  apply wwp_bind, (wwp_snapshot _ w); [done..|]. intros id w2 Hl2 Hw2 Hv2 Hs2.
  apply wwp_bind. unfold new_contract. apply wwp_bind. unfold wwp at 1. simpl.
  set (w3 := with_jumpdests w2 _). unfold wwp at 1. simpl. apply wwp_bind.
  destruct caller as [|cs cc cv]; [done|]. destruct Hr as (?&?&?). unfold wwp at 1. simpl.
  apply wwp_bind, set_call_code_ok; [done| |].
  { split_and!; simpl; try done; try constructor; try (rewrite zlen_nil); try lia;
      match goal with H : word cv |- _ => apply H end. }
  intros c w4 Hgc Hc Hl4 Hv4.
  eapply wwp_mono; [eapply (run_or_revert_ok n run w id); eauto using snapshot_later, later_trans|].
  - rewrite Hgc. simpl. lia.
  - rewrite Hgc. simpl. unfold max_gas. lia.
  - rewrite Hgc. done.
Qed.

(** From the transfer on, [Call] runs the code of [addr]. *)
Lemma Call_start_ok caller addr input gas value id w w1 :
  ref_ok caller -> Common.is_array 20 addr -> is_bytes input -> zlen input < 2 ^ 63 ->
  0 <= gas < n -> word value -> world_ok B w -> later B w w1 -> snapshot_of w id w1 ->
  value <= abs_balance (view w1.(statedb)) (ref_Address caller) ->
  wwp (_ ← wdo (Transfer ctx (ref_Address caller) addr value);
       c ← new_contract caller addr value gas;
       c ← set_call_code c addr;
       run_or_revert run c input id) (call_post gas w) w1.
Proof.
  intros Hr Ha Hb Hl Hg Hv Hw Hl1 Hs1 Hbal. destruct Hctx as (_&Htr&_). unfold max_gas in *.
  assert (Hw1 : world_ok B w1) by eauto using later_ok.
  apply wwp_bind. rewrite Htr. eapply wwp_wdo; [apply core_Transfer_writes|done| |].
  { apply view_ok_transfer; [apply Hw1|]. split; [apply Hv|done]. }
  intros w2 Hl2 _ Hw2. apply wwp_bind. unfold new_contract. apply wwp_bind.
  unfold wwp at 1. simpl. set (w3 := with_jumpdests w2 _). unfold wwp at 1. simpl.
  assert (Hl3 : later B w1 w3) by done.
  apply wwp_bind, set_call_code_ok; [done|apply new_contract_ok; try done; lia|].
  intros c w4 Hgc Hc Hl4 Hv4. simpl in Hgc. subst gas.
  eapply (run_or_revert_ok n run w id); eauto using snapshot_later, later_trans.
  - lia.
  - unfold max_gas. lia.
Qed.

Lemma Call_with_ok caller addr input gas value w :
  ref_ok caller -> Common.is_array 20 addr -> is_bytes input -> zlen input < 2 ^ 63 ->
  0 <= gas < n -> word value -> world_ok B w ->
  run_call B (Call_with ctx cfg run caller addr input gas value) gas w.
Proof.
  intros Hr Ha Hb Hl Hg Hv Hw. apply run_call_intro. unfold Call_with.
  destruct Hctx as (Hcan&_). apply wwp_bind. unfold wwp at 1. simpl.
  assert (Hrefl : later B w w) by (by apply later_refl).
  destruct (NoRecursion cfg && _); [apply early_return; [lia|done|done|set_solver]|].
  destruct (depth w >? _); [apply early_return; [lia|done|done|set_solver]|].
  apply wwp_bind. rewrite Hcan. eapply wwp_wdb; [apply core_CanTransfer_reads|done|].
  intros w1 Hl1 Hv1 Hw1. cbv beta.
  destruct (value <=? _) eqn:Hbal; simpl; [|by apply early_return; [lia|..|set_solver]].
  bool_to_prop. apply wwp_bind, (wwp_snapshot _ w); [done..|]. intros id w2 Hl2 Hw2 Hv2 Hs2.
  apply wwp_bind. eapply wwp_wdb; [apply law_Exist|done|]. intros w3 Hl3 Hv3 Hw3. cbv beta zeta.
  assert (Hs3 : snapshot_of w id w3) by eauto using snapshot_later.
  assert (Hl3' : later B w w3) by eauto using later_trans.
  destruct (bool_decide (is_Some _)); simpl.
  - apply Call_start_ok; try done. rewrite Hv3, Hv2. done.
  - destruct (_ && _); [apply early_return; [lia|done|congruence|set_solver]|].
    apply wwp_bind. eapply wwp_wdo; [apply law_CreateAccount|done|apply view_ok_CreateAccount, Hw3|].
    intros w4 Hl4 Hv4 Hw4. apply Call_start_ok; eauto using later_trans, snapshot_later.
    rewrite Hv4, abs_balance_CreateAccount, Hv3, Hv2. done.
Qed.

Lemma CreateAddress_array b nonce : Common.is_array 20 (CreateAddress b nonce).
Proof.
  assert (H : forall d, Common.is_array 20 (Common.BytesToAddress (zdrop 12 (Keccak256 d)))).
  { intros d. rewrite Common.BytesToAddress_spec; [apply (Common.is_array_be_fixed 20)|].
    apply is_bytes_zdrop, Keccak256_size. }
  unfold CreateAddress. case_match; apply H.
Qed.

(** A creation: nothing but the gas and the snapshots of the caller is promised
    here. *)
Definition create_post (creator : Address) (gas : Z) (w : World S)
    (r : bytes * Address * Z * option vmerror) (w' : World S) : Prop :=
  let '(ret, addr, gleft, err) := r in
  is_bytes ret /\ Common.is_array 20 addr /\ 0 <= gleft <= gas /\ later B w w' /\
  create_undone creator err w w'.

Lemma create_early cr gas w w' err : 0 <= gas -> later B w w' ->
  view w'.(statedb) = view w.(statedb) ->
  wwp (mret (@nil Z, Common.zeroAddress, gas, err)) (create_post cr gas w) w'.
Proof.
  intros Hg Hl Hv. unfold wwp. change (is_bytes [] /\ Common.is_array 20 Common.zeroAddress /\
    0 <= gas <= gas /\ later B w w' /\ create_undone cr err w w').
  split; [apply Forall_nil_2|]. split; [apply Common.is_array_zeroAddress|].
  split; [lia|]. split; [done|]. intros _ _. by left.
Qed.

(** The end of [Create]: storing the code, or reverting. *)
Lemma Create_end_ok cr addr gas w w0 id ret err c w1 :
  Common.is_array 20 addr -> world_ok B w0 -> later B w w0 ->
  view w0.(statedb) = abs_SetNonce cr (u64 (abs_nonce (view w.(statedb)) cr + 1)) (view w.(statedb)) ->
  later B w0 w1 -> snapshot_of w0 id w1 ->
  is_bytes ret -> zlen ret < 2 ^ 63 -> 0 <= c.(Gas) <= gas -> gas < 2 ^ 64 ->
  wwp (let maxCodeSizeExceeded := zlen ret >? Params.MaxCodeSize in
       '(err, c) ← (if bool_decide (err = None) && negb maxCodeSizeExceeded then
                     let createDataGas := u64 (zlen ret * Params.CreateDataGas) in
                     let '(ok, c) := UseGas c createDataGas in
                     if (ok : bool) then _ ← wdo (SetCode addr ret); mret (err, c)
                     else mret (Some ErrCodeStoreOutOfGas, c)
                   else mret (err, c));
       if maxCodeSizeExceeded
          || (bool_decide (err ≠ None) && bool_decide (err ≠ Some ErrCodeStoreOutOfGas))
       then _ ← revert id; mret ([], addr, 0, err)
       else
         let ret := if bool_decide (err ≠ None) then [] else ret in
         mret (ret, addr, c.(Gas), err)) (create_post cr gas w) w1.
Proof.
  intros Ha Hw0 Hl0 Hvw Hl1 Hs Hret Hlen Hg Hgas. cbv zeta.
  assert (Hw1 : world_ok B w1) by eauto using later_ok.
  assert (Hlw : later B w w1) by eauto using later_trans.
  assert (Hend : forall (err : option vmerror) c' w2, 0 <= c'.(Gas) <= gas -> later B w0 w2 ->
    snapshot_of w0 id w2 ->
    wwp (if (zlen ret >? Params.MaxCodeSize)
          || (bool_decide (err ≠ None) && bool_decide (err ≠ Some ErrCodeStoreOutOfGas))
       then _ ← revert id; mret ([], addr, 0, err)
       else mret (if bool_decide (err ≠ None) then [] else ret, addr, c'.(Gas), err))
      (create_post cr gas w) w2).
  { intros err' c' w2 Hc' Hl2 Hs2. destruct (_ || _) eqn:Hor.
    - apply wwp_bind, (wwp_revert w0); [done..|]. intros w3 Hl3 Hv3. unfold wwp. simpl.
      split; [apply Forall_nil_2|]. split; [done|]. split; [lia|].
      split; [eauto using later_trans|]. intros _ _. right. congruence.
    - unfold wwp. simpl. split; [case_match; [apply Forall_nil_2|done]|].
      split; [done|]. split; [lia|]. split; [eauto using later_trans|]. intros ??.
      apply orb_false_iff in Hor as [_ [Hor|Hor]%andb_false_iff]; bool_to_prop; tauto. }
  apply wwp_bind. destruct (bool_decide _ && _) eqn:Hb; [|by apply Hend].
  bool_to_prop. unfold UseGas. set (cost := u64 _).
  assert (0 <= cost) by apply u64_range.
  destruct (Gas c <? cost) eqn:Hlt; [by apply Hend|]. bool_to_prop.
  apply wwp_bind. eapply wwp_wdo; [by apply law_SetCode|done|by apply view_ok_SetCode; [apply Hw1|..]|].
  intros w2 Hl2 _ Hw2. apply Hend; eauto using later_trans, snapshot_later.
  simpl. rewrite u64_small; lia.
Qed.

Lemma run_create_intro cr (m : WM S (bytes * Address * Z * option vmerror)) gas w :
  wwp m (create_post cr gas w) w -> run_create B cr m gas w.
Proof. unfold wwp, run_create. by destruct (m w) as [[[[[? ?] ?] ?]| | |] ?]. Qed.

Lemma Create_with_ok caller code gas value w :
  ref_ok caller -> is_bytes code -> zlen code < 2 ^ 63 -> 0 <= gas < n -> word value ->
  world_ok B w -> run_create B (ref_Address caller) (Create_with ctx cfg run caller code gas value) gas w.
Proof.
  intros Hr Hb Hl Hg Hv Hw. apply run_create_intro. unfold Create_with, max_gas in *.
  destruct Hctx as (Hcan&Htr&_). apply wwp_bind. unfold wwp at 1. simpl.
  assert (Hrefl : later B w w) by (by apply later_refl).
  destruct (NoRecursion cfg && _); [apply create_early; [lia|done|done]|].
  destruct (depth w >? _); [apply create_early; [lia|done|done]|].
  apply wwp_bind. rewrite Hcan. eapply wwp_wdb; [apply core_CanTransfer_reads|done|].
  intros w1 Hl1 Hv1 Hw1. cbv beta.
  destruct (value <=? _) eqn:Hbal; simpl; [|by apply create_early; [lia|..]]. bool_to_prop.
  apply wwp_bind. eapply wwp_wdb; [apply law_GetNonce|done|]. intros w2 Hl2 Hv2 Hw2. cbv beta.
  apply wwp_bind. eapply wwp_wdo; [apply law_SetNonce|done|apply view_ok_SetNonce; [apply Hw2|apply u64_range]|].
  intros w3 Hl3 Hv3 Hw3.
  assert (Hlw3 : later B w w3) by eauto using later_trans.
  apply wwp_bind, (wwp_snapshot _ w3); [done|by apply later_refl|done|].
  intros id w4 Hl4 Hw4 Hv4 Hs4. set (ca := CreateAddress _ _).
  assert (Hca : Common.is_array 20 ca) by apply CreateAddress_array.
  apply wwp_bind. eapply wwp_wdo; [apply law_CreateAccount|done|apply view_ok_CreateAccount, Hw4|].
  intros w5 Hl5 Hv5 Hw5.
  apply wwp_bind. eapply wwp_wdo; [apply law_SetNonce|done|apply view_ok_SetNonce; [apply Hw5|lia]|].
  intros w6 Hl6 Hv6 Hw6. apply wwp_bind. rewrite Htr.
  eapply wwp_wdo; [apply core_Transfer_writes|done| |].
  { apply view_ok_transfer; [apply Hw6|]. split; [apply Hv|].
    rewrite Hv6, abs_balance_SetNonce, Hv5, abs_balance_CreateAccount, Hv4, Hv3,
      abs_balance_SetNonce, Hv2, Hv1. done. }
  intros w7 Hl7 _ Hw7. apply wwp_bind. unfold new_contract. apply wwp_bind.
  unfold wwp at 1. simpl. set (w8 := with_jumpdests w7 _). unfold wwp at 1. simpl.
  assert (Hl8 : later B w3 w8).
  { apply later_cache. eauto 6 using later_trans. }
  assert (Hs8 : snapshot_of w3 id w8).
  { apply (snapshot_later w3 id w4); [done|]. apply later_cache. eauto 6 using later_trans. }
  set (c := SetCallCode _ _ _ _).
  assert (Hc : contract_ok c).
  { pose proof (new_contract_ok caller ca value gas Hr Hca Hv ltac:(lia)) as (?&?&?&?&?&?&?&?).
    split_and!; simpl; try done; lia. }
  apply wwp_bind. pose proof (Hrun c [] w8 Hc) as Hres. unfold wwp at 1.
  destruct (run c [] w8) as [[[[ret err] c']| | |] w9];
    try (exfalso; apply Hres; simpl; try done; try lia; [apply Forall_nil_2|unfold max_gas; lia]).
  destruct Hres as (Hret&Hrl&Hg'&Hl9);
    [apply Forall_nil_2|rewrite zlen_nil; lia|simpl; lia|unfold max_gas; simpl; lia|done|].
  apply (Create_end_ok (ref_Address caller) ca gas w w3 id);
    eauto using later_trans, snapshot_later; [|lia]. by rewrite Hv3, Hv2, Hv1.
Qed.

Lemma calls_with_ok g : g <= n -> calls_ok B g (calls_with ctx cfg run).
Proof.
  intros Hgn. split; intros; simpl.
  - apply Call_with_ok; try done. lia.
  - apply CallCode_with_ok; try done. lia.
  - apply DelegateCall_with_ok; try done. lia.
  - apply Create_with_ok; try done. lia.
Qed.
End entry.

(** ** The whole machine *)

Lemma run_ok_mono k k' run : k' <= k -> run_ok k run -> run_ok k' run.
Proof. intros Hle Hr c input w ??????. apply (Hr c input w); try done. lia. Qed.

Lemma loop_ok_fuel fuel : loop_ok (Z.of_nat fuel) (loop ctx cfg fuel).
Proof.
  induction fuel as [|fuel IH].
  - intros G f _ (?&?&(?&?&?&?&?&?&?&?)&_) Hg. simpl in Hg. lia.
  - rewrite Nat2Z.inj_succ, <- Z.add_1_r. simpl. apply loop_step; [done|].
    intros g Hg Hmax. apply (calls_with_ok (Z.min (Z.of_nat fuel) max_gas)); [|lia|lia].
    eapply run_ok_mono; [|by apply Run_with_ok, IH]. lia.
Qed.

Lemma Run_ok fuel : run_ok (Z.of_nat fuel) (Run ctx cfg fuel).
Proof. apply Run_with_ok, loop_ok_fuel. Qed.

Lemma machine_ok fuel :
  calls_ok B (Z.min (Z.of_nat fuel) max_gas) (calls_with ctx cfg (Run ctx cfg fuel)).
Proof.
  apply (calls_with_ok (Z.min (Z.of_nat fuel) max_gas)); [|lia|lia].
  eapply run_ok_mono; [|apply Run_ok]. lia.
Qed.
End machine.

(** The recursion bound of the machine only decides whether it returns: a run
    that returns gives the same result under every larger bound. *)

(** [m'] does what [m] does wherever [m] stays within its bound. *)
Definition extends {St E A} (m m' : SM St E A) : Prop :=
  forall s, fst (m s) <> NoFuel -> m' s = m s.

Lemma extends_refl {St E A} (m : SM St E A) : extends m m.
Proof. done. Qed.

Lemma extends_bind {St E A C} (m m' : SM St E A) (k k' : A -> SM St E C) :
  extends m m' -> (forall a, extends (k a) (k' a)) -> extends (m ≫= k) (m' ≫= k').
Proof.
  intros Hm Hk s. unfold mbind, SM_bind. intros Hs.
  rewrite (Hm s) by (by destruct (m s) as [[] ?]).
  destruct (m s) as [[] ?]; simpl in *; auto. by apply Hk.
Qed.

Create HintDb fuel discriminated.
#[export] Hint Resolve extends_refl : fuel.

(** Goes through a computation up to the parts that differ. *)
Ltac extends_step :=
  lazymatch goal with
  | |- extends (_ ≫= _) (_ ≫= _) => apply extends_bind; [|intros ?]
  | |- extends (if ?b then _ else _) (if ?b then _ else _) => destruct b
  | |- extends (match ?x with _ => _ end) (match ?x with _ => _ end) => destruct x
  | |- extends _ _ => solve [auto with fuel]
  end.
Ltac extends_auto := cbv zeta; repeat (extends_step; cbv zeta).

Section fuel.
Context {S : Type} {DB : StateDB S} {CR : Crypto}.
Variable ctx : Context S.
Variable cfg : Config.

(** *** Instructions *)

Record calls_extend (calls calls' : Calls S) : Prop := {
  extend_Call r a i g v : extends (do_Call calls r a i g v) (do_Call calls' r a i g v);
  extend_CallCode r a i g v : extends (do_CallCode calls r a i g v) (do_CallCode calls' r a i g v);
  extend_DelegateCall r a i g :
    extends (do_DelegateCall calls r a i g) (do_DelegateCall calls' r a i g);
  extend_Create r c g v : extends (do_Create calls r c g v) (do_Create calls' r c g v);
}.

Lemma extends_on_world {A} (m m' : WM S A) : extends m m' -> extends (on_world m) (on_world m').
Proof.
  intros Hm f. unfold on_world. intros Hf.
  rewrite (Hm (world f)) by (by destruct (m (world f)) as [[] ?]). done.
Qed.

Section instructions.
Variables calls calls' : Calls S.
Hypothesis Hcalls : calls_extend calls calls'.

Local Hint Resolve extends_on_world extend_Call extend_CallCode extend_DelegateCall
  extend_Create Hcalls : fuel.

Lemma opCall_extends : extends (opCall calls) (opCall calls').
Proof using Hcalls. unfold opCall. extends_auto. Qed.
Lemma opCallCode_extends : extends (opCallCode calls) (opCallCode calls').
Proof using Hcalls. unfold opCallCode. extends_auto. Qed.
Lemma opDelegateCall_extends : extends (opDelegateCall calls) (opDelegateCall calls').
Proof using Hcalls. unfold opDelegateCall. extends_auto. Qed.
Lemma opCreate_extends : extends (opCreate calls) (opCreate calls').
Proof using Hcalls. unfold opCreate. extends_auto. Qed.

Local Hint Resolve opCall_extends opCallCode_extends opDelegateCall_extends opCreate_extends : fuel.

Definition entry_extends (e : Z * operation S) : Prop :=
  extends (execute (snd e) calls) (execute (snd e) calls').

Lemma table_extends : Forall entry_extends (NewJumpTable ctx cfg).
Proof using Hcalls.
  unfold NewJumpTable. rewrite !Forall_app.
  unfold JumpTable_1, JumpTable_2, JumpTable_3, JumpTable_4, JumpTable_5, JumpTable_6.
  split_and!; repeat (apply Forall_cons; split); try apply Forall_nil_2;
    unfold entry_extends; cbn [snd execute]; auto with fuel.
Qed.

Lemma execute_extends op :
  extends (execute (defaultJumpTable ctx cfg op) calls) (execute (defaultJumpTable ctx cfg op) calls').
Proof using Hcalls.
  unfold defaultJumpTable. induction table_extends as [|[k o] t Ho Ht IH]; simpl; [done|].
  destruct (k =? op); [exact Ho|exact IH].
Qed.
Local Hint Resolve execute_extends : fuel.

Lemma step_extends : extends (step ctx cfg calls) (step ctx cfg calls').
Proof using Hcalls. unfold step. extends_auto. Qed.
End instructions.

(** *** Entry points *)

Section entry_points.
Variables run run' : Contract -> bytes -> WM S (bytes * option vmerror * Contract).
Hypothesis Hrun : forall c i, extends (run c i) (run' c i).
Local Hint Resolve Hrun : fuel.

Lemma run_or_revert_extends c i id : extends (run_or_revert run c i id) (run_or_revert run' c i id).
Proof using Hrun. unfold run_or_revert. extends_auto. Qed.
Local Hint Resolve run_or_revert_extends : fuel.

Lemma calls_with_extend : calls_extend (calls_with ctx cfg run) (calls_with ctx cfg run').
Proof using Hrun.
  split; intros; simpl.
  - unfold Call_with. extends_auto.
  - unfold CallCode_with. extends_auto.
  - unfold DelegateCall_with. extends_auto.
  - unfold Create_with. extends_auto.
Qed.
End entry_points.

Lemma Run_with_extends (main main' : VM S bytes) c i :
  extends main main' -> extends (Run_with main c i) (Run_with main' c i).
Proof.
  intros Hm w. unfold Run_with. destruct (_ ← _; _); [done|]. case_match; [done|].
  set (f := Build_Frame _ _ _ _ _). intros Hf.
  rewrite (Hm f) by (by destruct (main f) as [[] ?]). done.
Qed.

(** *** The machine *)

Lemma loop_extends_succ fuel :
  extends (loop ctx cfg fuel) (loop ctx cfg (Datatypes.S fuel)).
Proof.
  induction fuel as [|fuel IH]; [by intros f []|].
  cbn [loop]. fold (loop ctx cfg (Datatypes.S fuel)).
  apply extends_bind; [done|]. intros stop. destruct stop; [done|].
  apply extends_bind; [|intros []; [done|exact IH]].
  apply step_extends, calls_with_extend. intros c i. by apply Run_with_extends.
Qed.

Lemma extends_trans {St E A} (m1 m2 m3 : SM St E A) :
  extends m1 m2 -> extends m2 m3 -> extends m1 m3.
Proof. intros H12 H23 s Hs. rewrite <- (H12 s Hs). apply H23. by rewrite (H12 s Hs). Qed.

Lemma loop_extends fuel fuel' :
  (fuel <= fuel')%nat -> extends (loop ctx cfg fuel) (loop ctx cfg fuel').
Proof. induction 1; eauto using extends_refl, extends_trans, loop_extends_succ. Qed.

Lemma machine_extends fuel fuel' : (fuel <= fuel')%nat ->
  calls_extend (calls_with ctx cfg (Run ctx cfg fuel)) (calls_with ctx cfg (Run ctx cfg fuel')).
Proof.
  intros. apply calls_with_extend. intros c i. by apply Run_with_extends, loop_extends.
Qed.
End fuel.
