(* ===== verification/StateDB.v ===== *)
(** [core/state]: the journalled state database ([statedb.go], [state_object.go],
    [journal.go]).

    The account trie, the storage tries, the code database and the LRU cache of
    code sizes are the class [Backend]; what the proofs use of them is
    [BackendOk].  Pointers to state objects are values: an object that left the live set ([resetObjectChange]) is not modified any more.  The journal
    is kept newest entry first; [journalIndex] is the number of older entries. *)
From S2P Require Import Prelude GoBig CommonMath CommonTypes Params Rlp RlpDecode VmTypes StateSpec.

(** ** state_object.go: data *)

Record Account := {
  Nonce : Z;
  Balance : Z;
  Root : Hash;
  Account_CodeHash : bytes;
}.

(** The fields in the order of the encoding. *)
Definition account_type : Dec.gotype :=
  Dec.TyStruct [Dec.TyUint 64; Dec.TyBigInt; Dec.TyByteArray 32; Dec.TyBytes] None.
Definition account_value (d : Account) : Enc.value :=
  Enc.VList [Enc.VUint (Nonce d); Enc.VBigInt (Some (Balance d)); Enc.VBytes (Root d); Enc.VBytes (Account_CodeHash d)].

(** [rlp.DecodeBytes(enc, &data)] *)
Definition DecodeAccount (enc : bytes) : option Account :=
  match Dec.DecodeBytes account_type enc with
  | Done (Enc.VList [Enc.VUint n; Enc.VBigInt (Some b); Enc.VBytes r; Enc.VBytes c]) =>
      Some {| Nonce := n; Balance := b; Root := r; Account_CodeHash := c |}
  | _ => None
  end.

(** What the database is built on. *)
Class Backend := {
  trie : Type;
  NewSecure : Hash -> Z -> option trie;
  empty_trie : trie;
  Trie_Get : bytes -> trie -> bytes;
  Trie_Update : bytes -> bytes -> trie -> trie;
  Trie_Delete : bytes -> trie -> trie;
  Trie_Hash : trie -> Hash;
  db_Get : bytes -> option bytes;
  lru_Add : Hash -> Z -> gmap Hash Z -> gmap Hash Z;
}.

Class BackendOk `{Backend} : Prop := {
  NewSecure_zero : NewSecure Common.zeroHash 0 = Some empty_trie;
  Trie_Get_empty k : Trie_Get k empty_trie = [];
  db_Get_ok h c : db_Get h = Some c -> zlen c < 2 ^ 63;
  (** A cache only returns what was added. *)
  lru_Add_ok k v m k' v' : lru_Add k v m !! k' = Some v' -> (k', v') = (k, v) \/ m !! k' = Some v';
}.

Section state.
Context {CR : Crypto} {BE : Backend}.

Record stateObject := {
  data : Account;
  so_trie : option trie;
  code : option bytes;
  cachedStorage : gmap Hash Hash;
  dirtyStorage : gmap Hash Hash;
  dirtyCode : bool;
  suicided : bool;
  touched : bool;
  deleted : bool;
  onDirty : bool;
  dbErr : bool;
}.

Definition newObject (d : Account) (onDirty : bool) : stateObject :=
  {| data := d; so_trie := None; code := None; cachedStorage := ∅; dirtyStorage := ∅;
     dirtyCode := false; suicided := false; touched := false; deleted := false;
     onDirty := onDirty; dbErr := false |}.

(** [Account{}] as [newObject] completes it. *)
Definition zeroAccount : Account :=
  {| Nonce := 0; Balance := 0; Root := Common.zeroHash; Account_CodeHash := emptyCodeHash |}.

Definition obj_empty (o : stateObject) : bool :=
  (Nonce o.(data) =? 0) && (Big.Sign (Balance o.(data)) =? 0)
  && bool_decide (Account_CodeHash o.(data) = emptyCodeHash).

(** Assignments to single fields. *)
Definition with_data (o : stateObject) (d : Account) : stateObject :=
  {| data := d; so_trie := so_trie o; code := code o; cachedStorage := cachedStorage o;
     dirtyStorage := dirtyStorage o; dirtyCode := dirtyCode o; suicided := suicided o;
     touched := touched o; deleted := deleted o; onDirty := onDirty o; dbErr := dbErr o |}.
Definition with_trie (o : stateObject) (t : trie) (err : bool) : stateObject :=
  {| data := data o; so_trie := Some t; code := code o; cachedStorage := cachedStorage o;
     dirtyStorage := dirtyStorage o; dirtyCode := dirtyCode o; suicided := suicided o;
     touched := touched o; deleted := deleted o; onDirty := onDirty o;
     dbErr := dbErr o || err |}.
Definition with_so_code (o : stateObject) (c : option bytes) (dirty err : bool) : stateObject :=
  {| data := data o; so_trie := so_trie o; code := c; cachedStorage := cachedStorage o;
     dirtyStorage := dirtyStorage o; dirtyCode := dirty; suicided := suicided o;
     touched := touched o; deleted := deleted o; onDirty := onDirty o;
     dbErr := dbErr o || err |}.
Definition with_cached (o : stateObject) (k v : Hash) : stateObject :=
  {| data := data o; so_trie := so_trie o; code := code o;
     cachedStorage := <[k := v]> (cachedStorage o); dirtyStorage := dirtyStorage o;
     dirtyCode := dirtyCode o; suicided := suicided o; touched := touched o;
     deleted := deleted o; onDirty := onDirty o; dbErr := dbErr o |}.
Definition with_dirtyStorage (o : stateObject) (m : gmap Hash Hash) : stateObject :=
  {| data := data o; so_trie := so_trie o; code := code o;
     cachedStorage := cachedStorage o; dirtyStorage := m;
     dirtyCode := dirtyCode o; suicided := suicided o; touched := touched o;
     deleted := deleted o; onDirty := onDirty o; dbErr := dbErr o |}.
Definition with_flags (o : stateObject) (sui tou del dirty : bool) : stateObject :=
  {| data := data o; so_trie := so_trie o; code := code o; cachedStorage := cachedStorage o;
     dirtyStorage := dirtyStorage o; dirtyCode := dirtyCode o; suicided := sui;
     touched := tou; deleted := del; onDirty := dirty; dbErr := dbErr o |}.
(** [c.onDirty = nil] *)
Definition clear_onDirty (o : stateObject) : stateObject :=
  with_flags o (suicided o) (touched o) (deleted o) false.

Definition data_with_balance (d : Account) (b : Z) : Account :=
  {| Nonce := Nonce d; Balance := b; Root := Root d; Account_CodeHash := Account_CodeHash d |}.
Definition data_with_nonce (d : Account) (n : Z) : Account :=
  {| Nonce := n; Balance := Balance d; Root := Root d; Account_CodeHash := Account_CodeHash d |}.
Definition data_with_codeHash (d : Account) (h : bytes) : Account :=
  {| Nonce := Nonce d; Balance := Balance d; Root := Root d; Account_CodeHash := h |}.
Definition data_with_root (d : Account) (r : Hash) : Account :=
  {| Nonce := Nonce d; Balance := Balance d; Root := r; Account_CodeHash := Account_CodeHash d |}.

(** [getTrie]: the storage trie and whether opening it failed. *)
Definition getTrie (o : stateObject) : trie * bool :=
  match so_trie o with
  | Some t => (t, false)
  | None =>
      match NewSecure (Root o.(data)) 0 with
      | Some t => (t, false)
      | None => (empty_trie, true)
      end
  end.

(** The value [rlp.Split] finds in an encoded storage entry, and whether it
    failed.  ([Split] panics only on the string [[0x81]], which is never stored.) *)
Definition storage_value (enc : bytes) : Hash * bool :=
  if zlen enc >? 0 then
    match Raw.Split enc with
    | Done (_, content, _) => (Common.BytesToHash content, false)
    | _ => (Common.zeroHash, true)
    end
  else (Common.zeroHash, false).

Definition obj_GetState (o : stateObject) (key : Hash) : Hash * stateObject :=
  match cachedStorage o !! key with
  | Some v => (v, o)
  | None =>
      let '(t, err1) := getTrie o in
      let '(value, err2) := storage_value (Trie_Get key t) in
      let o := with_trie o t (err1 || err2) in
      let o := if negb (Common.EmptyHash value) then with_cached o key value else o in
      (value, o)
  end.

(** [Code]: the code, and the object with the code loaded. *)
Definition obj_Code (o : stateObject) : bytes * stateObject :=
  match code o with
  | Some c => (c, o)
  | None =>
      if bool_decide (Account_CodeHash o.(data) = emptyCodeHash) then ([], o)
      else
        let c := db_Get (Account_CodeHash o.(data)) in
        (default [] c, with_so_code o c (dirtyCode o) (if c then false else true))
  end.

(** ** journal.go and statedb.go: data *)

Inductive journalEntry :=
| createObjectChange (account : Address)
| resetObjectChange (account : Address) (prev : stateObject)
| suicideChange (account : Address) (prev : bool) (prevbalance : Z)
| balanceChange (account : Address) (prev : Z)
| nonceChange (account : Address) (prev : Z)
| storageChange (account : Address) (key prevalue : Hash)
| codeChange (account : Address) (prevcode : option bytes) (prevhash : bytes)
| refundChange (prev : Z)
| addLogChange (txhash : Hash)
| addPreimageChange (hash : Hash)
| touchChange (account : Address) (prev prevDirty : bool).

Record db := {
  state_trie : trie;
  stateObjects : gmap Address stateObject;
  stateObjectsDirty : gset Address;
  db_refund : Z;
  thash : Hash;
  bhash : Hash;
  txIndex : Z;
  db_logs : gmap Hash (list Log);
  logSize : Z;
  db_preimages : gmap Hash bytes;
  journal : list journalEntry;
  validRevisions : list (Z * Z);
  nextRevisionId : Z;
  codeSizeCache : gmap Hash Z;
}.

(** The field assignments of the methods below. *)
Definition set_objects (s : db) (m : gmap Address stateObject) (d : gset Address) : db :=
  {| state_trie := state_trie s; stateObjects := m; stateObjectsDirty := d;
     db_refund := db_refund s; thash := thash s; bhash := bhash s; txIndex := txIndex s;
     db_logs := db_logs s; logSize := logSize s; db_preimages := db_preimages s;
     journal := journal s; validRevisions := validRevisions s;
     nextRevisionId := nextRevisionId s; codeSizeCache := codeSizeCache s |}.
Definition set_journal (s : db) (j : list journalEntry) (r : list (Z * Z)) (n : Z) : db :=
  {| state_trie := state_trie s; stateObjects := stateObjects s;
     stateObjectsDirty := stateObjectsDirty s; db_refund := db_refund s; thash := thash s;
     bhash := bhash s; txIndex := txIndex s; db_logs := db_logs s; logSize := logSize s;
     db_preimages := db_preimages s; journal := j; validRevisions := r; nextRevisionId := n;
     codeSizeCache := codeSizeCache s |}.
Definition set_db_refund (s : db) (n : Z) : db :=
  {| state_trie := state_trie s; stateObjects := stateObjects s;
     stateObjectsDirty := stateObjectsDirty s; db_refund := n; thash := thash s;
     bhash := bhash s; txIndex := txIndex s; db_logs := db_logs s; logSize := logSize s;
     db_preimages := db_preimages s; journal := journal s; validRevisions := validRevisions s;
     nextRevisionId := nextRevisionId s; codeSizeCache := codeSizeCache s |}.
Definition set_db_logs (s : db) (l : gmap Hash (list Log)) (n : Z) : db :=
  {| state_trie := state_trie s; stateObjects := stateObjects s;
     stateObjectsDirty := stateObjectsDirty s; db_refund := db_refund s; thash := thash s;
     bhash := bhash s; txIndex := txIndex s; db_logs := l; logSize := n;
     db_preimages := db_preimages s; journal := journal s; validRevisions := validRevisions s;
     nextRevisionId := nextRevisionId s; codeSizeCache := codeSizeCache s |}.
Definition set_db_preimages (s : db) (m : gmap Hash bytes) : db :=
  {| state_trie := state_trie s; stateObjects := stateObjects s;
     stateObjectsDirty := stateObjectsDirty s; db_refund := db_refund s; thash := thash s;
     bhash := bhash s; txIndex := txIndex s; db_logs := db_logs s; logSize := logSize s;
     db_preimages := m; journal := journal s; validRevisions := validRevisions s;
     nextRevisionId := nextRevisionId s; codeSizeCache := codeSizeCache s |}.
Definition set_cache (s : db) (c : gmap Hash Z) : db :=
  {| state_trie := state_trie s; stateObjects := stateObjects s;
     stateObjectsDirty := stateObjectsDirty s; db_refund := db_refund s; thash := thash s;
     bhash := bhash s; txIndex := txIndex s; db_logs := db_logs s; logSize := logSize s;
     db_preimages := db_preimages s; journal := journal s; validRevisions := validRevisions s;
     nextRevisionId := nextRevisionId s; codeSizeCache := c |}.
Definition set_trie (s : db) (t : trie) : db :=
  {| state_trie := t; stateObjects := stateObjects s;
     stateObjectsDirty := stateObjectsDirty s; db_refund := db_refund s; thash := thash s;
     bhash := bhash s; txIndex := txIndex s; db_logs := db_logs s; logSize := logSize s;
     db_preimages := db_preimages s; journal := journal s; validRevisions := validRevisions s;
     nextRevisionId := nextRevisionId s; codeSizeCache := codeSizeCache s |}.

(** [self.journal = append(self.journal, e)] *)
Definition log_change (s : db) (e : journalEntry) : db :=
  set_journal s (e :: journal s) (validRevisions s) (nextRevisionId s).

(** Cache generations of the account trie. *)
Definition MaxTrieCacheGen : Z := 120.

(** [New(root, db)] *)
Definition New (root : Hash) : option db :=
  t ← NewSecure root MaxTrieCacheGen;
  Some {| state_trie := t; stateObjects := ∅; stateObjectsDirty := ∅; db_refund := 0;
     thash := Common.zeroHash; bhash := Common.zeroHash; txIndex := 0; db_logs := ∅;
     logSize := 0; db_preimages := ∅; journal := []; validRevisions := []; nextRevisionId := 0;
     codeSizeCache := ∅ |}.

Definition StartRecord (s : db) (th bh : Hash) (ti : Z) : db :=
  {| state_trie := state_trie s; stateObjects := stateObjects s;
     stateObjectsDirty := stateObjectsDirty s; db_refund := db_refund s; thash := th;
     bhash := bh; txIndex := ti; db_logs := db_logs s; logSize := logSize s;
     db_preimages := db_preimages s; journal := journal s; validRevisions := validRevisions s;
     nextRevisionId := nextRevisionId s; codeSizeCache := codeSizeCache s |}.

(** ** Live objects *)

Definition setStateObject (s : db) (a : Address) (o : stateObject) : db :=
  set_objects s (<[a := o]> (stateObjects s)) (stateObjectsDirty s).
Definition MarkStateObjectDirty (s : db) (a : Address) : db :=
  set_objects s (stateObjects s) ({[a]} ∪ stateObjectsDirty s).

(** The account stored in the trie under [a]. *)
Definition stored (s : db) (a : Address) : option Account :=
  let enc := Trie_Get a (state_trie s) in
  if zlen enc =? 0 then None else DecodeAccount enc.

Definition getStateObject (a : Address) (s : db) : option stateObject * db :=
  match stateObjects s !! a with
  | Some o => if deleted o then (None, s) else (Some o, s)
  | None =>
      match stored s a with
      | None => (None, s)
      | Some d => let o := newObject d true in (Some o, setStateObject s a o)
      end
  end.

(** An object was modified: [if c.onDirty != nil { c.onDirty(addr); c.onDirty = nil }],
    then the object is written back. *)
Definition put_dirty (s : db) (a : Address) (o : stateObject) : db :=
  let s := if onDirty o then MarkStateObjectDirty s a else s in
  setStateObject s a (clear_onDirty o).

Definition obj_setBalance (s : db) (a : Address) (o : stateObject) (amount : Z) : db :=
  put_dirty s a (with_data o (data_with_balance (data o) amount)).
Definition obj_setNonce (s : db) (a : Address) (o : stateObject) (n : Z) : db :=
  put_dirty s a (with_data o (data_with_nonce (data o) n)).
Definition obj_setState (s : db) (a : Address) (o : stateObject) (key value : Hash) : db :=
  let o := with_cached o key value in
  let o := with_dirtyStorage o (<[key := value]> (dirtyStorage o)) in
  put_dirty s a o.
Definition obj_setCode (s : db) (a : Address) (o : stateObject) (codeHash : bytes)
    (c : option bytes) : db :=
  let o := with_so_code o c true false in
  put_dirty s a (with_data o (data_with_codeHash (data o) codeHash)).

Definition obj_touch (s : db) (a : Address) (o : stateObject) : db :=
  let s := log_change s (touchChange a (touched o) (negb (onDirty o))) in
  put_dirty s a (with_flags o (suicided o) true (deleted o) (onDirty o)).

Definition obj_SetBalance (s : db) (a : Address) (o : stateObject) (amount : Z) : db :=
  let s := log_change s (balanceChange a (Balance (data o))) in
  obj_setBalance s a o amount.
Definition obj_AddBalance (s : db) (a : Address) (o : stateObject) (amount : Z) : db :=
  if Big.Sign amount =? 0 then
    if obj_empty o then obj_touch s a o else s
  else obj_SetBalance s a o (Balance (data o) + amount).
Definition obj_SubBalance (s : db) (a : Address) (o : stateObject) (amount : Z) : db :=
  if Big.Sign amount =? 0 then s
  else obj_SetBalance s a o (Balance (data o) - amount).
Definition obj_SetNonce (s : db) (a : Address) (o : stateObject) (n : Z) : db :=
  let s := log_change s (nonceChange a (Nonce (data o))) in
  obj_setNonce s a o n.
Definition obj_SetState (s : db) (a : Address) (o : stateObject) (key value : Hash) : db :=
  let '(prevalue, o) := obj_GetState o key in
  let s := log_change s (storageChange a key prevalue) in
  obj_setState s a o key value.
Definition obj_SetCode (s : db) (a : Address) (o : stateObject) (codeHash : Hash) (c : bytes) : db :=
  let '(_, o) := obj_Code o in
  let s := log_change s (codeChange a (code o) (Account_CodeHash (data o))) in
  obj_setCode s a o codeHash (Some c).

(** [createObject]: the new object and the one it replaces. *)
Definition createObject (a : Address) (s : db) : stateObject * option stateObject * db :=
  let '(prev, s) := getStateObject a s in
  let newobj := newObject zeroAccount true in
  (* newobj.setNonce(0) sets the object to dirty *)
  let s := MarkStateObjectDirty s a in
  let newobj := clear_onDirty newobj in
  let s := log_change s
    (match prev with None => createObjectChange a | Some p => resetObjectChange a p end) in
  (newobj, prev, setStateObject s a newobj).

Definition GetOrNewStateObject (a : Address) (s : db) : stateObject * db :=
  match getStateObject a s with
  | (Some o, s) => (o, s)
  | (None, s) => let '(o, _, s) := createObject a s in (o, s)
  end.

(** ** Methods *)

Definition db_CreateAccount (a : Address) (s : db) : db :=
  let '(o, prev, s) := createObject a s in
  match prev with
  | Some p => obj_setBalance s a o (Balance (data p))
  | None => s
  end.

Definition db_AddBalance (a : Address) (amount : Z) (s : db) : db :=
  let '(o, s) := GetOrNewStateObject a s in obj_AddBalance s a o amount.
Definition db_SubBalance (a : Address) (amount : Z) (s : db) : db :=
  let '(o, s) := GetOrNewStateObject a s in obj_SubBalance s a o amount.
Definition db_SetBalance (a : Address) (amount : Z) (s : db) : db :=
  let '(o, s) := GetOrNewStateObject a s in obj_SetBalance s a o amount.
Definition db_SetNonce (a : Address) (n : Z) (s : db) : db :=
  let '(o, s) := GetOrNewStateObject a s in obj_SetNonce s a o n.
Definition db_SetCode (a : Address) (c : bytes) (s : db) : db :=
  let '(o, s) := GetOrNewStateObject a s in obj_SetCode s a o (Keccak256Hash c) c.
Definition db_SetState (a : Address) (key value : Hash) (s : db) : db :=
  let '(o, s) := GetOrNewStateObject a s in obj_SetState s a o key value.

Definition db_Suicide (a : Address) (s : db) : bool * db :=
  match getStateObject a s with
  | (None, s) => (false, s)
  | (Some o, s) =>
      let s := log_change s (suicideChange a (suicided o) (Balance (data o))) in
      (* markSuicided, then data.Balance = 0 *)
      let o := with_flags o true (touched o) (deleted o) (onDirty o) in
      (true, put_dirty s a (with_data o (data_with_balance (data o) 0)))
  end.

Definition db_Exist (a : Address) (s : db) : bool * db :=
  let '(o, s) := getStateObject a s in (if o then true else false, s).
Definition db_Empty (a : Address) (s : db) : bool * db :=
  let '(o, s) := getStateObject a s in
  (match o with None => true | Some o => obj_empty o end, s).
Definition db_GetBalance (a : Address) (s : db) : Z * db :=
  let '(o, s) := getStateObject a s in
  (match o with None => 0 | Some o => Balance (data o) end, s).
Definition db_GetNonce (a : Address) (s : db) : Z * db :=
  let '(o, s) := getStateObject a s in
  (match o with None => 0 | Some o => Nonce (data o) end, s).
Definition db_HasSuicided (a : Address) (s : db) : bool * db :=
  let '(o, s) := getStateObject a s in
  (match o with None => false | Some o => suicided o end, s).
Definition db_GetCodeHash (a : Address) (s : db) : Hash * db :=
  let '(o, s) := getStateObject a s in
  (match o with
   | None => Common.zeroHash
   | Some o => Common.BytesToHash (Account_CodeHash (data o))
   end, s).
Definition db_GetCode (a : Address) (s : db) : bytes * db :=
  match getStateObject a s with
  | (None, s) => ([], s)
  | (Some o, s) =>
      let '(c, o) := obj_Code o in
      let s := setStateObject s a o in
      let key := Common.BytesToHash (Account_CodeHash (data o)) in
      (c, set_cache s (lru_Add key (zlen c) (codeSizeCache s)))
  end.
Definition db_GetCodeSize (a : Address) (s : db) : Z * db :=
  match getStateObject a s with
  | (None, s) => (0, s)
  | (Some o, s) =>
      let key := Common.BytesToHash (Account_CodeHash (data o)) in
      match codeSizeCache s !! key with
      | Some n => (n, s)
      | None =>
          let '(c, o) := obj_Code o in
          let s := setStateObject s a o in
          let size := zlen c in
          (size, if negb (dbErr o) then set_cache s (lru_Add key size (codeSizeCache s)) else s)
      end
  end.
Definition db_GetState (a : Address) (key : Hash) (s : db) : Hash * db :=
  match getStateObject a s with
  | (None, s) => (Common.zeroHash, s)
  | (Some o, s) => let '(v, o) := obj_GetState o key in (v, setStateObject s a o)
  end.

Definition db_AddRefund (gas : Z) (s : db) : db :=
  let s := log_change s (refundChange (db_refund s)) in
  set_db_refund s (db_refund s + gas).

Definition db_AddLog (l : Log) (s : db) : db :=
  let s := log_change s (addLogChange (thash s)) in
  let l := {| log_Address := log_Address l; log_Topics := log_Topics l; log_Data := log_Data l;
              log_BlockNumber := log_BlockNumber l; log_TxHash := thash s;
              log_TxIndex := txIndex s; log_BlockHash := bhash s; log_Index := logSize s;
              log_Removed := log_Removed l |} in
  set_db_logs s (<[thash s := default [] (db_logs s !! thash s) ++ [l]]> (db_logs s))
    (logSize s + 1).

Definition db_AddPreimage (hash : Hash) (preimage : bytes) (s : db) : db :=
  match db_preimages s !! hash with
  | Some _ => s
  | None =>
      let s := log_change s (addPreimageChange hash) in
      set_db_preimages s (<[hash := Common.CopyBytes preimage]> (db_preimages s))
  end.

(** ** journal.go: undo *)

(** [None] is a nil pointer dereference. *)
Definition on_object (a : Address) (s : db) (k : db -> stateObject -> db) : option db :=
  match getStateObject a s with
  | (Some o, s) => Some (k s o)
  | (None, _) => None
  end.

Definition ripemd : Address := Common.BytesToAddress [3].

Definition undo (e : journalEntry) (s : db) : option db :=
  match e with
  | createObjectChange a =>
      Some (set_objects s (delete a (stateObjects s)) (stateObjectsDirty s ∖ {[a]}))
  | resetObjectChange a prev => Some (setStateObject s a prev)
  | suicideChange a prev prevbalance =>
      match getStateObject a s with
      | (Some o, s) =>
          let o := with_flags o prev (touched o) (deleted o) (onDirty o) in
          Some (obj_setBalance s a o prevbalance)
      | (None, s) => Some s
      end
  | touchChange a prev prevDirty =>
      if negb prev && bool_decide (a ≠ ripemd) then
        on_object a s (fun s o =>
          let s := setStateObject s a (with_flags o (suicided o) prev (deleted o) (onDirty o)) in
          if negb prevDirty then set_objects s (stateObjects s) (stateObjectsDirty s ∖ {[a]})
          else s)
      else Some s
  | balanceChange a prev => on_object a s (fun s o => obj_setBalance s a o prev)
  | nonceChange a prev => on_object a s (fun s o => obj_setNonce s a o prev)
  | codeChange a prevcode prevhash =>
      on_object a s (fun s o => obj_setCode s a o (Common.BytesToHash prevhash) prevcode)
  | storageChange a key prevalue => on_object a s (fun s o => obj_setState s a o key prevalue)
  | refundChange prev => Some (set_db_refund s prev)
  | addLogChange txhash =>
      let logs := default [] (db_logs s !! txhash) in
      if zlen logs =? 1 then Some (set_db_logs s (delete txhash (db_logs s)) (logSize s))
      else
        logs ← slice logs 0 (zlen logs - 1);
        Some (set_db_logs s (<[txhash := logs]> (db_logs s)) (logSize s))
  | addPreimageChange hash => Some (set_db_preimages s (delete hash (db_preimages s)))
  end.

(** ** Snapshots *)

Definition db_Snapshot (s : db) : Z * db :=
  let id := nextRevisionId s in
  (id, set_journal s (journal s) (validRevisions s ++ [(id, zlen (journal s))]) (id + 1)).

(** [sort.Search(n, f)]: binary search for the least index with [f]. *)
Fixpoint Search_loop (fuel : nat) (f : Z -> bool) (i j : Z) : Z :=
  match fuel with
  | O => i
  | S fuel =>
      if i <? j then
        let h := (i + j) / 2 in
        if negb (f h) then Search_loop fuel f (h + 1) j else Search_loop fuel f i h
      else i
  end.
Definition Search (n : Z) (f : Z -> bool) : Z := Search_loop (Z.to_nat n) f 0 n.

(** Undoes the [n] newest entries, newest first; no [undo] touches the journal, so
    it may be shortened on the way. *)
Fixpoint undo_all (n : nat) (s : db) : option db :=
  match n with
  | O => Some s
  | S n =>
      match journal s with
      | [] => Some s
      | e :: j =>
          s' ← undo e (set_journal s j (validRevisions s) (nextRevisionId s));
          undo_all n s'
      end
  end.

Definition db_RevertToSnapshot (revid : Z) (s : db) : option db :=
  let revs := validRevisions s in
  let idx := Search (zlen revs) (fun i => from_option (fun r => revid <=? r.1) false (zget revs i)) in
  if idx =? zlen revs then None
  else
    r ← zget revs idx;
    if negb (r.1 =? revid) then None
    else
      let snapshot := r.2 in
      s ← undo_all (Z.to_nat (zlen (journal s) - snapshot)) s;
      Some (set_journal s (journal s) (ztake idx revs) (nextRevisionId s)).

#[export] Instance db_StateDB : StateDB db := {
  CreateAccount := db_CreateAccount;
  SubBalance := db_SubBalance;
  AddBalance := db_AddBalance;
  GetBalance := db_GetBalance;
  GetNonce := db_GetNonce;
  SetNonce := db_SetNonce;
  GetCodeHash := db_GetCodeHash;
  GetCode := db_GetCode;
  SetCode := db_SetCode;
  GetCodeSize := db_GetCodeSize;
  AddRefund := db_AddRefund;
  GetRefund := db_refund;
  GetState := db_GetState;
  SetState := db_SetState;
  Suicide := db_Suicide;
  HasSuicided := db_HasSuicided;
  Exist := db_Exist;
  Empty := db_Empty;
  RevertToSnapshot := db_RevertToSnapshot;
  Snapshot := db_Snapshot;
  AddLog := db_AddLog;
  AddPreimage := db_AddPreimage;
  poke_refund n s := set_db_refund s n;
}.
End state.
