(* ===== verification/StateCommit.v ===== *)
(** [core/state]: writing the state ([statedb.go], [state_object.go]): storage tries,
    the account trie, root hashes, commits and copies.

    Ranging over a Go map visits the keys in an order of the runtime's choice: the
    class [MapOrder].  The writer that a commit fills and [SecureTrie.CommitTo] are
    the class [Writer]. *)
From S2P Require Import Prelude GoBig CommonMath CommonTypes Params Rlp VmTypes StateSpec StateDB.

(** The order in which [range] visits the keys of a map. *)
Class MapOrder := order : gset (list Z) -> list (list Z).
Class MapOrderOk `{MapOrder} : Prop := order_perm X : order X ≡ₚ elements X.

Inductive commitErr :=
| errObject                  (* the read error an object remembers *)
| errWrite.                    (* [Put] failed *)

Class Writer (W : Type) `{Backend} := {
  dbw_Put : bytes -> bytes -> W -> option W;
  Trie_CommitTo : SM (trie * W) commitErr Hash;
}.

(** [tiltdb.Database.NewBatch] and [tiltdb.Batch.Write]. *)
Class Batching (B D : Type) := {
  NewBatch : D -> B;
  Write : B -> D -> bool * D;
}.

(** [bytes.TrimLeft(b, "\x00")] *)
Fixpoint TrimLeft (b : bytes) : bytes :=
  match b with
  | x :: b' => if x =? 0 then TrimLeft b' else b
  | [] => []
  end.

Section commit.
Context {CR : Crypto} {BE : Backend} {MO : MapOrder}.

(** ** state_object.go *)

(** The encoding of a storage value; the error is dropped. *)
Definition slot_encoding (value : Hash) : bytes :=
  match Enc.EncodeToBytes (Enc.VBytes (TrimLeft value)) with
  | Done v => v
  | _ => []
  end.

Definition update_slot (tr : trie) (key value : Hash) : trie :=
  if bool_decide (value = Common.zeroHash) then Trie_Delete key tr
  else Trie_Update key (slot_encoding value) tr.

(** [updateTrie]: the object, whose trie is set. *)
Definition updateTrie (o : stateObject) : stateObject :=
  let '(tr, err) := getTrie o in
  let tr := fold_left (fun tr key => update_slot tr key (default Common.zeroHash (dirtyStorage o !! key)))
    (order (dom (dirtyStorage o))) tr in
  with_dirtyStorage (with_trie o tr err) ∅.

(** [self.trie], after [updateTrie] *)
Definition the_trie (o : stateObject) : trie := default empty_trie (so_trie o).

Definition updateRoot (o : stateObject) : stateObject :=
  let o := updateTrie o in
  with_data o (data_with_root (data o) (Trie_Hash (the_trie o))).

Definition deepCopy (o : stateObject) (onDirty : bool) : stateObject :=
  let c := newObject (data o) onDirty in
  {| data := data c; so_trie := so_trie o; code := code o; cachedStorage := dirtyStorage o;
     dirtyStorage := dirtyStorage o; dirtyCode := dirtyCode o; suicided := suicided o;
     touched := touched c; deleted := deleted o; onDirty := onDirty; dbErr := dbErr c |}.

(** ** statedb.go *)

(** [None] is the panic on an account that cannot be encoded. *)
Definition updateStateObject (s : db) (a : Address) (o : stateObject) : option db :=
  match Enc.EncodeToBytes (account_value (data o)) with
  | Done d => Some (set_trie s (Trie_Update a d (state_trie s)))
  | _ => None
  end.

Definition deleteStateObject (s : db) (a : Address) (o : stateObject) : db :=
  let s := setStateObject s a (with_flags o (suicided o) (touched o) true (onDirty o)) in
  set_trie s (Trie_Delete a (state_trie s)).

Definition clearJournalAndRefund (s : db) : db :=
  set_db_refund (set_journal s [] [] (nextRevisionId s)) 0.

(** The body of the loop of [IntermediateRoot]; [None] is a panic. *)
Definition finalise_object (a : Address) (s : db) : option db :=
  o ← stateObjects s !! a;
  if suicided o || obj_empty o then Some (deleteStateObject s a o)
  else
    let o := updateRoot o in
    updateStateObject (setStateObject s a o) a o.

Fixpoint finalise_all (l : list Address) (s : db) : option db :=
  match l with
  | [] => Some s
  | a :: l => s ← finalise_object a s; finalise_all l s
  end.

Definition IntermediateRoot (s : db) : option (Hash * db) :=
  s ← finalise_all (order (stateObjectsDirty s)) s;
  let s := clearJournalAndRefund s in
  Some (Trie_Hash (state_trie s), s).

(** The loop of [DeleteSuicides], for one address. *)
Definition delete_suicide (a : Address) (s : db) : option db :=
  o ← stateObjects s !! a;
  let o := if suicided o then with_flags o true (touched o) true (onDirty o) else o in
  Some (set_objects s (<[a := o]> (stateObjects s)) (stateObjectsDirty s ∖ {[a]})).
Fixpoint delete_suicides (l : list Address) (s : db) : option db :=
  match l with
  | [] => Some s
  | a :: l => s ← delete_suicide a s; delete_suicides l s
  end.
Definition DeleteSuicides (s : db) : option db :=
  let s := clearJournalAndRefund s in
  delete_suicides (order (stateObjectsDirty s)) s.

(** [StorageTrie]: the trie of a copy with the pending writes. *)
Definition StorageTrie (a : Address) (s : db) : option trie * db :=
  match getStateObject a s with
  | (None, s) => (None, s)
  | (Some o, s) => (Some (the_trie (updateTrie (deepCopy o false))), s)
  end.

(** [Copy]; [None] is a dirty address without object.  The copy has the same
    pointer to the account trie. *)
Fixpoint copy_objects (l : list Address) (s : db) (m : gmap Address stateObject)
  : option (gmap Address stateObject) :=
  match l with
  | [] => Some m
  | a :: l => o ← stateObjects s !! a; copy_objects l s (<[a := deepCopy o true]> m)
  end.
Definition Copy (s : db) : option db :=
  m ← copy_objects (order (stateObjectsDirty s)) s ∅;
  Some {| state_trie := state_trie s; stateObjects := m; stateObjectsDirty := stateObjectsDirty s;
     db_refund := db_refund s; thash := Common.zeroHash; bhash := Common.zeroHash; txIndex := 0;
     db_logs := db_logs s; logSize := logSize s; db_preimages := db_preimages s; journal := [];
     validRevisions := []; nextRevisionId := 0; codeSizeCache := codeSizeCache s |}.

(** ** Commit *)
Section writer.
Context {W : Type} {WR : Writer W}.

Definition put_entry (k v : bytes) : SM W commitErr unit := fun w =>
  match dbw_Put k v w with
  | Some w => (Done tt, w)
  | None => (Error errWrite, w)
  end.

(** [CommitTrie] *)
Definition CommitTrie : SM (stateObject * W) commitErr unit := fun '(o, w) =>
  let o := updateTrie o in
  if dbErr o then (Error errObject, (o, w))
  else
    match Trie_CommitTo (the_trie o, w) with
    | (Done root, (t, w)) => (Done tt, (with_data (with_trie o t false) (data_with_root (data o) root), w))
    | (Error e, (t, w)) => (Error e, (with_trie o t false, w))
    | (Panic, (t, w)) => (Panic, (with_trie o t false, w))
    | (NoFuel, (t, w)) => (NoFuel, (with_trie o t false, w))
    end.

(** [if stateObject.code != nil && stateObject.dirtyCode] *)
Definition commit_code (o : stateObject) (w : W) : outcome commitErr unit * (stateObject * W) :=
  match code o with
  | Some c =>
      if dirtyCode o then
        match put_entry (Account_CodeHash (data o)) c w with
        | (Done _, w) => (Done tt, (with_so_code o (Some c) false false, w))
        | (r, w) => (r, (o, w))
        end
      else (Done tt, (o, w))
  | None => (Done tt, (o, w))
  end.

(** The middle case of the switch of [CommitTo]: the object is a pointer, so what
    happened to it stays also when an error is returned. *)
Definition commit_dirty (a : Address) (o : stateObject) : SM (db * W) commitErr unit := fun '(s, w) =>
  match commit_code o w with
  | (Done _, (o, w)) =>
      match CommitTrie (o, w) with
      | (Done _, (o, w)) =>
          match updateStateObject (setStateObject s a o) a o with
          | Some s => (Done tt, (s, w))
          | None => (Panic, (setStateObject s a o, w))
          end
      | (r, (o, w)) => (r, (setStateObject s a o, w))
      end
  | (r, (o, w)) => (r, (setStateObject s a o, w))
  end.

Definition unmark (a : Address) (s : db) : db :=
  set_objects s (stateObjects s) (stateObjectsDirty s ∖ {[a]}).

(** The body of the loop of [CommitTo]. *)
Definition commit_object (a : Address) : SM (db * W) commitErr unit := fun '(s, w) =>
  match stateObjects s !! a with
  | None => (Done tt, (s, w))
  | Some o =>
      let isDirty := bool_decide (a ∈ stateObjectsDirty s) in
      if suicided o || (isDirty && obj_empty o) then
        (Done tt, (unmark a (deleteStateObject s a o), w))
      else if isDirty then
        match commit_dirty a o (s, w) with
        | (Done _, (s, w)) => (Done tt, (unmark a s, w))
        | r => r
        end
      else (Done tt, (unmark a s, w))
  end.

Fixpoint commit_objects (l : list Address) : SM (db * W) commitErr unit :=
  match l with
  | [] => mret tt
  | a :: l => _ ← commit_object a; commit_objects l
  end.

(** [CommitTo], without the list of past tries. *)
Definition CommitTo : SM (db * W) commitErr Hash := fun '(s, w) =>
  match commit_objects (order (dom (stateObjects s))) (s, w) with
  | (Done _, (s, w)) =>
      let '(r, (t, w)) := Trie_CommitTo (state_trie s, w) in
      (r, (clearJournalAndRefund (set_trie s t), w))
  | (Error e, (s, w)) => (Error e, (clearJournalAndRefund s, w))
  | (Panic, (s, w)) => (Panic, (clearJournalAndRefund s, w))
  | (NoFuel, (s, w)) => (NoFuel, (clearJournalAndRefund s, w))
  end.

(** [CommitBatch] and [Commit]: the writer is a batch of the database. *)
Section batch.
Context {D : Type} {BT : Batching W D}.

(** The error of [CommitTo] is dropped; the root is the zero hash then. *)
Definition CommitBatch (s : db) (d : D) : outcome commitErr Hash * (db * W) :=
  match CommitTo (s, NewBatch d) with
  | (Error _, st) => (Done Common.zeroHash, st)
  | r => r
  end.

(** The root and whether [Write] succeeded. *)
Definition Commit : SM (db * D) commitErr (Hash * bool) := fun '(s, d) =>
  match CommitBatch s d with
  | (Done root, (s, batch)) => let '(ok, d) := Write batch d in (Done (root, ok), (s, d))
  | (Error e, (s, _)) => (Error e, (s, d))
  | (Panic, (s, _)) => (Panic, (s, d))
  | (NoFuel, (s, _)) => (NoFuel, (s, d))
  end.
End batch.
End writer.
End commit.
