(* ===== verification/StateDBLaws.v ===== *)
(** The journalled database implements the abstract one: [StateLaws db].

    [db_view] forgets caches and flags.  Every journal entry has an abstract
    [abs_undo]; [undo] refines it ([undo_ok]), and what an operation appends to the
    journal takes its abstract effect back.  So reverting to a snapshot is a run of
    [abs_undo] over the newer entries, and gives the state of the snapshot. *)
From S2P Require Import Prelude GoBig CommonMath CommonTypes Params Rlp VmTypes StateSpec StateDB.

Section laws.
Context {CR : Crypto} {CK : CryptoOk} {BE : Backend} {BK : BackendOk}.

(** ** The abstract state *)

Definition code_of (c : option bytes) (h : bytes) : bytes :=
  match c with
  | Some c => c
  | None => if bool_decide (h = emptyCodeHash) then [] else default [] (db_Get h)
  end.
Definition storage_of (o : stateObject) (k : Hash) : Hash :=
  match cachedStorage o !! k with
  | Some v => v
  | None => fst (storage_value (Trie_Get k (fst (getTrie o))))
  end.
Definition abs_obj (o : stateObject) : account :=
  {| acc_nonce := Nonce (data o); acc_balance := Balance (data o);
     acc_codeHash := Account_CodeHash (data o);
     acc_code := code_of (code o) (Account_CodeHash (data o));
     acc_storage := storage_of o; acc_suicided := suicided o |}.

Definition db_account (s : db) (a : Address) : option account :=
  match stateObjects s !! a with
  | Some o => if deleted o then None else Some (abs_obj o)
  | None => (fun d => abs_obj (newObject d true)) <$> stored s a
  end.
Definition db_view (s : db) : View :=
  {| accounts := db_account s; refund := db_refund s;
     logs := fun h => default [] (db_logs s !! h);
     preimages := fun h => db_preimages s !! h |}.

(** ** Invariant *)

Definition obj_ok (o : stateObject) : Prop :=
  Common.is_array 32 (Account_CodeHash (data o)) /\
  zlen (code_of (code o) (Account_CodeHash (data o))) < 2 ^ 63 /\
  (forall k v, dirtyStorage o !! k = Some v -> cachedStorage o !! k = Some v) /\ Common.is_array 32 (Root (data o)).

Definition entry_ok (s : db) (e : journalEntry) : Prop :=
  match e with
  | createObjectChange a => stored s a = None
  | resetObjectChange a p => obj_ok p /\ deleted p = false
  | codeChange a c h => Common.is_array 32 h /\ zlen (code_of c h) < 2 ^ 63
  | _ => True
  end.

Record core_ok (s : db) : Prop := {
  ok_objects a o : stateObjects s !! a = Some o ->
    obj_ok o /\ (deleted o = true -> stored s a = None /\ suicided o || obj_empty o = true);
  ok_stored a d : stored s a = Some d -> obj_ok (newObject d true);
  ok_journal : Forall (entry_ok s) (journal s);
  ok_cache k n : codeSizeCache s !! k = Some n -> 0 <= n < 2 ^ 63;
  ok_dirty a : a ∈ stateObjectsDirty s -> is_Some (stateObjects s !! a);
}.

(** Revisions are numbered in the order they were taken, and refer to the journal. *)
Definition revs_sorted (r : list (Z * Z)) : Prop :=
  forall i j x y, zget r i = Some x -> zget r j = Some y -> i < j -> x.1 < y.1 /\ x.2 <= y.2.
Definition revs_ok (s : db) : Prop :=
  revs_sorted (validRevisions s) /\
  Forall (fun r => r.1 < nextRevisionId s /\ 0 <= r.2 <= zlen (journal s)) (validRevisions s).

Definition db_inv (s : db) : Prop := core_ok s /\ revs_ok s.

(** ** Objects *)

Lemma BytesToHash_id h : Common.is_array 32 h -> Common.BytesToHash h = h.
Proof.
  intros [Hl Hb]. rewrite Common.BytesToHash_spec by done.
  rewrite <- (Big.be_fixed_SetBytes h) at 2 by done. f_equal. unfold zlen in Hl. lia.
Qed.

Lemma obj_Code_value o : fst (obj_Code o) = code_of (code o) (Account_CodeHash (data o)).
Proof. unfold obj_Code, code_of. repeat case_match; done. Qed.

Lemma obj_Code_same o : abs_obj (snd (obj_Code o)) = abs_obj o.
Proof.
  unfold obj_Code. case_match eqn:Hc; [done|]. case_match eqn:Hh; [done|].
  unfold abs_obj, storage_of, getTrie. simpl. rewrite Hc. f_equal.
  unfold code_of. rewrite Hh. by destruct (db_Get _).
Qed.

Lemma obj_GetState_value o k : fst (obj_GetState o k) = storage_of o k.
Proof.
  unfold obj_GetState, storage_of. case_match; [done|].
  destruct (getTrie o) as [t e]. simpl. by destruct (storage_value _).
Qed.

Lemma storage_of_with_trie o t e k :
  fst (getTrie o) = t -> storage_of (with_trie o t e) k = storage_of o k.
Proof. intros <-. unfold storage_of, getTrie at 1. simpl. done. Qed.

Lemma obj_GetState_same o k : abs_obj (snd (obj_GetState o k)) = abs_obj o.
Proof.
  unfold obj_GetState. case_match eqn:Hc; [done|].
  destruct (getTrie o) as [t e] eqn:Ht. destruct (storage_value _) as [v e'] eqn:Hv.
  assert (Hs : forall k', storage_of (with_trie o t (e || e')) k' = storage_of o k').
  { intros. apply storage_of_with_trie. by rewrite Ht. }
  unfold abs_obj. simpl. case_match; simpl; f_equal; apply functional_extensionality; intros k'.
  - unfold storage_of at 1. simpl. destruct (decide (k = k')) as [<-|Hne].
    + rewrite lookup_insert_eq. unfold storage_of. rewrite Hc, Ht. simpl. by rewrite Hv.
    + rewrite lookup_insert_ne by done. apply (Hs k').
  - apply Hs.
Qed.

Lemma obj_ok_Code o : obj_ok o -> obj_ok (snd (obj_Code o)).
Proof.
  intros (Ha&Hl&Hd). pose proof (f_equal acc_code (obj_Code_same o)) as Hc.
  pose proof (f_equal acc_codeHash (obj_Code_same o)) as Hh. simpl in *.
  split; [by rewrite Hh|]. split; [by rewrite Hc|]. unfold obj_Code. by repeat case_match.
Qed.

Lemma obj_ok_GetState o k : obj_ok o -> obj_ok (snd (obj_GetState o k)).
Proof.
  intros (Ha&Hl&Hd). pose proof (f_equal acc_code (obj_GetState_same o k)) as Hc.
  pose proof (f_equal acc_codeHash (obj_GetState_same o k)) as Hh. simpl in *.
  split; [by rewrite Hh|]. split; [by rewrite Hc|]. unfold obj_GetState. case_match eqn:Ek; [done|].
  destruct Hd as [Hd ?]. repeat case_match; simpl; [|done]. split; [|done]. intros k' v' Hk'. apply Hd in Hk'. rewrite lookup_insert_ne; [done|]. intros ->. congruence.
Qed.

Lemma deleted_Code o : deleted (snd (obj_Code o)) = deleted o.
Proof. unfold obj_Code. by repeat case_match. Qed.
Lemma deleted_GetState o k : deleted (snd (obj_GetState o k)) = deleted o.
Proof. unfold obj_GetState. by repeat case_match. Qed.

Lemma new_object_abs : abs_obj (newObject zeroAccount true) = new_account.
Proof.
  unfold abs_obj, new_account. simpl. f_equal.
  - by rewrite bool_decide_true.
  - apply functional_extensionality. intros k. unfold storage_of, getTrie. simpl.
    rewrite NewSecure_zero. simpl. by rewrite Trie_Get_empty.
Qed.

Lemma new_object_ok : obj_ok (newObject zeroAccount true).
Proof.
  split; simpl; [apply Keccak256_size|]. rewrite bool_decide_true by done.
  rewrite zlen_nil. split_and!; [lia|done|apply Common.is_array_zeroHash].
Qed.

(** ** Live objects *)

(** States that differ only in objects, dirty marks and the code size cache. *)
Record same_rest (s s' : db) : Prop := {
  sr_trie : state_trie s' = state_trie s;
  sr_refund : db_refund s' = db_refund s;
  sr_logs : db_logs s' = db_logs s;
  sr_preimages : db_preimages s' = db_preimages s;
  sr_journal : journal s' = journal s;
  sr_revs : validRevisions s' = validRevisions s;
  sr_next : nextRevisionId s' = nextRevisionId s;
}.

Lemma same_rest_trans s1 s2 s3 : same_rest s1 s2 -> same_rest s2 s3 -> same_rest s1 s3.
Proof. intros [] []. split; congruence. Qed.

Lemma stored_same s s' a : state_trie s' = state_trie s -> stored s' a = stored s a.
Proof. intros H. unfold stored. by rewrite H. Qed.

Lemma entry_ok_same s s' e : state_trie s' = state_trie s -> entry_ok s e -> entry_ok s' e.
Proof. intros H. destruct e; simpl; try done. by rewrite (stored_same s s'). Qed.

(** Writing an object to the live set. *)
Lemma put_object_ok s m d a o :
  core_ok s -> obj_ok o -> deleted o = false ->
  m = <[a := o]> (stateObjects s) -> d ⊆ {[a]} ∪ stateObjectsDirty s ->
  core_ok (set_objects s m d) /\ same_rest s (set_objects s m d) /\
  db_view (set_objects s m d) = set_account (db_view s) a (Some (abs_obj o)).
Proof.
  intros [Hobj Hst Hj Hca Hdi] Ho Hd -> Hsub. split_and!; [split|done|].
  - intros b p. simpl. rewrite lookup_insert. case_decide; [intros [= <-]; subst|apply Hobj].
    split; [done|]. by rewrite Hd.
  - done.
  - done.
  - done.
  - intros b Hb. simpl in *. rewrite lookup_insert. case_decide; [done|]. apply Hdi. set_solver.
  - unfold db_view, set_account. simpl. f_equal. apply functional_extensionality. intros b.
    unfold db_account, fupd. simpl. rewrite lookup_insert.
    destruct (decide (b = a)) as [->|Hne].
    + rewrite decide_True by done. by rewrite Hd.
    + rewrite decide_False by done. done.
Qed.

Lemma setStateObject_ok s a o :
  core_ok s -> obj_ok o -> deleted o = false ->
  core_ok (setStateObject s a o) /\ same_rest s (setStateObject s a o) /\
  db_view (setStateObject s a o) = set_account (db_view s) a (Some (abs_obj o)).
Proof. intros. apply put_object_ok; [done..|]. set_solver. Qed.

Lemma put_dirty_ok s a o :
  core_ok s -> obj_ok o -> deleted o = false ->
  core_ok (put_dirty s a o) /\ same_rest s (put_dirty s a o) /\
  db_view (put_dirty s a o) = set_account (db_view s) a (Some (abs_obj o)).
Proof.
  intros Hs Ho Hd. unfold put_dirty.
  assert (H : forall d, d ⊆ {[a]} ∪ stateObjectsDirty s -> core_ok (set_objects s (<[a := clear_onDirty o]> (stateObjects s)) d) /\
    same_rest s (set_objects s (<[a := clear_onDirty o]> (stateObjects s)) d) /\
    db_view (set_objects s (<[a := clear_onDirty o]> (stateObjects s)) d) =
    set_account (db_view s) a (Some (abs_obj (clear_onDirty o)))).
  { intros d Hsub. by apply put_object_ok. }
  destruct (onDirty o); apply H; set_solver.
Qed.

(** Writing back an object with the same contents changes nothing. *)
Lemma set_account_same v a o : accounts v a = Some o -> set_account v a (Some o) = v.
Proof.
  intros Ho. unfold set_account. rewrite <- Ho, fupd_id. by destruct v.
Qed.

Lemma getStateObject_ok a s : core_ok s ->
  let '(r, s') := getStateObject a s in
  core_ok s' /\ same_rest s s' /\ db_view s' = db_view s /\
  codeSizeCache s' = codeSizeCache s /\
  match r with
  | Some o => stateObjects s' !! a = Some o /\ deleted o = false /\ obj_ok o /\
              accounts (db_view s) a = Some (abs_obj o)
  | None => accounts (db_view s) a = None /\ s' = s
  end.
Proof.
  intros Hs. unfold getStateObject. destruct (stateObjects s !! a) as [o|] eqn:Ho.
  - destruct (deleted o) eqn:Hd; split_and!; try done; try (unfold db_view, db_account; simpl;
      rewrite Ho, Hd; done). apply (ok_objects s Hs a o Ho).
  - destruct (stored s a) as [d|] eqn:Hst.
    + assert (Ha : accounts (db_view s) a = Some (abs_obj (newObject d true))).
      { simpl. unfold db_account. by rewrite Ho, Hst. }
      destruct (setStateObject_ok s a (newObject d true)) as (Hc&Hr&Hv); [done|by eapply ok_stored|done|].
      split_and!; try done; [rewrite Hv; by apply set_account_same|..].
      * simpl. by rewrite lookup_insert_eq.
      * by eapply ok_stored.
    + split_and!; try done. simpl. unfold db_account. by rewrite Ho, Hst.
Qed.

(** ** Undo *)

Definition abs_on (v : View) (a : Address) (f : account -> account) : option View :=
  (fun o => set_account v a (Some (f o))) <$> accounts v a.

Definition abs_undo (e : journalEntry) (v : View) : option View :=
  match e with
  | createObjectChange a => Some (set_account v a None)
  | resetObjectChange a p => Some (set_account v a (Some (abs_obj p)))
  | suicideChange a prev b =>
      Some (default v (abs_on v a (fun o => with_balance (with_suicided o prev) b)))
  | touchChange a prev _ =>
      if negb prev && bool_decide (a ≠ ripemd)
      then match accounts v a with Some _ => Some v | None => None end else Some v
  | balanceChange a b => abs_on v a (fun o => with_balance o b)
  | nonceChange a n => abs_on v a (fun o => with_nonce o n)
  | codeChange a c h => abs_on v a (fun o => with_code o h (code_of c h))
  | storageChange a k x => abs_on v a (fun o => with_storage o k x)
  | refundChange n => Some (set_refund v n)
  | addLogChange h =>
      let l := logs v h in
      if zlen l =? 0 then None else Some (set_logs v h (ztake (zlen l - 1) l))
  | addPreimageChange h => Some (set_preimage v h None)
  end.

(** Same journal and revisions, on the same tries. *)
Definition same_journal (s s' : db) : Prop :=
  state_trie s' = state_trie s /\ journal s' = journal s /\
  validRevisions s' = validRevisions s /\ nextRevisionId s' = nextRevisionId s.

Lemma same_rest_journal s s' : same_rest s s' -> same_journal s s'.
Proof. by intros []. Qed.
(** A concrete step refines an abstract one. *)
Definition step_refines (s : db) (r : option db) (a : option View) : Prop :=
  match r, a with
  | Some s', Some v => db_view s' = v /\ core_ok s' /\ same_journal s s'
  | None, None => True
  | _, _ => False
  end.

Lemma on_object_ok a s k f : core_ok s ->
  (forall s1 o, core_ok s1 -> obj_ok o -> deleted o = false ->
     core_ok (k s1 o) /\ same_rest s1 (k s1 o) /\
     db_view (k s1 o) = set_account (db_view s1) a (Some (f (abs_obj o)))) ->
  step_refines s (on_object a s k) (abs_on (db_view s) a f).
Proof.
  intros Hs Hk. unfold on_object, abs_on. pose proof (getStateObject_ok a s Hs) as Hget.
  destruct (getStateObject a s) as [[o|] s1].
  - destruct Hget as (Hc1&Hr1&Hv1&_&_&Hd&Ho&->). simpl.
    destruct (Hk s1 o Hc1 Ho Hd) as (Hc2&Hr2&Hv2). split_and!; [by rewrite Hv2, Hv1|done|].
    by eapply same_rest_journal, same_rest_trans.
  - destruct Hget as (_&_&_&_&->&_). done.
Qed.

Lemma obj_setBalance_ok s a o b : core_ok s -> obj_ok o -> deleted o = false ->
  core_ok (obj_setBalance s a o b) /\ same_rest s (obj_setBalance s a o b) /\
  db_view (obj_setBalance s a o b) = set_account (db_view s) a (Some (with_balance (abs_obj o) b)).
Proof. intros Hs [? ?] Hd. by apply put_dirty_ok. Qed.
Lemma obj_setNonce_ok s a o n : core_ok s -> obj_ok o -> deleted o = false ->
  core_ok (obj_setNonce s a o n) /\ same_rest s (obj_setNonce s a o n) /\
  db_view (obj_setNonce s a o n) = set_account (db_view s) a (Some (with_nonce (abs_obj o) n)).
Proof. intros Hs [? ?] Hd. by apply put_dirty_ok. Qed.

Lemma obj_setCode_ok s a o h c : core_ok s -> obj_ok o -> Common.is_array 32 h ->
  zlen (code_of c h) < 2 ^ 63 -> deleted o = false ->
  core_ok (obj_setCode s a o h c) /\ same_rest s (obj_setCode s a o h c) /\
  db_view (obj_setCode s a o h c) =
    set_account (db_view s) a (Some (with_code (abs_obj o) h (code_of c h))).
Proof. intros Hs (_&_&?) ? ? Hd. by apply put_dirty_ok. Qed.

Lemma obj_setState_ok s a o k x : core_ok s -> obj_ok o -> deleted o = false ->
  core_ok (obj_setState s a o k x) /\ same_rest s (obj_setState s a o k x) /\
  db_view (obj_setState s a o k x) =
    set_account (db_view s) a (Some (with_storage (abs_obj o) k x)).
Proof.
  intros Hs (?&?&Hk) Hd. unfold obj_setState. set (o' := with_dirtyStorage _ _).
  assert (obj_ok o').
  { destruct Hk as [Hk ?]. split_and!; [done..| |done]. intros k' v. simpl. rewrite !lookup_insert. case_decide; [done|]. apply Hk. }
  replace (with_storage (abs_obj o) k x) with (abs_obj o'); [by apply put_dirty_ok|].
  unfold abs_obj, with_storage. simpl. f_equal. apply functional_extensionality. intros k'.
  unfold fupd, storage_of, getTrie. simpl. rewrite lookup_insert.
  destruct (decide (k' = k)) as [->|Hne].
  - by rewrite decide_True by done.
  - by rewrite decide_False by done.
Qed.

Lemma suicide_undo_ok s a prev b : core_ok s ->
  step_refines s (undo (suicideChange a prev b) s) (abs_undo (suicideChange a prev b) (db_view s)).
Proof.
  intros Hs. simpl. unfold abs_on. pose proof (getStateObject_ok a s Hs) as Hget.
  destruct (getStateObject a s) as [[o|] s1].
  - destruct Hget as (Hc1&Hr1&Hv1&_&_&Hd&Ho&->). simpl.
    set (o' := with_flags _ _ _ _ _).
    destruct (obj_setBalance_ok s1 a o' b) as (Hc2&Hr2&Hv2); [done|apply Ho|done|].
    split_and!; [by rewrite Hv2, Hv1|done|]. by eapply same_rest_journal, same_rest_trans.
  - destruct Hget as (_&_&_&_&->&->). done.
Qed.

Lemma touch_undo_ok s a prev pd : core_ok s ->
  step_refines s (undo (touchChange a prev pd) s) (abs_undo (touchChange a prev pd) (db_view s)).
Proof.
  intros Hs. unfold undo, abs_undo. case_match; [|done]. unfold on_object.
  pose proof (getStateObject_ok a s Hs) as Hget.
  destruct (getStateObject a s) as [[o|] s1].
  - destruct Hget as (Hc1&Hr1&Hv1&_&_&Hd&Ho&Ha). rewrite Ha. simpl. set (o' := with_flags _ _ _ _ _).
    assert (Hall : forall d, d ⊆ {[a]} ∪ stateObjectsDirty s1 -> step_refines s
      (Some (set_objects s1 (<[a := o']> (stateObjects s1)) d)) (Some (db_view s))).
    { intros d Hsub. destruct (put_object_ok s1 _ d a o' Hc1 Ho Hd eq_refl Hsub) as (Hc2&Hr2&Hv2).
      split_and!; [|done|by eapply same_rest_journal, same_rest_trans].
      rewrite Hv2, Hv1. by apply set_account_same. }
    destruct pd; apply Hall; set_solver.
  - destruct Hget as (_&_&_&_&->&_). done.
Qed.

(** [undo] on the abstract state. *)
Lemma undo_ok e s : core_ok s -> entry_ok s e -> step_refines s (undo e s) (abs_undo e (db_view s)).
Proof.
  intros Hs He. destruct e as [a|a p|a prev b|a b|a n|a k x|a c h|n|h|h|a prev pd].
  - simpl in *. split_and!; [|split|done]; try apply Hs.
    + unfold db_view, set_account. simpl. f_equal. apply functional_extensionality. intros b.
      unfold db_account, fupd, stored in *. simpl in *. rewrite lookup_delete.
      destruct (decide (b = a)) as [->|Hne].
      * rewrite decide_True by done. by rewrite He.
      * by rewrite decide_False by done.
    + intros b o. simpl. rewrite lookup_delete. case_decide; [done|]. apply Hs.
    + intros b. simpl. intros Hb. rewrite lookup_delete_ne by set_solver. apply Hs. set_solver.
  - destruct He as [Hp Hd]. destruct (setStateObject_ok s a p) as (?&?&?); [done..|].
    split_and!; [done|done|]. by apply same_rest_journal.
  - by apply suicide_undo_ok.
  - apply on_object_ok; [done|]. intros. by apply obj_setBalance_ok.
  - apply on_object_ok; [done|]. intros. by apply obj_setNonce_ok.
  - apply on_object_ok; [done|]. intros. by apply obj_setState_ok.
  - destruct He as [Hh Hl]. simpl. rewrite BytesToHash_id by done.
    apply on_object_ok; [done|]. intros. by apply obj_setCode_ok.
  - simpl. split_and!; [done| |done]. destruct Hs. by split.
  - simpl. set (l := default [] _). destruct (zlen l =? 1) eqn:H1; bool_to_prop.
    + rewrite (proj2 (Z.eqb_neq _ _)) by lia. split_and!; [|destruct Hs; by split|done].
      unfold db_view, set_logs. simpl. f_equal. apply functional_extensionality. intros h'.
      unfold fupd. rewrite lookup_delete. destruct (decide (h' = h)) as [->|Hne].
      * rewrite decide_True by done. by rewrite H1.
      * by rewrite decide_False by done.
    + destruct (zlen l =? 0) eqn:H0; bool_to_prop.
      * by rewrite (zlen_0 l H0).
      * pose proof (zlen_nonneg l). rewrite slice_Some by lia. simpl.
        split_and!; [|destruct Hs; by split|done].
        unfold db_view, set_logs. simpl. f_equal. apply functional_extensionality. intros h'.
        unfold fupd. rewrite lookup_insert. destruct (decide (h' = h)) as [->|Hne].
        -- rewrite decide_True by done. simpl. by rewrite Z.sub_0_r.
        -- by rewrite decide_False by done.
  - simpl. split_and!; [|destruct Hs; by split|done].
    unfold db_view, set_preimage. simpl. f_equal. apply functional_extensionality. intros h'.
    unfold fupd. rewrite lookup_delete. destruct (decide (h' = h)) as [->|Hne].
    + by rewrite decide_True by done.
    + by rewrite decide_False by done.
  - by apply touch_undo_ok.
Qed.

Fixpoint abs_undo_all (es : list journalEntry) (v : View) : option View :=
  match es with
  | [] => Some v
  | e :: es => v' ← abs_undo e v; abs_undo_all es v'
  end.

Lemma abs_undo_all_app es1 es2 v :
  abs_undo_all (es1 ++ es2) v = (v' ← abs_undo_all es1 v; abs_undo_all es2 v').
Proof.
  revert v. induction es1 as [|e es1 IH]; intros v; [done|]. simpl.
  destruct (abs_undo e v); [apply IH|done].
Qed.

(** The journal after undoing [n] entries. *)
Lemma undo_all_ok n s : core_ok s -> (n <= length (journal s))%nat ->
  match undo_all n s, abs_undo_all (take n (journal s)) (db_view s) with
  | Some s', Some v => db_view s' = v /\ core_ok s' /\ state_trie s' = state_trie s /\
      journal s' = drop n (journal s) /\ validRevisions s' = validRevisions s /\
      nextRevisionId s' = nextRevisionId s
  | None, None => True
  | _, _ => False
  end.
Proof.
  revert s. induction n as [|n IH]; intros s Hs Hn; [done|]. simpl.
  destruct (journal s) as [|e j] eqn:Hj; simpl in Hn; [lia|]. simpl.
  set (s0 := set_journal s j _ _).
  assert (Hjok : Forall (entry_ok s) (e :: j)) by (rewrite <- Hj; apply Hs).
  apply Forall_cons in Hjok as [He Hjok].
  assert (Hs0 : core_ok s0) by (destruct Hs; by split).
  pose proof (undo_ok e s0 Hs0 He) as Hu. change (db_view s0) with (db_view s) in Hu.
  destruct (undo e s0) as [s1|], (abs_undo e (db_view s)) as [v1|]; simpl in *; try done.
  destruct Hu as (Hv1&Hc1&Ht1&Hj1&Hr1&Hn1). simpl in *. rewrite <- Hv1.
  specialize (IH s1 Hc1). rewrite Hj1 in IH. specialize (IH ltac:(lia)).
  destruct (undo_all n s1), (abs_undo_all _ _); try done.
  destruct IH as (?&?&?&?&?&?). split_and!; congruence.
Qed.

(** ** Binary search *)

Lemma Search_loop_spec fuel f i j n :
  (Z.to_nat (j - i) <= fuel)%nat -> 0 <= i <= j -> j <= n ->
  (forall x y, 0 <= x -> x <= y -> y < n -> f x = true -> f y = true) ->
  (forall x, 0 <= x < i -> f x = false) -> (forall x, j <= x < n -> f x = true) ->
  let r := Search_loop fuel f i j in
  0 <= r <= n /\ (forall x, 0 <= x < r -> f x = false) /\ (forall x, r <= x < n -> f x = true).
Proof.
  revert i j. induction fuel as [|fuel IH]; intros i j Hf Hij Hjn Hmono Hlo Hhi; simpl.
  { assert (i = j) by lia. subst j. split_and!; [lia..|done|done]. }
  destruct (i <? j) eqn:E; bool_to_prop.
  2: { assert (i = j) by lia. subst j. split_and!; [lia..|done|done]. }
  set (h := (i + j) / 2).
  assert (Hh : i <= h < j).
  { subst h. split; [apply Z.div_le_lower_bound|apply Z.div_lt_upper_bound]; lia. }
  destruct (f h) eqn:Hfh; simpl.
  - apply IH; try done; try lia. intros x Hx. destruct (Z.eq_dec x h) as [->|]; [done|].
    apply (Hmono h); try done; lia.
  - apply IH; try done; try lia. intros x Hx. destruct (f x) eqn:Hfx; [|done].
    rewrite (Hmono x h) in Hfh; try done; lia.
Qed.

Lemma Search_spec n f : 0 <= n ->
  (forall x y, 0 <= x -> x <= y -> y < n -> f x = true -> f y = true) ->
  0 <= Search n f <= n /\ (forall x, 0 <= x < Search n f -> f x = false) /\
  (forall x, Search n f <= x < n -> f x = true).
Proof.
  intros Hn Hmono. apply Search_loop_spec; try done; try lia.
Qed.

(** ** Reverting *)

Lemma Search_rev revs i id k : revs_sorted revs -> zget revs i = Some (id, k) ->
  Search (zlen revs) (fun i => from_option (fun r => id <=? r.1) false (zget revs i)) = i.
Proof.
  intros Hsort Hi. pose proof (zget_inv _ _ _ Hi) as Hir. set (f := fun i => _).
  assert (Hf : forall x r, zget revs x = Some r -> f x = (id <=? r.1)).
  { intros x r Hx. unfold f. by rewrite Hx. }
  destruct (Search_spec (zlen revs) f) as (Hr&Hlo&Hhi); [lia|..].
  { intros x y Hx Hxy Hy. destruct (zget_Some revs x) as [rx Hrx]; [lia|].
    destruct (zget_Some revs y) as [ry Hry]; [lia|]. rewrite (Hf x rx), (Hf y ry) by done.
    rewrite !Z.leb_le. destruct (Z.eq_dec x y) as [->|]; [simplify_eq; done|].
    destruct (Hsort x y rx ry Hrx Hry); lia. }
  destruct (Z.lt_trichotomy (Search (zlen revs) f) i) as [Hlt|[Heq|Hgt]]; [|done|].
  - destruct (zget_Some revs (Search (zlen revs) f)) as [r Hz]; [lia|].
    specialize (Hhi (Search (zlen revs) f) ltac:(lia)). rewrite (Hf _ _ Hz), Z.leb_le in Hhi.
    destruct (Hsort _ _ _ _ Hz Hi Hlt) as [? _]. simpl in *. lia.
  - specialize (Hlo i ltac:(lia)). rewrite (Hf _ _ Hi), Z.leb_gt in Hlo. simpl in Hlo. lia.
Qed.

(** The entries newer than a revision. *)
Definition newer (s : db) (k : Z) : list journalEntry :=
  take (Z.to_nat (zlen (journal s) - k)) (journal s).

Lemma revs_sorted_take r n : revs_sorted r -> revs_sorted (ztake n r).
Proof.
  intros Hs i j x y Hi Hj Hlt.
  assert (Hget : forall i z, zget (ztake n r) i = Some z -> zget r i = Some z).
  { intros i' z. unfold zget, ztake. case_match; [|done]. intros [? ?]%lookup_take_Some. done. }
  eauto.
Qed.

Lemma revert_ok s i id k : db_inv s -> zget (validRevisions s) i = Some (id, k) ->
  match db_RevertToSnapshot id s, abs_undo_all (newer s k) (db_view s) with
  | Some s', Some v => db_view s' = v /\ db_inv s' /\ validRevisions s' = ztake i (validRevisions s) /\
      journal s' = zdrop (zlen (journal s) - k) (journal s)
  | None, None => True
  | _, _ => False
  end.
Proof.
  intros [Hc [Hsort Hrevs]] Hi. pose proof (zget_inv _ _ _ Hi) as Hir.
  unfold db_RevertToSnapshot. rewrite (Search_rev _ i id k) by done.
  rewrite (proj2 (Z.eqb_neq i _)) by lia. rewrite Hi. simpl. rewrite Z.eqb_refl. simpl.
  assert (Hk : id < nextRevisionId s /\ 0 <= k <= zlen (journal s)).
  { unfold zget in Hi. case_match; [|done]. by apply (Forall_lookup_1 _ _ _ _ Hrevs Hi). }
  pose proof (undo_all_ok (Z.to_nat (zlen (journal s) - k)) s Hc) as Hu.
  specialize (Hu ltac:(unfold zlen in *; lia)). unfold newer.
  destruct (undo_all _ s) as [s'|], (abs_undo_all _ _) as [v|]; simpl; try done.
  destruct Hu as (Hv&Hc'&Ht&Hj&Hr&Hn). split_and!; [done| |done|done].
  split; [destruct Hc'; by split|]. split.
  - by apply revs_sorted_take.
  - simpl. rewrite Hj, Hn. apply Forall_lookup. intros x r Hx.
    apply lookup_take_Some in Hx as [Hx Hxi].
    pose proof (Forall_lookup_1 _ _ _ _ Hrevs Hx) as [Hr1 Hr2]. split; [done|].
    assert (Hxz : zget (validRevisions s) (Z.of_nat x) = Some r).
    { unfold zget. rewrite (proj2 (Z.leb_le _ _)) by lia. by rewrite Nat2Z.id. }
    destruct (Hsort (Z.of_nat x) i r (id, k) Hxz Hi ltac:(lia)) as [_ Hle]. simpl in Hle.
    fold (zdrop (zlen (journal s) - k) (journal s)). rewrite zlen_zdrop by lia. lia.
Qed.

Lemma restores_iff s id v : db_inv s ->
  restores db_view db_inv s id v <->
  exists i k, zget (validRevisions s) i = Some (id, k) /\
              abs_undo_all (newer s k) (db_view s) = Some v.
Proof.
  intros Hs. split.
  - intros (s'&Hrev&Hv&_). pose proof Hrev as Hrev'. simpl in Hrev.
    unfold db_RevertToSnapshot in Hrev. cbv zeta in Hrev. case_match; [done|].
    destruct (zget (validRevisions s) _) as [[id' k]|] eqn:Hi; simpl in Hrev; [|done].
    destruct (id' =? id) eqn:E; simpl in Hrev; [|done]. bool_to_prop. subst id'.
    exists (Search (zlen (validRevisions s))
      (fun i => from_option (fun r => id <=? r.1) false (zget (validRevisions s) i))), k.
    split; [done|]. pose proof (revert_ok s _ id k Hs Hi) as Hr. simpl in Hrev'.
    rewrite Hrev' in Hr. destruct (abs_undo_all _ _); [|done]. destruct Hr as [Hr _]. congruence.
  - intros (i&k&Hi&Hu). pose proof (revert_ok s i id k Hs Hi) as Hr. rewrite Hu in Hr.
    destruct (db_RevertToSnapshot id s) as [s'|] eqn:E; [|done].
    exists s'. destruct Hr as (?&?&_). done.
Qed.

(** [s'] comes from [s] by an operation with abstract result [v]: the entries it
    appended to the journal lead back. *)
Definition op_ok (s s' : db) (v : View) : Prop :=
  core_ok s' /\ state_trie s' = state_trie s /\ validRevisions s' = validRevisions s /\
  nextRevisionId s' = nextRevisionId s /\ db_view s' = v /\
  exists es, journal s' = es ++ journal s /\ abs_undo_all es v = Some (db_view s).

Lemma op_ok_trans s s1 s2 v1 v2 : op_ok s s1 v1 -> op_ok s1 s2 v2 -> op_ok s s2 v2.
Proof.
  intros (?&?&?&?&<-&es1&Hj1&Hu1) (?&?&?&?&<-&es2&Hj2&Hu2).
  split_and!; [done|congruence..|]. exists (es2 ++ es1).
  split; [by rewrite Hj2, Hj1, app_assoc|]. rewrite abs_undo_all_app, Hu2. done.
Qed.

(** No journal entry, no abstract effect. *)
Lemma op_ok_quiet s s' : core_ok s' -> same_rest s s' -> db_view s' = db_view s ->
  op_ok s s' (db_view s).
Proof. intros ? [] ?. split_and!; try done. by exists []. Qed.

(** One entry, then an assignment it takes back. *)
Lemma op_ok_logged s e s' v : core_ok s' -> same_rest (log_change s e) s' -> db_view s' = v ->
  abs_undo e v = Some (db_view s) -> op_ok s s' v.
Proof.
  intros ? [] Hv Hu. split_and!; try done. exists [e]. split; [done|]. simpl. by rewrite Hu.
Qed.

Lemma core_ok_log s e : core_ok s -> entry_ok s e -> core_ok (log_change s e).
Proof.
  intros [] He. split; try done. simpl. apply Forall_cons. split; [done|].
  eapply Forall_impl; [done|]. intros x. by apply entry_ok_same.
Qed.

Lemma op_ok_keeps s s' v : db_inv s -> op_ok s s' v ->
  db_view s' = v /\ keeps db_view db_inv s s'.
Proof.
  intros Hs (Hc&Ht&Hr&Hn&Hv&es&Hj&Hu). split; [done|]. subst v.
  assert (Hs' : db_inv s').
  { split; [done|]. destruct Hs as [_ [Hsort Hrevs]]. unfold revs_ok. rewrite Hr, Hn, Hj.
    split; [done|]. eapply Forall_impl; [done|]. cbv beta. intros r [? ?]. rewrite zlen_app.
    pose proof (zlen_nonneg es). lia. }
  split; [done|]. intros id v. rewrite !restores_iff by done. intros (i&k&Hi&Hk).
  exists i, k. rewrite Hr. split; [done|].
  assert (Hkr : 0 <= k <= zlen (journal s)).
  { destruct Hs as [_ [_ Hrevs]]. unfold zget in Hi. case_match; [|done].
    by apply (Forall_lookup_1 _ _ _ _ Hrevs Hi). }
  unfold newer in *. rewrite Hj, take_app.
  rewrite take_ge by (rewrite zlen_app in *; unfold zlen in *; lia).
  rewrite abs_undo_all_app, Hu. simpl. rewrite zlen_app.
  replace (Z.to_nat (zlen es + zlen (journal s) - k) - length es)%nat
    with (Z.to_nat (zlen (journal s) - k)) by (unfold zlen in *; lia). done.
Qed.

(** ** Getters *)

Lemma reads_of {A} (g : db -> A * db) val :
  (forall s, core_ok s -> fst (g s) = val (db_view s) /\ core_ok (snd (g s)) /\
     same_rest s (snd (g s)) /\ db_view (snd (g s)) = db_view s) ->
  reads db_view db_inv g val.
Proof.
  intros Hg s Hs. destruct (Hg s (proj1 Hs)) as (Hval&Hc&Hr&Hv). split; [done|].
  destruct (op_ok_keeps s (snd (g s)) (db_view s)) as [? ?]; [done|by apply op_ok_quiet|done].
Qed.

(** Getters that only look at the object. *)
Lemma reads_object {A} a (f : option stateObject -> A) (val : View -> A) :
  (forall s o, accounts (db_view s) a = Some (abs_obj o) -> obj_ok o -> f (Some o) = val (db_view s)) ->
  (forall s, accounts (db_view s) a = None -> f None = val (db_view s)) ->
  reads db_view db_inv (fun s => let '(o, s) := getStateObject a s in (f o, s)) val.
Proof.
  intros HS HN. apply reads_of. intros s Hs. pose proof (getStateObject_ok a s Hs) as Hget.
  destruct (getStateObject a s) as [[o|] s'].
  - destruct Hget as (?&?&?&_&_&_&Ho&Ha). split_and!; try done. simpl. by apply HS.
  - destruct Hget as (?&?&?&_&Ha&_). split_and!; try done. simpl. by apply HN.
Qed.

Ltac object_getter :=
  apply reads_object;
  [intros s o Ha Ho|intros s Ha];
  unfold abs_balance, abs_nonce, abs_codeHash, abs_suicided, abs_empty;
  match goal with H : accounts _ _ = _ |- _ => rewrite H end; simpl.

Lemma db_GetBalance_ok a : reads db_view db_inv (db_GetBalance a) (fun v => abs_balance v a).
Proof. object_getter; done. Qed.
Lemma db_GetNonce_ok a : reads db_view db_inv (db_GetNonce a) (fun v => abs_nonce v a).
Proof. object_getter; done. Qed.
Lemma db_HasSuicided_ok a : reads db_view db_inv (db_HasSuicided a) (fun v => abs_suicided v a).
Proof. object_getter; done. Qed.
Lemma db_GetCodeHash_ok a : reads db_view db_inv (db_GetCodeHash a) (fun v => abs_codeHash v a).
Proof. object_getter; [by apply BytesToHash_id, Ho|done]. Qed.
Lemma db_Exist_ok a :
  reads db_view db_inv (db_Exist a) (fun v => bool_decide (is_Some (accounts v a))).
Proof. object_getter; done. Qed.
Lemma db_Empty_ok a : reads db_view db_inv (db_Empty a) (fun v => abs_empty v a).
Proof.
  object_getter; [|done]. unfold obj_empty, acc_empty, Big.Sign. simpl.
  by destruct (Balance (data o)).
Qed.

Lemma db_GetState_ok a k : reads db_view db_inv (db_GetState a k) (fun v => abs_state v a k).
Proof.
  apply reads_of. intros s Hs. unfold db_GetState, abs_state.
  pose proof (getStateObject_ok a s Hs) as Hget.
  destruct (getStateObject a s) as [[o|] s1].
  - destruct Hget as (Hc1&Hr1&Hv1&_&_&Hd&Ho&Ha). rewrite Ha.
    pose proof (obj_GetState_value o k) as Hval. pose proof (obj_GetState_same o k) as Hsame.
    pose proof (obj_ok_GetState o k Ho) as Ho'. pose proof (deleted_GetState o k) as Hd'.
    destruct (obj_GetState o k) as [v o']. simpl in *.
    destruct (setStateObject_ok s1 a o') as (Hc2&Hr2&Hv2); [done..|congruence|].
    split_and!; [done|done|by eapply same_rest_trans|].
    rewrite Hv2, Hv1, Hsame. by apply set_account_same.
  - destruct Hget as (?&?&?&_&Ha&_). rewrite Ha. by split_and!.
Qed.

Lemma add_size_ok s key n : core_ok s -> 0 <= n < 2 ^ 63 ->
  core_ok (set_cache s (lru_Add key n (codeSizeCache s))).
Proof.
  intros [? ? ? Hca] Hn. split; try done. simpl. intros k m [[= -> ->]|?]%lru_Add_ok; [done|].
  by eapply Hca.
Qed.

(** Loading the code of an object. *)
Lemma load_code_ok s a o : core_ok s -> accounts (db_view s) a = Some (abs_obj o) ->
  obj_ok o -> deleted o = false ->
  let '(c, o') := obj_Code o in
  c = acc_code (abs_obj o) /\ 0 <= zlen c < 2 ^ 63 /\ core_ok (setStateObject s a o') /\
  same_rest s (setStateObject s a o') /\ db_view (setStateObject s a o') = db_view s.
Proof.
  intros Hs Ha Ho Hd.
  pose proof (obj_Code_value o) as Hval. pose proof (obj_Code_same o) as Hsame.
  pose proof (obj_ok_Code o Ho) as Ho'. pose proof (deleted_Code o) as Hd'.
  destruct (obj_Code o) as [c o']. simpl in *.
  destruct (setStateObject_ok s a o') as (Hc2&Hr2&Hv2); [done..|congruence|].
  split_and!; try done.
  - apply zlen_nonneg.
  - rewrite Hval. apply Ho.
  - rewrite Hv2, Hsame. by apply set_account_same.
Qed.

Lemma db_GetCode_ok a : reads db_view db_inv (db_GetCode a) (fun v => abs_code v a).
Proof.
  apply reads_of. intros s Hs. unfold db_GetCode, abs_code.
  pose proof (getStateObject_ok a s Hs) as Hget.
  destruct (getStateObject a s) as [[o|] s1].
  - destruct Hget as (Hc1&Hr1&Hv1&_&_&Hd&Ho&Ha). rewrite Ha.
    pose proof (load_code_ok s1 a o Hc1) as Hl. rewrite Hv1 in Hl.
    specialize (Hl Ha Ho Hd). destruct (obj_Code o) as [c o'].
    destruct Hl as (->&Hlen&Hc2&Hr2&Hv2). split_and!; try done.
    + by apply add_size_ok.
    + destruct (same_rest_trans _ _ _ Hr1 Hr2). by split.
  - destruct Hget as (?&?&?&_&Ha&_). rewrite Ha. by split_and!.
Qed.

Lemma db_GetCodeSize_ok a s : db_inv s ->
  0 <= fst (db_GetCodeSize a s) < 2 ^ 63 /\ db_view (snd (db_GetCodeSize a s)) = db_view s /\
  keeps db_view db_inv s (snd (db_GetCodeSize a s)).
Proof.
  intros Hs. pose proof (proj1 Hs) as Hcore.
  cut (0 <= fst (db_GetCodeSize a s) < 2 ^ 63 /\ core_ok (snd (db_GetCodeSize a s)) /\
       same_rest s (snd (db_GetCodeSize a s)) /\ db_view (snd (db_GetCodeSize a s)) = db_view s).
  { intros (?&?&?&Hv). split; [done|].
    destruct (op_ok_keeps s (snd (db_GetCodeSize a s)) (db_view s)); [done|by apply op_ok_quiet|done]. }
  unfold db_GetCodeSize. pose proof (getStateObject_ok a s Hcore) as Hget.
  destruct (getStateObject a s) as [[o|] s1].
  - destruct Hget as (Hc1&Hr1&Hv1&Hca&_&Hd&Ho&Ha).
    case_match eqn:Hk; [split_and!; try done; by eapply (ok_cache s1)|].
    pose proof (load_code_ok s1 a o Hc1) as Hl. rewrite Hv1 in Hl.
    specialize (Hl Ha Ho Hd). destruct (obj_Code o) as [c o'].
    destruct Hl as (_&Hlen&Hc2&Hr2&Hv2). split; [apply Hlen|].
    destruct (same_rest_trans _ _ _ Hr1 Hr2).
    case_match; split_and!; try done. by apply add_size_ok.
  - destruct Hget as (?&?&?&_&Ha&_). split_and!; try done; simpl; lia.
Qed.

(** ** Setters *)

Lemma set_account_twice v a o1 o2 : set_account (set_account v a o1) a o2 = set_account v a o2.
Proof. unfold set_account. simpl. by rewrite fupd_twice. Qed.

Lemma set_account_back v a o : accounts v a = o -> set_account v a o = v.
Proof. intros <-. unfold set_account. rewrite fupd_id. by destruct v. Qed.

Lemma accounts_set v a o : accounts (set_account v a o) a = o.
Proof. simpl. apply fupd_eq. Qed.

(** A fresh object in place of [prev]. *)
Lemma createObject_ok a s : core_ok s ->
  let '(o, prev, s') := createObject a s in
  o = clear_onDirty (newObject zeroAccount true) /\
  option_map abs_obj prev = accounts (db_view s) a /\
  core_ok s' /\ state_trie s' = state_trie s /\ validRevisions s' = validRevisions s /\
  nextRevisionId s' = nextRevisionId s /\
  db_view s' = set_account (db_view s) a (Some new_account) /\
  exists e, journal s' = e :: journal s /\
    forall x, abs_undo e (set_account (db_view s) a x) = Some (db_view s).
Proof.
  intros Hs. unfold createObject. pose proof (getStateObject_ok a s Hs) as Hget.
  destruct (getStateObject a s) as [prev s1]. destruct Hget as (Hc1&Hr1&Hv1&_&Hprev).
  set (e := match prev with None => _ | Some p => _ end).
  assert (He : entry_ok s1 e).
  { subst e. destruct prev as [p|]; simpl; [by destruct Hprev as (?&?&?&?)|].
    destruct Hprev as [Ha ->]. simpl in Ha. unfold db_account in Ha.
    destruct (stateObjects s !! a) as [o|] eqn:Ho.
    - destruct (deleted o) eqn:Hd; [|done]. by apply (ok_objects s Hs a o).
    - by destruct (stored s a). }
  split; [done|]. split; [by destruct prev; [destruct Hprev as (?&?&?&->)|destruct Hprev as [-> ?]]|].
  set (n := clear_onDirty (newObject zeroAccount true)).
  set (s2 := set_objects s1 (<[a := n]> (stateObjects s1)) ({[a]} ∪ stateObjectsDirty s1)).
  destruct (put_object_ok s1 _ ({[a]} ∪ stateObjectsDirty s1) a n Hc1 new_object_ok eq_refl eq_refl) as (Hc2&Hr3&Hv3); [done|].
  assert (Hc3 : core_ok (log_change s2 e)) by (apply core_ok_log; [done|by eapply entry_ok_same; [|exact He]]).
  change (abs_obj n) with (abs_obj (newObject zeroAccount true)) in Hv3. rewrite new_object_abs, Hv1 in Hv3.
  change (setStateObject _ a n) with (log_change s2 e).
  destruct Hr1, Hr3. split_and!; [done|simpl; congruence..|done|].
  exists e. split; [simpl; congruence|]. intros x.
  subst e. destruct prev as [p|]; simpl; rewrite set_account_twice; f_equal.
  - destruct Hprev as (_&_&_&Ha). by apply set_account_same.
  - destruct Hprev as [Ha _]. by apply set_account_back.
Qed.

Lemma GetOrNewStateObject_ok a s : core_ok s ->
  let '(o, s') := GetOrNewStateObject a s in
  abs_obj o = get_or_new (db_view s) a /\ obj_ok o /\ deleted o = false /\
  op_ok s s' (set_account (db_view s) a (Some (abs_obj o))).
Proof.
  intros Hs. unfold GetOrNewStateObject, get_or_new. pose proof (getStateObject_ok a s Hs) as Hget.
  destruct (getStateObject a s) as [[o|] s1].
  - destruct Hget as (Hc1&Hr1&Hv1&_&_&Hd&Ho&Ha). rewrite Ha. split_and!; try done; [apply Ho..|].
    rewrite (set_account_same _ _ _ Ha). by apply op_ok_quiet.
  - destruct Hget as (_&_&_&_&Ha&->). rewrite Ha. pose proof (createObject_ok a s Hs) as Hcr.
    destruct (createObject a s) as [[o prev] s2]. destruct Hcr as (->&_&?&?&?&?&?&e&?&Hu).
    change (abs_obj (clear_onDirty (newObject zeroAccount true)))
      with (abs_obj (newObject zeroAccount true)). rewrite new_object_abs.
    split; [done|]. split; [apply new_object_ok|]. split; [done|].
    split_and!; try done. exists [e]. split; [done|]. simpl. by rewrite Hu.
Qed.

(** A method that works on the object of [a]. *)
Definition obj_op (f : db -> Address -> stateObject -> db) (g : account -> account) : Prop :=
  forall s a o, core_ok s -> accounts (db_view s) a = Some (abs_obj o) -> obj_ok o ->
  deleted o = false -> op_ok s (f s a o) (set_account (db_view s) a (Some (g (abs_obj o)))).

Lemma writes_of f h : (forall s, core_ok s -> op_ok s (f s) (h (db_view s))) ->
  writes db_view db_inv f h.
Proof. intros Hf s Hs. apply op_ok_keeps; [done|]. apply Hf, Hs. Qed.

Lemma object_writes a f g : obj_op f g ->
  writes db_view db_inv (fun s => let '(o, s) := GetOrNewStateObject a s in f s a o)
    (fun v => upd_account v a g).
Proof.
  intros Hf. apply writes_of. intros s Hs. pose proof (GetOrNewStateObject_ok a s Hs) as Hg.
  destruct (GetOrNewStateObject a s) as [o s1]. destruct Hg as (Habs&Ho&Hd&Hop).
  pose proof Hop as (Hc1&_&_&_&Hv1&_).
  eapply op_ok_trans; [exact Hop|].
  assert (Ha : accounts (db_view s1) a = Some (abs_obj o)).
  { rewrite Hv1. apply accounts_set. }
  pose proof (Hf s1 a o Hc1 Ha Ho Hd) as H2. rewrite Hv1, set_account_twice, Habs in H2. done.
Qed.

(** An entry [e] and then an assignment with effect [g], which [e] undoes. *)
Lemma logged_op s a o e (put : db -> db) g :
  core_ok s -> accounts (db_view s) a = Some (abs_obj o) -> entry_ok s e ->
  (forall s', core_ok s' -> core_ok (put s') /\ same_rest s' (put s') /\
     db_view (put s') = set_account (db_view s') a (Some (g (abs_obj o)))) ->
  (forall v, accounts v a = Some (g (abs_obj o)) ->
     abs_undo e v = Some (set_account v a (Some (abs_obj o)))) ->
  op_ok s (put (log_change s e)) (set_account (db_view s) a (Some (g (abs_obj o)))).
Proof.
  intros Hs Ha He Hput Hundo. pose proof (core_ok_log s e Hs He) as Hs1.
  destruct (Hput _ Hs1) as (Hc2&Hr2&Hv2).
  apply (op_ok_logged s e); [done|done|done|].
  rewrite (Hundo (set_account _ _ _)) by apply accounts_set.
  rewrite set_account_twice. f_equal. by apply set_account_same.
Qed.

Lemma obj_SetBalance_op b : obj_op (fun s a o => obj_SetBalance s a o b) (fun o => with_balance o b).
Proof.
  intros s a o Hs Ha Ho Hd. unfold obj_SetBalance.
  apply (logged_op s a o _ (fun s' => obj_setBalance s' a o b) (fun o => with_balance o b));
    try done.
  - intros s' Hs'. by apply obj_setBalance_ok.
  - intros v Hv. simpl. unfold abs_on. rewrite Hv. done.
Qed.

Lemma obj_SetNonce_op n : obj_op (fun s a o => obj_SetNonce s a o n) (fun o => with_nonce o n).
Proof.
  intros s a o Hs Ha Ho Hd. unfold obj_SetNonce.
  apply (logged_op s a o _ (fun s' => obj_setNonce s' a o n) (fun o => with_nonce o n)); try done.
  - intros s' Hs'. by apply obj_setNonce_ok.
  - intros v Hv. simpl. unfold abs_on. rewrite Hv. done.
Qed.

Lemma obj_SetState_op k x :
  obj_op (fun s a o => obj_SetState s a o k x) (fun o => with_storage o k x).
Proof.
  intros s a o Hs Ha Ho Hd. unfold obj_SetState.
  pose proof (obj_GetState_value o k) as Hval. pose proof (obj_GetState_same o k) as Hsame.
  pose proof (obj_ok_GetState o k Ho) as Ho'. pose proof (deleted_GetState o k) as Hd'.
  destruct (obj_GetState o k) as [prev o']. simpl in *. rewrite <- Hsame in *.
  apply (logged_op s a o' _ (fun s' => obj_setState s' a o' k x)
    (fun o => with_storage o k x)); try done.
  - intros s' Hs'. apply obj_setState_ok; [done..|congruence].
  - intros v Hv. simpl. unfold abs_on. rewrite Hv. simpl. do 3 f_equal.
    unfold with_storage, abs_obj. simpl. f_equal. rewrite fupd_twice.
    assert (Hst : storage_of o' = storage_of o) by (apply (f_equal acc_storage Hsame)).
    rewrite Hst, Hval. apply fupd_id.
Qed.

Lemma obj_SetCode_op c : zlen c < 2 ^ 63 ->
  obj_op (fun s a o => obj_SetCode s a o (Keccak256Hash c) c)
         (fun o => with_code o (Keccak256Hash c) c).
Proof.
  intros Hc s a o Hs Ha Ho Hd. unfold obj_SetCode.
  pose proof (obj_Code_same o) as Hsame. pose proof (obj_ok_Code o Ho) as Ho'.
  pose proof (deleted_Code o) as Hd'.
  destruct (obj_Code o) as [c0 o']. simpl in *. rewrite <- Hsame in *.
  apply (logged_op s a o' _ (fun s' => obj_setCode s' a o' (Keccak256Hash c) (Some c))
    (fun o => with_code o (Keccak256Hash c) c)); try done.
  - by destruct Ho' as (?&?&?).
  - intros s' Hs'. apply obj_setCode_ok; [done|done|apply Keccak256_size|done|congruence].
  - intros v Hv. simpl. unfold abs_on. rewrite Hv. done.
Qed.

Lemma obj_touch_op : obj_op obj_touch (fun o => o).
Proof.
  intros s a o Hs Ha Ho Hd. unfold obj_touch.
  apply (logged_op s a o _ (fun s' => put_dirty s' a
    (with_flags o (suicided o) true (deleted o) (onDirty o))) (fun o => o)); try done.
  - intros s' Hs'. set (o' := with_flags _ _ _ _ _). change (abs_obj o) with (abs_obj o').
    by apply put_dirty_ok.
  - intros v Hv. simpl. rewrite Hv, (set_account_same _ _ _ Hv). by case_match.
Qed.

Lemma obj_quiet_op : obj_op (fun s _ _ => s) (fun o => o).
Proof.
  intros s a o Hs Ha _ _. rewrite (set_account_same _ _ _ Ha). by apply op_ok_quiet.
Qed.

Lemma with_balance_add_0 o n : Big.Sign n =? 0 = true -> with_balance o (acc_balance o + n) = o.
Proof.
  intros Hn. assert (n = 0) as -> by (unfold Big.Sign in Hn; by destruct n).
  rewrite Z.add_0_r. by destruct o.
Qed.

Lemma obj_AddBalance_op n :
  obj_op (fun s a o => obj_AddBalance s a o n) (fun o => with_balance o (acc_balance o + n)).
Proof.
  intros s a o Hs Ha Ho Hd. unfold obj_AddBalance. destruct (Big.Sign n =? 0) eqn:Hn.
  - rewrite with_balance_add_0 by done.
    destruct (obj_empty o); [by apply obj_touch_op|by apply obj_quiet_op].
  - by apply (obj_SetBalance_op (Balance (data o) + n)).
Qed.

Lemma obj_SubBalance_op n :
  obj_op (fun s a o => obj_SubBalance s a o n) (fun o => with_balance o (acc_balance o - n)).
Proof.
  intros s a o Hs Ha Ho Hd. unfold obj_SubBalance. destruct (Big.Sign n =? 0) eqn:Hn.
  - assert (n = 0) as -> by (unfold Big.Sign in Hn; by destruct n).
    rewrite Z.sub_0_r. replace (with_balance (abs_obj o) (acc_balance (abs_obj o)))
      with (abs_obj o) by done. by apply obj_quiet_op.
  - by apply (obj_SetBalance_op (Balance (data o) - n)).
Qed.

Lemma db_CreateAccount_ok a : writes db_view db_inv (db_CreateAccount a) (abs_CreateAccount a).
Proof.
  apply writes_of. intros s Hs. unfold db_CreateAccount, abs_CreateAccount, abs_balance.
  pose proof (createObject_ok a s Hs) as Hcr. destruct (createObject a s) as [[o prev] s1].
  destruct Hcr as (->&Hprev&Hc1&Ht1&Hr1&Hn1&Hv1&e&Hj1&Hu). rewrite <- Hprev.
  destruct prev as [p|]; simpl.
  - set (o := clear_onDirty _).
    destruct (obj_setBalance_ok s1 a o (Balance (data p))) as (Hc2&[]&Hv2);
      [done|apply new_object_ok|done|].
    change (abs_obj o) with (abs_obj (newObject zeroAccount true)) in Hv2.
    rewrite new_object_abs, Hv1, set_account_twice in Hv2.
    split_and!; [done|congruence..|done|]. exists [e]. split; [simpl; congruence|].
    simpl. by rewrite Hu.
  - split_and!; try done. exists [e]. split; [done|]. simpl. by rewrite Hu.
Qed.

Lemma db_Suicide_ok a : writes db_view db_inv (fun s => snd (db_Suicide a s)) (abs_Suicide a).
Proof.
  apply writes_of. intros s Hs. unfold db_Suicide, abs_Suicide.
  pose proof (getStateObject_ok a s Hs) as Hget.
  destruct (getStateObject a s) as [[o|] s1].
  - destruct Hget as (Hc1&Hr1&Hv1&_&_&Hd&Ho&Ha). rewrite Ha. simpl.
    eapply op_ok_trans; [by apply op_ok_quiet|]. rewrite <- Hv1 in Ha |- *.
    apply (logged_op s1 a o _ (fun s' => put_dirty s' a (with_data
      (with_flags o true (touched o) (deleted o) (onDirty o)) (data_with_balance (data o) 0)))
      (fun o => with_balance (with_suicided o true) 0)); try done.
    + intros s' Hs'. destruct Ho. by apply put_dirty_ok.
    + intros v Hv. simpl. unfold abs_on. rewrite Hv. done.
  - destruct Hget as (?&?&?&_&Ha&->). rewrite Ha. by apply op_ok_quiet.
Qed.

Lemma db_AddRefund_ok n :
  writes db_view db_inv (db_AddRefund n) (fun v => set_refund v (refund v + n)).
Proof.
  apply writes_of. intros s Hs. split_and!; try done; [destruct Hs; split; try done|].
  - simpl. apply Forall_cons. split; [done|].
    eapply Forall_impl; [done|]. intros x. by apply entry_ok_same.
  - exists [refundChange (db_refund s)]. done.
Qed.

Lemma db_AddPreimage_ok h p :
  writes db_view db_inv (db_AddPreimage h p) (abs_AddPreimage h p).
Proof.
  apply writes_of. intros s Hs. unfold db_AddPreimage, abs_AddPreimage.
  change (preimages (db_view s) h) with (db_preimages s !! h).
  destruct (db_preimages s !! h) as [q|] eqn:Hh; [by apply op_ok_quiet|].
  rewrite Common.CopyBytes_id. split_and!; try done.
  - destruct Hs. split; try done. simpl. apply Forall_cons. split; [done|].
    eapply Forall_impl; [done|]. intros x. by apply entry_ok_same.
  - unfold db_view, set_preimage. simpl. f_equal. apply functional_extensionality. intros h'.
    unfold fupd. rewrite lookup_insert. destruct (decide (h' = h)) as [->|Hne].
    + by rewrite decide_True by done.
    + by rewrite decide_False by done.
  - exists [addPreimageChange h]. split; [done|]. simpl. f_equal.
    unfold set_preimage. simpl. rewrite fupd_twice. rewrite <- Hh.
    by rewrite (fupd_id (fun h => db_preimages s !! h)).
Qed.

Lemma db_AddLog_ok l s : db_inv s -> exists h l',
  log_Address l' = log_Address l /\ log_Topics l' = log_Topics l /\ log_Data l' = log_Data l /\
  db_view (db_AddLog l s) = set_logs (db_view s) h (logs (db_view s) h ++ [l']) /\
  keeps db_view db_inv s (db_AddLog l s).
Proof.
  intros Hs. pose proof (proj1 Hs) as Hc. unfold db_AddLog. simpl.
  set (l' := {| log_Address := _ |}). exists (thash s), l'. split_and!; try done.
  all: match goal with |- context [set_db_logs ?x ?y ?z] => set (s' := set_db_logs x y z) end.
  all: assert (Hop : op_ok s s' (set_logs (db_view s) (thash s) (logs (db_view s) (thash s) ++ [l'])));
    [|by apply (op_ok_keeps s s' _ Hs) in Hop as [? ?]].
  all: split_and!; try done.
  1, 4: destruct Hc; split; try done; simpl; apply Forall_cons; split; [done|];
    eapply Forall_impl; [done|]; intros x; by apply entry_ok_same.
  1, 3: unfold db_view, set_logs; simpl; f_equal; apply functional_extensionality; intros h';
    unfold fupd; rewrite lookup_insert; destruct (decide (h' = thash s)) as [->|Hne];
    [by rewrite decide_True by done|by rewrite decide_False by done].
  all: exists [addLogChange (thash s)]; split; [done|]; simpl; rewrite fupd_eq, zlen_app;
    change (zlen [l']) with 1; set (ls := default [] _); pose proof (zlen_nonneg ls);
    rewrite (proj2 (Z.eqb_neq _ _)) by lia; simpl; f_equal; unfold set_logs; simpl;
    rewrite fupd_twice; replace (zlen ls + 1 - 1) with (zlen ls) by lia;
    unfold ztake, zlen; rewrite Nat2Z.id, take_app_length; subst ls;
    by rewrite (fupd_id (fun h => default [] (db_logs s !! h))).
Qed.

(** ** Snapshots *)

Lemma zget_app_l {A} (l1 l2 : list A) i x : zget l1 i = Some x -> zget (l1 ++ l2) i = Some x.
Proof. unfold zget. case_match; [|done]. apply lookup_app_l_Some. Qed.

Lemma zget_snoc {A} (l : list A) y i x :
  zget (l ++ [y]) i = Some x -> zget l i = Some x \/ i = zlen l /\ x = y.
Proof.
  unfold zget. case_match; [|done]. bool_to_prop.
  intros [Hx|[Hge Hx]]%lookup_app_Some; [by left|right].
  apply list_lookup_singleton_Some in Hx as [Hi ->]. split; [|done]. unfold zlen. lia.
Qed.

Lemma zget_last {A} (l : list A) y : zget (l ++ [y]) (zlen l) = Some y.
Proof.
  unfold zget. rewrite (proj2 (Z.leb_le _ _)) by apply zlen_nonneg.
  unfold zlen. rewrite Nat2Z.id. by apply list_lookup_middle.
Qed.

Lemma revs_lookup s i id k : revs_ok s -> zget (validRevisions s) i = Some (id, k) ->
  id < nextRevisionId s /\ 0 <= k <= zlen (journal s).
Proof.
  intros [_ Hr] Hi. unfold zget in Hi. case_match; [|done].
  by apply (Forall_lookup_1 _ _ _ _ Hr Hi).
Qed.

Lemma db_Snapshot_inv s : db_inv s -> db_inv (snd (db_Snapshot s)).
Proof.
  intros [Hc [Hsort Hr]]. split; [destruct Hc; by split|]. split; simpl.
  - intros i j x y Hi Hj Hlt. apply zget_snoc in Hi as [Hi|[-> ->]].
    + apply zget_snoc in Hj as [Hj|[-> ->]]; [by eapply Hsort|]. simpl.
      destruct x as [id k]. pose proof (revs_lookup s i id k (conj Hsort Hr) Hi). simpl. lia.
    + apply zget_inv in Hj. rewrite zlen_app in Hj. change (zlen [_]) with 1 in Hj. lia.
  - apply Forall_app. split.
    + eapply Forall_impl; [done|]. cbv beta. intros r [? ?]. lia.
    + apply Forall_singleton. simpl. pose proof (zlen_nonneg (journal s)). lia.
Qed.

Lemma db_Snapshot_ok s : db_inv s ->
  db_view (snd (db_Snapshot s)) = db_view s /\ keeps db_view db_inv s (snd (db_Snapshot s)) /\
  restores db_view db_inv (snd (db_Snapshot s)) (fst (db_Snapshot s)) (db_view s) /\
  (forall id v, restores db_view db_inv s id v -> id < fst (db_Snapshot s)).
Proof.
  intros Hs. pose proof (db_Snapshot_inv s Hs) as Hs'. split_and!; [done|split; [done|]|..].
  - intros id v. rewrite !restores_iff by done. intros (i&k&Hi&Hk). exists i, k.
    split; [|done]. by apply zget_app_l.
  - rewrite restores_iff by done. exists (zlen (validRevisions s)), (zlen (journal s)).
    split; [apply zget_last|]. unfold newer. simpl. by rewrite Z.sub_diag.
  - intros id v. rewrite restores_iff by done. intros (i&k&Hi&_).
    by destruct (revs_lookup s i id k (proj2 Hs) Hi).
Qed.

Lemma newer_split s k k' s' : 0 <= k' <= k -> k <= zlen (journal s) ->
  journal s' = zdrop (zlen (journal s) - k) (journal s) ->
  newer s k' = newer s k ++ newer s' k'.
Proof.
  intros Hk Hkl Hj. unfold newer. rewrite Hj. rewrite zlen_zdrop by lia.
  unfold zdrop. set (n := Z.to_nat (zlen (journal s) - k)).
  rewrite <- (take_drop n (journal s)) at 2. rewrite take_app.
  assert (Hn : length (take n (journal s)) = n) by (rewrite length_take; unfold zlen in *; lia).
  rewrite Hn, take_ge by lia. do 2 f_equal. lia.
Qed.

Lemma db_Revert_ok s id s' : db_inv s -> db_RevertToSnapshot id s = Some s' ->
  forall id' v, id' < id -> restores db_view db_inv s id' v -> restores db_view db_inv s' id' v.
Proof.
  intros Hs Hrev id' v Hlt Hres.
  assert (Hres0 : exists i k, zget (validRevisions s) i = Some (id, k)).
  { unfold db_RevertToSnapshot in Hrev. cbv zeta in Hrev. case_match; [done|].
    destruct (zget (validRevisions s) _) as [[id0 k]|] eqn:Hi; simpl in Hrev; [|done].
    destruct (id0 =? id) eqn:E; simpl in Hrev; [|done]. bool_to_prop. subst id0. eauto. }
  destruct Hres0 as (i&k&Hi). pose proof (revert_ok s i id k Hs Hi) as Hr. rewrite Hrev in Hr.
  destruct (abs_undo_all (newer s k) (db_view s)) as [v0|] eqn:Hu; [|done].
  destruct Hr as (Hv&Hs'&Hrevs&Hj).
  apply restores_iff in Hres as (i'&k'&Hi'&Hu'); [|done].
  destruct Hs as [Hc [Hsort Hall]].
  assert (Hii : i' < i).
  { destruct (Z.lt_trichotomy i' i) as [?|[->|Hgt]]; [done|..].
    - rewrite Hi in Hi'. simplify_eq. lia.
    - destruct (Hsort i i' _ _ Hi Hi' Hgt). simpl in *. lia. }
  destruct (Hsort i' i _ _ Hi' Hi Hii) as [_ Hkk]. simpl in Hkk.
  destruct (revs_lookup s i id k (conj Hsort Hall) Hi) as [_ ?].
  destruct (revs_lookup s i' id' k' (conj Hsort Hall) Hi') as [_ ?].
  apply restores_iff; [done|]. exists i', k'. split.
  - rewrite Hrevs. pose proof (zget_inv _ _ _ Hi'). unfold zget, ztake in *.
    rewrite (proj2 (Z.leb_le _ _)) in * by lia. rewrite lookup_take_lt by lia. done.
  - rewrite (newer_split s k k' s'), abs_undo_all_app, Hu in Hu' by (done || lia).
    by rewrite Hv.
Qed.

(** The journalled database keeps the contract of the virtual machine. *)
#[export] Instance db_StateLaws : StateLaws db.
Proof.
  refine {| view := db_view; inv := db_inv |}.
  - exact db_GetBalance_ok.
  - exact db_GetNonce_ok.
  - exact db_GetCodeHash_ok.
  - exact db_GetCode_ok.
  - exact db_GetState_ok.
  - exact db_HasSuicided_ok.
  - exact db_Exist_ok.
  - exact db_Empty_ok.
  - done.
  - exact db_GetCodeSize_ok.
  - exact db_CreateAccount_ok.
  - intros a n. apply (object_writes a _ _ (obj_AddBalance_op n)).
  - intros a n. apply (object_writes a _ _ (obj_SubBalance_op n)).
  - intros a n. apply (object_writes a _ _ (obj_SetNonce_op n)).
  - intros a c Hc. apply (object_writes a _ _ (obj_SetCode_op c Hc)).
  - intros a k x. apply (object_writes a _ _ (obj_SetState_op k x)).
  - exact db_Suicide_ok.
  - exact db_AddRefund_ok.
  - exact db_AddPreimage_ok.
  - intros n s [[] [? ?]]. done.
  - exact db_AddLog_ok.
  - exact db_Snapshot_ok.
  - exact db_Revert_ok.
Defined.
End laws.
