(* ===== verification/StateSync.v ===== *)
(** The encodings the state is stored in round trip, and the live objects, the journal and the tries of a state database agree.

    [TrieTheory] names what a trie over a database means; [Tries] says that the
    tries of a [Backend] follow it.  [sync s M]: the account trie of [s] holds the map
    [M]; an object that would still report its first change equals its entry in [M]
    and is stored completely; every other object is marked dirty; unwritten storage
    is in the dirty map of its object; and undoing the journal keeps all of this.
    Every method of the database preserves [sync]. *)
From S2P Require Import Prelude GoBig CommonMath CommonTypes Params Rlp RlpDecode RlpDecodeTheorems VmTypes TrieTree StateSpec StateDB.
From S2P Require Import StateCommit StateDBLaws.

(** The encodings the state is stored in: storage values and accounts round trip. *)

(** ** Storage values *)

Lemma TrimLeft_sub b : exists n, b = zeros n ++ TrimLeft b.
Proof.
  induction b as [|x b [n IH]]; [by exists 0|]. cbn [TrimLeft].
  destruct (x =? 0) eqn:E; [|exists 0; done]. bool_to_prop. exists (Z.max 0 n + 1).
  rewrite IH at 1. unfold zeros. replace (Z.to_nat (Z.max 0 n + 1)) with (S (Z.to_nat n)) by lia.
  cbn [repeat app]. by subst.
Qed.

Lemma SetBytes_TrimLeft b : Big.SetBytes (TrimLeft b) = Big.SetBytes b.
Proof. destruct (TrimLeft_sub b) as [n Hn]. rewrite Hn at 2. by rewrite Big.SetBytes_zeros. Qed.

Lemma is_bytes_TrimLeft b : is_bytes b -> is_bytes (TrimLeft b).
Proof. intros Hb. destruct (TrimLeft_sub b) as [n Hn]. rewrite Hn in Hb. by apply is_bytes_app in Hb as [_ ?]. Qed.

Lemma zlen_TrimLeft b : zlen (TrimLeft b) <= zlen b.
Proof.
  destruct (TrimLeft_sub b) as [n Hn]. rewrite Hn at 2. rewrite zlen_app.
  pose proof (zlen_nonneg (zeros n : bytes)). lia.
Qed.

Section slots.
Context {CR : Crypto} {CK : CryptoOk}.

Lemma slot_encoding_eq v : Common.is_array 32 v -> slot_encoding v = Spec.string (TrimLeft v).
Proof.
  intros [Hl Hb]. unfold slot_encoding. pose proof (zlen_TrimLeft v). pose proof (zlen_nonneg (TrimLeft v)).
  pose proof (zlen_string_bound (TrimLeft v) ltac:(lia)).
  rewrite (EncodeToBytes_spec (Enc.VBytes (TrimLeft v))); [done|constructor; by apply is_bytes_TrimLeft|simpl; lia].
Qed.

Lemma slot_encoding_ok v : Common.is_array 32 v -> value_ok (slot_encoding v).
Proof.
  intros Hv. rewrite slot_encoding_eq by done. destruct Hv as [Hl Hb].
  pose proof (zlen_TrimLeft v). pose proof (zlen_nonneg (TrimLeft v)).
  pose proof (zlen_string_bound (TrimLeft v) ltac:(lia)). split_and!; [|apply (is_bytes_enc (Enc.VBytes _)); [constructor; by apply is_bytes_TrimLeft|simpl; lia]|lia].
  unfold Spec.string, Spec.head. destruct (TrimLeft v) as [|x [|y t]]; [done| |]; repeat case_match; done.
Qed.

Lemma storage_value_encoding v : Common.is_array 32 v -> storage_value (slot_encoding v) = (v, false).
Proof.
  intros Hv. pose proof (slot_encoding_ok v Hv) as (Hne&_&_). rewrite slot_encoding_eq in * by done.
  unfold storage_value. destruct (zlen (Spec.string (TrimLeft v)) >? 0) eqn:E.
  2: { bool_to_prop. pose proof (zlen_nonneg (Spec.string (TrimLeft v))). destruct Hne. apply zlen_0. lia. }
  destruct Hv as [Hl Hb]. destruct (string_item (TrimLeft v)) as (k&_&Hk); [by apply is_bytes_TrimLeft|].
  pose proof (zlen_TrimLeft v). pose proof (zlen_nonneg (TrimLeft v)).
  pose proof (zlen_string_bound (TrimLeft v) ltac:(lia)).
  pose proof (Split_complete k (TrimLeft v) (Spec.string (TrimLeft v)) []) as Hs. rewrite app_nil_r in Hs.
  rewrite Hs; [|by apply is_bytes_TrimLeft|constructor|done|lia]. f_equal.
  rewrite Common.BytesToHash_spec by by apply is_bytes_TrimLeft. rewrite SetBytes_TrimLeft.
  rewrite <- Common.BytesToHash_spec by done. by apply BytesToHash_id.
Qed.
End slots.

(** ** Accounts *)

(** Balances are below [2^256]: there is not more than [2^256] of the currency. *)
Record data_ok (d : Account) : Prop := {
  do_nonce : 0 <= Nonce d < 2 ^ 64;
  do_root : Common.is_array 32 (Root d);
  do_code : Common.is_array 32 (Account_CodeHash d);
}.
Definition balance_ok (d : Account) : Prop := 0 <= Balance d < 2 ^ 256.

Definition account_encoding (d : Account) : bytes := Spec.enc (account_value d).

Lemma account_strict : strict account_type.
Proof. simpl. split_and!; try done. by right; right; right. Qed.

Lemma account_typed d : data_ok d -> balance_ok d -> typed account_type (account_value d).
Proof.
  intros [Hn [Hrl Hrb] [Hcl Hcb]] Hf. eexists. split; [done|]. simpl. split_and!; [|eexists; split; [done|]; unfold balance_ok in Hf; lia| | |done].
  - eexists. split; [done|]. lia.
  - eexists. split; [done|]. split; [done|]. unfold zlen in Hrl. lia.
  - by eexists.
Qed.

Lemma zlen_head_bound small large n : 0 <= n < 2 ^ 62 -> 0 < zlen (Spec.head small large n) <= 9.
Proof.
  intros Hn. unfold Spec.head. case_match; [change (0 < 1 <= 9); lia|]. rewrite zlen_cons.
  pose proof (zlen_nonneg (Big.Bytes n)).
  pose proof (Big.zlen_Bytes_le n 8 ltac:(lia) ltac:(change (256 ^ 8) with (2 ^ 64); lia)). lia.
Qed.

Lemma zlen_account_encoding d : data_ok d -> balance_ok d -> 0 < zlen (account_encoding d) < 2 ^ 10.
Proof.
  intros [Hn [Hrl _] [Hcl _]] Hf. unfold balance_ok in Hf. unfold account_encoding, account_value, Spec.lst. cbn [Spec.enc map].
  pose proof (Big.zlen_Bytes_le (Nonce d) 8 ltac:(lia) ltac:(change (256 ^ 8) with (2 ^ 64); lia)).
  pose proof (Big.zlen_Bytes_le (Balance d) 32 ltac:(lia) ltac:(change (256 ^ 32) with (2 ^ 256); lia)).
  pose proof (zlen_string_bound (Big.Bytes (Nonce d)) ltac:(lia)).
  pose proof (zlen_string_bound (Big.Bytes (Balance d)) ltac:(lia)).
  pose proof (zlen_string_bound (Root d) ltac:(lia)). pose proof (zlen_string_bound (Account_CodeHash d) ltac:(lia)).
  unfold Spec.lst. rewrite zlen_app. cbn [from_option id]. set (c := concat _).
  assert (Hc : 0 <= zlen c < 2 ^ 9).
  { split; [apply zlen_nonneg|]. unfold c. cbn [concat]. rewrite !zlen_app, zlen_nil. lia. }
  pose proof (zlen_head_bound 0xC0 0xF7 (zlen c) ltac:(lia)). lia.
Qed.

Lemma encode_account d : data_ok d -> balance_ok d ->
  Enc.EncodeToBytes (account_value d) = Done (account_encoding d) /\
  DecodeAccount (account_encoding d) = Some d /\ value_ok (account_encoding d).
Proof.
  intros Hd Hf. pose proof (zlen_account_encoding d Hd Hf) as Hl.
  pose proof (account_typed d Hd Hf) as Ht.
  destruct (DecodeBytes_enc account_type (account_value d) account_strict Ht) as [He Hdec].
  { unfold account_encoding in Hl. lia. }
  split_and!; [done| |].
  - unfold DecodeAccount, account_encoding. rewrite Hdec. by destruct d.
  - split_and!; [|apply is_bytes_enc; [by apply (typed_encodable account_type account_strict)|unfold account_encoding in Hl; lia]|lia].
    intros E. rewrite E in Hl. by destruct Hl as [Hl _].
Qed.

Lemma account_encoding_inj d d' : data_ok d -> balance_ok d -> data_ok d' -> balance_ok d' ->
  account_encoding d = account_encoding d' -> d = d'.
Proof.
  intros Hd Hf Hd' Hf' E. destruct (encode_account d Hd Hf) as (_&H&_).
  destruct (encode_account d' Hd' Hf') as (_&H'&_). rewrite E in H. congruence.
Qed.

Class TrieTheory := {
  (** The keys in use; their hashes do not collide. *)
  named : bytes -> Prop;
  (** The maps whose nodes do not collide. *)
  known : gmap bytes bytes -> Prop;
  (** The contract codes in use. *)
  code_known : bytes -> Prop;
  (** The hash is the root hash of the map. *)
  roots : Hash -> gmap bytes bytes -> Prop;
  (** The database holds the map under the hash. *)
  held : (bytes -> option bytes) -> Hash -> gmap bytes bytes -> Prop;
}.

(** Entries under hashes stay. *)
Definition grows (g g' : bytes -> option bytes) : Prop :=
  forall k v, zlen k = 32 -> g k = Some v -> g' k = Some v.

Class TrieTheoryOk `{CR : Crypto} `{TT : TrieTheory} : Prop := {
  roots_unique h h' m : roots h m -> roots h' m -> h = h';
  roots_array h m : roots h m -> Common.is_array 32 h;
  held_roots g h m : held g h m -> roots h m;
  held_grows g g' h m : grows g g' -> held g h m -> held g' h m;
  code_inj c c' : code_known c -> code_known c' -> Keccak256 c = Keccak256 c' -> c = c';
  code_known_nil : code_known [];
}.

Class Tries `{TT : TrieTheory} `{BE : Backend} := holds : trie -> gmap bytes bytes -> Prop.

Class TriesOk `{CR : Crypto} `{TS : Tries} : Prop := {
  holds_empty : holds empty_trie ∅;
  Get_holds t m k : holds t m -> named k -> Trie_Get k t = default [] (m !! k);
  Update_holds t m k v : holds t m -> named k -> value_ok v -> holds (Trie_Update k v t) (<[k := v]> m);
  Delete_holds t m k : holds t m -> named k -> holds (Trie_Delete k t) (delete k m);
  Hash_holds t m : holds t m -> roots (Trie_Hash t) m;
  NewSecure_held h m limit : held db_Get h m -> known m -> exists t, NewSecure h limit = Some t /\ holds t m;
}.

Section sync.
Context {CR : Crypto} {CK : CryptoOk} {BE : Backend} {BK : BackendOk} {TT : TrieTheory} {TTK : TrieTheoryOk}.
Context {TS : Tries} {TSK : TriesOk}.

(** ** Storage *)

Definition slot (k : Hash) : Prop := Common.is_array 32 k /\ named k.

(** The maps that storage tries hold. *)
Definition slots (m : gmap bytes bytes) : Prop :=
  forall k e, m !! k = Some e ->
    slot k /\ exists v, Common.is_array 32 v /\ v <> Common.zeroHash /\ e = slot_encoding v.

Definition slot_value (m : gmap bytes bytes) (k : Hash) : Hash := fst (storage_value (default [] (m !! k))).

Lemma slots_empty : slots ∅.
Proof. intros k e H. by rewrite lookup_empty in H. Qed.

Lemma slot_value_empty k : slot_value ∅ k = Common.zeroHash.
Proof. unfold slot_value. by rewrite lookup_empty. Qed.

Lemma slots_value m k : slots m ->
  storage_value (default [] (m !! k)) = (slot_value m k, false) /\ Common.is_array 32 (slot_value m k).
Proof.
  intros Hm. unfold slot_value. destruct (m !! k) as [e|] eqn:E; simpl.
  - destruct (Hm k e E) as (_&v&Hv&_&->). by rewrite storage_value_encoding.
  - split; [done|]. apply Common.is_array_zeroHash.
Qed.

(** The map determines and is determined by the values. *)
Lemma slots_lookup m k : slots m -> slot k ->
  m !! k = if bool_decide (slot_value m k = Common.zeroHash) then None else Some (slot_encoding (slot_value m k)).
Proof.
  intros Hm Hk. unfold slot_value. destruct (m !! k) as [e|] eqn:E; simpl; [|done].
  destruct (Hm k e E) as (_&v&Hv&Hz&->). rewrite storage_value_encoding by done. simpl.
  by rewrite bool_decide_eq_false_2.
Qed.

Lemma slots_ext m m' : slots m -> slots m' -> (forall k, slot k -> slot_value m k = slot_value m' k) -> m = m'.
Proof.
  intros Hm Hm' H. apply map_eq. intros k. destruct (m !! k) as [e|] eqn:E.
  - destruct (Hm k e E) as [Hk _]. rewrite <- E, (slots_lookup m k), (slots_lookup m' k) by done. by rewrite H.
  - destruct (m' !! k) as [e|] eqn:E'; [|done]. destruct (Hm' k e E') as [Hk _].
    rewrite <- E, <- E', (slots_lookup m k), (slots_lookup m' k) by done. by rewrite H.
Qed.

(** Writing one value. *)
Definition put_slot (m : gmap bytes bytes) (k v : Hash) : gmap bytes bytes :=
  if bool_decide (v = Common.zeroHash) then delete k m else <[k := slot_encoding v]> m.

Lemma slots_put m k v : slots m -> slot k -> Common.is_array 32 v -> slots (put_slot m k v).
Proof.
  intros Hm Hk Hv k' e. unfold put_slot. case_bool_decide as Hz.
  - intros [_ H]%lookup_delete_Some. by apply Hm.
  - intros [[<- <-]|[_ H]]%lookup_insert_Some; [|by apply Hm]. split; [done|by exists v].
Qed.

Lemma slot_value_put m k v k' : Common.is_array 32 v ->
  slot_value (put_slot m k v) k' = if bool_decide (k' = k) then v else slot_value m k'.
Proof.
  intros Hv. unfold slot_value, put_slot. case_bool_decide as Hz; case_bool_decide as Hk; subst.
  - by rewrite lookup_delete_eq.
  - by rewrite lookup_delete_ne.
  - rewrite lookup_insert_eq. simpl. by rewrite storage_value_encoding.
  - by rewrite lookup_insert_ne.
Qed.

Lemma update_slot_holds t m k v : holds t m -> slot k -> Common.is_array 32 v ->
  holds (update_slot t k v) (put_slot m k v).
Proof.
  intros Ht [_ Hk] Hv. unfold update_slot, put_slot. case_bool_decide; [by apply Delete_holds|].
  apply Update_holds; [done|done|by apply slot_encoding_ok].
Qed.

(** ** Code *)

(** The code [c] of an object, its hash and whether it must be written. *)
Definition code_ok (c : option bytes) (h : bytes) (dirty : bool) : Prop :=
  Common.is_array 32 h /\
  match c with
  | Some c => h = Keccak256 c /\ code_known c /\ zlen c < 2 ^ 63 /\ (dirty = false -> db_Get h = Some c)
  | None => h = emptyCodeHash \/ exists c, db_Get h = Some c /\ code_known c /\ h = Keccak256 c
  end.

Lemma code_ok_dirty c h : forall d, code_ok c h d -> code_ok c h true.
Proof. intros d [Ha Hc]. split; [done|]. destruct c; [|done]. by destruct Hc as (?&?&?&_). Qed.

Lemma code_ok_load h d c : code_ok None h d -> h <> emptyCodeHash -> db_Get h = Some c -> code_ok (Some c) h d.
Proof.
  intros [Ha [?|(c'&Hg&Hc)]] Hne Hc'; [done|]. split; [done|]. rewrite Hc' in Hg. simplify_eq.
  destruct Hc as [Hk Hh]. split_and!; [done|done|by eapply db_Get_ok|done].
Qed.

(** ** Objects *)

(** The object [o], whose storage trie holds [m]. *)
Record obj_good (o : stateObject) (m : gmap bytes bytes) : Prop := {
  og_trie : holds (fst (getTrie o)) m;
  og_open : snd (getTrie o) = false;
  og_slots : slots m;
  og_err : dbErr o = false;
  og_dirty k v : dirtyStorage o !! k = Some v -> cachedStorage o !! k = Some v /\ slot k /\ Common.is_array 32 v;
  og_clean k v : cachedStorage o !! k = Some v -> dirtyStorage o !! k = None -> slot k -> slot_value m k = v;
  og_code : code_ok (code o) (Account_CodeHash (data o)) (dirtyCode o);
  og_data : data_ok (data o);
}.

(** An account that is stored completely. *)
Definition at_rest (d : Account) (m : gmap bytes bytes) : Prop :=
  held db_Get (Root d) m /\ known m /\ slots m /\ code_ok None (Account_CodeHash d) false.

Definition account_empty (d : Account) : bool :=
  (Nonce d =? 0) && (Big.Sign (Balance d) =? 0) && bool_decide (Account_CodeHash d = emptyCodeHash).

(** The object is what the trie has. *)
Record clean (M : gmap bytes bytes) (a : Address) (o : stateObject) (m : gmap bytes bytes) : Prop := {
  cl_entry : M !! a = Some (account_encoding (data o));
  cl_rest : at_rest (data o) m;
  cl_funds : balance_ok (data o);
  cl_used : account_empty (data o) = false;
  cl_storage : dirtyStorage o = ∅;
  cl_code : dirtyCode o = false;
  cl_suicided : suicided o = false;
  cl_deleted : deleted o = false;
}.

Definition live (M : gmap bytes bytes) (a : Address) (o : stateObject) : Prop :=
  exists m, obj_good o m /\ (onDirty o = true -> clean M a o m).

(** ** The invariant *)

Record sync0 (s : db) (M : gmap bytes bytes) : Prop := {
  sy_trie : holds (state_trie s) M;
  sy_accounts a e : M !! a = Some e -> named a /\ exists d, e = account_encoding d /\ data_ok d /\
    balance_ok d /\ account_empty d = false /\ (stateObjects s !! a = None -> exists m, at_rest d m);
  sy_live a o : stateObjects s !! a = Some o -> named a /\ live M a o /\
    (onDirty o = false -> a ∈ stateObjectsDirty s) /\
    (deleted o = true -> suicided o || obj_empty o = true /\ M !! a = None);
  sy_dirty a : a ∈ stateObjectsDirty s -> is_Some (stateObjects s !! a);
}.

Definition entry_good (s : db) (M : gmap bytes bytes) (e : journalEntry) : Prop :=
  match e with
  | createObjectChange a => M !! a = None
  | resetObjectChange a p => named a /\ live M a p /\ deleted p = false /\
      (onDirty p = false -> a ∈ stateObjectsDirty s) /\
      exists o, stateObjects s !! a = Some o /\ deleted o = false
  | suicideChange a _ _ | balanceChange a _ => named a
  | nonceChange a n => named a /\ 0 <= n < 2 ^ 64
  | storageChange a k v => named a /\ slot k /\ Common.is_array 32 v
  | codeChange a c h => named a /\ code_ok c h true
  | touchChange a _ prevDirty => named a /\ prevDirty = true
  | refundChange _ | addLogChange _ | addPreimageChange _ => True
  end.

(** The account whose creation an entry undoes was not reset before. *)
Fixpoint ordered (j : list journalEntry) : Prop :=
  match j with
  | [] => True
  | e :: j =>
      match e with createObjectChange a => forall p, resetObjectChange a p ∉ j | _ => True end /\ ordered j
  end.

Record sync (s : db) (M : gmap bytes bytes) : Prop := {
  sy_base : sync0 s M;
  sy_journal : Forall (entry_good s M) (journal s);
  sy_order : ordered (journal s);
}.

(** ** Operations on objects *)

Lemma obj_good_same o o' m : obj_good o m -> getTrie o' = getTrie o -> cachedStorage o' = cachedStorage o ->
  dirtyStorage o' = dirtyStorage o -> dbErr o' = dbErr o ->
  code_ok (code o') (Account_CodeHash (data o')) (dirtyCode o') -> data_ok (data o') -> obj_good o' m.
Proof. intros [] Ht Hc Hd He ??. split; rewrite ?Ht, ?Hc, ?Hd, ?He; done. Qed.

Lemma load_good d m : data_ok d -> at_rest d m -> obj_good (newObject d true) m.
Proof.
  intros Hd (Hh&Hk&Hs&Hc). destruct (NewSecure_held _ _ 0 Hh Hk) as (t&Ht&Hm).
  assert (Hg : getTrie (newObject d true) = (t, false)) by (unfold getTrie; simpl; by rewrite Ht).
  split; rewrite ?Hg; try done.
Qed.

Lemma new_good b : obj_good (newObject zeroAccount b) ∅.
Proof.
  assert (Hg : getTrie (newObject zeroAccount b) = (empty_trie, false)).
  { unfold getTrie. simpl. by rewrite NewSecure_zero. }
  split; rewrite ?Hg; try done; [apply holds_empty| |].
  - split; [apply Keccak256_size|by left].
  - split; [simpl; lia|apply Common.is_array_zeroHash|apply Keccak256_size].
Qed.

Lemma flags_good o m sui tou del dirty : obj_good o m -> obj_good (with_flags o sui tou del dirty) m.
Proof. intros Ho. eapply obj_good_same; [done..|apply Ho|apply Ho]. Qed.

Lemma balance_good o m b : obj_good o m -> obj_good (with_data o (data_with_balance (data o) b)) m.
Proof. intros Ho. eapply obj_good_same; [done..|apply Ho|]. by destruct (og_data _ _ Ho). Qed.

Lemma nonce_good o m n : obj_good o m -> 0 <= n < 2 ^ 64 -> obj_good (with_data o (data_with_nonce (data o) n)) m.
Proof. intros Ho Hn. eapply obj_good_same; [done..|apply Ho|]. by destruct (og_data _ _ Ho). Qed.

Lemma code_good o m c h : obj_good o m -> code_ok c h true ->
  obj_good (with_data (with_so_code o c true false) (data_with_codeHash (data (with_so_code o c true false)) h)) m.
Proof.
  intros Ho Hc. eapply obj_good_same; [done..| | |].
  - simpl. apply orb_false_r.
  - done.
  - destruct (og_data _ _ Ho). split; [done|done|]. apply Hc.
Qed.

Lemma storage_good o m k v : obj_good o m -> slot k -> Common.is_array 32 v ->
  obj_good (with_dirtyStorage (with_cached o k v) (<[k := v]> (dirtyStorage o))) m.
Proof.
  intros [] Hk Hv. split; try done; intros k' v'; simpl.
  - intros [[<- <-]|[Hne H]]%lookup_insert_Some; [by rewrite lookup_insert_eq|].
    rewrite lookup_insert_ne by done. by apply og_dirty0.
  - intros H [H1 Hne]%lookup_insert_None. rewrite lookup_insert_ne in H by done. by apply og_clean0.
Qed.

(** What reading does to an object. *)
Record quiet (o o' : stateObject) : Prop := {
  qu_data : data o' = data o;
  qu_dirtyStorage : dirtyStorage o' = dirtyStorage o;
  qu_dirtyCode : dirtyCode o' = dirtyCode o;
  qu_suicided : suicided o' = suicided o;
  qu_deleted : deleted o' = deleted o;
  qu_onDirty : onDirty o' = onDirty o;
}.

Lemma clean_quiet M a o o' m : quiet o o' -> clean M a o m -> clean M a o' m.
Proof. intros [E1 E2 E3 E4 E5 _] []. split; by rewrite ?E1, ?E2, ?E3, ?E4, ?E5. Qed.

Lemma GetState_quiet o k : quiet o (snd (obj_GetState o k)).
Proof. unfold obj_GetState. by repeat case_match. Qed.

Lemma Code_quiet o : quiet o (snd (obj_Code o)).
Proof. unfold obj_Code. by repeat case_match. Qed.

Lemma trie_good o m t e : obj_good o m -> getTrie o = (t, e) -> obj_good (with_trie o t false) m.
Proof.
  intros Ho Ht. pose proof (og_trie _ _ Ho) as H1. pose proof (og_open _ _ Ho) as H2. rewrite Ht in *. simpl in H2. subst.
  eapply obj_good_same; [done|by rewrite Ht|done|done| |apply Ho|apply Ho]. apply orb_false_r.
Qed.

Lemma GetState_good o m k : obj_good o m -> slot k ->
  obj_good (snd (obj_GetState o k)) m /\ Common.is_array 32 (fst (obj_GetState o k)).
Proof.
  intros Ho Hk. unfold obj_GetState. destruct (cachedStorage o !! k) as [v|] eqn:Ec.
  { split; [done|]. simpl. destruct (dirtyStorage o !! k) as [v'|] eqn:Ed.
    - destruct (og_dirty _ _ Ho k v' Ed) as (Hc&_&Hv). by simplify_eq.
    - rewrite <- (og_clean _ _ Ho k v Ec Ed Hk). apply slots_value. apply Ho. }
  pose proof (og_trie _ _ Ho) as H1. pose proof (og_open _ _ Ho) as H2.
  destruct (getTrie o) as [t e] eqn:Ht. simpl in H1, H2. subst e.
  rewrite (Get_holds t m k) by (done || apply Hk). destruct (slots_value m k (og_slots _ _ Ho)) as [-> Hv].
  simpl. pose proof (trie_good o m t false Ho Ht) as Hg. destruct (Common.EmptyHash _); simpl; [by split|].
  split; [|done]. destruct Hg. split; try done; simpl; intros k' v'.
  - intros Hd. destruct (og_dirty0 k' v' Hd) as (Hc&?&?). split_and!; [|done..].
    rewrite lookup_insert_ne; [done|]. intros <-. simpl in Hc. congruence.
  - intros [[<- <-]|[_ H]]%lookup_insert_Some ? ?; [done|by apply og_clean0].
Qed.

Lemma Code_good o m : obj_good o m -> obj_good (snd (obj_Code o)) m.
Proof.
  intros Ho. unfold obj_Code. destruct (code o) eqn:Ec; [done|]. case_bool_decide as Hh; [done|].
  pose proof (og_code _ _ Ho) as Hc. rewrite Ec in Hc. pose proof Hc as [_ [?|(c&Hg&_)]]; [done|].
  rewrite Hg. simpl. eapply obj_good_same; [done..| | |apply Ho].
  - simpl. apply orb_false_r.
  - simpl. by apply code_ok_load.
Qed.

(** ** Steps on the state *)

Lemma stored_sync s M a : sync0 s M -> named a ->
  match stored s a with
  | None => M !! a = None
  | Some d => M !! a = Some (account_encoding d) /\ data_ok d /\ balance_ok d /\ account_empty d = false /\
      (stateObjects s !! a = None -> exists m, at_rest d m)
  end.
Proof.
  intros Hs Ha. unfold stored. rewrite (Get_holds _ M) by (done || apply Hs).
  destruct (M !! a) as [e|] eqn:E; simpl; [|done].
  destruct (sy_accounts s M Hs a e E) as (_&d&->&Hd&Hf&Hu&Hr).
  destruct (encode_account d Hd Hf) as (_&->&_). pose proof (zlen_account_encoding d Hd Hf).
  destruct (zlen (account_encoding d) =? 0) eqn:Ez; [|done]. bool_to_prop. lia.
Qed.

(** Only these parts matter. *)
Lemma sync_frame s s' M : state_trie s' = state_trie s -> stateObjects s' = stateObjects s ->
  stateObjectsDirty s' = stateObjectsDirty s -> journal s' = journal s -> sync s M -> sync s' M.
Proof.
  intros E1 E2 E3 E4 [[] Hj Ho]. split; [split; rewrite ?E1, ?E2, ?E3; done| |by rewrite E4].
  rewrite E4. eapply Forall_impl; [done|]. intros [] He; simpl in *; rewrite ?E2, ?E3; done.
Qed.

(** Writing a live object. *)
Lemma put_sync s M a o d : sync s M -> named a -> live M a o -> deleted o = false ->
  (onDirty o = false -> a ∈ d) -> (d = stateObjectsDirty s \/ d = {[a]} ∪ stateObjectsDirty s) ->
  sync (set_objects s (<[a := o]> (stateObjects s)) d) M.
Proof.
  intros [[Ht Hacc Hlive Hdirty] Hj Ho] Ha Hl Hdel Hon Hd.
  assert (Hsub : stateObjectsDirty s ⊆ d) by (destruct Hd; set_solver).
  split; [split; simpl|simpl|done].
  - done.
  - intros b e He. destruct (Hacc b e He) as (?&x&?&?&?&?&Hr). split; [done|]. exists x. split_and!; try done.
    intros [Hn _]%lookup_insert_None. by apply Hr.
  - intros b p [[<- <-]|[_ Hp]]%lookup_insert_Some; [by rewrite Hdel|].
    destruct (Hlive b p Hp) as (?&?&Hm&?). split_and!; [done|done| |done]. intros ?. by apply Hsub, Hm.
  - intros b Hb. destruct (decide (a = b)) as [<-|Hne]; [rewrite lookup_insert_eq; by eexists|].
    rewrite lookup_insert_ne by done. apply Hdirty. destruct Hd; set_solver.
  - eapply Forall_impl; [done|]. intros [|b| | | | | | | | |] He; simpl in *; try done.
    destruct He as (?&?&?&Hm&q&Hq&?). split_and!; try done; [intros ?; by apply Hsub, Hm|].
    destruct (decide (a = b)) as [<-|Hne]; [exists o; by rewrite lookup_insert_eq|].
    exists q. by rewrite lookup_insert_ne.
Qed.

Lemma log_sync s M e : sync s M -> entry_good s M e ->
  match e with createObjectChange a => forall p, resetObjectChange a p ∉ journal s | _ => True end ->
  sync (log_change s e) M.
Proof. intros [[] Hj Ho] He Hc. split; [by split| |by split]. constructor; [by destruct e|]. eapply Forall_impl; [done|]. by intros []. Qed.

(** An object of the live set of [s] that is about to be changed. *)
Record held_object (s : db) (a : Address) (o : stateObject) : Prop := {
  ho_named : named a;
  ho_good : exists m, obj_good o m;
  ho_deleted : deleted o = false;
  ho_marked : onDirty o = false -> a ∈ stateObjectsDirty s;
}.

Lemma held_log s e a o : held_object s a o -> held_object (log_change s e) a o.
Proof. by intros []. Qed.

Lemma put_dirty_sync s M a o : sync s M -> held_object s a o -> sync (put_dirty s a o) M.
Proof.
  intros Hs [Ha [m Hm] Hd Hmk]. unfold put_dirty.
  assert (Hl : live M a (clear_onDirty o)) by (exists m; split; [by apply flags_good|done]).
  destruct (onDirty o) eqn:Eo.
  - apply (put_sync s M a (clear_onDirty o) ({[a]} ∪ stateObjectsDirty s)); try done; [set_solver|..]. by right.
  - apply put_sync; try done. by left.
Qed.

(** Reading an object puts it back. *)
Lemma quiet_sync s M a o o' : sync s M -> stateObjects s !! a = Some o -> deleted o = false -> quiet o o' ->
  (forall m, obj_good o m -> obj_good o' m) -> sync (setStateObject s a o') M.
Proof.
  intros Hs Ho Hd Hq Hg. destruct (sy_live s M (sy_base s M Hs) a o Ho) as (Ha&(m&Hm&Hc)&Hmk&_).
  pose proof Hq as [E1 E2 E3 E4 E5 E6]. apply put_sync; try done; [|by rewrite E5|by rewrite E6|by left].
  exists m. split; [by apply Hg|]. rewrite E6. intros Hon. eapply clean_quiet; [done|by apply Hc].
Qed.

Lemma get_sync s M a : sync s M -> named a ->
  let '(r, s') := getStateObject a s in
  sync s' M /\ journal s' = journal s /\
  match r with
  | Some o => stateObjects s' !! a = Some o /\ held_object s' a o /\ live M a o
  | None => s' = s /\ M !! a = None /\ forall o, stateObjects s !! a = Some o -> deleted o = true
  end.
Proof.
  intros Hs Ha. unfold getStateObject. destruct (stateObjects s !! a) as [o|] eqn:Eo.
  - destruct (sy_live s M (sy_base s M Hs) a o Eo) as (_&Hl&Hm&Hdel). destruct (deleted o) eqn:Ed.
    + split_and!; try done; [by apply Hdel|]. intros p Hp. congruence.
    + split_and!; try done. destruct Hl as (m&Hg&_). by split; [|exists m| |].
  - pose proof (stored_sync s M a (sy_base s M Hs) Ha) as Hst. destruct (stored s a) as [d|].
    + destruct Hst as (He&Hd&Hf&Hu&Hr). destruct (Hr Eo) as [m Hm].
      pose proof (load_good d m Hd Hm) as Hg.
      assert (Hl : live M a (newObject d true)) by (exists m; split; [done|intros _; by split]).
      split_and!; [|done|by simpl; rewrite lookup_insert_eq|split; simpl; try done; by exists m|done].
      apply put_sync; try done. by left.
    + by split_and!.
Qed.

Lemma no_reset s M a : sync s M -> (forall o, stateObjects s !! a = Some o -> deleted o = true) ->
  forall p, resetObjectChange a p ∉ journal s.
Proof.
  intros Hs Ha p Hp. pose proof (proj1 (Forall_forall _ _) (sy_journal s M Hs) _ Hp) as (_&_&_&_&o&Ho&Hd).
  rewrite (Ha o Ho) in Hd. done.
Qed.

Lemma create_sync s M a : sync s M -> named a ->
  let '(o, _, s') := createObject a s in
  sync s' M /\ held_object s' a o /\ live M a o.
Proof.
  intros Hs Ha. unfold createObject. pose proof (get_sync s M a Hs Ha) as Hg.
  destruct (getStateObject a s) as [prev s1]. destruct Hg as (Hs1&Hj&Hprev).
  set (o := clear_onDirty (newObject zeroAccount true)).
  assert (Hl : live M a o) by (exists ∅; split; [apply flags_good, new_good|done]).
  set (e := match prev with None => createObjectChange a | Some p => resetObjectChange a p end).
  set (s2 := set_objects s1 (<[a := o]> (stateObjects s1)) ({[a]} ∪ stateObjectsDirty s1)).
  assert (Hs2 : sync s2 M) by (apply put_sync; try done; [set_solver|by right]).
  change (sync (log_change s2 e) M /\ held_object (log_change s2 e) a o /\ live M a o).
  split_and!; [|split; simpl; try done; [exists ∅; apply flags_good, new_good|set_solver]|done].
  apply log_sync; [done| |]; unfold e; destruct prev as [p|]; simpl.
  - destruct Hprev as (_&Hh&Hp). split_and!; try done; [by destruct Hh|set_solver|].
    exists o. by rewrite lookup_insert_eq.
  - by destruct Hprev as (_&?&_).
  - done.
  - destruct Hprev as (->&_&Hd). by eapply no_reset.
Qed.

Lemma get_or_new_sync s M a : sync s M -> named a ->
  let '(o, s') := GetOrNewStateObject a s in
  sync s' M /\ held_object s' a o /\ live M a o.
Proof.
  intros Hs Ha. unfold GetOrNewStateObject. pose proof (get_sync s M a Hs Ha) as Hg.
  destruct (getStateObject a s) as [[o|] s1]; destruct Hg as (Hs1&_&Hg); [by destruct Hg as (_&?&?)|].
  pose proof (create_sync s1 M a Hs1 Ha) as Hc. by destruct (createObject a s1) as [[o p] s2].
Qed.

(** ** Methods *)

Definition keeps (f : db -> db) : Prop := forall s M, sync s M -> sync (f s) M.
Definition obj_keeps (f : db -> Address -> stateObject -> db) : Prop :=
  forall s M a o, sync s M -> held_object s a o -> live M a o -> sync (f s a o) M.

Lemma obj_method_keeps f a : named a -> obj_keeps f ->
  keeps (fun s => let '(o, s) := GetOrNewStateObject a s in f s a o).
Proof.
  intros Ha Hf s M Hs. pose proof (get_or_new_sync s M a Hs Ha) as Hg.
  destruct (GetOrNewStateObject a s) as [o s1]. destruct Hg as (?&?&?). by apply Hf.
Qed.

(** A change of the object that is logged. *)
Lemma logged_sync s M a o o' e : sync s M -> held_object s a o -> entry_good s M e ->
  match e with createObjectChange _ => False | _ => True end ->
  (forall m, obj_good o m -> obj_good o' m) -> onDirty o' = onDirty o -> deleted o' = deleted o ->
  sync (put_dirty (log_change s e) a o') M.
Proof.
  intros Hs [Ha [m Hm] Hd Hmk] He Hc Hg Ho Hdel. apply put_dirty_sync.
  - apply log_sync; [done|done|by destruct e].
  - split; [done|exists m; by apply Hg|by rewrite Hdel|]. rewrite Ho. exact Hmk.
Qed.

Lemma SetBalance_keeps n : obj_keeps (fun s a o => obj_SetBalance s a o n).
Proof.
  intros s M a o Hs Ho _. apply (logged_sync _ _ _ o); try done; [apply Ho|]. intros m. apply balance_good.
Qed.

Lemma touch_keeps : obj_keeps (fun s a o => if obj_empty o then obj_touch s a o else s).
Proof.
  intros s M a o Hs Ho (m&Hm&Hc). destruct (obj_empty o) eqn:Ee; [|done].
  assert (Hon : onDirty o = false).
  { destruct (onDirty o); [|done]. pose proof (cl_used _ _ _ _ (Hc eq_refl)) as Hu.
    unfold account_empty in Hu. unfold obj_empty in Ee. congruence. }
  apply (logged_sync _ _ _ o); try done; [split; [apply Ho|by rewrite Hon]|]. intros m'. apply flags_good.
Qed.

Lemma AddBalance_keeps n : obj_keeps (fun s a o => obj_AddBalance s a o n).
Proof.
  intros s M a o Hs Ho Hl. unfold obj_AddBalance. destruct (Big.Sign n =? 0); [by apply touch_keeps|by apply SetBalance_keeps].
Qed.

Lemma SubBalance_keeps n : obj_keeps (fun s a o => obj_SubBalance s a o n).
Proof.
  intros s M a o Hs Ho Hl. unfold obj_SubBalance. destruct (Big.Sign n =? 0); [done|by apply SetBalance_keeps].
Qed.

Lemma SetNonce_keeps n : 0 <= n < 2 ^ 64 -> obj_keeps (fun s a o => obj_SetNonce s a o n).
Proof.
  intros Hn s M a o Hs Ho _. apply (logged_sync _ _ _ o); try done.
  - split; [apply Ho|]. destruct (ho_good _ _ _ Ho) as [m Hm]. apply (og_data _ _ Hm).
  - intros m Hm. by apply nonce_good.
Qed.

Lemma SetState_keeps k v : slot k -> Common.is_array 32 v -> obj_keeps (fun s a o => obj_SetState s a o k v).
Proof.
  intros Hk Hv s M a o Hs Ho _. unfold obj_SetState. pose proof (GetState_quiet o k) as Hq.
  pose proof (fun m Hm => GetState_good o m k Hm Hk) as Hg. destruct (obj_GetState o k) as [pv o'] eqn:E. simpl in Hq, Hg.
  destruct Hq. apply (logged_sync _ _ _ o); try done.
  - split_and!; [apply Ho|done|]. destruct (ho_good _ _ _ Ho) as [m Hm]. by destruct (Hg m Hm).
  - intros m Hm. exact (storage_good o' m k v (proj1 (Hg m Hm)) Hk Hv).
Qed.

Lemma SetCode_keeps c : code_known c -> zlen c < 2 ^ 63 ->
  obj_keeps (fun s a o => obj_SetCode s a o (Keccak256Hash c) c).
Proof.
  intros Hk Hl s M a o Hs Ho _. unfold obj_SetCode. pose proof (Code_quiet o) as Hq. pose proof (Code_good o) as Hg.
  destruct (obj_Code o) as [b o'] eqn:E. simpl in Hq, Hg. destruct Hq.
  apply (logged_sync _ _ _ o); try done.
  - split; [apply Ho|]. destruct (ho_good _ _ _ Ho) as [m Hm]. eapply code_ok_dirty. apply (og_code _ _ (Hg m Hm)).
  - intros m Hm. apply code_good; [by apply Hg|]. split; [apply Keccak256_size|done].
Qed.

Lemma CreateAccount_keeps a : named a -> keeps (db_CreateAccount a).
Proof.
  intros Ha s M Hs. unfold db_CreateAccount. pose proof (create_sync s M a Hs Ha) as Hc.
  destruct (createObject a s) as [[o [p|]] s1]; destruct Hc as (Hs1&[Hn [m Hm] Hd Hmk]&_); [|done].
  apply put_dirty_sync; [done|]. split; [done| |done|done]. exists m. by apply balance_good.
Qed.

Lemma Suicide_keeps a : named a -> keeps (fun s => snd (db_Suicide a s)).
Proof.
  intros Ha s M Hs. unfold db_Suicide. pose proof (get_sync s M a Hs Ha) as Hg.
  destruct (getStateObject a s) as [[o|] s1]; destruct Hg as (Hs1&_&Hg); [|by destruct Hg as (->&_)].
  destruct Hg as (_&Ho&_). apply (logged_sync _ _ _ o); try done.
  intros m Hm. by apply balance_good, flags_good.
Qed.

Lemma read_keeps {A} a (f : option stateObject -> A) : named a ->
  keeps (fun s => snd (let '(o, s) := getStateObject a s in (f o, s))).
Proof.
  intros Ha s M Hs. pose proof (get_sync s M a Hs Ha) as Hg. destruct (getStateObject a s) as [o s1].
  by destruct Hg as (?&_).
Qed.

Lemma GetState_keeps a k : named a -> slot k -> keeps (fun s => snd (db_GetState a k s)).
Proof.
  intros Ha Hk s M Hs. unfold db_GetState. pose proof (get_sync s M a Hs Ha) as Hg.
  destruct (getStateObject a s) as [[o|] s1]; destruct Hg as (Hs1&_&Hg); [|by destruct Hg as (->&_)].
  destruct Hg as (Hl&Ho&_). pose proof (GetState_quiet o k) as Hq.
  pose proof (fun m Hm => proj1 (GetState_good o m k Hm Hk)) as Hgood. destruct (obj_GetState o k) as [v o'].
  eapply quiet_sync; [done|done|apply Ho|done|done].
Qed.

Lemma GetCode_keeps a : named a -> keeps (fun s => snd (db_GetCode a s)).
Proof.
  intros Ha s M Hs. unfold db_GetCode. pose proof (get_sync s M a Hs Ha) as Hg.
  destruct (getStateObject a s) as [[o|] s1]; destruct Hg as (Hs1&_&Hg); [|by destruct Hg as (->&_)].
  destruct Hg as (Hl&Ho&_). pose proof (Code_quiet o) as Hq. pose proof (Code_good o) as Hgood.
  destruct (obj_Code o) as [c o']. apply (sync_frame (setStateObject s1 a o')); try done.
  eapply quiet_sync; [done|done|apply Ho|done|done].
Qed.

Lemma AddPreimage_keeps h b : keeps (db_AddPreimage h b).
Proof.
  intros s M Hs. unfold db_AddPreimage. case_match; [done|].
  apply (sync_frame (log_change s (addPreimageChange h))); try done. by apply log_sync.
Qed.

Lemma AddRefund_keeps n : keeps (db_AddRefund n).
Proof.
  intros s M Hs. apply (sync_frame (log_change s (refundChange (db_refund s)))); try done. by apply log_sync.
Qed.

Lemma AddLog_keeps l : keeps (db_AddLog l).
Proof.
  intros s M Hs. apply (sync_frame (log_change s (addLogChange (thash s)))); try done. by apply log_sync.
Qed.

(** ** Undoing *)

Lemma pop_sync s M e j r n : sync s M -> journal s = e :: j ->
  sync (set_journal s j r n) M /\ entry_good (set_journal s j r n) M e /\
  match e with createObjectChange a => forall p, resetObjectChange a p ∉ j | _ => True end.
Proof.
  intros [[] Hj Ho] E. rewrite E in *. apply Forall_cons in Hj as [He Hj]. destruct Ho as [Ho1 Ho2].
  split_and!; [split; [by split| |done]|by destruct e|done]. eapply Forall_impl; [done|]. by intros [].
Qed.

Lemma undo_create_sync s M a : sync s M -> M !! a = None -> (forall p, resetObjectChange a p ∉ journal s) ->
  sync (set_objects s (delete a (stateObjects s)) (stateObjectsDirty s ∖ {[a]})) M.
Proof.
  intros [[Ht Hacc Hlive Hdirty] Hj Ho] Ha Hn. split; [split; simpl|simpl|done].
  - done.
  - intros b e He. destruct (Hacc b e He) as (?&x&?&?&?&?&Hr). split; [done|]. exists x. split_and!; try done.
    rewrite lookup_delete_ne by congruence. done.
  - intros b p [Hne Hp]%lookup_delete_Some. destruct (Hlive b p Hp) as (?&?&Hm&?). split_and!; try done. set_solver.
  - intros b Hb. rewrite lookup_delete_ne by set_solver. apply Hdirty. set_solver.
  - apply Forall_forall. intros e He. pose proof (proj1 (Forall_forall _ _) Hj e He) as Hg.
    destruct e as [|b| | | | | | | | |]; simpl in *; try done. destruct Hg as (?&?&?&Hm&q&Hq&?).
    assert (a <> b) by (intros <-; by eapply Hn). split_and!; try done; [set_solver|].
    exists q. by rewrite lookup_delete_ne.
Qed.

Lemma on_object_sync s M a k : sync s M -> named a ->
  (forall s o, sync s M -> held_object s a o -> stateObjects s !! a = Some o -> sync (k s o) M) ->
  forall s', on_object a s k = Some s' -> sync s' M.
Proof.
  intros Hs Ha Hk s'. unfold on_object. pose proof (get_sync s M a Hs Ha) as Hg.
  destruct (getStateObject a s) as [[o|] s1]; [|done]. intros [= <-]. destruct Hg as (Hs1&_&Hl&Ho&_). by apply Hk.
Qed.

Lemma change_sync s M a o o' : sync s M -> held_object s a o -> (forall m, obj_good o m -> obj_good o' m) ->
  onDirty o' = onDirty o -> deleted o' = deleted o -> sync (put_dirty s a o') M.
Proof.
  intros Hs [Ha [m Hm] Hd Hmk] Hg Ho Hdel. apply put_dirty_sync; [done|].
  split; [done|exists m; by apply Hg|by rewrite Hdel|]. rewrite Ho. exact Hmk.
Qed.

Lemma undo_touch_sync s M a p : sync s M -> named a -> forall s', undo (touchChange a p true) s = Some s' -> sync s' M.
Proof.
  intros Hs Ha s'. simpl. destruct (negb p && _); [|by intros [= <-]]. apply on_object_sync; [done|done|].
  intros s1 o Hs1 Ho Hl. destruct (sy_live _ _ (sy_base _ _ Hs1) a o Hl) as (_&(m&Hm&Hc)&Hmk&_).
  apply put_sync; try done; [|apply Ho|by left].
  exists m. split; [by apply flags_good|]. intros Hon. destruct (Hc Hon). by split.
Qed.

Lemma undo_sync s M e : sync s M -> entry_good s M e ->
  match e with createObjectChange a => forall p, resetObjectChange a p ∉ journal s | _ => True end ->
  forall s', undo e s = Some s' -> sync s' M.
Proof.
  intros Hs He Hc s' Hu. destruct e; cbn [undo entry_good] in *.
  - injection Hu as <-. by apply undo_create_sync.
  - injection Hu as <-. destruct He as (?&?&?&?&_). apply put_sync; try done. by left.
  - pose proof (get_sync s M account Hs He) as Hg. destruct (getStateObject account s) as [[o|] s1]; injection Hu as <-;
      destruct Hg as (Hs1&_&Hg); [|done]. destruct Hg as (_&Ho&_). apply (change_sync _ _ _ o); try done.
    intros m Hm. by apply balance_good, flags_good.
  - revert Hu. apply on_object_sync; [done|done|]. intros. eapply change_sync; try done. intros m Hm. by apply balance_good.
  - destruct He as [Ha Hn]. revert Hu. apply on_object_sync; [done|done|]. intros. eapply change_sync; try done. intros m Hm. by apply nonce_good.
  - destruct He as (Ha&Hk&Hv). revert Hu. apply on_object_sync; [done|done|]. intros s1 o ???. eapply change_sync; try done.
    intros m Hm. by apply (storage_good o m).
  - destruct He as (Ha&Hk). revert Hu. rewrite BytesToHash_id by apply Hk. apply on_object_sync; [done|done|]. intros.
    eapply change_sync; try done. intros m Hm. by apply code_good.
  - injection Hu as <-. by eapply sync_frame; [..|done].
  - cbn zeta in Hu. destruct (_ =? 1); [injection Hu as <-; by eapply sync_frame; [..|done]|].
    destruct (slice _ _ _); [|done]. injection Hu as <-. by eapply sync_frame; [..|done].
  - injection Hu as <-. by eapply sync_frame; [..|done].
  - destruct He as [Ha ->]. by eapply undo_touch_sync.
Qed.

Lemma undo_all_sync n : forall s M s', sync s M -> undo_all n s = Some s' -> sync s' M.
Proof.
  induction n as [|n IH]; intros s M s' Hs Hu; cbn [undo_all] in Hu; [by simplify_eq|].
  destruct (journal s) as [|e j] eqn:E; [by simplify_eq|].
  destruct (pop_sync s M e j (validRevisions s) (nextRevisionId s) Hs E) as (Hs1&He&Hc).
  destruct (undo e _) as [s1|] eqn:Eu; [|done]. eapply IH; [|exact Hu]. by eapply undo_sync.
Qed.

Lemma revert_sync id s M s' : sync s M -> db_RevertToSnapshot id s = Some s' -> sync s' M.
Proof.
  intros Hs. unfold db_RevertToSnapshot. case_match; [done|]. destruct (zget _ _) as [r|]; [|done]. simpl.
  case_match; [done|]. destruct (undo_all _ s) as [s1|] eqn:Eu; [|done]. intros [= <-].
  apply (sync_frame s1); try done. by eapply undo_all_sync.
Qed.
End sync.
