(* ===== verification/StateCommitOk.v ===== *)
(** Root hashes and commits are functions of the accounts.

    [state_map V M]: the map [M] that the account trie should hold for the accounts
    [V].  [IntermediateRoot] brings the trie to the map of the kept accounts;
    [CommitTo] also writes everything that is needed to open it again. *)
From S2P Require Import Prelude GoBig CommonMath CommonTypes Params Rlp VmTypes TrieTree StateSpec.
From S2P Require Import StateDB StateCommit StateDBLaws StateSync.

(** What a commit relies on: the writer, seen over the database it will be written
    to, only gains entries. *)
Class WriterView (W : Type) := {
  view : W -> bytes -> option bytes;
  consistent : W -> Prop;
}.

Class WriterOk `{CR : Crypto} `{TS : Tries} (W : Type) `{WR : !Writer W} `{WV : !WriterView W} : Prop := {
  view_grows w : consistent w -> grows db_Get (view w);
  Put_ok w c w' : consistent w -> code_known c -> dbw_Put (Keccak256 c) c w = Some w' ->
    consistent w' /\ grows (view w) (view w') /\ view w' (Keccak256 c) = Some c;
  CommitTo_held t m w : consistent w -> holds t m -> known m ->
    match Trie_CommitTo (t, w) with
    | (Done h, (_, w')) => held (view w') h m /\ consistent w' /\ grows (view w) (view w')
    | (Error e, (_, w')) => e = errWrite /\ consistent w' /\ grows (view w) (view w')
    | _ => False
    end;
}.

Lemma grows_refl g : grows g g.
Proof. by intros k v _. Qed.
#[export] Hint Resolve grows_refl : core.
Lemma grows_trans g1 g2 g3 : grows g1 g2 -> grows g2 g3 -> grows g1 g3.
Proof. intros H1 H2 k v Hk Hv. by apply H2, H1. Qed.

(** ** Specification *)
Section spec.
Context {CR : Crypto} {TT : TrieTheory}.

(** What a write of the state makes of an account. *)
Definition settled (x : option account) : option account :=
  match x with
  | Some o => if acc_suicided o || acc_empty o then None else Some o
  | None => None
  end.

(** Equal accounts, as far as the keys in use show. *)
Record same_account (x y : account) : Prop := {
  sa_nonce : acc_nonce x = acc_nonce y;
  sa_balance : acc_balance x = acc_balance y;
  sa_codeHash : acc_codeHash x = acc_codeHash y;
  sa_code : acc_code x = acc_code y;
  sa_storage k : slot k -> acc_storage x k = acc_storage y k;
  sa_suicided : acc_suicided x = acc_suicided y;
}.
Definition same (x y : option account) : Prop :=
  match x, y with
  | Some x, Some y => same_account x y
  | None, None => True
  | _, _ => False
  end.

#[export] Instance same_equivalence : Equivalence same.
Proof.
  split.
  - intros [x|]; [|done]. by split.
  - intros [x|] [y|] H; try done. destruct H as [H1 H2 H3 H4 H5 H6]. split; try done. intros. symmetry. by apply H5.
  - intros [x|] [y|] [z|] H H'; try done. destruct H as [H1 H2 H3 H4 H5 H6], H' as [G1 G2 G3 G4 G5 G6].
    split; try congruence. intros. rewrite H5 by done. by apply G5.
Qed.

#[export] Instance settled_proper : Proper (same ==> same) settled.
Proof.
  intros [x|] [y|] H; try done. simpl. destruct H as [H1 H2 H3 H4 H5 H6].
  unfold acc_empty. rewrite H1, H2, H3, H6. case_match; [done|]. by split.
Qed.

(** The map that holds the storage of the account. *)
Definition storage_map (x : account) (m : gmap bytes bytes) : Prop :=
  slots m /\ forall k, slot k -> slot_value m k = acc_storage x k.

Definition data_of (x : account) (root : Hash) : Account :=
  {| Nonce := acc_nonce x; Balance := acc_balance x; Root := root; Account_CodeHash := acc_codeHash x |}.

(** The entry of an account. *)
Definition entry_of (M : gmap bytes bytes) (a : Address) (x : option account) : Prop :=
  match x with
  | None => M !! a = None
  | Some x => exists h m, M !! a = Some (account_encoding (data_of x h)) /\ roots h m /\ storage_map x m
  end.

Definition state_map (V : Address -> option account) (M : gmap bytes bytes) : Prop :=
  (forall a, named a -> entry_of M a (V a)) /\ forall a e, M !! a = Some e -> named a.

Context {TTK : TrieTheoryOk}.

Lemma storage_map_unique x y m m' : same_account x y -> storage_map x m -> storage_map y m' -> m = m'.
Proof.
  intros Hxy [Hs Hv] [Hs' Hv']. apply slots_ext; [done|done|]. intros k Hk.
  rewrite Hv, Hv' by done. by apply Hxy.
Qed.

Lemma entry_of_unique M M' a x y : same x y -> entry_of M a x -> entry_of M' a y -> M !! a = M' !! a.
Proof.
  intros Hxy Hx Hy. destruct x as [x|], y as [y|]; try done; simpl in *; [|congruence].
  destruct Hx as (h&m&->&Hr&Hm), Hy as (h'&m'&->&Hr'&Hm').
  rewrite (storage_map_unique x y m m' Hxy Hm Hm') in Hr. rewrite (roots_unique h h' m' Hr Hr').
  destruct Hxy as [H1 H2 H3 _ _ _]. unfold data_of. by rewrite H1, H2, H3.
Qed.

(** Equal accounts, equal maps. *)
Lemma state_map_unique V V' M M' : (forall a, named a -> same (V a) (V' a)) ->
  state_map V M -> state_map V' M' -> M = M'.
Proof.
  intros HV [HM Hn] [HM' Hn']. apply map_eq. intros a.
  assert (Ha : named a -> M !! a = M' !! a) by (intros; by eapply entry_of_unique; eauto).
  destruct (M !! a) as [e|] eqn:E; [by apply Ha, (Hn a e)|]. destruct (M' !! a) as [e|] eqn:E'; [|done].
  by apply Ha, (Hn' a e).
Qed.
End spec.

(** ** Writing objects *)
Section finalise.
Context {CR : Crypto} {CK : CryptoOk} {BE : Backend} {BK : BackendOk} {TT : TrieTheory} {TTK : TrieTheoryOk}.
Context {TS : Tries} {TSK : TriesOk} {MO : MapOrder} {MK : MapOrderOk}.

Lemma storage_spec o m k : obj_good o m -> slot k ->
  storage_of o k = match dirtyStorage o !! k with Some v => v | None => slot_value m k end.
Proof.
  intros Ho Hk. unfold storage_of. destruct (dirtyStorage o !! k) as [v|] eqn:Ed.
  - by destruct (og_dirty _ _ Ho k v Ed) as (->&_).
  - destruct (cachedStorage o !! k) as [v|] eqn:Ec; [symmetry; by apply (og_clean _ _ Ho)|].
    by rewrite (Get_holds _ m k) by (apply Ho || apply Hk).
Qed.

(** Writing the dirty values of the keys [l]. *)
Lemma update_slots_holds (d : gmap Hash Hash) l : forall t m, holds t m -> slots m ->
  (forall k, k ∈ l -> exists v, d !! k = Some v /\ slot k /\ Common.is_array 32 v) ->
  exists m', holds (fold_left (fun t k => update_slot t k (default Common.zeroHash (d !! k))) l t) m' /\ slots m' /\
    (forall k, slot_value m' k = if bool_decide (k ∈ l) then default Common.zeroHash (d !! k) else slot_value m k) /\
    (l = [] -> m' = m).
Proof.
  induction l as [|k l IH]; intros t m Ht Hm Hl; [by exists m|]. cbn [fold_left].
  destruct (Hl k) as (v&Hv&Hk&Ha); [by left|]. rewrite Hv. cbn [default].
  destruct (IH (update_slot t k v) (put_slot m k v)) as (m'&Hm'&Hs'&Hv'&_).
  { by apply update_slot_holds. } { by apply slots_put. } { intros k' Hk'. apply Hl. by right. }
  exists m'. split_and!; [done|done| |done]. intros k'. rewrite Hv', slot_value_put by done.
  destruct (decide (k' = k)) as [->|Hne].
  - rewrite (bool_decide_eq_true_2 (k ∈ k :: l)) by by left. rewrite Hv. simpl. by repeat case_bool_decide.
  - rewrite (bool_decide_eq_false_2 (k' = k)) by done. f_equal.
    destruct (decide (k' ∈ l)) as [Hin|Hin]; [by rewrite !bool_decide_eq_true_2 by (done || by right)|].
    rewrite !bool_decide_eq_false_2; [done|..|done]. intros [?|?]%elem_of_cons; done.
Qed.

Lemma elem_of_order X k : k ∈ order X <-> k ∈ X.
Proof. rewrite (order_perm X). apply elem_of_elements. Qed.
Lemma NoDup_order X : NoDup (order X).
Proof. rewrite (order_perm X). apply NoDup_elements. Qed.

(** The storage trie after [updateTrie]. *)
Lemma updateTrie_good o m : obj_good o m -> exists m', obj_good (updateTrie o) m' /\
  holds (the_trie (updateTrie o)) m' /\ storage_map (abs_obj o) m' /\ quiet (with_dirtyStorage o ∅) (updateTrie o) /\
  dirtyStorage (updateTrie o) = ∅ /\ (dirtyStorage o = ∅ -> m' = m).
Proof.
  intros Ho. unfold updateTrie. pose proof (og_trie _ _ Ho) as Ht. pose proof (og_open _ _ Ho) as Hop.
  destruct (getTrie o) as [t e] eqn:Eg. simpl in Ht, Hop. subst e.
  destruct (update_slots_holds (dirtyStorage o) (order (dom (dirtyStorage o))) t m Ht (og_slots _ _ Ho)) as (m'&Hm'&Hs'&Hv&Hnil).
  { intros k Hk. apply elem_of_order, elem_of_dom in Hk as [v Hk]. exists v. by destruct (og_dirty _ _ Ho k v Hk) as (_&?&?). }
  set (t' := fold_left _ _ _) in *. exists m'.
  assert (Hval : forall k, slot k -> slot_value m' k = storage_of o k).
  { intros k Hk. rewrite Hv, (storage_spec o m) by done. destruct (dirtyStorage o !! k) as [v|] eqn:Ed.
    - rewrite bool_decide_eq_true_2; [done|]. apply elem_of_order, elem_of_dom. by eexists.
    - rewrite bool_decide_eq_false_2; [done|]. rewrite elem_of_order, not_elem_of_dom. done. }
  split_and!; [|done|split; [done|apply Hval]|done|done|].
  - split; simpl; try done; try apply Ho.
    + rewrite orb_false_r. apply Ho.
    + intros k v Hc _ Hk. rewrite Hval by done. unfold storage_of. by rewrite Hc.
  - intros Hd. apply Hnil. rewrite Hd, dom_empty_L. apply Permutation_nil. by rewrite (order_perm ∅), elements_empty.
Qed.

Lemma updateTrie_same o m : obj_good o m -> same_account (abs_obj (updateTrie o)) (abs_obj o).
Proof.
  intros Ho. destruct (updateTrie_good o m Ho) as (m'&Ho'&_&[_ Hv]&Hq&Hd&_). pose proof Hq as [E1 _ _ E4 _ _].
  assert (Hc : code (updateTrie o) = code o) by (unfold updateTrie; by destruct (getTrie o)).
  split; simpl; rewrite ?E1, ?Hc; try done. intros k Hk. rewrite (storage_spec _ m') by done. rewrite Hd, lookup_empty. by apply Hv.
Qed.

Definition funds (s : db) : Prop := forall a x, named a -> db_account s a = Some x -> 0 <= acc_balance x < 2 ^ 256.

Lemma acc_empty_obj o : acc_empty (abs_obj o) = obj_empty o.
Proof.
  unfold acc_empty, obj_empty, Big.Sign. simpl. f_equal. f_equal.
  destruct (Balance (data o)); done.
Qed.

Lemma data_of_obj o : data_of (abs_obj o) (Root (data o)) = data o.
Proof. unfold data_of. simpl. by destruct (data o). Qed.

(** Accounts that are not marked dirty are in the trie. *)
Lemma resting s M a : sync0 s M -> named a -> a ∉ stateObjectsDirty s ->
  settled (db_account s a) = db_account s a /\ entry_of M a (db_account s a).
Proof.
  intros Hs Ha Hd. unfold db_account. destruct (stateObjects s !! a) as [o|] eqn:Eo.
  - destruct (sy_live s M Hs a o Eo) as (_&(m&Hm&Hc)&Hmk&_). destruct (onDirty o); [|by destruct Hd; apply Hmk].
    destruct (Hc eq_refl) as [He Hr Hf Hu Hst Hco Hsu Hde]. rewrite Hde. simpl.
    rewrite Hsu, acc_empty_obj. unfold obj_empty, account_empty in *. rewrite Hu. split; [done|].
    destruct Hr as (Hh&Hk&Hs'&_). exists (Root (data o)), m. split_and!; [by rewrite data_of_obj|by eapply held_roots|].
    split; [done|]. intros k Hk'. simpl. rewrite (storage_spec o m) by done. by rewrite Hst.
  - pose proof (stored_sync s M a Hs Ha) as Hst. destruct (stored s a) as [d|]; simpl; [|done].
    destruct Hst as (He&Hd'&Hf&Hu&Hr). destruct (Hr Eo) as [m Hm].
    pose proof (acc_empty_obj (newObject d true)) as Hem. unfold obj_empty, account_empty in *. simpl in Hem. rewrite Hem, Hu.
    split; [done|]. exists (Root d), m. split_and!; [by rewrite (data_of_obj (newObject d true) : _ (Root d) = _)|by eapply held_roots, Hm|].
    split; [apply Hm|]. intros k Hk'. simpl. by rewrite (storage_spec _ m) by (done || by apply load_good).
Qed.

Lemma live_other M M' a o : M' !! a = M !! a -> live M a o -> live M' a o.
Proof. intros E (m&Hm&Hc). exists m. split; [done|]. intros Ho. destruct (Hc Ho). split; try done. by rewrite E. Qed.

(** Writing an object and its entry. *)
Lemma write_sync0 s M a o M' t : sync0 s M -> named a -> a ∈ stateObjectsDirty s -> live M' a o ->
  (deleted o = true -> suicided o || obj_empty o = true /\ M' !! a = None) -> holds t M' ->
  (forall b, b <> a -> M' !! b = M !! b) ->
  (forall e, M' !! a = Some e -> exists d, e = account_encoding d /\ data_ok d /\ balance_ok d /\ account_empty d = false) ->
  sync0 (set_trie (setStateObject s a o) t) M'.
Proof.
  intros [Ht Hacc Hlive Hdirty] Ha Hin Hl Hdel Ht' Hother He. split; simpl.
  - done.
  - intros b e Hb. destruct (decide (b = a)) as [->|Hne].
    + split; [done|]. destruct (He e Hb) as (d&?&?&?&?). exists d. split_and!; try done. by rewrite lookup_insert_eq.
    + rewrite Hother in Hb by done. rewrite lookup_insert_ne by done. by apply Hacc.
  - intros b p [[<- <-]|[Hne Hp]]%lookup_insert_Some; [by split_and!|].
    destruct (Hlive b p Hp) as (?&?&?&?). rewrite Hother by done. split_and!; try done.
    eapply live_other; [|done]. by apply Hother.
  - intros b Hb. destruct (decide (b = a)) as [->|Hne]; [rewrite lookup_insert_eq; by eexists|].
    rewrite lookup_insert_ne by done. by apply Hdirty.
Qed.

Lemma db_account_other s M s' M' b : sync0 s M -> sync0 s' M' -> named b -> stateObjects s' !! b = stateObjects s !! b ->
  M' !! b = M !! b -> db_account s' b = db_account s b.
Proof.
  intros Hs Hs' Hb Ho E. unfold db_account. rewrite Ho. case_match; [done|]. f_equal. unfold stored.
  rewrite (Get_holds _ M'), (Get_holds _ M), E by (done || apply Hs || apply Hs'). done.
Qed.

(** The effect of a step on the account [a]. *)
Record wrote (s : db) (M : gmap bytes bytes) (a : Address) (s' : db) (M' : gmap bytes bytes) : Prop := {
  wr_sync : sync0 s' M';
  wr_entry : entry_of M' a (settled (db_account s a));
  wr_account : same (db_account s' a) (settled (db_account s a));
  wr_map b : b <> a -> M' !! b = M !! b;
  wr_objects b : b <> a -> stateObjects s' !! b = stateObjects s !! b;
  wr_dirty : stateObjectsDirty s' = stateObjectsDirty s;
}.

Lemma settled_gone o : suicided o || obj_empty o = true -> settled (if deleted o then None else Some (abs_obj o)) = None.
Proof. intros H. destruct (deleted o); [done|]. simpl. by rewrite acc_empty_obj, H. Qed.

Lemma not_clean M a o : live M a o -> suicided o || obj_empty o = true -> onDirty o = false.
Proof.
  intros (m&_&Hc) H. destruct (onDirty o); [|done]. destruct (Hc eq_refl) as [_ _ _ Hu _ _ Hs _].
  rewrite Hs in H. simpl in H. unfold obj_empty, account_empty in *. congruence.
Qed.

Lemma delete_wrote s M a o : sync0 s M -> stateObjects s !! a = Some o -> a ∈ stateObjectsDirty s ->
  suicided o || obj_empty o = true -> wrote s M a (deleteStateObject s a o) (delete a M).
Proof.
  intros Hs Ho Hin Hg. destruct (sy_live s M Hs a o Ho) as (Ha&Hl&_&_).
  pose proof (not_clean M a o Hl Hg) as Hon. destruct Hl as (m&Hm&_).
  split; simpl.
  - apply (write_sync0 s M); try done.
    + exists m. split; [by apply flags_good|]. simpl. by rewrite Hon.
    + intros _. split; [done|apply lookup_delete_eq].
    + apply Delete_holds; [apply Hs|done].
    + intros b Hb. by rewrite lookup_delete_ne.
    + intros e. by rewrite lookup_delete_eq.
  - unfold db_account. rewrite Ho, settled_gone by done. apply lookup_delete_eq.
  - unfold db_account. simpl. rewrite lookup_insert_eq, Ho, settled_gone by done. done.
  - intros b Hb. by rewrite lookup_delete_ne.
  - intros b Hb. by rewrite lookup_insert_ne.
  - done.
Qed.

Lemma updateRoot_good o m : obj_good o m -> exists m', obj_good (updateRoot o) m' /\
  roots (Root (data (updateRoot o))) m' /\ storage_map (abs_obj o) m' /\
  (dirtyStorage o = ∅ -> m' = m) /\ same_account (abs_obj (updateRoot o)) (abs_obj o).
Proof.
  intros Ho. destruct (updateTrie_good o m Ho) as (m'&Ho'&Ht&Hsm&Hq&Hd&Hnil). exists m'.
  pose proof (updateTrie_same o m Ho) as Hsame. unfold updateRoot. set (o' := updateTrie o) in *.
  pose proof (Hash_holds _ _ Ht) as Hr.
  assert (Hst : exists t, so_trie o' = Some t) by (unfold o', updateTrie; destruct (getTrie o); by eexists).
  destruct Hst as [t Hst].
  assert (Hget : getTrie (with_data o' (data_with_root (data o') (Trie_Hash (the_trie o')))) = getTrie o').
  { unfold getTrie. simpl. by rewrite Hst. }
  split_and!; [|done|done|done|].
  - eapply obj_good_same; [done|done|done|done|done|apply Ho'|]. destruct (og_data _ _ Ho').
    split; [done|by eapply roots_array|done].
  - destruct Hsame as [S1 S2 S3 S4 S5 S6]. split; try done. intros k Hk. rewrite <- S5 by done.
    simpl. unfold storage_of. by rewrite Hget.
Qed.

#[local] Arguments updateRoot : simpl never.

Lemma updateRoot_quiet o : data_with_root (data (updateRoot o)) (Root (data o)) = data o /\
  dirtyStorage (updateRoot o) = ∅ /\ dirtyCode (updateRoot o) = dirtyCode o /\ suicided (updateRoot o) = suicided o /\
  deleted (updateRoot o) = deleted o /\ onDirty (updateRoot o) = onDirty o.
Proof. unfold updateRoot, updateTrie. destruct (getTrie o). simpl. by destruct (data o). Qed.

(** An object that is not removed is not deleted, and shows its account. *)
Lemma present s M a o : sync0 s M -> stateObjects s !! a = Some o -> suicided o || obj_empty o = false ->
  deleted o = false /\ db_account s a = Some (abs_obj o) /\ settled (db_account s a) = Some (abs_obj o).
Proof.
  intros Hs Ho Hg. destruct (sy_live s M Hs a o Ho) as (_&_&_&Hdel).
  assert (Hd : deleted o = false) by (destruct (deleted o); [by destruct (Hdel eq_refl); congruence|done]).
  unfold db_account. rewrite Ho, Hd. simpl. by rewrite acc_empty_obj, Hg.
Qed.

Lemma updateRoot_clean M a o m m' : clean M a o m -> m' = m ->
  roots (Root (data (updateRoot o))) m' -> data (updateRoot o) = data o.
Proof.
  intros Hc -> Hr. destruct (cl_rest _ _ _ _ Hc) as (Hh&_).
  destruct (updateRoot_quiet o) as (E&_). rewrite <- E.
  rewrite <- (roots_unique _ _ _ Hr (held_roots _ _ _ Hh)). by destruct (data (updateRoot o)).
Qed.

Lemma update_wrote s M a o : sync0 s M -> funds s -> stateObjects s !! a = Some o -> a ∈ stateObjectsDirty s ->
  suicided o || obj_empty o = false ->
  exists s' M', updateStateObject (setStateObject s a (updateRoot o)) a (updateRoot o) = Some s' /\ wrote s M a s' M'.
Proof.
  intros Hs Hf Ho Hin Hg. destruct (sy_live s M Hs a o Ho) as (Ha&(m&Hm&Hc)&_&_).
  destruct (present s M a o Hs Ho Hg) as (Hdel&Hacc&Hset).
  destruct (updateRoot_good o m Hm) as (m'&Hm'&Hr&Hsm&Hnil&Hsame).
  destruct (updateRoot_quiet o) as (Edata&Eds&Edc&Esu&Ede&Eon). set (o' := updateRoot o) in *.
  assert (Heq : Nonce (data o') = Nonce (data o) /\ Balance (data o') = Balance (data o) /\
    Account_CodeHash (data o') = Account_CodeHash (data o)) by by destruct Hsame.
  destruct Heq as (En&Eb&Ec).
  assert (Hfunds : balance_ok (data o')) by (unfold balance_ok; rewrite Eb; by apply (Hf a _ Ha Hacc)).
  assert (Hused : account_empty (data o') = false).
  { apply orb_false_iff in Hg as [_ Hg]. rewrite <- Hg. unfold account_empty, obj_empty. by rewrite En, Eb, Ec. }
  assert (Hclean : onDirty o = true -> clean (<[a := account_encoding (data o')]> M) a o' m').
  { intros Hon. pose proof (Hc Hon) as Hcl. pose proof (Hnil (cl_storage _ _ _ _ Hcl)) as Hmm.
    pose proof (updateRoot_clean M a o m m' Hcl Hmm Hr) as Edd. subst m'. destruct Hcl.
    fold o' in Edd. split; rewrite ?Edd, ?Edc, ?Esu, ?Ede; try done. by rewrite lookup_insert_eq. }
  clearbody o'. destruct (encode_account (data o') (og_data _ _ Hm') Hfunds) as (He&_&Hv).
  unfold updateStateObject. rewrite He. exists (set_trie (setStateObject s a o') (Trie_Update a (account_encoding (data o')) (state_trie s))).
  exists (<[a := account_encoding (data o')]> M). split; [done|]. split; simpl.
  - apply (write_sync0 s M); try done.
    + exists m'. split; [done|]. by rewrite Eon.
    + rewrite Ede, Hdel. done.
    + apply Update_holds; [apply Hs|done|done].
    + intros b Hb. by rewrite lookup_insert_ne.
    + intros e. rewrite lookup_insert_eq. intros [= <-]. exists (data o'). split_and!; try done. apply Hm'.
  - rewrite Hset. exists (Root (data o')), m'. rewrite lookup_insert_eq. split_and!; [|done|done]. do 2 f_equal.
    unfold data_of. simpl. rewrite <- En, <- Eb, <- Ec. by destruct (data o').
  - unfold db_account at 1. simpl. rewrite lookup_insert_eq, Ede, Hdel, Hset. done.
  - intros b Hb. by rewrite lookup_insert_ne.
  - intros b Hb. by rewrite lookup_insert_ne.
  - done.
Qed.

Lemma finalise_object_wrote s M a : sync0 s M -> funds s -> a ∈ stateObjectsDirty s ->
  exists s' M', finalise_object a s = Some s' /\ wrote s M a s' M'.
Proof.
  intros Hs Hf Hin. destruct (sy_dirty s M Hs a Hin) as [o Ho]. unfold finalise_object. rewrite Ho. simpl.
  destruct (suicided o || obj_empty o) eqn:Hg; [|by apply update_wrote].
  exists (deleteStateObject s a o), (delete a M). split; [done|]. by apply delete_wrote.
Qed.

Lemma settled_some x y : settled x = Some y -> x = Some y.
Proof. destruct x as [x|]; simpl; [|done]. by case_match. Qed.

Lemma wrote_funds s M a s' M' : sync0 s M -> funds s -> named a -> wrote s M a s' M' -> funds s'.
Proof.
  intros Hs Hf Ha [Hs' _ Hacc Hm Ho _] b x Hb Hx. destruct (decide (b = a)) as [->|Hne].
  - rewrite Hx in Hacc. destruct (settled (db_account s a)) as [y|] eqn:Ey; [|done].
    apply settled_some in Ey. destruct Hacc as [_ -> _ _ _ _]. by eapply Hf.
  - rewrite (db_account_other s M s' M' b) in Hx by auto. by eapply Hf.
Qed.

Lemma finalise_all_ok l : forall s M, sync0 s M -> funds s -> NoDup l -> (forall a, a ∈ l -> a ∈ stateObjectsDirty s) ->
  exists s' M', finalise_all l s = Some s' /\ sync0 s' M' /\ stateObjectsDirty s' = stateObjectsDirty s /\
    forall b, named b ->
      (b ∈ l -> entry_of M' b (settled (db_account s b)) /\ same (db_account s' b) (settled (db_account s b))) /\
      (b ∉ l -> M' !! b = M !! b /\ db_account s' b = db_account s b).
Proof.
  induction l as [|a l IH]; intros s M Hs Hf Hnd Hl.
  { exists s, M. split_and!; try done. intros b _. split; [|done]. by intros ?%not_elem_of_nil. }
  apply NoDup_cons in Hnd as [Hnot Hnd]. assert (Hin : a ∈ stateObjectsDirty s) by (apply Hl; by left).
  destruct (finalise_object_wrote s M a Hs Hf Hin) as (s1&M1&E1&Hw).
  assert (Ha : named a) by (destruct (sy_dirty s M Hs a Hin) as [o Ho]; by destruct (sy_live s M Hs a o Ho)).
  pose proof (wrote_funds s M a s1 M1 Hs Hf Ha Hw) as Hf1. destruct Hw as [Hs1 He Hacc Hm Ho Hd].
  destruct (IH s1 M1 Hs1 Hf1 Hnd) as (s'&M'&E'&Hs'&Hd'&Hb).
  { intros b Hb. rewrite Hd. apply Hl. by right. }
  exists s', M'. cbn [finalise_all]. rewrite E1. split_and!; [done|done|congruence|]. intros b Hnb.
  destruct (Hb b Hnb) as [Hb1 Hb2]. destruct (decide (b = a)) as [->|Hne].
  - destruct (Hb2 Hnot) as [EM Eacc]. split; [|intros Hx; destruct Hx; by left]. intros _.
    rewrite Eacc. split; [|done]. unfold entry_of in *. by rewrite EM.
  - assert (Eacc : db_account s1 b = db_account s b) by (eapply db_account_other; eauto).
    rewrite Eacc, Hm in * by done. split; intros Hx; [apply Hb1|apply Hb2].
    + by apply elem_of_cons in Hx as [?|?].
    + intros ?. apply Hx. by right.
Qed.

Lemma clear_sync s M : sync0 s M -> sync (clearJournalAndRefund s) M.
Proof. intros []. split; [by split|constructor|done]. Qed.

(** ** IntermediateRoot *)
Lemma IntermediateRoot_ok s M : sync s M -> funds s ->
  exists h s' M', IntermediateRoot s = Some (h, s') /\ sync s' M' /\ roots h M' /\ funds s' /\
    state_map (fun a => settled (db_account s a)) M' /\
    forall a, named a -> same (db_account s' a) (settled (db_account s a)).
Proof.
  intros [Hs _ _] Hf. unfold IntermediateRoot.
  destruct (finalise_all_ok (order (stateObjectsDirty s)) s M Hs Hf (NoDup_order _)) as (s'&M'&->&Hs'&Hd&Hb).
  { intros a. apply elem_of_order. }
  assert (Hsame : forall a, named a -> same (db_account s' a) (settled (db_account s a))).
  { intros a Ha. destruct (Hb a Ha) as [Hb1 Hb2]. destruct (decide (a ∈ stateObjectsDirty s)) as [Hin|Hin].
    - by apply Hb1, elem_of_order.
    - destruct Hb2 as [_ ->]; [by rewrite elem_of_order|]. by destruct (resting s M a Hs Ha Hin) as [-> _]. }
  simpl. eexists _, _, M'. split_and!; [done|by apply clear_sync|apply Hash_holds, Hs'| | |exact Hsame].
  - intros a x Ha Hx. change (db_account s' a = Some x) in Hx. specialize (Hsame a Ha). rewrite Hx in Hsame.
    destruct (settled (db_account s a)) as [y|] eqn:Ey; [|done]. apply settled_some in Ey.
    destruct Hsame as [_ -> _ _ _ _]. by eapply Hf.
  - split; [|intros a e He; by destruct (sy_accounts s' M' Hs' a e He)]. intros a Ha.
    destruct (Hb a Ha) as [Hb1 Hb2]. destruct (decide (a ∈ stateObjectsDirty s)) as [Hin|Hin]; [by apply Hb1, elem_of_order|].
    destruct Hb2 as [E _]; [by rewrite elem_of_order|]. destruct (resting s M a Hs Ha Hin) as [-> He].
    unfold entry_of in *. by rewrite E.
Qed.
End finalise.

(** ** Opening a state *)
Section reopen.
Context {CR : Crypto} {CK : CryptoOk} {TT : TrieTheory}.

(** The code of an account can be read. *)
Definition code_in (g : bytes -> option bytes) (h : Hash) (c : bytes) : Prop :=
  h = emptyCodeHash /\ c = [] \/ g h = Some c /\ h = Keccak256 c /\ h <> emptyCodeHash /\ code_known c.

(** The database has the entry, the storage and the code of the account. *)
Definition durable (g : bytes -> option bytes) (M : gmap bytes bytes) (a : Address) (x : option account) : Prop :=
  match x with
  | None => M !! a = None
  | Some x => exists h m, M !! a = Some (account_encoding (data_of x h)) /\ held g h m /\ known m /\
      storage_map x m /\ code_in g (acc_codeHash x) (acc_code x) /\
      data_ok (data_of x h) /\ balance_ok (data_of x h) /\ acc_suicided x = false /\ acc_empty x = false
  end.

(** The database stores the accounts [V] under the root hash. *)
Definition state_stored (g : bytes -> option bytes) (root : Hash) (V : Address -> option account) : Prop :=
  exists M, held g root M /\ known M /\ (forall a, named a -> durable g M a (V a)) /\ forall a e, M !! a = Some e -> named a.

Context {TTK : TrieTheoryOk}.

Lemma durable_entry g M a x : durable g M a x -> entry_of M a x.
Proof.
  destruct x as [x|]; [|done]. intros (h&m&He&Hh&_&Hm&_). exists h, m. split_and!; [done|by eapply held_roots|done].
Qed.

Lemma durable_grows g g' M a x : grows g g' -> durable g M a x -> durable g' M a x.
Proof.
  intros Hg. destruct x as [x|]; [|done]. intros (h&m&He&Hh&Hk&Hm&Hc&Hr). exists h, m. split_and!; try done.
  - by eapply held_grows.
  - destruct Hc as [?|(Hx&?&?&?)]; [by left|right]. split_and!; try done. apply Hg; [|done]. by destruct Hr as [[_ _ [? _]] _].
  - apply Hr. - apply Hr. - apply Hr. - apply Hr.
Qed.

Context {BE : Backend} {BK : BackendOk} {TS : Tries} {TSK : TriesOk}.

Lemma open_account s M a x : holds (state_trie s) M -> stateObjects s = ∅ -> named a -> durable db_Get M a x ->
  same (db_account s a) x.
Proof.
  intros Ht Ho Ha Hx. unfold db_account. rewrite Ho, lookup_empty. unfold stored.
  rewrite (Get_holds _ M) by done. destruct x as [x|]; simpl in Hx; [|by rewrite Hx].
  destruct Hx as (h&m&->&Hh&Hk&[Hs Hv]&Hc&Hd&Hf&Hsu&_). simpl.
  destruct (encode_account _ Hd Hf) as (_&->&_). pose proof (zlen_account_encoding _ Hd Hf).
  destruct (zlen _ =? 0) eqn:Ez; [bool_to_prop; lia|]. simpl. split; simpl; try done.
  - destruct Hc as [[-> ->]|(Hg&_&Hne&_)]; [by rewrite bool_decide_eq_true_2|].
    rewrite bool_decide_eq_false_2 by done. by rewrite Hg.
  - intros k Hk'. rewrite <- Hv by done. unfold storage_of, getTrie. simpl.
    destruct (NewSecure_held h m 0 Hh Hk) as (t&->&Hm). simpl. by rewrite (Get_holds t m k) by (done || apply Hk').
Qed.

Lemma account_empty_of x h : account_empty (data_of x h) = acc_empty x.
Proof. unfold account_empty, acc_empty, Big.Sign. simpl. f_equal. f_equal. by destruct (acc_balance x). Qed.

Lemma New_reads root V : state_stored db_Get root V ->
  exists s, New root = Some s /\ forall a, named a -> same (db_account s a) (V a).
Proof.
  intros (M&Hh&Hk&HV&_). unfold New. destruct (NewSecure_held root M MaxTrieCacheGen Hh Hk) as (t&->&Hm). simpl.
  eexists. split; [done|]. intros a Ha. eapply open_account; [done|done|done|by apply HV].
Qed.

(** [New] on a stored state. *)
Lemma New_sync root V : state_stored db_Get root V ->
  exists s M, New root = Some s /\ sync s M /\ forall a, named a -> same (db_account s a) (V a).
Proof.
  intros (M&Hh&Hk&HV&Hn). unfold New. destruct (NewSecure_held root M MaxTrieCacheGen Hh Hk) as (t&->&Hm). simpl.
  eexists _, M. split_and!; [done| |].
  - split; [split; simpl|constructor|done]; [done| |done|set_solver]. intros a e He.
    pose proof (Hn a e He) as Ha. split; [done|]. specialize (HV a Ha). destruct (V a) as [x|]; simpl in HV; [|congruence].
    destruct HV as (h&m&He'&Hh'&Hk'&[Hs _]&Hc&Hd&Hf&_&Hem). rewrite He in He'. simplify_eq.
    exists (data_of x h). rewrite account_empty_of. split_and!; try done. intros _. exists m. split_and!; try done.
    split; [apply Hd|]. destruct Hc as [[? _]|(?&?&_&?)]; [by left|right]. by eexists.
  - intros a Ha. eapply open_account; [done|done|done|by apply HV].
Qed.
End reopen.

(** ** CommitTo *)
Section commit.
Context {CR : Crypto} {CK : CryptoOk} {BE : Backend} {BK : BackendOk} {TT : TrieTheory} {TTK : TrieTheoryOk}.
Context {TS : Tries} {TSK : TriesOk} {MO : MapOrder} {MK : MapOrderOk}.
Context {W : Type} {WR : Writer W} {WV : WriterView W} {WK : WriterOk W}.

(** What a part of a commit returns: [P], or an error of the writer. *)
Definition writes {St A} (w : W) (r : outcome commitErr A * (St * W)) (P : A -> St -> W -> Prop) : Prop :=
  match r with
  | (Done x, (s', w')) => P x s' w' /\ consistent w' /\ grows (view w) (view w')
  | (Error e, (_, w')) => e = errWrite /\ consistent w' /\ grows (view w) (view w')
  | _ => False
  end.

Lemma writes_mono {St A} w w1 (r : outcome commitErr A * (St * W)) P Q : grows (view w) (view w1) ->
  (forall x s' w', P x s' w' -> grows (view w1) (view w') -> Q x s' w') -> writes w1 r P -> writes w r Q.
Proof.
  intros Hg HPQ. unfold writes. destruct r as [[x|e| |] [s' w']]; try done.
  - intros (?&?&?). split_and!; [by apply HPQ|done|by eapply grows_trans].
  - intros (?&?&?). split_and!; [done|done|by eapply grows_trans].
Qed.

(** The code can be read after it was written. *)
Lemma code_ok_in o g : code_ok (code o) (Account_CodeHash (data o)) (dirtyCode o) -> grows db_Get g ->
  (forall c, code o = Some c -> dirtyCode o = true -> g (Account_CodeHash (data o)) = Some c) ->
  code_in g (Account_CodeHash (data o)) (code_of (code o) (Account_CodeHash (data o))).
Proof.
  intros [Ha Hc] Hg Hw. unfold code_in, code_of. destruct (code o) as [c|].
  - destruct Hc as (Hh&Hk&_&Hd). destruct (decide (Account_CodeHash (data o) = emptyCodeHash)) as [He|He].
    + left. split; [done|]. apply code_inj; [done|apply code_known_nil|]. rewrite <- Hh. by rewrite He.
    + right. split_and!; try done. destruct (dirtyCode o); [by apply Hw|]. by apply Hg; [apply Ha|apply Hd].
  - case_bool_decide as He; [by left|]. destruct Hc as [?|(c&Hc&Hk&Hh)]; [done|]. right. rewrite Hc. split_and!; try done. by apply Hg; [apply Ha|].
Qed.

(** What [CommitTrie] depends on. *)
Definition same_trie (o o' : stateObject) : Prop :=
  the_trie (updateTrie o') = the_trie (updateTrie o) /\ dbErr (updateTrie o') = dbErr (updateTrie o) /\ data o' = data o.

Lemma commit_code_ok o m w : obj_good o m -> consistent w ->
  writes w (commit_code o w) (fun _ o' w' => same_trie o o' /\
    code_in (view w') (Account_CodeHash (data o)) (acc_code (abs_obj o))).
Proof.
  intros Ho Hw. unfold commit_code, writes. pose proof (og_code _ _ Ho) as Hc.
  pose proof (code_ok_in o) as Hin. destruct (code o) as [c|] eqn:Ec.
  - destruct (dirtyCode o) eqn:Ed.
    + unfold put_entry. pose proof Hc as [Ha (Hh&Hk&Hl&_)].
      destruct (dbw_Put _ c w) as [w'|] eqn:Ep; [|by split_and!]. rewrite Hh in Ep.
      destruct (Put_ok w c w' Hw Hk Ep) as (Hw'&Hg&Hv). rewrite <- Hh in Hv. split; [|by split].
      split; [|simpl; rewrite Ec; apply Hin; [done|by apply view_grows|by intros ? [= <-]]].
      unfold same_trie, updateTrie, getTrie. simpl. repeat case_match; simpl; by rewrite ?orb_false_r.
    + split_and!; [done|simpl; rewrite Ec; apply Hin; [done|by apply view_grows|done]|done|done].
  - split_and!; [done|simpl; rewrite Ec; apply Hin; [done|by apply view_grows|done]|done|done].
Qed.

Lemma CommitTrie_ok o0 o m w : obj_good o0 m -> same_trie o0 o -> consistent w ->
  (forall m', storage_map (abs_obj o0) m' -> known m') ->
  writes w (CommitTrie (o, w)) (fun _ o' w' => exists h m', data o' = data_with_root (data o0) h /\
    held (view w') h m' /\ known m' /\ storage_map (abs_obj o0) m').
Proof.
  intros Ho (Et&Ee&Ed) Hw Hk. unfold CommitTrie. destruct (updateTrie_good o0 m Ho) as (m'&Ho'&Ht&Hsm&_).
  rewrite Ee, (og_err _ _ Ho'), Et.
  assert (Hd : data (updateTrie o) = data o) by (unfold updateTrie; by destruct (getTrie o)).
  pose proof (CommitTo_held _ m' w Hw Ht (Hk m' Hsm)) as Hc. unfold writes.
  destruct (Trie_CommitTo _) as [[h|e| |] [t w']]; try done. destruct Hc as (Hh&?&?). split_and!; try done.
  exists h, m'. simpl. rewrite Hd, Ed. split_and!; [done|done|by apply Hk|done].
Qed.

Lemma commit_dirty_ok s M a o m w : holds (state_trie s) M -> named a -> obj_good o m -> consistent w ->
  suicided o || obj_empty o = false -> balance_ok (data o) -> (forall m', storage_map (abs_obj o) m' -> known m') ->
  writes w (commit_dirty a o (s, w)) (fun _ s' w' => exists M', holds (state_trie s') M' /\
    durable (view w') M' a (Some (abs_obj o)) /\ (forall b, b <> a -> M' !! b = M !! b) /\
    (forall b, b <> a -> stateObjects s' !! b = stateObjects s !! b) /\ stateObjectsDirty s' = stateObjectsDirty s).
Proof.
  intros Ht Ha Ho Hw Hg Hf Hk. unfold commit_dirty. pose proof (commit_code_ok o m w Ho Hw) as Hc.
  destruct (commit_code o w) as [[[]|e| |] [o1 w1]]; try done. destruct Hc as ([Hs1 Hci]&Hw1&Hg1).
  eapply (writes_mono w w1); [done|intros x s' w' H _; exact H|].
  pose proof (CommitTrie_ok o o1 m w1 Ho Hs1 Hw1 Hk) as Hct.
  destruct (CommitTrie (o1, w1)) as [[[]|e| |] [o2 w2]]; try done.
  destruct Hct as ((h&m'&Ed&Hh&Hkm&Hsm)&Hw2&Hg2).
  assert (Hd : data_ok (data o2)).
  { rewrite Ed. destruct (og_data _ _ Ho). split; [done|by eapply roots_array, held_roots|done]. }
  assert (Hf2 : balance_ok (data o2)) by by rewrite Ed.
  assert (Edo : data o2 = data_of (abs_obj o) h) by (rewrite Ed; done).
  unfold updateStateObject. destruct (encode_account (data o2) Hd Hf2) as (->&_&Hv). split_and!; [|done|done].
  apply orb_false_iff in Hg as [Hsu Hem].
  exists (<[a := account_encoding (data o2)]> M). split_and!; simpl.
  - by apply Update_holds.
  - exists h, m'. rewrite lookup_insert_eq, <- Edo. split_and!; try done; [|by rewrite acc_empty_obj].
    destruct Hci as [?|(?&?)]; [by left|right]. split; [|done]. apply Hg2; [apply (do_code _ (og_data _ _ Ho))|done].
  - intros b Hb. by rewrite lookup_insert_ne.
  - intros b Hb. by rewrite lookup_insert_ne.
  - done.
Qed.

#[local] Arguments commit_dirty : simpl never.

(** What is left to commit. *)
Record pending (s : db) (M : gmap bytes bytes) (l : list Address) : Prop := {
  pe_trie : holds (state_trie s) M;
  pe_objects a : a ∈ l -> exists o, stateObjects s !! a = Some o /\ named a /\ live M a o /\
    (onDirty o = false -> a ∈ stateObjectsDirty s) /\ (suicided o || obj_empty o = false -> deleted o = false);
}.

(** The storage of what is kept has no colliding encodings. *)
Definition storage_known (x : option account) : Prop :=
  forall y m, settled x = Some y -> storage_map y m -> known m.

Definition object_account (s : db) (a : Address) : option account :=
  o ← stateObjects s !! a; if deleted o then None else Some (abs_obj o).

Lemma clean_durable M a o m g : named a -> obj_good o m -> clean M a o m -> grows db_Get g ->
  durable g M a (settled (Some (abs_obj o))).
Proof.
  intros Ha Hm [He (Hh&Hk&Hs&_) Hf Hu Hst Hco Hsu Hde] Hg. simpl. rewrite Hsu, acc_empty_obj.
  unfold obj_empty, account_empty in *. rewrite Hu. exists (Root (data o)), m. rewrite data_of_obj.
  split_and!; try done; [by eapply held_grows| | |apply Hm|by rewrite acc_empty_obj].
  - split; [done|]. intros k Hk'. simpl. rewrite (storage_spec o m) by done. by rewrite Hst.
  - apply code_ok_in; [apply Hm|done|]. by rewrite Hco.
Qed.

Lemma commit_object_ok s M a l w : pending s M (a :: l) -> a ∉ l -> consistent w ->
  (forall x, object_account s a = Some x -> 0 <= acc_balance x < 2 ^ 256) -> storage_known (object_account s a) ->
  writes w (commit_object a (s, w)) (fun _ s' w' => exists M', pending s' M' l /\
    durable (view w') M' a (settled (object_account s a)) /\ (forall b, b <> a -> M' !! b = M !! b) /\
    (forall b, b <> a -> stateObjects s' !! b = stateObjects s !! b)).
Proof.
  intros [Ht Hobj] Hnot Hw Hf Hk. destruct (Hobj a) as (o&Ho&Ha&Hl&Hmk&Hdel); [by left|].
  assert (Hrest : forall s' M' t, holds t M' -> (forall b, b <> a -> M' !! b = M !! b) ->
    (forall b, b <> a -> stateObjects s' !! b = stateObjects s !! b) -> state_trie s' = t ->
    stateObjectsDirty s' = stateObjectsDirty s ∖ {[a]} -> pending s' M' l).
  { intros s' M' t Ht' HM HO <- HD. split; [done|]. intros b Hb. assert (b <> a) by (intros ->; done).
    destruct (Hobj b) as (p&Hp&?&?&Hm&?); [by right|]. exists p. rewrite HO, HD by done. split_and!; try done.
    - eapply live_other; [|done]. by apply HM.
    - set_solver. }
  unfold commit_object, object_account in *. rewrite Ho in *. simpl in Hf, Hk |- *.
  destruct (suicided o || obj_empty o) eqn:Hg.
  - rewrite settled_gone by done. assert (Hd : a ∈ stateObjectsDirty s) by (apply Hmk; by eapply not_clean).
    rewrite bool_decide_eq_true_2, andb_true_l, Hg by done. split_and!; try done. exists (delete a M). split_and!.
    + eapply (Hrest _ _ (Trie_Delete a (state_trie s))); try done; [by apply Delete_holds| |]; intros b Hb; simpl;
        by rewrite ?lookup_delete_ne, ?lookup_insert_ne.
    + apply lookup_delete_eq.
    + intros b Hb. by rewrite lookup_delete_ne.
    + intros b Hb. simpl. by rewrite lookup_insert_ne.
  - rewrite Hdel in * by done. unfold storage_known in Hk. simpl in Hf, Hk |- *. rewrite acc_empty_obj, Hg in *.
    pose proof Hg as [Hsu Hem]%orb_false_iff. rewrite Hsu, Hem, andb_false_r. simpl.
    destruct Hl as (m&Hm&Hc). case_bool_decide as Hin.
    + pose proof (commit_dirty_ok s M a o m w Ht Ha Hm Hw Hg (Hf _ eq_refl) (fun m' => Hk _ m' eq_refl)) as Hcd.
      destruct (commit_dirty a o (s, w)) as [[[]|e| |] [s' w']]; try done.
      destruct Hcd as ((M'&Ht'&Hdu&HM&HO&HD)&?&?). unfold writes; cbv beta iota. split; [|done]. exists M'. split_and!; try done.
      eapply Hrest; try done. simpl. by rewrite HD.
    + unfold writes; cbv beta iota. split; [|done]. exists M. assert (Hon : onDirty o = true) by (destruct (onDirty o); [done|by destruct Hin; apply Hmk]).
      split_and!; try done.
      * eapply Hrest; done.
      * pose proof (clean_durable M a o m (view w) Ha Hm (Hc Hon) (view_grows w Hw)) as Hdu. simpl in Hdu.
        by rewrite acc_empty_obj, Hg in Hdu.
Qed.

Lemma commit_objects_ok l : forall s M w, pending s M l -> NoDup l -> consistent w ->
  (forall a x, a ∈ l -> object_account s a = Some x -> 0 <= acc_balance x < 2 ^ 256) ->
  (forall a, a ∈ l -> storage_known (object_account s a)) ->
  writes w (commit_objects l (s, w)) (fun _ s' w' => exists M', holds (state_trie s') M' /\
    (forall a, a ∈ l -> durable (view w') M' a (settled (object_account s a))) /\ forall b, b ∉ l -> M' !! b = M !! b).
Proof.
  induction l as [|a l IH]; intros s M w Hp Hnd Hw Hf Hk.
  { cbn [commit_objects mret SM_ret]. unfold writes; cbv beta iota. split; [|done]. exists M. split_and!; [apply Hp|by intros a ?%not_elem_of_nil|done]. }
  apply NoDup_cons in Hnd as [Hnot Hnd]. cbn [commit_objects]. unfold mbind, SM_bind.
  assert (Hin : a ∈ a :: l) by by left.
  pose proof (commit_object_ok s M a l w Hp Hnot Hw (fun x => Hf a x Hin) (Hk a Hin)) as Hc.
  destruct (commit_object a (s, w)) as [[[]|e| |] [s1 w1]]; try done.
  destruct Hc as ((M1&Hp1&Hd1&HM1&HO1)&Hw1&Hg1).
  assert (Hacc : forall b, b ∈ l -> object_account s1 b = object_account s b).
  { intros b Hb. unfold object_account. rewrite HO1; [done|]. intros ->. done. }
  eapply (writes_mono w w1); [done| |eapply IH]; [|done|done|done| |].
  - intros [] s' w' (M'&Ht'&Hdu&HM') Hg. exists M'. split_and!; [done| |].
    + intros b [->|Hb]%elem_of_cons.
      * eapply durable_grows; [done|]. unfold durable in *. by rewrite HM' by done.
      * rewrite <- Hacc by done. by apply Hdu.
    + intros b Hb. apply not_elem_of_cons in Hb as [??]. by rewrite HM', HM1.
  - intros b x Hb. rewrite Hacc by done. apply Hf. by right.
  - intros b Hb. rewrite Hacc by done. apply Hk. by right.
Qed.

(** No encodings of what is kept collide. *)
Definition storable (s : db) : Prop :=
  (forall a, named a -> storage_known (db_account s a)) /\
  forall M, state_map (fun a => settled (db_account s a)) M -> known M.

Lemma object_account_live s a : a ∈ dom (stateObjects s) -> db_account s a = object_account s a.
Proof. intros [o Ho]%elem_of_dom. unfold db_account, object_account. by rewrite Ho. Qed.

Lemma cold_durable s M a g : sync0 s M -> named a -> stateObjects s !! a = None -> grows db_Get g ->
  durable g M a (settled (db_account s a)).
Proof.
  intros Hs Ha Ho Hg. unfold db_account. rewrite Ho.
  pose proof (stored_sync s M a Hs Ha) as Hst. destruct (stored s a) as [d|]; simpl; [|done].
  destruct Hst as (He&Hd&Hf&Hu&Hr). destruct (Hr Ho) as [m Hm].
  apply (clean_durable M a (newObject d true) m g Ha (load_good d m Hd Hm)); [by split|done].
Qed.

Lemma pending_all s M : sync0 s M -> pending s M (order (dom (stateObjects s))).
Proof.
  intros Hs. split; [apply Hs|]. intros a Ha. apply elem_of_order, elem_of_dom in Ha as [o Ho].
  destruct (sy_live s M Hs a o Ho) as (?&?&?&Hdel). exists o. split_and!; try done. intros Hg.
  destruct (deleted o); [by destruct (Hdel eq_refl); congruence|done].
Qed.

(** After the loop every account is in the trie and, but for the nodes of the
    account trie, in the database. *)
Lemma commit_loop_ok s M w : sync0 s M -> funds s -> (forall a, named a -> storage_known (db_account s a)) -> consistent w ->
  writes w (commit_objects (order (dom (stateObjects s))) (s, w)) (fun _ s' w' => exists M', holds (state_trie s') M' /\
    (forall a, named a -> durable (view w') M' a (settled (db_account s a))) /\ forall a e, M' !! a = Some e -> named a).
Proof.
  intros Hs Hf Hk Hw. set (l := order (dom (stateObjects s))).
  assert (Hl : forall a, a ∈ l -> named a /\ db_account s a = object_account s a).
  { intros a Ha. apply elem_of_order in Ha. split; [|by apply object_account_live].
    apply elem_of_dom in Ha as [o Ho]. by destruct (sy_live s M Hs a o Ho). }
  eapply (writes_mono w w); [done| |apply (commit_objects_ok l s M w (pending_all s M Hs) (NoDup_order _) Hw)].
  - intros [] s' w' (M'&Ht'&Hdu&HM') Hg. exists M'. split_and!; [done| |].
    + intros a Ha. destruct (decide (a ∈ l)) as [Hin|Hin]; [destruct (Hl a Hin) as [_ ->]; by apply Hdu|].
      assert (Ho : stateObjects s !! a = None) by (by apply not_elem_of_dom; rewrite <- (elem_of_order (dom _) a)).
      pose proof (cold_durable s M a (view w') Hs Ha Ho) as Hc. unfold durable in *. rewrite HM' by done.
      apply Hc. eapply grows_trans; [by apply view_grows|done].
    + intros a e He. destruct (decide (a ∈ l)) as [Hin|Hin]; [by apply Hl|]. rewrite HM' in He by done.
      by destruct (sy_accounts s M Hs a e He).
  - intros a x Ha. destruct (Hl a Ha) as [Hn <-]. by apply Hf.
  - intros a Ha. destruct (Hl a Ha) as [Hn <-]. by apply Hk.
Qed.

Lemma CommitTo_stored s M w : sync s M -> funds s -> storable s -> consistent w ->
  writes w (CommitTo (s, w)) (fun root _ w' => state_stored (view w') root (fun a => settled (db_account s a))).
Proof.
  intros [Hs _ _] Hf [Hk HkM] Hw. unfold CommitTo. pose proof (commit_loop_ok s M w Hs Hf Hk Hw) as Hc.
  destruct (commit_objects _ (s, w)) as [[[]|e| |] [s1 w1]]; try done.
  destruct Hc as ((M1&Ht1&Hdu&Hn)&Hw1&Hg1). eapply (writes_mono w w1); [done|intros x s' w' H _; exact H|].
  assert (HM1 : known M1) by (apply HkM; split; [|done]; intros a Ha; by eapply durable_entry, Hdu).
  pose proof (CommitTo_held _ M1 w1 Hw1 Ht1 HM1) as Hc. destruct (Trie_CommitTo _) as [[h|e| |] [t w2]]; try done.
  destruct Hc as (Hh&Hw2&Hg2). split_and!; try done. exists M1. split_and!; try done.
  intros a Ha. by eapply durable_grows, Hdu.
Qed.
End commit.
