(* ===== verification/BlockState.v ===== *)
(** What the processing of a block asks of the state database, beyond the methods of the
    machine: [StartRecord], [IntermediateRoot] and [GetLogs], with the laws of these
    methods, and the journalled database as an instance. *)
From S2P Require Import Prelude GoBig CommonMath CommonTypes Params Rlp VmTypes StateSpec.
From S2P Require Import StateDB StateCommit StateDBLaws StateSync StateCommitOk.

Class BlockState (S : Type) := {
  bs_StartRecord : Hash -> Hash -> Z -> S -> S;
  (** [None] is the panic on an account that cannot be encoded. *)
  bs_IntermediateRoot : S -> option (Hash * S);
  bs_GetLogs : Hash -> S -> list Log;
}.

Class BlockLaws (S : Type) {DB : StateDB S} {CR : Crypto} {SL : StateLaws S} {BS : BlockState S} : Prop := {
  law_StartRecord th bh ti (s : S) : inv s ->
    StateSpec.view (bs_StartRecord th bh ti s) = StateSpec.view s /\ inv (bs_StartRecord th bh ti s);
  law_GetLogs h (s : S) : inv s -> bs_GetLogs h s = logs (StateSpec.view s) h;
  (** Only self-destructed and empty accounts go; the refund counter starts again. *)
  law_IntermediateRoot B (s : S) : inv s -> view_ok B (StateSpec.view s) -> B < 2 ^ 256 ->
    exists h s', bs_IntermediateRoot s = Some (h, s') /\ Common.is_array 32 h /\ inv s' /\
      (forall a, let x := accounts (StateSpec.view s) a in
        accounts (StateSpec.view s') a = x \/ accounts (StateSpec.view s') a = None /\ settled x = None) /\
      refund (StateSpec.view s') = 0 /\ logs (StateSpec.view s') = logs (StateSpec.view s) /\
      preimages (StateSpec.view s') = preimages (StateSpec.view s);
}.

(** Reads and writes of a trie whose nodes are all there. *)
Class TrieFrame `{Backend} : Prop := {
  Get_Update k v t k' : Trie_Get k' (Trie_Update k v t) = if decide (k' = k) then v else Trie_Get k' t;
  Get_Delete k t k' : Trie_Get k' (Trie_Delete k t) = if decide (k' = k) then [] else Trie_Get k' t;
  Trie_Hash_array t : Common.is_array 32 (Trie_Hash t);
}.

Section instance.
Context {CR : Crypto} {CK : CryptoOk} {BE : Backend} {BK : BackendOk} {TF : TrieFrame} {MO : MapOrder} {MK : MapOrderOk}.

#[export] Instance db_BlockState : BlockState db := {
  bs_StartRecord th bh ti s := StartRecord s th bh ti;
  bs_IntermediateRoot := IntermediateRoot;
  bs_GetLogs h s := default [] (db_logs s !! h);
}.

(** ** Storage *)

Lemma update_slots_frame (f : Hash -> Hash) k l t : k ∉ l ->
  Trie_Get k (fold_left (fun tr key => update_slot tr key (f key)) l t) = Trie_Get k t.
Proof.
  revert t. induction l as [|x l IH]; intros t Hk; [done|]. simpl. rewrite IH by set_solver. unfold update_slot.
  case_bool_decide; rewrite ?Get_Delete, ?Get_Update, decide_False by set_solver; done.
Qed.

(** Pending writes are cached: flushing them shows nowhere. *)
Lemma updateRoot_abs o : obj_ok o -> abs_obj (updateRoot o) = abs_obj o.
Proof.
  intros (_&_&Hd&_). unfold updateRoot, updateTrie. destruct (getTrie o) as [t e] eqn:Et.
  unfold abs_obj. simpl. f_equal. apply functional_extensionality. intros k. unfold storage_of. simpl.
  destruct (cachedStorage o !! k) eqn:Ec; [done|]. rewrite Et. simpl. f_equal. f_equal.
  unfold getTrie. simpl. apply (update_slots_frame (fun key => default Common.zeroHash (dirtyStorage o !! key))).
  rewrite order_perm, elem_of_elements, elem_of_dom. intros [v Hv]. apply Hd in Hv. congruence.
Qed.

Lemma updateRoot_ok o : obj_ok o -> obj_ok (updateRoot o).
Proof.
  intros (Ha&Hl&Hd&Hr). unfold updateRoot, updateTrie. destruct (getTrie o) as [t e]. split_and!; try done.
  apply Trie_Hash_array.
Qed.

Lemma updateRoot_flags o : deleted (updateRoot o) = deleted o /\ suicided (updateRoot o) = suicided o /\
  obj_empty (updateRoot o) = obj_empty o /\ Nonce (data (updateRoot o)) = Nonce (data o) /\
  Balance (data (updateRoot o)) = Balance (data o).
Proof. unfold updateRoot, updateTrie. by destruct (getTrie o) as [t e]. Qed.

(** ** Writing the accounts *)

(** What may become of an account. *)
Definition kept_or_settled (x x' : option account) : Prop := x' = x \/ x' = None /\ settled x = None.

Definition encodable (s : db) : Prop := forall a x, db_account s a = Some x ->
  0 <= acc_nonce x < 2 ^ 64 /\ 0 <= acc_balance x < 2 ^ 256.

Record finalised (s s' : db) : Prop := {
  fi_core : core_ok (clearJournalAndRefund s');
  fi_accounts a : kept_or_settled (db_account s a) (db_account s' a);
  fi_dirty : stateObjectsDirty s' = stateObjectsDirty s;
  fi_logs : db_logs s' = db_logs s;
  fi_preimages : db_preimages s' = db_preimages s;
}.

Lemma finalised_trans s1 s2 s3 : finalised s1 s2 -> finalised s2 s3 -> finalised s1 s3.
Proof.
  intros [] []. split; [done| |congruence..]. intros a. specialize (fi_accounts0 a). specialize (fi_accounts1 a).
  unfold kept_or_settled in *. naive_solver congruence.
Qed.

Lemma encodable_finalised s s' : encodable s -> finalised s s' -> encodable s'.
Proof. intros He [_ Ha _ _ _] a x Hx. destruct (Ha a) as [E|[E _]]; rewrite E in Hx; [by eapply He|done]. Qed.

(** The state with another object and another account trie. *)
Lemma put_and_write s a o t : core_ok (clearJournalAndRefund s) -> obj_ok o ->
  (forall b, b <> a -> Trie_Get b t = Trie_Get b (state_trie s)) ->
  (deleted o = true -> Trie_Get a t = [] /\ suicided o || obj_empty o = true) ->
  (forall d, zlen (Trie_Get a t) <> 0 -> DecodeAccount (Trie_Get a t) = Some d -> obj_ok (newObject d true)) ->
  core_ok (clearJournalAndRefund (set_trie (setStateObject s a o) t)) /\
  forall b, db_account (set_trie (setStateObject s a o) t) b =
    if decide (b = a) then (if deleted o then None else Some (abs_obj o)) else db_account s b.
Proof.
  intros [Hobj Hst _ Hca Hdi] Ho Ht Hdel Hdec.
  assert (forall b, b <> a -> stored (set_trie (setStateObject s a o) t) b = stored s b) as Hsame.
  { intros b Hb. unfold stored. simpl. by rewrite Ht. }
  split; [split; simpl|].
  - intros b p. simpl. rewrite lookup_insert. case_decide as E; [subst b|].
    + intros [= <-]. split; [done|]. intros Hd. destruct (Hdel Hd) as [E ?]. split; [|done]. unfold stored. simpl. by rewrite E.
    + intros Hp. destruct (Hobj b p Hp) as [? Hx]. split; [done|]. intros Hd. destruct (Hx Hd) as [? ?].
      split; [|done]. etrans; [apply (Hsame b); congruence|done].
  - intros b d Hb. destruct (decide (b = a)) as [->|Hne].
    + unfold stored in Hb. simpl in Hb. destruct (zlen (Trie_Get a t) =? 0) eqn:E; [done|]. bool_to_prop. by apply Hdec.
    + apply (Hst b). etrans; [|exact Hb]. symmetry. by apply Hsame.
  - constructor.
  - done.
  - intros b Hb. simpl in *. rewrite lookup_insert. case_decide; [done|]. by apply Hdi.
  - intros b. unfold db_account at 1. simpl. rewrite lookup_insert. destruct (decide (b = a)) as [->|Hne].
    + by rewrite decide_True.
    + rewrite decide_False by congruence. unfold db_account. by rewrite Hsame.
Qed.

Lemma finalise_object_ok a s : core_ok (clearJournalAndRefund s) -> encodable s -> is_Some (stateObjects s !! a) ->
  exists s', finalise_object a s = Some s' /\ finalised s s'.
Proof.
  intros Hs He [o Ho]. destruct (ok_objects _ Hs a o Ho) as [Hok Hdel]. unfold finalise_object. rewrite Ho. cbn [mbind option_bind].
  destruct (suicided o || obj_empty o) eqn:Eg.
  - set (o' := with_flags o (suicided o) (touched o) true (onDirty o)).
    destruct (put_and_write s a o' (Trie_Delete a (state_trie s)) Hs Hok) as [Hc Hacc].
    + intros b Hb. by rewrite Get_Delete, decide_False.
    + intros _. by rewrite Get_Delete, decide_True.
    + intros d. rewrite Get_Delete, decide_True by done. by rewrite zlen_nil.
    + eexists. split; [done|]. split; [done| |done..]. intros b.
      change (deleteStateObject s a o) with (set_trie (setStateObject s a o') (Trie_Delete a (state_trie s))).
      rewrite Hacc. case_decide as E; [subst b|by left]. right. split; [done|]. unfold db_account. rewrite Ho.
      destruct (deleted o); [done|]. simpl. rewrite acc_empty_obj. by rewrite Eg.
  - assert (deleted o = false) as Hd by (destruct (deleted o); [|done]; destruct (Hdel eq_refl); congruence).
    assert (db_account s a = Some (abs_obj o)) as Ha by (unfold db_account; by rewrite Ho, Hd).
    destruct (updateRoot_flags o) as (Fd&Fs&Fe&Fn&Fb). pose proof (updateRoot_ok o Hok) as Hok'.
    destruct (He a _ Ha) as [Hn Hb]. simpl in Hn, Hb.
    destruct (encode_account (data (updateRoot o))) as (Henc&Hdec&_&_&Hlen).
    { split; [by rewrite Fn|apply Hok'|apply Hok']. }
    { unfold balance_ok. by rewrite Fb. }
    unfold updateStateObject. rewrite Henc.
    destruct (put_and_write s a (updateRoot o) (Trie_Update a (account_encoding (data (updateRoot o))) (state_trie s)) Hs Hok') as [Hc Hacc].
    + intros b Hne. by rewrite Get_Update, decide_False.
    + rewrite Fd, Hd. done.
    + intros d _. rewrite Get_Update, decide_True, Hdec by done. intros [= <-]. split_and!; try done; try apply Hok'.
      simpl. case_bool_decide; [by rewrite zlen_nil|]. destruct (db_Get _) eqn:Eg'; simpl; [by eapply db_Get_ok|by rewrite zlen_nil].
    + eexists. split; [done|]. split; [done| |done..]. intros b. rewrite Hacc. case_decide as E; [subst b|by left]. left.
      rewrite Fd, Hd, Ha. f_equal. by apply updateRoot_abs.
Qed.

Lemma finalise_all_finalised l : forall s, core_ok (clearJournalAndRefund s) -> encodable s ->
  (forall a, a ∈ l -> a ∈ stateObjectsDirty s) ->
  exists s', finalise_all l s = Some s' /\ finalised s s'.
Proof.
  induction l as [|a l IH]; intros s Hs He Hl.
  { exists s. split; [done|]. split; [done| |done..]. intros b. by left. }
  destruct (finalise_object_ok a s Hs He) as (s1&E1&F1); [apply (ok_dirty _ Hs), Hl; left|].
  simpl. rewrite E1. simpl. destruct (IH s1) as (s'&E2&F2); [by destruct F1|by eapply encodable_finalised| |].
  - intros b Hb. rewrite (fi_dirty _ _ F1). apply Hl. by right.
  - exists s'. split; [done|]. by eapply finalised_trans.
Qed.

#[export] Instance db_BlockLaws : BlockLaws db.
Proof.
  split; simpl.
  - intros th bh ti s Hi. split; [done|]. by destruct Hi as [[] [? ?]].
  - done.
  - intros B s [Hc Hr] Hv HB. assert (core_ok (clearJournalAndRefund s)) as Hc' by (destruct Hc; split; done).
    assert (encodable s) as He.
    { intros a x Hx. destruct Hv as (Ha&Hs&_). destruct (Ha a x Hx) as (?&_&_&_&?).
      split; [done|]. pose proof (supply_le_balance B (db_view s) a Hs) as Hle. unfold abs_balance in Hle. simpl in Hle.
      rewrite Hx in Hle. simpl in Hle. lia. }
    unfold IntermediateRoot. destruct (finalise_all_finalised (order (stateObjectsDirty s)) s Hc' He) as (s'&->&[]).
    { intros a. by rewrite order_perm, elem_of_elements. }
    simpl. eexists _, _. split; [done|]. split; [apply Trie_Hash_array|]. split; [|split_and!; [exact fi_accounts0|done|simpl; by rewrite ?fi_logs0, ?fi_preimages0..]].
    split; [done|]. split; simpl; [|constructor]. intros i j x y Hi%zget_inv. change (0 <= i < 0) in Hi. lia.
Qed.
End instance.
