(* ===== verification/Concrete.v ===== *)
(** A concrete hash, store and genesis state.

    The theorems hold for every hash function and every trie; this file supplies
    one of each, simple enough to compute with, and a small state with an account
    that has funds and one that has code. *)
From S2P Require Import Prelude GoBig CommonMath CommonTypes Params VmTypes StateSpec VmLogic.
From S2P Require Import VmInterp VmExec StateDB StateDBLaws.

(** ** Building a state *)
Section building.
Context {CR : Crypto} {CK : CryptoOk} {BE : Backend} {BK : BackendOk}.

Lemma funds_ok B a n s : db_inv s /\ view_ok B (db_view s) -> 0 <= n ->
  db_inv (db_AddBalance a n s) /\ view_ok (B + n) (db_view (db_AddBalance a n s)).
Proof.
  intros [Hi Hv] Hn. destruct (law_AddBalance (StateLaws := db_StateLaws) a n s Hi) as [Hw [Hi' _]].
  simpl in Hw. split; [done|]. rewrite Hw. by apply view_ok_add.
Qed.

Lemma code_ok B a c s : db_inv s /\ view_ok B (db_view s) -> is_bytes c -> zlen c < 2 ^ 63 ->
  db_inv (db_SetCode a c s) /\ view_ok B (db_view (db_SetCode a c s)).
Proof.
  intros [Hi Hv] Hb Hl.
  destruct (law_SetCode (StateLaws := db_StateLaws) a c Hl s Hi) as [Hw [Hi' _]].
  simpl in Hw. split; [done|]. rewrite Hw. by apply view_ok_SetCode.
Qed.
End building.

(** ** The instances *)

Definition checksum (b : bytes) : Z :=
  let m := 2 ^ 256 - 1 in fold_left (fun h x => Z.land (h * 257 + x + 1) m) b 0.

#[export] Instance toy_crypto : Crypto := {
  Keccak256 b := Big.be_fixed 32 (checksum b);
  Sha256 b := Big.be_fixed 32 (checksum b + 1);
  Ripemd160 b := Big.be_fixed 20 (checksum b + 2);
  Ecrecover hash sig := Some (4 :: Big.be_fixed 64 (checksum (hash ++ sig)));
}.

(** The size of a public key in the uncompressed format. *)
Lemma uncompressed_size v : Common.is_array 65 (4 :: Big.be_fixed 64 v).
Proof.
  destruct (Common.is_array_be_fixed 64 v) as [Hl Hb]. split.
  - rewrite zlen_cons, Hl. lia.
  - apply is_bytes_cons. split; [unfold is_byte; lia|done].
Qed.

#[export] Instance toy_crypto_ok : CryptoOk.
Proof.
  split.
  - intros b. apply (Common.is_array_be_fixed 32).
  - intros b. apply (Common.is_array_be_fixed 32).
  - intros b. apply (Common.is_array_be_fixed 20).
  - intros h sig pub Hp.
    assert (pub = 4 :: Big.be_fixed 64 (checksum (h ++ sig))) as -> by (by injection Hp). apply uncompressed_size.
Qed.

#[export] Instance toy_backend : Backend := {
  trie := gmap bytes bytes;
  NewSecure root _ := if bool_decide (root = Common.zeroHash) then Some ∅ else None;
  empty_trie := ∅;
  Trie_Get k t := default [] (t !! k);
  Trie_Update k v t := if zlen v =? 0 then delete k t else <[k := v]> t;
  Trie_Delete k t := delete k t;
  Trie_Hash t := Big.be_fixed 32 (checksum (concat (map (fun p => p.1 ++ p.2) (map_to_list t))));
  db_Get _ := None;
  lru_Add k v m := <[k := v]> m;
}.

#[export] Instance toy_backend_ok : BackendOk.
Proof.
  split; simpl; intros; [done|by rewrite lookup_empty|done|].
  rewrite lookup_insert in *. case_decide; simplify_eq; auto.
Qed.

Definition alice : Address := Big.be_fixed 20 0xa11ce.
Definition bob : Address := Big.be_fixed 20 0xb0b.
Definition miner : Address := Big.be_fixed 20 0x313e.

(** [SSTORE(0, SLOAD(0) + CALLVALUE); RETURN(0, 32)] *)
Definition bob_code : bytes :=
  [0x60; 0; 0x54; 0x34; 0x01; 0x60; 0; 0x55; 0x60; 32; 0x60; 0; 0xf3].

Definition supply : Z := 10 ^ 18.
Definition blank : db :=
  {| state_trie := ∅; stateObjects := ∅; stateObjectsDirty := ∅; db_refund := 0;
     thash := Common.zeroHash; bhash := Common.zeroHash; txIndex := 0; db_logs := ∅;
     logSize := 0; db_preimages := ∅; journal := []; validRevisions := []; nextRevisionId := 0;
     codeSizeCache := ∅ |}.
Definition genesis : db := db_SetCode bob bob_code (db_AddBalance alice supply blank).

Definition world0 : World db :=
  {| statedb := genesis; depth := 0; jumpdests := ∅; ticks := 0 |}.
Definition ctx0 : Context db :=
  {| CanTransfer := core_CanTransfer; Transfer := core_Transfer;
     GetHash n := Big.be_fixed 32 n; Origin := alice; GasPrice := 1; Coinbase := miner;
     GasLimit := 10 ^ 6; BlockNumber := 1; Time := 2; Difficulty := 3 |}.
Definition cfg0 : Config :=
  {| NoRecursion := false; DisableGasMetering := false; EnablePreimageRecording := true;
     cancelAt := None |}.

Lemma New_blank : New Common.zeroHash = Some blank.
Proof. reflexivity. Qed.

Lemma blank_inv : db_inv blank.
Proof.
  split; [split|split]; simpl.
  - intros a o Ho. by rewrite lookup_empty in Ho.
  - intros a d. unfold stored. simpl. by rewrite lookup_empty.
  - constructor.
  - intros k n Hn. by rewrite lookup_empty in Hn.
  - intros a Ha. set_solver.
  - intros i j x y Hi%zget_inv. change (0 <= i < 0) in Hi. lia.
  - constructor.
Qed.

Lemma blank_accounts a : accounts (db_view blank) a = None.
Proof. simpl. unfold db_account, stored. simpl. by rewrite !lookup_empty. Qed.

Lemma blank_view_ok : view_ok 0 (db_view blank).
Proof.
  split; [intros a o; by rewrite blank_accounts|]. split; [|done].
  intros l _. induction l as [|a l IH]; simpl; [done|].
  unfold abs_balance. rewrite blank_accounts. simpl. lia.
Qed.

Lemma genesis_ok : db_inv genesis /\ view_ok supply (db_view genesis).
Proof.
  apply (code_ok supply bob bob_code); [|by apply (bool_decide_unpack _)|done].
  apply (funds_ok 0); [|done]. split; [apply blank_inv|apply blank_view_ok].
Qed.

Lemma world0_ok : world_ok supply world0.
Proof. destruct genesis_ok. by split_and!. Qed.

Lemma ctx0_ok : context_ok ctx0.
Proof.
  split; [done|]. split; [done|]. split; [intros n; apply (Common.is_array_be_fixed 32)|].
  split; [apply (Common.is_array_be_fixed 20)|]. split; [apply (Common.is_array_be_fixed 20)|].
  done.
Qed.
