(* ===== verification/TrieTheorems.v ===== *)
(** What the trie promises: it is a finite map, its root hash identifies the map,
    and a committed trie can be opened again. *)
From S2P Require Import Prelude GoBig CommonTypes Rlp VmTypes TrieEncoding TrieTree TrieEdit.
From S2P Require Import TrieNode TrieRep Trie TrieOk TrieHash TrieMap Concrete.

#[export] Instance MemDatabase_ok : DatabaseOk MemDatabase.
Proof.
  split. intros k v d d' k' Hput. assert (d' = <[k := v]> d) as ->.
  { assert (Hd : Some (<[k := Common.CopyBytes v]> d) = Some d') by exact Hput.
    rewrite Common.CopyBytes_id in Hd. by injection Hd. }
  case_bool_decide as Hk; [subst; exact (lookup_insert_eq (M := gmap bytes) d k v)|].
  apply (lookup_insert_ne (M := gmap bytes)). congruence.
Qed.

(** ** Sequences of operations *)
Section commands.
Context {CR : Crypto} {CK : CryptoOk} {D : Type} {DB : Database D} {DK : DatabaseOk D}.

Inductive command :=
| CGet (key : bytes)
| CUpdate (key value : bytes)
| CDelete (key : bytes)
| CHash
| CCommit.

Inductive reply :=
| RValue (v : bytes)
| RDone
| RHash (h : Hash)
| RPutFailed.

Definition exec (fuel : nat) (c : command) (s : Trie.t * D) : outcome trieerr (reply * (Trie.t * D)) :=
  let '(T, d) := s in
  match c with
  | CGet key => '(v, T) ← Trie.TryGet d fuel T key; Done (RValue v, (T, d))
  | CUpdate key value => T ← Trie.TryUpdate d fuel T key value; Done (RDone, (T, d))
  | CDelete key => T ← Trie.TryDelete d fuel T key; Done (RDone, (T, d))
  | CHash =>
      match Trie.Hash_ (D:=D) T with
      | Done (h, T) => Done (RHash h, (T, d))
      | _ => Panic
      end
  | CCommit =>
      match Trie.CommitTo (T, d) with
      | (Done h, s) => Done (RHash h, s)
      | (Error _, s) => Done (RPutFailed, s)
      | _ => Panic
      end
  end.

Fixpoint run (fuel : nat) (cs : list command) (s : Trie.t * D) : outcome trieerr (list reply * (Trie.t * D)) :=
  match cs with
  | [] => Done ([], s)
  | c :: cs =>
      '(r, s) ← exec fuel c s;
      '(rs, s) ← run fuel cs s;
      Done (r :: rs, s)
  end.

(** The same on a finite map. *)
Definition map_exec (c : command) (m : gmap bytes bytes) : gmap bytes bytes :=
  match c with
  | CUpdate key value => map_update key value m
  | CDelete key => delete key m
  | _ => m
  end.

Definition reply_ok (c : command) (m : gmap bytes bytes) (r : reply) : Prop :=
  match c, r with
  | CGet key, RValue v => v = default [] (m !! key)
  | CUpdate _ _, RDone | CDelete _, RDone => True
  | CHash, RHash h => root_of h m
  | CCommit, RHash h => root_of h m
  | CCommit, RPutFailed => True
  | _, _ => False
  end.

Fixpoint replies_ok (cs : list command) (m : gmap bytes bytes) (rs : list reply) : Prop :=
  match cs, rs with
  | [], [] => True
  | c :: cs, r :: rs => reply_ok c m r /\ replies_ok cs (map_exec c m) rs
  | _, _ => False
  end.

Variable limit : nat.
Variable U : bytes -> Prop.

(** Keys and values in range; what is committed has no colliding encodings. *)
Definition command_ok (fuel : nat) (m : gmap bytes bytes) (c : command) : Prop :=
  match c with
  | CGet key | CDelete key => is_bytes key /\ (key_fuel key <= fuel)%nat
  | CUpdate key value => key_ok limit key /\ is_bytes value /\ zlen value < 2 ^ 32 /\ (key_fuel key <= fuel)%nat
  | CHash => True
  | CCommit => map_known U m
  end.

Fixpoint commands_ok (fuel : nat) (m : gmap bytes bytes) (cs : list command) : Prop :=
  match cs with
  | [] => True
  | c :: cs => command_ok fuel m c /\ commands_ok fuel (map_exec c m) cs
  end.

Definition collision_free : Prop := forall x y, U x -> U y -> Keccak256 x = Keccak256 y -> x = y.

Abbreviation get d := (fun h => Db_Get h d).

Lemma overlay_none (d : D) h e : overlay (fun _ => None) d h = Some e <-> Db_Get h d = Some e.
Proof. unfold overlay. by destruct (Db_Get h d). Qed.

Lemma addressed_ext (v v' : bytes -> option bytes) : (forall h e, v h = Some e <-> v' h = Some e) ->
  addressed U v -> addressed U v'.
Proof. intros Hv Ha h e ?%Hv. by apply Ha. Qed.

Lemma exec_ok fuel c T d m : collision_free -> Z.of_nat limit < 2 ^ 32 -> command_ok fuel m c ->
  trie_ok limit (get d) T m -> addressed U (get d) ->
  exists r T' d', exec fuel c (T, d) = Done (r, (T', d')) /\ reply_ok c m r /\
    trie_ok limit (get d') T' (map_exec c m) /\ addressed U (get d').
Proof.
  intros HU Hl Hc Hok Ha. destruct c as [key|key value|key| |]; cbn [exec command_ok map_exec] in *.
  - destruct (TryGet_ok limit Hl d fuel T m key Hok) as (T'&->&HT'); [naive_solver..|].
    simpl_decode. by exists (RValue (default [] (m !! key))), T', d.
  - destruct (TryUpdate_ok limit Hl d fuel T m key value Hok) as (T'&->&HT'); [naive_solver..|].
    simpl_decode. by exists RDone, T', d.
  - destruct (TryDelete_ok limit Hl d fuel T m key Hok) as (T'&->&HT'); [naive_solver..|].
    simpl_decode. by exists RDone, T', d.
  - destruct (Hash_ok (D:=D) limit Hl (get d) T m Hok) as (h&T'&->&Hr&HT'). by exists (RHash h), T', d.
  - assert (Hv := overlay_none d).
    pose proof (CommitTo_ok (D:=D) limit Hl (fun _ => None) U HU T d m) as Hcm.
    assert (H1 : trie_ok limit (overlay (fun _ => None) d) T m) by (eapply trie_ok_mono; [|done]; by intros; apply Hv).
    assert (H2 : addressed U (overlay (fun _ => None) d)) by (eapply addressed_ext; [|apply Ha]; by intros; rewrite Hv).
    specialize (Hcm H1 Hc H2). destruct (Trie.CommitTo (T, d)) as [[h| | |] [T' d']]; try done.
    + destruct Hcm as (Hr&HT'&_&Ha'&_). exists (RHash h), T', d'. split_and!; [done|done| |].
      * eapply trie_ok_mono; [|done]. intros h' x. by apply overlay_none.
      * eapply addressed_ext; [|apply Ha']. intros h' x. apply overlay_none.
    + destruct Hcm as (->&Ha'&Hg). exists RPutFailed, T, d'. split_and!; [done|done| |].
      * eapply trie_ok_mono; [|apply H1]. intros h' x ?%Hg. by apply overlay_none.
      * eapply addressed_ext; [|apply Ha']. intros h' x. apply overlay_none.
Qed.

Lemma run_ok fuel cs : collision_free -> Z.of_nat limit < 2 ^ 32 -> forall T d m, commands_ok fuel m cs ->
  trie_ok limit (get d) T m -> addressed U (get d) ->
  exists rs T' d', run fuel cs (T, d) = Done (rs, (T', d')) /\ replies_ok cs m rs /\
    trie_ok limit (get d') T' (fold_left (fun m c => map_exec c m) cs m).
Proof.
  intros HU Hl. induction cs as [|c cs IH]; intros T d m Hc Hok Ha.
  { exists [], T, d. by split_and!. }
  destruct Hc as [Hc Hcs]. destruct (exec_ok fuel c T d m HU Hl Hc Hok Ha) as (r&T1&d1&He&Hr&Hok1&Ha1).
  destruct (IH T1 d1 _ Hcs Hok1 Ha1) as (rs&T2&d2&Hrun&Hrs&Hok2).
  exists (r :: rs), T2, d2. cbn [run]. rewrite He. simpl_decode. rewrite Hrun. by split_and!.
Qed.
End commands.

(** ** The theorems *)
Section theorems.
Context {CR : Crypto} {CK : CryptoOk} {D : Type} {DB : Database D} {DK : DatabaseOk D}.
Variable limit : nat.
Hypothesis Hlimit : Z.of_nat limit < 2 ^ 32.
Variable U : bytes -> Prop.
Hypothesis HU : collision_free U.

(** No encoding has one of the two hashes that stand for the empty trie. *)
Definition no_sentinels : Prop :=
  forall e, U e -> Keccak256 e <> Common.zeroHash /\ Keccak256 e <> emptyRoot.

Lemma contents_map t m m' : contents t m -> contents t m' -> m = m'.
Proof.
  intros Hc Hc'. apply map_eq. intros key.
  by rewrite <- (contents_lookup t m key Hc), <- (contents_lookup t m' key Hc').
Qed.

Lemma root_of_inj h m m' : root_of h m -> root_of h m' -> map_known U m -> map_known U m' -> no_sentinels ->
  (forall t n, wf0 n t -> contents t m \/ contents t m' -> wf0 limit t) -> m = m'.
Proof.
  intros (t&n&Hwf&Hc&Hh) (t'&n'&Hwf'&Hc'&Hh') Hk Hk' Hs Hl.
  specialize (Hk t n Hwf Hc). specialize (Hk' t' n' Hwf' Hc').
  destruct (Hl t n Hwf ltac:(by left)) as [->|Hw], (Hl t' n' Hwf' ltac:(by right)) as [->|Hw'].
  - by eapply contents_map.
  - exfalso. apply (Hs (tenc t')); [by apply known_U; [eapply wf_is_node|]|].
    fold (thash t'). simpl in Hh. rewrite <- Hh, Hh'. by destruct Hw'.
  - exfalso. apply (Hs (tenc t)); [by apply known_U; [eapply wf_is_node|]|].
    fold (thash t). simpl in Hh'. rewrite <- Hh', Hh. by destruct Hw.
  - assert (Heq : tenc t = tenc t').
    { apply HU; [by apply known_U; [eapply wf_is_node|]..|].
      fold (thash t) (thash t'). destruct Hw, Hw'; simpl in *; congruence. }
    apply (tenc_inj U HU limit t Hw Hlimit limit t' Hw' Hlimit Hk Hk') in Heq. subst t'.
    by eapply contents_map.
Qed.

(** C4: from an empty trie over any content-addressed node store, every sequence of
    lookups, updates, deletions, hashes and commits runs without panic, error or
    exhausted bound, and its replies are those of a finite map: lookups return the
    value of the key or nothing, and hashes are a function of the map. *)
Theorem trie_refines_map (h : Hash) (d : D) (fuel : nat) (cs : list command)
  (Hh : h = Common.zeroHash \/ h = emptyRoot) (Ha : addressed U (fun x => Db_Get x d))
  (Hcs : commands_ok limit U fuel ∅ cs) :
  exists T rs s, Trie.New d h = Done T /\ run fuel cs (T, d) = Done (rs, s) /\ replies_ok cs ∅ rs.
Proof.
  destruct (New_empty limit d h Hh) as (T&HT&Hok).
  destruct (run_ok limit U fuel cs HU Hlimit T d ∅ Hcs Hok Ha) as (rs&T'&d'&Hrun&Hrs&_).
  by exists T, rs, (T', d').
Qed.

(** C15: the root hash identifies the content.  Two tries over any stores, with any
    nodes loaded, cached or committed, have the same root hash exactly when they
    hold the same map (without hash collisions for the second direction). *)
Theorem root_hash_identifies_content (get get' : bytes -> option bytes) (T T' : Trie.t)
  (m m' : gmap bytes bytes) (Hok : trie_ok limit get T m) (Hok' : trie_ok limit get' T' m')
  (Hk : map_known U m) (Hk' : map_known U m') (Hs : no_sentinels) :
  exists h h' T1 T1', Trie.Hash_ (D:=D) T = Done (h, T1) /\ Trie.Hash_ (D:=D) T' = Done (h', T1') /\
    (h = h' <-> m = m').
Proof.
  destruct (Hash_ok (D:=D) limit Hlimit get T m Hok) as (h&T1&Hh&Hr&_).
  destruct (Hash_ok (D:=D) limit Hlimit get' T' m' Hok') as (h'&T1'&Hh'&Hr'&_).
  exists h, h', T1, T1'. split_and!; [done|done|]. split.
  - intros <-. eapply (root_of_inj h); try done.
    destruct Hok as (t&Hwf&_&Hc), Hok' as (t'&Hwf'&_&Hc'). intros t2 n2 Hwf2 [Hc2|Hc2].
    + by rewrite (contents_unique n2 limit t2 t m).
    + by rewrite (contents_unique n2 limit t2 t' m').
  - intros <-. by eapply root_of_unique.
Qed.

(** C18: a committed trie can be opened again: after a successful commit, the root
    hash opens a trie over the database in which every key has the value it had. *)
Theorem commit_reopen (T : Trie.t) (d : D) (m : gmap bytes bytes)
  (Hok : trie_ok limit (fun x => Db_Get x d) T m) (Ha : addressed U (fun x => Db_Get x d))
  (Hk : map_known U m) (Hs : no_sentinels) :
  match Trie.CommitTo (T, d) with
  | (Done h, (_, d')) => exists T', Trie.New d' h = Done T' /\
      forall key, is_bytes key -> exists T2, Trie.TryGet d' (key_fuel key) T' key = Done (default [] (m !! key), T2)
  | (Error _, (T', _)) => T' = T
  | _ => False
  end.
Proof.
  pose proof (CommitTo_ok (D:=D) limit Hlimit (fun _ => None) U HU T d m) as Hcm.
  assert (H1 : trie_ok limit (overlay (fun _ => None) d) T m)
    by (eapply trie_ok_mono; [|done]; by intros; apply overlay_none).
  assert (H2 : addressed U (overlay (fun _ => None) d))
    by (eapply addressed_ext; [|apply Ha]; by intros; rewrite overlay_none).
  specialize (Hcm H1 Hk H2). destruct (Trie.CommitTo (T, d)) as [[h| | |] [T' d']]; try done; [|by destruct Hcm].
  destruct Hcm as (_&_&(t&Hwf&Hc&->&Hst)&_&_).
  assert (Hst' : stored (fun x => Db_Get x d') true t).
  { eapply stored_mono; [|done]. intros x e. apply overlay_none. }
  destruct (New_ok limit Hlimit d' (troot t emptyRoot) m) as (T2&HT2&Hok2).
  - by exists t.
  - intros Hm. destruct Hwf as [->|Hwf].
    + destruct Hm. apply map_eq. intros key. by rewrite <- (contents_lookup TNil m key Hc), lookup_empty.
    + assert (troot t emptyRoot = Keccak256 (tenc t)) as -> by by destruct Hwf.
      apply Hs, known_U; [by eapply wf_is_node|]. by eapply Hk; [right|].
  - exists T2. split; [done|]. intros key Hb.
    destruct (TryGet_ok limit Hlimit d' (key_fuel key) T2 m key Hok2 Hb) as (T3&HT3&_); [done|]. by exists T3.
Qed.
End theorems.

(** ** Instances *)
Section one_key.
Context {CR : Crypto}.
Variables (key v : bytes).
Hypothesis Hkey : is_bytes key.
Hypothesis Hv : value_ok v.

Definition leaf : tree := TShort (keybytesToHex key) (TValue v).

Lemma leaf_wf n : (2 * length key + 1 <= n)%nat -> wf n leaf.
Proof. intros. constructor; [by apply hexkey_keybytesToHex|by rewrite length_hex|done]. Qed.

Lemma leaf_contents : contents leaf {[key := v]}.
Proof.
  intros k w. unfold leaf. rewrite tget_leaf. case_bool_decide as Hk.
  - subst k. split; [intros [= ->]; exists key; by rewrite lookup_singleton_eq|].
    intros (key'&->%keybytesToHex_inj&Hl). by rewrite lookup_singleton_eq in Hl.
  - split; [done|]. intros (key'&->&[? ?]%lookup_singleton_Some). by subst.
Qed.

Lemma leaf_known : map_known (fun e => e = tenc leaf) {[key := v]}.
Proof.
  intros t n Hwf Hc.
  rewrite (contents_unique n (2 * length key + 1) t leaf {[key := v]});
    [|done|by right; apply leaf_wf|done|apply leaf_contents].
  constructor; [done|constructor].
Qed.

Lemma empty_known U : map_known U ∅.
Proof.
  intros t n Hwf Hc. destruct Hwf as [->|Hwf]; [constructor|].
  destruct (tget_exists _ _ Hwf) as (k&w&Hg). apply Hc in Hg as (?&_&Hl). by rewrite lookup_empty in Hl.
Qed.

Lemma empty_contents : contents TNil ∅.
Proof. intros k w. split; [done|]. intros (?&_&Hl). by rewrite lookup_empty in Hl. Qed.
End one_key.

Definition key0 : bytes := [0x12; 0x34].
Definition value0 : bytes := [7; 8; 9].
Definition U0 (e : bytes) : Prop := e = tenc (leaf key0 value0).

(** The trie with one key, in memory, and the empty one. *)
Definition trie0 : Trie.t :=
  {| Trie.root := shortNode (keybytesToHex key0) (valueNode value0) {| flag_hash := None; gen := 0; dirty := true |};
     Trie.originalRoot := emptyRoot; Trie.cachegen := 0; Trie.cachelimit := 0 |}.
Definition trie_empty : Trie.t :=
  {| Trie.root := nilNode; Trie.originalRoot := emptyRoot; Trie.cachegen := 0; Trie.cachelimit := 0 |}.

Lemma value0_ok : value_ok value0.
Proof. split_and!; [done|by apply (bool_decide_unpack _)|by vm_compute]. Qed.

Lemma key0_bytes : is_bytes key0.
Proof. by apply (bool_decide_unpack _). Qed.

Lemma trie0_ok get : trie_ok 65 get trie0 {[key0 := value0]}.
Proof.
  exists (leaf key0 value0). split_and!.
  - right. apply leaf_wf; [apply key0_bytes|apply value0_ok|simpl; lia].
  - constructor; [by split|constructor].
  - apply leaf_contents; [apply key0_bytes|apply value0_ok].
Qed.

Lemma U0_free : collision_free U0.
Proof. intros x y -> ->. done. Qed.

Lemma U0_sentinels : no_sentinels U0.
Proof. intros e ->. by vm_compute. Qed.

Lemma U0_known : map_known U0 {[key0 := value0]}.
Proof. apply leaf_known; [apply key0_bytes|apply value0_ok]. Qed.

Lemma trie_refines_map_witness : exists T rs s,
  Trie.New NewMemDatabase emptyRoot = Done T /\
  run 20 [CUpdate key0 value0; CCommit; CGet key0; CUpdate [0x12] [5]; CHash; CDelete key0; CGet key0]
    (T, NewMemDatabase) = Done (rs, s) /\
  replies_ok [CUpdate key0 value0; CCommit; CGet key0; CUpdate [0x12] [5]; CHash; CDelete key0; CGet key0] ∅ rs.
Proof.
  apply (trie_refines_map 65) with (U := U0).
  - by vm_compute.
  - apply U0_free.
  - by right.
  - intros h e Hl. by vm_compute in Hl.
  - repeat match goal with |- commands_ok _ _ _ _ (_ :: _) => split end; [..|done].
    + split_and!; [split; [apply key0_bytes|simpl; lia]|apply value0_ok|by vm_compute|unfold key_fuel; simpl; lia].
    + exact U0_known.
    + split; [apply key0_bytes|unfold key_fuel; simpl; lia].
    + split_and!; [split; [by apply (bool_decide_unpack _)|simpl; lia]|by apply (bool_decide_unpack _)
        |by vm_compute|unfold key_fuel; simpl; lia].
    + done.
    + split; [apply key0_bytes|unfold key_fuel; simpl; lia].
    + split; [apply key0_bytes|unfold key_fuel; simpl; lia].
Defined.

Lemma root_hash_identifies_content_witness : exists h h' T1 T1',
  Trie.Hash_ (D:=MemDatabase) trie0 = Done (h, T1) /\ Trie.Hash_ (D:=MemDatabase) trie_empty = Done (h', T1') /\
  (h = h' <-> ({[key0 := value0]} : gmap bytes bytes) = ∅).
Proof.
  apply (root_hash_identifies_content 65) with (U := U0) (get := fun _ => None) (get' := fun _ => None).
  - by vm_compute.
  - apply U0_free.
  - apply trie0_ok.
  - exists TNil. split_and!; [by left|constructor|apply empty_contents].
  - apply U0_known.
  - apply empty_known.
  - apply U0_sentinels.
Defined.

Lemma commit_reopen_witness :
  match Trie.CommitTo (trie0, NewMemDatabase) with
  | (Done h, (_, d')) => exists T', Trie.New d' h = Done T' /\
      forall key, is_bytes key -> exists T2, Trie.TryGet d' (key_fuel key) T' key =
        Done (default [] (({[key0 := value0]} : gmap bytes bytes) !! key), T2)
  | (Error _, (T', _)) => T' = trie0
  | _ => False
  end.
Proof.
  apply (commit_reopen 65) with (U := U0).
  - by vm_compute.
  - apply U0_free.
  - apply trie0_ok.
  - intros h e Hl. by vm_compute in Hl.
  - apply U0_known.
  - apply U0_sentinels.
Defined.
