(* ===== verification/TrieProof.v ===== *)
(** Merkle proofs: what [VerifyProof] accepts is true, and what [Prove] produces is
    accepted. *)
From S2P Require Import Prelude GoBig CommonTypes Rlp VmTypes TrieEncoding TrieTree TrieEdit.
From S2P Require Import TrieNode TrieRep Trie TrieOk TrieHash TrieMap Concrete TrieTheorems.

(** ** A store for a tree *)
Section store_of.
Context {CR : Crypto}.

(** The encodings of all nodes of a tree. *)
Fixpoint encs (t : tree) : list bytes :=
  match t with
  | TNil | TValue _ => []
  | TShort k c => tenc (TShort k c) :: encs c
  | TFull ts => tenc (TFull ts) :: concat (map encs ts)
  end.

Definition store_of (l : list bytes) (h : bytes) : option bytes :=
  head (filter (fun e => Keccak256 e = h) l).

Variable U : bytes -> Prop.
Hypothesis HU : collision_free U.

Lemma store_of_elem l e : Forall U l -> e ∈ l -> store_of l (Keccak256 e) = Some e.
Proof.
  intros Hl He. unfold store_of. destruct (filter _ l) as [|x r] eqn:E.
  - assert (Hin : e ∈ filter (fun e' => Keccak256 e' = Keccak256 e) l) by by apply list_elem_of_filter.
    rewrite E in Hin. by apply not_elem_of_nil in Hin.
  - assert (Hx : x ∈ filter (fun e' => Keccak256 e' = Keccak256 e) l) by (rewrite E; by left).
    apply list_elem_of_filter in Hx as [Hk Hx]. rewrite Forall_forall in Hl. simpl. f_equal.
    apply HU; auto.
Qed.

Lemma known_encs t : known U t -> Forall U (encs t).
Proof.
  induction 1 as [| |k c Hu _ IH|ts Hu Hk IH]; [constructor..|by constructor|].
  constructor; [done|]. apply Forall_concat, Forall_map, Forall_lookup. intros i c Hc. by eapply IH.
Qed.

Lemma stored_encs l : Forall U l -> forall t b, (forall e, e ∈ encs t -> e ∈ l) -> stored (store_of l) b t.
Proof.
  intros Hl t. induction t as [|v|k t IH|ts IH] using tree_ind'; intros b Hin; [constructor..| |].
  - constructor; [intros _; apply store_of_elem; [done|apply Hin; by left]|].
    apply IH. intros e He. apply Hin. by right.
  - constructor; [intros _; apply store_of_elem; [done|apply Hin; by left]|].
    intros i c Hc. rewrite Forall_lookup in IH. eapply IH; [done|]. intros e He. apply Hin. right.
    apply list_elem_of_In, in_concat. exists (encs c). split; [|by apply list_elem_of_In].
    apply in_map, list_elem_of_In. by eapply list_elem_of_lookup_2.
Qed.
End store_of.

(** ** Walking a decoded node *)
(** The comparison with the key of a short node. *)
Lemma take_strip (k rest : bytes) :
  (zlen rest <? zlen k) || bool_decide (take (length k) rest <> k) = bool_decide (strip k rest = None).
Proof.
  destruct (strip k rest) as [r|] eqn:E.
  - apply strip_Some in E as ->. rewrite take_app_length.
    rewrite !bool_decide_eq_false_2, zlen_app by naive_solver.
    pose proof (zlen_nonneg r). by rewrite (proj2 (Z.ltb_ge _ _)) by lia.
  - rewrite (bool_decide_eq_true_2 (None = None)) by done. apply orb_true_iff. right.
    apply bool_decide_eq_true. intros Ht.
    assert (strip k rest = Some (drop (length k) rest)); [|congruence].
    apply strip_Some. by rewrite <- Ht at 1; rewrite take_drop.
Qed.

Section walk.
Context {CR : Crypto} {CK : CryptoOk}.
Variable get : bytes -> option bytes.
Variable U : bytes -> Prop.

(** The outcome of [get]: a reference to follow, a value, or nothing. *)
Definition walked (m : nat) (t : tree) (rest : bytes) (r : option (bytes * node)) : Prop :=
  match r with
  | Some (keyrest, hashNode h) => exists s m', h = thash s /\ wf m' s /\ (m' <= m)%nat /\ hexkey keyrest /\
      (known U t -> known U s) /\ (length keyrest <= length rest)%nat /\ tget t rest = tget s keyrest
  | Some (_, nilNode) => tget t rest = None
  | Some (_, valueNode v) => tget t rest = Some v
  | Some _ => False
  | None => tget t rest = None
  end.

Lemma walk_ok t : forall m b n rest, at_pos m t rest -> rep get b t n -> walked m t rest (Proof.get n rest).
Proof.
  induction t as [|v|k t IH|ts IH] using tree_ind'; intros m b n rest Hpos Hrep.
  - apply rep_nil_inv in Hrep as ->. by destruct rest.
  - apply rep_value_inv in Hrep as ->. by destruct rest.
  - destruct Hpos as [[[?|Hwf] Hk]|[[?|(?&?&_)] _]]; try done.
    destruct rest as [|x rest]; [by apply hexkey_nil in Hk|].
    inversion Hrep as [| |? ? ? n' f _ Hn| |]; subst; cbn [Proof.get].
    + rewrite take_strip. destruct (strip k (x :: rest)) as [r|] eqn:Es.
      * rewrite bool_decide_eq_false_2 by done. apply strip_Some in Es. rewrite Es in *. rewrite drop_app_length.
        destruct (at_pos_short m k t r Hwf Hk) as (m'&Hcp&Hm'&Hk0&_).
        pose proof (IH m' false n' r Hcp Hn) as Hw. unfold walked in *. rewrite tget_short.
        destruct (Proof.get n' r) as [[kr []]|]; try done.
        destruct Hw as (s&m2&?&?&?&?&Hkn&Hle&?). exists s, m2. rewrite length_app. split_and!; try done; try lia.
        intros Hkt. apply Hkn. by inversion Hkt.
      * rewrite bool_decide_eq_true_2 by done. cbn. by rewrite Es.
    + exists (TShort k t), m. by split_and!.
  - destruct Hpos as [[[?|Hwf] Hk]|[[?|(?&?&_)] _]]; try done.
    destruct (wf_full_length _ _ Hwf) as [_ [m' ->]].
    destruct rest as [|x rest]; [by apply hexkey_nil in Hk|].
    destruct (at_pos_child m' ts x rest Hwf Hk) as (c&Hx&Hcp&_).
    inversion Hrep as [| | |? ? cs f _ Hlen Hc|]; subst; cbn [Proof.get].
    + pose proof Hx as [Hx' Hx0]%zget_lookup. destruct (lookup_lt_is_Some_2 cs (Z.to_nat x)) as [n' Hn'].
      { rewrite Hlen. by eapply lookup_lt_Some. }
      assert (zget (map Proof.get cs) x = Some (Proof.get n')) as ->.
      { apply zget_lookup. by rewrite list_lookup_fmap, Hn'. }
      cbn [mbind option_bind]. rewrite Forall_lookup in IH.
      pose proof (IH _ _ Hx' m' false n' rest Hcp (Hc _ _ _ Hx' Hn')) as Hw.
      unfold walked in *. rewrite tget_full, Hx. cbn [mbind option_bind].
      destruct (Proof.get n' rest) as [[kr []]|]; try done.
      destruct Hw as (s&m2&?&?&?&?&Hkn&Hle&?). exists s, m2. simpl length. split_and!; try done; try lia.
      intros Hkt. apply Hkn. inversion Hkt; eauto.
    + exists (TFull ts), (S m'). by split_and!.
Qed.
End walk.

(** ** Soundness *)
Section soundness.
Context {CR : Crypto} {CK : CryptoOk}.
Variable U : bytes -> Prop.
Hypothesis HU : collision_free U.

Lemma known_store t b : known U t -> stored (store_of (encs t)) b t.
Proof. intros Hk. by apply (stored_encs U HU (encs t) (known_encs U t Hk)). Qed.

Lemma verify_loop_sound proof : Forall U proof -> forall m t i last key r,
  wf m t -> Z.of_nat m < 2 ^ 32 -> known U t -> hexkey key ->
  Proof.verify_loop i last key (thash t) proof = Done r -> r = tget t key.
Proof.
  induction 1 as [|buf proof Hbuf _ IH]; intros m t i last key r Hwf Hm Hk Hkey; [done|].
  cbn [Proof.verify_loop]. case_bool_decide as Hh; [done|].
  assert (buf = tenc t) as ->.
  { apply HU; [done|by apply known_U; [eapply wf_is_node|]|].
    destruct (decide (Keccak256 buf = thash t)); [done|done]. }
  rewrite (decodeNode_tenc 0 m) by done. simpl_decode.
  destruct (rep_dnode 0 (store_of (encs t)) m t Hwf true (Some (thash t)) (known_store t true Hk)) as [Hrep _];
    [right; split; [done|by left]|].
  pose proof (walk_ok _ U t m true _ key ltac:(by left; split; [right|]) Hrep) as Hw.
  unfold walked in Hw. destruct (Proof.get _ key) as [[kr cld]|]; [|done]. simpl_decode.
  destruct cld; try done.
  - case_match; [done|]. by intros [= <-].
  - destruct Hw as (s&m'&->&Hs&Hle&Hkr&Hkn&_&->). eapply IH; [done|lia|by apply Hkn|done].
  - case_match; [done|]. by intros [= <-].
Qed.
End soundness.

(** ** Completeness *)
Section paths.
Context {CR : Crypto} {CK : CryptoOk}.

(** The nodes on the way to a key. *)
Fixpoint tpath (t : tree) (key : bytes) : list tree :=
  match key with
  | [] => []
  | x :: r =>
      match t with
      | TNil | TValue _ => []
      | TShort k c => t :: match strip k key with Some rest => tpath c rest | None => [] end
      | TFull ts => t :: match zget (map tpath ts) x with Some g => g r | None => [] end
      end
  end.

(** The encodings that make up the proof: the first node, then those with a hash. *)
Fixpoint proof_of (first : bool) (ss : list tree) : list bytes :=
  match ss with
  | [] => []
  | s :: ss => (if first || (32 <=? zlen (tenc s)) then [tenc s] else []) ++ proof_of false ss
  end.

Lemma tpath_full ts x r c : zget ts x = Some c -> tpath (TFull ts) (x :: r) = TFull ts :: tpath c r.
Proof.
  intros [Hc Hx]%zget_lookup. cbn [tpath].
  assert (zget (map tpath ts) x = Some (tpath c)) as ->; [|done].
  apply zget_lookup. by rewrite list_lookup_fmap, Hc.
Qed.

Lemma tpath_short k c key : key <> [] -> tpath (TShort k c) key =
  TShort k c :: match strip k key with Some rest => tpath c rest | None => [] end.
Proof. by destruct key. Qed.

Lemma tpath_wf t : forall m rest, at_pos m t rest ->
  Forall (fun s => exists m', (m' <= m)%nat /\ wf m' s) (tpath t rest).
Proof.
  induction t as [|v|k t IH|ts IH] using tree_ind'; intros m rest Hpos;
    [by destruct rest; constructor|by destruct rest; constructor| |];
    (destruct Hpos as [[[?|Hwf] Hk]|[[?|(?&?&_)] _]]; try done);
    (destruct rest as [|x rest]; [by apply hexkey_nil in Hk|]).
  - rewrite tpath_short by done. constructor; [by exists m|].
    destruct (strip k (x :: rest)) as [r|] eqn:E; [|constructor]. apply strip_Some in E. rewrite E in Hk.
    destruct (at_pos_short m k t r Hwf Hk) as (m'&Hcp&Hm'&_).
    eapply Forall_impl; [by apply (IH m' r)|]. intros s (m2&?&?). exists m2. split; [lia|done].
  - destruct (wf_full_length _ _ Hwf) as [_ [m' ->]].
    destruct (at_pos_child m' ts x rest Hwf Hk) as (c&Hx&Hcp&_). rewrite (tpath_full ts x rest c Hx).
    constructor; [by exists (S m')|]. apply zget_lookup in Hx as [Hx _]. rewrite Forall_lookup in IH.
    eapply Forall_impl; [by eapply (IH _ _ Hx m' rest)|]. intros s (m2&?&?). exists m2. split; [lia|done].
Qed.

(** Keys of one length: no key ends within the tree. *)
Definition uniform (t : tree) (rest : bytes) : Prop :=
  forall k v, tget t k = Some v -> length k = length rest.

Lemma uniform_short k c r : uniform (TShort k c) (k ++ r) -> uniform c r.
Proof.
  intros Hu q v Hq. specialize (Hu (k ++ q) v). rewrite tget_short, !length_app in Hu.
  specialize (Hu Hq). lia.
Qed.

Lemma uniform_child ts x c r : zget ts x = Some c -> uniform (TFull ts) (x :: r) -> uniform c r.
Proof.
  intros Hx Hu q v Hq. specialize (Hu (x :: q) v). rewrite tget_full, Hx in Hu. specialize (Hu Hq). simpl in Hu. lia.
Qed.

(** A full node with an empty value slot has longer keys. *)
Lemma uniform_slot m ts x : wf (S m) (TFull ts) -> uniform (TFull ts) [x] -> zget ts 16 <> Some TNil.
Proof.
  intros Hwf Hu Hx. destruct (full_two_keys _ _ Hwf) as (a&b&r&s&v&w&Hab&Ha&Hb).
  assert (Hlast : forall a r v, tget (TFull ts) (a :: r) = Some v -> a = 16).
  { intros a' r' v' Hg. pose proof (Hu _ _ Hg) as Hl. simpl in Hl. destruct r'; [|done].
    destruct (tget_key _ _ Hwf _ _ Hg) as [Hk _]. apply hexkey_cons in Hk as [[? _]|[_ ?%hexkey_nil]]; done. }
  pose proof (Hlast _ _ _ Ha) as ->. rewrite tget_full, Hx in Ha. done.
Qed.
End paths.

Abbreviation below_path t rest := (proof_of false (tail (tpath t rest))).

Section completeness.
Context {CR : Crypto} {CK : CryptoOk}.

Lemma tpath_cons m t rest : wf m t -> rest <> [] -> tpath t rest = t :: tail (tpath t rest).
Proof. intros Hwf Hr. destruct rest; [done|]. by destruct Hwf. Qed.

(** Walking the decoded node of [t] ends at the next node of the proof, or at the
    end of it; [q] is the proof from there. *)
Definition disk_walked (m : nat) (t : tree) (rest : bytes) (q : list bytes) (r : option (bytes * node)) : Prop :=
  match r with
  | Some (kr, hashNode h) => exists s m', h = thash s /\ wf m' s /\ (m' <= m)%nat /\ hexkey kr /\ uniform s kr /\
      (length kr <= length rest)%nat /\ tget t rest = tget s kr /\ q = tenc s :: below_path s kr
  | Some (_, nilNode) => tget t rest = None /\ q = []
  | Some (_, valueNode v) => tget t rest = Some v /\ q = []
  | _ => False
  end.

(** A child, from the decoded parent. *)
Lemma disk_child m c rest : at_pos m c rest -> uniform c rest -> (c = TNil -> rest <> []) ->
  (wf m c -> hexkey rest -> disk_walked m c rest (below_path c rest) (Proof.get (dnode 0 None c) rest)) ->
  disk_walked m c rest (proof_of false (tpath c rest)) (Proof.get (dref 0 c) rest).
Proof.
  intros Hpos Hu Hnil IH. destruct Hpos as [[[->|Hwf] Hk]|[[->|(v&->&_)] ->]].
  - destruct rest; [by apply hexkey_nil in Hk|done].
  - assert (Hr : rest <> []) by by intros ->; apply hexkey_nil in Hk.
    rewrite (tpath_cons m c rest Hwf Hr). cbn [proof_of orb]. rewrite dref_node by by eapply wf_is_node.
    destruct (zlen (tenc c) <? 32) eqn:E; bool_to_prop.
    + rewrite (proj2 (Z.leb_gt _ _)) by lia. by apply IH.
    + rewrite (proj2 (Z.leb_le _ _)) by lia. destruct rest; [done|]. cbn [Proof.get app].
      exists c, m. by split_and!.
  - by destruct (Hnil eq_refl).
  - done.
Qed.

Lemma disk_walk t : forall m h rest, wf m t -> hexkey rest -> uniform t rest ->
  disk_walked m t rest (below_path t rest) (Proof.get (dnode 0 h t) rest).
Proof.
  induction t as [|v|k t IH|ts IH] using tree_ind'; intros m h rest Hwf Hk Hu; [by inversion Hwf..| |];
    (destruct rest as [|x rest]; [by apply hexkey_nil in Hk|]).
  - change (dnode 0 h (TShort k t)) with
      (shortNode k (dref 0 t) {| flag_hash := h; gen := 0; dirty := false |}).
    rewrite tpath_short by done. cbn [Proof.get tail]. rewrite take_strip.
    destruct (strip k (x :: rest)) as [r|] eqn:Es.
    + rewrite bool_decide_eq_false_2 by done. apply strip_Some in Es. rewrite Es in *. rewrite drop_app_length.
      destruct (at_pos_short m k t r Hwf Hk) as (m'&Hcp&Hm'&Hk0&_).
      pose proof (disk_child m' t r Hcp (uniform_short _ _ _ Hu)) as Hc.
      assert (Hw : disk_walked m' t r (proof_of false (tpath t r)) (Proof.get (dref 0 t) r)).
      { apply Hc; [by intros ->; inversion Hwf|]. intros Hwt Hkr. apply IH; [done|done|by eapply uniform_short]. }
      unfold disk_walked in *. rewrite tget_short. destruct (Proof.get (dref 0 t) r) as [[kr []]|]; try done.
      destruct Hw as (s&m2&?&?&?&?&?&?&?&?). exists s, m2. rewrite length_app. split_and!; try done; lia.
    + rewrite bool_decide_eq_true_2 by done. cbn. by rewrite Es.
  - change (dnode 0 h (TFull ts)) with
      (fullNode (map (dref 0) ts) {| flag_hash := h; gen := 0; dirty := false |}).
    destruct (wf_full_length _ _ Hwf) as [_ [m' ->]].
    destruct (at_pos_child m' ts x rest Hwf Hk) as (c&Hx&Hcp&_).
    rewrite (tpath_full ts x rest c Hx). cbn [Proof.get tail]. pose proof Hx as [Hx' Hx0]%zget_lookup.
    assert (zget (map Proof.get (map (dref 0) ts)) x = Some (Proof.get (dref 0 c))) as ->.
    { apply zget_lookup. by rewrite !list_lookup_fmap, Hx'. }
    cbn [mbind option_bind]. rewrite Forall_lookup in IH.
    assert (Hw : disk_walked m' c rest (proof_of false (tpath c rest)) (Proof.get (dref 0 c) rest)).
    { apply disk_child; [done|by eapply uniform_child| |].
      - intros -> ->. apply hexkey_cons in Hk as [[-> _]|[_ ?%hexkey_nil]]; [|done].
        by destruct (uniform_slot m' ts 16 Hwf Hu).
      - intros Hwc Hkc. apply (IH _ _ Hx'); [done|done|by eapply uniform_child]. }
    unfold disk_walked in *. rewrite tget_full, Hx. cbn [mbind option_bind].
    destruct (Proof.get (dref 0 c) rest) as [[kr []]|]; try done.
    destruct Hw as (s&m2&?&?&?&?&?&?&?&?). exists s, m2. simpl length. split_and!; try done; lia.
Qed.

(** The decoded elements lead from one to the next. *)
Lemma verify_loop_complete q : forall m t i key, q = below_path t key -> wf m t -> Z.of_nat m < 2 ^ 32 ->
  hexkey key -> uniform t key ->
  Proof.verify_loop i (i + zlen q) key (thash t) (tenc t :: q) = Done (tget t key).
Proof.
  induction q as [|e q IH]; intros m t i key Hq Hwf Hm Hk Hu; rewrite Hq;
    pose proof (disk_walk t m (Some (thash t)) key Hwf Hk Hu) as Hw; rewrite <- Hq in *;
    cbn [Proof.verify_loop]; rewrite bool_decide_eq_false_2 by (by intros []);
    rewrite (decodeNode_tenc 0 m) by done; simpl_decode; unfold disk_walked in Hw;
    destruct (Proof.get _ key) as [[kr cld]|]; try done; simpl_decode.
  - rewrite Z.add_0_r, Z.eqb_refl. cbn [negb]. destruct cld; try done; [by destruct Hw as [-> _]| |by destruct Hw as [-> _]].
    by destruct Hw as (?&?&_&_&_&_&_&_&_&?).
  - destruct cld; try done; [by destruct Hw| |by destruct Hw].
    destruct Hw as (s&m'&->&Hs&Hle&Hkr&Hus&_&->&[= -> Hq']). rewrite zlen_cons.
    rewrite <- (IH m' s (i + 1) kr Hq' Hs ltac:(lia) Hkr Hus). by replace (i + (zlen q + 1)) with (i + 1 + zlen q) by lia.
Qed.
End completeness.

(** ** The nodes of a proof *)
Section proving.
Context {CR : Crypto} {CK : CryptoOk} {D : Type} {DB : Database D} {DK : DatabaseOk D}.
Variable db : D.
Variable tr : Trie.t.
Abbreviation get := (fun h => Db_Get h db).

Definition on_path (s : tree) (n : node) : Prop := loaded n /\ exists b, rep get b s n.

Lemma path_nodes_ok fuel : forall m t b n rest, at_pos m t rest -> Z.of_nat m < 2 ^ 32 -> rep get b t n ->
  enough fuel n rest ->
  exists ns, Proof.path_nodes db tr fuel n rest = Done (Some ns) /\ Forall2 on_path (tpath t rest) ns.
Proof.
  induction fuel as [|fuel IH]; intros m t b n rest Hpos Hm Hrep Hf.
  { destruct Hf as [?|(_&?&?)]; [lia|]. destruct rest; [done|simpl in *; lia]. }
  cbn [Proof.path_nodes]. destruct Hpos as [[[->|Hwf] Hk]|[Hv ->]].
  { apply rep_nil_inv in Hrep as ->. rewrite orb_true_r. exists []. by destruct rest. }
  2:{ exists []. split; [done|]. destruct t; constructor. }
  rewrite (zlen_key_ne _ Hk). destruct rest as [|x rest]; [by apply hexkey_nil in Hk|].
  destruct Hrep as [| |b k c n f Hfl Hc|b ts cs f Hfl Hlen Hc|b t Ht Hh Hst]; [by inversion Hwf..| | |]; cbn [is_nil orb].
  - rewrite take_strip, tpath_short by done. destruct (strip k (x :: rest)) as [r|] eqn:Es.
    + rewrite bool_decide_eq_false_2 by done. apply strip_Some in Es. rewrite Es in *. rewrite drop_app_length.
      destruct (at_pos_short m k c r Hwf Hk) as (m'&Hcp&Hm'&Hk0&_).
      destruct (IH m' c false n r Hcp ltac:(lia) Hc) as (ns&->&Hns).
      { left. destruct k; [done|]. unfold enough in Hf. rewrite length_app in Hf. simpl in Hf. lia. }
      eexists. split; [done|]. constructor; [|done]. split; [done|]. exists b. by constructor.
    + rewrite bool_decide_eq_true_2 by done. destruct fuel as [|fuel].
      { unfold enough in Hf. simpl in Hf. lia. }
      cbn [Proof.path_nodes is_nil]. rewrite orb_true_r. eexists. split; [done|].
      constructor; [|constructor]. split; [done|]. exists b. by constructor.
  - destruct (wf_full_length _ _ Hwf) as [_ [m' ->]].
    destruct (at_pos_child m' ts x rest Hwf Hk) as (c&Hx&Hcp&_). rewrite (tpath_full ts x rest c Hx).
    destruct (rep_children db ts cs b f x c) as (n&Hn&Hrn); [by constructor|done|].
    change (zget (x :: rest) 0) with (Some x). cbn [or_panic]. simpl_decode. rewrite Hn. simpl_decode.
    destruct (IH m' c false n rest Hcp ltac:(lia) Hrn) as (ns&Hns&Hf2).
    { left. unfold enough in Hf. simpl in Hf. lia. }
    change (drop 1 (x :: rest)) with rest. rewrite Hns. simpl_decode. eexists. split; [done|].
    constructor; [|done]. split; [done|]. exists b. by constructor.
  - destruct (resolveHash_ok db tr m t b (thash t) [] []) as (n&->&Hrn&Hl); [done|done|by constructor|].
    apply (IH m t b); [by left; split; [right|]|done|done|].
    right. split_and!; [done|done|]. unfold enough in Hf. simpl in *. lia.
Qed.

(** Without a writer nothing is stored and nothing fails. *)
Lemma element_ok m b t n : wf m t -> Z.of_nat m < 2 ^ 32 -> rep get b t n -> loaded n ->
  exists co ca hn, fst (hashChildren (hash (D:=D) 0 0) n None) = Done (co, ca) /\
    fst (store (D:=D) co false None) = Done hn /\ node_value co = tval t /\
    bool_decide (is_Some (Trie.as_hash hn)) = (32 <=? zlen (tenc t)).
Proof.
  intros Hwf Hm Hrep Hl. destruct (node_flag n) as [f|] eqn:Ef; [|by destruct n].
  assert (Hfl : flag_ok get b t f).
  { by destruct Hrep; simpl in Ef; simplify_eq. }
  set (U := fun _ : bytes => False).
  assert (Hno : forall t : tree, writable get U (None : option D) t) by (intros ? [??]; done).
  assert (Hinj : forall x y : bytes, U x -> U y -> Keccak256 x = Keccak256 y -> x = y) by done.
  pose proof (hashChildren_ok get U 0 0 m t Hwf b n f (None : option D)) as Hc.
  destruct (hashChildren (hash 0 0) n None) as [[[co ca]|e| |] d'];
    (ospecialize (Hc _ Hrep Hl Ef (Hno t)); [intros m' c Hwc Hle _; eapply hash_ok; [done|done|lia]|]);
    [|by destruct Hc as [_ []]|done|done].
  destruct Hc as (Hv&Hcf&_).
  pose proof (store_ok get U Hinj m t false (None : option D) co f Hwf Hm Hv Hcf ltac:(apply Hfl) (Hno t)) as Hs.
  destruct (store co false None) as [[hn|e| |] d2] eqn:Est; [|by destruct Hs as [_ []]|done|done].
  exists co, ca, hn. split_and!; [done|by rewrite Est|done|]. destruct Hs as ([[Hh ->]|(Hh&_&Hhl)]&_).
  - destruct Hh as [?|Hh]; [done|]. by rewrite (proj2 (Z.leb_le _ _)).
  - apply not_hashed in Hh as [_ Hh]. rewrite (proj2 (Z.leb_gt _ _)) by done. by destruct hn.
Qed.

Lemma elements_ok ss ns : Forall2 on_path ss ns ->
  Forall (fun s => exists m, Z.of_nat m < 2 ^ 32 /\ wf m s) ss ->
  forall i, 0 <= i -> Proof.elements (D:=D) i ns = Done (proof_of (i =? 0) ss).
Proof.
  induction 1 as [|s n ss ns [Hl (b&Hrep)] _ IH]; intros Hwf i Hi; [done|].
  inversion Hwf as [|? ? (m&Hm&Hs) Hwf']; subst.
  destruct (element_ok m b s n Hs Hm Hrep Hl) as (co&ca&hn&Hc&Hst&Hv&Hh).
  cbn [Proof.elements proof_of]. rewrite Hc. simpl_decode. rewrite Hst. simpl_decode. rewrite IH by (done || lia).
  rewrite (proj2 (Z.eqb_neq (i + 1) 0)) by lia. simpl_decode. rewrite Hh, Hv, orb_comm.
  destruct (_ || _); [|done]. destruct (tval_ok m s Hs Hm) as [Henc Hsz].
  rewrite EncodeToBytes_spec by (done || (fold (tenc s); unfold size_limit in Hsz; lia)). done.
Qed.
End proving.

(** ** Theorems *)
Section theorems.
Context {CR : Crypto} {CK : CryptoOk} {D : Type} {DB : Database D} {DK : DatabaseOk D}.
Variable limit : nat.
Hypothesis Hlimit : Z.of_nat limit < 2 ^ 32.

(** The root hash of a map, through the tree that holds it. *)
Lemma Hash_troot get T m t h T1 : trie_ok limit get T m -> wf0 limit t -> contents t m ->
  Trie.Hash_ (D:=D) T = Done (h, T1) -> h = troot t emptyRoot.
Proof.
  intros Hok Hwf Hc Hh. destruct (Hash_ok limit Hlimit get T m Hok) as (h'&T'&Hh'&Hr&_).
  assert (h' = h) as -> by congruence. eapply root_of_unique; [done|]. by exists t, limit.
Qed.

(** C19: a proof that [VerifyProof] accepts is right.  Against the root hash of a trie,
    whatever the elements of the proof are and however many, an accepted proof
    returns the value the trie has for the key, or nothing where it has none
    (without hash collisions between nodes of the trie and elements). *)
Theorem VerifyProof_sound (U : bytes -> Prop) (get : bytes -> option bytes) (T T1 : Trie.t)
  (m : gmap bytes bytes) (h : Hash) (key : bytes) (proof : list bytes) (r : option bytes)
  (HU : collision_free U) (Hok : trie_ok limit get T m) (Hh : Trie.Hash_ (D:=D) T = Done (h, T1))
  (Hk : map_known U m) (Hs : no_sentinels U) (Hp : Forall U proof) (Hb : is_bytes key)
  (Hv : Proof.VerifyProof h key proof = Done r) : r = m !! key.
Proof.
  pose proof Hok as (t&Hwf&_&Hc). rewrite (Hash_troot get T m t h T1 Hok Hwf Hc Hh) in Hv.
  rewrite <- (contents_lookup t m key Hc). specialize (Hk t limit Hwf Hc). destruct Hwf as [->|Hwf].
  - exfalso. destruct Hp as [|e proof He _]; [done|]. unfold Proof.VerifyProof in Hv. cbn [Proof.verify_loop] in Hv.
    rewrite bool_decide_eq_true_2 in Hv by apply (Hs e He). done.
  - assert (troot t emptyRoot = thash t) as E by by destruct Hwf. rewrite E in Hv.
    by eapply (verify_loop_sound U HU proof Hp limit t); [..|apply hexkey_keybytesToHex|].
Qed.

End theorems.

(** ** Instances *)
Lemma VerifyProof_sound_witness : exists h T1,
  Trie.Hash_ (D:=MemDatabase) trie0 = Done (h, T1) /\
  Proof.VerifyProof h key0 [tenc (leaf key0 value0)] = Done (Some value0) /\
  Some value0 = ({[key0 := value0]} : gmap bytes bytes) !! key0.
Proof.
  do 2 eexists. split; [by vm_compute|]. split; [by vm_compute|].
  eapply (VerifyProof_sound (D:=MemDatabase) 65) with (U := U0) (get := fun _ => None) (T := trie0)
    (proof := [tenc (leaf key0 value0)]).
  - by vm_compute.
  - apply U0_free.
  - apply trie0_ok.
  - by vm_compute.
  - apply U0_known.
  - apply U0_sentinels.
  - by constructor.
  - apply key0_bytes.
  - by vm_compute.
Defined.


(** The keys [1234] and [1256] share the byte [12]. *)
Definition prefix_commands : list command := [CUpdate [0x12; 0x34] [7]; CUpdate [0x12; 0x56] [8]].

(** Where keys may be prefixes of one another the assertion [tn.(valueNode)] at the
    end of [get] does not hold: the proof [Prove] gives for the absence of the key
    [12] from a trie that has only longer keys makes [VerifyProof] panic. *)
Lemma prefix_proof_panics :
  exists T rs s h T1 proof, Trie.New NewMemDatabase emptyRoot = Done T /\
    run 20 prefix_commands (T, NewMemDatabase) = Done (rs, s) /\
    Trie.Hash_ (D:=MemDatabase) s.1 = Done (h, T1) /\
    Trie.TryGet s.2 20 s.1 [0x12] = Done ([], s.1) /\
    Proof.Prove s.2 20 s.1 [0x12] = Done proof /\ Proof.VerifyProof h [0x12] proof = Panic.
Proof. do 6 eexists. do 5 (split; [vm_compute; reflexivity|]). by vm_compute. Qed.
