(* ===== verification/StateSecure.v ===== *)
(** The state database on the tries of [trie/]: [SecureTrie] over a key-value
    database is a [Backend], and a writer over it a [Writer].

    A read that loads nodes returns an updated trie; the state database goes on with
    the old one here, which only loads the nodes again.  Where the trie logs an error
    and goes on, so does the model; the theorems show that there is none. *)
From S2P Require Import Prelude GoBig CommonMath CommonTypes Params Rlp VmTypes TrieEncoding TrieTree TrieEdit.
From S2P Require Import TrieNode TrieRep Trie TrieOk TrieHash TrieMap TrieTheorems StateSpec.
From S2P Require Import StateDB StateCommit StateDBLaws StateSync StateCommitOk.

Section backend.
Context {CR : Crypto} {D : Type} {DB : Database D} (lru : Hash -> Z -> gmap Hash Z -> gmap Hash Z) (d : D).

(** Enough for a path of 64 nibbles. *)
Definition secure_fuel : nat := 131.

Definition SecureBackend : Backend := {|
  trie := SecureTrie.t;
  NewSecure root limit := match SecureTrie.NewSecure d root limit with Done t => Some t | _ => None end;
  empty_trie := {| SecureTrie.trie := {| Trie.root := nilNode; Trie.originalRoot := Common.zeroHash; Trie.cachegen := 0; Trie.cachelimit := 0 |};
    SecureTrie.secKeyCache := ∅; SecureTrie.owner := false |};
  Trie_Get k t := match SecureTrie.Get d secure_fuel t k with Done (v, _) => v | _ => [] end;
  Trie_Update k v t := match SecureTrie.Update d secure_fuel t k v with Done t' => t' | _ => t end;
  Trie_Delete k t := match SecureTrie.Delete d secure_fuel t k with Done t' => t' | _ => t end;
  Trie_Hash t := match SecureTrie.Hash_ (D:=D) t with Done (h, _) => h | _ => Common.zeroHash end;
  db_Get k := Db_Get k d;
  lru_Add := lru;
|}.

Definition SecureWriter (W : Type) {DW : Database W} : @Writer W SecureBackend :=
  @Build_Writer W SecureBackend Db_Put (fun '(t, w) =>
    match SecureTrie.CommitTo (t, w) with
    | (Done h, s) => (Done h, s)
    | (Error _, s) => (Error errWrite, s)
    | (Panic, s) => (Panic, s)
    | (NoFuel, s) => (NoFuel, s)
    end).
End backend.

(** ** What the tries mean *)
Section theory.
Context {CR : Crypto} {CK : CryptoOk}.
(** The keys, and the encodings of nodes and codes, in use. *)
Variables K U : bytes -> Prop.

(** What may be written under its hash: also the empty code. *)
Definition written (e : bytes) : Prop := e = [] \/ U e.

(** A map and the one with the hashes of its keys. *)
Definition hashed_map (m mh : gmap bytes bytes) : Prop :=
  (forall k v, m !! k = Some v -> K k) /\
  forall h v, mh !! h = Some v <-> exists k, h = Keccak256 k /\ m !! k = Some v.

(** Only entries under hashes. *)
Definition hash_entries (g : bytes -> option bytes) (h : bytes) : option bytes := if zlen h =? 32 then g h else None.

Definition key_limit : nat := 65.

Definition SecureTheory : TrieTheory := {|
  named := K;
  known m := forall mh, hashed_map m mh -> map_known U mh;
  code_known := written;
  roots h m := exists mh, hashed_map m mh /\ root_of h mh;
  held g h m := exists mh, hashed_map m mh /\ map_stored key_limit (hash_entries g) h mh;
|}.

Record hashes_ok : Prop := {
  ho_keys k k' : K k -> K k' -> Keccak256 k = Keccak256 k' -> k = k';
  ho_encodings : collision_free written;
  ho_sentinels : no_sentinels U;
}.
Hypothesis Hok : hashes_ok.

Lemma hashed_map_fun m mh mh' : hashed_map m mh -> hashed_map m mh' -> mh = mh'.
Proof.
  intros [_ H] [_ H']. apply map_eq. intros h. apply option_eq. intros v. by rewrite H, H'.
Qed.

Lemma hashed_map_empty : hashed_map ∅ ∅.
Proof. split; [intros k v H; by rewrite lookup_empty in H|]. intros h v. split; [by rewrite lookup_empty|]. intros (?&_&H). by rewrite lookup_empty in H. Qed.

Lemma hashed_map_lookup m mh k : hashed_map m mh -> K k -> mh !! Keccak256 k = m !! k.
Proof.
  intros [Hk H] Hkk. apply option_eq. intros v. rewrite H. split.
  - intros (k'&E&Hm). by rewrite (ho_keys Hok k k' Hkk (Hk k' v Hm) E).
  - intros Hm. by exists k.
Qed.

Lemma hashed_map_insert m mh k v : hashed_map m mh -> K k -> hashed_map (<[k := v]> m) (<[Keccak256 k := v]> mh).
Proof.
  intros [Hk H] Hkk. split.
  - intros k' v' [[<- _]|[_ Hm]]%lookup_insert_Some; [done|by eapply Hk].
  - intros h v'. rewrite lookup_insert_Some, H. split.
    + intros [[<- <-]|[Hne (k'&->&Hm)]]; [exists k; by rewrite lookup_insert_eq|].
      exists k'. rewrite lookup_insert_ne by (intros <-; done). done.
    + intros (k'&->&Hm). apply lookup_insert_Some in Hm as [[<- <-]|[Hne Hm]]; [by left|right].
      split; [|by exists k']. intros E. apply Hne. by apply (ho_keys Hok); [| |]; eauto.
Qed.

Lemma hashed_map_delete m mh k : hashed_map m mh -> K k -> hashed_map (delete k m) (delete (Keccak256 k) mh).
Proof.
  intros [Hk H] Hkk. split.
  - intros k' v' [_ Hm]%lookup_delete_Some. by eapply Hk.
  - intros h v'. rewrite lookup_delete_Some, H. split.
    + intros [Hne (k'&->&Hm)]. exists k'. rewrite lookup_delete_ne by (intros <-; done). done.
    + intros (k'&->&Hm). apply lookup_delete_Some in Hm as [Hne Hm].
      split; [|by exists k']. intros E. apply Hne. by apply (ho_keys Hok); [| |]; eauto.
Qed.

Lemma hash_entries_sub g h e : hash_entries g h = Some e -> g h = Some e.
Proof. unfold hash_entries. by case_match. Qed.

Lemma map_stored_mono g g' h m : (forall k v, g k = Some v -> g' k = Some v) ->
  map_stored key_limit g h m -> map_stored key_limit g' h m.
Proof. intros Hg (t&?&?&?&?). exists t. split_and!; try done. by eapply stored_mono. Qed.

Lemma root_of_array h m : root_of h m -> Common.is_array 32 h.
Proof.
  intros (t&n&_&_&->). destruct t; simpl; try apply Keccak256_size.
  split; [by vm_compute|by apply (bool_decide_unpack _)].
Qed.

Lemma SecureTheory_ok : @TrieTheoryOk CR SecureTheory.
Proof.
  split; simpl.
  - intros h h' m (mh&Hm&Hr) (mh'&Hm'&Hr'). rewrite (hashed_map_fun m mh' mh) in Hr' by done. by eapply root_of_unique.
  - intros h m (mh&_&Hr). by eapply root_of_array.
  - intros g h m (mh&Hm&t&?&?&->&_). exists mh. split; [done|]. by eexists _, _.
  - intros g g' h m Hg (mh&Hm&Hs). exists mh. split; [done|]. eapply map_stored_mono; [|done].
    intros k v. unfold hash_entries. destruct (zlen k =? 32) eqn:E; [|done]. bool_to_prop. by apply Hg.
  - intros c c' Hc Hc'. by apply (ho_encodings Hok).
  - by left.
Qed.
End theory.

(** More encodings, more known trees. *)
Lemma known_sub {CR : Crypto} (U U' : bytes -> Prop) t : (forall e, U e -> U' e) -> TrieHash.known U t -> TrieHash.known U' t.
Proof. intros H. induction 1; constructor; auto. Qed.

Section hashes.
Context {CR : Crypto} {CK : CryptoOk}.

Lemma grows_of g g' : TrieHash.grows g g' -> grows g g'.
Proof. intros H k v _. apply H. Qed.

Lemma trie_ok_grows g g' T m : grows g g' -> trie_ok key_limit g T m -> trie_ok key_limit g' T m.
Proof.
  intros Hg (t&?&?&?). exists t. split_and!; [done| |done]. eapply rep_mono_nodes; [|done].
  intros t'. apply Hg. apply Keccak256_size.
Qed.

Lemma map_stored_hashes g h m : map_stored key_limit g h m -> map_stored key_limit (hash_entries g) h m.
Proof.
  intros (t&?&?&?&?). exists t. split_and!; try done. eapply stored_mono_nodes; [|done]. intros t' Ht'.
  unfold hash_entries. by rewrite (proj1 (Keccak256_size (tenc t')) : zlen (TrieRep.thash t') = 32).
Qed.
End hashes.

Section instances.
Context {CR : Crypto} {CK : CryptoOk} {D : Type} {DB : Database D} {DK : DatabaseOk D} (lru : Hash -> Z -> gmap Hash Z -> gmap Hash Z).
Variables K U : bytes -> Prop.
Hypothesis Hok : hashes_ok K U.
Variable d : D.

Abbreviation get := (fun h => Db_Get h d).
Abbreviation be := (SecureBackend lru d).

Definition cache_ok (t : SecureTrie.t) : Prop :=
  forall hk key, SecureTrie.getSecKeyCache t !! hk = Some key -> zlen hk = 32.

Definition secure_holds (t : SecureTrie.t) (m : gmap bytes bytes) : Prop :=
  (exists mh, hashed_map K m mh /\ trie_ok key_limit get (SecureTrie.trie t) mh) /\ cache_ok t.

Definition SecureTries : @Tries (SecureTheory K U) be := secure_holds.

Lemma limit_ok : Z.of_nat key_limit < 2 ^ 32.
Proof. by vm_compute. Qed.

Lemma hash_key_ok k : key_ok key_limit (Keccak256 k) /\ key_fuel (Keccak256 k) = secure_fuel.
Proof.
  destruct (Keccak256_size k) as [Hl Hb]. unfold zlen in Hl. unfold key_ok, key_fuel, key_limit, secure_fuel.
  split_and!; [done|lia|lia].
Qed.

Lemma secure_Get t m k : secure_holds t m -> K k ->
  exists t', SecureTrie.Get d secure_fuel t k = Done (default [] (m !! k), t').
Proof.
  intros [(mh&Hm&Ht) _] Hk. unfold SecureTrie.Get, SecureTrie.TryGet, SecureTrie.hashKey.
  destruct (hash_key_ok k) as [[Hb _] Hf].
  destruct (TryGet_ok key_limit limit_ok d secure_fuel (SecureTrie.trie t) mh (Keccak256 k) Ht Hb ltac:(lia)) as (T'&->&_).
  rewrite (hashed_map_lookup K U Hok m mh k Hm Hk). simpl. by eexists.
Qed.

Lemma secure_Update t m k v : secure_holds t m -> K k -> value_ok v ->
  exists t', SecureTrie.Update d secure_fuel t k v = Done t' /\ secure_holds t' (<[k := v]> m).
Proof.
  intros [(mh&Hm&Ht) Hc] Hk (Hne&Hv&Hl). unfold SecureTrie.Update, SecureTrie.TryUpdate, SecureTrie.hashKey.
  destruct (hash_key_ok k) as [Hkey Hf].
  destruct (TryUpdate_ok key_limit limit_ok d secure_fuel (SecureTrie.trie t) mh (Keccak256 k) v Ht Hkey Hv Hl ltac:(lia)) as (T'&->&HT').
  simpl. eexists. split; [done|]. split.
  - exists (<[Keccak256 k := v]> mh). split; [by eapply hashed_map_insert|]. unfold map_update in HT'.
    destruct (zlen v =? 0) eqn:E; [|done]. bool_to_prop. by apply zlen_0 in E.
  - intros hk key. unfold SecureTrie.getSecKeyCache. simpl.
    intros [[<- _]|[_ H]]%lookup_insert_Some; [apply Keccak256_size|by eapply Hc].
Qed.

Lemma secure_Delete t m k : secure_holds t m -> K k ->
  exists t', SecureTrie.Delete d secure_fuel t k = Done t' /\ secure_holds t' (delete k m).
Proof.
  intros [(mh&Hm&Ht) Hc] Hk. unfold SecureTrie.Delete, SecureTrie.TryDelete, SecureTrie.hashKey.
  destruct (hash_key_ok k) as [[Hb _] Hf]. cbn zeta. cbn [SecureTrie.trie SecureTrie.with_cache].
  destruct (TryDelete_ok key_limit limit_ok d secure_fuel (SecureTrie.trie t) mh (Keccak256 k) Ht Hb ltac:(lia)) as (T'&->&HT').
  simpl. eexists. split; [done|]. split.
  - exists (delete (Keccak256 k) mh). split; [by eapply hashed_map_delete|done].
  - intros hk key. unfold SecureTrie.getSecKeyCache. simpl. intros [_ H]%lookup_delete_Some. by eapply Hc.
Qed.

Lemma secure_Hash t m : secure_holds t m ->
  exists h t', SecureTrie.Hash_ (D:=D) t = Done (h, t') /\ @roots (SecureTheory K U) h m.
Proof.
  intros [(mh&Hm&Ht) _]. unfold SecureTrie.Hash_.
  destruct (Hash_ok (D:=D) key_limit limit_ok get (SecureTrie.trie t) mh Ht) as (h&T'&->&Hr&_).
  simpl. eexists h, _. split; [done|]. by exists mh.
Qed.

Lemma map_known_written m : map_known U m -> map_known (written U) m.
Proof. intros Hk t n Hwf Hc. eapply known_sub; [|by eapply Hk]. by right. Qed.

Lemma map_known_root h m : map_known U m -> m <> ∅ -> root_of h m -> h <> Common.zeroHash /\ h <> emptyRoot.
Proof.
  intros Hk Hne (t&n&Hwf&Hc&->). pose proof (Hk t n Hwf Hc) as Ht. destruct Hwf as [->|Hwf].
  { destruct Hne. apply map_empty. intros key. by rewrite <- (contents_lookup TNil m key Hc). }
  destruct Hwf; simpl; inversion Ht; by apply (ho_sentinels K U Hok).
Qed.

Lemma secure_New h m limit : @held (SecureTheory K U) get h m -> @known (SecureTheory K U) m ->
  exists t, SecureTrie.NewSecure d h limit = Done t /\ secure_holds t m.
Proof.
  intros (mh&Hm&Hs) Hk. unfold SecureTrie.NewSecure.
  assert (Hs' : map_stored key_limit get h mh) by (eapply map_stored_mono; [|done]; intros k v; apply (hash_entries_sub get)).
  destruct (New_ok key_limit limit_ok d h mh Hs') as (T&->&HT).
  { intros Hne. eapply map_known_root; [by apply Hk|done|]. destruct Hs as (t&?&?&->&_). by eexists _, _. }
  simpl. eexists. split; [done|]. split.
  - exists mh. split; [done|]. destruct HT as (t&?&?&?). by exists t.
  - intros hk key. unfold SecureTrie.getSecKeyCache. simpl. by rewrite lookup_empty.
Qed.

Lemma SecureTries_ok : @TriesOk CR (SecureTheory K U) be SecureTries.
Proof.
  split; unfold holds, SecureTries; simpl.
  - split.
    + exists ∅. split; [apply hashed_map_empty|]. exists TNil. split_and!; [by left|constructor|].
      intros k v. split; [done|]. intros (?&_&H). by rewrite lookup_empty in H.
    + intros hk key. unfold SecureTrie.getSecKeyCache. simpl. by rewrite lookup_empty.
  - intros t m k Ht Hk. by destruct (secure_Get t m k Ht Hk) as (t'&->).
  - intros t m k v Ht Hk Hv. by destruct (secure_Update t m k v Ht Hk Hv) as (t'&->&?).
  - intros t m k Ht Hk. by destruct (secure_Delete t m k Ht Hk) as (t'&->&?).
  - intros t m Ht. by destruct (secure_Hash t m Ht) as (h&t'&->&?).
  - intros h m limit Hh Hk. destruct (secure_New h m limit Hh Hk) as (t&->&?). by exists t.
Qed.

Lemma SecureBackend_ok : (forall h c, Db_Get h d = Some c -> zlen c < 2 ^ 63) ->
  (forall k v m k' v', lru k v m !! k' = Some v' -> (k', v') = (k, v) \/ m !! k' = Some v') -> @BackendOk be.
Proof.
  intros Hsize Hlru. split; [done| |done|done]. intros k. simpl. unfold SecureTrie.Get, SecureTrie.TryGet.
  simpl. done.
Qed.

(** ** Writers *)
Section writer.
Context {W : Type} {DW : Database W} {DWK : DatabaseOk W}.

Definition SecureView : WriterView W := {|
  view := overlay get;
  consistent w := addressed (written U) (overlay get w) /\ grows get (overlay get w);
|}.

Lemma overlay_put k v (w w' : W) k' : Db_Put k v w = Some w' ->
  overlay get w' k' = if bool_decide (k' = k) then Some v else overlay get w k'.
Proof. intros Hp. unfold overlay. rewrite (Db_Get_Put k v w w' k' Hp). by case_bool_decide. Qed.

(** Preimages are not stored under hashes. *)
Lemma put_all_hashes l : forall w : W, Forall (fun p => zlen p.1 = 32) l ->
  match SecureTrie.put_all l w with
  | (Done _, w') | (Error _, w') => forall k, zlen k = 32 -> Db_Get k w' = Db_Get k w
  | _ => False
  end.
Proof.
  induction l as [|[hk key] l IH]; intros w Hl; [done|]. apply Forall_cons in Hl as [Hk Hl]. simpl in Hk.
  cbn [SecureTrie.put_all]. unfold mbind, SM_bind. destruct (Db_Put _ key w) as [w1|] eqn:Ep; [|done].
  specialize (IH w1 Hl). destruct (SecureTrie.put_all l w1) as [[| | |] w']; try done; intros k Hk'; rewrite IH by done;
    rewrite (Db_Get_Put _ _ _ _ k Ep); case_bool_decide as E; try done; subst k; unfold SecureTrie.secKey in Hk';
    rewrite zlen_app in Hk'; change (zlen SecureTrie.secureKeyPrefix) with 11 in Hk'; lia.
Qed.

Lemma overlay_hashes (w w' : W) : (forall k, zlen k = 32 -> Db_Get k w' = Db_Get k w) ->
  forall k, zlen k = 32 -> overlay get w' k = overlay get w k.
Proof. intros H k Hk. unfold overlay. by rewrite H. Qed.

Lemma secure_Commit t m (w : W) : @consistent W SecureView w -> secure_holds t m -> @known (SecureTheory K U) m ->
  match SecureTrie.CommitTo (t, w) with
  | (Done h, (_, w')) => @held (SecureTheory K U) (overlay get w') h m /\ @consistent W SecureView w' /\
      grows (overlay get w) (overlay get w')
  | (Error _, (_, w')) => @consistent W SecureView w' /\ grows (overlay get w) (overlay get w')
  | _ => False
  end.
Proof.
  intros [Ha Hg] [(mh&Hm&Ht) Hc] Hk. unfold SecureTrie.CommitTo.
  assert (Hl : Forall (fun p : bytes * bytes => zlen p.1 = 32) (map_to_list (SecureTrie.getSecKeyCache t))).
  { apply Forall_forall. intros [hk key] Hin%elem_of_map_to_list. by eapply Hc. }
  pose proof (put_all_hashes _ w Hl) as Hp. destruct (SecureTrie.put_all _ w) as [[| | |] w1]; try done.
  - pose proof (overlay_hashes w w1 Hp) as Ho.
    assert (Ha1 : addressed (written U) (overlay get w1)) by (intros h e He Hh; rewrite Ho in He by done; by apply Ha).
    assert (Hg1 : grows (overlay get w) (overlay get w1)) by (intros k v Hk' Hv; by rewrite Ho).
    assert (Hg0 : grows get (overlay get w1)) by (by eapply StateCommitOk.grows_trans).
    assert (Ht1 : trie_ok key_limit (overlay get w1) (SecureTrie.trie t) mh) by (by eapply trie_ok_grows).
    pose proof (CommitTo_ok (D:=W) key_limit limit_ok get (written U) (ho_encodings K U Hok) _ w1 mh Ht1 (map_known_written mh (Hk mh Hm)) Ha1) as Hct.
    destruct (Trie.CommitTo (SecureTrie.trie t, w1)) as [[h| | |] [T w2]]; try done.
    + destruct Hct as (_&_&Hst&Ha2&Hg2). apply grows_of in Hg2. split_and!; [|split; [done|by eapply StateCommitOk.grows_trans]|by eapply StateCommitOk.grows_trans].
      exists mh. split; [done|]. by apply map_stored_hashes.
    + destruct Hct as (_&Ha2&Hg2). apply grows_of in Hg2. split; [split; [done|]|]; by eapply StateCommitOk.grows_trans.
  - pose proof (overlay_hashes w w1 Hp) as Ho.
    assert (Hg1 : grows (overlay get w) (overlay get w1)) by (intros k v Hk' Hv; by rewrite Ho).
    split; [split; [|by eapply StateCommitOk.grows_trans]|done]. intros h x He Hh. rewrite Ho in He by done. by apply Ha.
Qed.

Lemma SecureWriter_ok : @WriterOk CR (SecureTheory K U) be SecureTries W (SecureWriter lru d W) SecureView.
Proof.
  split.
  - by intros w [_ Hg].
  - intros w c w' [Ha Hg] Hc Hp. simpl in Hp |- *. pose proof (fun k => overlay_put _ _ w w' k Hp) as Ho.
    assert (Hg' : grows (overlay get w) (overlay get w')).
    { intros k v Hk Hv. rewrite Ho. case_bool_decide; [|done]. subst k. destruct (Ha _ _ Hv Hk) as [Hu E].
      f_equal. by apply (ho_encodings K U Hok). }
    split_and!; [|by eapply StateCommitOk.grows_trans|done|rewrite Ho; by rewrite bool_decide_eq_true_2].
    intros h e He Hh. rewrite Ho in He. case_bool_decide; [by simplify_eq|by apply Ha].
  - intros t m w Hw Ht Hk. pose proof (secure_Commit t m w Hw Ht Hk) as Hc. cbn [Trie_CommitTo SecureWriter].
    change (@pair (@trie be) W t w) with (@pair SecureTrie.t W t w).
    destruct (SecureTrie.CommitTo _) as [[h|e| |] [t' w']]; [exact Hc|by split|done|done].
Qed.
End writer.
End instances.

(** ** Batches of the memory database *)

(** What a batch will write under a key. *)
Definition memBatch_entry (key : bytes) (b : memBatch) : option bytes := memBatch_Write b ∅ !! key.

#[export] Instance memBatch_Database : Database memBatch := {|
  Db_Get := memBatch_entry;
  Db_Put k v b := Some (memBatch_Put k v b);
|}.
#[export] Instance memBatch_Batching : Batching memBatch MemDatabase := {|
  NewBatch _ := [];
  Write b db := (true, memBatch_Write b db);
|}.

Lemma memBatch_Write_lookup b : forall (db : gmap bytes bytes) k,
  memBatch_Write b db !! k = match memBatch_entry k b with Some v => Some v | None => db !! k end.
Proof.
  unfold memBatch_entry, memBatch_Write. induction b as [|[k0 v0] b IH] using rev_ind; intros db k.
  - cbn [fold_left]. by rewrite lookup_empty.
  - rewrite !fold_left_app. cbn [fold_left fst snd]. rewrite !lookup_insert. case_decide; [done|apply IH].
Qed.

#[export] Instance memBatch_ok : DatabaseOk memBatch.
Proof.
  split. intros k v b b' k' Hput. assert (b' = b ++ [(k, v)]) as ->.
  { assert (Hb : Some (b ++ [(Common.CopyBytes k, Common.CopyBytes v)]) = Some b') by exact Hput.
    rewrite !Common.CopyBytes_id in Hb. by injection Hb. }
  change (memBatch_entry k' (b ++ [(k, v)]) = if bool_decide (k' = k) then Some v else memBatch_entry k' b).
  unfold memBatch_entry, memBatch_Write. rewrite fold_left_app. cbn [fold_left fst snd]. rewrite lookup_insert.
  case_decide; case_bool_decide; congruence.
Qed.

(** Writing a batch makes its view the contents of the database. *)
Lemma memBatch_view (b : memBatch) (db : MemDatabase) k :
  Db_Get k (memBatch_Write b db) = overlay (fun h => Db_Get h db) b k.
Proof. exact (memBatch_Write_lookup b db k). Qed.
