(* ===== verification/StateRefinement.v ===== *)
(** The journalled database is observationally the naive one.

    The specification keeps a whole copy of the state per snapshot and goes back
    to the copy on a revert.  Every sequence of method calls gives the same
    results, panics included, on the database of [StateDB] as on the
    specification. *)
From stdpp Require Import sorting.
From S2P Require Import Prelude GoBig CommonMath CommonTypes Params Rlp VmTypes StateSpec StateDB.
From S2P Require Import StateDBLaws Concrete.

(** ** Method calls *)

Inductive command :=
| cmd_CreateAccount (a : Address)
| cmd_AddBalance (a : Address) (n : Z)
| cmd_SubBalance (a : Address) (n : Z)
| cmd_SetBalance (a : Address) (n : Z)
| cmd_SetNonce (a : Address) (n : Z)
| cmd_SetCode (a : Address) (c : bytes)
| cmd_SetState (a : Address) (k x : Hash)
| cmd_Suicide (a : Address)
| cmd_AddRefund (n : Z)
| cmd_AddLog (l : Log)
| cmd_AddPreimage (h : Hash) (p : bytes)
| cmd_StartRecord (th bh : Hash) (ti : Z)
| cmd_GetBalance (a : Address)
| cmd_GetNonce (a : Address)
| cmd_GetCodeHash (a : Address)
| cmd_GetCode (a : Address)
| cmd_GetState (a : Address) (k : Hash)
| cmd_HasSuicided (a : Address)
| cmd_Exist (a : Address)
| cmd_Empty (a : Address)
| cmd_GetRefund
| cmd_GetLogs (h : Hash)
| cmd_Snapshot
| cmd_RevertToSnapshot (id : Z).

Inductive value :=
| VNone
| VInt (n : Z)
| VBytes (b : bytes)
| VFlag (b : bool)
| VLogs (l : list Log).

(** Code that a Go slice can hold. *)
Definition command_ok (c : command) : Prop :=
  match c with cmd_SetCode _ code => zlen code < 2 ^ 63 | _ => True end.

(** Runs the calls and collects the results; [None] is a panic. *)
Fixpoint observe {St} (run : command -> St -> option (value * St)) (cs : list command) (s : St)
  : option (list value) :=
  match cs with
  | [] => Some []
  | c :: cs =>
      '(v, s) ← run c s;
      vs ← observe run cs s;
      Some (v :: vs)
  end.

(** ** The specification *)

Record spec := {
  now : View;
  (** the copies, oldest first *)
  kept : list (Z * View);
  next_id : Z;
  tx : Hash * Hash * Z;
  (** index of the next log; reverting does not lower it *)
  next_log : Z;
}.

Definition set_now (a : spec) (v : View) : spec :=
  {| now := v; kept := kept a; next_id := next_id a; tx := tx a; next_log := next_log a |}.

(** The copy numbered [id] and the ones before it. *)
Fixpoint find_kept (id : Z) (l : list (Z * View)) : option (View * list (Z * View)) :=
  match l with
  | [] => None
  | (i, v) :: l =>
      if i =? id then Some (v, [])
      else '(v', l') ← find_kept id l; Some (v', (i, v) :: l')
  end.

Section run.
Context {CR : Crypto} {BE : Backend}.

Definition stamp (a : spec) (l : Log) : Log :=
  {| log_Address := log_Address l; log_Topics := log_Topics l; log_Data := log_Data l;
     log_BlockNumber := log_BlockNumber l; log_TxHash := (tx a).1.1; log_TxIndex := (tx a).2;
     log_BlockHash := (tx a).1.2; log_Index := next_log a; log_Removed := log_Removed l |}.

Definition spec_run (c : command) (a : spec) : option (value * spec) :=
  let v := now a in
  let put v' := Some (VNone, set_now a v') in
  let get x := Some (x, a) in
  match c with
  | cmd_CreateAccount x => put (abs_CreateAccount x v)
  | cmd_AddBalance x n => put (abs_AddBalance x n v)
  | cmd_SubBalance x n => put (abs_SubBalance x n v)
  | cmd_SetBalance x n => put (upd_account v x (fun o => with_balance o n))
  | cmd_SetNonce x n => put (abs_SetNonce x n v)
  | cmd_SetCode x c => put (abs_SetCode x c v)
  | cmd_SetState x k y => put (abs_SetState x k y v)
  | cmd_Suicide x =>
      Some (VFlag (bool_decide (is_Some (accounts v x))), set_now a (abs_Suicide x v))
  | cmd_AddRefund n => put (set_refund v (refund v + n))
  | cmd_AddLog l =>
      let h := (tx a).1.1 in
      Some (VNone, {| now := set_logs v h (logs v h ++ [stamp a l]); kept := kept a;
                      next_id := next_id a; tx := tx a; next_log := next_log a + 1 |})
  | cmd_AddPreimage h p => put (abs_AddPreimage h p v)
  | cmd_StartRecord th bh ti =>
      Some (VNone, {| now := v; kept := kept a; next_id := next_id a; tx := (th, bh, ti);
                      next_log := next_log a |})
  | cmd_GetBalance x => get (VInt (abs_balance v x))
  | cmd_GetNonce x => get (VInt (abs_nonce v x))
  | cmd_GetCodeHash x => get (VBytes (abs_codeHash v x))
  | cmd_GetCode x => get (VBytes (abs_code v x))
  | cmd_GetState x k => get (VBytes (abs_state v x k))
  | cmd_HasSuicided x => get (VFlag (abs_suicided v x))
  | cmd_Exist x => get (VFlag (bool_decide (is_Some (accounts v x))))
  | cmd_Empty x => get (VFlag (abs_empty v x))
  | cmd_GetRefund => get (VInt (refund v))
  | cmd_GetLogs h => get (VLogs (logs v h))
  | cmd_Snapshot =>
      Some (VInt (next_id a), {| now := v; kept := kept a ++ [(next_id a, v)];
                                 next_id := next_id a + 1; tx := tx a; next_log := next_log a |})
  | cmd_RevertToSnapshot id =>
      '(v', l) ← find_kept id (kept a);
      Some (VNone, {| now := v'; kept := l; next_id := next_id a; tx := tx a;
                      next_log := next_log a |})
  end.

(** ** The implementation *)

Definition GetLogs (h : Hash) (s : db) : list Log := default [] (db_logs s !! h).

Definition db_run (c : command) (s : db) : option (value * db) :=
  let put s' := Some (VNone, s') in
  let get {A} (inj : A -> value) (r : A * db) := Some (inj r.1, r.2) in
  match c with
  | cmd_CreateAccount x => put (db_CreateAccount x s)
  | cmd_AddBalance x n => put (db_AddBalance x n s)
  | cmd_SubBalance x n => put (db_SubBalance x n s)
  | cmd_SetBalance x n => put (db_SetBalance x n s)
  | cmd_SetNonce x n => put (db_SetNonce x n s)
  | cmd_SetCode x c => put (db_SetCode x c s)
  | cmd_SetState x k y => put (db_SetState x k y s)
  | cmd_Suicide x => get VFlag (db_Suicide x s)
  | cmd_AddRefund n => put (db_AddRefund n s)
  | cmd_AddLog l => put (db_AddLog l s)
  | cmd_AddPreimage h p => put (db_AddPreimage h p s)
  | cmd_StartRecord th bh ti => put (StartRecord s th bh ti)
  | cmd_GetBalance x => get VInt (db_GetBalance x s)
  | cmd_GetNonce x => get VInt (db_GetNonce x s)
  | cmd_GetCodeHash x => get VBytes (db_GetCodeHash x s)
  | cmd_GetCode x => get VBytes (db_GetCode x s)
  | cmd_GetState x k => get VBytes (db_GetState x k s)
  | cmd_HasSuicided x => get VFlag (db_HasSuicided x s)
  | cmd_Exist x => get VFlag (db_Exist x s)
  | cmd_Empty x => get VFlag (db_Empty x s)
  | cmd_GetRefund => Some (VInt (db_refund s), s)
  | cmd_GetLogs h => Some (VLogs (GetLogs h s), s)
  | cmd_Snapshot => get VInt (db_Snapshot s)
  | cmd_RevertToSnapshot id => s' ← db_RevertToSnapshot id s; Some (VNone, s')
  end.
End run.

(** ** What the operations leave alone *)
Section frame.
Context {CR : Crypto} {BE : Backend}.

Definition stamps (s : db) : Z * (Hash * Hash * Z) * Z :=
  (nextRevisionId s, (thash s, bhash s, txIndex s), logSize s).
Definition frame (s : db) : list (Z * Z) * (Z * (Hash * Hash * Z) * Z) :=
  (validRevisions s, stamps s).

Lemma getStateObject_frame a s : frame (snd (getStateObject a s)) = frame s.
Proof. unfold getStateObject. by repeat case_match. Qed.

Lemma createObject_frame a s : frame (snd (createObject a s)) = frame s.
Proof.
  unfold createObject. rewrite <- (getStateObject_frame a s).
  by destruct (getStateObject a s) as [[] ?].
Qed.

Lemma GetOrNew_frame a s : frame (snd (GetOrNewStateObject a s)) = frame s.
Proof.
  unfold GetOrNewStateObject. pose proof (getStateObject_frame a s) as Hg.
  destruct (getStateObject a s) as [[o|] s1]; [done|]. simpl in Hg. rewrite <- Hg.
  pose proof (createObject_frame a s1) as Hc. by destruct (createObject a s1) as [[? ?] ?].
Qed.

Lemma put_dirty_frame s a o : frame (put_dirty s a o) = frame s.
Proof. unfold put_dirty. by case_match. Qed.

(** A change is journalled before it is made. *)
Ltac dirty_frame := etransitivity; [apply put_dirty_frame|reflexivity].

(** A method that fetches an object and updates it. *)
Lemma object_frame a s (f : db -> Address -> stateObject -> db) :
  (forall s o, frame (f s a o) = frame s) ->
  frame (let '(o, s') := GetOrNewStateObject a s in f s' a o) = frame s.
Proof.
  intros Hf. rewrite <- (GetOrNew_frame a s).
  destruct (GetOrNewStateObject a s). apply Hf.
Qed.

(** A getter on the object. *)
Lemma getter_frame {A} a s (f : option stateObject -> A) :
  frame (snd (let '(o, s') := getStateObject a s in (f o, s'))) = frame s.
Proof.
  rewrite <- (getStateObject_frame a s). by destruct (getStateObject a s).
Qed.

Lemma obj_SetBalance_frame s a o n : frame (obj_SetBalance s a o n) = frame s.
Proof. dirty_frame. Qed.

Lemma obj_AddBalance_frame s a o n : frame (obj_AddBalance s a o n) = frame s.
Proof.
  unfold obj_AddBalance, obj_touch. repeat case_match; try done;
    [dirty_frame|apply obj_SetBalance_frame].
Qed.

Lemma obj_SubBalance_frame s a o n : frame (obj_SubBalance s a o n) = frame s.
Proof. unfold obj_SubBalance. case_match; [done|apply obj_SetBalance_frame]. Qed.

Lemma obj_SetNonce_frame s a o n : frame (obj_SetNonce s a o n) = frame s.
Proof. dirty_frame. Qed.

Lemma obj_SetState_frame s a o k x : frame (obj_SetState s a o k x) = frame s.
Proof. unfold obj_SetState. case_match. dirty_frame. Qed.

Lemma obj_SetCode_frame s a o h c : frame (obj_SetCode s a o h c) = frame s.
Proof. unfold obj_SetCode. case_match. dirty_frame. Qed.

Lemma CreateAccount_frame a s : frame (db_CreateAccount a s) = frame s.
Proof.
  unfold db_CreateAccount. rewrite <- (createObject_frame a s).
  destruct (createObject a s) as [[? [p|]] ?]; [dirty_frame|done].
Qed.

Lemma Suicide_frame a s : frame (snd (db_Suicide a s)) = frame s.
Proof.
  unfold db_Suicide. rewrite <- (getStateObject_frame a s).
  destruct (getStateObject a s) as [[] ?]; [dirty_frame|done].
Qed.

Lemma GetCode_frame a s : frame (snd (db_GetCode a s)) = frame s.
Proof.
  unfold db_GetCode. rewrite <- (getStateObject_frame a s).
  destruct (getStateObject a s) as [[] ?]; [|done]. by case_match.
Qed.

Lemma GetState_frame a k s : frame (snd (db_GetState a k s)) = frame s.
Proof.
  unfold db_GetState. rewrite <- (getStateObject_frame a s).
  destruct (getStateObject a s) as [[] ?]; [|done]. by case_match.
Qed.

(** Undoing. *)
Lemma on_object_stamps a s k s' :
  (forall s o, stamps (k s o) = stamps s) -> on_object a s k = Some s' -> stamps s' = stamps s.
Proof.
  intros Hk. unfold on_object. pose proof (getStateObject_frame a s) as Hg.
  destruct (getStateObject a s) as [[] s1]; [|done]. intros [= <-]. rewrite Hk.
  exact (f_equal snd Hg).
Qed.

Lemma put_dirty_stamps s a o : stamps (put_dirty s a o) = stamps s.
Proof. unfold put_dirty. by case_match. Qed.

Lemma undo_stamps e s s' : undo e s = Some s' -> stamps s' = stamps s.
Proof.
  destruct e; simpl; try (by intros [= <-]);
    try (apply on_object_stamps; intros; apply put_dirty_stamps).
  - pose proof (getStateObject_frame account s) as Hg.
    destruct (getStateObject account s) as [[] s1]; intros [= <-]; [|exact (f_equal snd Hg)].
    unfold obj_setBalance. rewrite put_dirty_stamps. exact (f_equal snd Hg).
  - case_match; [by intros [= <-]|]. destruct (slice _ _ _); simpl; [|done]. by intros [= <-].
  - case_match; [|by intros [= <-]]. apply on_object_stamps. intros. by case_match.
Qed.

Lemma undo_all_stamps n s s' : undo_all n s = Some s' -> stamps s' = stamps s.
Proof.
  revert s. induction n as [|n IH]; intros s; simpl; [by intros [= <-]|].
  destruct (journal s) as [|e j]; [by intros [= <-]|].
  destruct (undo e _) as [s1|] eqn:Hu; simpl; [|done]. intros ->%IH. by apply undo_stamps in Hu.
Qed.

Lemma Revert_stamps id s s' : db_RevertToSnapshot id s = Some s' -> stamps s' = stamps s.
Proof.
  unfold db_RevertToSnapshot. cbv zeta. case_match; [done|].
  destruct (zget _ _) as [r|]; simpl; [|done]. case_match; [done|].
  destruct (undo_all _ s) as [s1|] eqn:Hu; simpl; [|done]. intros [= <-].
  by apply undo_all_stamps in Hu.
Qed.
End frame.

(** ** Simulation *)
Section simulation.
Context {CR : Crypto} {CK : CryptoOk} {BE : Backend} {BK : BackendOk}.

Record sim (s : db) (a : spec) : Prop := {
  sim_inv : db_inv s;
  sim_now : db_view s = now a;
  sim_ids : (kept a).*1 = (validRevisions s).*1;
  sim_kept : Forall (fun x => restores db_view db_inv s x.1 x.2) (kept a);
  sim_stamps : stamps s = (next_id a, tx a, next_log a);
}.

Lemma sim_keeps s s' a v :
  sim s a -> frame s' = frame s -> db_view s' = v -> keeps db_view db_inv s s' ->
  sim s' (set_now a v).
Proof.
  intros [Hi Hn Hids Hk Hst] Hf Hv [Hi' Hkeep]. split; simpl; [done|done|..].
  - by rewrite Hids, (f_equal fst Hf : validRevisions s' = validRevisions s).
  - eapply Forall_impl; [done|]. intros x. apply Hkeep.
  - by rewrite (f_equal snd Hf : stamps s' = stamps s).
Qed.

Lemma sim_write s a g f :
  sim s a -> writes db_view db_inv g f -> frame (g s) = frame s ->
  sim (g s) (set_now a (f (now a))).
Proof.
  intros Hs Hg Hf. destruct (Hg s (sim_inv _ _ Hs)) as [Hv Hk].
  apply (sim_keeps s); [done|done| |done]. by rewrite Hv, (sim_now _ _ Hs).
Qed.

Lemma set_now_id a : set_now a (now a) = a.
Proof. by destruct a. Qed.

Lemma sim_read {A} s a (g : db -> A * db) val :
  sim s a -> reads db_view db_inv g val -> frame (snd (g s)) = frame s ->
  fst (g s) = val (now a) /\ sim (snd (g s)) a.
Proof.
  intros Hs Hg Hf. destruct (Hg s (sim_inv _ _ Hs)) as (Hval&Hv&Hk).
  split; [by rewrite Hval, (sim_now _ _ Hs)|].
  rewrite <- (set_now_id a), <- (sim_now _ _ Hs). by apply (sim_keeps s).
Qed.

(** The two agree on a result and on whether there is one. *)
Definition agree (r : option (value * db)) (r' : option (value * spec)) : Prop :=
  match r, r' with
  | Some (x, s), Some (y, a) => x = y /\ sim s a
  | None, None => True
  | _, _ => False
  end.

Lemma agree_get {A} (inj : A -> value) s a (g : db -> A * db) val :
  sim s a -> reads db_view db_inv g val -> frame (snd (g s)) = frame s ->
  agree (Some (inj (g s).1, (g s).2)) (Some (inj (val (now a)), a)).
Proof. intros Hs Hg Hf. destruct (sim_read s a g val Hs Hg Hf) as [Hv ?]. simpl. by rewrite Hv. Qed.

Lemma sim_AddLog s a l : sim s a -> agree (db_run (cmd_AddLog l) s) (spec_run (cmd_AddLog l) a).
Proof.
  intros [Hi Hn Hids Hk Hst]. split; [done|].
  destruct (db_AddLog_ok l s Hi) as (h&l'&_&_&_&_&[Hi' Hkeep]).
  unfold stamps in Hst. injection Hst as Hid Htx Hlog.
  split; simpl; [done| |done|..].
  - rewrite <- Hn, <- Htx. unfold stamp. rewrite <- Htx, <- Hlog. simpl.
    unfold db_view, set_logs. simpl. f_equal. apply functional_extensionality. intros h'.
    unfold fupd. rewrite lookup_insert. destruct (decide (h' = thash s)) as [->|Hne].
    + by rewrite decide_True by done.
    + by rewrite decide_False by done.
  - eapply Forall_impl; [done|]. intros x. apply Hkeep.
  - unfold stamps. simpl. by rewrite Hid, Htx, Hlog.
Qed.

Lemma restores_StartRecord s th bh ti id v : db_inv s ->
  restores db_view db_inv s id v -> restores db_view db_inv (StartRecord s th bh ti) id v.
Proof.
  intros Hi. rewrite !restores_iff by (done || by destruct Hi as [[] [? ?]]). done.
Qed.

Lemma sim_StartRecord s a th bh ti : sim s a ->
  agree (db_run (cmd_StartRecord th bh ti) s) (spec_run (cmd_StartRecord th bh ti) a).
Proof.
  intros [Hi Hn Hids Hk Hst]. split; [done|]. unfold stamps in Hst. injection Hst as Hid Htx Hlog.
  split; simpl; [by destruct Hi as [[] [? ?]]|done|done|..].
  - eapply Forall_impl; [done|]. intros x. by apply restores_StartRecord.
  - unfold stamps. simpl. by rewrite Hid, Hlog.
Qed.

Lemma sim_Snapshot s a : sim s a -> agree (db_run cmd_Snapshot s) (spec_run cmd_Snapshot a).
Proof.
  intros [Hi Hn Hids Hk Hst]. unfold stamps in Hst. injection Hst as Hid Htx Hlog.
  destruct (db_Snapshot_ok s Hi) as (Hv&[Hi' Hkeep]&Hres&_). simpl in *.
  split; [by rewrite Hid|]. split; simpl; [done|done|..].
  - by rewrite !fmap_app, Hids, <- Hid.
  - apply Forall_app. split; [eapply Forall_impl; [done|]; intros x; apply Hkeep|].
    apply Forall_singleton. simpl. by rewrite <- Hid, <- Hn.
  - unfold stamps. simpl. by rewrite Hid, Htx, Hlog.
Qed.

Lemma find_kept_Some id l v l' : find_kept id l = Some (v, l') ->
  id ∉ l'.*1 /\ exists rest, l = l' ++ (id, v) :: rest.
Proof.
  revert l'. induction l as [|[i w] l IH]; intros l'; simpl; [done|].
  destruct (i =? id) eqn:E; bool_to_prop.
  - intros [= -> <-]. subst i. split; [simpl; set_solver|]. by eexists.
  - destruct (find_kept id l) as [[v0 l0]|]; simpl; [|done]. intros [= -> <-].
    destruct (IH l0 eq_refl) as [Hni [rest ->]]. split; [simpl; set_solver|]. by eexists.
Qed.

Lemma find_kept_None id l : find_kept id l = None -> id ∉ l.*1.
Proof.
  induction l as [|[i w] l IH]; simpl; [set_solver|].
  destruct (i =? id) eqn:E; bool_to_prop; [done|].
  destruct (find_kept id l) as [[v0 l0]|]; simpl; [done|]. intros. set_solver.
Qed.

(** A known revision has a place in the list. *)
Lemma Revert_known id s s' : db_RevertToSnapshot id s = Some s' ->
  exists i k, zget (validRevisions s) i = Some (id, k).
Proof.
  unfold db_RevertToSnapshot. cbv zeta. case_match; [done|].
  destruct (zget (validRevisions s) _) as [[id0 k]|] eqn:Hi; simpl; [|done].
  destruct (id0 =? id) eqn:E; simpl; [|done]. bool_to_prop. subst id0. eauto.
Qed.

Lemma zget_elem {A} (l : list A) i x : zget l i = Some x -> x ∈ l.
Proof. unfold zget. case_match; [|done]. apply list_elem_of_lookup_2. Qed.

(** The place is given by the identifiers before it. *)
Lemma revs_position s l id rest i k : revs_sorted (validRevisions s) ->
  (validRevisions s).*1 = l ++ id :: rest -> zget (validRevisions s) i = Some (id, k) ->
  i = zlen l.
Proof.
  intros Hsort Hids Hi.
  assert (Hl : exists k', zget (validRevisions s) (zlen l) = Some (id, k')).
  { assert (Hlk : (validRevisions s).*1 !! length l = Some id)
      by (rewrite Hids; by apply list_lookup_middle).
    apply list_lookup_fmap_Some in Hlk as ([id' k']&->&Hlk). exists k'.
    unfold zget, zlen. rewrite (proj2 (Z.leb_le _ _)) by lia. by rewrite Nat2Z.id. }
  destruct Hl as [k' Hl]. destruct (Z.lt_trichotomy i (zlen l)) as [Hlt|[?|Hlt]]; [|done|].
  - destruct (Hsort _ _ _ _ Hi Hl Hlt). simpl in *. lia.
  - destruct (Hsort _ _ _ _ Hl Hi Hlt). simpl in *. lia.
Qed.

(** Older revisions have smaller numbers. *)
Lemma revs_older s l id rest x : revs_sorted (validRevisions s) ->
  (validRevisions s).*1 = l ++ id :: rest -> x ∈ l -> x < id.
Proof.
  intros Hsort Hids [j Hj]%list_elem_of_lookup_1.
  assert (Hget : forall n y, (validRevisions s).*1 !! n = Some y ->
    exists k, zget (validRevisions s) (Z.of_nat n) = Some (y, k)).
  { intros n y ([y' k]&->&Hy)%list_lookup_fmap_Some. exists k. unfold zget.
    rewrite (proj2 (Z.leb_le _ _)) by lia. by rewrite Nat2Z.id. }
  destruct (Hget j x) as [k1 H1]; [rewrite Hids; by apply lookup_app_l_Some|].
  destruct (Hget (length l) id) as [k2 H2]; [rewrite Hids; by apply list_lookup_middle|].
  apply lookup_lt_Some in Hj. by destruct (Hsort _ _ _ _ H1 H2 ltac:(lia)).
Qed.

Lemma sim_Revert s a id : sim s a ->
  agree (db_run (cmd_RevertToSnapshot id) s) (spec_run (cmd_RevertToSnapshot id) a).
Proof.
  intros [Hi Hn Hids Hk Hst]. simpl. destruct (find_kept id (kept a)) as [[v l]|] eqn:Hf; simpl.
  - apply find_kept_Some in Hf as [Hni [rest Hl]]. rewrite Hl in Hk, Hids.
    apply Forall_app in Hk as [Hkl [Hres _]%Forall_cons]. simpl in Hres.
    destruct Hres as (s'&Hrev&Hv&Hi'). simpl in Hrev. rewrite Hrev. simpl. split; [done|].
    rewrite fmap_app, fmap_cons in Hids. simpl in Hids. symmetry in Hids.
    destruct Hi as [Hc [Hsort Hall]]. destruct (Revert_known _ _ _ Hrev) as (i&k&Hget).
    pose proof (revs_position s _ _ _ i k Hsort Hids Hget) as ->.
    pose proof (revert_ok s _ id k (conj Hc (conj Hsort Hall)) Hget) as Hr. rewrite Hrev in Hr.
    destruct (abs_undo_all _ _) as [v'|]; [|done]. destruct Hr as (_&_&Hrevs&_).
    split; simpl; [done|done|..].
    + rewrite Hrevs. unfold ztake, zlen. rewrite Nat2Z.id, fmap_take, Hids, take_app_length. done.
    + apply Forall_forall. intros x Hx. rewrite Forall_forall in Hkl.
      eapply (db_Revert_ok s id); [done|done| |by apply Hkl].
      eapply revs_older; [done|exact Hids|]. by apply list_elem_of_fmap_2.
    + by rewrite (Revert_stamps _ _ _ Hrev).
  - destruct (db_RevertToSnapshot id s) as [s'|] eqn:Hrev; [|done]. simpl.
    apply find_kept_None in Hf. destruct (Revert_known _ _ _ Hrev) as (i&k&Hget).
    apply zget_elem in Hget. apply Hf. rewrite Hids. by apply (list_elem_of_fmap_2 fst) in Hget.
Qed.

Lemma sim_Suicide s a x : sim s a ->
  agree (db_run (cmd_Suicide x) s) (spec_run (cmd_Suicide x) a).
Proof.
  intros Hs. split.
  - f_equal. destruct (db_Exist_ok x s (sim_inv _ _ Hs)) as [He _].
    rewrite <- (sim_now _ _ Hs), <- He. unfold db_Suicide, db_Exist.
    by destruct (getStateObject x s) as [[] ?].
  - apply (sim_write s a (fun s => snd (db_Suicide x s))); [done|apply db_Suicide_ok|].
    apply Suicide_frame.
Qed.

Lemma sim_command c s a : sim s a -> command_ok c -> agree (db_run c s) (spec_run c a).
Proof.
  intros Hs Hc. destruct c.
  - split; [done|]. apply (sim_write s a); [done|apply db_CreateAccount_ok|apply CreateAccount_frame].
  - split; [done|]. apply (sim_write s a); [done|apply (object_writes _ _ _ (obj_AddBalance_op n))|].
    apply (object_frame a0 s (fun s a o => obj_AddBalance s a o n)). intros. apply obj_AddBalance_frame.
  - split; [done|]. apply (sim_write s a); [done|apply (object_writes _ _ _ (obj_SubBalance_op n))|].
    apply (object_frame a0 s (fun s a o => obj_SubBalance s a o n)). intros. apply obj_SubBalance_frame.
  - split; [done|].
    apply (sim_write s a (db_SetBalance a0 n)
      (fun v => upd_account v a0 (fun o => with_balance o n))); [done|apply (object_writes _ _ _ (obj_SetBalance_op n))|].
    apply (object_frame a0 s (fun s a o => obj_SetBalance s a o n)). intros. apply obj_SetBalance_frame.
  - split; [done|]. apply (sim_write s a); [done|apply (object_writes _ _ _ (obj_SetNonce_op n))|].
    apply (object_frame a0 s (fun s a o => obj_SetNonce s a o n)). intros. apply obj_SetNonce_frame.
  - split; [done|]. apply (sim_write s a); [done|apply (object_writes _ _ _ (obj_SetCode_op c Hc))|].
    apply (object_frame a0 s (fun s a o => obj_SetCode s a o (Keccak256Hash c) c)).
    intros. apply obj_SetCode_frame.
  - split; [done|]. apply (sim_write s a); [done|apply (object_writes _ _ _ (obj_SetState_op k x))|].
    apply (object_frame a0 s (fun s a o => obj_SetState s a o k x)). intros. apply obj_SetState_frame.
  - by apply sim_Suicide.
  - split; [done|]. by apply (sim_write s a _ (fun v => set_refund v (refund v + n))); [|apply db_AddRefund_ok|].
  - by apply sim_AddLog.
  - split; [done|]. apply (sim_write s a); [done|apply db_AddPreimage_ok|].
    unfold db_AddPreimage. by case_match.
  - by apply sim_StartRecord.
  - apply (agree_get VInt s a (db_GetBalance a0) (fun v => abs_balance v a0));
      [done|apply db_GetBalance_ok|apply getter_frame].
  - apply (agree_get VInt s a (db_GetNonce a0) (fun v => abs_nonce v a0));
      [done|apply db_GetNonce_ok|apply getter_frame].
  - apply (agree_get VBytes s a (db_GetCodeHash a0) (fun v => abs_codeHash v a0));
      [done|apply db_GetCodeHash_ok|apply getter_frame].
  - apply (agree_get VBytes s a (db_GetCode a0) (fun v => abs_code v a0));
      [done|apply db_GetCode_ok|apply GetCode_frame].
  - apply (agree_get VBytes s a (db_GetState a0 k) (fun v => abs_state v a0 k));
      [done|apply db_GetState_ok|apply GetState_frame].
  - apply (agree_get VFlag s a (db_HasSuicided a0) (fun v => abs_suicided v a0));
      [done|apply db_HasSuicided_ok|apply getter_frame].
  - destruct (sim_read s a (db_Exist a0) _ Hs (db_Exist_ok a0)) as [Hv ?]; [apply getter_frame|].
    split; [|done]. by f_equal.
  - apply (agree_get VFlag s a (db_Empty a0) (fun v => abs_empty v a0));
      [done|apply db_Empty_ok|apply getter_frame].
  - simpl. by rewrite <- (sim_now _ _ Hs).
  - simpl. by rewrite <- (sim_now _ _ Hs).
  - by apply sim_Snapshot.
  - by apply sim_Revert.
Qed.

Lemma sim_observe cs s a : sim s a -> Forall command_ok cs ->
  observe db_run cs s = observe spec_run cs a.
Proof.
  revert s a. induction cs as [|c cs IH]; intros s a Hs Hcs; [done|].
  apply Forall_cons in Hcs as [Hc Hcs]. simpl. pose proof (sim_command c s a Hs Hc) as Ha.
  unfold agree in Ha. destruct (db_run c s) as [[x s1]|], (spec_run c a) as [[y a1]|]; simpl; try done.
  destruct Ha as [-> Hs1]. by rewrite (IH s1 a1).
Qed.

(** A fresh specification over the accounts in the trie. *)
Definition fresh (v : View) : spec :=
  {| now := v; kept := []; next_id := 0; tx := (Common.zeroHash, Common.zeroHash, 0);
     next_log := 0 |}.

(** The accounts in the trie have 32-byte code hashes and code of a Go slice. *)
Definition stored_ok (s : db) : Prop :=
  forall a d, stored s a = Some d -> obj_ok (newObject d true).

Lemma New_sim root s : New root = Some s -> stored_ok s -> sim s (fresh (db_view s)).
Proof.
  unfold New. destruct (NewSecure root MaxTrieCacheGen) as [t|]; simpl; [|done]. intros [= <-] Hst.
  split; simpl; [|done|done|constructor|done].
  split; [split|split]; simpl.
  - intros a o Ho. by rewrite lookup_empty in Ho.
  - intros a d. apply Hst.
  - constructor.
  - intros k n Hn. by rewrite lookup_empty in Hn.
  - intros a Ha. set_solver.
  - intros n ? ? ? Hi%zget_inv. change (0 <= n < 0) in Hi. lia.
  - constructor.
Qed.

(** C3: on every sequence of method calls the journalled database gives the
    results of the naive database that copies the whole state at each snapshot and
    goes back to the copy on a revert: the same balances, nonces, codes, storage
    values, flags, refunds, logs and snapshot numbers, and a panic exactly when the
    revision is unknown. *)
Theorem journal_refines_copies root s cs
    (Hnew : New root = Some s) (Hst : stored_ok s) (Hcs : Forall command_ok cs) :
  observe db_run cs s = observe spec_run cs (fresh (db_view s)).
Proof. apply sim_observe; [|done]. by apply (New_sim root). Qed.

(** *** Snapshots in the specification *)

Definition kept_ok (a : spec) : Prop :=
  StronglySorted Z.lt (kept a).*1 /\ Forall (fun i => i < next_id a) (kept a).*1.

Lemma sorted_prefix (l : list Z) i rest : StronglySorted Z.lt (l ++ i :: rest) ->
  StronglySorted Z.lt l /\ forall x, x ∈ rest -> i < x.
Proof.
  rewrite StronglySorted_app, StronglySorted_cons, (Forall_forall (Z.lt i)).
  intros (_&?&?&?). by split.
Qed.

Lemma spec_kept_ok c a w a' : kept_ok a -> spec_run c a = Some (w, a') -> kept_ok a'.
Proof.
  intros [Hs Hall] Hrun. destruct c; simpl in Hrun; simplify_eq; try done.
  - split; simpl; rewrite fmap_app.
    + apply StronglySorted_app_2; [|done|repeat constructor].
      intros y z Hy ->%list_elem_of_singleton. rewrite Forall_forall in Hall. by apply Hall.
    + rewrite Forall_app. split; [|repeat constructor; simpl; lia].
      eapply Forall_impl; [done|]. simpl. lia.
  - destruct (find_kept id (kept a)) as [[v' l]|] eqn:Hf; simpl in Hrun; [|done]. simplify_eq.
    apply find_kept_Some in Hf as [_ [rest Hk]].
    rewrite Hk, fmap_app, fmap_cons in Hs, Hall. simpl in Hs, Hall.
    apply sorted_prefix in Hs as [Hs _]. apply Forall_app in Hall as [Hall _]. by split.
Qed.

(** Calls keep a copy, unless they revert to it or further back. *)
Lemma spec_keeps c a x v w a' : kept_ok a -> (x, v) ∈ kept a ->
  (forall i, c = cmd_RevertToSnapshot i -> x < i) -> spec_run c a = Some (w, a') ->
  (x, v) ∈ kept a'.
Proof.
  intros [Hs Hall] Hx Hrev Hrun. destruct c; simpl in Hrun; simplify_eq; try done.
  - simpl. apply elem_of_app. by left.
  - destruct (find_kept id (kept a)) as [[v' l]|] eqn:Hf; simpl in Hrun; [|done]. simplify_eq.
    apply find_kept_Some in Hf as [_ [rest Hk]]. specialize (Hrev id eq_refl).
    rewrite Hk in *. rewrite fmap_app, fmap_cons in Hs. simpl in *.
    apply sorted_prefix in Hs as [_ Hlater]. apply elem_of_app in Hx as [?|Hx]; [done|].
    apply elem_of_cons in Hx as [[= -> ->]|Hx]; [lia|].
    assert (id < x) by (apply Hlater; by apply (list_elem_of_fmap_2 fst) in Hx). lia.
Qed.

(** Runs the calls for their effect. *)
Fixpoint exec {St} (run : command -> St -> option (value * St)) (cs : list command) (s : St)
  : option St :=
  match cs with
  | [] => Some s
  | c :: cs => '(_, s) ← run c s; exec run cs s
  end.

Lemma sim_exec cs s a s' : sim s a -> Forall command_ok cs -> exec db_run cs s = Some s' ->
  exists a', exec spec_run cs a = Some a' /\ sim s' a'.
Proof.
  revert s a. induction cs as [|c cs IH]; intros s a Hs Hcs; simpl; [intros [= <-]; eauto|].
  apply Forall_cons in Hcs as [Hc Hcs]. pose proof (sim_command c s a Hs Hc) as Ha.
  unfold agree in Ha. destruct (db_run c s) as [[x s1]|], (spec_run c a) as [[y a1]|]; simpl; try done.
  destruct Ha as [_ Hs1]. by apply IH.
Qed.

Lemma exec_kept_ok cs a a' : kept_ok a -> exec spec_run cs a = Some a' -> kept_ok a'.
Proof.
  revert a. induction cs as [|c cs IH]; intros a Ha; simpl; [by intros [= <-]|].
  destruct (spec_run c a) as [[w a1]|] eqn:Hc; simpl; [|done]. apply IH. by eapply spec_kept_ok.
Qed.

Lemma exec_keeps cs a a' x v : kept_ok a -> (x, v) ∈ kept a ->
  Forall (fun c => forall i, c = cmd_RevertToSnapshot i -> x < i) cs ->
  exec spec_run cs a = Some a' -> (x, v) ∈ kept a'.
Proof.
  revert a. induction cs as [|c cs IH]; intros a Ha Hx Hcs; simpl; [by intros [= <-]|].
  apply Forall_cons in Hcs as [Hc Hcs].
  destruct (spec_run c a) as [[w a1]|] eqn:Hr; simpl; [|done].
  apply IH; [by eapply spec_kept_ok|by eapply spec_keeps|done].
Qed.

(** C22: from a snapshot on, make any calls, nested snapshots and reverts to later
    snapshots included; reverting to the snapshot succeeds and gives back every
    account, log, preimage and the refund counter as they were. *)
Theorem revert_restores root s0 before s during s'
    (Hnew : New root = Some s0) (Hst : stored_ok s0)
    (Hbefore : Forall command_ok before) (Hs : exec db_run before s0 = Some s)
    (Hduring : Forall command_ok during)
    (Hlater : Forall (fun c => forall i, c = cmd_RevertToSnapshot i -> nextRevisionId s < i) during)
    (Hs' : exec db_run during (snd (db_Snapshot s)) = Some s') :
  exists s'', db_RevertToSnapshot (nextRevisionId s) s' = Some s'' /\ db_view s'' = db_view s.
Proof.
  destruct (sim_exec before s0 _ s (New_sim root s0 Hnew Hst) Hbefore Hs) as (a&Ha&Hsim).
  assert (Hk : kept_ok a).
  { eapply exec_kept_ok; [|exact Ha]. split; constructor. }
  pose proof (sim_Snapshot s a Hsim) as Hsnap. simpl in Hsnap.
  destruct Hsnap as [[= Hid] Hsim1]. set (a1 := {| now := _ |}) in *.
  assert (Hk1 : kept_ok a1) by (eapply (spec_kept_ok cmd_Snapshot a); done).
  destruct (sim_exec during _ _ s' Hsim1 Hduring Hs') as (a2&Ha2&Hsim2).
  assert (Hin : (nextRevisionId s, db_view s) ∈ kept a2).
  { eapply (exec_keeps during a1); [done| |done|done]. simpl. apply elem_of_app. right.
    rewrite Hid, (sim_now _ _ Hsim). by apply list_elem_of_singleton. }
  pose proof (sim_kept _ _ Hsim2) as Hres. rewrite Forall_forall in Hres.
  destruct (Hres _ Hin) as (s''&?&?&_). eauto.
Qed.
End simulation.

(** ** Instances *)

Lemma blank_stored_ok : stored_ok blank.
Proof. intros a d. unfold stored. simpl. by rewrite lookup_empty. Qed.

Definition some_calls : list command :=
  [cmd_AddBalance alice 10; cmd_Snapshot; cmd_SetState bob (Common.BigToHash 1) (Common.BigToHash 2);
   cmd_Suicide alice; cmd_GetBalance alice; cmd_RevertToSnapshot 0; cmd_GetBalance alice;
   cmd_GetState bob (Common.BigToHash 1)].

Lemma some_calls_ok : Forall command_ok some_calls.
Proof. repeat constructor. Qed.

Lemma journal_refines_copies_witness :
  observe db_run some_calls blank = observe spec_run some_calls (fresh (db_view blank)).
Proof.
  apply (journal_refines_copies Common.zeroHash).
  - exact New_blank.
  - exact blank_stored_ok.
  - exact some_calls_ok.
Defined.

Definition later_calls : list command :=
  [cmd_SubBalance alice 3; cmd_Snapshot; cmd_CreateAccount alice; cmd_RevertToSnapshot 1;
   cmd_AddRefund 7].

Definition paid : db := db_AddBalance alice 10 blank.

Lemma revert_restores_witness :
  match exec db_run later_calls (snd (db_Snapshot paid)) with
  | Some s' => exists s'', db_RevertToSnapshot (nextRevisionId paid) s' = Some s'' /\
                           db_view s'' = db_view paid
  | None => False
  end.
Proof.
  assert (Hrun : (if exec db_run later_calls (snd (db_Snapshot paid)) then true else false) = true)
    by (vm_compute; reflexivity).
  destruct (exec db_run later_calls (snd (db_Snapshot paid))) as [s'|] eqn:Hs'; [|discriminate].
  apply (revert_restores Common.zeroHash blank [cmd_AddBalance alice 10] paid later_calls s').
  - exact New_blank.
  - exact blank_stored_ok.
  - repeat constructor.
  - reflexivity.
  - repeat constructor.
  - repeat constructor; intros i [= <-]; vm_compute; reflexivity.
  - exact Hs'.
Defined.

(** ** Deviations *)

Definition empty_log : Log :=
  {| log_Address := alice; log_Topics := []; log_Data := []; log_BlockNumber := 1;
     log_TxHash := Common.zeroHash; log_TxIndex := 0; log_BlockHash := Common.zeroHash;
     log_Index := 0; log_Removed := false |}.

(** Reverting removes a log but not its number: the first log that stays is
    numbered 1. *)
Lemma reverted_log_keeps_number :
  observe db_run [cmd_Snapshot; cmd_AddLog empty_log; cmd_RevertToSnapshot 0;
                  cmd_AddLog empty_log; cmd_GetLogs Common.zeroHash] blank =
  Some [VInt 0; VNone; VNone; VNone;
        VLogs [{| log_Address := alice; log_Topics := []; log_Data := []; log_BlockNumber := 1;
                  log_TxHash := Common.zeroHash; log_TxIndex := 0; log_BlockHash := Common.zeroHash;
                  log_Index := 1; log_Removed := false |}]].
Proof. by vm_compute. Qed.

(** Bob as an empty account just read from the trie. *)
Definition loaded : db := setStateObject blank bob (newObject zeroAccount true).

(** Undoing a touch takes the account out of the dirty set but does not arm
    the callback again: a later payment changes the balance, and the account is not
    dirty, so the change is not written to the trie. *)
Lemma touch_undo_loses_update :
  match exec db_run [cmd_Snapshot; cmd_AddBalance bob 0; cmd_RevertToSnapshot 0;
                     cmd_AddBalance bob 5] loaded with
  | Some s => fst (db_GetBalance bob s) = 5 /\ bob ∉ stateObjectsDirty s
  | None => False
  end.
Proof. vm_compute. split; [done|]. by apply (bool_decide_unpack _). Qed.
