(* ===== verification/StateTheorems.v ===== *)
(** What the state database promises about its root hash and its commits, over the
    tries of [trie/]. *)
From S2P Require Import Prelude GoBig CommonMath CommonTypes Params Rlp VmTypes TrieEncoding TrieTree TrieEdit.
From S2P Require Import TrieNode TrieRep Trie TrieOk TrieHash TrieMap StateSpec.
From S2P Require Import StateDB StateCommit StateDBLaws StateSync StateCommitOk.
From S2P Require Import Concrete TrieTheorems StateRefinement StateSecure.

(** ** Reachable states *)
Section reached.
Context {CR : Crypto} {CK : CryptoOk} {BE : Backend} {BK : BackendOk} {TT : TrieTheory} {TTK : TrieTheoryOk}.
Context {TS : Tries} {TSK : TriesOk} {MO : MapOrder} {MK : MapOrderOk}.

(** The call uses keys and codes without collisions. *)
Definition command_named (c : command) : Prop :=
  match c with
  | cmd_CreateAccount a | cmd_AddBalance a _ | cmd_SubBalance a _ | cmd_SetBalance a _ | cmd_Suicide a
  | cmd_GetBalance a | cmd_GetNonce a | cmd_GetCodeHash a | cmd_GetCode a | cmd_HasSuicided a | cmd_Exist a
  | cmd_Empty a => named a
  | cmd_SetNonce a n => named a /\ 0 <= n < 2 ^ 64
  | cmd_SetCode a c => named a /\ code_known c /\ zlen c < 2 ^ 63
  | cmd_SetState a k v => named a /\ slot k /\ Common.is_array 32 v
  | cmd_GetState a k => named a /\ slot k
  | _ => True
  end.

(** The states of a database opened at a root it stores, after any calls, with the
    root taken between transactions. *)
Inductive reached : db -> Prop :=
| reached_new root V s : state_stored db_Get root V -> New root = Some s -> reached s
| reached_call c s v s' : reached s -> command_named c -> db_run c s = Some (v, s') -> reached s'
| reached_root s h s' : reached s -> funds s -> IntermediateRoot s = Some (h, s') -> reached s'.

Lemma run_sync c s M v s' : sync s M -> command_named c -> db_run c s = Some (v, s') -> sync s' M.
Proof.
  intros Hs Hc Hr. destruct c; cbn [db_run command_named] in *; try (injection Hr as <- <-).
  - by apply CreateAccount_keeps.
  - by apply (obj_method_keeps _ a Hc (AddBalance_keeps n)).
  - by apply (obj_method_keeps _ a Hc (SubBalance_keeps n)).
  - by apply (obj_method_keeps _ a Hc (SetBalance_keeps n)).
  - destruct Hc as [Ha Hn]. by apply (obj_method_keeps _ a Ha (SetNonce_keeps n Hn)).
  - destruct Hc as (Ha&Hk&Hl). by apply (obj_method_keeps _ a Ha (SetCode_keeps c Hk Hl)).
  - destruct Hc as (Ha&Hk&Hx). by apply (obj_method_keeps _ a Ha (SetState_keeps k x Hk Hx)).
  - by apply (Suicide_keeps a Hc).
  - by apply AddRefund_keeps.
  - by apply AddLog_keeps.
  - by apply AddPreimage_keeps.
  - by apply (sync_frame s).
  - by apply (read_keeps a _ Hc).
  - by apply (read_keeps a _ Hc).
  - by apply (read_keeps a _ Hc).
  - by apply (GetCode_keeps a Hc).
  - destruct Hc as (Ha&Hk). by apply (GetState_keeps a k Ha Hk).
  - by apply (read_keeps a _ Hc).
  - by apply (read_keeps a _ Hc).
  - by apply (read_keeps a _ Hc).
  - done.
  - done.
  - by apply (sync_frame s).
  - destruct (db_RevertToSnapshot id s) as [s1|] eqn:E; [|done]. injection Hr as <- <-. by eapply revert_sync.
Qed.

Lemma reached_sync s : reached s -> exists M, sync s M.
Proof.
  induction 1 as [root V s Hst Hn|c s v s' _ [M IH] Hc Hr|s h s' _ [M IH] Hf Hr].
  - destruct (New_sync root V Hst) as (s1&M&E&Hs&_). rewrite Hn in E. injection E as <-. by exists M.
  - exists M. by eapply run_sync.
  - destruct (IntermediateRoot_ok s M IH Hf) as (h'&s1&M'&E&Hs&_). rewrite Hr in E. injection E as <- <-. by exists M'.
Qed.
End reached.

(** ** Over the tries *)
Section secure.
Context {CR : Crypto} {CK : CryptoOk} {D : Type} {DB : Database D} {DK : DatabaseOk D}.
Context (lru : Hash -> Z -> gmap Hash Z -> gmap Hash Z) (K U : bytes -> Prop).

Definition lru_ok : Prop :=
  forall k v m k' v', lru k v m !! k' = Some v' -> (k', v') = (k, v) \/ m !! k' = Some v'.
Definition database_ok (d : D) : Prop := forall h c, Db_Get h d = Some c -> zlen c < 2 ^ 63.

(** The account reads, the reachable states and the operations over a database. *)
Definition accounts_of (d : D) (s : db (BE := SecureBackend lru d)) : Address -> option account :=
  db_account (BE := SecureBackend lru d) s.
Definition state_of (MO : MapOrder) (d : D) : db (BE := SecureBackend lru d) -> Prop :=
  reached (BE := SecureBackend lru d) (TT := SecureTheory K U) (MO := MO).
Definition funded (d : D) : db (BE := SecureBackend lru d) -> Prop :=
  funds (BE := SecureBackend lru d) (TT := SecureTheory K U).
Definition kept_accounts (d : D) (s : db (BE := SecureBackend lru d)) (a : Address) : option account :=
  settled (accounts_of d s a).
Definition same_accounts (V V' : Address -> option account) : Prop :=
  forall a, K a -> same (TT := SecureTheory K U) (V a) (V' a).

Record setting (MO : MapOrder) (d : D) : Prop := {
  se_hashes : hashes_ok K U;
  se_order : MapOrderOk (H := MO);
  se_database : database_ok d;
  se_lru : lru_ok;
}.

Lemma state_of_sync MO d s : setting MO d -> state_of MO d s ->
  exists M, sync (BE := SecureBackend lru d) (TT := SecureTheory K U) (TS := SecureTries lru K U d) s M.
Proof.
  intros [Hok HMO Hd Hlru] Hs.
  pose proof (SecureTheory_ok K U Hok). pose proof (SecureTries_ok lru K U Hok d).
  pose proof (SecureBackend_ok lru d Hd Hlru). by eapply reached_sync.
Qed.

(** C17: taking the root between transactions never panics.  It removes the accounts
    that committed suicide or are empty and leaves every other account, with its code
    and storage, as it is; and the root it returns is a function of the accounts that
    are left: two databases, whatever they store, whatever was called and in whatever
    order maps are ranged over, return the same root when they keep the same
    accounts. *)
Theorem IntermediateRoot_of_accounts (MO MO' : MapOrder) (d d' : D)
    (s : db (BE := SecureBackend lru d)) (s' : db (BE := SecureBackend lru d'))
    (Hset : setting MO d) (Hset' : setting MO' d') (Hs : state_of MO d s) (Hs' : state_of MO' d' s')
    (Hf : funded d s) (Hf' : funded d' s') (Hsame : same_accounts (kept_accounts d s) (kept_accounts d' s')) :
  exists h s1 s1',
    IntermediateRoot (BE := SecureBackend lru d) (MO := MO) s = Some (h, s1) /\
    IntermediateRoot (BE := SecureBackend lru d') (MO := MO') s' = Some (h, s1') /\
    same_accounts (accounts_of d s1) (kept_accounts d s).
Proof.
  destruct (state_of_sync MO d s Hset Hs) as [M HM], (state_of_sync MO' d' s' Hset' Hs') as [M' HM'].
  destruct Hset as [Hok HMO Hd Hlru], Hset' as [_ HMO' Hd' _].
  pose proof (SecureTheory_ok K U Hok).
  pose proof (SecureTries_ok lru K U Hok d). pose proof (SecureTries_ok lru K U Hok d').
  pose proof (SecureBackend_ok lru d Hd Hlru). pose proof (SecureBackend_ok lru d' Hd' Hlru).
  destruct (IntermediateRoot_ok (BE := SecureBackend lru d) (MO := MO) s M HM Hf) as (h&s1&M1&E1&_&Hr&_&Hmap&Hacc).
  destruct (IntermediateRoot_ok (BE := SecureBackend lru d') (MO := MO') s' M' HM' Hf') as (h'&s1'&M1'&E1'&_&Hr'&_&Hmap'&_).
  assert (M1 = M1') as <- by exact (state_map_unique (TT := SecureTheory K U) (kept_accounts d s) (kept_accounts d' s') M1 M1' Hsame Hmap Hmap').
  rewrite <- (roots_unique (TT := SecureTheory K U) h h' M1 Hr Hr') in E1'.
  exists h, s1, s1'. split; [exact E1|split; [exact E1'|exact Hacc]].
Qed.

(** The writer [w] over the database [d] holds nothing that collides. *)
Definition writable {W : Type} {DW : Database W} (d : D) (w : W) : Prop :=
  consistent (WriterView := SecureView U d) w.
(** No encodings of the accounts that are kept collide. *)
Definition collision_free_state (d : D) : db (BE := SecureBackend lru d) -> Prop :=
  storable (BE := SecureBackend lru d) (TT := SecureTheory K U).

(** C16: a commit returns the root that [IntermediateRoot] returns, or the error of
    the writer; it does not panic.  Once the writer is applied to the database, the
    root opens a state in which every account that is kept has its nonce, balance,
    code and storage, and every other account is absent. *)
Theorem commit_reopens_state {W : Type} {DW : Database W} {DWK : DatabaseOk W} (MO : MapOrder) (d : D)
    (s : db (BE := SecureBackend lru d)) (w : W) (Hset : setting MO d) (Hs : state_of MO d s) (Hf : funded d s)
    (Hcf : collision_free_state d s) (Hw : writable d w) :
  match CommitTo (BE := SecureBackend lru d) (MO := MO) (WR := SecureWriter lru d W) (s, w) with
  | (Done root, (_, w')) =>
      (exists s1, IntermediateRoot (BE := SecureBackend lru d) (MO := MO) s = Some (root, s1)) /\
      forall d' : D, (forall k, Db_Get k d' = overlay (fun h => Db_Get h d) w' k) ->
        exists s2, New (BE := SecureBackend lru d') root = Some s2 /\ same_accounts (accounts_of d' s2) (kept_accounts d s)
  | (Error e, _) => e = errWrite
  | _ => False
  end.
Proof.
  destruct (state_of_sync MO d s Hset Hs) as [M HM]. destruct Hset as [Hok HMO Hd Hlru].
  pose proof (SecureTheory_ok K U Hok). pose proof (SecureTries_ok lru K U Hok d).
  pose proof (SecureBackend_ok lru d Hd Hlru). pose proof (SecureWriter_ok (W := W) lru K U Hok d) as HW.
  destruct (IntermediateRoot_ok (BE := SecureBackend lru d) (MO := MO) s M HM Hf) as (h&s1&M1&E1&_&Hr&_&Hmap&_).
  pose proof (CommitTo_stored (BE := SecureBackend lru d) (WR := SecureWriter lru d W) (WV := SecureView U d) (WK := HW) s M w HM Hf Hcf Hw) as Hc.
  destruct (CommitTo (s, w)) as [[root|e| |] [s' w']]; try done; [|by destruct Hc].
  destruct Hc as [(M2&Hh&Hk&Hdu&Hn) _].
  assert (M1 = M2) as <-.
  { apply (state_map_unique (TT := SecureTheory K U) (kept_accounts d s) (kept_accounts d s)); [done|done|].
    split; [|done]. intros a Ha. by eapply durable_entry, Hdu. }
  split.
  - exists s1. rewrite E1. by rewrite (roots_unique (TT := SecureTheory K U) h root M1 Hr (held_roots _ _ _ Hh)).
  - intros d' Hd'. pose proof (SecureTries_ok lru K U Hok d') as HT'.
    assert (Hst : state_stored (TT := SecureTheory K U) (fun k => Db_Get k d') root (kept_accounts d s)).
    { assert (Hg : grows (overlay (fun h => Db_Get h d) w') (fun k => Db_Get k d')) by (intros k v _ Hv; by rewrite Hd').
      exists M1. split_and!; [by eapply (held_grows (TT := SecureTheory K U))|done| |done].
      intros a Ha. by eapply durable_grows, Hdu. }
    destruct (New_reads (BE := SecureBackend lru d') (TSK := HT') root (kept_accounts d s) Hst) as (s2&E2&Hacc).
    exists s2. split; [exact E2|exact Hacc].
Qed.
End secure.

(** ** Instances *)

(** One account with a balance, in memory. *)
Definition K1 (k : bytes) : Prop := k = alice.
Definition data1 : Account :=
  {| Nonce := 0; Balance := 5; Root := emptyRoot; Account_CodeHash := emptyCodeHash |}.
Definition leaf1 : tree := leaf (Keccak256 alice) (account_encoding data1).
Definition U1 (e : bytes) : Prop := e = tenc leaf1.
Definition lru1 (k : Hash) (v : Z) (m : gmap Hash Z) : gmap Hash Z := <[k := v]> m.
Definition order1 : MapOrder := elements.
Definition db1 : MemDatabase := NewMemDatabase.
Definition be1 : Backend := SecureBackend lru1 db1.
Definition state0 : db (BE := be1) :=
  {| state_trie := {| SecureTrie.trie := {| Trie.root := nilNode; Trie.originalRoot := emptyRoot; Trie.cachegen := 0; Trie.cachelimit := 120 |};
       SecureTrie.secKeyCache := ∅; SecureTrie.owner := false |} : trie (Backend := be1);
     stateObjects := ∅; stateObjectsDirty := ∅; db_refund := 0; thash := Common.zeroHash; bhash := Common.zeroHash;
     txIndex := 0; db_logs := ∅; logSize := 0; db_preimages := ∅; journal := []; validRevisions := [];
     nextRevisionId := 0; codeSizeCache := ∅ |}.
Definition state1 : db (BE := be1) := db_AddBalance (BE := be1) alice 5 state0.

Lemma New1 : New (BE := be1) emptyRoot = Some state0.
Proof. reflexivity. Qed.

Lemma data1_ok : data_ok data1 /\ balance_ok data1.
Proof.
  split; [|by vm_compute]. split; [simpl; lia| |apply Keccak256_size].
  split; [by vm_compute|by apply (bool_decide_unpack _)].
Qed.

Lemma hashes1 : hashes_ok K1 U1.
Proof.
  split.
  - by intros k k' -> ->.
  - intros x y [->| ->] [->| ->] E; [reflexivity|by vm_compute in E|by vm_compute in E|reflexivity].
  - intros e ->. by vm_compute.
Qed.

Lemma setting1 : setting lru1 K1 U1 order1 db1.
Proof.
  split; [apply hashes1|by intros X|by intros h c|].
  intros k v m k' v'. unfold lru1. rewrite lookup_insert. case_decide; intros; simplify_eq; auto.
Qed.

Lemma slots1 m : slots (TT := SecureTheory K1 U1) m -> m = ∅.
Proof.
  intros Hm. apply map_empty. intros k. destruct (m !! k) as [e|] eqn:E; [|done].
  destruct (Hm k e E) as [[[Hl _] Hk] _]. assert (k = alice) as -> by exact Hk. by vm_compute in Hl.
Qed.

Lemma known_empty1 : known (TrieTheory := SecureTheory K1 U1) ∅.
Proof. intros mh Hm. rewrite (hashed_map_fun K1 ∅ mh ∅ Hm (hashed_map_empty K1)). apply empty_known. Qed.

Lemma stored1 : state_stored (TT := SecureTheory K1 U1) (fun k => Db_Get k db1) emptyRoot (fun _ => None).
Proof.
  exists ∅. split_and!; [|apply known_empty1|done|done]. exists ∅. split; [apply hashed_map_empty|].
  exists TNil. split_and!; [by left|apply empty_contents|done|constructor].
Qed.

Lemma reached1 : state_of lru1 K1 U1 order1 db1 state1.
Proof.
  apply (reached_call (BE := be1) (TT := SecureTheory K1 U1) (cmd_AddBalance alice 5) state0 VNone); [|done|done].
  eapply reached_new; [exact stored1|exact New1].
Qed.

Lemma account1 : exists x, accounts_of lru1 db1 state1 alice = Some x /\ settled (accounts_of lru1 db1 state1 alice) = Some x /\
  acc_balance x = 5 /\ data_of x emptyRoot = data1.
Proof.
  assert (H : (fun x => (acc_nonce x, acc_balance x, acc_codeHash x, acc_suicided x)) <$> accounts_of lru1 db1 state1 alice
    = Some (0, 5, emptyCodeHash, false)) by (vm_compute; reflexivity).
  destruct (accounts_of lru1 db1 state1 alice) as [x|]; [|discriminate]. exists x. cbn in H. injection H as H1 H2 H3 H4.
  split_and!; [done| |done|].
  - unfold settled, acc_empty. by rewrite H1, H2, H4.
  - unfold data_of, data1. by rewrite H1, H2, H3.
Qed.

Lemma funded1 : funded lru1 K1 U1 db1 state1.
Proof.
  intros a x Ha Hx. assert (a = alice) as -> by exact Ha. destruct account1 as (y&Hy&_&Hb&_).
  unfold accounts_of in Hy. rewrite Hx in Hy. injection Hy as ->. lia.
Qed.

Lemma map1 M : state_map (TT := SecureTheory K1 U1) (kept_accounts lru1 db1 state1) M -> M = {[alice := account_encoding data1]}.
Proof.
  intros [HM Hn]. destruct account1 as (x&Hx&Hset&_&Hd). pose proof (HM alice eq_refl) as He.
  unfold kept_accounts in He. rewrite Hset in He. destruct He as (h&m&He&(mh&Hm&Hr)&[Hs _]).
  rewrite (slots1 m Hs) in Hm. rewrite (hashed_map_fun K1 ∅ mh ∅ Hm (hashed_map_empty K1)) in Hr.
  assert (h = emptyRoot) as -> by (eapply root_of_unique; [exact Hr|apply root_of_empty, empty_contents]).
  rewrite Hd in He. apply map_eq. intros a. destruct (decide (a = alice)) as [->|Hne].
  - by rewrite He, lookup_singleton_eq.
  - rewrite lookup_singleton_ne by done. destruct (M !! a) eqn:E; [|done]. destruct Hne. exact (Hn a _ E).
Qed.

Lemma collision_free1 : collision_free_state lru1 K1 U1 db1 state1.
Proof.
  split.
  - intros a Ha y m _ [Hs _]. rewrite (slots1 m Hs). apply known_empty1.
  - intros M HM. rewrite (map1 M HM). intros mh Hm.
    assert (Hl : hashed_map K1 {[alice := account_encoding data1]} {[Keccak256 alice := account_encoding data1]}).
    { rewrite <- !insert_empty. apply (hashed_map_insert K1 U1 hashes1); [apply hashed_map_empty|done]. }
    rewrite (hashed_map_fun K1 _ mh _ Hm Hl). destruct data1_ok as [Hd Hf].
    apply leaf_known; [apply Keccak256_size|]. by destruct (encode_account data1 Hd Hf) as (_&_&Hv).
Qed.

Lemma writable1 : writable U1 db1 NewMemDatabase.
Proof. split; [intros h e H|intros k v _ H]; by vm_compute in H. Qed.

Lemma IntermediateRoot_of_accounts_witness : exists h s1 s1',
  IntermediateRoot (BE := be1) (MO := order1) state1 = Some (h, s1) /\
  IntermediateRoot (BE := be1) (MO := order1) state1 = Some (h, s1') /\
  same_accounts K1 U1 (accounts_of lru1 db1 s1) (kept_accounts lru1 db1 state1).
Proof.
  apply (IntermediateRoot_of_accounts lru1 K1 U1 order1 order1 db1 db1 state1 state1);
    [apply setting1|apply setting1|apply reached1|apply reached1|apply funded1|apply funded1|].
  intros a _. reflexivity.
Defined.

Lemma commit_reopens_state_witness :
  match CommitTo (BE := be1) (MO := order1) (WR := SecureWriter lru1 db1 MemDatabase) (state1, NewMemDatabase) with
  | (Done root, (_, w')) =>
      (exists s1, IntermediateRoot (BE := be1) (MO := order1) state1 = Some (root, s1)) /\
      forall d' : MemDatabase, (forall k, Db_Get k d' = overlay (fun h => Db_Get h db1) w' k) ->
        exists s2, New (BE := SecureBackend lru1 d') root = Some s2 /\
          same_accounts K1 U1 (accounts_of lru1 d' s2) (kept_accounts lru1 db1 state1)
  | (Error e, _) => e = errWrite
  | _ => False
  end.
Proof.
  apply (commit_reopens_state lru1 K1 U1 order1 db1 state1 NewMemDatabase);
    [apply setting1|apply reached1|apply funded1|apply collision_free1|apply writable1].
Defined.

(** ** Where the code falls short *)

(** [Copy] copies the pointer to the account trie: the original [s] after the trie of
    its copy [c] was changed. *)
Definition with_trie_of (c s : db (BE := be1)) : db (BE := be1) := set_trie (BE := be1) s (state_trie c).


(** An object that was dirty at a commit is not marked dirty by later changes:
    the next commit returns the old root although the balance has changed. *)
Lemma change_after_commit_lost :
  match CommitTo (BE := be1) (MO := order1) (WR := SecureWriter lru1 db1 MemDatabase) (state1, NewMemDatabase) with
  | (Done root, (s, w)) =>
      let s' := db_AddBalance (BE := be1) alice 1 s in
      fst (db_GetBalance (BE := be1) alice s) = 5 /\ fst (db_GetBalance (BE := be1) alice s') = 6 /\
      fst (CommitTo (BE := be1) (MO := order1) (WR := SecureWriter lru1 db1 MemDatabase) (s', w)) = Done root
  | _ => False
  end.
Proof. vm_compute. by split_and!. Qed.

(** An account whose storage is missing in the database, and a write to its storage. *)
Definition data_lost : Account :=
  {| Nonce := 1; Balance := 0; Root := Keccak256 [1]; Account_CodeHash := emptyCodeHash |}.
Definition state_lost : db (BE := be1) :=
  db_SetState (BE := be1) alice (Big.be_fixed 32 1) (Big.be_fixed 32 2)
    (set_trie (BE := be1) state0 (Trie_Update (Backend := be1) alice (account_encoding data_lost) (state_trie state0))).

(** The read error that an object remembers for [Commit] stops the commit but is
    not returned by it: [Commit] returns the zero hash and no error. *)
Lemma commit_drops_read_error :
  fst (CommitTo (BE := be1) (MO := order1) (WR := SecureWriter lru1 db1 memBatch) (state_lost, [])) = Error errObject /\
  fst (Commit (BE := be1) (MO := order1) (WR := SecureWriter lru1 db1 memBatch) (state_lost, db1)) =
    Done (Common.zeroHash, true).
Proof. vm_compute. by split. Qed.
