(* ===== verification/StateTransition.v ===== *)
(** [core/state_transition.go] and [core/gaspool.go]: applying a message.

    The transition works on the gas pool, its own gas counters and the state of
    the virtual machine.  On an error everything done before it stays done, as in
    the source; the block processor discards such a state. *)
From S2P Require Import Prelude GoBig CommonMath CommonTypes Params VmTypes StateSpec VmInterp.
Import Math.

Record Message := {
  msg_From : Address;
  msg_To : option Address;
  msg_GasPrice : Z;
  msg_Gas : Z;
  msg_Value : Z;
  msg_Nonce : Z;
  msg_CheckNonce : bool;
  msg_Data : bytes;
}.

Inductive sterror :=
| st_ErrOutOfGas
| errInsufficientBalanceForGas
| ErrGasLimitReached
| errInvalidNonce (have expected : Z)
| st_ErrInsufficientBalance.

Definition MessageCreatesContract (msg : Message) : bool :=
  match msg_To msg with None => true | Some _ => false end.

(** [for _, byt := range data { if byt != 0 { nz++ } }] *)
Definition nonzero_bytes (data : bytes) : Z :=
  fold_left (fun nz b => if b =? 0 then nz else nz + 1) data 0.

Definition IntrinsicGas (data : bytes) (contractCreation : bool) : Z :=
  let igas := if contractCreation then Params.TxGasContractCreation else Params.TxGas in
  if zlen data >? 0 then
    let nz := nonzero_bytes data in
    let igas := igas + nz * Params.TxDataNonZeroGas in
    igas + (zlen data - nz) * Params.TxDataZeroGas
  else igas.

(** ** gaspool.go *)

Definition AddGas (gp amount : Z) : Z := gp + amount.
(** [None] is [ErrGasLimitReached]. *)
Definition SubGas (gp amount : Z) : option Z := if gp <? amount then None else Some (gp - amount).

(** ** The transition *)

Record ST (S : Type) := {
  gp : Z;
  st_gas : Z;
  initialGas : Z;
  st_world : World S;
}.
Arguments gp {S}. Arguments st_gas {S}. Arguments initialGas {S}. Arguments st_world {S}.
Arguments Build_ST {S}.

Section transition.
Context {S : Type} {DB : StateDB S} {CR : Crypto}.
Variable ctx : Context S.
Variable cfg : Config.
Variable msg : Message.
(** Recursion bound of the virtual machine. *)
Variable fuel : nat.

Abbreviation M := (SM (ST S) sterror).

Definition st_get {A} (g : S -> A * S) : M A := fun st =>
  let '(a, s) := g st.(st_world).(statedb) in
  (Done a, Build_ST st.(gp) st.(st_gas) st.(initialGas) (with_statedb st.(st_world) s)).
Definition st_do (g : S -> S) : M unit := modify (fun st =>
  Build_ST st.(gp) st.(st_gas) st.(initialGas)
    (with_statedb st.(st_world) (g st.(st_world).(statedb)))).
Definition set_gas (g : Z) : M unit := modify (fun st =>
  Build_ST st.(gp) g st.(initialGas) st.(st_world)).
Definition set_gp (n : Z) : M unit := modify (fun st =>
  Build_ST n st.(st_gas) st.(initialGas) st.(st_world)).
Definition set_initialGas (n : Z) : M unit := modify (fun st =>
  Build_ST st.(gp) st.(st_gas) n st.(st_world)).
(** A call into the machine. *)
Definition st_call {A} (m : WM S A) : M A := fun st =>
  let keep w := Build_ST st.(gp) st.(st_gas) st.(initialGas) w in
  match m st.(st_world) with
  | (Done a, w) => (Done a, keep w)
  | (Error _, w) => (Panic, keep w)
  | (Panic, w) => (Panic, keep w)
  | (NoFuel, w) => (NoFuel, keep w)
  end.

(** [from]: makes sure the sender exists. *)
Definition from : M Address :=
  let f := msg_From msg in
  exists_ ← st_get (Exist f);
  _ ← (if (exists_ : bool) then mret tt else st_do (CreateAccount f));
  mret f.

Definition to : M Address :=
  match msg_To msg with
  | None => mret Common.zeroAddress
  | Some t =>
      exists_ ← st_get (Exist t);
      _ ← (if (exists_ : bool) then mret tt else st_do (CreateAccount t));
      mret t
  end.

Definition useGas (amount : Z) : M unit :=
  g ← gets st_gas;
  if g <? amount then throw st_ErrOutOfGas else set_gas (u64 (g - amount)).

Definition buyGas : M unit :=
  let mgas := msg_Gas msg in
  if Big.BitLen mgas >? 64 then throw st_ErrOutOfGas
  else
    let mgval := mgas * msg_GasPrice msg in
    sender ← from;
    balance ← st_get (GetBalance sender);
    if balance <? mgval then throw errInsufficientBalanceForGas
    else
      pool ← gets gp;
      match SubGas pool mgas with
      | None => throw ErrGasLimitReached
      | Some pool =>
          _ ← set_gp pool;
          g ← gets st_gas;
          _ ← set_gas (u64 (g + Big.Uint64 mgas));
          _ ← set_initialGas mgas;
          st_do (SubBalance sender mgval)
      end.

Definition preCheck : M unit :=
  sender ← from;
  _ ← (if msg_CheckNonce msg then
         n ← st_get (GetNonce sender);
         if negb (n =? msg_Nonce msg) then throw (errInvalidNonce (msg_Nonce msg) n) else mret tt
       else mret tt);
  buyGas.

Definition gasUsed (st : ST S) : Z := st.(initialGas) - st.(st_gas).

(** [BigMin] may return the pointer to the refund counter itself, which the
    multiplication by the gas price then overwrites. *)
Definition refundGas : M unit :=
  sender ← from;
  g ← gets st_gas;
  let remaining := g * msg_GasPrice msg in
  _ ← st_do (AddBalance sender remaining);
  used ← gets gasUsed;
  let uhalf := Big.Div used 2 in
  r ← gets (fun st => GetRefund st.(st_world).(statedb));
  let refund := BigMin uhalf r in
  _ ← set_gas (u64 (g + Big.Uint64 refund));
  let refund' := refund * msg_GasPrice msg in
  _ ← (if uhalf >? r then st_do (poke_refund refund') else mret tt);
  _ ← st_do (AddBalance sender refund');
  pool ← gets gp;
  g ← gets st_gas;
  set_gp (AddGas pool g).

Definition TransitionDb : M (bytes * Z * Z) :=
  _ ← preCheck;
  sender ← from;
  let contractCreation := MessageCreatesContract msg in
  let intrinsicGas := IntrinsicGas (msg_Data msg) contractCreation in
  if Big.BitLen intrinsicGas >? 64 then throw st_ErrOutOfGas
  else
    _ ← useGas (Big.Uint64 intrinsicGas);
    '(ret, vmerr) ←
      (if contractCreation then
         g ← gets st_gas;
         '(ret, _, g, vmerr) ← st_call (Create ctx cfg fuel (AccountRef sender) (msg_Data msg) g
                                          (msg_Value msg));
         _ ← set_gas g; mret (ret, vmerr)
       else
         n ← st_get (GetNonce sender);
         _ ← st_do (SetNonce sender (u64 (n + 1)));
         t ← to;
         g ← gets st_gas;
         '(ret, g, vmerr) ← st_call (Call ctx cfg fuel (AccountRef sender) t (msg_Data msg) g
                                       (msg_Value msg));
         _ ← set_gas g; mret (ret, vmerr));
    if bool_decide (vmerr = Some ErrInsufficientBalance) then throw st_ErrInsufficientBalance
    else
      requiredGas ← gets gasUsed;
      _ ← refundGas;
      used ← gets gasUsed;
      _ ← st_do (AddBalance (Coinbase ctx) (used * msg_GasPrice msg));
      used ← gets gasUsed;
      mret (ret, requiredGas, used).
End transition.

(** [ApplyMessage]: a fresh transition. *)
Definition ApplyMessage {S} `{StateDB S, Crypto} (ctx : Context S) (cfg : Config) (msg : Message)
    (fuel : nat) (pool : Z) (w : World S)
  : outcome sterror (bytes * Z) * ST S :=
  ('(ret, _, used) ← TransitionDb ctx cfg msg fuel; mret (ret, used)) (Build_ST pool 0 0 w).
