(* ===== verification/TxTypes.v ===== *)
(** [core/types/transaction.go] and [transaction_signing.go]: transactions, their
    encoding and hash, and the three signers.

    The caches of a transaction are fields: the hash, the size and the sender that
    was derived last.  [crypto.Ecrecover] is a field of the [Crypto] class. *)
From S2P Require Import Prelude GoBig CommonMath CommonTypes Rlp RlpDecode VmTypes StateTransition.

(** [rlpHash] of [block.go]; an encoding error leaves the hash state empty. *)
Definition rlpHash `{Crypto} (x : Enc.value) : Hash :=
  match Enc.EncodeToBytes x with Done b => Keccak256 b | _ => Keccak256 [] end.

Module Tx.

Record txdata := {
  AccountNonce : Z;
  Price : Z;
  GasLimit : Z;
  Recipient : option Address;
  Amount : Z;
  Payload : bytes;
  V : Z;
  R : Z;
  S : Z;
}.
#[export] Instance txdata_eq_dec : EqDecision txdata.
Proof. solve_decision. Defined.

Inductive txerror :=
| ErrInvalidSig
| ErrInvalidChainId
| errRecover
| errInvalidPublicKey.

(** [chainId] and [chainIdMul] *)
Inductive Signer :=
| TiltSigner (chainId chainIdMul : Z)
| OmahaSigner
| HoldemSigner.

Record Transaction := {
  data : txdata;
  hash : option Hash;
  size : option Z;
  from : option (Signer * Address);
}.
Definition fresh (d : txdata) : Transaction := {| data := d; hash := None; size := None; from := None |}.

Definition newTransaction (nonce : Z) (to : option Address) (amount gasLimit gasPrice : Z) (payload : bytes)
  : Transaction :=
  fresh {| AccountNonce := nonce; Price := gasPrice; GasLimit := gasLimit; Recipient := to;
           Amount := amount; Payload := Common.CopyBytes payload; V := 0; R := 0; S := 0 |}.
Definition NewTransaction (nonce : Z) (to : Address) := newTransaction nonce (Some to).
Definition NewContractCreation (nonce : Z) := newTransaction nonce None.

(** ** Encoding *)

(** A nil address is the empty string ([makePtrWriter]). *)
Definition to_value (to : option Address) : Enc.value := Enc.VBytes (default [] to).

Definition txdata_value (d : txdata) : Enc.value :=
  Enc.VList
    [Enc.VUint (AccountNonce d); Enc.VBigInt (Some (Price d)); Enc.VBigInt (Some (GasLimit d));
     to_value (Recipient d); Enc.VBigInt (Some (Amount d)); Enc.VBytes (Payload d);
     Enc.VBigInt (Some (V d)); Enc.VBigInt (Some (R d)); Enc.VBigInt (Some (S d))].

Definition txdata_type : Dec.gotype :=
  Dec.TyStruct
    [Dec.TyUint 64; Dec.TyBigInt; Dec.TyBigInt; Dec.TyOptPtr (Dec.TyByteArray 20); Dec.TyBigInt; Dec.TyBytes;
     Dec.TyBigInt; Dec.TyBigInt; Dec.TyBigInt] None.

(** The struct that the decoder fills in. *)
Definition of_value (v : Enc.value) : option txdata :=
  match v with
  | Enc.VList
      [Enc.VUint n; Enc.VBigInt (Some p); Enc.VBigInt (Some g); Enc.VBytes to; Enc.VBigInt (Some a);
       Enc.VBytes b; Enc.VBigInt (Some v); Enc.VBigInt (Some r); Enc.VBigInt (Some s)] =>
      Some {| AccountNonce := n; Price := p; GasLimit := g;
              Recipient := match to with [] => None | _ => Some to end;
              Amount := a; Payload := b; V := v; R := r; S := s |}
  | _ => None
  end.

Section transaction.
Context `{Crypto}.

Definition Hash_ (tx : Transaction) : Hash * Transaction :=
  match hash tx with
  | Some h => (h, tx)
  | None =>
      let v := rlpHash (txdata_value (data tx)) in
      (v, {| data := data tx; hash := Some v; size := size tx; from := from tx |})
  end.

(** The counter counts what [rlp.Encode] writes: nothing after an error. *)
Definition Size (tx : Transaction) : Z * Transaction :=
  match size tx with
  | Some n => (n, tx)
  | None =>
      let c := match Enc.EncodeToBytes (txdata_value (data tx)) with Done b => zlen b | _ => 0 end in
      (c, {| data := data tx; hash := hash tx; size := Some c; from := from tx |})
  end.

Definition Cost (tx : Transaction) : Z := Price (data tx) * GasLimit (data tx) + Amount (data tx).

(** ** Signatures *)

Definition isProtectedV (V : Z) : bool :=
  if Big.BitLen V <=? 8 then
    let v := Big.Uint64 V in negb (v =? 27) && negb (v =? 28)
  else true.

Definition deriveChainId (v : Z) : Z :=
  if Big.BitLen v <=? 64 then
    let v := Big.Uint64 v in
    if (v =? 27) || (v =? 28) then 0 else u64 (v - 35) / 2
  else Big.Div (v - 35) 2.

Definition ChainId (tx : Transaction) : Z := deriveChainId (V (data tx)).
Definition Protected (tx : Transaction) : bool := isProtectedV (V (data tx)).

Definition NewTiltSigner (chainId : option Z) : Signer :=
  let c := default 0 chainId in TiltSigner c (c * 2).
Definition MakeSigner (configChainId : option Z) : Signer := NewTiltSigner configChainId.

Definition deriveSigner (V : Z) : Signer :=
  if negb (Big.Sign V =? 0) && isProtectedV V then NewTiltSigner (Some (deriveChainId V)) else OmahaSigner.

Definition Equal (s s2 : Signer) : bool :=
  match s, s2 with
  | TiltSigner c _, TiltSigner c2 _ => c2 =? c
  | OmahaSigner, OmahaSigner => true
  | HoldemSigner, HoldemSigner => true
  | _, _ => false
  end.

(** The fields that every signer hashes. *)
Definition payload_values (d : txdata) : list Enc.value :=
  [Enc.VUint (AccountNonce d); Enc.VBigInt (Some (Price d)); Enc.VBigInt (Some (GasLimit d));
   to_value (Recipient d); Enc.VBigInt (Some (Amount d)); Enc.VBytes (Payload d)].

(** [OmahaSigner] embeds [HoldemSigner] and its [Hash]. *)
Definition signer_Hash (s : Signer) (tx : Transaction) : Hash :=
  match s with
  | TiltSigner c _ =>
      rlpHash (Enc.VList (payload_values (data tx) ++ [Enc.VBigInt (Some c); Enc.VUint 0; Enc.VUint 0]))
  | OmahaSigner | HoldemSigner => rlpHash (Enc.VList (payload_values (data tx)))
  end.

(** The signature in the [R || S || V] format and the key it recovers; [Panic] is a
    slice expression out of range, for an [R] or [S] of more than 32 bytes. *)
Definition recoverKey (h : Hash) (r s v : Z) : outcome txerror bytes :=
  let R := Big.Bytes r in
  let S := Big.Bytes s in
  if (32 <? zlen R) || (64 <? zlen S) then Panic
  else
    let sig := zeros 65 in
    let sig := copy_at sig (32 - zlen R) (zlen R) R in
    let sig := copy_at sig (64 - zlen S) (zlen S) S in
    match zset sig 64 v with
    | None => Panic
    | Some sig =>
        match Ecrecover h sig with
        | None => Error errRecover
        | Some pub => if bool_decide (head pub = Some 4) then Done pub else Error errInvalidPublicKey
        end
    end.

Definition plain_PublicKey (s : Signer) (omaha : bool) (tx : Transaction) : outcome txerror bytes :=
  let d := data tx in
  if Big.BitLen (V d) >? 8 then Error ErrInvalidSig
  else
    let v := u8 (Big.Uint64 (V d) - 27) in
    if negb (ValidateSignatureValues v (R d) (S d) omaha) then Error ErrInvalidSig
    else recoverKey (signer_Hash s tx) (R d) (S d) v.

Definition PublicKey (s : Signer) (tx : Transaction) : outcome txerror bytes :=
  match s with
  | HoldemSigner => plain_PublicKey HoldemSigner false tx
  | OmahaSigner => plain_PublicKey OmahaSigner true tx
  | TiltSigner chainId chainIdMul =>
      if negb (Protected tx) then plain_PublicKey OmahaSigner true tx
      else if negb (ChainId tx =? chainId) then Error ErrInvalidChainId
      else
        let d := data tx in
        let v := u8 (Big.Uint64 (V d - chainIdMul) - 35) in
        if negb (ValidateSignatureValues v (R d) (S d) true) then Error ErrInvalidSig
        else recoverKey (signer_Hash s tx) (R d) (S d) v
  end.

Definition Sender (signer : Signer) (tx : Transaction) : outcome txerror Address * Transaction :=
  let derive :=
    match PublicKey signer tx with
    | Done pub =>
        let addr := gocopy Common.zeroAddress (zdrop 12 (Keccak256 (zdrop 1 pub))) in
        (Done addr, {| data := data tx; hash := hash tx; size := size tx; from := Some (signer, addr) |})
    | Error e => (Error e, tx)
    | Panic => (Panic, tx)
    | NoFuel => (NoFuel, tx)
    end in
  match from tx with
  | Some (s, a) => if Equal s signer then (Done a, tx) else derive
  | None => derive
  end.

(** [None] is the panic on a signature of the wrong size. *)
Definition WithSignature (signer : Signer) (tx : Transaction) (sig : bytes) : option Transaction :=
  if negb (zlen sig =? 65) then None
  else
    v ← zget sig 64;
    let d := data tx in
    let v' :=
      match signer with
      | TiltSigner chainId chainIdMul =>
          if negb (Big.Sign chainId =? 0) then u8 (v + 35) + chainIdMul else Big.SetBytes [v]
      | OmahaSigner | HoldemSigner => Big.SetBytes [u8 (v + 27)]
      end in
    Some (fresh
      {| AccountNonce := AccountNonce d; Price := Price d; GasLimit := GasLimit d; Recipient := Recipient d;
         Amount := Amount d; Payload := Payload d; V := v';
         R := Big.SetBytes (ztake 32 sig); S := Big.SetBytes (ztake 32 (zdrop 32 sig)) |}).

(** [crypto.Sign] is the foreign routine [sign]: [None] is its error. *)
Definition SignTx (sign : Hash -> option bytes) (tx : Transaction) (s : Signer)
  : option (option Transaction) :=
  match sign (signer_Hash s tx) with
  | None => Some None
  | Some sig => Some <$> WithSignature s tx sig
  end.

(** ** Messages *)

Definition AsMessage (s : Signer) (tx : Transaction) : outcome txerror Message * Transaction :=
  let d := data tx in
  match Sender s tx with
  | (Done a, tx) =>
      (Done {| msg_From := a; msg_To := Recipient d; msg_GasPrice := Price d; msg_Gas := GasLimit d;
               msg_Value := Amount d; msg_Nonce := AccountNonce d; msg_CheckNonce := true;
               msg_Data := Payload d |}, tx)
  | (Error e, tx) => (Error e, tx)
  | (Panic, tx) => (Panic, tx)
  | (NoFuel, tx) => (NoFuel, tx)
  end.

(** [UnmarshalJSON] after the fields were read: what it accepts. *)
Definition json_signature_ok (d : txdata) : bool :=
  let v :=
    if isProtectedV (V d)
    then u8 (Big.Uint64 (V d) - 35 - 2 * Big.Uint64 (deriveChainId (V d)))
    else u8 (Big.Uint64 (V d) - 27) in
  ValidateSignatureValues v (R d) (S d) false.

(** The transactions of [a] whose hash no transaction of [b] has. *)
Definition tx_hash (tx : Transaction) : Hash := (Hash_ tx).1.
Definition TxDifference (a b : list Transaction) : list Transaction :=
  let remove := fold_left (fun r tx => {[tx_hash tx]} ∪ r) b (∅ : gset Hash) in
  filter (fun tx => tx_hash tx ∉ remove) a.
End transaction.

End Tx.
