(* ===== verification/BlockTypes.v ===== *)
(** [core/types/block.go], [receipt.go], [log.go] and [bloom9.go]: headers, blocks,
    receipts and log bloom filters, with their encodings and hashes.

    Pointers to big integers are values, so a deep copy ([CopyHeader]) is the header
    itself; the cached hash of a block is the hash. *)
From S2P Require Import Prelude GoBig CommonMath CommonTypes Rlp RlpDecode VmTypes StateTransition TxTypes.

Abbreviation Transaction := Tx.Transaction.

(** ** bloom9.go *)
Module Bloom.

Definition bloomLength : Z := 256.

(** [SetBytes] into [b]; [None] is the panic on a long slice. *)
Definition SetBytes (b d : bytes) : option bytes :=
  if bloomLength <? zlen d then None
  else Some (copy_at b (bloomLength - zlen d) (zlen d) d).
Definition BytesToBloom (b : bytes) : option bytes := SetBytes (zeros bloomLength) b.
Definition Big_ (b : bytes) : Z := Big.SetBytes b.

Section bloom.
Context `{Crypto}.

(** The bit that bytes [i] and [i + 1] of the hash select. *)
Definition bloom_bit (h : bytes) (i : Z) : Z :=
  let b0 := default 0 (zget h i) in
  let b1 := default 0 (zget h (i + 1)) in
  Z.shiftl 1 (Z.land (b1 + Z.shiftl b0 8) 2047).

Definition bloom9 (b : bytes) : Z :=
  let h := Keccak256 b in
  fold_left (fun r i => Z.lor r (bloom_bit h i)) [0; 2; 4] 0.

Definition Add (b : bytes) (d : Z) : option bytes :=
  SetBytes b (Big.Bytes (Z.lor (Big.SetBytes b) (bloom9 (Big.Bytes d)))).

(** [bloom.And(bloom, cmp).Cmp(cmp) == 0] *)
Definition BloomLookup (bin : bytes) (topic : bytes) : bool :=
  let bloom := Big_ bin in
  let cmp := bloom9 topic in
  Z.land bloom cmp =? cmp.

(** [Test] of a big integer looks up its bytes. *)
Definition Test (b : bytes) (test : Z) : bool := BloomLookup b (Big.Bytes test).
Definition TestBytes (b test : bytes) : bool := Test b (Big.SetBytes test).

Definition LogsBloom (logs : list Log) : Z :=
  fold_left (fun bin log =>
      fold_left (fun bin t => Z.lor bin (bloom9 t)) (log_Topics log) (Z.lor bin (bloom9 (log_Address log))))
    logs 0.
End bloom.

End Bloom.

(** ** block.go and receipt.go *)
Module Types.

Definition EncodeNonce (i : Z) : bytes := Big.be_fixed 8 i.
Definition Nonce_Uint64 (n : bytes) : Z := Big.SetBytes n.

Record Header := {
  ParentHash : Hash;
  UncleHash : Hash;
  Coinbase : Address;
  Root : Hash;
  TxHash : Hash;
  ReceiptHash : Hash;
  Bloom : bytes;
  Difficulty : Z;
  Number : Z;
  GasLimit : Z;
  GasUsed : Z;
  Time : Z;
  Extra : bytes;
  MixDigest : Hash;
  Nonce : bytes;
}.
#[export] Instance Header_eq_dec : EqDecision Header.
Proof. solve_decision. Defined.

(** The fields before the seal. *)
Definition unsealed_values (h : Header) : list Enc.value :=
  [Enc.VBytes (ParentHash h); Enc.VBytes (UncleHash h); Enc.VBytes (Coinbase h); Enc.VBytes (Root h);
   Enc.VBytes (TxHash h); Enc.VBytes (ReceiptHash h); Enc.VBytes (Bloom h); Enc.VBigInt (Some (Difficulty h));
   Enc.VBigInt (Some (Number h)); Enc.VBigInt (Some (GasLimit h)); Enc.VBigInt (Some (GasUsed h));
   Enc.VBigInt (Some (Time h)); Enc.VBytes (Extra h)].
Definition header_value (h : Header) : Enc.value :=
  Enc.VList (unsealed_values h ++ [Enc.VBytes (MixDigest h); Enc.VBytes (Nonce h)]).

Definition header_type : Dec.gotype :=
  Dec.TyStruct
    [Dec.TyByteArray 32; Dec.TyByteArray 32; Dec.TyByteArray 20; Dec.TyByteArray 32; Dec.TyByteArray 32;
     Dec.TyByteArray 32; Dec.TyByteArray 256; Dec.TyBigInt; Dec.TyBigInt; Dec.TyBigInt; Dec.TyBigInt; Dec.TyBigInt;
     Dec.TyBytes; Dec.TyByteArray 32; Dec.TyByteArray 8] None.

(** The struct that the decoder fills in. *)
Definition header_of (v : Enc.value) : option Header :=
  match v with
  | Enc.VList
      [Enc.VBytes p; Enc.VBytes u; Enc.VBytes c; Enc.VBytes r; Enc.VBytes t; Enc.VBytes rc; Enc.VBytes b;
       Enc.VBigInt (Some d); Enc.VBigInt (Some n); Enc.VBigInt (Some gl); Enc.VBigInt (Some gu);
       Enc.VBigInt (Some tm); Enc.VBytes x; Enc.VBytes m; Enc.VBytes nc] =>
      Some {| ParentHash := p; UncleHash := u; Coinbase := c; Root := r; TxHash := t; ReceiptHash := rc; Bloom := b;
              Difficulty := d; Number := n; GasLimit := gl; GasUsed := gu; Time := tm; Extra := x; MixDigest := m;
              Nonce := nc |}
  | _ => None
  end.

Record Body := { body_Transactions : list Transaction; body_Uncles : list Header }.

Record Block := {
  header : Header;
  uncles : list Header;
  transactions : list Transaction;
}.

Record Receipt := {
  PostState : bytes;
  CumulativeGasUsed : Z;
  rc_Bloom : bytes;
  Logs : list Log;
  rc_TxHash : Hash;
  ContractAddress : Address;
  rc_GasUsed : Z;
}.

Definition NewReceipt (root : bytes) (cumulativeGasUsed : Z) : Receipt :=
  {| PostState := Common.CopyBytes root; CumulativeGasUsed := cumulativeGasUsed; rc_Bloom := zeros Bloom.bloomLength;
     Logs := []; rc_TxHash := Common.zeroHash; ContractAddress := Common.zeroAddress; rc_GasUsed := 0 |}.

(** The consensus fields of a log and of a receipt; the storage form adds the rest. *)
Definition log_value (l : Log) : Enc.value :=
  Enc.VList [Enc.VBytes (log_Address l); Enc.VList (map Enc.VBytes (log_Topics l)); Enc.VBytes (log_Data l)].
Definition storage_log_value (l : Log) : Enc.value :=
  Enc.VList [Enc.VBytes (log_Address l); Enc.VList (map Enc.VBytes (log_Topics l)); Enc.VBytes (log_Data l);
             Enc.VUint (log_BlockNumber l); Enc.VBytes (log_TxHash l); Enc.VUint (log_TxIndex l);
             Enc.VBytes (log_BlockHash l); Enc.VUint (log_Index l)].
Definition receipt_value (r : Receipt) : Enc.value :=
  Enc.VList [Enc.VBytes (PostState r); Enc.VBigInt (Some (CumulativeGasUsed r)); Enc.VBytes (rc_Bloom r);
             Enc.VList (map log_value (Logs r))].
Definition storage_receipt_value (r : Receipt) : Enc.value :=
  Enc.VList [Enc.VBytes (PostState r); Enc.VBigInt (Some (CumulativeGasUsed r)); Enc.VBytes (rc_Bloom r);
             Enc.VBytes (rc_TxHash r); Enc.VBytes (ContractAddress r); Enc.VList (map storage_log_value (Logs r));
             Enc.VBigInt (Some (rc_GasUsed r))].

Section types.
Context `{Crypto}.

Definition Hash_ (h : Header) : Hash := rlpHash (header_value h).
Definition HashNoNonce (h : Header) : Hash := rlpHash (Enc.VList (unsealed_values h)).
Definition CalcUncleHash (uncles : list Header) : Hash := rlpHash (Enc.VList (map header_value uncles)).
Definition Block_Hash (b : Block) : Hash := Hash_ (header b).
Definition NumberU64 (b : Block) : Z := Big.Uint64 (Number (header b)).

Definition NewBlockWithHeader (h : Header) : Block := {| header := h; uncles := []; transactions := [] |}.
Definition WithBody (b : Block) (txs : list Transaction) (us : list Header) : Block :=
  {| header := header b; uncles := us; transactions := txs |}.
Definition WithSeal (b : Block) (h : Header) : Block :=
  {| header := h; uncles := uncles b; transactions := transactions b |}.
Definition Block_Body (b : Block) : Body := {| body_Transactions := transactions b; body_Uncles := uncles b |}.
Definition Block_Transaction (b : Block) (h : Hash) : option Transaction :=
  snd <$> list_find (fun tx => Tx.tx_hash tx = h) (transactions b).

(** The blooms of big integers are at most 256 bytes long. *)
Definition CreateBloom (receipts : list Receipt) : option bytes :=
  Bloom.BytesToBloom (Big.Bytes (fold_left (fun bin r => Z.lor bin (Bloom.LogsBloom (Logs r))) receipts 0)).
End types.

End Types.
