(* ===== verification/DeriveSha.v ===== *)
(** [core/types/derive_sha.go] and [NewBlock] of [core/types/block.go]: the root of a list
    of transactions or receipts, and the block assembled from them.

    The trie of [DeriveSha] is the zero [trie.Trie], which has no database and is never
    committed.  The second half proves that the root identifies the list. *)
From S2P Require Import Prelude GoBig CommonTypes Rlp VmTypes TrieEncoding TrieNode Trie TxTypes BlockTypes RlpDecode RlpDecodeOk.
From S2P Require Import RlpDecodeTheorems TrieTree TrieRep TrieOk TrieHash TrieMap TrieTheorems Concrete.

(** A trie without a database finds no node. *)
#[export] Instance nil_Database : Database unit := {
  Db_Get _ _ := None;
  Db_Put _ _ _ := None;
}.

Definition zero_trie : Trie.t :=
  {| Trie.root := nilNode; Trie.originalRoot := Common.zeroHash; Trie.cachegen := 0; Trie.cachelimit := 0 |}.

(** The encoding of an index has at most 9 bytes, 18 digits of a path. *)
Definition derive_fuel : nat := 39.

(** What [rlp.Encode] writes: nothing after an error. *)
Definition encoded (v : Enc.value) : bytes :=
  match Enc.EncodeToBytes v with Done b => b | _ => [] end.

Section derive.
Context `{Crypto}.

Fixpoint derive_loop (i : Z) (items : list bytes) (tr : Trie.t) : outcome trieerr Trie.t :=
  match items with
  | [] => Done tr
  | x :: items =>
      tr ← Trie.Update (D:=unit) tt derive_fuel tr (encoded (Enc.VUint i)) x;
      derive_loop (i + 1) items tr
  end.

(** [None] is a panic. *)
Definition DeriveSha (items : list bytes) : option Hash :=
  match derive_loop 0 items zero_trie with
  | Done tr => match Trie.Hash_ (D:=unit) tr with Done (h, _) => Some h | _ => None end
  | _ => None
  end.

(** [Transactions.GetRlp] and [Receipts.GetRlp] *)
Definition tx_rlp (tx : Transaction) : bytes := encoded (Tx.txdata_value (Tx.data tx)).
Definition receipt_rlp (r : Types.Receipt) : option bytes :=
  match Enc.EncodeToBytes (Types.receipt_value r) with Done b => Some b | _ => None end.

Definition DeriveSha_transactions (txs : list Transaction) : option Hash := DeriveSha (map tx_rlp txs).
Definition DeriveSha_receipts (receipts : list Types.Receipt) : option Hash := mapM receipt_rlp receipts ≫= DeriveSha.

Definition EmptyUncleHash : Hash := Types.CalcUncleHash [].

Definition set_roots (h : Types.Header) (tx uncle receipt bloom : bytes) : Types.Header :=
  {| Types.ParentHash := Types.ParentHash h; Types.UncleHash := uncle; Types.Coinbase := Types.Coinbase h;
     Types.Root := Types.Root h; Types.TxHash := tx; Types.ReceiptHash := receipt; Types.Bloom := bloom;
     Types.Difficulty := Types.Difficulty h; Types.Number := Types.Number h; Types.GasLimit := Types.GasLimit h;
     Types.GasUsed := Types.GasUsed h; Types.Time := Types.Time h; Types.Extra := Types.Extra h;
     Types.MixDigest := Types.MixDigest h; Types.Nonce := Types.Nonce h |}.

(** [EmptyRootHash] is [DeriveSha] of no transaction. *)
Definition NewBlock (h : Types.Header) (txs : list Transaction) (uncles : list Types.Header) (receipts : list Types.Receipt)
  : option Types.Block :=
  EmptyRootHash ← DeriveSha [];
  txHash ← match txs with [] => Some EmptyRootHash | _ => DeriveSha_transactions txs end;
  '(receiptHash, bloom) ← match receipts with
                          | [] => Some (EmptyRootHash, Types.Bloom h)
                          | _ =>
                              r ← DeriveSha_receipts receipts;
                              b ← Types.CreateBloom receipts;
                              Some (r, b)
                          end;
  let uncleHash := match uncles with [] => EmptyUncleHash | _ => Types.CalcUncleHash uncles end in
  Some {| Types.header := set_roots h txHash uncleHash receiptHash bloom; Types.uncles := uncles;
          Types.transactions := txs |}.
End derive.

(** The root of a list of encodings identifies the list, and the roots in the header of a
    block its transactions, uncles and receipts. *)

#[export] Instance nil_Database_ok : DatabaseOk unit.
Proof. by split. Qed.

(** ** The keys *)

Definition index_key (i : Z) : bytes := Spec.enc (Enc.VUint i).

Section keys.
Variable i : Z.
Hypothesis Hi : 0 <= i < 2 ^ 64.

Lemma zlen_index_key : zlen (index_key i) <= 9.
Proof.
  assert (zlen (Big.Bytes i) <= 8).
  { apply Big.zlen_Bytes_le; [lia|]. change (256 ^ 8) with (2 ^ 64). lia. }
  unfold index_key. cbn [Spec.enc]. etrans; [apply zlen_string; lia|lia].
Qed.

Lemma index_key_encoding :
  encoded (Enc.VUint i) = index_key i /\ Dec.DecodeBytes (Dec.TyUint 64) (index_key i) = Done (Enc.VUint i).
Proof.
  pose proof zlen_index_key. unfold encoded, index_key in *.
  destruct (DecodeBytes_enc (Dec.TyUint 64) (Enc.VUint i)) as [-> ?]; [by right; right; right|by exists i|lia|done].
Qed.

Lemma index_key_ok : key_ok 19 (index_key i) /\ (key_fuel (index_key i) <= derive_fuel)%nat.
Proof.
  pose proof zlen_index_key as Hl. unfold zlen in Hl. unfold key_ok, key_fuel, derive_fuel.
  split; [split|]; [|lia..]. apply is_bytes_enc; [by constructor|]. unfold index_key, zlen in *. lia.
Qed.
End keys.

Lemma index_key_inj i j : 0 <= i < 2 ^ 64 -> 0 <= j < 2 ^ 64 -> index_key i = index_key j -> i = j.
Proof.
  intros Hi Hj E. destruct (index_key_encoding i Hi) as [_ Di], (index_key_encoding j Hj) as [_ Dj].
  rewrite E, Dj in Di. by injection Di.
Qed.

(** ** The map of a list *)

Fixpoint list_map (i : Z) (items : list bytes) (m : gmap bytes bytes) : gmap bytes bytes :=
  match items with
  | [] => m
  | x :: items => list_map (i + 1) items (<[index_key i := x]> m)
  end.
Definition map_of (items : list bytes) : gmap bytes bytes := list_map 0 items ∅.

Definition item_ok (x : bytes) : Prop := x <> [] /\ is_bytes x /\ zlen x < 2 ^ 32.
Definition items_ok (items : list bytes) : Prop := Forall item_ok items /\ zlen items < 2 ^ 63.

Lemma list_map_lookup items : forall i m j, 0 <= i -> i + zlen items < 2 ^ 63 -> 0 <= j < 2 ^ 63 ->
  list_map i items m !! index_key j = if (i <=? j) && (j <? i + zlen items) then items !! Z.to_nat (j - i) else m !! index_key j.
Proof.
  induction items as [|x items IH]; intros i m j Hi Hb Hj; cbn [list_map].
  - change (zlen (@nil bytes)) with 0. destruct ((i <=? j) && (j <? i + 0)) eqn:E; [bool_to_prop; lia|done].
  - rewrite zlen_cons in *. pose proof (zlen_nonneg items). rewrite IH by lia.
    destruct (decide (j = i)) as [->|Hne].
    + replace ((i + 1 <=? i) && _) with false by (symmetry; bool_to_prop; lia).
      replace ((i <=? i) && _) with true by (symmetry; bool_to_prop; lia).
      rewrite Z.sub_diag. apply (lookup_insert_eq (M := gmap bytes)).
    + replace ((i <=? j) && (j <? i + (zlen items + 1))) with ((i + 1 <=? j) && (j <? i + 1 + zlen items)).
      2: { apply eq_true_iff_eq. rewrite !andb_true_iff, !Z.leb_le, !Z.ltb_lt. lia. }
      destruct (_ && _) eqn:E.
      * bool_to_prop. replace (Z.to_nat (j - i)) with (S (Z.to_nat (j - (i + 1)))) by lia. done.
      * apply (lookup_insert_ne (M := gmap bytes)). intros E'. apply index_key_inj in E'; lia.
Qed.

Lemma map_of_inj items items' : zlen items < 2 ^ 63 -> zlen items' < 2 ^ 63 -> map_of items = map_of items' -> items = items'.
Proof.
  intros Hl Hl' E.
  assert (Hj : forall l j, zlen l < 2 ^ 63 -> l !! j = if Z.of_nat j <? 2 ^ 63 then map_of l !! index_key (Z.of_nat j) else None).
  { intros l j Hlen. destruct (Z.of_nat j <? 2 ^ 63) eqn:Ej; bool_to_prop; [|apply lookup_ge_None; unfold zlen in Hlen; lia].
    unfold map_of. rewrite list_map_lookup by lia. rewrite Z.sub_0_r, Nat2Z.id. destruct (_ && _) eqn:Eb; [done|].
    rewrite lookup_empty. apply lookup_ge_None. bool_to_prop. unfold zlen in *. lia. }
  apply list_eq. intros j. by rewrite !Hj, E.
Qed.

(** ** The root *)
Section root.
Context {CR : Crypto} {CK : CryptoOk}.

Abbreviation nothing := (fun h : bytes => Db_Get (D:=unit) h tt).

Lemma derive_loop_ok items : forall i tr m, Forall item_ok items -> 0 <= i -> i + zlen items < 2 ^ 63 ->
  trie_ok 19 nothing tr m ->
  exists tr', derive_loop i items tr = Done tr' /\ trie_ok 19 nothing tr' (list_map i items m).
Proof.
  induction items as [|x items IH]; intros i tr m Hx Hi Hb Hok; cbn [derive_loop list_map]; [by exists tr|].
  apply Forall_cons in Hx as [(Hne & Hbx & Hl) Hx]. rewrite zlen_cons in Hb. pose proof (zlen_nonneg items).
  destruct (index_key_encoding i ltac:(lia)) as [-> _]. destruct (index_key_ok i ltac:(lia)) as [Hk Hf].
  destruct (TryUpdate_ok 19 ltac:(lia) tt derive_fuel tr m (index_key i) x Hok Hk Hbx Hl Hf) as (tr' & E & Hok').
  unfold Trie.Update. rewrite E. cbn [Trie.ignore mbind outcome_bind]. apply IH; [done|lia|lia|].
  unfold map_update in Hok'. destruct (zlen x =? 0) eqn:Ez; [|done]. bool_to_prop. destruct Hne. by apply zlen_0.
Qed.

(** The root is that of a trie whose keys are short. *)
Lemma DeriveSha_root items : items_ok items -> exists h t,
  DeriveSha items = Some h /\ root_of h (map_of items) /\ wf0 19 t /\ contents t (map_of items).
Proof.
  intros [Hx Hl]. unfold DeriveSha. destruct (derive_loop_ok items 0 zero_trie ∅ Hx) as (tr & -> & Hok); [lia|lia| |].
  - exists TNil. split_and!; [by left|constructor|apply empty_contents].
  - destruct (Hash_ok (D:=unit) 19 ltac:(lia) nothing tr _ Hok) as (h & tr' & -> & Hr & _).
    destruct Hok as (t & Hwf & _ & Hc). by exists h, t.
Qed.

Section commits.
Variable U : bytes -> Prop.
Hypothesis HU : collision_free U.
Hypothesis Hs : no_sentinels U.

Definition items_known (items : list bytes) : Prop := items_ok items /\ map_known U (map_of items).

Lemma DeriveSha_inj items items' h : items_known items -> items_known items' ->
  DeriveSha items = Some h -> DeriveSha items' = Some h -> items = items'.
Proof.
  intros [Hi Hk] [Hi' Hk'] E E'. apply map_of_inj; [apply Hi|apply Hi'|].
  destruct (DeriveSha_root items Hi) as (h1 & t1 & E1 & Hr1 & Hw1 & Hc1).
  destruct (DeriveSha_root items' Hi') as (h2 & t2 & E2 & Hr2 & Hw2 & Hc2).
  rewrite E in E1. rewrite E' in E2. injection E1 as <-. injection E2 as <-.
  apply (root_of_inj 19 ltac:(lia) U HU h); try done. intros t n Hw [Hc|Hc].
  - by rewrite (contents_unique n 19 t t1 _ Hw Hw1 Hc Hc1).
  - by rewrite (contents_unique n 19 t t2 _ Hw Hw2 Hc Hc2).
Qed.

(** C7: [DeriveSha] returns for every list of encodings, the panics and the errors that
    [Update] drops do not happen, and the roots of two lists are equal exactly when the
    lists are: the root in a header commits to the elements and to their order. *)
Theorem DeriveSha_commits (items items' : list bytes) (Hi : items_known items) (Hi' : items_known items') :
  exists h h', DeriveSha items = Some h /\ DeriveSha items' = Some h' /\ (h = h' <-> items = items').
Proof.
  destruct (DeriveSha_root items (proj1 Hi)) as (h & _ & E & _). destruct (DeriveSha_root items' (proj1 Hi')) as (h' & _ & E' & _).
  exists h, h'. split_and!; [done|done|]. split; [|by intros <-; congruence].
  intros <-. by apply (DeriveSha_inj items items' h).
Qed.
End commits.
End root.

(** ** Instances *)

(** A list of one transaction and the empty list. *)
Definition item0 : bytes := [0xc3; 1; 2; 3].

Lemma item0_ok : items_ok [item0] /\ items_ok [].
Proof.
  split; (split; [|by vm_compute]); [|constructor].
  apply Forall_singleton. split_and!; [done|by apply (bool_decide_unpack _)|by vm_compute].
Qed.
Lemma map_of_one x : map_of [x] = {[index_key 0 := x]}.
Proof. unfold map_of. cbn [list_map]. by rewrite insert_empty. Qed.
Lemma key00_bytes : is_bytes (index_key 0).
Proof. by apply (bool_decide_unpack _). Qed.

Lemma DeriveSha_commits_witness : exists h h',
  DeriveSha [item0] = Some h /\ DeriveSha [] = Some h' /\ (h = h' <-> [item0] = []).
Proof.
  apply (DeriveSha_commits (fun e => e = tenc (leaf (index_key 0) item0))).
  - intros x y -> ->. done.
  - intros e ->. by vm_compute.
  - split; [apply item0_ok|]. rewrite map_of_one. apply leaf_known; [apply key00_bytes|]. split_and!; [done|by apply (bool_decide_unpack _)|by vm_compute].
  - split; [apply item0_ok|]. apply empty_known.
Defined.
