(* ===== verification/Tilthash.v ===== *)
(** [consensus/tilthash/algorithm.go]: the proof of work.

    A cache or dataset is its list of 32-bit words; the rows of 64 bytes of a cache are lists
    of bytes while it is generated, and the byte order of the machine cancels out between
    [swap] and the conversion to words.  [None] is a panic: a modulus of zero or an index out
    of range.  [crypto.Keccak512] is the class [Keccak512]. *)
From S2P Require Import Prelude GoBig CommonMath CommonTypes VmTypes.

Class Keccak512 := keccak512 : bytes -> bytes.
Class Keccak512Ok `{Keccak512} : Prop := keccak512_size b : Common.is_array 64 (keccak512 b).

Module Tilthash.

Definition epochLength : Z := 30000.
Definition mixBytes : Z := 128.
Definition hashBytes : Z := 64.
Definition hashWords : Z := 16.
Definition datasetParents : Z := 256.
Definition cacheRounds : nat := 3.
Definition loopAccesses : Z := 64.

Definition u32 (z : Z) : Z := z mod 2 ^ 32.

(** [binary.LittleEndian] *)
Definition Uint32 (b : bytes) : Z := Big.SetBytes (rev (ztake 4 b)).
Definition PutUint32 (v : Z) : bytes := rev (Big.be_fixed 4 v).
Definition PutUint64 (v : Z) : bytes := rev (Big.be_fixed 8 v).

(** The words of a byte slice ([prepare]) and the bytes of words. *)
Definition words (b : bytes) : list Z := map (fun i => Uint32 (zdrop (4 * i) b)) (seqZ 0 (zlen b / 4)).
Definition flatten (ws : list Z) : bytes := concat (map PutUint32 ws).

Definition fnv (a b : Z) : Z := Z.lxor (u32 (a * 0x01000193)) b.
(** [fnvHash(mix, data)]; [data] is at least as long as [mix]. *)
Definition fnvHash (mix data : list Z) : list Z := zip_with fnv mix data.

Section algorithm.
Context {CR : Crypto} {KC : Keccak512}.

Definition seedHash (block : Z) : bytes :=
  let seed := zeros 32 in
  if block <? epochLength then seed else Nat.iter (Z.to_nat (block / epochLength)) Keccak256 seed.

(** ** The cache *)

(** The rows of the initial cache, each the hash of the one before. *)
Fixpoint hash_rows (n : nat) (prev : bytes) : list bytes :=
  match n with
  | O => []
  | S n => let row := keccak512 prev in row :: hash_rows n row
  end.

Definition xorBytes (a b : bytes) : bytes := zip_with Z.lxor a b.

(** One step of [randmemohash] at row [j]. *)
Definition mix_row (rows : list bytes) (j : Z) : list bytes :=
  let n := zlen rows in
  let row i := default [] (zget rows i) in
  let src := (j - 1 + n) mod n in
  let x := Uint32 (row j) mod n in
  <[Z.to_nat j := keccak512 (xorBytes (row src) (row x))]> rows.

(** [generateCache] for a buffer of [size] bytes, a multiple of 64. *)
Definition generateCache (size : Z) (seed : bytes) : list Z :=
  let n := size / hashBytes in
  let rows := hash_rows (Z.to_nat n) seed in
  let rows := Nat.iter cacheRounds (fun rows => fold_left mix_row (seqZ 0 n) rows) rows in
  words (concat rows).

(** ** The dataset *)

Definition mix_parent (cache : list Z) (rows index : Z) (mix : list Z) (i : Z) : list Z :=
  let parent := fnv (Z.lxor index i) (default 0 (zget mix (i mod 16))) mod rows in
  fnvHash mix (zdrop (parent * hashWords) cache).

Definition generateDatasetItem (cache : list Z) (index : Z) : option bytes :=
  let rows := u32 (zlen cache / hashWords) in
  if rows =? 0 then None
  else
    let row := ztake hashWords (zdrop (index mod rows * hashWords) cache) in
    let mix := match row with w :: ws => flatten (Z.lxor w index :: ws) | [] => [] end in
    let intMix := words (keccak512 mix) in
    let intMix := fold_left (mix_parent cache rows index) (seqZ 0 datasetParents) intMix in
    Some (keccak512 (flatten intMix)).

(** The indices of goroutine [id] out of [threads], for a dataset of [size] bytes. *)
Definition segment (threads size id : Z) : list Z :=
  let batch := u32 ((size + hashBytes * threads - 1) / (hashBytes * threads)) in
  let first := u32 (id * batch) in
  let limit := u32 (first + batch) in
  let limit := if limit >? u32 (size / hashBytes) then u32 (size / hashBytes) else limit in
  seqZ first (limit - first).

(** [copy(dataset[index*hashBytes:], item)], in words, and the progress report. *)
Definition write_item (cache : list Z) (dest : option (list Z)) (index : Z) : option (list Z) :=
  dest ← dest;
  item ← generateDatasetItem cache index;
  let size := 4 * zlen dest in
  let offset := u32 (index * hashBytes) / 4 in
  if zlen dest <? offset then None
  else if u32 (size / hashBytes / 100) =? 0 then None
  else Some (ztake offset dest ++ gocopy (zdrop offset dest) (words item)).

(** The writes of the goroutines, one goroutine after the other. *)
Definition generateDataset (threads : Z) (cache dest : list Z) : option (list Z) :=
  fold_left (write_item cache) (concat (map (segment threads (4 * zlen dest)) (seqZ 0 threads))) (Some dest).

(** ** hashimoto *)

Definition mix_access (lookup : Z -> option (list Z)) (rows seedHead : Z) (mix : option (list Z)) (i : Z) : option (list Z) :=
  mix ← mix;
  let parent := fnv (Z.lxor i seedHead) (default 0 (zget mix (i mod 32))) mod rows in
  l0 ← lookup (u32 (2 * parent));
  l1 ← lookup (u32 (2 * parent + 1));
  Some (fnvHash mix (l0 ++ l1)).

Fixpoint compress (mix : list Z) : list Z :=
  match mix with
  | a :: b :: c :: d :: mix => fnv (fnv (fnv a b) c) d :: compress mix
  | _ => []
  end.

Definition hashimoto (hash : bytes) (nonce size : Z) (lookup : Z -> option (list Z)) : option (bytes * bytes) :=
  let rows := u32 (size / mixBytes) in
  let seed := ztake 32 (gocopy (zeros 40) hash) ++ PutUint64 nonce in
  let seed := keccak512 seed in
  let seedHead := Uint32 seed in
  let mix := words seed ++ words seed in
  if rows =? 0 then None
  else
    mix ← fold_left (mix_access lookup rows seedHead) (seqZ 0 loopAccesses) (Some mix);
    let digest := flatten (compress mix) in
    Some (digest, Keccak256 (seed ++ digest)).

Definition hashimotoLight (size : Z) (cache : list Z) (hash : bytes) (nonce : Z) : option (bytes * bytes) :=
  hashimoto hash nonce size (fun index => words <$> generateDatasetItem cache index).

Definition hashimotoFull (dataset : list Z) (hash : bytes) (nonce : Z) : option (bytes * bytes) :=
  hashimoto hash nonce (4 * zlen dataset) (fun index =>
    let offset := u32 (index * hashWords) in slice dataset offset (u32 (offset + hashWords))).
End algorithm.
End Tilthash.
