(* ===== verification/TilthashOk.v ===== *)
(** Light and full verification of the proof of work agree, as long as the dataset has
    fewer than 2^32 bytes; the part of a dataset above that is never generated. *)
From S2P Require Import Prelude GoBig CommonMath CommonTypes VmTypes Tilthash Concrete.
Import Tilthash.

(** ** Words *)

Lemma length_words b : length (words b) = Z.to_nat (zlen b / 4).
Proof. unfold words. rewrite length_map. apply length_seqZ. Qed.

Section dataset.
Context {CR : Crypto} {KC : Keccak512} {KK : Keccak512Ok}.
Variable cache : list Z.
Hypothesis Hrows : u32 (zlen cache / hashWords) <> 0.

(** The words of a dataset item. *)
Definition item (i : Z) : list Z := from_option words [] (generateDatasetItem cache i).

Lemma item_some i : words <$> generateDatasetItem cache i = Some (item i).
Proof. unfold item, generateDatasetItem. by rewrite (proj2 (Z.eqb_neq _ _) Hrows). Qed.

Lemma length_item i : length (item i) = 16%nat.
Proof.
  unfold item, generateDatasetItem. rewrite (proj2 (Z.eqb_neq _ _) Hrows). cbn [from_option]. rewrite length_words.
  match goal with |- context [zlen (keccak512 ?x)] => destruct (keccak512_size x) as [-> _] end. done.
Qed.

(** The place of an item. *)
Definition place (i : Z) : Z := u32 (i * hashBytes) / 4.

Lemma place_bounds i : 0 <= place i /\ place i + 16 <= 2 ^ 30 /\ place i mod 16 = 0.
Proof.
  unfold place, u32, hashBytes. change (2 ^ 32) with (64 * 2 ^ 26). rewrite (Z.mul_comm i 64), Z.mul_mod_distr_l by lia.
  pose proof (Z.mod_pos_bound i (2 ^ 26) ltac:(lia)). set (r := i mod 2 ^ 26) in *.
  replace (64 * r) with (16 * r * 4) by lia. rewrite Z.div_mul by lia. rewrite Z.mul_comm, Z.mod_mul by lia. lia.
Qed.

Lemma place_small i : 0 <= i < 2 ^ 26 -> place i = 16 * i.
Proof.
  intros Hi. unfold place, u32, hashBytes. rewrite Z.mod_small by lia. replace (i * 64) with (16 * i * 4) by lia. apply Z.div_mul. lia.
Qed.

(** A write of an item into a dataset. *)
Definition put (dest : list Z) (i : Z) : list Z := ztake (place i) dest ++ gocopy (zdrop (place i) dest) (item i).

Lemma length_put dest i : length (put dest i) = length dest.
Proof.
  unfold put, ztake, zdrop. rewrite length_app, length_take. pose proof (zlen_gocopy (drop (Z.to_nat (place i)) dest) (item i)) as E.
  unfold zlen in E. rewrite length_drop in E. lia.
Qed.

Lemma put_lookup dest i k : (Z.to_nat (place i) + 16 <= length dest)%nat ->
  put dest i !! k = if decide (Z.to_nat (place i) <= k < Z.to_nat (place i) + 16)%nat then item i !! (k - Z.to_nat (place i))%nat
                    else dest !! k.
Proof.
  intros Hd. pose proof (length_item i) as Hl. set (o := Z.to_nat (place i)) in *. unfold put, ztake, zdrop, gocopy. fold o.
  rewrite length_drop, Hl, drop_drop. rewrite (take_ge (item i)) by lia. case_decide as Hk.
  - rewrite lookup_app_r; rewrite length_take; [|lia]. rewrite Nat.min_l by lia. by rewrite lookup_app_l by lia.
  - destruct (decide (k < o)%nat).
    + rewrite lookup_app_l by (rewrite length_take; lia). by apply lookup_take_lt.
    + rewrite !lookup_app_r; rewrite ?length_take; try lia. rewrite lookup_drop. f_equal. lia.
Qed.

Lemma put_above dest i k : (2 ^ 30 <= k)%Z -> put dest i !! Z.to_nat k = dest !! Z.to_nat k.
Proof.
  intros Hk. destruct (place_bounds i) as (H0 & H1 & _). pose proof (length_item i) as Hl. set (o := place i) in *.
  unfold put, ztake, zdrop, gocopy. fold o. rewrite length_drop, Hl, drop_drop.
  destruct (decide (length dest <= Z.to_nat k)%nat) as [Hle|Hlt].
  - rewrite (lookup_ge_None_2 dest) by lia. apply lookup_ge_None_2. rewrite !length_app, !length_take, length_drop. lia.
  - rewrite (take_ge (item i)) by lia. rewrite !lookup_app_r; rewrite ?length_take; try lia. rewrite lookup_drop. f_equal. lia.
Qed.

Lemma write_item_put dest i : place i <= zlen dest -> u32 (4 * zlen dest / hashBytes / 100) <> 0 ->
  write_item cache (Some dest) i = Some (put dest i).
Proof.
  intros Hp Hs. unfold write_item. cbn [mbind option_bind]. unfold put, item.
  unfold generateDatasetItem at 1. rewrite (proj2 (Z.eqb_neq _ _) Hrows). cbn [mbind option_bind]. cbv zeta.
  change (u32 (i * hashBytes) / 4) with (place i). rewrite (proj2 (Z.ltb_ge _ _) Hp), (proj2 (Z.eqb_neq _ _) Hs).
  f_equal. f_equal. f_equal. unfold generateDatasetItem. by rewrite (proj2 (Z.eqb_neq _ _) Hrows).
Qed.

(** The words written, whatever the order. *)
Lemma puts_lookup l : forall dest, NoDup l -> Forall (fun i => 0 <= i < 2 ^ 26 /\ 16 * i + 16 <= zlen dest) l ->
  forall k, (forall i, i ∈ l -> (Z.to_nat (16 * i) <= k < Z.to_nat (16 * i) + 16)%nat ->
      fold_left put l dest !! k = item i !! (k - Z.to_nat (16 * i))%nat) /\
    ((forall i, i ∈ l -> ~ (Z.to_nat (16 * i) <= k < Z.to_nat (16 * i) + 16)%nat) -> fold_left put l dest !! k = dest !! k).
Proof.
  induction l as [|j l IH]; intros dest Hnd Hl k; [split; [set_solver|done]|].
  apply NoDup_cons in Hnd as [Hj Hnd]. apply Forall_cons in Hl as [[Hj0 Hjl] Hl]. simpl.
  assert (Z.to_nat (place j) + 16 <= length dest)%nat as Hd by (rewrite place_small by done; unfold zlen in Hjl; lia).
  destruct (IH (put dest j) Hnd) with (k := k) as [IH1 IH2].
  { eapply Forall_impl; [exact Hl|]. intros i [? ?]. split; [done|]. unfold zlen in *. by rewrite length_put. }
  split.
  - intros i Hi Hk. apply elem_of_cons in Hi as [->|Hi]; [|by apply IH1].
    rewrite IH2; [by rewrite put_lookup, place_small, decide_True by done|]. intros i Hi' Hk'.
    rewrite Forall_forall in Hl. specialize (Hl i Hi'). assert (i = j) by lia. by subst.
  - intros Hno. rewrite IH2 by (intros i Hi; apply Hno; by right). rewrite put_lookup, place_small by done.
    rewrite decide_False; [done|]. apply Hno. by left.
Qed.

(** ** Goroutines *)

(** The segments of the goroutines are the items, in order. *)
Lemma segments threads n : 1 <= threads <= 2 ^ 20 -> 0 < n < 2 ^ 26 ->
  concat (map (segment threads (64 * n)) (seqZ 0 threads)) = seqZ 0 n.
Proof.
  intros Ht Hn. set (batch := (64 * n + 64 * threads - 1) / (64 * threads)).
  assert (n <= threads * batch <= n + threads /\ 0 < batch <= n) as [Hcov Hb].
  { pose proof (Z.div_mod (64 * n + 64 * threads - 1) (64 * threads) ltac:(lia)) as E.
    pose proof (Z.mod_pos_bound (64 * n + 64 * threads - 1) (64 * threads) ltac:(lia)). fold batch in E. nia. }
  assert (forall j, 0 <= j < threads -> segment threads (64 * n) j = seqZ (j * batch) (Z.min (j * batch + batch) n - j * batch)) as Hseg.
  { intros j Hj. unfold segment, hashBytes. fold batch. unfold u32. rewrite (Z.mod_small batch) by lia.
    assert ((j + 1) * batch <= threads * batch) by (apply Z.mul_le_mono_nonneg_r; lia).
    assert (0 <= j * batch) by (apply Z.mul_nonneg_nonneg; lia). rewrite (Z.mod_small (j * batch)) by lia.
    rewrite (Z.mod_small (j * batch + batch)) by lia. rewrite (Z.mul_comm 64 n), Z.div_mul by lia.
    rewrite (Z.mod_small n) by lia. f_equal. f_equal. rewrite Z.gtb_ltb. destruct (Z.ltb_spec n (j * batch + batch)); lia. }
  assert (forall j : nat, Z.of_nat j <= threads ->
    concat (map (segment threads (64 * n)) (seqZ 0 (Z.of_nat j))) = seqZ 0 (Z.min n (Z.of_nat j * batch))) as Hind.
  { induction j as [|j IH]; intros Hj; [by rewrite Z.min_r by lia|].
    rewrite Nat2Z.inj_succ, <- Z.add_1_r, seqZ_app by lia. rewrite map_app, concat_app, IH by lia. simpl.
    rewrite Z.add_0_l, app_nil_r, Hseg by lia. destruct (decide (Z.of_nat j * batch <= n)).
    - rewrite (Z.min_r n) by lia. replace (Z.min n ((Z.of_nat j + 1) * batch)) with
        (Z.of_nat j * batch + (Z.min (Z.of_nat j * batch + batch) n - Z.of_nat j * batch)) by nia.
      rewrite seqZ_app by lia. by rewrite Z.add_0_l.
    - rewrite (Z.min_l n (Z.of_nat j * batch)), (Z.min_l n ((Z.of_nat j + 1) * batch)) by lia.
      rewrite (seqZ_nil (Z.of_nat j * batch)) by lia. apply app_nil_r. }
  rewrite <- (Z2Nat.id threads) at 2 by lia. rewrite Hind by lia. f_equal. rewrite Z2Nat.id by lia. lia.
Qed.

Variable dest : list Z.
Variable n : Z.
Hypothesis Hdest : zlen dest = 16 * n.
Hypothesis Hn : 100 <= n < 2 ^ 26.

Lemma writes_puts l d : zlen d = zlen dest -> Forall (fun i => 0 <= i < n) l ->
  fold_left (write_item cache) l (Some d) = Some (fold_left put l d).
Proof.
  revert d. induction l as [|i l IH]; intros d Hd Hl; [done|]. apply Forall_cons in Hl as [Hi Hl].
  cbn [fold_left]. rewrite write_item_put.
  - apply IH; [|done]. unfold zlen in *. by rewrite length_put.
  - rewrite place_small by lia. lia.
  - rewrite Hd, Hdest. unfold hashBytes. replace (4 * (16 * n)) with (n * 64) by lia. rewrite Z.div_mul by lia.
    unfold u32. rewrite Z.mod_small; [|split; [apply Z.div_pos; lia|apply Z.div_lt_upper_bound; lia]].
    assert (1 <= n / 100) by (apply Z.div_le_lower_bound; lia). lia.
Qed.

(** The dataset: one item after the other. *)
Definition dataset : list Z := concat (map item (seqZ 0 n)).

Lemma length_items l : (length (concat (map item l)) = 16 * length l)%nat.
Proof. induction l as [|x l IH]; [done|]. simpl. rewrite length_app, IH, length_item. lia. Qed.

Lemma dataset_lookup m i r : 0 <= i < Z.of_nat m -> (r < 16)%nat ->
  concat (map item (seqZ 0 (Z.of_nat m))) !! (Z.to_nat (16 * i) + r)%nat = item i !! r.
Proof.
  revert i. induction m as [|m IH]; intros i Hi Hr; [lia|].
  pose proof (length_items (seqZ 0 (Z.of_nat m))) as Hl. rewrite length_seqZ, Nat2Z.id in Hl.
  rewrite Nat2Z.inj_succ, <- Z.add_1_r, seqZ_app by lia. rewrite map_app, concat_app. simpl. rewrite app_nil_r.
  destruct (decide (i = Z.of_nat m)) as [->|].
  - rewrite lookup_app_r by lia. rewrite Hl, Z.add_0_l. f_equal. lia.
  - rewrite lookup_app_l by lia. apply IH; [lia|done].
Qed.

Lemma length_dataset : length dataset = length dest.
Proof.
  unfold dataset. rewrite length_items, length_seqZ. unfold zlen in Hdest. lia.
Qed.

(** Whatever the order of the writes, they make the dataset. *)
Lemma puts_dataset l : l ≡ₚ seqZ 0 n -> fold_left put l dest = dataset.
Proof.
  intros Hl. assert (length (fold_left put l dest) = length dest) as Hlen.
  { clear -Hrows KK. revert dest. induction l as [|x l IH]; intros d; [done|]. simpl. by rewrite IH, length_put. }
  apply list_eq_same_length with (length dest); [apply length_dataset|done|]. intros k x y Hk Hx Hy.
  set (i := Z.of_nat k / 16). assert (0 <= i < n) as Hi.
  { unfold zlen in Hdest. split; [apply Z.div_pos; lia|apply Z.div_lt_upper_bound; lia]. }
  assert (Z.to_nat (16 * i) <= k < Z.to_nat (16 * i) + 16)%nat as Hki.
  { pose proof (Z.div_mod (Z.of_nat k) 16 ltac:(lia)). pose proof (Z.mod_pos_bound (Z.of_nat k) 16 ltac:(lia)). fold i in H. lia. }
  destruct (puts_lookup l dest) with (k := k) as [H _].
  { rewrite Hl. apply NoDup_seqZ. }
  { rewrite Hl. apply Forall_forall. intros j Hj%elem_of_seqZ. split; [lia|]. rewrite Hdest. lia. }
  assert (i ∈ l) as Hil by (rewrite Hl; apply elem_of_seqZ; lia). rewrite (H i Hil Hki) in Hx.
  unfold dataset in Hy. replace n with (Z.of_nat (Z.to_nat n)) in Hy by lia.
  replace k with (Z.to_nat (16 * i) + (k - Z.to_nat (16 * i)))%nat in Hy at 1 by lia.
  rewrite dataset_lookup in Hy by lia. congruence.
Qed.

Lemma dataset_item i : 0 <= i < n -> slice dataset (u32 (i * hashWords)) (u32 (u32 (i * hashWords) + hashWords)) = Some (item i).
Proof.
  intros Hi. unfold u32, hashWords. rewrite (Z.mod_small (i * 16)), (Z.mod_small (i * 16 + 16)) by lia.
  assert (zlen dataset = 16 * n) as Hl by (rewrite <- Hdest; unfold zlen; by rewrite length_dataset).
  rewrite slice_Some by lia. f_equal. unfold ztake, zdrop.
  apply list_eq_same_length with 16%nat; [apply length_item| |].
  - rewrite length_take, length_drop. unfold zlen in Hl. lia.
  - intros k x y Hk Hx Hy. rewrite lookup_take_lt, lookup_drop in Hx by lia.
    unfold dataset in Hx. replace n with (Z.of_nat (Z.to_nat n)) in Hx by lia.
    replace (Z.to_nat (i * 16)) with (Z.to_nat (16 * i)) in Hx by lia. rewrite dataset_lookup in Hx by lia. congruence.
Qed.

(** Only the items of the dataset are looked up. *)
Lemma hashimoto_ext hash nonce size l1 l2 : 0 <= size / mixBytes < 2 ^ 31 ->
  (forall i, 0 <= i < 2 * (size / mixBytes) -> l1 i = l2 i) ->
  hashimoto hash nonce size l1 = hashimoto hash nonce size l2.
Proof.
  intros Hs Hl. unfold hashimoto. unfold u32. rewrite (Z.mod_small (size / mixBytes)) by lia.
  destruct (Z.eqb_spec (size / mixBytes) 0) as [|Hne]; [done|]. f_equal.
  set (seed := keccak512 _). generalize (Some (words seed ++ words seed)). generalize (seqZ 0 loopAccesses).
  induction l as [|i l IH]; intros mix; [done|]. cbn [fold_left]. rewrite IH. f_equal.
  unfold mix_access. destruct mix as [mix|]; [|done]. cbn [mbind option_bind].
  set (parent := fnv _ _ mod _). assert (0 <= parent < size / mixBytes) by (apply Z.mod_pos_bound; lia).
  unfold u32. rewrite !Z.mod_small by lia. rewrite !Hl by lia. done.
Qed.

Lemma hashimoto_total hash nonce size lookup : 0 < size / mixBytes < 2 ^ 31 ->
  (forall i, 0 <= i < 2 * (size / mixBytes) -> is_Some (lookup i)) -> is_Some (hashimoto hash nonce size lookup).
Proof.
  intros Hs Hl. unfold hashimoto, u32. rewrite (Z.mod_small (size / mixBytes)) by lia.
  destruct (Z.eqb_spec (size / mixBytes) 0) as [|_]; [lia|]. set (seed := keccak512 _).
  assert (forall l mix, exists mix', fold_left (mix_access lookup (size / mixBytes) (Uint32 seed)) l (Some mix) = Some mix') as H.
  { induction l as [|i l IH]; intros mix; [by exists mix|]. cbn [fold_left]. unfold mix_access at 2. cbn [mbind option_bind].
    set (parent := fnv _ _ mod _). assert (0 <= parent < size / mixBytes) by (apply Z.mod_pos_bound; lia).
    unfold u32. rewrite !Z.mod_small by lia. destruct (Hl (2 * parent) ltac:(lia)) as [l0 ->].
    destruct (Hl (2 * parent + 1) ltac:(lia)) as [l1 ->]. apply IH. }
  destruct (H (seqZ 0 loopAccesses) (words seed ++ words seed)) as [mix ->]. by eexists.
Qed.
End dataset.

(** C32: mining and verifying agree.  For every cache with at least one row and every
    dataset buffer of at least 100 and fewer than 2^26 items, generation succeeds for any
    number of goroutines, and gives the same dataset for every interleaving of their
    writes; on that dataset [hashimotoFull] returns what [hashimotoLight] computes from the
    cache alone. *)
Theorem hashimoto_light_full {CR : Crypto} {KC : Keccak512} {KK : Keccak512Ok} cache dest n threads
    (Hrows : u32 (zlen cache / hashWords) <> 0) (Hdest : zlen dest = 16 * n) (Hn : 100 <= n < 2 ^ 26)
    (Ht : 1 <= threads <= 2 ^ 20) :
  exists ds, generateDataset threads cache dest = Some ds /\ zlen ds = zlen dest /\
    (forall writes, writes ≡ₚ concat (map (segment threads (4 * zlen dest)) (seqZ 0 threads)) ->
       fold_left (write_item cache) writes (Some dest) = Some ds) /\
    forall hash nonce, exists r, hashimotoFull ds hash nonce = Some r /\ hashimotoLight (4 * zlen dest) cache hash nonce = Some r.
Proof.
  assert (concat (map (segment threads (4 * zlen dest)) (seqZ 0 threads)) = seqZ 0 n) as Hseg.
  { rewrite Hdest. replace (4 * (16 * n)) with (64 * n) by lia. apply segments; lia. }
  assert (forall l, l ≡ₚ seqZ 0 n -> fold_left (write_item cache) l (Some dest) = Some (dataset cache n)) as Hw.
  { intros l Hl. rewrite (writes_puts cache Hrows dest n Hdest Hn) by (done || (rewrite Hl; apply Forall_forall; intros i ?%elem_of_seqZ; lia)).
    f_equal. by apply puts_dataset. }
  exists (dataset cache n). split; [unfold generateDataset; rewrite Hseg; by apply Hw|].
  assert (zlen (dataset cache n) = zlen dest) as Hlen by (unfold zlen; by rewrite (length_dataset cache Hrows dest n Hdest)).
  split; [done|]. split; [intros writes; rewrite Hseg; apply Hw|]. intros hash nonce.
  assert (n / 2 = 4 * zlen dest / mixBytes) as Hm.
  { rewrite Hdest. unfold mixBytes. replace (4 * (16 * n)) with (n * 64) by lia. change 128 with (2 * 64). by rewrite Z.div_mul_cancel_r. }
  pose proof (Z.div_mod n 2 ltac:(lia)). pose proof (Z.mod_pos_bound n 2 ltac:(lia)).
  unfold hashimotoFull, hashimotoLight. rewrite Hlen.
  destruct (hashimoto_total hash nonce (4 * zlen dest) (fun index => words <$> generateDatasetItem cache index)) as [r Hr].
  { rewrite <- Hm. lia. } { intros i _. rewrite item_some by done. by eexists. }
  exists r. split; [|done]. rewrite <- Hr. apply hashimoto_ext; [rewrite <- Hm; lia|]. intros i Hi. rewrite <- Hm in Hi.
  cbv zeta. rewrite (dataset_item cache Hrows dest n) by (done || lia). by rewrite item_some.
Qed.

(** C38: from 2^32 bytes on the generation of the dataset wraps around: [index*hashBytes] is
    computed in 32 bits.  The generation succeeds, but no write reaches the words from 2^30
    on, which keep what the buffer held.  The tables give datasets of that size from epoch
    385 on. *)
Theorem dataset_wraps {CR : Crypto} {KC : Keccak512} {KK : Keccak512Ok} cache dest n threads
    (Hrows : u32 (zlen cache / hashWords) <> 0) (Hdest : zlen dest = 16 * n) (Hn : 2 ^ 26 <= n < 2 ^ 32) :
  exists ds, generateDataset threads cache dest = Some ds /\ zlen ds = zlen dest /\
    forall k, 2 ^ 30 <= k -> ds !! Z.to_nat k = dest !! Z.to_nat k.
Proof.
  unfold generateDataset. generalize (concat (map (segment threads (4 * zlen dest)) (seqZ 0 threads))).
  intros l. revert dest Hdest. induction l as [|i l IH]; intros dest Hdest; [by exists dest|]. cbn [fold_left].
  rewrite write_item_put; [|done| |].
  - destruct (IH (put cache dest i)) as (ds & Hds & Hl & Hk); [unfold zlen in *; by rewrite length_put|].
    exists ds. split; [done|]. split; [rewrite Hl; unfold zlen; by rewrite length_put|].
    intros k Hk'. rewrite Hk by done. by apply put_above.
  - destruct (place_bounds i). lia.
  - rewrite Hdest. unfold hashBytes. replace (4 * (16 * n)) with (n * 64) by lia. rewrite Z.div_mul by lia.
    unfold u32. rewrite Z.mod_small; [|split; [apply Z.div_pos; lia|apply Z.div_lt_upper_bound; lia]].
    assert (1 <= n / 100) by (apply Z.div_le_lower_bound; lia). lia.
Qed.

(** ** Instances *)

(** Not a hash, but of the right size. *)
#[local] Instance toy_keccak512 : Keccak512 := fun b => Big.be_fixed 64 (Big.SetBytes b).
#[local] Instance toy_keccak512_ok : Keccak512Ok.
Proof. intros b. apply (Common.is_array_be_fixed 64). Qed.

Lemma hashimoto_light_full_witness : exists ds, generateDataset 3 (replicate 32 7) (replicate 1600 0) = Some ds /\
  exists r, hashimotoFull ds (zeros 32) 5 = Some r /\ hashimotoLight 6400 (replicate 32 7) (zeros 32) 5 = Some r.
Proof.
  destruct (hashimoto_light_full (replicate 32 7) (replicate 1600 0) 100 3) as (ds & Hg & _ & _ & Hh).
  - by vm_compute.
  - reflexivity.
  - lia.
  - lia.
  - exists ds. split; [exact Hg|]. exact (Hh (zeros 32) 5).
Defined.

Lemma dataset_wraps_witness : let dest := replicate (Z.to_nat (16 * 2 ^ 27)) 0 in
  exists ds, generateDataset 3 (replicate 32 7) dest = Some ds /\ zlen ds = zlen dest /\
  forall k, 2 ^ 30 <= k -> ds !! Z.to_nat k = dest !! Z.to_nat k.
Proof.
  intros dest. apply (dataset_wraps (replicate 32 7) dest (2 ^ 27) 3).
  - by vm_compute.
  - unfold dest, zlen. rewrite length_replicate. apply Z2Nat.id. lia.
  - lia.
Defined.
