(* ===== verification/Sha3Theorems.v ===== *)
(** What the hash functions of crypto/sha3 and crypto/crypto.go compute, and the classes of
    hash functions they satisfy. *)
From S2P Require Import Prelude GoBig CommonTypes Keccakf KeccakfOk Sha3 Sha3Ok Rlp VmTypes TrieNode Trie Tilthash.
Import Sha3 Sponge.

(** ** Runs of a sponge *)

Inductive sponge_op :=
| OWrite (p : bytes)
| ORead (c : nat)
| OSum (pre : bytes)
| OReset
| OClone.

(** The code: the reply of a call and the sponge that is used from then on. *)
Definition sponge_step (d : state) (o : sponge_op) : outcome grown (bytes * state) :=
  match o with
  | OWrite p => d ← Write p d; Done ([], d)
  | ORead c => Read (Z.of_nat c) d
  | OSum pre => h ← Sum pre d; Done (h, d)
  | OReset => Done ([], Reset d)
  | OClone => match clone d with Some d => Done ([], d) | None => Panic end
  end.
Fixpoint sponge_run (d : state) (ops : list sponge_op) : outcome grown (list bytes * state) :=
  match ops with
  | [] => Done ([], d)
  | o :: ops => '(x, d) ← sponge_step d o; '(xs, d) ← sponge_run d ops; Done (x :: xs, d)
  end.

(** The contract: the message so far, or the message and how much of its output was read.
    A sponge that has been read from is not written to, summed or cloned. *)
Inductive sponge_spec := Absorbed (m : bytes) | Squeezed (m : bytes) (pos : Z).

Section spec.
Variables (r ds n : Z).

Definition spec_step (s : sponge_spec) (o : sponge_op) : option (bytes * sponge_spec) :=
  match s, o with
  | Absorbed m, OWrite p => Some ([], Absorbed (m ++ p))
  | Absorbed m, ORead c => Some (output r ds m 0 (Z.of_nat c), Squeezed m (Z.of_nat c))
  | Absorbed m, OSum pre => Some (pre ++ output r ds m 0 n, Absorbed m)
  | Absorbed m, OClone => Some ([], Absorbed m)
  | Squeezed m pos, ORead c => Some (output r ds m pos (Z.of_nat c), Squeezed m (pos + Z.of_nat c))
  | _, OReset => Some ([], Absorbed [])
  | _, _ => None
  end.
Fixpoint spec_run (s : sponge_spec) (ops : list sponge_op) : option (list bytes * sponge_spec) :=
  match ops with
  | [] => Some ([], s)
  | o :: ops => '(x, s) ← spec_step s o; '(xs, s) ← spec_run s ops; Some (x :: xs, s)
  end.

Definition sponge_rep (s : sponge_spec) (d : state) : Prop :=
  match s with
  | Absorbed m => absorbing r ds n m d
  | Squeezed m pos => squeezing r ds n (absorb r (pad r ds m)) pos d
  end.

Hypothesis Hr : 0 < r <= maxRate /\ r mod 8 = 0.
Hypothesis Hn : 0 <= n.

Lemma sponge_step_ok s d o x s' : sponge_rep s d -> spec_step s o = Some (x, s') ->
  exists d', sponge_step d o = Done (x, d') /\ sponge_rep s' d'.
Proof.
  intros H E. destruct s as [m|m pos], o as [p|c|pre| |]; cbn [spec_step] in E; try discriminate E; injection E as <- <-; cbn [sponge_step sponge_rep] in *.
  - destruct (Write_ok r ds n Hr m p d H) as (d' & -> & H'). by exists d'.
  - apply (Read_absorbing r ds n Hr); [lia|done].
  - rewrite (Sum_absorbing r ds n Hr Hn pre m d H). by exists d.
  - eexists. split; [reflexivity|]. apply (absorbing_Reset r ds n Hr). by destruct H.
  - destruct (clone_absorbing r ds n m d H) as (d' & -> & H'). by exists d'.
  - apply (Read_squeezing r ds n Hr); [lia|done].
  - eexists. split; [reflexivity|]. apply (absorbing_Reset r ds n Hr). by destruct H.
Qed.

Lemma sponge_run_ok ops : forall s d xs s', sponge_rep s d -> spec_run s ops = Some (xs, s') ->
  exists d', sponge_run d ops = Done (xs, d') /\ sponge_rep s' d'.
Proof.
  induction ops as [|o ops IH]; intros s d xs s' H E; cbn [spec_run] in E.
  - injection E as <- <-. by exists d.
  - destruct (spec_step s o) as [[x s1]|] eqn:E1; [|discriminate E]. cbn [mbind option_bind] in E.
    destruct (spec_run s1 ops) as [[xs1 s2]|] eqn:E2; [|discriminate E]. cbn [mbind option_bind] in E. injection E as <- <-.
    destruct (sponge_step_ok s d o x s1 H E1) as (d1 & E1' & H1). destruct (IH s1 d1 xs1 s2 H1 E2) as (d2 & E2' & H2).
    exists d2. cbn [sponge_run]. rewrite E1'. cbn [mbind outcome_bind]. rewrite E2'. done.
Qed.
End spec.

(** The constructors of hashes.go and shake.go. *)
Definition instances : list state :=
  [NewKeccak256; NewKeccak512; New224; New256; New384; New512; NewShake128; NewShake256].

Lemma instances_ok d : d ∈ instances -> d = New (rate d) (dsbyte d) (outputLen d) /\
  (0 < rate d <= maxRate /\ rate d mod 8 = 0) /\ 0 <= outputLen d.
Proof.
  unfold instances. intros H.
  do 8 (apply elem_of_cons in H as [->|H]; [split; [done|]; by repeat split|]).
  by apply not_elem_of_nil in H.
Qed.

(** C9: every sponge behaves as the construction of FIPS 202 with its rate and domain byte,
    however the message is cut into writes and the output into reads: digests and output
    are those of all that was written since the last reset, taking a digest or a clone
    leaves the sponge usable, and writing after reading panics. *)
Theorem sponge_refines (d0 : state) (ops : list sponge_op) (xs : list bytes) (s : sponge_spec) (Hd : d0 ∈ instances)
    (Hs : spec_run (rate d0) (dsbyte d0) (outputLen d0) (Absorbed []) ops = Some (xs, s)) :
  exists d, sponge_run d0 ops = Done (xs, d) /\
    match s with Absorbed _ => True | Squeezed _ _ => forall p, Write p d = Panic end.
Proof.
  destruct (instances_ok d0 Hd) as (E & Hr & Hn).
  destruct (sponge_run_ok (rate d0) (dsbyte d0) (outputLen d0) Hr Hn ops (Absorbed []) d0 xs s) as (d & Hrun & Hrep); [|done|].
  { cbn [sponge_rep]. rewrite E at 4. by apply absorbing_New. }
  exists d. split; [done|]. destruct s as [m|m pos]; [done|]. intros p. destruct Hrep as (_ & Hdir & _). unfold Write. by rewrite Hdir.
Qed.

Lemma sponge_refines_witness :
  exists d, sponge_run NewShake128 [OWrite [1; 2]; OClone; OWrite [3]; ORead 2; ORead 3] =
    Done ([[]; []; []; output 168 0x1f [1; 2; 3] 0 2; output 168 0x1f [1; 2; 3] 2 3], d) /\ forall p, Write p d = Panic.
Proof.
  refine (sponge_refines NewShake128 [OWrite [1; 2]; OClone; OWrite [3]; ORead 2; ORead 3]
    [[]; []; []; output 168 0x1f [1; 2; 3] 0 2; output 168 0x1f [1; 2; 3] 2 3] (Squeezed [1; 2; 3] 5) _ _).
  - unfold instances. do 6 right. left.
  - reflexivity.
Defined.

(** ** Hashes of byte strings *)

Section hashes.
Variables (r ds n : Z).
Hypothesis Hr : 0 < r <= maxRate /\ r mod 8 = 0.

Lemma write_all_ok data : forall m d, absorbing r ds n m d ->
  exists d', write_all data d = Done d' /\ absorbing r ds n (m ++ concat data) d'.
Proof.
  induction data as [|b data IH]; intros m d H; cbn [write_all concat].
  - exists d. by rewrite app_nil_r.
  - destruct (Write_ok r ds n Hr m b d H) as (d1 & -> & H1). cbn [mbind outcome_bind].
    destruct (IH (m ++ b) d1 H1) as (d2 & -> & H2). exists d2. by rewrite app_assoc.
Qed.

Lemma is_array_output m c : 0 <= c -> Common.is_array c (output r ds m 0 c).
Proof.
  intros Hc. unfold output. split; [unfold zlen; rewrite length_map, length_seqZ; lia|].
  apply Forall_map, Forall_forall. intros i _. unfold out_byte. set (b := bytes_of _).
  assert (is_bytes b) as Hb by apply is_bytes_bytes_of. destruct (nth_in_or_default (Z.to_nat (i mod r)) b 0) as [Hi| ->].
  - unfold is_bytes in Hb. rewrite List.Forall_forall in Hb. by apply Hb.
  - unfold is_byte. lia.
Qed.
End hashes.

(** The digests of crypto.go. *)
Definition keccak_digest (r n : Z) (m : bytes) : bytes := output r 0x01 m 0 n.

Lemma Keccak_ok r n data : 0 < r <= maxRate /\ r mod 8 = 0 -> 0 <= n ->
  (d ← write_all data (New r 0x01 n); Sum [] d) = Done (keccak_digest r n (concat data)).
Proof.
  intros Hr Hn. destruct (write_all_ok r 0x01 n Hr data [] (New r 0x01 n)) as (d & -> & H); [by apply absorbing_New|].
  cbn [mbind outcome_bind]. by rewrite (Sum_absorbing r 0x01 n Hr Hn [] (concat data) d H).
Qed.

(** SHAKE256 [clone] computes the start of the unread output from the capacity of the
    buffer, which is that of the whole array and not the rate. *)
Theorem shake_clone_diverges :
  (d ← Write [1; 2; 3] NewShake256; '(_, d) ← Read 1 d; sponge_step d OClone) = Panic /\
  (d ← Write [1; 2; 3] NewShake256; '(_, d) ← Read 40 d; '(x, _) ← Read 4 d;
   '(_, d') ← sponge_step d OClone; '(y, _) ← Read 4 d'; Done (x, y)) =
    Done ([175; 140; 53; 25], [106; 100; 238; 6]).
Proof. split; vm_compute; reflexivity. Qed.

(** The hash functions the other components take as parameters, from the modelled sponge:
    the sizes they are assumed to have, and the constants of the program they explain. *)

Section crypto.
Variables (sha ripemd : bytes -> bytes) (recover : bytes -> bytes -> option bytes).

(** The remaining primitives stay parameters. *)
#[local] Instance keccak_crypto : Crypto := {
  Keccak256 := keccak_digest 136 32;
  Sha256 := sha;
  Ripemd160 := ripemd;
  Ecrecover := recover;
}.

Lemma keccak_crypto_ok : (forall b, Common.is_array 32 (sha b)) -> (forall b, Common.is_array 20 (ripemd b)) ->
  (forall h sig pub, recover h sig = Some pub -> Common.is_array 65 pub) -> CryptoOk.
Proof. intros H1 H2 H3. constructor; [|done..]. intros b. exact (is_array_output 136 1 b 32 ltac:(lia)). Qed.
End crypto.

#[local] Instance keccak_512 : Tilthash.Keccak512 := keccak_digest 72 64.

Lemma keccak_512_ok : Keccak512Ok.
Proof. intros b. exact (is_array_output 72 1 b 64 ltac:(lia)). Qed.

(** C11: [Keccak256] and [Keccak512] of crypto.go hash the concatenation of their arguments
    with the sponge of FIPS 202, never panic, and return 32 and 64 bytes; the constant
    [emptyRoot] of the trie is the hash of the encoding of the empty string. *)
Theorem crypto_digests (data : list bytes) :
  (exists h, Sha3.Keccak256 data = Done h /\ Common.is_array 32 h /\ h = Sponge.output 136 0x01 (concat data) 0 32) /\
  (exists h, Sha3.Keccak512 data = Done h /\ Common.is_array 64 h /\ h = Sponge.output 72 0x01 (concat data) 0 64) /\
  (exists e, Enc.EncodeToBytes (Enc.VBytes []) = Done e /\ Sha3.Keccak256 [e] = Done emptyRoot).
Proof.
  split; [|split].
  - exists (keccak_digest 136 32 (concat data)). split; [|split; [exact (is_array_output 136 1 (concat data) 32 ltac:(lia))|done]].
    unfold Sha3.Keccak256. apply (Keccak_ok 136 32); [by vm_compute|lia].
  - exists (keccak_digest 72 64 (concat data)). split; [|split; [exact (is_array_output 72 1 (concat data) 64 ltac:(lia))|done]].
    unfold Sha3.Keccak512. apply (Keccak_ok 72 64); [by vm_compute|lia].
  - exists [0x80]. by split; vm_compute.
Qed.
