(* ===== verification/Consensus.v ===== *)
(** [consensus/tilthash/consensus.go] and the rules of [core/block_validator.go]: which
    headers and uncles are valid, difficulties, gas limits and rewards.

    The chain that the engine reads is a pair of functions; [now] is the clock, and the
    proof of work is the argument [Hashimoto] (the dataset size and the cache of the
    block's epoch are its business).  A result is the error, if any. *)
From S2P Require Import Prelude GoBig CommonMath CommonTypes Params Rlp RlpDecode VmTypes StateTransition TxTypes BlockTypes.
Import Types.

Module Consensus.

Inductive error :=
| errExtraTooLong
| errLargeBlockTime
| ErrFutureBlock
| errZeroBlockTime
| errDifficulty (have want : Z)
| errGasLimitTooBig
| errGasUsed
| errGasLimit
| ErrInvalidNumber
| ErrUnknownAncestor
| errTooManyUncles
| errDuplicateUncle
| errUncleIsAncestor
| errDanglingUncle
| errNonceOutOfRange
| errInvalidDifficulty
| errInvalidMixDigest
| errInvalidPoW.

Definition blockReward : Z := 10 ^ 18.
Definition maxUncles : Z := 2.
Definition epochLength : Z := 30000.
(** The length of the table of cache sizes. *)
Definition maxEpoch : Z := 2048.

(** ** Difficulty *)

Definition calcDifficultyTilt (time parentTime parentNumber parentDiff : Z) : Z :=
  let x := time - parentTime in
  let x := Big.Div x 10 in
  let x := 1 - x in
  let x := if x <? -99 then -99 else x in
  let y := Big.Div parentDiff Params.DifficultyBoundDivisor in
  let x := y * x in
  let x := parentDiff + x in
  if x <? Params.MinimumDifficulty then Params.MinimumDifficulty else x.

Definition CalcDifficulty (time parentTime parentNumber parentDiff : Z) : Z :=
  calcDifficultyTilt time parentTime parentNumber parentDiff.

(** ** Seals *)

(** The fields of the engine that decide about seals. *)
Inductive Engine := {
  fakeMode : bool;
  fakeFull : bool;
  fakeFail : Z;
  shared : option Engine;
}.

Section engine.
Context {CR : Crypto}.
(** [hashimotoLight] with the cache and the dataset size of the block. *)
Variable Hashimoto : Z -> bytes -> Z -> bytes * bytes.
Variable GetHeader : Hash -> Z -> option Header.
Variable GetBlock : Hash -> Z -> option Block.
Variable now : Z.

Fixpoint VerifySeal (e : Engine) (h : Header) : option error :=
  if fakeMode e then
    if fakeFail e =? Big.Uint64 (Number h) then Some errInvalidPoW else None
  else
    match shared e with
    | Some e => VerifySeal e h
    | None =>
        let number := Big.Uint64 (Number h) in
        if maxEpoch <=? number / epochLength then Some errNonceOutOfRange
        else if Big.Sign (Difficulty h) <=? 0 then Some errInvalidDifficulty
        else
          let '(digest, result) := Hashimoto number (HashNoNonce h) (Nonce_Uint64 (Nonce h)) in
          if negb (bool_decide (MixDigest h = digest)) then Some errInvalidMixDigest
          else
            let target := Big.Div (2 ^ 256 - 1) (Difficulty h) in
            if Big.SetBytes result >? target then Some errInvalidPoW else None
    end.

(** ** Headers *)

Definition verifyHeader (e : Engine) (h parent : Header) (uncle seal : bool) : option error :=
  if zlen (Extra h) >? Params.MaximumExtraDataSize then Some errExtraTooLong
  else if (uncle : bool) && (Time h >? 2 ^ 256 - 1) then Some errLargeBlockTime
  else if negb uncle && (Time h >? now) then Some ErrFutureBlock
  else if Time h <=? Time parent then Some errZeroBlockTime
  else
    let expected := CalcDifficulty (Big.Uint64 (Time h)) (Big.Uint64 (Time parent)) (Number parent) (Difficulty parent) in
    if negb (expected =? Difficulty h) then Some (errDifficulty (Difficulty h) expected)
    else if GasLimit h >? 2 ^ 63 - 1 then Some errGasLimitTooBig
    else if GasUsed h >? GasLimit h then Some errGasUsed
    else
      let diff := Z.abs (GasLimit parent - GasLimit h) in
      let limit := Big.Div (GasLimit parent) Params.GasLimitBoundDivisor in
      if (limit <=? diff) || (GasLimit h <? Params.MinGasLimit) then Some errGasLimit
      else if negb (Number h - Number parent =? 1) then Some ErrInvalidNumber
      else if (seal : bool) then VerifySeal e h else None.

Definition VerifyHeader (e : Engine) (h : Header) (seal : bool) : option error :=
  if fakeFull e then None
  else
    let number := Big.Uint64 (Number h) in
    match GetHeader (Hash_ h) number with
    | Some _ => None
    | None =>
        match GetHeader (ParentHash h) (u64 (number - 1)) with
        | None => Some ErrUnknownAncestor
        | Some parent => verifyHeader e h parent false seal
        end
    end.

(** [verifyHeaderWorker]: header [index] of a batch; [None] is an index out of range. *)
Definition verifyHeaderWorker (e : Engine) (headers : list Header) (seals : list bool) (index : nat)
  : option (option error) :=
  match headers !! index, seals !! index with
  | Some h, Some seal =>
      let parent :=
        match index with
        | O => GetHeader (ParentHash h) (u64 (Big.Uint64 (Number h) - 1))
        | S i => p ← headers !! i; if bool_decide (Hash_ p = ParentHash h) then Some p else None
        end in
      Some
        match parent with
        | None => Some ErrUnknownAncestor
        | Some parent =>
            match GetHeader (Hash_ h) (Big.Uint64 (Number h)) with
            | Some _ => None
            | None => verifyHeader e h parent false seal
            end
        end
  | _, _ => None
  end.

(** ** Batches of headers *)

(** The goroutines of [VerifyHeaders], after the check for an empty batch.  Indices are
    handed to idle workers in order ([vh_in] is next), come back over the channel [done]
    in any order, and their errors leave in order ([vh_out] is next).  [errors[i]] is
    written before [i] is sent to [done], and is the result of the worker on [i]. *)
Record Verifying := {
  vh_in : nat;
  vh_busy : gset nat;
  vh_done : list nat;
  vh_checked : gset nat;
  vh_out : nat;
  vh_errorsOut : list (option error);
  vh_returned : bool;
}.

Section batch.
(** The number of headers and of workers, and what [verifyHeaderWorker] returns. *)
Variable n workers : nat.
Variable worker : nat -> option error.

(** [for checked[index] = true; checked[out]; out++]: the results that became ready. *)
Fixpoint flush (fuel : nat) (v : Verifying) : Verifying :=
  match fuel with
  | O => v
  | S fuel =>
      if bool_decide (vh_out v ∈ vh_checked v) then
        let emitted := vh_errorsOut v ++ [worker (vh_out v)] in
        if bool_decide (vh_out v = n - 1)%nat then
          {| vh_in := vh_in v; vh_busy := vh_busy v; vh_done := vh_done v; vh_checked := vh_checked v;
             vh_out := vh_out v; vh_errorsOut := emitted; vh_returned := true |}
        else
          flush fuel
            {| vh_in := vh_in v; vh_busy := vh_busy v; vh_done := vh_done v; vh_checked := vh_checked v;
               vh_out := S (vh_out v); vh_errorsOut := emitted; vh_returned := false |}
      else v
  end.

Inductive vh_step : Verifying -> Verifying -> Prop :=
| vh_send v :
    vh_returned v = false -> (vh_in v < n)%nat -> (size (vh_busy v) < workers)%nat ->
    vh_step v {| vh_in := S (vh_in v); vh_busy := {[vh_in v]} ∪ vh_busy v; vh_done := vh_done v;
                 vh_checked := vh_checked v; vh_out := vh_out v; vh_errorsOut := vh_errorsOut v; vh_returned := false |}
| vh_work v i :
    i ∈ vh_busy v -> (length (vh_done v) < workers)%nat ->
    vh_step v {| vh_in := vh_in v; vh_busy := vh_busy v ∖ {[i]}; vh_done := vh_done v ++ [i];
                 vh_checked := vh_checked v; vh_out := vh_out v; vh_errorsOut := vh_errorsOut v;
                 vh_returned := vh_returned v |}
| vh_collect v i rest :
    vh_returned v = false -> vh_done v = i :: rest ->
    vh_step v (flush n {| vh_in := vh_in v; vh_busy := vh_busy v; vh_done := rest;
                          vh_checked := {[i]} ∪ vh_checked v; vh_out := vh_out v; vh_errorsOut := vh_errorsOut v;
                          vh_returned := false |}).

Definition vh_start : Verifying :=
  {| vh_in := 0; vh_busy := ∅; vh_done := []; vh_checked := ∅; vh_out := 0; vh_errorsOut := []; vh_returned := false |}.
End batch.

(** ** Uncles *)

(** The last [n] ancestors: their headers by hash, and the hashes of their uncles. *)
Fixpoint gather (n : nat) (parent : Hash) (number : Z) (uncles : gset Hash) (ancestors : gmap Hash Header)
  : gset Hash * gmap Hash Header :=
  match n with
  | O => (uncles, ancestors)
  | S n =>
      match GetBlock parent number with
      | None => (uncles, ancestors)
      | Some b =>
          gather n (ParentHash (header b)) (u64 (number - 1))
            (list_to_set (map Hash_ (Types.uncles b)) ∪ uncles) (<[Block_Hash b := header b]> ancestors)
      end
  end.

Fixpoint check_uncles (e : Engine) (parentHash : Hash) (us : list Header) (uncles : gset Hash)
    (ancestors : gmap Hash Header) : option error :=
  match us with
  | [] => None
  | u :: us =>
      let hash := Hash_ u in
      if bool_decide (hash ∈ uncles) then Some errDuplicateUncle
      else
        let uncles := {[hash]} ∪ uncles in
        if bool_decide (is_Some (ancestors !! hash)) then Some errUncleIsAncestor
        else
          match ancestors !! ParentHash u with
          | None => Some errDanglingUncle
          | Some p =>
              if bool_decide (ParentHash u = parentHash) then Some errDanglingUncle
              else
                match verifyHeader e u p true true with
                | Some err => Some err
                | None => check_uncles e parentHash us uncles ancestors
                end
          end
  end.

Definition VerifyUncles (e : Engine) (b : Block) : option error :=
  if fakeFull e then None
  else if zlen (Types.uncles b) >? maxUncles then Some errTooManyUncles
  else
    let '(uncles, ancestors) := gather 7 (ParentHash (header b)) (u64 (NumberU64 b - 1)) ∅ ∅ in
    let ancestors := <[Block_Hash b := header b]> ancestors in
    let uncles := {[Block_Hash b]} ∪ uncles in
    check_uncles e (ParentHash (header b)) (Types.uncles b) uncles ancestors.

(** ** Making blocks *)

Definition with_Difficulty (h : Header) (d : Z) : Header :=
  {| ParentHash := ParentHash h; UncleHash := UncleHash h; Coinbase := Coinbase h; Root := Root h; TxHash := TxHash h;
     ReceiptHash := ReceiptHash h; Bloom := Bloom h; Difficulty := d; Number := Number h; GasLimit := GasLimit h;
     GasUsed := GasUsed h; Time := Time h; Extra := Extra h; MixDigest := MixDigest h; Nonce := Nonce h |}.

Definition Prepare (h : Header) : Header + error :=
  match GetHeader (ParentHash h) (u64 (Big.Uint64 (Number h) - 1)) with
  | None => inr ErrUnknownAncestor
  | Some parent =>
      inl (with_Difficulty h
             (CalcDifficulty (Big.Uint64 (Time h)) (Big.Uint64 (Time parent)) (Number parent) (Difficulty parent)))
  end.
End engine.

(** [CalcGasLimit]: the gas limit of a child of [parent]. *)
Definition CalcGasLimit (TargetGasLimit : Z) (parent : Header) : Z :=
  let contrib := GasUsed parent * 3 in
  let contrib := Big.Div contrib 2 in
  let contrib := Big.Div contrib Params.GasLimitBoundDivisor in
  let decay := Big.Div (GasLimit parent) Params.GasLimitBoundDivisor in
  let decay := decay - 1 in
  let gl := GasLimit parent - decay in
  let gl := gl + contrib in
  let gl := Math.BigMax gl Params.MinGasLimit in
  if gl <? TargetGasLimit then Math.BigMin (GasLimit parent + decay) TargetGasLimit else gl.

(** ** Rewards *)
Section rewards.
Context {S : Type} {DB : StateDB S}.

Fixpoint reward_uncles (h : Header) (us : list Header) (reward : Z) (s : S) : Z * S :=
  match us with
  | [] => (reward, s)
  | u :: us =>
      let r := Number u + 8 in
      let r := r - Number h in
      let r := r * blockReward in
      let r := Big.Div r 8 in
      let s := AddBalance (Coinbase u) r s in
      let r := Big.Div blockReward 32 in
      reward_uncles h us (reward + r) s
  end.

Definition AccumulateRewards (h : Header) (us : list Header) (s : S) : S :=
  let '(reward, s) := reward_uncles h us blockReward s in
  AddBalance (Coinbase h) reward s.
End rewards.

End Consensus.
