(* ===== verification/StateProcessor.v ===== *)
(** [core/state_processor.go] and [core/tiltvm.go]: running the transactions of a block.

    The processor works on the gas pool, the state database and the gas used so far.  The
    chain is the function [GetHeader]; the engine is [tilthash], whose author of a block is
    the coinbase. *)
From S2P Require Import Prelude GoBig CommonMath CommonTypes Params Rlp RlpDecode VmTypes StateSpec VmInterp.
From S2P Require Import BlockState.
From S2P Require Import StateTransition TxTypes BlockTypes Consensus.

(** ** tiltvm.go *)

(** The loop of [GetHashFn], which follows the parents from [h]; the bound counts them. *)
Fixpoint ancestor_hash `{Crypto} (fuel : nat) (GetHeader : Hash -> Z -> option Types.Header) (h : option Types.Header) (n : Z)
  : outcome unit Hash :=
  match h with
  | None => Done Common.zeroHash
  | Some h =>
      match fuel with
      | O => NoFuel
      | Datatypes.S fuel =>
          if Big.Uint64 (Types.Number h) =? n then Done (Types.Hash_ h)
          else ancestor_hash fuel GetHeader (GetHeader (Types.ParentHash h) (u64 (Big.Uint64 (Types.Number h) - 1))) n
      end
  end.
(** A chain has at most as many ancestors of [ref] as its number says. *)
Definition GetHashFn `{Crypto} (GetHeader : Hash -> Z -> option Types.Header) (ref : Types.Header) (n : Z) : outcome unit Hash :=
  let number := Big.Uint64 (Types.Number ref) in
  ancestor_hash (Z.to_nat number) GetHeader (GetHeader (Types.ParentHash ref) (u64 (number - 1))) n.

Definition NewTiltVMContext {S} `{StateDB S} `{Crypto} (GetHeader : Hash -> Z -> option Types.Header) (msg : Message)
    (h : Types.Header) (author : option Address) : Context S :=
  {| CanTransfer := core_CanTransfer; Transfer := core_Transfer;
     GetHash n := match GetHashFn GetHeader h n with Done x => x | _ => Common.zeroHash end;
     Origin := msg_From msg; GasPrice := msg_GasPrice msg;
     Coinbase := match author with Some a => a | None => Types.Coinbase h end;
     GasLimit := Types.GasLimit h; BlockNumber := Types.Number h; Time := Types.Time h;
     Difficulty := Types.Difficulty h |}.

(** ** state_processor.go *)

Inductive procerror :=
| procSender (e : Tx.txerror)
| procTransition (e : sterror).

Record Proc (S : Type) := {
  pr_pool : Z;
  pr_state : S;
  pr_used : Z;
}.
Arguments Build_Proc {S}. Arguments pr_pool {S}. Arguments pr_state {S}. Arguments pr_used {S}.

Section processor.
Context {S : Type} {DB : StateDB S} {BS : BlockState S} {CR : Crypto}.
Variable chainId : option Z.
Variable GetHeader : Hash -> Z -> option Types.Header.
Variable cfg : Config.
(** Recursion bound of the virtual machine. *)
Variable fuel : nat.

Abbreviation M := (SM (Proc S) procerror).

Definition set_state (s : S) (p : Proc S) : Proc S := Build_Proc (pr_pool p) s (pr_used p).

(** [tx.AsMessage]; the sender it caches is that of [tx]. *)
Definition message (tx : Transaction) : M Message := fun p =>
  match Tx.AsMessage (Tx.MakeSigner chainId) tx with
  | (Done msg, _) => (Done msg, p)
  | (Error e, _) => (Error (procSender e), p)
  | (Panic, _) => (Panic, p)
  | (NoFuel, _) => (NoFuel, p)
  end.

(** A fresh machine applies the message. *)
Definition apply_message (ctx : Context S) (msg : Message) : M Z := fun p =>
  let w := {| statedb := pr_state p; depth := 0; jumpdests := ∅; ticks := 0 |} in
  let '(r, st) := ApplyMessage ctx cfg msg fuel (pr_pool p) w in
  let p := Build_Proc (gp st) (statedb (st_world st)) (pr_used p) in
  match r with
  | Done (_, gas) => (Done gas, p)
  | Error e => (Error (procTransition e), p)
  | Panic => (Panic, p)
  | NoFuel => (NoFuel, p)
  end.

Definition intermediate_root : M Hash := fun p =>
  match bs_IntermediateRoot (pr_state p) with
  | Some (root, s) => (Done root, set_state s p)
  | None => (Panic, p)
  end.

Definition ApplyTransaction (author : option Address) (h : Types.Header) (tx : Transaction) : M (Types.Receipt * Z) :=
  msg ← message tx;
  let context := NewTiltVMContext GetHeader msg h author in
  gas ← apply_message context msg;
  _ ← modify (fun p => Build_Proc (pr_pool p) (pr_state p) (pr_used p + gas));
  root ← intermediate_root;
  usedGas ← gets pr_used;
  let contract :=
    match msg_To msg with
    | None => CreateAddress (Origin context) (Tx.AccountNonce (Tx.data tx))
    | Some _ => Common.zeroAddress
    end in
  logs ← gets (fun p => bs_GetLogs (Tx.tx_hash tx) (pr_state p));
  let receipt bloom :=
    {| Types.PostState := Common.CopyBytes root; Types.CumulativeGasUsed := usedGas; Types.rc_Bloom := bloom;
       Types.Logs := logs; Types.rc_TxHash := Tx.tx_hash tx; Types.ContractAddress := contract;
       Types.rc_GasUsed := gas |} in
  bloom ← unwrap (Types.CreateBloom [receipt (zeros Bloom.bloomLength)]);
  mret (receipt bloom, gas).

Fixpoint process_loop (b : Types.Block) (i : Z) (txs : list Transaction) : M (list Types.Receipt) :=
  match txs with
  | [] => mret []
  | tx :: txs =>
      _ ← modify (fun p => set_state (bs_StartRecord (Tx.tx_hash tx) (Types.Block_Hash b) i (pr_state p)) p);
      '(receipt, _) ← ApplyTransaction None (Types.header b) tx;
      receipts ← process_loop b (i + 1) txs;
      mret (receipt :: receipts)
  end.

(** What [Finalize] does to the state; the block it assembles is dropped. *)
Definition finalize (b : Types.Block) : M unit :=
  _ ← modify (fun p => set_state (Consensus.AccumulateRewards (Types.header b) (Types.uncles b) (pr_state p)) p);
  _ ← intermediate_root;
  mret tt.

(** [Process]: the receipts, the logs and the gas used. *)
Definition Process (b : Types.Block) (s : S) : outcome procerror (list Types.Receipt * list Log * Z) * Proc S :=
  let run : M (list Types.Receipt * list Log * Z) :=
    receipts ← process_loop b 0 (Types.transactions b);
    _ ← finalize b;
    totalUsedGas ← gets pr_used;
    mret (receipts, concat (map Types.Logs receipts), totalUsedGas) in
  run (Build_Proc (AddGas 0 (Types.GasLimit (Types.header b))) s 0).
End processor.
