(* ===== verification/ConsensusOk.v ===== *)
(** What the consensus rules guarantee: [consensus/tilthash/consensus.go] and the gas
    limit of [core/block_validator.go]. *)
From stdpp Require Import relations.
From S2P Require Import Prelude GoBig CommonMath CommonTypes Params Rlp RlpDecode VmTypes Concrete.
From S2P Require Import StateTransition TxTypes BlockTypes Consensus.
Import Types Consensus.

(** ** Batches *)
Section batch.
Context (n workers : nat) (worker : nat -> option error).
Hypothesis Hn : (0 < n)%nat.
Hypothesis Hworkers : (0 < workers)%nat.

Abbreviation results k := (map worker (seq 0 k)).

Record vh_inv (v : Verifying) : Prop := {
  vi_in : (vh_in v <= n)%nat;
  vi_parts i : (i < vh_in v)%nat <-> i ∈ vh_busy v \/ i ∈ vh_done v \/ i ∈ vh_checked v;
  vi_out : (vh_out v < n)%nat;
  vi_emitted : vh_errorsOut v = if vh_returned v then results n else results (vh_out v);
  vi_waiting : vh_returned v = false -> vh_out v ∉ vh_checked v;
}.

Lemma results_snoc k : results k ++ [worker k] = results (S k).
Proof. by rewrite seq_S, map_app. Qed.

Lemma flush_ok fuel : forall v, (n - vh_out v <= fuel)%nat -> (vh_out v < n)%nat -> vh_returned v = false ->
  vh_errorsOut v = results (vh_out v) ->
  let v' := flush n worker fuel v in
  vh_in v' = vh_in v /\ vh_busy v' = vh_busy v /\ vh_done v' = vh_done v /\ vh_checked v' = vh_checked v /\
  (vh_out v' < n)%nat /\ vh_errorsOut v' = (if vh_returned v' then results n else results (vh_out v')) /\
  (vh_returned v' = false -> vh_out v' ∉ vh_checked v').
Proof.
  induction fuel as [|fuel IH]; intros v Hf Hout Hr He; [lia|]. simpl. case_bool_decide as Hc.
  - case_bool_decide as Hl; simpl.
    + split_and!; try done. rewrite He, results_snoc. f_equal. f_equal. lia.
    + match goal with |- context [flush n worker fuel ?u] => specialize (IH u) end. simpl in IH.
      apply IH; [lia|lia|done|]. by rewrite He, results_snoc.
  - rewrite Hr. split_and!; done.
Qed.

Lemma vh_start_inv : vh_inv vh_start.
Proof. split; simpl; [lia|intros i; split; [lia|set_solver]|done|done|set_solver]. Qed.

Lemma vh_step_inv v v' : vh_inv v -> vh_step n workers worker v v' -> vh_inv v'.
Proof.
  intros Hi Hs. destruct Hs as [v Hr Hin Hbusy|v i Hbusy Hdone|v i rest Hr Hdone]; destruct Hi as [Hin' Hp Ho He Hw].
  - rewrite Hr in He. split; simpl; [lia| |done|done|auto]. intros j. specialize (Hp j).
    rewrite elem_of_union, elem_of_singleton. destruct (decide (j = vh_in v)) as [->|]; [split; [auto|lia]|].
    assert ((j < S (vh_in v))%nat <-> (j < vh_in v)%nat) as -> by lia. tauto.
  - split; simpl; try done. intros j. specialize (Hp j). rewrite elem_of_app, list_elem_of_singleton, elem_of_difference, elem_of_singleton.
    destruct (decide (j = i)) as [->|]; [|tauto]. split; [auto|]. intros _. apply Hp. by left.
  - rewrite Hr in He. edestruct (flush_ok n) as (E1 & E2 & E3 & E4 & E5 & E6 & E7);
      [| | | |split; [rewrite E1; exact Hin'| |exact E5|exact E6|exact E7]]; simpl; [lia|done|done|done|].
    rewrite E1, E2, E3, E4. simpl. intros j. specialize (Hp j). rewrite Hdone, elem_of_cons in Hp. set_solver.
Qed.

Definition vh_measure (v : Verifying) : nat := (3 * (n - vh_in v) + 2 * size (vh_busy v) + length (vh_done v))%nat.

Lemma vh_step_measure v v' : vh_inv v -> vh_step n workers worker v v' -> (vh_measure v' < vh_measure v)%nat.
Proof.
  intros Hi Hs. unfold vh_measure. destruct Hs as [v Hr Hin Hbusy|v i Hbusy Hdone|v i rest Hr Hdone]; destruct Hi as [Hin' Hp Ho He Hw]; simpl.
  - rewrite size_union, size_singleton; [lia|]. apply disjoint_singleton_l. intros Hb.
    assert (vh_in v < vh_in v)%nat; [|lia]. apply Hp. by left.
  - rewrite size_difference, size_singleton by set_solver. rewrite length_app. simpl.
    assert (size (vh_busy v) <> 0%nat); [|lia]. intros E. apply size_empty_inv in E. set_solver.
  - rewrite Hr in He. edestruct (flush_ok n) as (E1 & E2 & E3 & _); [| | | |rewrite E1, E2, E3; simpl; rewrite Hdone; simpl; lia]; simpl; [lia|done..].
Qed.

(** Without a step left, everything was emitted. *)
Lemma vh_stuck v : vh_inv v -> (forall v', ~ vh_step n workers worker v v') -> vh_errorsOut v = results n.
Proof.
  intros [Hin Hp Ho He Hw] Hstuck. destruct (vh_returned v) eqn:Hr; [done|]. exfalso.
  assert (vh_done v = []) as Hd by (destruct (vh_done v) eqn:E; [done|]; exfalso; eapply Hstuck, vh_collect; done).
  assert (vh_busy v = ∅) as Hb.
  { apply set_eq. intros i. split; [|set_solver]. intros Hi. exfalso. eapply Hstuck, (vh_work _ _ _ v i); [done|]. by rewrite Hd. }
  assert (vh_in v = n) as E.
  { destruct (decide (vh_in v < n)%nat); [|lia]. exfalso. eapply Hstuck, vh_send; [done|done|]. by rewrite Hb, size_empty. }
  apply (Hw eq_refl). destruct (proj1 (Hp (vh_out v))) as [H|[H|H]]; [lia|set_solver|rewrite Hd in H; set_solver|done].
Qed.

End batch.

(** ** Difficulty and gas limit *)

Lemma CalcDifficulty_min t pt pn pd : Params.MinimumDifficulty <= CalcDifficulty t pt pn pd.
Proof. unfold CalcDifficulty, calcDifficultyTilt. cbv zeta. destruct (Z.ltb_spec (pd + Big.Div pd Params.DifficultyBoundDivisor *
  (if 1 - Big.Div (t - pt) 10 <? -99 then -99 else 1 - Big.Div (t - pt) 10)) Params.MinimumDifficulty); lia. Qed.

(** The rule of the comment, over the integers. *)
Lemma CalcDifficulty_rule t pt pn pd :
  CalcDifficulty t pt pn pd =
  Z.max Params.MinimumDifficulty (pd + pd / 2048 * Z.max (1 - (t - pt) / 10) (-99)).
Proof.
  unfold CalcDifficulty, calcDifficultyTilt. change (Big.Div (t - pt) 10) with ((t - pt) / 10).
  change (Big.Div pd Params.DifficultyBoundDivisor) with (pd / 2048). cbv zeta.
  destruct (Z.ltb_spec (1 - (t - pt) / 10) (-99)).
  - rewrite (Z.max_r (1 - _)) by lia. destruct (Z.ltb_spec (pd + pd / 2048 * -99) Params.MinimumDifficulty); lia.
  - rewrite (Z.max_l (1 - _)) by lia.
    destruct (Z.ltb_spec (pd + pd / 2048 * (1 - (t - pt) / 10)) Params.MinimumDifficulty); lia.
Qed.

(** C37: the difficulty of a child follows the rule of the protocol: it never falls below
    the minimum; it does not rise with the time that the child took; a child later than its
    parent is at most a 2048th harder, and at most 99 2048ths easier. *)
Theorem CalcDifficulty_adjusts pt pn pd (Hpd : Params.MinimumDifficulty <= pd) :
  (forall t, CalcDifficulty t pt pn pd =
     Z.max Params.MinimumDifficulty (pd + pd / 2048 * Z.max (1 - (t - pt) / 10) (-99))) /\
  (forall t t', t <= t' -> CalcDifficulty t' pt pn pd <= CalcDifficulty t pt pn pd) /\
  (forall t, pt < t -> pd - 99 * (pd / 2048) <= CalcDifficulty t pt pn pd <= pd + pd / 2048).
Proof.
  assert (0 <= pd / 2048) by (apply Z.div_pos; unfold Params.MinimumDifficulty in *; lia).
  split_and!; [intros; apply CalcDifficulty_rule|..].
  - intros t t' Ht. rewrite !CalcDifficulty_rule. assert ((t - pt) / 10 <= (t' - pt) / 10) by (apply Z.div_le_mono; lia). nia.
  - intros t Ht. rewrite CalcDifficulty_rule. assert (0 <= (t - pt) / 10) by (apply Z.div_pos; lia). nia.
Qed.

(** What the pool and the intrinsic gas leave for the gas used by a block. *)
Definition gas_fields_ok (p : Header) : Prop :=
  Params.MinGasLimit <= GasLimit p < 2 ^ 62 /\ (GasUsed p = 0 \/ Params.TxGas / 2 <= GasUsed p <= GasLimit p).

Lemma CalcGasLimit_bounds target p : gas_fields_ok p ->
  let gl := CalcGasLimit target p in
  Z.abs (GasLimit p - gl) < GasLimit p / 1024 /\ Params.MinGasLimit <= gl <= 2 ^ 63 - 1.
Proof.
  intros [Hl Hu]. unfold CalcGasLimit, Math.BigMax, Math.BigMin.
  change (Big.Div (GasUsed p * 3) 2) with (GasUsed p * 3 / 2).
  change (Big.Div (GasUsed p * 3 / 2) Params.GasLimitBoundDivisor) with (GasUsed p * 3 / 2 / 1024).
  change (Big.Div (GasLimit p) Params.GasLimitBoundDivisor) with (GasLimit p / 1024). cbv zeta.
  set (L := GasLimit p) in *. set (U := GasUsed p) in *. change (Params.TxGas / 2) with 10500 in Hu.
  unfold Params.MinGasLimit in *. rewrite Z.div_div by lia. change (2 * 1024) with 2048.
  pose proof (Z.div_mod L 1024 ltac:(lia)). pose proof (Z.mod_pos_bound L 1024 ltac:(lia)).
  pose proof (Z.div_mod (U * 3) 2048 ltac:(lia)). pose proof (Z.mod_pos_bound (U * 3) 2048 ltac:(lia)).
  set (q := L / 1024) in *. set (c := U * 3 / 2048) in *.
  assert (forall a b, (if a <? b then b else a) = Z.max a b) as -> by (intros a b; destruct (Z.ltb_spec a b); lia).
  repeat match goal with |- context [if ?b then _ else _] => destruct b eqn:?; bool_to_prop end; lia.
Qed.

(** C36: a header made the way the miner makes one passes the verification, the seal
    apart: number and parent hash of the next block, a later time that has come, the gas
    limit of [CalcGasLimit] whatever the target, and the difficulty of [Prepare]. *)
Theorem prepared_header_valid {CR : Crypto} Hashimoto GetHeader now e h parent target
    (Hchain : GetHeader (ParentHash h) (u64 (Big.Uint64 (Number h) - 1)) = Some parent)
    (Hgas : gas_fields_ok parent) (Hnum : Number h = Number parent + 1) (Htime : Time parent < Time h <= now)
    (Hextra : zlen (Extra h) <= Params.MaximumExtraDataSize) (Hlimit : GasLimit h = CalcGasLimit target parent)
    (Hused : GasUsed h <= GasLimit h) :
  exists h', Prepare GetHeader h = inl h' /\ verifyHeader Hashimoto now e h' parent false false = None /\
    Params.MinimumDifficulty <= Difficulty h'.
Proof.
  unfold Prepare. rewrite Hchain. eexists. split; [done|]. split; [|apply CalcDifficulty_min].
  destruct (CalcGasLimit_bounds target parent Hgas) as [Hd Hr]. rewrite <- Hlimit in Hd, Hr.
  unfold verifyHeader. simpl. change (Big.Div (GasLimit parent) Params.GasLimitBoundDivisor) with (GasLimit parent / 1024).
  rewrite !Z.gtb_ltb, Z.eqb_refl. simpl.
  rewrite (proj2 (Z.ltb_ge _ _) Hextra), (proj2 (Z.ltb_ge now _)), (proj2 (Z.leb_gt _ _)) by lia.
  rewrite (proj2 (Z.ltb_ge (2 ^ 63 - 1) _)), (proj2 (Z.ltb_ge (GasLimit h) _)) by lia.
  rewrite (proj2 (Z.leb_gt (GasLimit parent / 1024) _)), (proj2 (Z.ltb_ge (GasLimit h) _)) by lia. simpl.
  replace (Number h - Number parent) with 1 by lia. done.
Qed.

(** ** Uncles *)
Section uncles.
Context {CR : Crypto} (Hashimoto : Z -> bytes -> Z -> bytes * bytes) (GetBlock : Hash -> Z -> option Block) (now : Z) (e : Engine).

(** The chain stores blocks under their hash and number. *)
Hypothesis Hchain : forall k n b, GetBlock k n = Some b -> Block_Hash b = k /\ Number (header b) = n /\ 0 <= n < 2 ^ 63.

Lemma gather_high n parent number us anc : 2 ^ 63 <= number -> gather GetBlock n parent number us anc = (us, anc).
Proof. intros Hn. destruct n as [|n]; [done|]. simpl. destruct (GetBlock parent number) eqn:E; [|done]. apply Hchain in E. lia. Qed.

Lemma gather_ok n : forall parent number us anc us' anc', 0 <= number ->
  gather GetBlock n parent number us anc = (us', anc') -> forall k p, anc' !! k = Some p ->
  anc !! k = Some p \/ k = Hash_ p /\ number - Z.of_nat n < Number p <= number /\ (Number p = number -> k = parent).
Proof.
  induction n as [|n IH]; intros parent number us anc us' anc' Hn; [intros [= <- <-]; auto|]. simpl.
  destruct (GetBlock parent number) as [b|] eqn:E; [|intros [= <- <-]; auto].
  apply Hchain in E as (<- & Hnum & Hb). intros Hg k p Hk.
  assert (forall anc1, <[Block_Hash b := header b]> anc !! k = Some p -> anc1 = anc ->
    anc !! k = Some p \/ k = Hash_ p /\ number - Z.of_nat (S n) < Number p <= number /\ (Number p = number -> k = Block_Hash b)) as Hhead.
  { intros _ [[<- <-]|[_ ?]]%lookup_insert_Some _; [right|by left]. split; [done|]. split; [lia|done]. }
  destruct (decide (number = 0)) as [->|].
  - rewrite gather_high in Hg by (change (u64 (0 - 1)) with (2 ^ 64 - 1); lia). injection Hg as <- <-. by eapply Hhead.
  - rewrite u64_small in Hg by lia. assert (0 <= number - 1) as Hn1 by lia. apply (IH _ _ _ _ _ _ Hn1 Hg) in Hk as [Hk|(Hk & Hlt & _)]; [by eapply Hhead|].
    right. split; [done|]. split; lia.
Qed.

Lemma verifyHeader_facts h p uncle seal : verifyHeader Hashimoto now e h p uncle seal = None ->
  Number h = Number p + 1 /\ Time p < Time h /\ GasUsed h <= GasLimit h <= 2 ^ 63 - 1 /\
  Params.MinimumDifficulty <= Difficulty h /\ (seal = true -> VerifySeal Hashimoto e h = None).
Proof.
  unfold verifyHeader. pose proof (CalcDifficulty_min (Big.Uint64 (Time h)) (Big.Uint64 (Time p)) (Number p) (Difficulty p)).
  repeat match goal with |- (if ?b then _ else _) = None -> _ => destruct b eqn:?; [done|] end.
  destruct (negb (Number h - Number p =? 1)) eqn:?; [done|]. bool_to_prop. intros Hs.
  split_and!; try lia. by intros ->.
Qed.

Lemma check_uncles_ok ph anc us : forall uncles, check_uncles Hashimoto now e ph us uncles anc = None ->
  NoDup (map Hash_ us) /\ Forall (fun u => Hash_ u ∉ uncles /\ anc !! Hash_ u = None /\ ParentHash u <> ph /\
    exists p, anc !! ParentHash u = Some p /\ verifyHeader Hashimoto now e u p true true = None) us.
Proof.
  induction us as [|u us IH]; intros uncles; simpl; [by split; constructor|].
  case_bool_decide as Hu; [done|]. case_bool_decide as Ha; [done|].
  destruct (anc !! ParentHash u) as [p|] eqn:Hp; [|done]. case_bool_decide as Hph; [done|].
  destruct (verifyHeader _ _ _ _ _ _ _) eqn:Hv; [done|]. intros [Hnd Hall]%IH. split.
  - constructor; [|done]. intros Hin. apply list_elem_of_fmap in Hin as (x & Hx & Hin). rewrite Forall_forall in Hall.
    specialize (Hall x Hin) as (Hx' & _). rewrite <- Hx in Hx'. set_solver.
  - constructor; [split_and!; eauto; by apply eq_None_not_Some|]. eapply Forall_impl; [done|]. intros x (Hx & ?). set_solver.
Qed.

End uncles.

(** ** Instances *)

Lemma CalcDifficulty_adjusts_witness : CalcDifficulty 1020 1000 7 300000 = 299854 /\
  forall t, 1000 < t -> 300000 - 99 * (300000 / 2048) <= CalcDifficulty t 1000 7 300000 <= 300000 + 300000 / 2048.
Proof. split; [reflexivity|]. apply (CalcDifficulty_adjusts 1000 7 300000). by vm_compute. Defined.

Definition test_header (parent : Hash) (number difficulty t : Z) : Header :=
  {| ParentHash := parent; UncleHash := Common.zeroHash; Coinbase := miner; Root := Common.zeroHash;
     TxHash := Common.zeroHash; ReceiptHash := Common.zeroHash; Bloom := zeros 256; Difficulty := difficulty;
     Number := number; GasLimit := 5000; GasUsed := 0; Time := t; Extra := []; MixDigest := Common.zeroHash;
     Nonce := zeros 8 |}.
Definition block_of (h : Header) (us : list Header) : Block := {| header := h; Types.uncles := us; transactions := [] |}.
Definition test_genesis : Header := test_header Common.zeroHash 0 300000 100.
Definition test_parent : Header := Eval vm_compute in test_header (Hash_ test_genesis) 1 300146 105.
Definition test_uncle : Header := Eval vm_compute in test_header (Hash_ test_genesis) 1 300146 106.
Definition test_block : Block := Eval vm_compute in block_of (test_header (Hash_ test_parent) 2 300292 110) [test_uncle].
Definition test_engine : Engine := {| fakeMode := true; fakeFull := false; fakeFail := 9; shared := None |}.
Definition test_chain (k : Hash) (n : Z) : option Block :=
  if bool_decide (k = Hash_ test_parent /\ n = 1) then Some (block_of test_parent [])
  else if bool_decide (k = Hash_ test_genesis /\ n = 0) then Some (block_of test_genesis []) else None.

Lemma prepared_header_valid_witness : exists h',
  Prepare (fun k n => header <$> test_chain k n) test_uncle = inl h' /\
  verifyHeader (fun _ _ _ => ([], [])) 1000 test_engine h' test_genesis false false = None /\
  Params.MinimumDifficulty <= Difficulty h'.
Proof.
  apply (prepared_header_valid (fun _ _ _ => ([], [])) (fun k n => header <$> test_chain k n) 1000 test_engine test_uncle
    test_genesis 5000); try by vm_compute.
  - split; [by vm_compute|by left].
Defined.


