(* ===== verification/ChainDb.v ===== *)
(** [core/database_util.go]: how the chain is laid out in the key-value database.

    The database is a finite map, as [tiltdb.MemDatabase]; writing to it does not
    fail.  A missing entry and an empty one read the same, as the source drops the
    error of [Get].  Batches are written in their order. *)
From S2P Require Import Prelude GoBig CommonMath CommonTypes Rlp RlpDecode VmTypes StateTransition TxTypes BlockTypes.
Import Types.

Abbreviation Db := (gmap (list Z) (list Z)).

Definition db_get (db : Db) (k : bytes) : bytes := default [] (db !! k).

(** [rlp.Decode] from a reader of the bytes: what follows the value is ignored. *)
Definition rlp_Decode (t : Dec.gotype) (b : bytes) : option Enc.value :=
  match Dec.decode (S (length b)) t (Dec.NewStream b 0) with
  | (Done v, _) => Some v
  | _ => None
  end.

(** ** Keys *)

(** ASCII texts of the source. *)
Definition headHeaderKey : bytes := [76; 97; 115; 116; 72; 101; 97; 100; 101; 114].
Definition headBlockKey : bytes := [76; 97; 115; 116; 66; 108; 111; 99; 107].
Definition headFastKey : bytes := [76; 97; 115; 116; 70; 97; 115; 116].
Definition headerPrefix : bytes := [104].
Definition tdSuffix : bytes := [116].
Definition numSuffix : bytes := [110].
Definition blockHashPrefix : bytes := [72].
Definition bodyPrefix : bytes := [98].
Definition blockReceiptsPrefix : bytes := [114].
Definition txMetaSuffix : bytes := [1].
Definition receiptsPrefix : bytes := [114; 101; 99; 101; 105; 112; 116; 115; 45].
Definition mipmapPre : bytes := [109; 105; 112; 109; 97; 112; 45; 108; 111; 103; 45; 98; 108; 111; 111; 109; 45].
Definition oldBlockPrefix : bytes := [98; 108; 111; 99; 107; 45].
Definition oldHeaderSuffix : bytes := [45; 104; 101; 97; 100; 101; 114].
Definition oldTdSuffix : bytes := [45; 116; 100].
Definition oldBodySuffix : bytes := [45; 98; 111; 100; 121].
Definition oldBlockNumPrefix : bytes := [98; 108; 111; 99; 107; 45; 110; 117; 109; 45].
Definition oldBlockReceiptsPrefix : bytes :=
  [114; 101; 99; 101; 105; 112; 116; 115; 45; 98; 108; 111; 99; 107; 45].
Definition MIPMapLevels : list Z := [1000000; 500000; 100000; 50000; 1000].

Definition encodeBlockNumber (number : Z) : bytes := Big.be_fixed 8 number.

Definition numKey (number : Z) : bytes := headerPrefix ++ encodeBlockNumber number ++ numSuffix.
Definition headerKey (hash : Hash) (number : Z) : bytes := headerPrefix ++ encodeBlockNumber number ++ hash.
Definition tdKey (hash : Hash) (number : Z) : bytes := headerPrefix ++ encodeBlockNumber number ++ hash ++ tdSuffix.
Definition hashKey (hash : Hash) : bytes := blockHashPrefix ++ hash.
Definition bodyKey (hash : Hash) (number : Z) : bytes := bodyPrefix ++ encodeBlockNumber number ++ hash.
Definition blockReceiptsKey (hash : Hash) (number : Z) : bytes :=
  blockReceiptsPrefix ++ encodeBlockNumber number ++ hash.
(** The keys of the old layout. *)
Definition oldNumKey (number : Z) : bytes := oldBlockNumPrefix ++ Big.Bytes (i64 number).
Definition oldHeaderKey (hash : Hash) : bytes := oldBlockPrefix ++ hash ++ oldHeaderSuffix.
Definition oldTdKey (hash : Hash) : bytes := oldBlockPrefix ++ hash ++ oldTdSuffix.
Definition oldBodyKey (hash : Hash) : bytes := oldBlockPrefix ++ hash ++ oldBodySuffix.
Definition oldBlockReceiptsKey (hash : Hash) : bytes := oldBlockReceiptsPrefix ++ hash.

(** The entry under a key, or under the key of the old layout. *)
Definition get_or (db : Db) (k old : bytes) : bytes :=
  let data := db_get db k in if zlen data =? 0 then db_get db old else data.

(** ** Reading *)

Definition hash_of (data : bytes) : Hash :=
  if zlen data =? 0 then Common.zeroHash else Common.BytesToHash data.

Definition GetCanonicalHash (db : Db) (number : Z) : Hash := hash_of (get_or db (numKey number) (oldNumKey number)).

Definition missingNumber : Z := 0xffffffffffffffff.

(** [None] is [log.Crit], which ends the process. *)
Definition GetBlockNumber (db : Db) (hash : Hash) : option Z :=
  let data := db_get db (hashKey hash) in
  if negb (zlen data =? 8) then
    let data := db_get db (oldHeaderKey hash) in
    if zlen data =? 0 then Some missingNumber
    else
      h ← rlp_Decode header_type data ≫= header_of;
      Some (Big.Uint64 (Number h))
  else Some (Big.SetBytes data).

Definition GetHeadHeaderHash (db : Db) : Hash := hash_of (db_get db headHeaderKey).
Definition GetHeadBlockHash (db : Db) : Hash := hash_of (db_get db headBlockKey).
Definition GetHeadFastBlockHash (db : Db) : Hash := hash_of (db_get db headFastKey).

Definition GetHeaderRLP (db : Db) (hash : Hash) (number : Z) : bytes :=
  get_or db (headerKey hash number) (oldHeaderKey hash).
Definition GetHeader (db : Db) (hash : Hash) (number : Z) : option Header :=
  let data := GetHeaderRLP db hash number in
  if zlen data =? 0 then None else rlp_Decode header_type data ≫= header_of.

Definition GetTd (db : Db) (hash : Hash) (number : Z) : option Z :=
  let data := get_or db (tdKey hash number) (oldTdKey hash) in
  if zlen data =? 0 then None
  else match rlp_Decode Dec.TyBigInt data with Some (Enc.VBigInt (Some td)) => Some td | _ => None end.

(** A body: the transactions and the uncles. *)
Definition body_value (b : Body) : Enc.value :=
  Enc.VList [Enc.VList (map (fun tx => Tx.txdata_value (Tx.data tx)) (body_Transactions b));
             Enc.VList (map header_value (body_Uncles b))].
Definition body_type : Dec.gotype := Dec.TyStruct [Dec.TySlice Tx.txdata_type; Dec.TySlice header_type] None.
Definition body_of (v : Enc.value) : option Body :=
  match v with
  | Enc.VList [Enc.VList txs; Enc.VList us] =>
      txs ← mapM Tx.of_value txs;
      us ← mapM header_of us;
      Some {| body_Transactions := map Tx.fresh txs; body_Uncles := us |}
  | _ => None
  end.

Definition GetBodyRLP (db : Db) (hash : Hash) (number : Z) : bytes := get_or db (bodyKey hash number) (oldBodyKey hash).
Definition GetBody (db : Db) (hash : Hash) (number : Z) : option Body :=
  let data := GetBodyRLP db hash number in
  if zlen data =? 0 then None else rlp_Decode body_type data ≫= body_of.

Definition GetBlock (db : Db) (hash : Hash) (number : Z) : option Block :=
  h ← GetHeader db hash number;
  body ← GetBody db hash number;
  Some (WithBody (NewBlockWithHeader h) (body_Transactions body) (body_Uncles body)).

(** Receipts in their storage form. *)
Definition storage_log_type : Dec.gotype :=
  Dec.TyStruct
    [Dec.TyByteArray 20; Dec.TySlice (Dec.TyByteArray 32); Dec.TyBytes; Dec.TyUint 64; Dec.TyByteArray 32; Dec.TyUint 64;
     Dec.TyByteArray 32; Dec.TyUint 64] None.
Definition storage_receipt_type : Dec.gotype :=
  Dec.TyStruct
    [Dec.TyBytes; Dec.TyBigInt; Dec.TyByteArray 256; Dec.TyByteArray 32; Dec.TyByteArray 20; Dec.TySlice storage_log_type;
     Dec.TyBigInt] None.
Definition bytes_of (v : Enc.value) : option bytes := match v with Enc.VBytes b => Some b | _ => None end.
Definition storage_log_of (v : Enc.value) : option Log :=
  match v with
  | Enc.VList [Enc.VBytes a; Enc.VList topics; Enc.VBytes data; Enc.VUint n; Enc.VBytes th; Enc.VUint ti; Enc.VBytes bh;
               Enc.VUint i] =>
      topics ← mapM bytes_of topics;
      Some {| log_Address := a; log_Topics := topics; log_Data := data; log_BlockNumber := n; log_TxHash := th;
              log_TxIndex := ti; log_BlockHash := bh; log_Index := i; log_Removed := false |}
  | _ => None
  end.
Definition storage_receipt_of (v : Enc.value) : option Receipt :=
  match v with
  | Enc.VList [Enc.VBytes root; Enc.VBigInt (Some cumulative); Enc.VBytes bloom; Enc.VBytes th; Enc.VBytes contract;
               Enc.VList logs; Enc.VBigInt (Some gas)] =>
      logs ← mapM storage_log_of logs;
      Some {| PostState := root; CumulativeGasUsed := cumulative; rc_Bloom := bloom; Logs := logs; rc_TxHash := th;
              ContractAddress := contract; rc_GasUsed := gas |}
  | _ => None
  end.

(** nil is the empty list. *)
Definition GetBlockReceipts (db : Db) (hash : Hash) (number : Z) : list Receipt :=
  let data := get_or db (blockReceiptsKey hash number) (oldBlockReceiptsKey hash) in
  if zlen data =? 0 then []
  else
    match Dec.DecodeBytes (Dec.TySlice storage_receipt_type) data with
    | Done (Enc.VList rs) => default [] (mapM storage_receipt_of rs)
    | _ => []
    end.

(** The transaction, the hash and the number of its block, and its index; the zero values
    when anything is missing. *)
Definition meta_type : Dec.gotype := Dec.TyStruct [Dec.TyByteArray 32; Dec.TyUint 64; Dec.TyUint 64] None.
Definition GetTransaction (db : Db) (hash : Hash) : option (Transaction * Hash * Z * Z) :=
  let data := db_get db hash in
  if zlen data =? 0 then None
  else
    match Dec.DecodeBytes Tx.txdata_type data with
    | Done v =>
        d ← Tx.of_value v;
        let data := db_get db (hash ++ txMetaSuffix) in
        if zlen data =? 0 then None
        else
          match Dec.DecodeBytes meta_type data with
          | Done (Enc.VList [Enc.VBytes bh; Enc.VUint n; Enc.VUint i]) => Some (Tx.fresh d, bh, n, i)
          | _ => None
          end
    | _ => None
    end.

(** ** Writing *)

Definition WriteCanonicalHash (hash : Hash) (number : Z) (db : Db) : Db := <[numKey number := hash]> db.
Definition WriteHeadHeaderHash (hash : Hash) (db : Db) : Db := <[headHeaderKey := hash]> db.
Definition WriteHeadBlockHash (hash : Hash) (db : Db) : Db := <[headBlockKey := hash]> db.
Definition WriteHeadFastBlockHash (hash : Hash) (db : Db) : Db := <[headFastKey := hash]> db.

Section writing.
Context `{Crypto}.

(** The error is that of the encoder. *)
Definition WriteHeader (h : Header) (db : Db) : outcome rlperr Db :=
  data ← Enc.EncodeToBytes (header_value h);
  let hash := Hash_ h in
  let num := Big.Uint64 (Number h) in
  Done (<[headerKey hash num := data]> (<[hashKey hash := encodeBlockNumber num]> db)).

Definition WriteTd (hash : Hash) (number td : Z) (db : Db) : outcome rlperr Db :=
  data ← Enc.EncodeToBytes (Enc.VBigInt (Some td));
  Done (<[tdKey hash number := data]> db).

Definition WriteBodyRLP (hash : Hash) (number : Z) (rlp : bytes) (db : Db) : Db := <[bodyKey hash number := rlp]> db.
Definition WriteBody (hash : Hash) (number : Z) (body : Body) (db : Db) : outcome rlperr Db :=
  data ← Enc.EncodeToBytes (body_value body);
  Done (WriteBodyRLP hash number data db).

Definition WriteBlock (b : Block) (db : Db) : outcome rlperr Db :=
  db ← WriteBody (Block_Hash b) (NumberU64 b) (Block_Body b) db;
  WriteHeader (header b) db.

Definition WriteBlockReceipts (hash : Hash) (number : Z) (receipts : list Receipt) (db : Db) : outcome rlperr Db :=
  data ← Enc.EncodeToBytes (Enc.VList (map storage_receipt_value receipts));
  Done (<[blockReceiptsKey hash number := data]> db).

(** The transaction and its position; nothing is written when an encoding fails. *)
Definition meta_value (b : Block) (i : Z) : Enc.value :=
  Enc.VList [Enc.VBytes (Block_Hash b); Enc.VUint (NumberU64 b); Enc.VUint i].
Fixpoint transaction_puts (b : Block) (i : Z) (txs : list Transaction) : outcome rlperr (list (bytes * bytes)) :=
  match txs with
  | [] => Done []
  | tx :: txs =>
      data ← Enc.EncodeToBytes (Tx.txdata_value (Tx.data tx));
      meta ← Enc.EncodeToBytes (meta_value b i);
      rest ← transaction_puts b (i + 1) txs;
      Done ((Tx.tx_hash tx, data) :: (Tx.tx_hash tx ++ txMetaSuffix, meta) :: rest)
  end.
Definition batch_Write (puts : list (bytes * bytes)) (db : Db) : Db :=
  fold_left (fun db p => <[p.1 := p.2]> db) puts db.
Definition WriteTransactions (b : Block) (db : Db) : outcome rlperr Db :=
  puts ← transaction_puts b 0 (transactions b);
  Done (batch_Write puts db).

Definition receiptKey (hash : Hash) : bytes := receiptsPrefix ++ hash.
Definition WriteReceipt (r : Receipt) (db : Db) : outcome rlperr Db :=
  data ← Enc.EncodeToBytes (storage_receipt_value r);
  Done (<[receiptKey (rc_TxHash r) := data]> db).
Fixpoint WriteReceipts_puts (rs : list Receipt) : outcome rlperr (list (bytes * bytes)) :=
  match rs with
  | [] => Done []
  | r :: rs =>
      data ← Enc.EncodeToBytes (storage_receipt_value r);
      rest ← WriteReceipts_puts rs;
      Done ((receiptKey (rc_TxHash r), data) :: rest)
  end.
Definition WriteReceipts (rs : list Receipt) (db : Db) : outcome rlperr Db :=
  puts ← WriteReceipts_puts rs; Done (batch_Write puts db).

(** ** Deleting *)

Definition DeleteCanonicalHash (number : Z) (db : Db) : Db := delete (numKey number) db.
Definition DeleteHeader (hash : Hash) (number : Z) (db : Db) : Db :=
  delete (headerKey hash number) (delete (hashKey hash) db).
Definition DeleteBody (hash : Hash) (number : Z) (db : Db) : Db := delete (bodyKey hash number) db.
Definition DeleteTd (hash : Hash) (number : Z) (db : Db) : Db := delete (tdKey hash number) db.
Definition DeleteBlockReceipts (hash : Hash) (number : Z) (db : Db) : Db := delete (blockReceiptsKey hash number) db.
Definition DeleteBlock (hash : Hash) (number : Z) (db : Db) : Db :=
  DeleteTd hash number (DeleteBody hash number (DeleteHeader hash number (DeleteBlockReceipts hash number db))).
Definition DeleteTransaction (hash : Hash) (db : Db) : Db := delete (hash ++ txMetaSuffix) (delete hash db).
Definition DeleteReceipt (hash : Hash) (db : Db) : Db := delete (receiptKey hash) db.

(** ** Blooms over ranges of blocks *)

Definition mipmapKey (num level : Z) : bytes :=
  mipmapPre ++ Big.be_fixed 8 level ++ Big.Bytes (num / level * level).

(** [None] is the panic of [BytesToBloom]. *)
Definition level_bloom (db : Db) (number level : Z) (receipts : list Receipt) : option (bytes * bytes) :=
  let key := mipmapKey number level in
  bloom ← Bloom.BytesToBloom (db_get db key);
  bloom ← foldl (fun b l => b ≫= fun b => Bloom.Add b (Common.Address_Big (log_Address l))) (Some bloom)
            (concat (map Logs receipts));
  Some (key, bloom).
Definition WriteMipmapBloom (number : Z) (receipts : list Receipt) (db : Db) : option Db :=
  puts ← mapM (fun level => level_bloom db number level receipts) MIPMapLevels;
  Some (batch_Write puts db).
Definition GetMipmapBloom (db : Db) (number level : Z) : option bytes :=
  Bloom.BytesToBloom (db_get db (mipmapKey number level)).

(** ** Preimages *)

Definition preimagePrefix : bytes := [115; 101; 99; 117; 114; 101; 45; 107; 101; 121; 45].
Definition WritePreimages (preimages : list (Hash * bytes)) (db : Db) : Db :=
  batch_Write
    (omap (fun '(hash, preimage) =>
        match db !! (preimagePrefix ++ hash) with
        | None => Some (preimagePrefix ++ hash, preimage)
        | Some _ => None
        end) preimages)
    db.

(** ** Ancestors *)

(** Each loop steps to parents; [None] is nil, and the bound counts the steps. *)
Definition parent_of (db : Db) (a : Header) : option Header :=
  GetHeader db (ParentHash a) (u64 (Big.Uint64 (Number a) - 1)).
Fixpoint rewind (fuel : nat) (db : Db) (a : Header) (bn : Z) : outcome unit (option Header) :=
  match fuel with
  | O => NoFuel
  | S fuel =>
      if Big.Uint64 (Number a) >? bn then
        match parent_of db a with
        | None => Done None
        | Some a => rewind fuel db a bn
        end
      else Done (Some a)
  end.
Fixpoint meet (fuel : nat) (db : Db) (a b : Header) : outcome unit (option Header) :=
  match fuel with
  | O => NoFuel
  | S fuel =>
      if bool_decide (Hash_ a = Hash_ b) then Done (Some a)
      else
        match parent_of db a, parent_of db b with
        | Some a, Some b => meet fuel db a b
        | _, _ => Done None
        end
  end.
Definition FindCommonAncestor (fuel : nat) (db : Db) (a b : Header) : outcome unit (option Header) :=
  a ← rewind fuel db a (Big.Uint64 (Number b));
  match a with
  | None => Done None
  | Some a =>
      b ← rewind fuel db b (Big.Uint64 (Number a));
      match b with
      | None => Done None
      | Some b => meet fuel db a b
      end
  end.
End writing.
