(* ===== verification/ChainDbOk.v ===== *)
(** Log bloom filters, and reading back what [database_util.go] wrote.

    The keys of the layout are told apart by their first byte and their length, so a
    write changes only what is read under its own key. *)
From S2P Require Import Prelude GoBig CommonMath CommonTypes Rlp RlpDecode VmTypes StateTransition TxTypes BlockTypes ChainDb.
From S2P Require Import RlpDecodeOk RlpDecodeTheorems.
Import Types.

(** Log bloom filters have no false negatives: [core/types/bloom9.go], the blooms over
    ranges of blocks of [core/database_util.go]. *)

(** ** Bits *)

(** The bits of [c] are set in [a]. *)
Definition covers (a c : Z) : Prop := Z.land a c = c.

Lemma covers_iff a c : covers a c <-> forall n, 0 <= n -> Z.testbit c n = true -> Z.testbit a n = true.
Proof.
  unfold covers. split.
  - intros H n Hn Hc. rewrite <- H, Z.land_spec in Hc. by apply andb_true_iff in Hc as [? _].
  - intros H. apply Z.bits_inj'. intros n Hn. rewrite Z.land_spec. destruct (Z.testbit c n) eqn:E; [by rewrite H|by rewrite andb_false_r].
Qed.
Lemma covers_refl a : covers a a.
Proof. unfold covers. apply Z.land_diag. Qed.
Lemma covers_trans a b c : covers a b -> covers b c -> covers a c.
Proof. rewrite !covers_iff. auto. Qed.
Lemma covers_lor a b c : covers a c \/ covers b c -> covers (Z.lor a b) c.
Proof. rewrite !covers_iff. intros H n Hn Hc. rewrite Z.lor_spec. apply orb_true_iff. destruct H; auto. Qed.
Lemma covers_lor_l a b : covers (Z.lor a b) a.
Proof. apply covers_lor. left. apply covers_refl. Qed.
Lemma covers_lor_r a b : covers (Z.lor a b) b.
Proof. apply covers_lor. right. apply covers_refl. Qed.
#[local] Hint Resolve covers_refl covers_lor_l covers_lor_r : core.

Lemma lor_range a b n : 0 <= n -> 0 <= a < 2 ^ n -> 0 <= b < 2 ^ n -> 0 <= Z.lor a b < 2 ^ n.
Proof.
  intros Hn Ha Hb. destruct (decide (a = 0)) as [->|]; [by rewrite Z.lor_0_l|].
  destruct (decide (b = 0)) as [->|]; [by rewrite Z.lor_0_r|]. assert (0 <= Z.lor a b) as H by (apply Z.lor_nonneg; lia).
  split; [done|]. destruct (decide (Z.lor a b = 0)); [lia|]. apply Z.log2_lt_pow2; [lia|]. rewrite Z.log2_lor by lia.
  apply Z.max_lub_lt; apply Z.log2_lt_pow2; lia.
Qed.

(** ** bloom9.go *)
Section bloom.
Context {CR : Crypto}.

Definition bloom_range (v : Z) : Prop := 0 <= v < 2 ^ 2048.

Lemma bloom_bit_range h i : bloom_range (Bloom.bloom_bit h i).
Proof.
  unfold bloom_range, Bloom.bloom_bit. set (k := Z.land _ 2047).
  assert (0 <= k < 2048) as Hk.
  { subst k. change 2047 with (Z.ones 11). rewrite Z.land_ones by lia. apply Z.mod_pos_bound. lia. }
  rewrite Z.shiftl_1_l. split; [apply Z.pow_nonneg; lia|]. apply Z.pow_lt_mono_r; lia.
Qed.

Lemma lor_bloom a b : bloom_range a -> bloom_range b -> bloom_range (Z.lor a b).
Proof. by apply lor_range. Qed.

(** A fold that only adds bits. *)
Lemma fold_grows {A} (f : Z -> A -> Z) l r :
  (forall r x, covers (f r x) r) -> covers (fold_left f l r) r.
Proof.
  intros Hf. revert r. induction l as [|x l IH]; intros r; [apply covers_refl|]. simpl. eapply covers_trans; [apply IH|apply Hf].
Qed.
Lemma fold_covers {A} (f : Z -> A -> Z) l r x c :
  (forall r x, covers (f r x) r) -> (forall r, covers (f r x) c) -> x ∈ l -> covers (fold_left f l r) c.
Proof.
  intros Hf Hx Hin. revert r. induction l as [|y l IH]; intros r; [set_solver|]. simpl.
  apply elem_of_cons in Hin as [->|Hin]; [|by apply IH]. eapply covers_trans; [by apply fold_grows|apply Hx].
Qed.
Lemma fold_range {A} (f : Z -> A -> Z) l r :
  (forall r x, bloom_range r -> bloom_range (f r x)) -> bloom_range r -> bloom_range (fold_left f l r).
Proof. intros Hf. revert r. induction l as [|x l IH]; intros r Hr; [done|]. simpl. auto. Qed.

Lemma bloom9_range b : bloom_range (Bloom.bloom9 b).
Proof. unfold Bloom.bloom9. apply fold_range; [intros; apply lor_bloom; [done|apply bloom_bit_range]|done]. Qed.

Lemma log_fold_grows r l : covers (fold_left (fun bin t => Z.lor bin (Bloom.bloom9 t)) (log_Topics l)
    (Z.lor r (Bloom.bloom9 (log_Address l)))) r.
Proof. eapply covers_trans; [apply fold_grows; auto|auto]. Qed.

Lemma LogsBloom_range logs : bloom_range (Bloom.LogsBloom logs).
Proof.
  unfold Bloom.LogsBloom. apply fold_range; [|done]. intros r l Hr.
  apply fold_range; [intros r' t Hr'|]; apply lor_bloom; auto using bloom9_range.
Qed.

Lemma LogsBloom_covers logs l d : l ∈ logs -> d = log_Address l \/ d ∈ log_Topics l ->
  covers (Bloom.LogsBloom logs) (Bloom.bloom9 d).
Proof.
  intros Hl Hd. unfold Bloom.LogsBloom. eapply fold_covers; [apply log_fold_grows| |exact Hl]. intros r. simpl.
  destruct Hd as [->|Hd]; [eapply covers_trans; [apply fold_grows; auto|auto]|].
  eapply fold_covers; [auto|auto|exact Hd].
Qed.

(** The bytes of a filter and its value. *)
Lemma BytesToBloom_ok v : bloom_range v ->
  exists b, Bloom.BytesToBloom (Big.Bytes v) = Some b /\ Common.is_array 256 b /\ Bloom.Big_ b = v.
Proof.
  intros [H0 Hv]. unfold Bloom.BytesToBloom, Bloom.SetBytes, Bloom.bloomLength.
  replace (2 ^ 2048) with (256 ^ 256) in Hv by (symmetry; apply (Z.pow_mul_r 2 8 256); lia).
  pose proof (Big.zlen_Bytes_le v 256 ltac:(lia) ltac:(by rewrite Z.abs_eq)) as Hl.
  rewrite (proj2 (Z.ltb_ge _ _)) by lia. eexists. split; [done|].
  pose proof (Common.pad_into_zeros 256 (Big.Bytes v) (Big.is_bytes_Bytes v)) as E. cbv zeta in E.
  change (Z.of_nat 256) with 256 in E. rewrite Z.gtb_ltb, (proj2 (Z.ltb_ge _ _)) in E by lia. rewrite E. split.
  - apply (Common.is_array_be_fixed 256).
  - unfold Bloom.Big_. rewrite Big.SetBytes_be_fixed, Big.SetBytes_Bytes, Z.abs_eq by done. by apply Z.mod_small.
Qed.

(** The bloom of a block's receipts. *)
Lemma CreateBloom_ok rs : exists b, CreateBloom rs = Some b /\ Common.is_array 256 b /\
  forall r l d, r ∈ rs -> l ∈ Logs r -> d = log_Address l \/ d ∈ log_Topics l -> Bloom.BloomLookup b d = true.
Proof.
  unfold CreateBloom. set (v := fold_left _ rs 0).
  assert (bloom_range v) as Hv.
  { apply fold_range; [|done]. intros r x Hr. apply lor_bloom; [done|apply LogsBloom_range]. }
  destruct (BytesToBloom_ok v Hv) as (b & -> & Hb & HB). exists b. split_and!; [done..|].
  intros r l d Hr Hl Hd. unfold Bloom.BloomLookup. rewrite HB. apply Z.eqb_eq. change (covers v (Bloom.bloom9 d)).
  eapply fold_covers; [auto| |exact Hr]. intros v'. simpl. apply covers_lor. right. by eapply LogsBloom_covers.
Qed.
End bloom.

(** ** Decoding *)

Lemma rlp_Decode_enc t v : strict t -> typed t v -> zlen (Spec.enc v) < 2 ^ 62 ->
  Enc.EncodeToBytes v = Done (Spec.enc v) /\ rlp_Decode t (Spec.enc v) = Some v.
Proof.
  intros Hst Hv Hlen. destruct (DecodeBytes_enc t v Hst Hv Hlen) as [HE HD]. split; [done|].
  unfold rlp_Decode. unfold Dec.DecodeBytes in HD.
  assert (Dec.NewStream (Spec.enc v) (zlen (Spec.enc v)) = Dec.NewStream (Spec.enc v) 0) as E.
  { unfold Dec.NewStream, Dec.Reset. by destruct (zlen (Spec.enc v) >? 0). }
  rewrite <- E. destruct (Dec.decode _ _ _) as [[a|e| |] s]; try discriminate HD.
  destruct (zlen (Dec.input s) >? 0); [discriminate HD|]. by injection HD as ->.
Qed.

Definition header_ok (h : Header) : Prop :=
  typed header_type (header_value h) /\ zlen (Spec.enc (header_value h)) < 2 ^ 62.

Lemma header_strict : strict header_type.
Proof. by repeat split. Qed.
Lemma header_of_value h : header_of (header_value h) = Some h.
Proof. by destruct h. Qed.

Lemma header_ok_fields h : header_ok h ->
  Common.is_array 32 (ParentHash h) /\ 0 <= Number h /\ 0 <= Difficulty h /\ 0 <= GasLimit h /\ 0 <= GasUsed h /\ 0 <= Time h.
Proof.
  intros [(l & [= <-] & Hf) _]. simpl in Hf.
  repeat match goal with H : (exists _, _) /\ _ |- _ => destruct H as [(? & [= <-] & ?) H] end.
  unfold Common.is_array, zlen. destruct_and?. split_and!; try done; lia.
Qed.

(** ** Keys *)

Definition shape (k : bytes) : option Z * Z := (head k, zlen k).
Lemma shape_ne k k' : shape k <> shape k' -> k <> k'.
Proof. by intros H ->. Qed.

Lemma shape_zlen k p : shape k = p -> zlen k = p.2.
Proof. by intros <-. Qed.

Lemma db_get_insert db k v k' : db_get (<[k := v]> db) k' = if decide (k = k') then v else db_get db k'.
Proof. unfold db_get. case_decide as E; [subst; by rewrite lookup_insert_eq|by rewrite lookup_insert_ne]. Qed.
Lemma db_get_delete db k k' : db_get (delete k db) k' = if decide (k = k') then [] else db_get db k'.
Proof. unfold db_get. case_decide as E; [subst; by rewrite lookup_delete_eq|by rewrite lookup_delete_ne]. Qed.

Lemma zlen_number n : zlen (encodeBlockNumber n) = 8.
Proof. unfold zlen, encodeBlockNumber. by rewrite Big.length_be_fixed. Qed.

Definition is_hash (h : Hash) : Prop := zlen h = 32.

Section shapes.
Context (h : Hash) (Hh : is_hash h).
Ltac shape_tac := unfold shape; cbn [head]; f_equal; rewrite ?zlen_app, ?zlen_number, ?Hh; done.

Lemma shape_headerKey n : shape (headerKey h n) = (Some 104, 41).
Proof. unfold headerKey. shape_tac. Qed.
Lemma shape_tdKey n : shape (tdKey h n) = (Some 104, 42).
Proof. unfold tdKey. shape_tac. Qed.
Lemma shape_hashKey : shape (hashKey h) = (Some 72, 33).
Proof. unfold hashKey. shape_tac. Qed.
Lemma shape_bodyKey n : shape (bodyKey h n) = (Some 98, 41).
Proof. unfold bodyKey. shape_tac. Qed.
Lemma shape_oldHeaderKey : shape (oldHeaderKey h) = (Some 98, 45).
Proof. unfold oldHeaderKey. shape_tac. Qed.
Lemma shape_oldTdKey : shape (oldTdKey h) = (Some 98, 41).
Proof. unfold oldTdKey. shape_tac. Qed.
Lemma shape_oldBodyKey : shape (oldBodyKey h) = (Some 98, 43).
Proof. unfold oldBodyKey. shape_tac. Qed.
End shapes.
Lemma shape_numKey n : shape (numKey n) = (Some 104, 10).
Proof. reflexivity. Qed.
Lemma head_oldNumKey n : head (oldNumKey n) = Some 98.
Proof. done. Qed.

Lemma be_fixed_8_inj n n' : 0 <= n < 2 ^ 64 -> 0 <= n' < 2 ^ 64 -> encodeBlockNumber n = encodeBlockNumber n' -> n = n'.
Proof. intros ?? E. apply Big.be_fixed_inj in E. change (256 ^ Z.of_nat 8) with (2 ^ 64) in E. by rewrite !Z.mod_small in E. Qed.

Lemma number_suffix_inj n n' x x' : 0 <= n < 2 ^ 64 -> 0 <= n' < 2 ^ 64 ->
  encodeBlockNumber n ++ x = encodeBlockNumber n' ++ x' -> n = n' /\ x = x'.
Proof.
  intros Hn Hn' E. apply app_inj_1 in E as [E1 E2].
  - split; [by apply be_fixed_8_inj|done].
  - unfold encodeBlockNumber. by rewrite !Big.length_be_fixed.
Qed.

Lemma headerKey_inj h h' n n' : 0 <= n < 2 ^ 64 -> 0 <= n' < 2 ^ 64 -> headerKey h n = headerKey h' n' -> h = h' /\ n = n'.
Proof. intros ?? E. apply app_inv_head, number_suffix_inj in E as [-> ->]; done. Qed.
Lemma tdKey_inj h h' n n' : 0 <= n < 2 ^ 64 -> 0 <= n' < 2 ^ 64 -> tdKey h n = tdKey h' n' -> h = h' /\ n = n'.
Proof.
  intros ?? E. apply app_inv_head, number_suffix_inj in E as [-> E]; [|done..]. by apply app_inj_2 in E as [-> _].
Qed.
Lemma numKey_inj n n' : 0 <= n < 2 ^ 64 -> 0 <= n' < 2 ^ 64 -> numKey n = numKey n' -> n = n'.
Proof. intros ?? E. by apply app_inv_head, number_suffix_inj in E as [-> _]. Qed.
Lemma hashKey_inj h h' : hashKey h = hashKey h' -> h = h'.
Proof. apply app_inv_head. Qed.

(** ** Reads after writes *)

(** Keys of different shapes, and the first byte of the old keys. *)
Ltac key_ne :=
  first
    [ apply shape_ne; rewrite ?shape_headerKey, ?shape_tdKey, ?shape_hashKey, ?shape_numKey, ?shape_oldHeaderKey,
        ?shape_oldTdKey, ?shape_bodyKey by done; (done || (unfold shape; simpl; discriminate))
    | discriminate ].
Ltac read_other := rewrite ?db_get_insert, ?db_get_delete; repeat rewrite decide_False by key_ne; done.

Section reads.
Context {CR : Crypto}.
Implicit Types (db : Db) (h k : Hash) (n m : Z).

Definition u64_ok n : Prop := 0 <= n < 2 ^ 64.

Lemma is_hash_array h : Common.is_array 32 h -> is_hash h.
Proof. by intros [? _]. Qed.

(** The layout has no entries of the old one. *)
Definition no_old db : Prop :=
  (forall n, db_get db (oldNumKey n) = []) /\
  (forall h, is_hash h -> db_get db (oldHeaderKey h) = [] /\ db_get db (oldTdKey h) = []).

Lemma no_old_insert db k v : no_old db -> head k <> Some 98 -> no_old (<[k := v]> db).
Proof.
  intros [H1 H2] Hk. split.
  - intros n. rewrite db_get_insert, decide_False; [done|]. by intros ->.
  - intros h Hh. rewrite !db_get_insert, !decide_False; [by apply H2|by intros ->|by intros ->].
Qed.
Lemma no_old_delete db k : no_old db -> no_old (delete k db).
Proof.
  intros [H1 H2]. split.
  - intros n. rewrite db_get_delete. by case_decide.
  - intros h Hh. rewrite !db_get_delete. destruct (H2 h Hh). split; by case_decide.
Qed.

(** What the chain reads, without the old layout. *)
Lemma GetCanonicalHash_new db n : no_old db -> GetCanonicalHash db n = hash_of (db_get db (numKey n)).
Proof. intros [H _]. unfold GetCanonicalHash, get_or. destruct (Z.eqb_spec (zlen (db_get db (numKey n))) 0) as [E|E]; [|done].
  rewrite H. apply zlen_0 in E. by rewrite E. Qed.
Lemma GetHeader_new db h n : no_old db -> is_hash h ->
  GetHeader db h n = if zlen (db_get db (headerKey h n)) =? 0 then None
                     else rlp_Decode header_type (db_get db (headerKey h n)) ≫= header_of.
Proof.
  intros [_ H] Hh. unfold GetHeader, GetHeaderRLP, get_or. destruct (H h Hh) as [-> _].
  destruct (Z.eqb_spec (zlen (db_get db (headerKey h n))) 0) as [E|E]; [done|].
  by rewrite (proj2 (Z.eqb_neq _ _) E).
Qed.
Lemma GetTd_new db h n : no_old db -> is_hash h ->
  GetTd db h n = if zlen (db_get db (tdKey h n)) =? 0 then None
                 else match rlp_Decode Dec.TyBigInt (db_get db (tdKey h n)) with
                      | Some (Enc.VBigInt (Some td)) => Some td | _ => None end.
Proof.
  intros [_ H] Hh. unfold GetTd, get_or. destruct (H h Hh) as [_ ->].
  destruct (Z.eqb_spec (zlen (db_get db (tdKey h n))) 0) as [E|E]; [done|].
  by rewrite (proj2 (Z.eqb_neq _ _) E).
Qed.

Lemma Hash_array `{CryptoOk} (x : Header) : Common.is_array 32 (Hash_ x).
Proof. unfold Hash_, rlpHash. case_match; apply Keccak256_size. Qed.

Lemma hash_of_array h : Common.is_array 32 h -> hash_of h = h.
Proof.
  intros [Hl Hb]. unfold hash_of. rewrite Hl. simpl. rewrite Common.BytesToHash_spec by done.
  replace 32%nat with (length h) by (unfold zlen in Hl; lia). by apply Big.be_fixed_SetBytes.
Qed.

(** Total difficulties. *)
Definition td_ok (t : Z) : Prop := 0 <= t < 2 ^ 4096.

Lemma td_encoding t : td_ok t -> Enc.EncodeToBytes (Enc.VBigInt (Some t)) = Done (Spec.string (Big.Bytes t)) /\
  rlp_Decode Dec.TyBigInt (Spec.string (Big.Bytes t)) = Some (Enc.VBigInt (Some t)) /\
  zlen (Spec.string (Big.Bytes t)) <> 0.
Proof.
  intros [H0 Ht]. assert (zlen (Big.Bytes t) <= 512) as Hl.
  { apply Big.zlen_Bytes_le; [lia|]. rewrite Z.abs_eq by done. by change (256 ^ 512) with (2 ^ 4096). }
  destruct (rlp_Decode_enc Dec.TyBigInt (Enc.VBigInt (Some t))) as [H1 H2]; [done|by exists t| |].
  - simpl. pose proof (zlen_string_bound (Big.Bytes t)). lia.
  - simpl in H1, H2. split; [done|]. split; [done|]. intros E. apply zlen_0 in E. rewrite E in H2. by vm_compute in H2.
Qed.

Lemma header_encoding (x : Header) : header_ok x ->
  Enc.EncodeToBytes (header_value x) = Done (Spec.enc (header_value x)) /\
  rlp_Decode header_type (Spec.enc (header_value x)) = Some (header_value x) /\ zlen (Spec.enc (header_value x)) <> 0.
Proof.
  intros [Ht Hl]. destruct (rlp_Decode_enc header_type (header_value x) header_strict Ht Hl) as [H1 H2].
  split; [done|]. split; [done|]. intros E. apply zlen_0 in E. rewrite E in H2. by vm_compute in H2.
Qed.

Section written.
Context {CK : CryptoOk}.

(** Storing a total difficulty. *)
Lemma WriteTd_spec db k n t : no_old db -> is_hash k -> u64_ok n -> td_ok t ->
  exists db', WriteTd k n t db = Done db' /\ no_old db' /\
    (forall k' n', is_hash k' -> u64_ok n' -> GetTd db' k' n' = if decide (k' = k /\ n' = n) then Some t else GetTd db k' n') /\
    (forall k' n', is_hash k' -> GetHeader db' k' n' = GetHeader db k' n') /\
    (forall k', is_hash k' -> GetBlockNumber db' k' = GetBlockNumber db k') /\
    (forall m, GetCanonicalHash db' m = GetCanonicalHash db m).
Proof.
  intros Ho Hk Hn Ht. destruct (td_encoding t Ht) as (HE & HD & Hne). unfold WriteTd. rewrite HE. simpl_outcome.
  assert (no_old (<[tdKey k n := Spec.string (Big.Bytes t)]> db)) as Ho' by (by apply no_old_insert).
  eexists. split; [done|]. split; [done|]. split_and!.
  - intros k' n' Hk' Hn'. rewrite !GetTd_new by done. rewrite db_get_insert. case_decide as E.
    + apply tdKey_inj in E as [-> ->]; [|done..]. rewrite decide_True by done.
      by rewrite (proj2 (Z.eqb_neq _ _) Hne), HD.
    + rewrite decide_False; [done|]. by intros [-> ->].
  - intros k' n' Hk'. rewrite !GetHeader_new by done. rewrite db_get_insert, decide_False; [done|]. key_ne.
  - intros k' Hk'. unfold GetBlockNumber. read_other.
  - intros m. rewrite !GetCanonicalHash_new by done. rewrite db_get_insert, decide_False; [done|]. key_ne.
Qed.

(** Storing a header and the number of its hash. *)
Lemma WriteHeader_spec db x : no_old db -> header_ok x -> u64_ok (Number x) ->
  exists db', WriteHeader x db = Done db' /\ no_old db' /\
    (forall k n, is_hash k -> u64_ok n -> GetHeader db' k n = if decide (k = Hash_ x /\ n = Number x) then Some x else GetHeader db k n) /\
    (forall k, is_hash k -> GetBlockNumber db' k = if decide (k = Hash_ x) then Some (Number x) else GetBlockNumber db k) /\
    (forall k n, is_hash k -> GetTd db' k n = GetTd db k n) /\
    (forall m, GetCanonicalHash db' m = GetCanonicalHash db m).
Proof.
  intros Ho Hx Hn. destruct (header_encoding x Hx) as (HE & HD & Hne). unfold WriteHeader. rewrite HE. simpl_outcome. cbv zeta.
  rewrite (Big.Uint64_small (Number x)) by done. pose proof (is_hash_array _ (Hash_array x)) as Hh.
  assert (no_old (<[headerKey (Hash_ x) (Number x) := Spec.enc (header_value x)]>
                    (<[hashKey (Hash_ x) := encodeBlockNumber (Number x)]> db))) as Ho'
    by (apply no_old_insert; [by apply no_old_insert|done]).
  eexists. split; [done|]. split; [done|]. split_and!.
  - intros k n Hk Hn'. rewrite !GetHeader_new by done. rewrite db_get_insert. case_decide as E.
    + apply headerKey_inj in E as [<- <-]; [|done..]. rewrite decide_True by done.
      rewrite (proj2 (Z.eqb_neq _ _) Hne), HD. simpl. apply header_of_value.
    + rewrite db_get_insert, (decide_False (P := hashKey _ = _)) by key_ne. rewrite decide_False; [done|]. by intros [-> ->].
  - intros k Hk. unfold GetBlockNumber. rewrite !db_get_insert.
    rewrite !(decide_False (P := headerKey _ _ = _)) by key_ne. rewrite (decide_False (P := hashKey _ = oldHeaderKey _)) by key_ne.
    destruct (decide (hashKey (Hash_ x) = hashKey k)) as [E|E].
    + apply hashKey_inj in E as <-. rewrite decide_True by done. rewrite zlen_number. simpl.
      unfold encodeBlockNumber. rewrite Big.SetBytes_be_fixed. change (256 ^ Z.of_nat 8) with (2 ^ 64). by rewrite Z.mod_small.
    + rewrite decide_False; [done|]. by intros ->.
  - intros k n Hk. rewrite !GetTd_new by done. read_other.
  - intros m. rewrite !GetCanonicalHash_new by done. read_other.
Qed.

(** Changes of the canonical numbering. *)
Lemma canonical_frame db db' : no_old db -> no_old db' ->
  (forall k, zlen k <> 10 -> db_get db' k = db_get db k) ->
  (forall k n, is_hash k -> GetHeader db' k n = GetHeader db k n) /\
  (forall k n, is_hash k -> GetTd db' k n = GetTd db k n) /\
  (forall k, is_hash k -> GetBlockNumber db' k = GetBlockNumber db k).
Proof.
  intros Ho Ho' Hg. split_and!.
  - intros k n Hk. rewrite !GetHeader_new by done. rewrite Hg; [done|].
    by rewrite (shape_zlen _ _ (shape_headerKey k Hk n)).
  - intros k n Hk. rewrite !GetTd_new by done. rewrite Hg; [done|].
    by rewrite (shape_zlen _ _ (shape_tdKey k Hk n)).
  - intros k Hk. unfold GetBlockNumber. 
    by rewrite !Hg by (by rewrite ?(shape_zlen _ _ (shape_hashKey k Hk)), ?(shape_zlen _ _ (shape_oldHeaderKey k Hk))).
Qed.

Lemma WriteCanonicalHash_spec db k n : no_old db -> Common.is_array 32 k -> u64_ok n ->
  let db' := WriteCanonicalHash k n db in
  no_old db' /\ (forall m, u64_ok m -> GetCanonicalHash db' m = if decide (m = n) then k else GetCanonicalHash db m) /\
  (forall k' n', is_hash k' -> GetHeader db' k' n' = GetHeader db k' n') /\
  (forall k' n', is_hash k' -> GetTd db' k' n' = GetTd db k' n') /\
  (forall k', is_hash k' -> GetBlockNumber db' k' = GetBlockNumber db k').
Proof.
  intros Ho Hk Hn. cbv zeta. assert (no_old (WriteCanonicalHash k n db)) as Ho' by (by apply no_old_insert).
  split; [done|]. split.
  - intros m Hm. rewrite !GetCanonicalHash_new by done. unfold WriteCanonicalHash. rewrite db_get_insert. case_decide as E.
    + apply numKey_inj in E as <-; [|done..]. rewrite decide_True by done. by apply hash_of_array.
    + rewrite decide_False; [done|]. by intros ->.
  - apply canonical_frame; [done..|]. intros k' Hk'. unfold WriteCanonicalHash. rewrite db_get_insert, decide_False; [done|].
    by intros <-.
Qed.

Lemma DeleteCanonicalHash_spec db n : no_old db -> u64_ok n ->
  let db' := DeleteCanonicalHash n db in
  no_old db' /\ (forall m, u64_ok m -> GetCanonicalHash db' m = if decide (m = n) then Common.zeroHash else GetCanonicalHash db m) /\
  (forall k' n', is_hash k' -> GetHeader db' k' n' = GetHeader db k' n') /\
  (forall k' n', is_hash k' -> GetTd db' k' n' = GetTd db k' n') /\
  (forall k', is_hash k' -> GetBlockNumber db' k' = GetBlockNumber db k').
Proof.
  intros Ho Hn. cbv zeta. assert (no_old (DeleteCanonicalHash n db)) as Ho' by (by apply no_old_delete).
  split; [done|]. split.
  - intros m Hm. rewrite !GetCanonicalHash_new by done. unfold DeleteCanonicalHash. rewrite db_get_delete. case_decide as E.
    + apply numKey_inj in E as <-; [|done..]. by rewrite decide_True by done.
    + rewrite decide_False; [done|]. by intros ->.
  - apply canonical_frame; [done..|]. intros k' Hk'. unfold DeleteCanonicalHash. rewrite db_get_delete, decide_False; [done|].
    by intros <-.
Qed.

Lemma WriteHeadHeaderHash_spec db k : no_old db ->
  let db' := WriteHeadHeaderHash k db in
  no_old db' /\ (forall m, GetCanonicalHash db' m = GetCanonicalHash db m) /\
  (forall k' n', is_hash k' -> GetHeader db' k' n' = GetHeader db k' n') /\
  (forall k' n', is_hash k' -> GetTd db' k' n' = GetTd db k' n') /\
  (forall k', is_hash k' -> GetBlockNumber db' k' = GetBlockNumber db k').
Proof.
  intros Ho. cbv zeta. assert (no_old (WriteHeadHeaderHash k db)) as Ho' by (by apply no_old_insert).
  split; [done|]. split.
  - intros m. rewrite !GetCanonicalHash_new by done. unfold WriteHeadHeaderHash. read_other.
  - apply canonical_frame; [done..|]. intros k' Hk'. unfold WriteHeadHeaderHash. rewrite db_get_insert, decide_False; [done|].
    by intros <-.
Qed.
End written.
End reads.
