(* ===== verification/ChainTables.v ===== *)
(** Bodies of blocks and the tables next to the chain: bodies are read back, and every write
    of the tables succeeds on a chain whose entries are byte strings and leaves the chain as it
    is. *)
From S2P Require Import Prelude GoBig CommonMath CommonTypes Rlp RlpDecode RlpDecodeOk RlpDecodeTheorems VmTypes.
From S2P Require Import StateTransition TxTypes BlockTypes ChainDbOk ChainDb.
Import Types.

(** Reading back the bodies and the receipts of blocks, and what writes next to the chain
    leave alone. *)

(** ** Transactions *)

Record tx_ok (d : Tx.txdata) : Prop := {
  tx_nonce : 0 <= Tx.AccountNonce d < 2 ^ 64;
  tx_price : 0 <= Tx.Price d;
  tx_gas : 0 <= Tx.GasLimit d;
  tx_to : from_option (Common.is_array 20) True (Tx.Recipient d);
  tx_amount : 0 <= Tx.Amount d;
  tx_payload : is_bytes (Tx.Payload d);
  tx_v : 0 <= Tx.V d;
  tx_r : 0 <= Tx.R d;
  tx_s : 0 <= Tx.S d;
}.

Lemma tx_typed d : tx_ok d -> typed Tx.txdata_type (Tx.txdata_value d).
Proof.
  intros []. eexists. split; [done|]. cbn -[Z.pow is_bytes]. split_and!; try (by eexists); try done.
  unfold Tx.to_value. destruct (Tx.Recipient d) as [a|]; [right|by left]. destruct tx_to0 as [Hl Hb].
  exists a. split_and!; [done..|]. unfold zlen in Hl. cbn. lia.
Qed.
Lemma tx_encodable d : tx_ok d -> Spec.encodable (Tx.txdata_value d).
Proof.
  intros []. constructor. repeat apply Forall_cons_2; try apply Forall_nil_2; constructor; try done.
  destruct (Tx.Recipient d) as [a|]; [by destruct tx_to0|]. apply Forall_nil_2.
Qed.
Lemma tx_of_value d : tx_ok d -> Tx.of_value (Tx.txdata_value d) = Some d.
Proof.
  intros [_ _ _ Hto _ _ _ _ _]. destruct d as [n p g [to|] a b v r s]; [|done]. unfold Tx.of_value, Tx.txdata_value. cbn in *.
  destruct to; [|done]. by destruct Hto.
Qed.
Lemma tx_back fuel : reads_back fuel Tx.txdata_type.
Proof.
  apply reads_back_struct. repeat apply Forall_cons_2; try apply Forall_nil_2; try (apply reads_back_opt; lia);
    apply reads_back_strict; try done. by right; right; right.
Qed.

(** ** Bodies *)

Definition bare_tx (tx : Transaction) : Transaction := Tx.fresh (Tx.data tx).
(** A block as it is read back: transactions without cached values. *)
Definition bare (b : Block) : Block :=
  {| header := header b; uncles := uncles b; transactions := map bare_tx (transactions b) |}.

Lemma bare_bare b : bare (bare b) = bare b.
Proof. unfold bare. cbn. f_equal. rewrite map_map. by apply map_ext. Qed.

Definition body_ok (b : Body) : Prop :=
  Forall (fun tx => tx_ok (Tx.data tx)) (body_Transactions b) /\ Forall header_ok (body_Uncles b) /\
  zlen (Spec.enc (body_value b)) < 2 ^ 62.

Lemma body_typed b : body_ok b -> typed body_type (body_value b).
Proof.
  intros (Ht & Hu & _). eexists. split; [done|]. split; [|split; [|done]].
  - eexists. split; [done|]. apply Forall_map. eapply Forall_impl; [exact Ht|]. intros tx. apply tx_typed.
  - eexists. split; [done|]. apply Forall_map. eapply Forall_impl; [exact Hu|]. by intros h [? _].
Qed.
Lemma body_encodable b : body_ok b -> Spec.encodable (body_value b).
Proof.
  intros (Ht & Hu & _). constructor. repeat apply Forall_cons_2; [..|apply Forall_nil_2]; constructor; apply Forall_map.
  - eapply Forall_impl; [exact Ht|]. intros tx. apply tx_encodable.
  - eapply Forall_impl; [exact Hu|]. intros h [? _]. by apply (typed_encodable header_type header_strict).
Qed.
Lemma body_back fuel : (0 < fuel)%nat -> reads_back fuel body_type.
Proof.
  intros Hf. apply reads_back_struct. repeat apply Forall_cons_2; [| |apply Forall_nil_2]; apply reads_back_slice.
  - apply tx_back.
  - apply ends_struct.
  - intros v. apply enc_nonempty. right. by eexists.
  - by apply reads_back_strict.
  - by apply ends_strict.
  - intros v. apply enc_nonempty. by left.
Qed.

Lemma mapM_map_id {A B} (f : A -> B) (g : B -> option A) l : Forall (fun x => g (f x) = Some x) l -> mapM g (map f l) = Some l.
Proof. intros H. apply mapM_Some_2. induction H; by constructor. Qed.

Lemma body_of_value b : body_ok b ->
  body_of (body_value b) = Some {| body_Transactions := map bare_tx (body_Transactions b); body_Uncles := body_Uncles b |}.
Proof.
  intros (Ht & _ & _). unfold body_of, body_value.
  replace (mapM Tx.of_value _) with (Some (map Tx.data (body_Transactions b))).
  2: { symmetry. rewrite <- (map_map Tx.data Tx.txdata_value). apply mapM_map_id. apply Forall_map.
       eapply Forall_impl; [exact Ht|]. intros tx. apply tx_of_value. }
  cbn. rewrite mapM_map_id by (apply Forall_forall; intros h _; apply header_of_value). cbn. by rewrite map_map.
Qed.

Lemma body_encoding b : body_ok b ->
  Enc.EncodeToBytes (body_value b) = Done (Spec.enc (body_value b)) /\ zlen (Spec.enc (body_value b)) <> 0 /\
  is_bytes (Spec.enc (body_value b)) /\
  rlp_Decode body_type (Spec.enc (body_value b)) ≫= body_of =
    Some {| body_Transactions := map bare_tx (body_Transactions b); body_Uncles := body_Uncles b |}.
Proof.
  intros Hb. pose proof (body_encodable b Hb) as He. pose proof (body_typed b Hb) as Ht. pose proof Hb as (_ & _ & Hl).
  assert (Spec.enc (body_value b) <> []) as Hne by (apply (enc_nonempty body_type); [right; by eexists|done]).
  assert (is_bytes (Spec.enc (body_value b))) as Hby by (apply is_bytes_enc; [done|lia]).
  split_and!; [apply EncodeToBytes_spec; [done|lia]|by intros ?%zlen_0|done|].
  unfold rlp_Decode. destruct (DecodeBytes_back body_type (body_value b)) as [_ [s ->]]; try done; [apply body_back; lia|].
  cbn. by apply body_of_value.
Qed.

(** Writes next to the chain: transactions, receipts, blooms, preimages and states.  They
    leave the headers, bodies, difficulties and canonical hashes as they are, and the numbers
    of the blocks of the chain. *)

(** ** Writing a body *)

Lemma bodyKey_inj h h' n n' : 0 <= n < 2 ^ 64 -> 0 <= n' < 2 ^ 64 -> bodyKey h n = bodyKey h' n' -> h = h' /\ n = n'.
Proof. intros ?? E. by apply app_inv_head, number_suffix_inj in E as [-> ->]. Qed.

Lemma first_byte n x l l' : 0 <= n < 2 ^ 56 -> encodeBlockNumber n ++ l = x :: l' -> x = 0.
Proof.
  intros Hn E. unfold encodeBlockNumber in E. assert (exists y, Big.be_fixed 8 n = 0 :: y) as [y Hy].
  { cbn [Big.be_fixed]. rewrite !Z.div_div by lia. cbn [app]. eexists. f_equal.
    rewrite Z.div_small; [done|]. change (256 * _) with (2 ^ 56). lia. }
  rewrite Hy in E. by injection E.
Qed.

Lemma zlen_oldNumKey n : zlen (oldNumKey n) <= 18.
Proof.
  unfold oldNumKey. rewrite zlen_app. change (zlen oldBlockNumPrefix) with 10.
  assert (zlen (Big.Bytes (i64 n)) <= 8); [|lia]. apply Big.zlen_Bytes_le; [lia|]. change (256 ^ 8) with (2 ^ 64).
  unfold i64. pose proof (Z.mod_pos_bound n (2 ^ 64)). case_match; lia.
Qed.

Section bodies.
Context {CR : Crypto}.
Implicit Types (db : Db).

Lemma no_old_body db k n v : no_old db -> is_hash k -> 0 <= n < 2 ^ 56 -> no_old (<[bodyKey k n := v]> db).
Proof.
  intros [H1 H2] Hk Hn. split.
  - intros m. rewrite db_get_insert, decide_False; [done|]. intros E. pose proof (zlen_oldNumKey m) as Hl.
    rewrite <- E, (shape_zlen _ _ (shape_bodyKey k Hk n)) in Hl. cbn in Hl. lia.
  - intros h Hh. rewrite !db_get_insert, !decide_False; [by apply H2|..].
    + intros E. apply (app_inv_head [98] (encodeBlockNumber n ++ k) ([108; 111; 99; 107; 45] ++ h ++ oldTdSuffix)) in E.
      by apply first_byte in E.
    + key_ne.
Qed.

Lemma GetBody_frame db db' k n : (forall x, head x = Some 98 -> zlen x <> 32 -> zlen x <> 33 -> db_get db' x = db_get db x) -> is_hash k ->
  GetBody db' k n = GetBody db k n.
Proof.
  intros H Hk. unfold GetBody, GetBodyRLP, get_or.
  assert (db_get db' (bodyKey k n) = db_get db (bodyKey k n)) as ->.
  { by apply H; [|rewrite (shape_zlen _ _ (shape_bodyKey k Hk n))..]. }
  assert (db_get db' (oldBodyKey k) = db_get db (oldBodyKey k)) as ->; [|done].
  by apply H; [|rewrite (shape_zlen _ _ (shape_oldBodyKey k Hk))..].
Qed.

Lemma WriteBody_spec db k n b : no_old db -> is_hash k -> 0 <= n < 2 ^ 56 -> body_ok b ->
  exists db', WriteBody k n b db = Done db' /\ db' = <[bodyKey k n := Spec.enc (body_value b)]> db /\ no_old db' /\
    (forall k' n', is_hash k' -> u64_ok n' -> GetBody db' k' n' =
       if decide (k' = k /\ n' = n) then Some {| body_Transactions := map bare_tx (body_Transactions b); body_Uncles := body_Uncles b |}
       else GetBody db k' n') /\
    (forall k' n', is_hash k' -> GetHeader db' k' n' = GetHeader db k' n') /\
    (forall k' n', is_hash k' -> GetTd db' k' n' = GetTd db k' n') /\
    (forall k', is_hash k' -> GetBlockNumber db' k' = GetBlockNumber db k') /\
    (forall m, GetCanonicalHash db' m = GetCanonicalHash db m).
Proof.
  intros Ho Hk Hn Hb. destruct (body_encoding b Hb) as (HE & Hne & _ & HD). unfold WriteBody. rewrite HE. simpl_outcome.
  unfold WriteBodyRLP. pose proof (no_old_body db k n (Spec.enc (body_value b)) Ho Hk Hn) as Ho'.
  eexists. split; [done|]. split; [done|]. split; [done|]. split_and!.
  - intros k' n' Hk' Hn'. unfold GetBody, GetBodyRLP, get_or. rewrite !db_get_insert.
    rewrite (decide_False (P := bodyKey k n = oldBodyKey k')).
    2: { apply shape_ne. by rewrite shape_bodyKey, shape_oldBodyKey. }
    destruct (decide (bodyKey k n = bodyKey k' n')) as [E|E].
    + apply bodyKey_inj in E as [<- <-]; [|lia|done]. rewrite decide_True by done.
      by rewrite !(proj2 (Z.eqb_neq _ _) Hne).
    + rewrite decide_False; [done|]. by intros [-> ->].
  - intros k' n' Hk'. rewrite !GetHeader_new by done. read_other.
  - intros k' n' Hk'. rewrite !GetTd_new by done. read_other.
  - intros k' Hk'. unfold GetBlockNumber. read_other.
  - intros m. rewrite !GetCanonicalHash_new by done. read_other.
Qed.
End bodies.

(** ** Writes aside *)

(** [hs] are the hashes of the blocks of the chain. *)
Record aside (hs : Hash -> Prop) (db db' : Db) : Prop := {
  as_chain k : head k = Some 104 \/ head k = Some 98 -> zlen k <> 32 -> zlen k <> 33 -> db_get db' k = db_get db k;
  as_number h : hs h -> db_get db' (hashKey h) = db_get db (hashKey h);
  as_missing h : is_hash h -> zlen (db_get db (hashKey h)) <> 8 -> zlen (db_get db' (hashKey h)) <> 8;
  as_head : db_get db' headBlockKey = db_get db headBlockKey;
}.

Lemma aside_refl hs db : aside hs db db.
Proof. by split. Qed.
Lemma aside_trans hs db1 db2 db3 : aside hs db1 db2 -> aside hs db2 db3 -> aside hs db1 db3.
Proof.
  intros [C1 N1 M1 H1] [C2 N2 M2 H2]. split.
  - intros k Hk H32 H33. rewrite C2 by done. auto.
  - intros h Hh. rewrite N2 by done. auto.
  - intros h Hh H. auto.
  - by rewrite H2.
Qed.

(** A key of the other tables. *)
Definition aside_key (hs : Hash -> Prop) (k : bytes) : Prop :=
  zlen k = 32 \/ (zlen k = 33 /\ forall h, hs h -> k <> hashKey h) \/
  (exists c, head k = Some c /\ c ∈ [109; 114; 115; 116]) \/ k = headHeaderKey \/ k = headFastKey.

Section keys.
Variable hs : Hash -> Prop.
Hypothesis Hhs : forall h, hs h -> is_hash h.

Lemma aside_key_ne k : aside_key hs k -> forall x,
  ((head x = Some 104 \/ head x = Some 98) /\ zlen x <> 32 /\ zlen x <> 33) \/ (exists h, hs h /\ x = hashKey h) \/ x = headBlockKey -> k <> x.
Proof.
  intros Hk x Hx ->. destruct Hx as [(Hh & H32 & H33)|[(h & Hh & ->)| -> ]].
  - destruct Hk as [?|[[? _]|[(c & Hc & Hin)|[-> | -> ]]]]; try done; [|by destruct Hh..].
    rewrite Hc in Hh. repeat (apply elem_of_cons in Hin as [->|Hin]; [by destruct Hh|]). by apply not_elem_of_nil in Hin.
  - pose proof (shape_hashKey h (Hhs h Hh)) as Hs. pose proof (shape_zlen _ _ Hs) as Hl. cbn [snd] in Hl.
    destruct Hk as [?|[[_ Hk]|[(c & Hc & Hin)|[Hk|Hk]]]]; [lia|by apply (Hk h)| |done..].
    cbn in Hc. injection Hc as <-. repeat (apply elem_of_cons in Hin as [Hin|Hin]; [done|]). by apply not_elem_of_nil in Hin.
  - destruct Hk as [?|[[? _]|[(c & Hc & Hin)|[Hk|Hk]]]]; try done.
    cbn in Hc. injection Hc as <-. repeat (apply elem_of_cons in Hin as [Hin|Hin]; [done|]). by apply not_elem_of_nil in Hin.
Qed.

(** An entry in the table of numbers, if it is one, has not the length of a number. *)
Lemma aside_insert k v db : aside_key hs k -> (forall h, is_hash h -> k = hashKey h -> zlen v <> 8) -> aside hs db (<[k := v]> db).
Proof.
  intros Hk Hv. pose proof (aside_key_ne k Hk) as Hne. split.
  - intros x Hx H32 H33. rewrite db_get_insert, decide_False; [done|]. apply Hne. by left.
  - intros h Hh. rewrite db_get_insert, decide_False; [done|]. apply Hne. right. left. by exists h.
  - intros h Hh H. rewrite db_get_insert. case_decide; [by apply (Hv h)|done].
  - rewrite db_get_insert, decide_False; [done|]. apply Hne. by do 2 right.
Qed.
Lemma hashKey_shape k h : is_hash h -> k = hashKey h -> head k = Some 72 /\ zlen k = 33.
Proof. intros Hh ->. split; [done|]. apply (shape_zlen _ _ (shape_hashKey h Hh)). Qed.
Lemma aside_insert_other k v db : aside_key hs k -> head k <> Some 72 \/ zlen k <> 33 -> aside hs db (<[k := v]> db).
Proof. intros Hk Hv. apply aside_insert; [done|]. intros h Hh E. destruct (hashKey_shape k h Hh E), Hv; done. Qed.
Lemma aside_delete k db : aside_key hs k -> aside hs db (delete k db).
Proof.
  intros Hk. pose proof (aside_key_ne k Hk) as Hne. split.
  - intros x Hx H32 H33. rewrite db_get_delete, decide_False; [done|]. apply Hne. by left.
  - intros h Hh. rewrite db_get_delete, decide_False; [done|]. apply Hne. right. left. by exists h.
  - intros h Hh H. rewrite db_get_delete. by case_decide.
  - rewrite db_get_delete, decide_False; [done|]. apply Hne. by do 2 right.
Qed.

(** What the chain reads after such writes. *)
Lemma aside_reads db db' : aside hs db db' -> no_old db ->
  no_old db' /\
  (forall k n, is_hash k -> GetHeader db' k n = GetHeader db k n) /\
  (forall k n, is_hash k -> GetTd db' k n = GetTd db k n) /\
  (forall k n, is_hash k -> GetBody db' k n = GetBody db k n) /\
  (forall k, hs k -> GetBlockNumber db' k = GetBlockNumber db k) /\
  (forall k, is_hash k -> zlen (db_get db (hashKey k)) <> 8 -> GetBlockNumber db' k = Some missingNumber) /\
  (forall m, GetCanonicalHash db' m = GetCanonicalHash db m) /\
  GetHeadBlockHash db' = GetHeadBlockHash db.
Proof.
  intros [C N Mi H] Ho. assert (no_old db') as Ho'.
  { destruct Ho as [H1 H2]. split.
    - intros n. rewrite C; [done|by right|..]; pose proof (zlen_oldNumKey n); lia.
    - intros h Hh. destruct (H2 h Hh) as [E1 E2]. rewrite !C; try by right.
      + done.
      + by rewrite (shape_zlen _ _ (shape_oldTdKey h Hh)).
      + by rewrite (shape_zlen _ _ (shape_oldTdKey h Hh)).
      + by rewrite (shape_zlen _ _ (shape_oldHeaderKey h Hh)).
      + by rewrite (shape_zlen _ _ (shape_oldHeaderKey h Hh)). }
  split_and!; try done.
  - intros k n Hk. rewrite !GetHeader_new by done. rewrite C; [done|by left|..]; by rewrite (shape_zlen _ _ (shape_headerKey k Hk n)).
  - intros k n Hk. rewrite !GetTd_new by done. rewrite C; [done|by left|..]; by rewrite (shape_zlen _ _ (shape_tdKey k Hk n)).
  - intros k n Hk. apply GetBody_frame; [|done]. intros x Hx H32 H33. apply C; [by right|done..].
  - intros k Hk. unfold GetBlockNumber. rewrite N by done. pose proof (Hhs k Hk) as Hh.
    destruct (proj2 Ho k Hh) as [-> _], (proj2 Ho' k Hh) as [-> _]. done.
  - intros k Hk Hl. unfold GetBlockNumber. rewrite (proj2 (Z.eqb_neq _ _)) by auto. cbn [negb].
    by destruct (proj2 Ho' k Hk) as [-> _].
  - intros m. rewrite !GetCanonicalHash_new by done. rewrite C; [done|by left|..]; by rewrite (shape_zlen _ _ (shape_numKey m)).
  - unfold GetHeadBlockHash. by rewrite H.
Qed.
End keys.

(** ** Entries *)

(** Values are byte strings that the decoder can be given, and blooms have at most 256
    bytes. *)
Definition value_fine (v : bytes) : Prop := is_bytes v /\ zlen v < 2 ^ 62.
Definition mip_number (n : Z) : Prop := 0 <= n < 2 ^ 48.
Definition entries_ok (db : Db) : Prop :=
  (forall k, value_fine (db_get db k)) /\
  (forall n level, mip_number n -> level ∈ MIPMapLevels -> zlen (db_get db (mipmapKey n level)) <= 256).

Lemma zlen_mipmapKey n level : mip_number n -> 0 < level -> zlen (mipmapKey n level) <= 31.
Proof.
  intros [H0 Hn] Hl. unfold mipmapKey. rewrite !zlen_app. change (zlen mipmapPre) with 17.
  assert (zlen (Big.be_fixed 8 level) = 8) as -> by (unfold zlen; by rewrite Big.length_be_fixed).
  assert (zlen (Big.Bytes (n / level * level)) <= 6); [|lia].
  apply Big.zlen_Bytes_le; [lia|]. change (256 ^ 6) with (2 ^ 48).
  pose proof (Z.mul_div_le n level Hl). assert (0 <= n / level) by (apply Z.div_pos; lia). nia.
Qed.
Lemma level_pos level : level ∈ MIPMapLevels -> 0 < level.
Proof. intros H. repeat (apply elem_of_cons in H as [->|H]; [lia|]). by apply not_elem_of_nil in H. Qed.

Lemma value_fine_nil : value_fine [].
Proof. by split; [apply Forall_nil_2|]. Qed.

Lemma entries_insert db k v : entries_ok db -> value_fine v -> zlen v <= 256 \/ head k <> Some 109 \/ 32 <= zlen k ->
  entries_ok (<[k := v]> db).
Proof.
  intros [H1 H2] Hv Hk. split.
  - intros x. rewrite db_get_insert. by case_decide.
  - intros n level Hn Hl. rewrite db_get_insert. case_decide as E; [|auto]. subst k.
    pose proof (zlen_mipmapKey n level Hn (level_pos _ Hl)). destruct Hk as [?|[?|?]]; [done|done|lia].
Qed.
Lemma entries_delete db k : entries_ok db -> entries_ok (delete k db).
Proof.
  intros [H1 H2]. split.
  - intros x. rewrite db_get_delete. case_decide; [apply value_fine_nil|auto].
  - intros n level Hn Hl. rewrite db_get_delete. case_decide; [by change (zlen (@nil Z)) with 0|auto].
Qed.
Lemma entries_empty : entries_ok ∅.
Proof. by split; [intros; apply value_fine_nil|]. Qed.

(** ** Batches *)
Section batch.
Variable hs : Hash -> Prop.
Hypothesis Hhs : forall h, hs h -> is_hash h.

Definition put_ok (p : bytes * bytes) : Prop :=
  aside_key hs p.1 /\ (forall h, is_hash h -> p.1 = hashKey h -> zlen p.2 <> 8) /\ value_fine p.2 /\
  (zlen p.2 <= 256 \/ head p.1 <> Some 109 \/ 32 <= zlen p.1).

Definition fine (db db' : Db) : Prop := aside hs db db' /\ entries_ok db'.

Lemma batch_fine puts : Forall put_ok puts -> forall db, entries_ok db -> fine db (batch_Write puts db).
Proof.
  induction 1 as [|[k v] puts (Hk & Hv & Hf & Hm) _ IH]; intros db He; [split; [apply aside_refl|done]|].
  cbn [batch_Write fold_left fst snd] in *. destruct (IH (<[k := v]> db)) as [Ha He']; [by apply entries_insert|].
  split; [|done]. eapply aside_trans; [by apply aside_insert|done].
Qed.
End batch.

(** ** Transactions *)

(** The cached hash of a transaction, if any, is its hash. *)
Definition coherent `{Crypto} (tx : Transaction) : Prop :=
  Tx.hash tx = None \/ Tx.hash tx = Some (rlpHash (Tx.txdata_value (Tx.data tx))).

Section tables.
Context {CR : Crypto} {CK : CryptoOk}.
Variable hs : Hash -> Prop.
Hypothesis Hhs : forall h, hs h -> is_hash h.

Lemma rlpHash_array x : Common.is_array 32 (rlpHash x).
Proof. unfold rlpHash. case_match; apply Keccak256_size. Qed.

Lemma tx_hash_coherent tx : coherent tx -> Tx.tx_hash tx = rlpHash (Tx.txdata_value (Tx.data tx)).
Proof. unfold Tx.tx_hash, Tx.Hash_. by intros [-> | ->]. Qed.
Lemma tx_hash_bare tx : coherent tx -> Tx.tx_hash (bare_tx tx) = Tx.tx_hash tx.
Proof. intros H. by rewrite (tx_hash_coherent tx H). Qed.
Lemma is_hash_tx tx : coherent tx -> is_hash (Tx.tx_hash tx).
Proof. intros H. rewrite tx_hash_coherent by done. apply is_hash_array, rlpHash_array. Qed.

(** The position of the transaction is not stored under the hash of a block. *)
Definition clear_tx (tx : Transaction) : Prop := forall h, hs h -> Tx.tx_hash tx ++ txMetaSuffix <> hashKey h.
Definition tx_fine (tx : Transaction) : Prop :=
  tx_ok (Tx.data tx) /\ coherent tx /\ zlen (Spec.enc (Tx.txdata_value (Tx.data tx))) < 2 ^ 32 /\ clear_tx tx.

Lemma zlen_meta tx : coherent tx -> zlen (Tx.tx_hash tx ++ txMetaSuffix) = 33.
Proof. intros H. rewrite zlen_app. by rewrite (is_hash_tx tx H). Qed.

Lemma zlen_uint i : 0 <= i < 2 ^ 64 -> 0 <= zlen (Spec.enc (Enc.VUint i)) <= 9.
Proof.
  intros Hi. split; [apply zlen_nonneg|]. cbn [Spec.enc].
  assert (zlen (Big.Bytes i) <= 8) by (apply Big.zlen_Bytes_le; [lia|]; change (256 ^ 8) with (2 ^ 64); lia).
  etrans; [apply zlen_string; lia|lia].
Qed.

Lemma meta_encoding b i : 0 <= i < 2 ^ 64 ->
  Enc.EncodeToBytes (meta_value b i) = Done (Spec.enc (meta_value b i)) /\ value_fine (Spec.enc (meta_value b i)) /\
  zlen (Spec.enc (meta_value b i)) <> 8.
Proof.
  intros Hi. destruct (Hash_array (header b)) as [Hl Hb]. unfold meta_value.
  assert (u64_ok (NumberU64 b)) as Hu by apply Big.Uint64_range.
  set (c := Spec.enc (Enc.VBytes (Block_Hash b)) ++ Spec.enc (Enc.VUint (NumberU64 b)) ++ Spec.enc (Enc.VUint i)).
  assert (Spec.enc (Enc.VList [Enc.VBytes (Block_Hash b); Enc.VUint (NumberU64 b); Enc.VUint i]) = Spec.lst c) as E.
  { cbn [Spec.enc map concat]. by rewrite app_nil_r. }
  assert (33 <= zlen c <= 51) as Hc.
  { unfold c. rewrite !zlen_app. pose proof (zlen_uint i Hi). pose proof (zlen_uint (NumberU64 b) Hu).
    assert (zlen (Spec.enc (Enc.VBytes (Block_Hash b))) = 33); [|lia]. cbn [Spec.enc].
    rewrite string_long by (intros x Ex; unfold Block_Hash in Ex; rewrite Ex in Hl; done).
    rewrite zlen_app. unfold Block_Hash. rewrite Hl. done. }
  assert (zlen (Spec.lst c) = zlen c + 1) as Hs.
  { unfold Spec.lst, Spec.head. rewrite (proj2 (Z.ltb_lt _ _)) by lia. rewrite zlen_app. unfold zlen at 1. cbn [length]. lia. }
  assert (Spec.encodable (Enc.VList [Enc.VBytes (Block_Hash b); Enc.VUint (NumberU64 b); Enc.VUint i])) as He.
  { constructor. repeat apply Forall_cons_2; try apply Forall_nil_2; by constructor. }
  rewrite E, Hs. split_and!; [rewrite <- E; apply EncodeToBytes_spec; [done|rewrite E; lia]|split; [|lia]|lia].
  rewrite <- E. apply is_bytes_enc; [done|]. rewrite E. lia.
Qed.

Lemma transaction_puts_ok b txs : forall i, Forall tx_fine txs -> 0 <= i -> i + zlen txs < 2 ^ 64 ->
  exists puts, transaction_puts b i txs = Done puts /\ Forall (put_ok hs) puts.
Proof.
  induction txs as [|tx txs IH]; intros i Htx Hi Hb; [by exists []|]. apply Forall_cons in Htx as [(Hok & Hc & Hl & Hcl) Htx].
  rewrite zlen_cons in Hb. pose proof (zlen_nonneg txs). destruct (IH (i + 1) Htx ltac:(lia) ltac:(lia)) as (puts & E & Hp).
  destruct (meta_encoding b i ltac:(lia)) as (Em & Hmf & Hm8). pose proof (tx_encodable _ Hok) as He.
  cbn [transaction_puts]. rewrite (EncodeToBytes_spec (Tx.txdata_value (Tx.data tx))) by (done || lia). simpl_outcome. rewrite Em. simpl_outcome. rewrite E. simpl_outcome.
  eexists. split; [done|]. pose proof (is_hash_tx tx Hc) as H32. pose proof (zlen_meta tx Hc) as H33.
  apply Forall_cons_2; [|apply Forall_cons_2; [|done]]; unfold put_ok; cbn [fst snd].
  - split_and!; [by left| |split; [apply is_bytes_enc; [done|lia]|lia]|right; right; unfold is_hash in H32; lia].
    intros h Hh Eh. destruct (hashKey_shape _ h Hh Eh) as [_ E33]. unfold is_hash in H32. lia.
  - split_and!; [right; left; by split|done|done|right; right; lia].
Qed.

Lemma WriteTransactions_fine b db : Forall tx_fine (transactions b) -> zlen (transactions b) < 2 ^ 62 -> entries_ok db ->
  exists db', WriteTransactions b db = Done db' /\ fine hs db db'.
Proof.
  intros Htx Hl He. destruct (transaction_puts_ok b (transactions b) 0 Htx) as (puts & E & Hp); [lia|lia|].
  unfold WriteTransactions. rewrite E. simpl_outcome. eexists. split; [done|]. by apply batch_fine.
Qed.

Lemma DeleteTransaction_fine tx db : coherent tx -> clear_tx tx -> entries_ok db ->
  fine hs db (DeleteTransaction (Tx.tx_hash tx) (DeleteReceipt (Tx.tx_hash tx) db)).
Proof.
  intros Hc Hcl He. split; [|by repeat apply entries_delete]. unfold DeleteTransaction, DeleteReceipt.
  eapply aside_trans; [eapply aside_trans|]; apply aside_delete; try done.
  - right; right; left. exists 114. split; [done|]. set_solver.
  - left. by apply is_hash_tx.
  - right; left. split; [by apply zlen_meta|done].
Qed.

(** ** Receipts *)

Definition receipt_fine (r : Receipt) : Prop :=
  Spec.encodable (storage_receipt_value r) /\ zlen (Spec.enc (storage_receipt_value r)) < 2 ^ 62.

Lemma receipt_puts_ok rs : Forall receipt_fine rs -> exists puts, WriteReceipts_puts rs = Done puts /\ Forall (put_ok hs) puts.
Proof.
  induction 1 as [|r rs [He Hl] _ (puts & E & Hp)]; [by exists []|]. cbn [WriteReceipts_puts].
  rewrite EncodeToBytes_spec by (done || lia). simpl_outcome. rewrite E. simpl_outcome. eexists. split; [done|]. constructor; [|done].
  unfold put_ok; cbn [fst snd]. split_and!.
  - right; right; left. exists 114. split; [done|]. set_solver.
  - intros h Hh Eh. by destruct (hashKey_shape _ h Hh Eh).
  - split; [apply is_bytes_enc; [done|lia]|lia].
  - right. by left.
Qed.
Lemma WriteReceipts_fine rs db : Forall receipt_fine rs -> entries_ok db -> exists db', WriteReceipts rs db = Done db' /\ fine hs db db'.
Proof.
  intros Hr He. destruct (receipt_puts_ok rs Hr) as (puts & E & Hp). unfold WriteReceipts. rewrite E. simpl_outcome.
  eexists. split; [done|]. by apply batch_fine.
Qed.

Lemma WriteBlockReceipts_fine k n rs db : Spec.encodable (Enc.VList (map storage_receipt_value rs)) ->
  zlen (Spec.enc (Enc.VList (map storage_receipt_value rs))) < 2 ^ 62 -> entries_ok db ->
  exists db', WriteBlockReceipts k n rs db = Done db' /\ fine hs db db'.
Proof.
  intros Hr Hl He. unfold WriteBlockReceipts. rewrite EncodeToBytes_spec by (done || lia). simpl_outcome. eexists. split; [done|].
  split.
  - apply aside_insert_other; [done| |by left]. right; right; left. exists 114. split; [done|]. set_solver.
  - apply entries_insert; [done|split; [apply is_bytes_enc; [done|lia]|lia]|right; by left].
Qed.
End tables.

(** ** Receipts that were stored *)

Lemma mapM_back {A B} (f : A -> option B) (g : B -> A) l : Forall (fun v => exists a, f v = Some a /\ g a = v) l ->
  exists l', mapM f l = Some l' /\ map g l' = l.
Proof.
  induction 1 as [|v l (a & Ha & Hg) _ (l' & Hl' & Hm)]; [by exists []|]. exists (a :: l'). split; [|cbn; by rewrite Hg, Hm].
  apply mapM_Some in Hl'. apply mapM_Some. by constructor.
Qed.

Lemma storage_log_back v : typed storage_log_type v -> exists l, storage_log_of v = Some l /\ storage_log_value l = v.
Proof.
  intros (l & -> & Hf). cbn [typed_fields] in Hf.
  do 8 (destruct l as [|? l]; [by repeat destruct Hf as [_ Hf]|]; cbn [typed_fields] in Hf).
  destruct l as [|? l]; [|by repeat destruct Hf as [_ Hf]].
  destruct Hf as ((a & -> & _) & (ts & -> & Hts) & (d & -> & _) & (n & -> & _) & (th & -> & _) & (ti & -> & _) & (bh & -> & _) & (i & -> & _) & _).
  destruct (mapM_back bytes_of Enc.VBytes ts) as (ts' & E & E').
  { eapply Forall_impl; [exact Hts|]. intros v (b & -> & _). by exists b. }
  cbn [storage_log_of]. rewrite E. cbn. eexists. split; [done|]. unfold storage_log_value. cbn. by rewrite E'.
Qed.

Lemma storage_receipt_back v : typed storage_receipt_type v -> exists r, storage_receipt_of v = Some r /\ storage_receipt_value r = v.
Proof.
  intros (l & -> & Hf). cbn [typed_fields] in Hf.
  do 7 (destruct l as [|? l]; [by repeat destruct Hf as [_ Hf]|]; cbn [typed_fields] in Hf).
  destruct l as [|? l]; [|by repeat destruct Hf as [_ Hf]].
  destruct Hf as ((a & -> & _) & (c & -> & _) & (b & -> & _) & (th & -> & _) & (ca & -> & _) & (ls & -> & Hls) & (g & -> & _) & _).
  destruct (mapM_back storage_log_of storage_log_value ls) as (ls' & E & E').
  { eapply Forall_impl; [exact Hls|]. apply storage_log_back. }
  cbn [storage_receipt_of]. rewrite E. cbn. eexists. split; [done|]. unfold storage_receipt_value. cbn. by rewrite E'.
Qed.

Lemma storage_receipt_strict : strict storage_receipt_type.
Proof. cbn. split_and!; try done; by right; right; right. Qed.

Lemma zlen_enc_elem v l : v ∈ l -> zlen (Spec.enc v) <= zlen (Spec.enc (Enc.VList l)).
Proof.
  intros Hv. cbn [Spec.enc]. unfold Spec.lst. rewrite zlen_app. pose proof (zlen_nonneg (Spec.head 192 247 (zlen (concat (map Spec.enc l))))).
  assert (zlen (Spec.enc v) <= zlen (concat (map Spec.enc l))); [|lia]. clear - Hv.
  induction l as [|x l IH]; [by apply not_elem_of_nil in Hv|]. rewrite map_cons, concat_cons, zlen_app.
  pose proof (zlen_nonneg (Spec.enc x)). pose proof (zlen_nonneg (concat (map Spec.enc l))).
  apply elem_of_cons in Hv as [->|Hv]; [lia|]. specialize (IH Hv). lia.
Qed.

(** Whatever the table holds, the receipts read from it can be written. *)
Lemma GetBlockReceipts_fine db k n : entries_ok db -> Forall receipt_fine (GetBlockReceipts db k n).
Proof.
  intros [He _]. unfold GetBlockReceipts. set (data := get_or _ _ _).
  assert (value_fine data) as [Hb Hl] by (unfold data, get_or; case_match; apply He).
  destruct (zlen data =? 0); [done|]. pose proof (DecodeBytes_ok (Dec.TySlice storage_receipt_type) data storage_receipt_strict Hb Hl) as HD.
  destruct (Dec.DecodeBytes _ _) as [v|e| |]; try done. destruct HD as [(l & -> & Ht) HE].
  destruct (mapM_back storage_receipt_of storage_receipt_value l) as (rs & -> & Em).
  { eapply Forall_impl; [exact Ht|]. apply storage_receipt_back. }
  cbn [default]. apply Forall_forall. intros r Hr. assert (storage_receipt_value r ∈ l) as Hin.
  { rewrite <- Em. apply list_elem_of_fmap. by exists r. }
  rewrite Forall_forall in Ht. split.
  - apply (typed_encodable storage_receipt_type storage_receipt_strict). by apply Ht.
  - pose proof (zlen_enc_elem _ _ Hin) as H. rewrite HE in H. lia.
Qed.

(** ** Blooms *)
Section blooms.
Context {CR : Crypto}.
Variable hs : Hash -> Prop.
Hypothesis Hhs : forall h, hs h -> is_hash h.

Lemma bloom_SetBytes b d : Common.is_array 256 b -> is_bytes d -> zlen d <= 256 ->
  exists b', Bloom.SetBytes b d = Some b' /\ Common.is_array 256 b'.
Proof.
  intros [Hl Hb] Hd Hdl. unfold Bloom.SetBytes, Bloom.bloomLength. rewrite (proj2 (Z.ltb_ge _ _)) by lia. eexists. split; [done|].
  pose proof (zlen_nonneg d). split; [rewrite zlen_copy_at; lia|]. by apply is_bytes_copy_at.
Qed.

Lemma bloom_Add b d : Common.is_array 256 b -> exists b', Bloom.Add b d = Some b' /\ Common.is_array 256 b'.
Proof.
  intros [Hl Hb]. unfold Bloom.Add. apply bloom_SetBytes; [done|apply Big.is_bytes_Bytes|]. apply Big.zlen_Bytes_le; [lia|].
  pose proof (Big.SetBytes_bound b Hb) as Hs. rewrite Hl in Hs.
  assert (256 ^ 256 = 2 ^ 2048) as Hp by (apply (Z.pow_mul_r 2 8 256); lia). rewrite Hp in *.
  pose proof (lor_bloom _ _ Hs (bloom9_range (Big.Bytes d))) as Hr. unfold bloom_range in Hr. rewrite Z.abs_eq; lia.
Qed.

Lemma bloom_logs logs : forall b, Common.is_array 256 b ->
  exists b', foldl (fun b l => b ≫= fun b => Bloom.Add b (Common.Address_Big (log_Address l))) (Some b) logs = Some b' /\ Common.is_array 256 b'.
Proof.
  induction logs as [|l logs IH]; intros b Hb; [by exists b|]. cbn [foldl mbind option_bind].
  destruct (bloom_Add b (Common.Address_Big (log_Address l)) Hb) as (b' & -> & Hb'). by apply IH.
Qed.

Lemma level_bloom_ok db n level rs : entries_ok db -> mip_number n -> level ∈ MIPMapLevels ->
  exists b, level_bloom db n level rs = Some (mipmapKey n level, b) /\ Common.is_array 256 b.
Proof.
  intros [He Hm] Hn Hl. unfold level_bloom, Bloom.BytesToBloom. destruct (He (mipmapKey n level)) as [Hb _].
  destruct (bloom_SetBytes (zeros Bloom.bloomLength) (db_get db (mipmapKey n level))) as (b & -> & Hba);
    [by split; [|apply (bool_decide_unpack _)]|done|by apply Hm|].
  cbn [mbind option_bind]. destruct (bloom_logs (concat (map Logs rs)) b Hba) as (b' & -> & Hb'). by exists b'.
Qed.

Lemma WriteMipmapBloom_fine n rs db : entries_ok db -> mip_number n -> exists db', WriteMipmapBloom n rs db = Some db' /\ fine hs db db'.
Proof.
  intros He Hn. unfold WriteMipmapBloom.
  assert (forall ls, (forall l, l ∈ ls -> l ∈ MIPMapLevels) -> exists puts,
    mapM (fun level => level_bloom db n level rs) ls = Some puts /\ Forall (put_ok hs) puts) as H.
  { induction ls as [|l ls IH]; intros Hls; [by exists []|].
    destruct IH as (puts & E & Hp); [intros x Hx; apply Hls; by right|].
    destruct (level_bloom_ok db n l rs He Hn ltac:(apply Hls; by left)) as (b & Eb & [Hl Hb]).
    exists ((mipmapKey n l, b) :: puts). split; [apply mapM_Some in E; apply mapM_Some; by constructor|]. constructor; [|done].
    unfold put_ok; cbn [fst snd]. split_and!; [| |split; [done|lia]|left; lia].
    - right; right; left. exists 109. split; [done|]. set_solver.
    - intros h Hh Eh. by destruct (hashKey_shape _ h Hh Eh). }
  destruct (H MIPMapLevels ltac:(done)) as (puts & -> & Hp). cbn [mbind option_bind]. eexists. split; [done|]. by apply batch_fine.
Qed.

(** Preimages and the entries of states. *)
Lemma WritePreimages_fine ps db : entries_ok db -> Forall (fun p => value_fine p.2) ps -> fine hs db (WritePreimages ps db).
Proof.
  intros He Hp. unfold WritePreimages. apply batch_fine; [done| |done].
  induction Hp as [|[k v] ps Hv _ IH]; [done|]. cbn [omap list_omap]. destruct (db !! (preimagePrefix ++ k)); [done|]. constructor; [|done].
  unfold put_ok; cbn [fst snd]. split_and!; [| |done|right; by left].
  - right; right; left. exists 115. split; [done|]. set_solver.
  - intros h Hh Eh. by destruct (hashKey_shape _ h Hh Eh).
Qed.
Lemma state_puts_fine puts db : entries_ok db ->
  Forall (fun p => (zlen p.1 = 32 \/ head p.1 = Some 115) /\ value_fine p.2) puts -> fine hs db (batch_Write puts db).
Proof.
  intros He Hp. apply batch_fine; [done| |done]. eapply Forall_impl; [exact Hp|]. intros [k v] [Hk Hv]. unfold put_ok; cbn [fst snd] in *.
  split_and!; [| |done|destruct Hk as [->|H]; [right; right; lia|right; left; by rewrite H]].
  - destruct Hk as [Hk|Hk]; [by left|]. right; right; left. exists 115. split; [done|]. set_solver.
  - intros h Hh Eh. destruct (hashKey_shape _ h Hh Eh) as [E1 E2]. destruct Hk as [Hk|Hk]; [lia|congruence].
Qed.
End blooms.
