(* ===== verification/Genesis.v ===== *)
(** [core/genesis.go] and the chain configuration of [params/config.go].

    The accounts of a genesis block are written to a fresh state through the methods of the
    state database; [alloc] is a Go map, given here in the order in which the loops meet its
    entries.  The decoder of JSON and the built-in main-net allocation are arguments. *)
From S2P Require Import Prelude GoBig CommonMath CommonTypes Params Rlp RlpDecode VmTypes StateSpec StateTransition BlockState.
From S2P Require Import TxTypes BlockTypes DeriveSha ChainDb.

(** ** params/config.go *)
Module Config.

(** [Tilthash] is whether the pointer to the empty struct is set. *)
Record ChainConfig := { ChainId : option Z; Tilthash : bool }.
#[export] Instance ChainConfig_eq_dec : EqDecision ChainConfig.
Proof. solve_decision. Defined.

Definition MainnetChainConfig : ChainConfig := {| ChainId := Some 1; Tilthash := true |}.
Definition TestnetChainConfig : ChainConfig := {| ChainId := Some 2; Tilthash := true |}.
Definition AllProtocolChanges : ChainConfig := {| ChainId := Some 999; Tilthash := true |}.

Definition isForked (s head : option Z) : bool :=
  match s, head with
  | Some s, Some head => s <=? head
  | _, _ => false
  end.
Definition configNumEqual (x y : option Z) : bool :=
  match x, y with
  | None, None => true
  | Some x, Some y => x =? y
  | _, _ => false
  end.
Definition isForkIncompatible (s1 s2 head : option Z) : bool :=
  (isForked s1 head || isForked s2 head) && negb (configNumEqual s1 s2).

Record ConfigCompatError := { StoredConfig : option Z; NewConfig : option Z; RewindTo : Z }.
Definition newCompatError (storedblock newblock : option Z) : ConfigCompatError :=
  let rew := match storedblock, newblock with
             | None, _ => newblock
             | Some _, None => storedblock
             | Some s, Some n => if s <? n then storedblock else newblock
             end in
  {| StoredConfig := storedblock; NewConfig := newblock;
     RewindTo := match rew with
                 | Some r => if r >? 0 then u64 (Big.Uint64 r - 1) else 0
                 | None => 0
                 end |}.

(** This chain has no forks. *)
Definition checkCompatible (c : ChainConfig) (newcfg : option ChainConfig) (head : Z) : option ConfigCompatError := None.

(** The loop descends to the lowest conflict; [None] of the outer option is out of fuel. *)
Fixpoint compat_loop (fuel : nat) (c : ChainConfig) (newcfg : option ChainConfig) (bhead : Z) (lasterr : option ConfigCompatError)
  : option (option ConfigCompatError) :=
  match checkCompatible c newcfg bhead with
  | None => Some lasterr
  | Some err =>
      if match lasterr with Some l => RewindTo err =? RewindTo l | None => false end then Some lasterr
      else match fuel with
           | O => None
           | S fuel => compat_loop fuel c newcfg (RewindTo err) (Some err)
           end
  end.
Definition CheckCompatible (c : ChainConfig) (newcfg : option ChainConfig) (height : Z) : option (option ConfigCompatError) :=
  compat_loop (S (Z.to_nat height)) c newcfg height None.

Lemma CheckCompatible_none c newcfg height : CheckCompatible c newcfg height = Some None.
Proof. done. Qed.
End Config.
Import Config.

(** ** encoding/json of a configuration *)

(** The decimal digits of a number, after those of [acc]. *)
Fixpoint decimal (fuel : nat) (x : Z) (acc : bytes) : bytes :=
  match fuel with
  | O => acc
  | S fuel => let acc := (48 + x mod 10) :: acc in if x / 10 =? 0 then acc else decimal fuel (x / 10) acc
  end.
Definition big_json (x : option Z) : bytes :=
  match x with
  | None => [110; 117; 108; 108]
  | Some x => (if x <? 0 then [45] else []) ++ decimal (S (Z.to_nat (Z.log2 (Z.abs x)))) (Z.abs x) []
  end.
(** [{"chainId":], [,"tilthash":{}] and [}] *)
Definition json_chainId : bytes := [123; 34; 99; 104; 97; 105; 110; 73; 100; 34; 58].
Definition json_tilthash : bytes := [44; 34; 116; 105; 108; 116; 104; 97; 115; 104; 34; 58; 123; 125].
Definition Marshal (c : ChainConfig) : bytes :=
  json_chainId ++ big_json (ChainId c) ++ (if Tilthash c then json_tilthash else []) ++ [125].

(** [json.Unmarshal] *)
Class Json := { Unmarshal : bytes -> option ChainConfig }.

(** [configPrefix] *)
Definition configPrefix : bytes := [116; 105; 108; 116; 110; 101; 116; 45; 99; 111; 110; 102; 105; 103; 45].
Definition WriteChainConfig (hash : Hash) (cfg : option ChainConfig) (db : Db) : Db :=
  match cfg with
  | None => db
  | Some cfg => <[configPrefix ++ hash := Marshal cfg]> db
  end.

Inductive genErr :=
| ChainConfigNotFoundErr
| genJson
| errGenesisNoConfig
| GenesisMismatchError (stored new : Hash)
| genMissingNumber
| genCompat (e : ConfigCompatError)
| genState (e : Z)
| genRlp (e : rlperr).

Definition GetChainConfig `{Json} (db : Db) (hash : Hash) : genErr + ChainConfig :=
  let jsonChainConfig := db_get db (configPrefix ++ hash) in
  if zlen jsonChainConfig =? 0 then inl ChainConfigNotFoundErr
  else match Unmarshal jsonChainConfig with
       | None => inl genJson
       | Some c => inr c
       end.

(** ** core/genesis.go *)

Record GenesisAccount := {
  ga_Code : bytes;
  ga_Storage : list (Hash * Hash);
  ga_Balance : Z;
  ga_Nonce : Z;
}.

Record Genesis := {
  gen_Config : option ChainConfig;
  gen_Nonce : Z;
  gen_Timestamp : Z;
  gen_ParentHash : Hash;
  gen_ExtraData : bytes;
  gen_GasLimit : Z;
  gen_Difficulty : option Z;
  gen_Mixhash : Hash;
  gen_Coinbase : Address;
  gen_Alloc : list (Address * GenesisAccount);
}.

(** [state.New(common.Hash{}, db)] on an empty database, and [CommitTo]. *)
Class GenesisState (S : Type) := {
  gs_New : S;
  gs_CommitTo : S -> Db -> outcome Z Hash * Db;
}.

Section genesis.
Context {S : Type} {SD : StateDB S} {CR : Crypto} {BS : BlockState S} {GS : GenesisState S} {J : Json}.

Definition alloc_account (s : S) (e : Address * GenesisAccount) : S :=
  let '(addr, account) := e in
  let s := AddBalance addr (ga_Balance account) s in
  let s := SetCode addr (ga_Code account) s in
  let s := SetNonce addr (ga_Nonce account) s in
  fold_left (fun s kv => SetState addr kv.1 kv.2 s) (ga_Storage account) s.

(** [None] is a panic. *)
Definition ToBlock (g : Genesis) : option (Types.Block * S) :=
  let statedb := fold_left alloc_account (gen_Alloc g) gs_New in
  '(root, statedb) ← bs_IntermediateRoot statedb;
  let head := {|
    Types.Nonce := Types.EncodeNonce (gen_Nonce g);
    Types.Time := gen_Timestamp g;
    Types.ParentHash := gen_ParentHash g;
    Types.Extra := gen_ExtraData g;
    Types.GasLimit := if gen_GasLimit g =? 0 then Params.GenesisGasLimit else gen_GasLimit g;
    Types.Difficulty := default Params.GenesisDifficulty (gen_Difficulty g);
    Types.MixDigest := gen_Mixhash g;
    Types.Coinbase := gen_Coinbase g;
    Types.Root := root;
    Types.UncleHash := Common.zeroHash; Types.TxHash := Common.zeroHash; Types.ReceiptHash := Common.zeroHash;
    Types.Bloom := zeros Bloom.bloomLength; Types.Number := 0; Types.GasUsed := 0 |} in
  block ← NewBlock head [] [] [];
  Some (block, statedb).

Abbreviation M := (SM Db genErr).

Definition gen_write (f : Db -> outcome rlperr Db) : M unit := fun db =>
  match f db with
  | Done db => (Done tt, db)
  | Error e => (Error (genRlp e), db)
  | Panic => (Panic, db)
  | NoFuel => (NoFuel, db)
  end.
Definition gen_CommitTo (s : S) : M unit := fun db =>
  match gs_CommitTo s db with
  | (Done _, db) => (Done tt, db)
  | (Error e, db) => (Error (genState e), db)
  | (Panic, db) => (Panic, db)
  | (NoFuel, db) => (NoFuel, db)
  end.

(** The total difficulty is the field of [g]: a nil integer is encoded as zero. *)
Definition Commit (g : Genesis) : M Types.Block :=
  '(block, statedb) ← unwrap (ToBlock g);
  let hash := Types.Block_Hash block in
  let number := Types.NumberU64 block in
  _ ← gen_CommitTo statedb;
  _ ← gen_write (WriteTd hash number (default 0 (gen_Difficulty g)));
  _ ← gen_write (WriteBlock block);
  _ ← gen_write (WriteBlockReceipts hash number []);
  _ ← modify (WriteCanonicalHash hash number);
  _ ← modify (WriteHeadBlockHash hash);
  _ ← modify (WriteHeadHeaderHash hash);
  let config := default AllProtocolChanges (gen_Config g) in
  _ ← modify (WriteChainConfig hash (Some config));
  mret block.

Definition MustCommit (g : Genesis) : M Types.Block := fun db =>
  match Commit g db with
  | (Error _, db) => (Panic, db)
  | r => r
  end.

(** [params/util.go] *)
Definition TestNetGenesisHash : Hash := Big.be_fixed 32 0x41941023680923e0fe4d74a34bdac8141f2540e3ae90623718e47d66d1ca4a2d.
Definition MainNetGenesisHash : Hash := Big.be_fixed 32 0xd4e56740f876aef8c010b86a40d5f56745a118d0906a34e69aec8c0db1cb8fa3.

Definition configOrDefault (g : option Genesis) (ghash : Hash) : option ChainConfig :=
  match g with
  | Some g => gen_Config g
  | None =>
      if bool_decide (ghash = MainNetGenesisHash) then Some MainnetChainConfig
      else if bool_decide (ghash = TestNetGenesisHash) then Some TestnetChainConfig
      else Some AllProtocolChanges
  end.

(** The built-in main-net block. *)
Variable DefaultGenesisBlock : Genesis.

(** [Commit] returns a nil block with an error, whose hash is then taken. *)
Definition first_genesis (g : Genesis) : M (option ChainConfig * Hash * option genErr) := fun db =>
  match Commit g db with
  | (Done block, db) => (Done (gen_Config g, Types.Block_Hash block, None), db)
  | (Error _, db) => (Panic, db)
  | (Panic, db) => (Panic, db)
  | (NoFuel, db) => (NoFuel, db)
  end.

(** The configuration is returned with the error. *)
Definition update_config (genesis : option Genesis) (stored : Hash) : M (option ChainConfig * Hash * option genErr) :=
  let newcfg := configOrDefault genesis stored in
  db ← gets (fun db => db);
  match GetChainConfig db stored with
  | inl ChainConfigNotFoundErr => _ ← modify (WriteChainConfig stored newcfg); mret (newcfg, stored, None)
  | inl e => mret (newcfg, stored, Some e)
  | inr storedcfg =>
      if bool_decide (genesis = None) && negb (bool_decide (stored = MainNetGenesisHash)) then mret (Some storedcfg, stored, None)
      else
        height ← unwrap (GetBlockNumber db (GetHeadHeaderHash db));
        if height =? missingNumber then mret (newcfg, stored, Some genMissingNumber)
        else
          match CheckCompatible storedcfg newcfg height with
          | None => fun db => (NoFuel, db)
          | Some (Some compatErr) =>
              if negb (height =? 0) && negb (RewindTo compatErr =? 0) then mret (newcfg, stored, Some (genCompat compatErr))
              else _ ← modify (WriteChainConfig stored newcfg); mret (newcfg, stored, None)
          | Some None => _ ← modify (WriteChainConfig stored newcfg); mret (newcfg, stored, None)
          end
  end.

Definition no_config (genesis : option Genesis) : bool :=
  match genesis with
  | Some g => match gen_Config g with None => true | Some _ => false end
  | None => false
  end.

Definition SetupGenesisBlock (genesis : option Genesis) : M (option ChainConfig * Hash * option genErr) :=
  if no_config genesis then mret (Some AllProtocolChanges, Common.zeroHash, Some errGenesisNoConfig)
  else
    stored ← gets (fun db => GetCanonicalHash db 0);
    if bool_decide (stored = Common.zeroHash) then first_genesis (default DefaultGenesisBlock genesis)
    else
      match genesis with
      | Some g =>
          '(block, _) ← unwrap (ToBlock g);
          let hash := Types.Block_Hash block in
          if negb (bool_decide (hash = stored)) then mret (gen_Config g, hash, Some (GenesisMismatchError stored hash))
          else update_config genesis stored
      | None => update_config genesis stored
      end.
End genesis.
