(* ===== verification/HeaderChain.v ===== *)
(** [core/headerchain.go]: the chain of headers.

    The caches are [golang-lru]'s, the class [Lru]; [mrand.Float64() < 0.5] is the
    argument [coin], the random numbers of [ValidateHeaderChain] the argument [intn].
    [Panic] is a nil dereference, an index out of range or [log.Crit]; the consensus
    engine is an argument. *)
From S2P Require Import Prelude GoBig CommonMath CommonTypes Rlp RlpDecode VmTypes StateTransition TxTypes BlockTypes.
From S2P Require Import ChainDb.
Import Types.

(** ** github.com/hashicorp/golang-lru *)

Class Lru := {
  lru : Type -> Type;
  lru_New {V} : Z -> lru V;
  lru_Get {V} : Hash -> lru V -> option V * lru V;
  lru_Add {V} : Hash -> V -> lru V -> lru V;
  lru_Remove {V} : Hash -> lru V -> lru V;
  lru_Contains {V} : Hash -> lru V -> bool;
  lru_Purge {V} : lru V -> lru V;
}.

(** A cache holds some of what was added since it was last purged, each key with its
    last value; [Get] changes only the order of eviction. *)
Class LruOk `{Lru} := {
  contents {V} : lru V -> gmap Hash V;
  contents_New {V} n : contents (lru_New n : lru V) = ∅;
  contents_Get {V} k (c : lru V) : (lru_Get k c).1 = contents c !! k /\ contents (lru_Get k c).2 = contents c;
  contents_Add {V} k (v : V) c k' v' : contents (lru_Add k v c) !! k' = Some v' ->
    (k' = k /\ v' = v) \/ (k' <> k /\ contents c !! k' = Some v');
  contents_Remove {V} k (c : lru V) : contents (lru_Remove k c) = delete k (contents c);
  contents_Contains {V} k (c : lru V) : lru_Contains k c = bool_decide (is_Some (contents c !! k));
  contents_Purge {V} (c : lru V) : contents (lru_Purge c) = ∅;
}.

Inductive chainErr :=
| ErrNoGenesis
| ErrUnknownAncestor
| errNonContiguous (i : Z)
| errAborted
| errEngine (e : Z).

Inductive WriteStatus := NonStatTy | CanonStatTy | SideStatTy.

Definition headerCacheLimit : Z := 512.
Definition tdCacheLimit : Z := 1024.
Definition numberCacheLimit : Z := 2048.

Section headerchain.
Context {CR : Crypto} {LR : Lru}.

Record HeaderChain := {
  chainDb : Db;
  genesisHeader : option Header;
  currentHeader : option Header;
  currentHeaderHash : Hash;
  headerCache : lru Header;
  tdCache : lru Z;
  numberCache : lru Z;
}.

Abbreviation M := (SM HeaderChain chainErr).

(** Field assignments. *)
Definition set_chainDb (db : Db) (hc : HeaderChain) : HeaderChain :=
  {| chainDb := db; genesisHeader := genesisHeader hc; currentHeader := currentHeader hc;
     currentHeaderHash := currentHeaderHash hc; headerCache := headerCache hc; tdCache := tdCache hc;
     numberCache := numberCache hc |}.
Definition set_current (h : option Header) (hash : Hash) (hc : HeaderChain) : HeaderChain :=
  {| chainDb := chainDb hc; genesisHeader := genesisHeader hc; currentHeader := h;
     currentHeaderHash := hash; headerCache := headerCache hc; tdCache := tdCache hc;
     numberCache := numberCache hc |}.
Definition set_caches (h : lru Header) (t n : lru Z) (hc : HeaderChain) : HeaderChain :=
  {| chainDb := chainDb hc; genesisHeader := genesisHeader hc; currentHeader := currentHeader hc;
     currentHeaderHash := currentHeaderHash hc; headerCache := h; tdCache := t; numberCache := n |}.
Definition SetGenesis (h : option Header) (hc : HeaderChain) : HeaderChain :=
  {| chainDb := chainDb hc; genesisHeader := h; currentHeader := currentHeader hc;
     currentHeaderHash := currentHeaderHash hc; headerCache := headerCache hc; tdCache := tdCache hc;
     numberCache := numberCache hc |}.
Definition on_db (f : Db -> Db) : M unit := modify (fun hc => set_chainDb (f (chainDb hc)) hc).
(** A write whose error ends the process. *)
Definition or_crit (f : Db -> outcome rlperr Db) : M unit := fun hc =>
  match f (chainDb hc) with
  | Done db => (Done tt, set_chainDb db hc)
  | _ => (Panic, hc)
  end.

(** ** Reading *)

Definition hc_GetBlockNumber (hash : Hash) : M Z := fun hc =>
  let '(cached, c) := lru_Get hash (numberCache hc) in
  let hc := set_caches (headerCache hc) (tdCache hc) c hc in
  match cached with
  | Some n => (Done n, hc)
  | None =>
      match GetBlockNumber (chainDb hc) hash with
      | None => (Panic, hc)
      | Some number =>
          (Done number,
           if number =? missingNumber then hc
           else set_caches (headerCache hc) (tdCache hc) (lru_Add hash number (numberCache hc)) hc)
      end
  end.

Definition hc_GetTd (hash : Hash) (number : Z) : M (option Z) := fun hc =>
  let '(cached, c) := lru_Get hash (tdCache hc) in
  let hc := set_caches (headerCache hc) c (numberCache hc) hc in
  match cached with
  | Some td => (Done (Some td), hc)
  | None =>
      match GetTd (chainDb hc) hash number with
      | None => (Done None, hc)
      | Some td => (Done (Some td), set_caches (headerCache hc) (lru_Add hash td (tdCache hc)) (numberCache hc) hc)
      end
  end.

Definition hc_GetHeader (hash : Hash) (number : Z) : M (option Header) := fun hc =>
  let '(cached, c) := lru_Get hash (headerCache hc) in
  let hc := set_caches c (tdCache hc) (numberCache hc) hc in
  match cached with
  | Some h => (Done (Some h), hc)
  | None =>
      match GetHeader (chainDb hc) hash number with
      | None => (Done None, hc)
      | Some h => (Done (Some h), set_caches (lru_Add hash h (headerCache hc)) (tdCache hc) (numberCache hc) hc)
      end
  end.

Definition hc_GetTdByHash (hash : Hash) : M (option Z) := n ← hc_GetBlockNumber hash; hc_GetTd hash n.
Definition hc_GetHeaderByHash (hash : Hash) : M (option Header) := n ← hc_GetBlockNumber hash; hc_GetHeader hash n.
Definition HasHeader (hash : Hash) : M bool := h ← hc_GetHeaderByHash hash; mret (bool_decide (is_Some h)).
Definition hc_GetHeaderByNumber (number : Z) : M (option Header) :=
  hash ← gets (fun hc => GetCanonicalHash (chainDb hc) number);
  if bool_decide (hash = Common.zeroHash) then mret None else hc_GetHeader hash number.

(** [fuel] is [max]. *)
Fixpoint hashes_loop (fuel : nat) (h : Header) : M (list Hash) :=
  match fuel with
  | O => mret []
  | S fuel =>
      let next := ParentHash h in
      h ← hc_GetHeader next (u64 (Big.Uint64 (Number h) - 1));
      match h with
      | None => mret []
      | Some h => if Big.Sign (Number h) =? 0 then mret [next] else rest ← hashes_loop fuel h; mret (next :: rest)
      end
  end.
Definition GetBlockHashesFromHash (hash : Hash) (max : Z) : M (list Hash) :=
  h ← hc_GetHeaderByHash hash;
  match h with
  | None => mret []
  | Some h => hashes_loop (Z.to_nat max) h
  end.

(** ** Writing *)

Definition hc_WriteTd (hash : Hash) (number td : Z) : M unit :=
  _ ← or_crit (WriteTd hash number td);
  modify (fun hc => set_caches (headerCache hc) (lru_Add hash td (tdCache hc)) (numberCache hc) hc).

(** [for i := number + 1; ; i++]: every round but the last finds an entry. *)
Fixpoint uncanon_loop (fuel : nat) (i : Z) : M unit :=
  match fuel with
  | O => fun hc => (NoFuel, hc)
  | S fuel =>
      hash ← gets (fun hc => GetCanonicalHash (chainDb hc) i);
      if bool_decide (hash = Common.zeroHash) then mret tt
      else _ ← on_db (DeleteCanonicalHash i); uncanon_loop fuel (u64 (i + 1))
  end.

(** [for GetCanonicalHash(headNumber) != headHash]: the number falls in every round. *)
Fixpoint recanon_loop (fuel : nat) (headHash : Hash) (headNumber : Z) (headHeader : option Header) : M unit :=
  match fuel with
  | O => fun hc => (NoFuel, hc)
  | S fuel =>
      hash ← gets (fun hc => GetCanonicalHash (chainDb hc) headNumber);
      if bool_decide (hash = headHash) then mret tt
      else
        _ ← on_db (WriteCanonicalHash headHash headNumber);
        h ← unwrap headHeader;
        let headHash := ParentHash h in
        let headNumber := u64 (Big.Uint64 (Number h) - 1) in
        headHeader ← hc_GetHeader headHash headNumber;
        recanon_loop fuel headHash headNumber headHeader
  end.

(** The branch that makes [h] the head. *)
Definition make_head (h : Header) : M WriteStatus :=
  let hash := Hash_ h in
  let number := Big.Uint64 (Number h) in
  entries ← gets (fun hc => size (chainDb hc));
  _ ← uncanon_loop (S entries) (u64 (number + 1));
  let headHash := ParentHash h in
  let headNumber := u64 (number - 1) in
  headHeader ← hc_GetHeader headHash headNumber;
  _ ← recanon_loop (S (Z.to_nat number)) headHash headNumber headHeader;
  _ ← on_db (WriteCanonicalHash hash number);
  _ ← on_db (WriteHeadHeaderHash hash);
  _ ← modify (set_current (Some h) hash);
  mret CanonStatTy.

Definition hc_WriteHeader (h : Header) (coin : bool) : M WriteStatus :=
  let hash := Hash_ h in
  let number := Big.Uint64 (Number h) in
  ptd ← hc_GetTd (ParentHash h) (u64 (number - 1));
  match ptd with
  | None => throw ErrUnknownAncestor
  | Some ptd =>
      cur ← gets currentHeader; cur ← unwrap cur;
      curHash ← gets currentHeaderHash;
      localTd ← hc_GetTd curHash (Big.Uint64 (Number cur));
      let externTd := Difficulty h + ptd in
      _ ← hc_WriteTd hash number externTd;
      _ ← or_crit (WriteHeader h);
      localTd ← unwrap localTd;
      status ←
        (if (externTd >? localTd) || ((externTd =? localTd) && coin) then make_head h
         else mret SideStatTy);
      _ ← modify (fun hc => set_caches (lru_Add hash h (headerCache hc)) (tdCache hc)
                              (lru_Add hash number (numberCache hc)) hc);
      mret status
  end.

Definition SetCurrentHeader (h : Header) : M unit :=
  _ ← on_db (WriteHeadHeaderHash (Hash_ h)); modify (set_current (Some h) (Hash_ h)).

(** [delFn] is called before each header is deleted. *)
Fixpoint sethead_loop (fuel : nat) (head : Z) (delFn : Hash -> Z -> Db -> Db) : M unit :=
  match fuel with
  | O => fun hc => (NoFuel, hc)
  | S fuel =>
      cur ← gets currentHeader;
      match cur with
      | None => mret tt
      | Some h =>
          if Big.Uint64 (Number h) >? head then
            let hash := Hash_ h in
            let num := Big.Uint64 (Number h) in
            _ ← on_db (delFn hash num);
            _ ← on_db (DeleteHeader hash num);
            _ ← on_db (DeleteTd hash num);
            p ← hc_GetHeader (ParentHash h) (u64 (num - 1));
            _ ← modify (fun hc => set_current p (currentHeaderHash hc) hc);
            sethead_loop fuel head delFn
          else mret tt
      end
  end.

(** [for i := height; i > head; i--] *)
Fixpoint rollback_loop (n : nat) (i : Z) : M unit :=
  match n with
  | O => mret tt
  | S n => _ ← on_db (DeleteCanonicalHash i); rollback_loop n (i - 1)
  end.

Definition SetHead (head : Z) (delFn : Hash -> Z -> Db -> Db) : M unit :=
  cur ← gets currentHeader;
  let height := match cur with Some h => Big.Uint64 (Number h) | None => 0 end in
  _ ← sethead_loop (S (Z.to_nat (height - head))) head delFn;
  _ ← rollback_loop (Z.to_nat (height - head)) height;
  _ ← modify (fun hc => set_caches (lru_Purge (headerCache hc)) (lru_Purge (tdCache hc)) (lru_Purge (numberCache hc)) hc);
  _ ← modify (fun hc => match currentHeader hc with
                         | None => set_current (genesisHeader hc) (currentHeaderHash hc) hc
                         | Some _ => hc end);
  cur ← gets currentHeader; h ← unwrap cur;
  _ ← modify (set_current (Some h) (Hash_ h));
  on_db (WriteHeadHeaderHash (Hash_ h)).

(** The genesis header and the header of the head block. *)
Definition load_head : M unit :=
  g ← hc_GetHeaderByNumber 0;
  match g with
  | None => throw ErrNoGenesis
  | Some g =>
      _ ← modify (SetGenesis (Some g));
      _ ← modify (fun hc => set_current (Some g) (currentHeaderHash hc) hc);
      head ← gets (fun hc => GetHeadBlockHash (chainDb hc));
      _ ← (if bool_decide (head = Common.zeroHash) then mret tt
           else
             chead ← hc_GetHeaderByHash head;
             match chead with
             | None => mret tt
             | Some h => modify (fun hc => set_current (Some h) (currentHeaderHash hc) hc)
             end);
      cur ← gets currentHeader; cur ← unwrap cur;
      modify (set_current (Some cur) (Hash_ cur))
  end.
Definition new_chain (db : Db) : HeaderChain :=
  {| chainDb := db; genesisHeader := None; currentHeader := None; currentHeaderHash := Common.zeroHash;
     headerCache := lru_New headerCacheLimit; tdCache := lru_New tdCacheLimit;
     numberCache := lru_New numberCacheLimit |}.
Definition NewHeaderChain (db : Db) : outcome chainErr HeaderChain :=
  match load_head (new_chain db) with
  | (Done _, hc) => Done hc
  | (Error e, _) => Error e
  | (Panic, _) => Panic
  | (NoFuel, _) => NoFuel
  end.

(** ** Inserting a chain *)

(** The check that the headers are ordered and linked; the index of the first that is
    not linked. *)
Fixpoint contiguous_from (i : Z) (prev : Header) (chain : list Header) : option Z :=
  match chain with
  | [] => None
  | h :: chain =>
      if negb (Big.Uint64 (Number h) =? u64 (Big.Uint64 (Number prev) + 1)) || negb (bool_decide (ParentHash h = Hash_ prev))
      then Some i else contiguous_from (i + 1) h chain
  end.

(** Which seals are checked: one at random of every [checkFreq], and the last. *)
Fixpoint mark_seals (n : nat) (i checkFreq len : Z) (intn : Z -> Z) (seals : list bool) : list bool :=
  match n with
  | O => seals
  | S n =>
      let index := i * checkFreq + intn i in
      let index := if len <=? index then len - 1 else index in
      mark_seals n (i + 1) checkFreq len intn (<[Z.to_nat index := true]> seals)
  end.

(** [None] is a panic: a division by zero, or the last element of an empty chain.
    [VerifyHeaders] is the engine's; its results come in order. *)
Definition ValidateHeaderChain (VerifyHeaders : list Header -> list bool -> list (option Z)) (interrupted : Z -> bool)
    (intn : Z -> Z) (chain : list Header) (checkFreq : Z) : option (Z * option chainErr) :=
  let bad := match chain with [] => None | h :: rest => contiguous_from 1 h rest end in
  match bad with
  | Some i => Some (0, Some (errNonContiguous i))
  | None =>
      let len := zlen chain in
      if (len =? 0) || (checkFreq =? 0) then None
      else
        let seals := mark_seals (Z.to_nat (len / checkFreq)) 0 checkFreq len intn (replicate (length chain) false) in
        let seals := <[Z.to_nat (len - 1) := true]> seals in
        let results := VerifyHeaders chain seals in
        let fix wait (i : Z) (rs : list (option Z)) :=
          match rs with
          | [] => (0, None)
          | r :: rs =>
              if interrupted i then (0, Some errAborted)
              else match r with Some e => (i, Some (errEngine e)) | None => wait (i + 1) rs end
          end in
        Some (wait 0 results)
  end.

(** [writeHeader] is the callback of the chain; [interrupted] is polled. *)
Fixpoint insert_loop (interrupted : Z -> bool) (writeHeader : Header -> M unit) (i : Z) (chain : list Header)
  : M (Z * option chainErr) :=
  match chain with
  | [] => mret (0, None)
  | h :: chain =>
      if interrupted i then mret (i, Some errAborted)
      else
        known ← hc_GetHeader (Hash_ h) (Big.Uint64 (Number h));
        match known with
        | Some _ => insert_loop interrupted writeHeader (i + 1) chain
        | None => fun hc =>
            match writeHeader h hc with
            | (Done _, hc) => insert_loop interrupted writeHeader (i + 1) chain hc
            | (Error e, hc) => (Done (i, Some e), hc)
            | (Panic, hc) => (Panic, hc)
            | (NoFuel, hc) => (NoFuel, hc)
            end
        end
  end.
Definition InsertHeaderChain (interrupted : Z -> bool) (writeHeader : Header -> M unit) (chain : list Header)
  : M (Z * option chainErr) :=
  r ← insert_loop interrupted writeHeader 0 chain;
  match r, chain with
  | (_, None), [] => crash
  | r, _ => mret r
  end.
End headerchain.
