(* ===== verification/HeaderChainOk.v ===== *)
(** The header chain keeps the heaviest known header and its ancestors canonical.

    [T] is the set of stored headers by hash, a tree below the genesis header [g].
    [hc_ok] says what the database and the caches hold for [T]; [canon_of T hd] is the
    numbering of the ancestors of [hd]. *)
From S2P Require Import Prelude GoBig CommonMath CommonTypes Rlp RlpDecode RlpDecodeOk RlpDecodeTheorems VmTypes.
From S2P Require Import StateTransition TxTypes BlockTypes ChainDb ChainDbOk HeaderChain.
Import Types.

(** ** Runs without error *)

Definition runs {St E A} (m : SM St E A) (s : St) (P : A -> St -> Prop) : Prop :=
  exists a s', m s = (Done a, s') /\ P a s'.

Section runs.
Context {St E : Type}.
Lemma runs_bind {A B} (m : SM St E A) (k : A -> SM St E B) s P :
  runs m s (fun a s' => runs (k a) s' P) -> runs (m ≫= k) s P.
Proof. intros (a & s' & Hm & b & s'' & Hb & HP). exists b, s''. split; [|done]. unfold mbind, SM_bind. by rewrite Hm. Qed.
Lemma runs_ret {A} (a : A) s (P : A -> St -> Prop) : P a s -> runs (mret a : SM St E A) s P.
Proof. intros H. by exists a, s. Qed.
Lemma runs_gets {A} (f : St -> A) s (P : A -> St -> Prop) : P (f s) s -> runs (gets f : SM St E A) s P.
Proof. intros H. by exists (f s), s. Qed.
Lemma runs_modify (f : St -> St) s (P : unit -> St -> Prop) : P tt (f s) -> runs (modify f : SM St E unit) s P.
Proof. intros H. by exists tt, (f s). Qed.
Lemma runs_unwrap {A} (a : A) s (P : A -> St -> Prop) : P a s -> runs (unwrap (Some a) : SM St E A) s P.
Proof. intros H. by exists a, s. Qed.
Lemma runs_mono {A} (m : SM St E A) s (P Q : A -> St -> Prop) : runs m s P -> (forall a s', P a s' -> Q a s') -> runs m s Q.
Proof. intros (a & s1 & Hm & HP) HPQ. exists a, s1. auto. Qed.
End runs.

(** ** Trees of headers *)

Section chain.
Context {CR : Crypto} {CK : CryptoOk} {LR : Lru} {LK : LruOk}.
Implicit Types (T : gmap Hash Header) (g h p a hd : Header) (k : Hash).

Record tree T g : Prop := {
  tree_hash k h : T !! k = Some h -> k = Hash_ h;
  tree_ok k h : T !! k = Some h -> header_ok h /\ Number h < 2 ^ 62 /\ Difficulty h < 2 ^ 256;
  tree_genesis : T !! Hash_ g = Some g /\ Number g = 0;
  tree_parent k h : T !! k = Some h -> h = g \/ exists p, T !! ParentHash h = Some p /\ Number h = Number p + 1;
  tree_zero : T !! Common.zeroHash = None;
}.

(** The sum of the difficulties down to the genesis header. *)
Inductive total T g : Header -> Z -> Prop :=
| total_genesis : total T g g (Difficulty g)
| total_child h p t : T !! ParentHash h = Some p -> Number h = Number p + 1 -> total T g p t ->
    total T g h (Difficulty h + t).

(** [d] steps towards the genesis header. *)
Fixpoint anc T (d : nat) (h : Header) : option Header :=
  match d with O => Some h | S d => T !! ParentHash h ≫= anc T d end.

Definition canon_of T hd (n : Z) : Hash :=
  if decide (0 <= n <= Number hd) then
    match anc T (Z.to_nat (Number hd - n)) hd with Some a => Hash_ a | None => Common.zeroHash end
  else Common.zeroHash.

Lemma tree_number T g k h : tree T g -> T !! k = Some h -> 0 <= Number h < 2 ^ 62.
Proof. intros Ht Hk. destruct (tree_ok _ _ Ht _ _ Hk) as (Hok & ? & _). apply header_ok_fields in Hok. lia. Qed.
Lemma tree_u64 T g k h : tree T g -> T !! k = Some h -> u64_ok (Number h).
Proof. intros Ht Hk. pose proof (tree_number _ _ _ _ Ht Hk). unfold u64_ok. lia. Qed.
Lemma tree_root T g k h : tree T g -> T !! k = Some h -> Number h = 0 -> h = g.
Proof.
  intros Ht Hk Hn. destruct (tree_parent _ _ Ht _ _ Hk) as [|(p & Hp & E)]; [done|].
  pose proof (tree_number _ _ _ _ Ht Hp). lia.
Qed.
Lemma tree_is_hash T g k h : tree T g -> T !! k = Some h -> is_hash k.
Proof. intros Ht Hk. rewrite (tree_hash _ _ Ht _ _ Hk). apply is_hash_array, Hash_array. Qed.

Lemma anc_add T d e h : anc T (d + e) h = anc T d h ≫= anc T e.
Proof.
  revert h. induction d as [|d IH]; intros h; [done|]. simpl. destruct (T !! ParentHash h); simpl; [apply IH|done].
Qed.

Lemma anc_Some T g h d : tree T g -> T !! Hash_ h = Some h -> Z.of_nat d <= Number h ->
  exists a, anc T d h = Some a /\ T !! Hash_ a = Some a /\ Number a = Number h - Z.of_nat d.
Proof.
  intros Ht. revert h. induction d as [|d IH]; intros h Hh Hd; [exists h; split_and!; [done..|lia]|].
  destruct (tree_parent _ _ Ht _ _ Hh) as [->|(p & Hp & E)]; [destruct (tree_genesis _ _ Ht); lia|].
  simpl. rewrite Hp. simpl. pose proof (tree_hash _ _ Ht _ _ Hp) as Hpk.
  destruct (IH p) as (a & ? & ? & ?); [by rewrite <- Hpk|lia|]. exists a. split_and!; [done..|lia].
Qed.

Lemma canon_anc T g h d a n : tree T g -> T !! Hash_ h = Some h -> anc T d h = Some a -> Z.of_nat d <= Number h ->
  n <= Number a -> canon_of T h n = canon_of T a n.
Proof.
  intros Ht Hh Ha Hd Hn. destruct (anc_Some T g h d Ht Hh Hd) as (a' & Ha' & _ & Hna). simplify_eq.
  unfold canon_of. destruct (decide (0 <= n <= Number h)).
  - rewrite decide_True by lia.
    replace (Z.to_nat (Number h - n)) with (d + Z.to_nat (Number a - n))%nat by lia. by rewrite anc_add, Ha.
  - by rewrite decide_False by lia.
Qed.

Lemma canon_top T hd : 0 <= Number hd -> canon_of T hd (Number hd) = Hash_ hd.
Proof. intros. unfold canon_of. rewrite decide_True, Z.sub_diag by lia. done. Qed.
Lemma canon_above T hd n : Number hd < n -> canon_of T hd n = Common.zeroHash.
Proof. intros. unfold canon_of. by rewrite decide_False by lia. Qed.

Lemma canon_below T g hd n : tree T g -> T !! Hash_ hd = Some hd -> 0 <= n <= Number hd ->
  exists a, canon_of T hd n = Hash_ a /\ T !! Hash_ a = Some a /\ Number a = n /\
    anc T (Z.to_nat (Number hd - n)) hd = Some a.
Proof.
  intros Ht Hh Hn. destruct (anc_Some T g hd (Z.to_nat (Number hd - n)) Ht Hh) as (a & Ha & HTa & Hna); [lia|].
  exists a. unfold canon_of. rewrite decide_True, Ha by lia. split_and!; [done..|lia|done].
Qed.

(** Headers in a larger tree. *)
Lemma anc_mono T T' d h a : T ⊆ T' -> anc T d h = Some a -> anc T' d h = Some a.
Proof.
  intros HT. revert h. induction d as [|d IH]; intros h; [done|]. simpl.
  destruct (T !! ParentHash h) as [p|] eqn:E; [|done]. rewrite (lookup_weaken _ _ _ _ E HT). simpl. auto.
Qed.
Lemma canon_mono T T' g hd n : tree T g -> T ⊆ T' -> T !! Hash_ hd = Some hd -> canon_of T' hd n = canon_of T hd n.
Proof.
  intros Ht HT Hh. destruct (decide (0 <= n <= Number hd)) as [Hn|Hn].
  - destruct (canon_below T g hd n Ht Hh Hn) as (a & -> & _ & _ & Ha). unfold canon_of.
    rewrite decide_True by done. by rewrite (anc_mono T T' _ _ _ HT Ha).
  - unfold canon_of. by rewrite !decide_False.
Qed.

Lemma total_mono T T' g h t : T ⊆ T' -> total T g h t -> total T' g h t.
Proof. intros HT. induction 1; [constructor|]. econstructor; [by eapply lookup_weaken|done..]. Qed.

Lemma total_fun T g h t t' : tree T g -> total T g h t -> total T g h t' -> t = t'.
Proof.
  intros Ht H. revert t'. induction H as [|h p t Hp Hn Htot IH]; intros t' H'.
  - inversion H' as [|h p t Hp Hn Htot]; subst; [done|]. pose proof (tree_number _ _ _ _ Ht Hp).
    destruct (tree_genesis _ _ Ht). lia.
  - inversion H' as [|h' p' t1 Hp' Hn' Htot']; subst.
    + pose proof (tree_number _ _ _ _ Ht Hp). destruct (tree_genesis _ _ Ht). lia.
    + simplify_eq. f_equal. auto.
Qed.

Lemma total_exists T g h : tree T g -> T !! Hash_ h = Some h -> exists t, total T g h t.
Proof.
  intros Ht. remember (Z.to_nat (Number h)) as n eqn:En. revert h En.
  induction n as [n IH] using lt_wf_ind. intros h -> Hh.
  destruct (tree_parent _ _ Ht _ _ Hh) as [->|(p & Hp & E)]; [eexists; constructor|].
  pose proof (tree_number _ _ _ _ Ht Hp). pose proof (tree_hash _ _ Ht _ _ Hp) as Hk. rewrite Hk in Hp.
  destruct (IH (Z.to_nat (Number p)) ltac:(lia) p eq_refl Hp) as [t Htot]. exists (Difficulty h + t).
  rewrite <- Hk in Hp. by econstructor.
Qed.

Lemma total_bound T g h t : tree T g -> T !! Hash_ h = Some h -> total T g h t -> 0 <= t < (Number h + 1) * 2 ^ 256.
Proof.
  intros Ht Hh H. induction H as [|h p t Hp Hn Htot IH]; destruct (tree_ok _ _ Ht _ _ Hh) as (Hok & _ & Hd);
    apply header_ok_fields in Hok as (_ & ? & ? & _).
  - destruct (tree_genesis _ _ Ht) as [_ ->]. lia.
  - pose proof (tree_hash _ _ Ht _ _ Hp) as Hk. rewrite Hk in Hp. specialize (IH Hp). lia.
Qed.

(** A header whose parent is stored extends the tree. *)
Definition extends T h : Prop :=
  header_ok h /\ Number h < 2 ^ 62 /\ Difficulty h < 2 ^ 256 /\ Hash_ h <> Common.zeroHash /\
  (T !! Hash_ h = None \/ T !! Hash_ h = Some h).

Lemma extend_sub T h : extends T h -> T ⊆ <[Hash_ h := h]> T.
Proof. intros (_ & _ & _ & _ & [H|H]); [by apply insert_subseteq|by rewrite insert_id]. Qed.

Lemma tree_extend T g h p : tree T g -> extends T h -> T !! ParentHash h = Some p -> Number h = Number p + 1 ->
  tree (<[Hash_ h := h]> T) g.
Proof.
  intros Ht Hx Hp Hn. pose proof (extend_sub T h Hx) as HT. destruct Hx as (Hok & Hb & Hd & Hz & _). split.
  - intros k x [[<- <-]|[_ Hk]]%lookup_insert_Some; [done|by eapply tree_hash].
  - intros k x [[<- <-]|[_ Hk]]%lookup_insert_Some; [done|by eapply tree_ok].
  - destruct (tree_genesis _ _ Ht) as [Hg ?]. split; [by eapply lookup_weaken|done].
  - intros k x [[<- <-]|[_ Hk]]%lookup_insert_Some; [right; exists p; split; [by eapply lookup_weaken|done]|].
    destruct (tree_parent _ _ Ht _ _ Hk) as [|(q & Hq & E)]; [by left|right; exists q].
    split; [by eapply lookup_weaken|done].
  - rewrite lookup_insert_ne by done. apply (tree_zero _ _ Ht).
Qed.

Lemma total_extend T g h p t x : tree T g -> extends T h -> T !! ParentHash h = Some p -> Number h = Number p + 1 ->
  T !! Hash_ x = Some x -> total (<[Hash_ h := h]> T) g x t <-> total T g x t.
Proof.
  intros Ht Hx Hp Hn Hk. pose proof (extend_sub T h Hx) as HT. split; [|by apply total_mono].
  intros H. destruct (total_exists T g x Ht Hk) as [t' H']. pose proof (total_mono _ _ _ _ _ HT H') as H''.
  by rewrite (total_fun _ _ _ _ _ (tree_extend _ _ _ _ Ht Hx Hp Hn) H H'').
Qed.

(** ** What the chain holds *)

Record hc_ok T g hd (f : Z -> Hash) (hc : HeaderChain) : Prop := {
  ok_tree : tree T g;
  ok_old : no_old (chainDb hc);
  ok_header k n h : is_hash k -> u64_ok n -> GetHeader (chainDb hc) k n = Some h <-> T !! k = Some h /\ n = Number h;
  ok_td k n t : is_hash k -> u64_ok n ->
    GetTd (chainDb hc) k n = Some t <-> exists h, T !! k = Some h /\ n = Number h /\ total T g h t;
  ok_number k h : T !! k = Some h -> GetBlockNumber (chainDb hc) k = Some (Number h);
  ok_canon n : u64_ok n -> GetCanonicalHash (chainDb hc) n = f n;
  ok_current : currentHeader hc = Some hd /\ currentHeaderHash hc = Hash_ hd /\ T !! Hash_ hd = Some hd;
  ok_headerCache k h : contents (headerCache hc) !! k = Some h -> T !! k = Some h;
  ok_tdCache k t : contents (tdCache hc) !! k = Some t -> exists h, T !! k = Some h /\ total T g h t;
  ok_numberCache k n : contents (numberCache hc) !! k = Some n -> exists h, T !! k = Some h /\ n = Number h;
}.

(** Only the caches differ. *)
Lemma hc_ok_caches T g hd f hc c1 c2 c3 : hc_ok T g hd f hc ->
  (forall k h, contents c1 !! k = Some h -> T !! k = Some h) ->
  (forall k t, contents c2 !! k = Some t -> exists h, T !! k = Some h /\ total T g h t) ->
  (forall k n, contents c3 !! k = Some n -> exists h, T !! k = Some h /\ n = Number h) ->
  hc_ok T g hd f (set_caches c1 c2 c3 hc).
Proof. intros [] ???. by split. Qed.

(** Only the database differs; numbers matter for stored headers. *)
Lemma hc_ok_reads T g hd f f' hc db : hc_ok T g hd f hc -> no_old db ->
  (forall k n, is_hash k -> GetHeader db k n = GetHeader (chainDb hc) k n) ->
  (forall k n, is_hash k -> GetTd db k n = GetTd (chainDb hc) k n) ->
  (forall k h, T !! k = Some h -> GetBlockNumber db k = GetBlockNumber (chainDb hc) k) ->
  (forall n, u64_ok n -> GetCanonicalHash db n = f' n) ->
  hc_ok T g hd f' (set_chainDb db hc).
Proof.
  intros [Ht] Hold H1 H2 H3 H4. split; simpl; try done.
  - intros k n h Hk Hn. rewrite H1 by done. auto.
  - intros k n t Hk Hn. rewrite H2 by done. auto.
  - intros k h Hk. rewrite (H3 k h) by done. auto.
Qed.
Lemma hc_ok_db T g hd f f' hc db : hc_ok T g hd f hc -> no_old db ->
  (forall k n, is_hash k -> GetHeader db k n = GetHeader (chainDb hc) k n) ->
  (forall k n, is_hash k -> GetTd db k n = GetTd (chainDb hc) k n) ->
  (forall k, is_hash k -> GetBlockNumber db k = GetBlockNumber (chainDb hc) k) ->
  (forall n, u64_ok n -> GetCanonicalHash db n = f' n) ->
  hc_ok T g hd f' (set_chainDb db hc).
Proof.
  intros Hok Hold H1 H2 H3 H4. eapply hc_ok_reads; try done. intros k h Hk. apply H3. eapply tree_is_hash; [|done].
  apply (ok_tree _ _ _ _ _ Hok).
Qed.

Lemma hc_ok_ext T g hd f f' hc : hc_ok T g hd f hc -> (forall n, u64_ok n -> f n = f' n) -> hc_ok T g hd f' hc.
Proof. intros [] E. split; try done. intros n Hn. rewrite <- E by done. auto. Qed.

Lemma contents_got {V} k (c : lru V) v c' : lru_Get k c = (v, c') -> v = contents c !! k /\ contents c' = contents c.
Proof. intros E. pose proof (contents_Get k c) as H. by rewrite E in H. Qed.

Lemma hc_GetTd_some T g hd f hc k h t : hc_ok T g hd f hc -> T !! k = Some h -> total T g h t ->
  runs (hc_GetTd k (Number h)) hc (fun r hc' => r = Some t /\ hc_ok T g hd f hc').
Proof.
  intros Hok Hk Ht. pose proof (ok_tree _ _ _ _ _ Hok) as Htree. unfold runs, hc_GetTd.
  destruct (lru_Get k (tdCache hc)) as [r c] eqn:E. apply contents_got in E as [-> E].
  destruct (contents (tdCache hc) !! k) as [t'|] eqn:Ec.
  - destruct (ok_tdCache _ _ _ _ _ Hok _ _ Ec) as (h' & ? & Ht'). simplify_eq.
    rewrite (total_fun _ _ _ _ _ Htree Ht Ht'). eexists _, _. split; [done|]. split; [done|].
    apply hc_ok_caches; [done|by destruct Hok|rewrite E|]; by destruct Hok.
  - cbn [chainDb set_caches]. assert (GetTd (chainDb hc) k (Number h) = Some t) as ->.
    { apply (ok_td _ _ _ _ _ Hok); [by eapply tree_is_hash|by eapply tree_u64|eauto]. }
    eexists _, _. split; [done|]. split; [done|]. apply hc_ok_caches; [apply hc_ok_caches|..]; try by destruct Hok.
    + rewrite E. by destruct Hok.
    + intros k' t' [[-> ->]|[_ H]]%contents_Add; [by exists h|]. simpl in H. rewrite E in H. by eapply ok_tdCache.
Qed.

Lemma hc_GetTd_none T g hd f hc k n : hc_ok T g hd f hc -> T !! k = None -> is_hash k -> u64_ok n ->
  runs (hc_GetTd k n) hc (fun r hc' => r = None /\ hc_ok T g hd f hc').
Proof.
  intros Hok Hk Hh Hn. unfold runs, hc_GetTd. destruct (lru_Get k (tdCache hc)) as [r c] eqn:E.
  apply contents_got in E as [-> E]. destruct (contents (tdCache hc) !! k) as [t'|] eqn:Ec.
  { destruct (ok_tdCache _ _ _ _ _ Hok _ _ Ec) as (h' & ? & _). simplify_eq. }
  cbn [chainDb set_caches]. destruct (GetTd (chainDb hc) k n) as [t|] eqn:Et.
  { apply (ok_td _ _ _ _ _ Hok) in Et as (h' & ? & _); [|done..]. simplify_eq. }
  eexists _, _. split; [done|]. split; [done|]. apply hc_ok_caches; try by destruct Hok. rewrite E. by destruct Hok.
Qed.

Lemma hc_GetHeader_some T g hd f hc k h : hc_ok T g hd f hc -> T !! k = Some h ->
  runs (hc_GetHeader k (Number h)) hc (fun r hc' => r = Some h /\ hc_ok T g hd f hc').
Proof.
  intros Hok Hk. pose proof (ok_tree _ _ _ _ _ Hok) as Htree. unfold runs, hc_GetHeader.
  destruct (lru_Get k (headerCache hc)) as [r c] eqn:E. apply contents_got in E as [-> E].
  destruct (contents (headerCache hc) !! k) as [h'|] eqn:Ec.
  - apply (ok_headerCache _ _ _ _ _ Hok) in Ec. simplify_eq. eexists _, _. split; [done|]. split; [done|].
    apply hc_ok_caches; [done|rewrite E|..]; by destruct Hok.
  - cbn [chainDb set_caches]. assert (GetHeader (chainDb hc) k (Number h) = Some h) as ->.
    { apply (ok_header _ _ _ _ _ Hok); [by eapply tree_is_hash|by eapply tree_u64|eauto]. }
    eexists _, _. split; [done|]. split; [done|]. apply hc_ok_caches; [apply hc_ok_caches|..]; try by destruct Hok.
    + rewrite E. by destruct Hok.
    + intros k' t' [[-> ->]|[_ H]]%contents_Add; [done|]. simpl in H. rewrite E in H. by eapply ok_headerCache.
Qed.

Lemma hc_GetHeader_none T g hd f hc k n : hc_ok T g hd f hc -> T !! k = None -> is_hash k -> u64_ok n ->
  runs (hc_GetHeader k n) hc (fun r hc' => r = None /\ hc_ok T g hd f hc').
Proof.
  intros Hok Hk Hh Hn. unfold runs, hc_GetHeader. destruct (lru_Get k (headerCache hc)) as [r c] eqn:E.
  apply contents_got in E as [-> E]. destruct (contents (headerCache hc) !! k) as [t'|] eqn:Ec.
  { apply (ok_headerCache _ _ _ _ _ Hok) in Ec. simplify_eq. }
  cbn [chainDb set_caches]. destruct (GetHeader (chainDb hc) k n) as [t|] eqn:Et.
  { apply (ok_header _ _ _ _ _ Hok) in Et as [? _]; [|done..]. simplify_eq. }
  eexists _, _. split; [done|]. split; [done|]. apply hc_ok_caches; try by destruct Hok. rewrite E. by destruct Hok.
Qed.

(** ** Writing *)

Lemma runs_crit (w : Db -> outcome rlperr Db) hc db (P : unit -> HeaderChain -> Prop) :
  w (chainDb hc) = Done db -> P tt (set_chainDb db hc) -> runs (or_crit w) hc P.
Proof. intros E HP. unfold runs, or_crit. rewrite E. eauto. Qed.

(** The state after [h] is stored with its total difficulty. *)
Lemma hc_ok_stored T g hd f hc h p t db c : hc_ok T g hd f hc -> extends T h -> T !! ParentHash h = Some p ->
  Number h = Number p + 1 -> total T g p t -> no_old db ->
  (forall k n, is_hash k -> u64_ok n -> GetTd db k n = if decide (k = Hash_ h /\ n = Number h) then Some (Difficulty h + t) else GetTd (chainDb hc) k n) ->
  (forall k n, is_hash k -> u64_ok n -> GetHeader db k n = if decide (k = Hash_ h /\ n = Number h) then Some h else GetHeader (chainDb hc) k n) ->
  (forall k, is_hash k -> GetBlockNumber db k = if decide (k = Hash_ h) then Some (Number h) else GetBlockNumber (chainDb hc) k) ->
  (forall m, GetCanonicalHash db m = GetCanonicalHash (chainDb hc) m) ->
  (forall k v, contents c !! k = Some v -> k = Hash_ h /\ v = Difficulty h + t \/ k <> Hash_ h /\ contents (tdCache hc) !! k = Some v) ->
  hc_ok (<[Hash_ h := h]> T) g hd f (set_chainDb db (set_caches (headerCache hc) c (numberCache hc) hc)).
Proof.
  intros Hok Hx Hp Hn Ht Hold HTd HHd HNm HCa Hc. pose proof (ok_tree _ _ _ _ _ Hok) as Htree.
  pose proof (tree_extend _ _ _ _ Htree Hx Hp Hn) as Htree'. pose proof (extend_sub T h Hx) as HT.
  assert (total (<[Hash_ h:=h]> T) g h (Difficulty h + t)) as Htot.
  { econstructor; [by eapply lookup_weaken|done|by eapply total_mono]. }
  assert (forall x v, T !! Hash_ x = Some x -> total (<[Hash_ h:=h]> T) g x v <-> total T g x v) as Hsame
    by (intros; by eapply total_extend).
  assert (forall k x, k <> Hash_ h -> <[Hash_ h:=h]> T !! k = Some x <-> T !! k = Some x) as Hne
    by (intros k x Hk; by rewrite lookup_insert_ne).
  split; simpl; try done.
  - intros k n x Hk Hu. rewrite HHd by done. case_decide as E; [destruct E as [-> ->]; rewrite lookup_insert_eq; naive_solver|].
    rewrite (ok_header _ _ _ _ _ Hok) by done. destruct (decide (k = Hash_ h)) as [->|]; [|by rewrite Hne].
    rewrite lookup_insert_eq. destruct Hx as (_ & _ & _ & _ & [->| ->]); naive_solver.
  - intros k n v Hk Hu. rewrite HTd by done. case_decide as E.
    + destruct E as [-> ->]. rewrite lookup_insert_eq. split; [intros [= <-]; eauto|]. intros (x & [= <-] & _ & Hv).
      by rewrite (total_fun _ _ _ _ _ Htree' Hv Htot).
    + rewrite (ok_td _ _ _ _ _ Hok) by done. apply exist_proper. intros x. destruct (decide (k = Hash_ h)) as [->|].
      * rewrite lookup_insert_eq. destruct Hx as (_ & _ & _ & _ & [->| ->]); naive_solver.
      * rewrite Hne by done. split; intros (Hkx & ? & ?); split_and!; try done;
          pose proof (tree_hash _ _ Htree _ _ Hkx); subst k; by apply Hsame.
  - intros k x Hk. rewrite HNm by (by eapply tree_is_hash). case_decide as E; [subst; rewrite lookup_insert_eq in Hk; naive_solver|].
    apply Hne in Hk; [|done]. by apply (ok_number _ _ _ _ _ Hok).
  - intros n Hu. rewrite HCa. by apply (ok_canon _ _ _ _ _ Hok).
  - destruct (ok_current _ _ _ _ _ Hok) as (? & ? & ?). split_and!; [done..|]. by eapply lookup_weaken.
  - intros k x Hk. eapply lookup_weaken; [|done]. by apply (ok_headerCache _ _ _ _ _ Hok).
  - intros k v [[-> ->]|[_ (x & Hk & Hv)%(ok_tdCache _ _ _ _ _ Hok)]]%Hc; [exists h; by rewrite lookup_insert_eq|].
    exists x. split; [by eapply lookup_weaken|by eapply total_mono].
  - intros k n (x & Hk & ->)%(ok_numberCache _ _ _ _ _ Hok). exists x. split; [by eapply lookup_weaken|done].
Qed.

Lemma store_header_ok T g hd f hc h p t : hc_ok T g hd f hc -> extends T h -> T !! ParentHash h = Some p ->
  Number h = Number p + 1 -> total T g p t ->
  runs (hc_WriteTd (Hash_ h) (Number h) (Difficulty h + t)) hc (fun _ hc1 =>
    runs (or_crit (WriteHeader h)) hc1 (fun _ hc' => hc_ok (<[Hash_ h := h]> T) g hd f hc')).
Proof.
  intros Hok Hx Hp Hn Ht. pose proof (ok_tree _ _ _ _ _ Hok) as Htree.
  pose proof (tree_extend _ _ _ _ Htree Hx Hp Hn) as Htree'. pose proof (extend_sub T h Hx) as HT.
  assert (total (<[Hash_ h:=h]> T) g h (Difficulty h + t)) as Htot.
  { econstructor; [by eapply lookup_weaken|done|by eapply total_mono]. }
  pose proof (lookup_insert_eq T (Hash_ h) h) as Hself.
  assert (td_ok (Difficulty h + t)) as Htd.
  { pose proof (total_bound _ _ _ _ Htree' Hself Htot). pose proof (tree_number _ _ _ _ Htree' Hself). unfold td_ok.
    change (2 ^ 4096) with (2 ^ 62 * 2 ^ 256 * 2 ^ 3778). nia. }
  pose proof (tree_u64 _ _ _ _ Htree' Hself) as Hu. pose proof (is_hash_array _ (Hash_array h)) as Hh.
  destruct (WriteTd_spec (chainDb hc) (Hash_ h) (Number h) _ (ok_old _ _ _ _ _ Hok) Hh Hu Htd)
    as (db1 & W1 & O1 & Td1 & Hd1 & Nm1 & Ca1).
  destruct (WriteHeader_spec db1 h O1 (proj1 Hx) Hu) as (db2 & W2 & O2 & Hd2 & Nm2 & Td2 & Ca2).
  unfold hc_WriteTd. apply runs_bind. eapply runs_crit; [exact W1|]. apply runs_modify.
  eapply runs_crit; [exact W2|]. eapply (hc_ok_stored _ _ _ _ hc _ p t); try done.
  - intros k n Hk Hn'. by rewrite Td2, Td1.
  - intros k n Hk Hn'. rewrite Hd2 by done. by rewrite Hd1.
  - intros k Hk. rewrite Nm2 by done. by rewrite Nm1.
  - intros m. by rewrite Ca2, Ca1.
  - intros k v. apply contents_Add.
Qed.

(** ** The canonical numbering *)

Lemma write_canon_ok T g hd f hc k n : hc_ok T g hd f hc -> Common.is_array 32 k -> u64_ok n ->
  hc_ok T g hd (fun m => if decide (m = n) then k else f m) (set_chainDb (WriteCanonicalHash k n (chainDb hc)) hc).
Proof.
  intros Hok Hk Hn. destruct (WriteCanonicalHash_spec _ k n (ok_old _ _ _ _ _ Hok) Hk Hn) as (? & Hc & ? & ? & ?).
  eapply hc_ok_db; try done. intros m Hm. rewrite Hc by done. by rewrite (ok_canon _ _ _ _ _ Hok).
Qed.
Lemma delete_canon_ok T g hd f hc n : hc_ok T g hd f hc -> u64_ok n ->
  hc_ok T g hd (fun m => if decide (m = n) then Common.zeroHash else f m) (set_chainDb (DeleteCanonicalHash n (chainDb hc)) hc).
Proof.
  intros Hok Hn. destruct (DeleteCanonicalHash_spec _ n (ok_old _ _ _ _ _ Hok) Hn) as (? & Hc & ? & ? & ?).
  eapply hc_ok_db; try done. intros m Hm. rewrite Hc by done. by rewrite (ok_canon _ _ _ _ _ Hok).
Qed.
Lemma write_head_ok T g hd f hc k : hc_ok T g hd f hc ->
  hc_ok T g hd f (set_chainDb (WriteHeadHeaderHash k (chainDb hc)) hc).
Proof.
  intros Hok. destruct (WriteHeadHeaderHash_spec _ k (ok_old _ _ _ _ _ Hok)) as (? & Hc & ? & ? & ?).
  eapply hc_ok_db; try done. intros m Hm. rewrite Hc by done. by rewrite (ok_canon _ _ _ _ _ Hok).
Qed.

Lemma set_current_ok T g hd f hc h : hc_ok T g hd f hc -> T !! Hash_ h = Some h ->
  hc_ok T g h f (set_current (Some h) (Hash_ h) hc).
Proof. intros [] Hh. by split. Qed.

(** A canonical entry is an entry of the database: its deletion makes it smaller. *)
Lemma delete_smaller db n : no_old db -> GetCanonicalHash db n <> Common.zeroHash -> (size (DeleteCanonicalHash n db) < size db)%nat.
Proof.
  intros Ho Hn. rewrite GetCanonicalHash_new in Hn by done. unfold DeleteCanonicalHash.
  destruct (db !! numKey n) as [v|] eqn:E.
  - rewrite <- (insert_delete_id db (numKey n) v E) at 2. rewrite map_size_insert_None by apply lookup_delete_eq. lia.
  - exfalso. apply Hn. unfold db_get. by rewrite E.
Qed.

Lemma uncanon_ok T g hd b fuel : forall f hc i, hc_ok T g hd f hc -> 0 <= i < 2 ^ 63 -> b < 2 ^ 62 ->
  (forall n, b < n -> f n = Common.zeroHash) -> (forall n, i <= n <= b -> f n <> Common.zeroHash) ->
  (size (chainDb hc) < fuel)%nat ->
  runs (uncanon_loop fuel i) hc (fun _ hc' =>
    hc_ok T g hd (fun n => if decide (i <= n) then Common.zeroHash else f n) hc').
Proof.
  induction fuel as [|fuel IH]; intros f hc i Hok Hi Hb Hz Hf Hs; [lia|]. simpl. apply runs_bind, runs_gets.
  assert (u64_ok i) as Hu by (unfold u64_ok; lia). rewrite (ok_canon _ _ _ _ _ Hok) by done. case_bool_decide as E.
  - apply runs_ret. eapply hc_ok_ext; [done|]. intros n _. case_decide; [|done]. destruct (decide (n <= b)); [|apply Hz; lia].
    exfalso. by apply (Hf i); [lia|].
  - assert (i <= b) by (destruct (decide (i <= b)); [done|]; exfalso; apply E, Hz; lia).
    apply runs_bind, runs_modify. rewrite u64_small by lia.
    eapply runs_mono; [apply IH; [by apply delete_canon_ok|lia|done|..]|].
    + intros n Hn. simpl. case_decide; [done|]. auto.
    + intros n Hn. simpl. rewrite decide_False by lia. apply Hf. lia.
    + simpl. eapply Nat.lt_le_trans; [apply delete_smaller; [by destruct Hok|]|lia]. by rewrite (ok_canon _ _ _ _ _ Hok).
    + intros [] hc' Hok'. eapply hc_ok_ext; [exact Hok'|]. intros n _. simpl.
      repeat case_decide; try done; lia.
Qed.

(** The loop walks from [x] to the first ancestor that is canonical below [hd]. *)
Lemma recanon_ok T g hd cur fuel : forall f hc x, hc_ok T g cur f hc -> T !! Hash_ x = Some x -> T !! Hash_ hd = Some hd ->
  (forall n, 0 <= n <= Number x -> f n = canon_of T hd n) -> (Z.to_nat (Number x) < fuel)%nat ->
  runs (recanon_loop fuel (Hash_ x) (Number x) (Some x)) hc (fun _ hc' =>
    hc_ok T g cur (fun n => if decide (0 <= n <= Number x) then canon_of T x n else f n) hc').
Proof.
  induction fuel as [|fuel IH]; intros f hc x Hok Hx Hhd Hf Hs; [lia|]. simpl. apply runs_bind, runs_gets.
  pose proof (ok_tree _ _ _ _ _ Hok) as Ht. pose proof (tree_number _ _ _ _ Ht Hx) as Hn.
  assert (u64_ok (Number x)) as Hu by (by eapply tree_u64). rewrite (ok_canon _ _ _ _ _ Hok) by done. case_bool_decide as E.
  - apply runs_ret. eapply hc_ok_ext; [done|]. intros n _. case_decide as Hle; [|done]. rewrite Hf by done.
    rewrite Hf in E by lia. destruct (decide (Number x <= Number hd)).
    + destruct (canon_below T g hd (Number x) Ht Hhd ltac:(lia)) as (a & Ea & HTa & _ & Ha). rewrite Ea in E.
      rewrite E in HTa. simplify_eq. eapply canon_anc; [done..|lia|lia].
    + rewrite canon_above in E by lia. exfalso. rewrite <- E in Hx. by rewrite (tree_zero _ _ Ht) in Hx.
  - apply runs_bind, runs_modify. apply runs_bind, runs_unwrap.
    destruct (tree_parent _ _ Ht _ _ Hx) as [->|(p & Hp & Hnp)].
    { exfalso. apply E. destruct (tree_genesis _ _ Ht) as [Hg H0]. pose proof (tree_number _ _ _ _ Ht Hhd).
      rewrite Hf by lia. destruct (canon_below T g hd (Number g) Ht Hhd ltac:(lia)) as (a & -> & HTa & Hna & _).
      f_equal. eapply tree_root; [done..|]. lia. }
    pose proof (tree_number _ _ _ _ Ht Hp). rewrite Big.Uint64_small by done. rewrite u64_small by lia.
    replace (Number x - 1) with (Number p) by lia. apply runs_bind.
    pose proof (tree_hash _ _ Ht _ _ Hp) as Hk. eapply runs_mono.
    { eapply hc_GetHeader_some; [by apply write_canon_ok; [|apply Hash_array|]|exact Hp]. }
    intros r hc' [-> Hok']. rewrite Hk in Hp |- *. eapply runs_mono.
    { apply IH; [exact Hok'|done..| |lia]. intros n Hn'. simpl. rewrite decide_False by lia. apply Hf. lia. }
    intros [] hc'' Hok''. eapply hc_ok_ext; [exact Hok''|]. intros n Hun. simpl. destruct (decide (0 <= n <= Number p)).
    + rewrite decide_True by lia. symmetry. eapply (canon_anc T g x 1); [done..| |lia|lia]. simpl. by rewrite Hk, Hp.
    + destruct (decide (n = Number x)) as [->|]; [rewrite decide_True by lia; symmetry; apply canon_top; lia|].
      rewrite decide_False by lia. done.
Qed.

(** ** [WriteHeader] *)

(** The canonical chain is that of the current header, and none is heavier. *)
Definition chain_ok T g hd hc : Prop :=
  hc_ok T g hd (canon_of T hd) hc /\
  forall x t t', T !! Hash_ x = Some x -> total T g x t -> total T g hd t' -> t <= t'.

Lemma canon_nonzero T g hd n : tree T g -> T !! Hash_ hd = Some hd -> 0 <= n <= Number hd -> canon_of T hd n <> Common.zeroHash.
Proof.
  intros Ht Hh Hn E. destruct (canon_below T g hd n Ht Hh Hn) as (a & Ea & HTa & _). rewrite Ea in E. rewrite E in HTa.
  by rewrite (tree_zero _ _ Ht) in HTa.
Qed.

Lemma make_head_ok T g hd hc h p : hc_ok T g hd (canon_of T hd) hc -> T !! Hash_ h = Some h ->
  T !! ParentHash h = Some p -> Number h = Number p + 1 ->
  runs (make_head h) hc (fun st hc' => st = CanonStatTy /\ hc_ok T g h (canon_of T h) hc').
Proof.
  intros Hok Hh Hp Hn. pose proof (ok_tree _ _ _ _ _ Hok) as Ht. destruct (ok_current _ _ _ _ _ Hok) as (_ & _ & Hhd).
  pose proof (tree_number _ _ _ _ Ht Hh). pose proof (tree_number _ _ _ _ Ht Hhd) as Hb. pose proof (tree_number _ _ _ _ Ht Hp).
  unfold make_head. rewrite Big.Uint64_small by lia. rewrite !u64_small by lia. cbv zeta. apply runs_bind, runs_gets, runs_bind.
  eapply runs_mono.
  { apply (uncanon_ok T g hd (Number hd)); [done|lia|lia|apply canon_above| |lia].
    intros n Hn'. apply (canon_nonzero T g); [done..|lia]. }
  intros [] hc1 Hok1. apply runs_bind. replace (Number h - 1) with (Number p) by lia.
  eapply runs_mono; [eapply hc_GetHeader_some; [exact Hok1|done]|]. intros r hc2 [-> Hok2]. apply runs_bind.
  pose proof (tree_hash _ _ Ht _ _ Hp) as Hk. rewrite Hk in Hp |- *.
  eapply runs_mono; [apply (recanon_ok T g hd); [exact Hok2|done..| |lia]; intros n Hn'; simpl; by rewrite decide_False by lia|].
  intros [] hc3 Hok3. apply runs_bind, runs_modify, runs_bind, runs_modify, runs_bind, runs_modify, runs_ret. split; [done|].
  apply (write_canon_ok _ _ _ _ _ (Hash_ h) (Number h)) in Hok3; [|apply Hash_array|unfold u64_ok; lia].
  apply (write_head_ok _ _ _ _ _ (Hash_ h)) in Hok3. eapply hc_ok_ext; [by eapply set_current_ok|].
  intros n Hu. simpl. destruct Hu as [Hu _]. destruct (decide (n = Number h)) as [->|]; [by rewrite canon_top by lia|].
  destruct (decide (n <= Number p)).
  - rewrite decide_True by lia. symmetry. eapply (canon_anc T g h 1); [done..| |lia|lia]. simpl. by rewrite Hk, Hp.
  - rewrite decide_False by lia. rewrite (canon_above T h) by lia. rewrite decide_True by lia. done.
Qed.

(** The last lines: the header and its number enter the caches. *)
Lemma cached_ok T g hd f hc h : hc_ok T g hd f hc -> T !! Hash_ h = Some h ->
  hc_ok T g hd f (set_caches (lru_Add (Hash_ h) h (headerCache hc)) (tdCache hc)
                   (lru_Add (Hash_ h) (Number h) (numberCache hc)) hc).
Proof.
  intros Hok Hh. apply hc_ok_caches; [done|..|].
  - intros k x [[-> ->]|[_ Hk]]%contents_Add; [done|by eapply ok_headerCache].
  - by destruct Hok.
  - intros k n [[-> ->]|[_ Hk]]%contents_Add; [eauto|by eapply ok_numberCache].
Qed.

(** A header of a known parent is stored; it becomes the head when it is heavier than the
    head, or as heavy and the coin falls that way. *)
Lemma WriteHeader_ok T g hd hc h coin p t thd : chain_ok T g hd hc -> extends T h ->
  T !! ParentHash h = Some p -> Number h = Number p + 1 -> total T g p t -> total T g hd thd ->
  let wins := (Difficulty h + t >? thd) || ((Difficulty h + t =? thd) && coin) in
  runs (hc_WriteHeader h coin) hc (fun st hc' =>
    st = (if wins then CanonStatTy else SideStatTy) /\
    chain_ok (<[Hash_ h := h]> T) g (if wins then h else hd) hc').
Proof.
  intros [Hok Hmax] Hx Hp Hn Htot Hthd wins. pose proof (ok_tree _ _ _ _ _ Hok) as Ht.
  pose proof (tree_extend _ _ _ _ Ht Hx Hp Hn) as Ht'. pose proof (extend_sub T h Hx) as HT.
  destruct (ok_current _ _ _ _ _ Hok) as (Hcur & Hch & Hhd). pose proof (lookup_insert_eq T (Hash_ h) h) as Hself.
  pose proof (tree_number _ _ _ _ Ht' Hself) as Hnh. pose proof (tree_number _ _ _ _ Ht Hp) as Hnp.
  pose proof (tree_number _ _ _ _ Ht Hhd) as Hnd.
  assert (total (<[Hash_ h:=h]> T) g h (Difficulty h + t)) as Htot'.
  { econstructor; [by eapply lookup_weaken|done|by eapply total_mono]. }
  assert (forall x v, <[Hash_ h:=h]> T !! Hash_ x = Some x -> total (<[Hash_ h:=h]> T) g x v ->
            (v <= thd \/ v = Difficulty h + t)) as Hall.
  { intros x v Hxk Hv. destruct (decide (Hash_ x = Hash_ h)) as [E|E].
    - rewrite E, Hself in Hxk. simplify_eq. right. by eapply total_fun.
    - rewrite lookup_insert_ne in Hxk by done. left. eapply Hmax; [done| |done]. by eapply total_extend. }
  unfold hc_WriteHeader. rewrite Big.Uint64_small by lia. rewrite (u64_small (Number h - 1)) by lia. cbv zeta.
  replace (Number h - 1) with (Number p) by lia. apply runs_bind.
  eapply runs_mono; [eapply hc_GetTd_some; done|]. intros r hc1 [-> Hok1]. apply runs_bind, runs_gets.
  destruct (ok_current _ _ _ _ _ Hok1) as (-> & Hch1 & _). apply runs_bind, runs_unwrap, runs_bind, runs_gets.
  rewrite Hch1. rewrite (Big.Uint64_small (Number hd)) by lia. apply runs_bind.
  eapply runs_mono; [eapply hc_GetTd_some; done|]. intros r hc2 [-> Hok2]. apply runs_bind.
  eapply runs_mono; [by eapply (store_header_ok T g hd _ hc2 h p t)|]. intros [] hc3 Hs. apply runs_bind.
  eapply runs_mono; [exact Hs|]. intros [] hc4 Hok4. apply runs_bind, runs_unwrap, runs_bind. fold wins.
  apply (hc_ok_ext _ _ _ _ (canon_of (<[Hash_ h:=h]> T) hd)) in Hok4; [|intros; symmetry; by eapply canon_mono].
  destruct wins eqn:Ew; unfold wins in Ew.
  - eapply runs_mono; [eapply make_head_ok; [exact Hok4|done|by eapply lookup_weaken|done]|].
    intros st hc5 [-> Hok5]. apply runs_bind, runs_modify, runs_ret. split; [done|]. split; [by apply cached_ok|].
    intros x v v' Hxk Hv Hv'. rewrite (total_fun _ _ _ _ _ Ht' Hv' Htot'). destruct (Hall x v Hxk Hv); bool_to_prop; lia.
  - apply runs_ret, runs_bind, runs_modify, runs_ret. split; [done|]. split; [by apply cached_ok|].
    intros x v v' Hxk Hv Hv'. apply total_extend with (p := p) in Hv'; [|done..]. rewrite (total_fun _ _ _ _ _ Ht Hv' Hthd).
    destruct (Hall x v Hxk Hv); bool_to_prop; lia.
Qed.

(** A header of an unknown parent is refused. *)
Lemma WriteHeader_unknown T g hd hc h coin : chain_ok T g hd hc -> header_ok h -> Number h < 2 ^ 62 ->
  T !! ParentHash h = None ->
  exists hc', hc_WriteHeader h coin hc = (Error ErrUnknownAncestor, hc') /\ chain_ok T g hd hc'.
Proof.
  intros [Hok Hmax] Hh Hn Hp. apply header_ok_fields in Hh as (Hpa & Hn0 & _). unfold hc_WriteHeader.
  destruct (hc_GetTd_none T g hd _ hc (ParentHash h) (u64 (Big.Uint64 (Number h) - 1)) Hok Hp) as (r & hc' & E & -> & Hok').
  - by apply is_hash_array.
  - apply u64_range.
  - exists hc'. split; [|done]. unfold mbind, SM_bind. rewrite E. done.
Qed.
End chain.
