(* ===== verification/HeaderChainTheorems.v ===== *)
(** Inserting headers, from the genesis header on: [core/headerchain.go] as a whole. *)
From S2P Require Import Prelude GoBig CommonMath CommonTypes Rlp RlpDecode RlpDecodeOk RlpDecodeTheorems VmTypes Concrete.
From S2P Require Import StateTransition TxTypes BlockTypes ChainDb ChainDbOk HeaderChain HeaderChainOk.
Import Types.

Section chain.
Context {CR : Crypto} {CK : CryptoOk} {LR : Lru} {LK : LruOk}.
Implicit Types (T : gmap Hash Header) (g h p a hd : Header) (k : Hash).

(** A chain opened on a database that holds the genesis header. *)
Definition start g : outcome chainErr HeaderChain :=
  match (db ← WriteTd (Hash_ g) (Number g) (Difficulty g) ∅; WriteHeader g db) with
  | Done db => NewHeaderChain (WriteCanonicalHash (Hash_ g) (Number g) db)
  | _ => Panic
  end.

(** Batches of headers, each with the coins of its ties. *)
Abbreviation batch := (list Header * (Header -> bool))%type.
Fixpoint insert_batches (bs : list batch) (hc : HeaderChain) : outcome chainErr HeaderChain :=
  match bs with
  | [] => Done hc
  | (chain, coin) :: bs =>
      match InsertHeaderChain (fun _ => false) (fun h => _ ← hc_WriteHeader h (coin h); mret tt) chain hc with
      | (Done _, hc) => insert_batches bs hc
      | (Error e, _) => Error e
      | (Panic, _) => Panic
      | (NoFuel, _) => NoFuel
      end
  end.

(** The headers a batch adds: up to the first whose parent is unknown. *)
Fixpoint accept T (chain : list Header) : gmap Hash Header :=
  match chain with
  | [] => T
  | h :: chain =>
      match T !! Hash_ h, T !! ParentHash h with
      | Some _, _ => accept T chain
      | None, Some _ => accept (<[Hash_ h := h]> T) chain
      | None, None => T
      end
  end.

(** The headers at hand: their hashes do not collide, and numbers follow the links,
    which the verification of headers checks. *)
Record universe g (U : list Header) : Prop := {
  u_ok x : x ∈ U -> header_ok x /\ Number x < 2 ^ 62 /\ Difficulty x < 2 ^ 256 /\ Hash_ x <> Common.zeroHash;
  u_inj x y : x ∈ U -> y ∈ U -> Hash_ x = Hash_ y -> x = y;
  u_link x y : x ∈ U -> y ∈ U -> ParentHash x = Hash_ y -> Number x = Number y + 1;
  u_genesis : g ∈ U /\ Number g = 0;
}.

Definition within T (U : list Header) : Prop := forall k x, T !! k = Some x -> x ∈ U.

Lemma within_extends g U T h : universe g U -> within T U -> tree T g -> h ∈ U -> extends T h.
Proof.
  intros HU HT Ht Hh. destruct (u_ok _ _ HU h Hh) as (? & ? & ? & ?). split_and!; [done..|].
  destruct (T !! Hash_ h) as [x|] eqn:E; [right|by left]. f_equal. symmetry.
  apply (u_inj _ _ HU); [done|by eapply HT|by eapply tree_hash].
Qed.

Lemma batch_ok g U coin : universe g U -> forall chain i T hd hc, chain_ok T g hd hc -> within T U -> (forall h, h ∈ chain -> h ∈ U) ->
  runs (insert_loop (fun _ => false) (fun h => _ ← hc_WriteHeader h (coin h); mret tt) i chain) hc (fun r hc' =>
    exists hd', chain_ok (accept T chain) g hd' hc' /\ within (accept T chain) U /\ (chain = [] -> r.2 = None) /\ (r.2 = None \/ r.2 = Some ErrUnknownAncestor)).
Proof.
  intros HU. induction chain as [|h chain IH]; intros i T hd hc [Hok Hmax] HT Hin.
  { apply runs_ret. exists hd. split_and!; [done..|by left]. }
  simpl. pose proof (ok_tree _ _ _ _ _ Hok) as Ht. assert (h ∈ U) as Hh by (apply Hin; left).
  pose proof (within_extends _ _ _ _ HU HT Ht Hh) as Hx. destruct (u_ok _ _ HU h Hh) as (Hhok & Hn & _).
  pose proof (header_ok_fields h Hhok) as (_ & Hn0 & _). rewrite Big.Uint64_small by lia.
  assert (forall h, h ∈ chain -> h ∈ U) as Hin' by (intros; apply Hin; by right).
  apply runs_bind. destruct (T !! Hash_ h) as [x|] eqn:E.
  - assert (x = h) as -> by (destruct Hx as (_ & _ & _ & _ & [Hx|Hx]); congruence).
    eapply runs_mono; [by eapply hc_GetHeader_some|]. intros r hc1 [-> Hok1].
    eapply runs_mono; [by eapply IH|]. intros r hc2 (hd' & ? & ? & ? & ?). exists hd'. split_and!; done.
  - eapply runs_mono; [eapply hc_GetHeader_none; [done..|apply is_hash_array, Hash_array|unfold u64_ok; lia]|].
    intros r hc1 [-> Hok1]. destruct (T !! ParentHash h) as [p|] eqn:Hp.
    + pose proof (tree_hash _ _ Ht _ _ Hp) as Hk.
      assert (Number h = Number p + 1) as Hlink by (apply (u_link _ _ HU); [done|by eapply HT|done]).
      destruct (total_exists T g p Ht) as [t Htot]; [by rewrite <- Hk|].
      destruct (total_exists T g hd Ht) as [thd Hthd]; [by destruct (ok_current _ _ _ _ _ Hok) as (_ & _ & ?)|].
      destruct (WriteHeader_ok T g hd hc1 h (coin h) p t thd (conj Hok1 Hmax) Hx Hp Hlink Htot Hthd) as (st & hc2 & Hw & _ & Hok2).
      unfold runs, mbind at 1, SM_bind at 1. rewrite Hw.
      apply (IH (i + 1) (<[Hash_ h := h]> T)) in Hok2 as (r & hc3 & Hr & hd' & ? & ? & ? & ?); [|intros k x [[<- <-]|[_ ?]]%lookup_insert_Some; [done|by eapply HT]|done].
      exists r, hc3. split; [exact Hr|]. exists hd'. split_and!; done.
    + destruct (WriteHeader_unknown T g hd hc1 h (coin h) (conj Hok1 Hmax) Hhok Hn Hp) as (hc2 & Hw & Hok2).
      unfold runs, mbind at 1, SM_bind at 1. rewrite Hw. eexists _, _. split; [done|]. exists hd. split_and!; [done..|by right].
Qed.

Lemma batches_ok g U : universe g U -> forall bs T hd hc, chain_ok T g hd hc -> within T U ->
  Forall (fun b => b.1 <> [] /\ forall h, h ∈ b.1 -> h ∈ U) bs ->
  exists hc' hd', insert_batches bs hc = Done hc' /\ chain_ok (foldl accept T (map fst bs)) g hd' hc'.
Proof.
  intros HU. induction bs as [|[chain coin] bs IH]; intros T hd hc Hok HT Hbs; [by exists hc, hd|].
  apply Forall_cons in Hbs as [[Hne Hin] Hbs]. simpl in Hne, Hin.
  destruct (batch_ok g U coin HU chain 0 T hd hc Hok HT Hin) as (r & hc1 & Hr & hd1 & Hok1 & HT1 & _).
  simpl. unfold InsertHeaderChain, mbind, SM_bind at 1. unfold mbind in Hr. rewrite Hr.
  assert (match r, chain with (_, None), [] => crash | r, _ => mret r end hc1 = (Done r, hc1)) as -> by (by destruct chain, r as [? []]).
  by apply (IH _ hd1 hc1).
Qed.

(** The head block is not touched. *)
Lemma head_block_put db k v : head k <> Some 76 -> GetHeadBlockHash (<[k := v]> db) = GetHeadBlockHash db.
Proof. intros Hk. unfold GetHeadBlockHash. rewrite db_get_insert, decide_False; [done|]. by intros ->. Qed.
Lemma head_block_started g db db1 db2 : WriteTd (Hash_ g) (Number g) (Difficulty g) db = Done db1 -> WriteHeader g db1 = Done db2 ->
  GetHeadBlockHash (WriteCanonicalHash (Hash_ g) (Number g) db2) = GetHeadBlockHash db.
Proof.
  unfold WriteTd, WriteHeader. intros H1 H2. destruct (Enc.EncodeToBytes (Enc.VBigInt _)); simplify_eq/=.
  destruct (Enc.EncodeToBytes (header_value g)); simplify_eq/=. unfold WriteCanonicalHash. by rewrite !head_block_put.
Qed.

(** A database with the genesis header, its difficulty and its number. *)
Record genesis_db g (db : Db) : Prop := {
  gd_old : no_old db;
  gd_header k n x : is_hash k -> u64_ok n -> GetHeader db k n = Some x <-> k = Hash_ g /\ n = 0 /\ x = g;
  gd_td k n t : is_hash k -> u64_ok n -> GetTd db k n = Some t <-> k = Hash_ g /\ n = 0 /\ t = Difficulty g;
  gd_number : GetBlockNumber db (Hash_ g) = Some 0;
  gd_canon n : u64_ok n -> GetCanonicalHash db n = if decide (n = 0) then Hash_ g else Common.zeroHash;
  gd_head : GetHeadBlockHash db = Common.zeroHash;
}.

Lemma singleton_tree g U : universe g U -> tree {[Hash_ g := g]} g.
Proof.
  intros HU. destruct (u_genesis _ _ HU) as [Hg Hn]. destruct (u_ok _ _ HU g Hg) as (Hok & ? & Hd & Hz). split.
  - by intros k h [<- <-]%lookup_singleton_Some.
  - by intros k h [<- <-]%lookup_singleton_Some.
  - by rewrite lookup_singleton_eq.
  - intros k h [<- <-]%lookup_singleton_Some. by left.
  - by rewrite lookup_singleton_ne.
Qed.

Lemma singleton_total g U x t : universe g U -> total {[Hash_ g := g]} g x t -> x = g -> t = Difficulty g.
Proof. intros HU Ht ->. apply (total_fun _ _ _ _ _ (singleton_tree g U HU) Ht). constructor. Qed.

Lemma load_ok g U db : universe g U -> genesis_db g db ->
  runs load_head (new_chain db) (fun _ hc => chain_ok {[Hash_ g := g]} g g hc).
Proof.
  intros HU HD. pose proof (singleton_tree g U HU) as Ht. destruct (u_genesis _ _ HU) as [Hg Hn].
  destruct (u_ok _ _ HU g Hg) as (_ & _ & _ & Hz). assert (u64_ok 0) as U0 by (unfold u64_ok; lia).
  pose proof (is_hash_array _ (Hash_array g)) as Hh. pose proof (singleton_total g U) as Hst.
  unfold load_head. apply runs_bind. unfold hc_GetHeaderByNumber. apply runs_bind, runs_gets. simpl.
  rewrite (gd_canon _ _ HD) by done. rewrite decide_True, bool_decide_eq_false_2 by done.
  unfold runs at 1, hc_GetHeader. destruct (lru_Get _ _) as [r c] eqn:E.
  apply contents_got in E as [-> E]. cbn [chainDb headerCache set_caches new_chain] in E |- *.
  rewrite contents_New in E |- *. rewrite lookup_empty.
  rewrite (proj2 (gd_header _ _ HD (Hash_ g) 0 g Hh U0)) by done. eexists _, _. split; [done|].
  apply runs_bind, runs_modify, runs_bind, runs_modify, runs_bind, runs_gets. simpl. rewrite (gd_head _ _ HD).
  rewrite bool_decide_eq_true_2 by done. apply runs_bind, runs_ret, runs_bind, runs_gets. simpl. apply runs_bind, runs_unwrap, runs_modify.
  split; [split; simpl|].
  - done.
  - apply (gd_old _ _ HD).
  - intros k n x Hk Hu. rewrite (gd_header _ _ HD), lookup_singleton_Some by done. naive_solver congruence.
  - intros k n t Hk Hu. rewrite (gd_td _ _ HD) by done. split.
    + intros (-> & -> & ->). exists g. rewrite lookup_singleton_eq. split_and!; [done..|constructor].
    + intros (x & [<- <-]%lookup_singleton_Some & -> & Htot). split_and!; [done..|]. by apply (Hst g).
  - intros k x [<- <-]%lookup_singleton_Some. rewrite (gd_number _ _ HD). by f_equal.
  - intros n Hu. rewrite (gd_canon _ _ HD) by done. case_decide as En.
    + subst. pose proof (canon_top {[Hash_ g := g]} g ltac:(lia)) as Hc. rewrite Hn in Hc. by rewrite Hc.
    + rewrite canon_above; [done|]. destruct Hu. lia.
  - by rewrite lookup_singleton_eq.
  - intros k x [[-> ->]|[_ H]]%contents_Add; [by rewrite lookup_singleton_eq|]. by rewrite E in H.
  - intros k x. by rewrite contents_New.
  - intros k x. by rewrite contents_New.
  - intros x t t' Hx H1 H2. apply lookup_singleton_Some in Hx as [_ <-]. by rewrite (total_fun _ _ _ _ _ Ht H1 H2).
Qed.

Lemma start_ok g U : universe g U -> exists hc, start g = Done hc /\ chain_ok {[Hash_ g := g]} g g hc.
Proof.
  intros HU. destruct (u_genesis _ _ HU) as [Hg Hn]. destruct (u_ok _ _ HU g Hg) as (Hok & _ & Hd & Hz).
  pose proof (header_ok_fields g Hok) as (_ & _ & Hd0 & _).
  assert (no_old ∅) as O0 by done. pose proof (is_hash_array _ (Hash_array g)) as Hh.
  assert (u64_ok (Number g)) as Hu by (rewrite Hn; unfold u64_ok; lia).
  destruct (WriteTd_spec ∅ (Hash_ g) (Number g) (Difficulty g) O0 Hh Hu) as (db1 & W1 & O1 & Td1 & Hd1 & Nm1 & Ca1).
  { unfold td_ok. change (2 ^ 4096) with (2 ^ 256 * 2 ^ 3840). nia. }
  destruct (WriteHeader_spec db1 g O1 Hok Hu) as (db2 & W2 & O2 & Hd2 & Nm2 & Td2 & Ca2).
  destruct (WriteCanonicalHash_spec db2 (Hash_ g) (Number g) O2 (Hash_array g) Hu) as (O3 & Ca3 & Hd3 & Td3 & Nm3).
  pose proof (head_block_started g ∅ db1 db2 W1 W2) as Hb.
  unfold start. rewrite W1. simpl_outcome. rewrite W2. unfold NewHeaderChain.
  destruct (load_ok g U (WriteCanonicalHash (Hash_ g) (Number g) db2) HU) as ([] & hc & -> & Hc); [|by exists hc].
  split; [done|..|by rewrite Hb].
  - intros k n x Hk Hn'. rewrite Hd3, Hd2, Hd1 by done. rewrite GetHeader_new by done. rewrite Hn. case_decide; naive_solver.
  - intros k n t Hk Hn'. rewrite Td3, Td2, Td1 by done. rewrite GetTd_new by done. rewrite Hn. case_decide; naive_solver.
  - rewrite Nm3, Nm2 by done. rewrite decide_True by done. by f_equal.
  - intros n Hn'. rewrite Ca3, Ca2, Ca1 by done. rewrite Hn. by case_decide.
Qed.

End chain.

(** ** Instances *)

(** A cache that forgets nothing. *)
#[export] Instance map_lru : Lru := {
  lru V := gmap Hash V; lru_New V _ := ∅; lru_Get V k c := (c !! k, c); lru_Add V k v c := <[k := v]> c;
  lru_Remove V k c := delete k c; lru_Contains V k c := bool_decide (is_Some (c !! k)); lru_Purge V _ := ∅;
}.
#[export] Instance map_lru_ok : LruOk.
Proof.
  refine {| contents V c := c |}; try done.
  intros V k v c k' v' H. change (<[k := v]> (c : gmap Hash V) !! k' = Some v') in H. apply lookup_insert_Some in H as [[<- <-]|[? H]]; [by left|right; by split].
Defined.

(** Headers with a parent, a number and a difficulty; [t] tells siblings apart. *)
Definition sample_header (parent : Hash) (number difficulty t : Z) : Header :=
  {| ParentHash := parent; UncleHash := Common.zeroHash; Coinbase := Common.zeroAddress; Root := Common.zeroHash;
     TxHash := Common.zeroHash; ReceiptHash := Common.zeroHash; Bloom := replicate 256 0; Difficulty := difficulty;
     Number := number; GasLimit := 0; GasUsed := 0; Time := t; Extra := []; MixDigest := Common.zeroHash;
     Nonce := replicate 8 0 |}.
Definition sample_genesis : Header := sample_header Common.zeroHash 0 10 0.
Definition sample_a1 : Header := Eval vm_compute in sample_header (Hash_ sample_genesis) 1 5 1.
Definition sample_a2 : Header := Eval vm_compute in sample_header (Hash_ sample_a1) 2 7 2.
Definition sample_b2 : Header := Eval vm_compute in sample_header (Hash_ sample_a1) 2 6 3.
Definition sample_b3 : Header := Eval vm_compute in sample_header (Hash_ sample_b2) 3 6 4.
Definition sample_headers : list Header := [sample_genesis; sample_a1; sample_a2; sample_b2; sample_b3].

Definition header_okb (h : Header) : bool :=
  forallb (fun '(b, n) => bool_decide (Forall is_byte b) && (Z.of_nat (length b) =? n))
    [(ParentHash h, 32); (UncleHash h, 32); (Coinbase h, 20); (Root h, 32); (TxHash h, 32); (ReceiptHash h, 32);
     (Bloom h, 256); (MixDigest h, 32); (Nonce h, 8)] &&
  forallb (fun n => 0 <=? n) [Difficulty h; Number h; GasLimit h; GasUsed h; Time h] &&
  bool_decide (Forall is_byte (Extra h)) && (zlen (Spec.enc (header_value h)) <? 2 ^ 62).

Lemma header_okb_ok h : header_okb h = true -> header_ok h.
Proof.
  unfold header_okb. cbn [forallb]. intros H. bool_to_prop.
  repeat match goal with H : bool_decide _ = true |- _ => apply bool_decide_eq_true in H end.
  repeat match goal with H : Z.of_nat (length _) = _ |- _ => apply (f_equal Z.to_nat) in H; rewrite Nat2Z.id in H end.
  split; [|done]. eexists. split; [done|]. cbn -[is_bytes]. split_and!; try done; eauto.
Qed.

(** A decision procedure for [universe]. *)
Definition implb_dec (P Q : Prop) `{Decision P, Decision Q} : bool := negb (bool_decide P) || bool_decide Q.
Definition universeb (g : Header) (U : list Header) : bool :=
  let P := map (fun x => (x, Hash_ x)) U in
  forallb (fun '(x, hx) => header_okb x && (Number x <? 2 ^ 62) && (Difficulty x <? 2 ^ 256) && negb (bool_decide (hx = Common.zeroHash))) P &&
  forallb (fun '(x, hx) => forallb (fun '(y, hy) => implb_dec (hx = hy) (x = y) &&
                                      implb_dec (ParentHash x = hy) (Number x = Number y + 1)) P) P &&
  bool_decide (g ∈ U) && (Number g =? 0).

Lemma forallb_in {A} (p : A -> bool) l x : forallb p l = true -> x ∈ l -> p x = true.
Proof. rewrite forallb_forall, list_elem_of_In. auto. Qed.
Lemma implb_dec_ok (P Q : Prop) `{Decision P, Decision Q} : implb_dec P Q = true -> P -> Q.
Proof. unfold implb_dec. intros E HP. rewrite bool_decide_true in E by done. by apply bool_decide_eq_true in E. Qed.

Lemma universeb_ok g U : universeb g U = true -> universe g U.
Proof.
  unfold universeb. rewrite !andb_true_iff. intros [[[HU HP] Hg] Hn]. bool_to_prop.
  assert (forall x, x ∈ U -> (x, Hash_ x) ∈ map (fun x => (x, Hash_ x)) U) as HM
    by (intros x Hx; apply list_elem_of_fmap; by exists x).
  split.
  - intros x Hx. pose proof (forallb_in _ _ _ HU (HM _ Hx)) as E. simpl in E. bool_to_prop.
    by split_and!; [apply header_okb_ok|..].
  - intros x y Hx Hy. pose proof (forallb_in _ _ _ (forallb_in _ _ _ HP (HM _ Hx)) (HM _ Hy)) as E. simpl in E. bool_to_prop. by eapply implb_dec_ok.
  - intros x y Hx Hy. pose proof (forallb_in _ _ _ (forallb_in _ _ _ HP (HM _ Hx)) (HM _ Hy)) as E. simpl in E. bool_to_prop. by eapply implb_dec_ok.
  - done.
Qed.

Lemma sample_universe : universe sample_genesis sample_headers.
Proof. apply universeb_ok. vm_compute. reflexivity. Qed.

(** Two branches, the second heavier, and a header of an unknown parent. *)
Definition sample_batches : list (list Header * (Header -> bool)) :=
  [([sample_b3], fun _ => true); ([sample_a1; sample_a2], fun _ => true); ([sample_b2; sample_b3], fun _ => false)].


