(* ===== verification/BlockChain.v ===== *)
(** [core/blockchain.go] and [core/block_validator.go]: the chain of blocks.

    The chain owns a header chain, whose database is the database of both.  The state of
    the accounts is behind the class [Execution]; the results of the verification of the
    headers, the clock and [mrand.Float64() < 0.5] are arguments.  Events are collected in
    the order in which they are posted, goroutines that only post run at once.  [Panic] is
    a nil dereference or [log.Crit]. *)
From S2P Require Import Prelude GoBig CommonMath CommonTypes Rlp RlpDecode VmTypes StateTransition TxTypes BlockTypes DeriveSha.
From S2P Require Import Consensus ChainDb HeaderChain.
Import Types.

(** ** The state of the accounts *)

(** [state.New], the methods [Reset], [IntermediateRoot], [Commit] and [Preimages] of the
    state database, and [Processor.Process].  They read the database of the chain; errors
    are numbers. *)
Class Execution (St : Type) := {
  ex_New : Db -> Hash -> Z + St;
  ex_Reset : Db -> Hash -> St -> Z + St;
  ex_Process : Db -> Block -> St -> outcome Z (list Receipt * list Log * Z) * St;
  ex_IntermediateRoot : Db -> St -> option (Hash * St);
  ex_Commit : Db -> St -> outcome Z Hash * (St * Db);
  ex_Preimages : St -> list (Hash * bytes);
}.

Inductive bcErr :=
| bcChain (e : chainErr)
| bcConsensus (e : Consensus.error)
| bcState (e : Z)
| bcRlp (e : rlperr)
| bcKnownBlock
| bcNoGenesis
| bcNoBlock (hash : Hash)
| bcOldChain
| bcNewChain
| bcNonContiguous (i : Z)
| bcFutureBlock
| bcUncleHash
| bcTxHash
| bcGasUsed
| bcBloom
| bcReceiptHash
| bcRoot.

Inductive event :=
| RemovedTransactionEvent (txs : list Transaction)
| RemovedLogsEvent (logs : list Log)
| ChainSideEvent (b : Block)
| ChainEvent (b : Block) (logs : list Log)
| ChainHeadEvent (b : Block)
| LogsEvent (logs : list Log).

Definition bodyCacheLimit : Z := 256.
Definition blockCacheLimit : Z := 256.
Definition maxFutureBlocks : Z := 256.
Definition maxTimeFutureBlocks : Z := 30.
Definition badBlockLimit : Z := 10.

Definition removed (l : Log) : Log :=
  {| log_Address := log_Address l; log_Topics := log_Topics l; log_Data := log_Data l; log_BlockNumber := log_BlockNumber l;
     log_TxHash := log_TxHash l; log_TxIndex := log_TxIndex l; log_BlockHash := log_BlockHash l; log_Index := log_Index l;
     log_Removed := true |}.

Section blockchain.
Context {CR : Crypto} {LR : Lru} {St : Type} {EX : Execution St}.

Record BlockChain := {
  bc_hc : HeaderChain;
  genesisBlock : option Block;
  currentBlock : option Block;
  currentFastBlock : option Block;
  stateCache : option St;
  bodyCache : lru Body;
  bodyRLPCache : lru bytes;
  blockCache : lru Block;
  futureBlocks : lru Block;
  badBlocks : lru Header;
  posted : list event;
}.

Abbreviation M := (SM BlockChain bcErr).

(** Field assignments. *)
Definition set_hc (x : HeaderChain) (bc : BlockChain) : BlockChain :=
  {| bc_hc := x; genesisBlock := genesisBlock bc; currentBlock := currentBlock bc; currentFastBlock := currentFastBlock bc;
     stateCache := stateCache bc; bodyCache := bodyCache bc; bodyRLPCache := bodyRLPCache bc; blockCache := blockCache bc;
     futureBlocks := futureBlocks bc; badBlocks := badBlocks bc; posted := posted bc |}.
Definition set_heads (g c f : option Block) (bc : BlockChain) : BlockChain :=
  {| bc_hc := bc_hc bc; genesisBlock := g; currentBlock := c; currentFastBlock := f;
     stateCache := stateCache bc; bodyCache := bodyCache bc; bodyRLPCache := bodyRLPCache bc; blockCache := blockCache bc;
     futureBlocks := futureBlocks bc; badBlocks := badBlocks bc; posted := posted bc |}.
Definition set_stateCache (x : option St) (bc : BlockChain) : BlockChain :=
  {| bc_hc := bc_hc bc; genesisBlock := genesisBlock bc; currentBlock := currentBlock bc; currentFastBlock := currentFastBlock bc;
     stateCache := x; bodyCache := bodyCache bc; bodyRLPCache := bodyRLPCache bc; blockCache := blockCache bc;
     futureBlocks := futureBlocks bc; badBlocks := badBlocks bc; posted := posted bc |}.
Definition set_bodies (b : lru Body) (r : lru bytes) (bc : BlockChain) : BlockChain :=
  {| bc_hc := bc_hc bc; genesisBlock := genesisBlock bc; currentBlock := currentBlock bc; currentFastBlock := currentFastBlock bc;
     stateCache := stateCache bc; bodyCache := b; bodyRLPCache := r; blockCache := blockCache bc;
     futureBlocks := futureBlocks bc; badBlocks := badBlocks bc; posted := posted bc |}.
Definition set_blocks (b f : lru Block) (bad : lru Header) (bc : BlockChain) : BlockChain :=
  {| bc_hc := bc_hc bc; genesisBlock := genesisBlock bc; currentBlock := currentBlock bc; currentFastBlock := currentFastBlock bc;
     stateCache := stateCache bc; bodyCache := bodyCache bc; bodyRLPCache := bodyRLPCache bc; blockCache := b;
     futureBlocks := f; badBlocks := bad; posted := posted bc |}.
Definition Post (es : list event) (bc : BlockChain) : BlockChain :=
  {| bc_hc := bc_hc bc; genesisBlock := genesisBlock bc; currentBlock := currentBlock bc; currentFastBlock := currentFastBlock bc;
     stateCache := stateCache bc; bodyCache := bodyCache bc; bodyRLPCache := bodyRLPCache bc; blockCache := blockCache bc;
     futureBlocks := futureBlocks bc; badBlocks := badBlocks bc; posted := posted bc ++ es |}.
Definition set_currentBlock (b : option Block) (bc : BlockChain) : BlockChain :=
  set_heads (genesisBlock bc) b (currentFastBlock bc) bc.
Definition set_currentFastBlock (b : option Block) (bc : BlockChain) : BlockChain :=
  set_heads (genesisBlock bc) (currentBlock bc) b bc.
Definition set_blockCache (c : lru Block) (bc : BlockChain) : BlockChain :=
  set_blocks c (futureBlocks bc) (badBlocks bc) bc.
Definition set_futureBlocks (c : lru Block) (bc : BlockChain) : BlockChain :=
  set_blocks (blockCache bc) c (badBlocks bc) bc.

Definition bc_db (bc : BlockChain) : Db := chainDb (bc_hc bc).

(** A call of the header chain. *)
Definition lift {A} (m : SM HeaderChain chainErr A) : M A := fun bc =>
  let '(r, hc) := m (bc_hc bc) in
  (match r with Done a => Done a | Error e => Error (bcChain e) | Panic => Panic | NoFuel => NoFuel end, set_hc hc bc).
Definition write_db (f : Db -> Db) : M unit := lift (on_db f).
(** A write whose error is returned. *)
Definition write_or_error (f : Db -> outcome rlperr Db) : M unit := fun bc =>
  match f (bc_db bc) with
  | Done db => (Done tt, set_hc (set_chainDb db (bc_hc bc)) bc)
  | Error e => (Error (bcRlp e), bc)
  | Panic => (Panic, bc)
  | NoFuel => (NoFuel, bc)
  end.
(** [if err := m; err != nil] *)
Definition catch (m : M unit) : M (option bcErr) := fun bc =>
  match m bc with
  | (Done _, bc) => (Done None, bc)
  | (Error e, bc) => (Done (Some e), bc)
  | (Panic, bc) => (Panic, bc)
  | (NoFuel, bc) => (NoFuel, bc)
  end.

(** ** Reading *)

Definition bc_GetBlock (hash : Hash) (number : Z) : M (option Block) := fun bc =>
  let '(cached, c) := lru_Get hash (blockCache bc) in
  let bc := set_blockCache c bc in
  match cached with
  | Some b => (Done (Some b), bc)
  | None =>
      match GetBlock (bc_db bc) hash number with
      | None => (Done None, bc)
      | Some b => (Done (Some b), set_blockCache (lru_Add (Block_Hash b) b (blockCache bc)) bc)
      end
  end.
Definition GetBlockByHash (hash : Hash) : M (option Block) :=
  n ← lift (hc_GetBlockNumber hash); bc_GetBlock hash n.
Definition GetBlockByNumber (number : Z) : M (option Block) :=
  hash ← gets (fun bc => GetCanonicalHash (bc_db bc) number);
  if bool_decide (hash = Common.zeroHash) then mret None else bc_GetBlock hash number.
Definition HasBlock (hash : Hash) : M bool := b ← GetBlockByHash hash; mret (bool_decide (is_Some b)).

Definition has_state (root : Hash) : M bool :=
  gets (fun bc => match ex_New (bc_db bc) root with inr _ => true | inl _ => false end).
Definition HasBlockAndState (hash : Hash) : M bool :=
  b ← GetBlockByHash hash;
  match b with
  | None => mret false
  | Some b => has_state (Root (header b))
  end.

Definition bc_GetBody (hash : Hash) : M (option Body) :=
  '(cached, c) ← gets (fun bc => lru_Get hash (bodyCache bc));
  _ ← modify (fun bc => set_bodies c (bodyRLPCache bc) bc);
  match cached with
  | Some b => mret (Some b)
  | None =>
      n ← lift (hc_GetBlockNumber hash);
      body ← gets (fun bc => GetBody (bc_db bc) hash n);
      match body with
      | None => mret None
      | Some b => _ ← modify (fun bc => set_bodies (lru_Add hash b (bodyCache bc)) (bodyRLPCache bc) bc); mret (Some b)
      end
  end.
(** nil is the empty string. *)
Definition bc_GetBodyRLP (hash : Hash) : M bytes :=
  '(cached, c) ← gets (fun bc => lru_Get hash (bodyRLPCache bc));
  _ ← modify (fun bc => set_bodies (bodyCache bc) c bc);
  match cached with
  | Some b => mret b
  | None =>
      n ← lift (hc_GetBlockNumber hash);
      body ← gets (fun bc => GetBodyRLP (bc_db bc) hash n);
      if zlen body =? 0 then mret []
      else _ ← modify (fun bc => set_bodies (bodyCache bc) (lru_Add hash body (bodyRLPCache bc)) bc); mret body
  end.

(** [n] more blocks. *)
Fixpoint blocks_loop (n : nat) (hash : Hash) (number : Z) : M (list Block) :=
  match n with
  | O => mret []
  | S n =>
      b ← bc_GetBlock hash number;
      match b with
      | None => mret []
      | Some b => rest ← blocks_loop n (ParentHash (header b)) (u64 (number - 1)); mret (b :: rest)
      end
  end.
Definition GetBlocksFromHash (hash : Hash) (n : Z) : M (list Block) :=
  number ← lift (hc_GetBlockNumber hash); blocks_loop (Z.to_nat n) hash number.

Fixpoint uncles_loop (n : nat) (b : option Block) : M (list Header) :=
  match n, b with
  | S n, Some b =>
      p ← bc_GetBlock (ParentHash (header b)) (u64 (NumberU64 b - 1));
      rest ← uncles_loop n p;
      mret (uncles b ++ rest)
  | _, _ => mret []
  end.
Definition GetUnclesInChain (b : option Block) (length : Z) : M (list Header) := uncles_loop (Z.to_nat length) b.

(** ** A new head *)

Definition insert (b : Block) : M unit :=
  updateHeads ← gets (fun bc => negb (bool_decide (GetCanonicalHash (bc_db bc) (NumberU64 b) = Block_Hash b)));
  _ ← write_db (WriteCanonicalHash (Block_Hash b) (NumberU64 b));
  _ ← write_db (WriteHeadBlockHash (Block_Hash b));
  _ ← modify (set_currentBlock (Some b));
  if updateHeads : bool then
    _ ← lift (SetCurrentHeader (header b));
    _ ← write_db (WriteHeadFastBlockHash (Block_Hash b));
    modify (set_currentFastBlock (Some b))
  else mret tt.

(** ** Reorganisation *)

Definition parent_block (b : Block) : M (option Block) := bc_GetBlock (ParentHash (header b)) (u64 (NumberU64 b - 1)).

Definition collectLogs (hash : Hash) : M (list Log) :=
  n ← lift (hc_GetBlockNumber hash);
  receipts ← gets (fun bc => GetBlockReceipts (bc_db bc) hash n);
  mret (map removed (concat (map Logs receipts))).

(** What the loops collect: blocks that leave the chain, blocks that join it, and the
    transactions and the logs of the former. *)
Record split := {
  oldChain : list Block;
  newChain : list Block;
  deletedTxs : list Transaction;
  deletedLogs : list Log;
}.
Definition no_split : split := {| oldChain := []; newChain := []; deletedTxs := []; deletedLogs := [] |}.
Definition drop_block (b : Block) (logs : list Log) (s : split) : split :=
  {| oldChain := b :: oldChain s; newChain := newChain s; deletedTxs := transactions b ++ deletedTxs s;
     deletedLogs := logs ++ deletedLogs s |}.
Definition add_block (b : Block) (s : split) : split :=
  {| oldChain := oldChain s; newChain := b :: newChain s; deletedTxs := deletedTxs s; deletedLogs := deletedLogs s |}.
Definition join (s s' : split) : split :=
  {| oldChain := oldChain s ++ oldChain s'; newChain := newChain s ++ newChain s'; deletedTxs := deletedTxs s ++ deletedTxs s';
     deletedLogs := deletedLogs s ++ deletedLogs s' |}.

(** The loops go from block to parent; the bound counts the blocks. *)
Fixpoint reduce_old (fuel : nat) (oldBlock : option Block) (number : Z) : M (option Block * split) :=
  match oldBlock with
  | None => mret (None, no_split)
  | Some b =>
      if NumberU64 b =? number then mret (Some b, no_split)
      else
        match fuel with
        | O => fun bc => (NoFuel, bc)
        | S fuel =>
            logs ← collectLogs (Block_Hash b);
            p ← parent_block b;
            '(r, s) ← reduce_old fuel p number;
            mret (r, drop_block b logs s)
        end
  end.
Fixpoint reduce_new (fuel : nat) (newBlock : option Block) (number : Z) : M (option Block * split) :=
  match newBlock with
  | None => mret (None, no_split)
  | Some b =>
      if NumberU64 b =? number then mret (Some b, no_split)
      else
        match fuel with
        | O => fun bc => (NoFuel, bc)
        | S fuel =>
            p ← parent_block b;
            '(r, s) ← reduce_new fuel p number;
            mret (r, add_block b s)
        end
  end.
Fixpoint find_common (fuel : nat) (oldBlock newBlock : Block) : M split :=
  if bool_decide (Block_Hash oldBlock = Block_Hash newBlock) then mret no_split
  else
    match fuel with
    | O => fun bc => (NoFuel, bc)
    | S fuel =>
        logs ← collectLogs (Block_Hash oldBlock);
        o ← parent_block oldBlock;
        n ← parent_block newBlock;
        match o, n with
        | None, _ => throw bcOldChain
        | _, None => throw bcNewChain
        | Some o, Some n =>
            s ← find_common fuel o n;
            mret (drop_block oldBlock logs (add_block newBlock s))
        end
    end.

Definition write_mipmap (number : Z) (receipts : list Receipt) : M unit := fun bc =>
  match WriteMipmapBloom number receipts (bc_db bc) with
  | Some db => (Done tt, set_hc (set_chainDb db (bc_hc bc)) bc)
  | None => (Panic, bc)
  end.

Fixpoint insert_new (chain : list Block) : M unit :=
  match chain with
  | [] => mret tt
  | b :: chain =>
      _ ← insert b;
      _ ← write_or_error (WriteTransactions b);
      receipts ← gets (fun bc => GetBlockReceipts (bc_db bc) (Block_Hash b) (NumberU64 b));
      _ ← write_or_error (WriteReceipts receipts);
      _ ← write_mipmap (NumberU64 b) receipts;
      insert_new chain
  end.

Fixpoint delete_transactions (txs : list Transaction) : M unit :=
  match txs with
  | [] => mret tt
  | tx :: txs =>
      _ ← write_db (DeleteReceipt (Tx.tx_hash tx));
      _ ← write_db (DeleteTransaction (Tx.tx_hash tx));
      delete_transactions txs
  end.

Definition reduce (oldBlock newBlock : Block) : M (option Block * option Block * split) :=
  if NumberU64 oldBlock >? NumberU64 newBlock then
    '(o, s) ← reduce_old (Z.to_nat (NumberU64 oldBlock)) (Some oldBlock) (NumberU64 newBlock);
    mret (o, Some newBlock, s)
  else
    '(n, s) ← reduce_new (Z.to_nat (NumberU64 newBlock)) (Some newBlock) (NumberU64 oldBlock);
    mret (Some oldBlock, n, s).

Definition reorg_events (s : split) (diff : list Transaction) : list event :=
  (if zlen diff >? 0 then [RemovedTransactionEvent diff] else []) ++
  (if zlen (deletedLogs s) >? 0 then [RemovedLogsEvent (deletedLogs s)] else []) ++
  map ChainSideEvent (oldChain s).

Definition reorg (oldBlock newBlock : Block) : M unit :=
  '(o, n, s) ← reduce oldBlock newBlock;
  match o, n with
  | None, _ => throw bcOldChain
  | _, None => throw bcNewChain
  | Some o, Some n =>
      s' ← find_common (Z.to_nat (NumberU64 o)) o n;
      let s := join s s' in
      _ ← insert_new (newChain s);
      let addedTxs := concat (map transactions (newChain s)) in
      let diff := Tx.TxDifference (deletedTxs s) addedTxs in
      _ ← delete_transactions diff;
      modify (Post (reorg_events s diff))
  end.

(** ** Writing a block *)

Definition bc_make_head (b cur : Block) : M WriteStatus :=
  _ ← (if bool_decide (ParentHash (header b) = Block_Hash cur) then mret tt else reorg cur b);
  _ ← insert b;
  mret CanonStatTy.

Definition bc_WriteBlock (b : Block) (coin : bool) : M WriteStatus :=
  ptd ← lift (hc_GetTd (ParentHash (header b)) (u64 (NumberU64 b - 1)));
  match ptd with
  | None => throw (bcConsensus Consensus.ErrUnknownAncestor)
  | Some ptd =>
      cur ← gets currentBlock; cur ← unwrap cur;
      localTd ← lift (hc_GetTd (Block_Hash cur) (NumberU64 cur));
      let externTd := Difficulty (header b) + ptd in
      _ ← lift (hc_WriteTd (Block_Hash b) (NumberU64 b) externTd);
      _ ← lift (or_crit (WriteBlock b));
      localTd ← unwrap localTd;
      status ←
        (if (externTd >? localTd) || ((externTd =? localTd) && coin) then bc_make_head b cur
         else mret SideStatTy);
      _ ← modify (fun bc => set_futureBlocks (lru_Remove (Block_Hash b) (futureBlocks bc)) bc);
      mret status
  end.

(** ** block_validator.go *)
Section validator.
(** [engine.VerifyUncles] *)
Variable VerifyUncles : Db -> Block -> option Consensus.error.

Definition ValidateBody (b : Block) : M unit :=
  known ← HasBlock (Block_Hash b);
  known ← (if known : bool then has_state (Root (header b)) else mret false);
  if known : bool then throw bcKnownBlock
  else
    parent ← parent_block b;
    match parent with
    | None => throw (bcConsensus Consensus.ErrUnknownAncestor)
    | Some parent =>
        ok ← has_state (Root (header parent));
        if negb ok then throw (bcConsensus Consensus.ErrUnknownAncestor)
        else
          db ← gets bc_db;
          match VerifyUncles db b with
          | Some e => throw (bcConsensus e)
          | None =>
              if negb (bool_decide (CalcUncleHash (uncles b) = UncleHash (header b))) then throw bcUncleHash
              else
                txHash ← unwrap (DeriveSha_transactions (transactions b));
                if negb (bool_decide (txHash = TxHash (header b))) then throw bcTxHash else mret tt
          end
    end.

(** The state is that after [IntermediateRoot]. *)
Definition ValidateState (db : Db) (b : Block) (st : St) (receipts : list Receipt) (usedGas : Z) : outcome bcErr unit * St :=
  let h := header b in
  if negb (GasUsed h =? usedGas) then (Error bcGasUsed, st)
  else
    match CreateBloom receipts with
    | None => (Panic, st)
    | Some rbloom =>
        if negb (bool_decide (rbloom = Bloom h)) then (Error bcBloom, st)
        else
          match DeriveSha_receipts receipts with
          | None => (Panic, st)
          | Some receiptSha =>
              if negb (bool_decide (receiptSha = ReceiptHash h)) then (Error bcReceiptHash, st)
              else
                match ex_IntermediateRoot db st with
                | None => (Panic, st)
                | Some (root, st) => (if negb (bool_decide (Root h = root)) then Error bcRoot else Done tt, st)
                end
          end
    end.

(** ** Inserting a chain *)

Definition reportBlock {A} (b : Block) (e : bcErr) : M A :=
  _ ← modify (fun bc => set_blocks (blockCache bc) (futureBlocks bc) (lru_Add (Block_Hash b) (header b) (badBlocks bc)) bc);
  throw e.

Definition queue (b : Block) : M unit :=
  modify (fun bc => set_futureBlocks (lru_Add (Block_Hash b) b (futureBlocks bc)) bc).

(** The parent state of a block: that of the block before in the batch, if any. *)
Definition parent_root (prev : option Block) (b : Block) : M Hash :=
  match prev with
  | None => p ← parent_block b; p ← unwrap p; mret (Root (header p))
  | Some p => mret (Root (header p))
  end.

(** Runs the block; its receipts, logs and gas. *)
Definition execute (prev : option Block) (b : Block) : M (list Receipt * list Log * Z) :=
  root ← parent_root prev b;
  st ← gets stateCache; st ← unwrap st;
  db ← gets bc_db;
  match ex_Reset db root st with
  | inl e => reportBlock b (bcState e)
  | inr st =>
      let '(r, st) := ex_Process db b st in
      _ ← modify (set_stateCache (Some st));
      match r with
      | Done (receipts, logs, usedGas) =>
          _ ← parent_block b;
          let '(r, st) := ValidateState db b st receipts usedGas in
          _ ← modify (set_stateCache (Some st));
          match r with
          | Done _ => mret (receipts, logs, usedGas)
          | Error e => reportBlock b e
          | Panic => crash
          | NoFuel => fun bc => (NoFuel, bc)
          end
      | Error e => reportBlock b (bcState e)
      | Panic => crash
      | NoFuel => fun bc => (NoFuel, bc)
      end
  end.

Definition commit_state : M unit :=
  st ← gets stateCache; st ← unwrap st;
  db ← gets bc_db;
  let '(r, (st, db)) := ex_Commit db st in
  _ ← modify (set_stateCache (Some st));
  _ ← write_db (fun _ => db);
  match r with
  | Done _ => mret tt
  | Error e => throw (bcState e)
  | Panic => crash
  | NoFuel => fun bc => (NoFuel, bc)
  end.

(** A valid block is stored; the event to post. *)
Definition store (b : Block) (receipts : list Receipt) (logs : list Log) (coin : bool) : M (list event) :=
  _ ← commit_state;
  _ ← write_or_error (WriteBlockReceipts (Block_Hash b) (NumberU64 b) receipts);
  status ← bc_WriteBlock b coin;
  match status with
  | CanonStatTy =>
      _ ← write_or_error (WriteTransactions b);
      _ ← write_or_error (WriteReceipts receipts);
      _ ← write_mipmap (NumberU64 b) receipts;
      st ← gets stateCache; st ← unwrap st;
      _ ← write_db (WritePreimages (ex_Preimages st));
      mret [ChainEvent b logs]
  | SideStatTy => mret [ChainSideEvent b]
  | NonStatTy => mret []
  end.

(** The verdict on one block: whether it is to be run, or skipped. *)
Definition check_block (now : Z) (b : Block) (result : option Consensus.error) : M bool :=
  err ← match result with Some e => mret (Some (bcConsensus e)) | None => catch (ValidateBody b) end;
  match err with
  | None => mret true
  | Some bcKnownBlock => mret false
  | Some (bcConsensus Consensus.ErrFutureBlock) =>
      if Time (header b) >? now + maxTimeFutureBlocks then throw bcFutureBlock
      else _ ← queue b; mret false
  | Some (bcConsensus Consensus.ErrUnknownAncestor) =>
      known ← gets (fun bc => lru_Contains (ParentHash (header b)) (futureBlocks bc));
      if known : bool then _ ← queue b; mret false
      else reportBlock b (bcConsensus Consensus.ErrUnknownAncestor)
  | Some e => reportBlock b e
  end.

Definition insert_block (now : Z) (coin : bool) (prev : option Block) (b : Block) (result : option Consensus.error)
  : M (list event * list Log) :=
  valid ← check_block now b result;
  if valid : bool then
    '(receipts, logs, _) ← execute prev b;
    es ← store b receipts logs coin;
    mret (es, logs)
  else mret ([], []).

(** [postChainEvents] *)
Definition postChainEvents (es : list event) (logs : list Log) : M unit :=
  modify (fun bc =>
    Post (LogsEvent logs ::
          concat (map (fun e =>
              match e with
              | ChainEvent b _ => (if bool_decide (Block_Hash <$> currentBlock bc = Some (Block_Hash b)) then [ChainHeadEvent b] else []) ++ [e]
              | _ => [e]
              end) es)) bc).

(** The blocks left, each with the result of its verification; [interrupted] is polled and
    a missing result is waited for. *)
Fixpoint insert_chain_loop (now : Z) (coin : Block -> bool) (interrupted : Z -> bool) (i : Z) (prev : option Block)
    (chain : list Block) (results : list (option Consensus.error)) (es : list event) (logs : list Log)
  : M (Z * option bcErr) :=
  match chain with
  | [] => _ ← postChainEvents es logs; mret (0, None)
  | b :: chain =>
      if interrupted i then _ ← postChainEvents es logs; mret (0, None)
      else
        match results with
        | [] => fun bc => (NoFuel, bc)
        | r :: results => fun bc =>
            match insert_block now (coin b) prev b r bc with
            | (Done (es', logs'), bc) =>
                insert_chain_loop now coin interrupted (i + 1) (Some b) chain results (es ++ es') (logs ++ logs') bc
            | (Error e, bc) => (Done (i, Some e), bc)
            | (Panic, bc) => (Panic, bc)
            | (NoFuel, bc) => (NoFuel, bc)
            end
        end
  end.

Fixpoint contiguous_blocks (i : Z) (prev : Block) (chain : list Block) : option Z :=
  match chain with
  | [] => None
  | b :: chain =>
      if negb (NumberU64 b =? u64 (NumberU64 prev + 1)) || negb (bool_decide (ParentHash (header b) = Block_Hash prev))
      then Some i else contiguous_blocks (i + 1) b chain
  end.

Definition InsertChain (now : Z) (coin : Block -> bool) (interrupted : Z -> bool) (chain : list Block)
    (results : list (option Consensus.error)) : M (Z * option bcErr) :=
  match match chain with [] => None | b :: rest => contiguous_blocks 1 b rest end with
  | Some i => mret (0, Some (bcNonContiguous i))
  | None => insert_chain_loop now coin interrupted 0 None chain results [] []
  end.
End validator.

(** ** Loading and rewinding *)

(** [reset] is the call of [Reset]. *)
Definition loadLastState (reset : M unit) : M unit :=
  head ← gets (fun bc => GetHeadBlockHash (bc_db bc));
  if bool_decide (head = Common.zeroHash) then reset
  else
    b ← GetBlockByHash head;
    match b with
    | None => reset
    | Some b =>
        ok ← has_state (Root (header b));
        if negb ok then reset
        else
          _ ← modify (set_currentBlock (Some b));
          headHeader ← gets (fun bc => GetHeadHeaderHash (bc_db bc));
          h ← (if bool_decide (headHeader = Common.zeroHash) then mret None else lift (hc_GetHeaderByHash headHeader));
          let h := default (header b) h in
          _ ← lift (SetCurrentHeader h);
          _ ← modify (set_currentFastBlock (Some b));
          headFast ← gets (fun bc => GetHeadFastBlockHash (bc_db bc));
          fb ← (if bool_decide (headFast = Common.zeroHash) then mret None else GetBlockByHash headFast);
          let fb := default b fb in
          _ ← modify (set_currentFastBlock (Some fb));
          st ← gets (fun bc => ex_New (bc_db bc) (Root (header b)));
          match st with
          | inl e => throw (bcState e)
          | inr st =>
              _ ← modify (set_stateCache (Some st));
              _ ← lift (hc_GetTd (Hash_ h) (Big.Uint64 (Number h)));
              _ ← lift (hc_GetTd (Block_Hash b) (NumberU64 b));
              _ ← lift (hc_GetTd (Block_Hash fb) (NumberU64 fb));
              mret tt
          end
    end.

(** A second [Lock] of [bc.mu] waits for ever. *)
Definition deadlock {A} : M A := fun bc => (NoFuel, bc).

Definition rewind_block (h : Header) (b : option Block) : M (option Block) :=
  match b with
  | Some b' => if Big.Uint64 (Number h) <? NumberU64 b' then bc_GetBlock (Hash_ h) (Big.Uint64 (Number h)) else mret b
  | None => mret None
  end.

(** [SetHead] holds the lock until it returns; [Reset] would call it again. *)
Definition bc_SetHead (head : Z) : M unit :=
  _ ← lift (SetHead head (fun hash num => DeleteBody hash num));
  h ← gets (fun bc => currentHeader (bc_hc bc));
  _ ← modify (fun bc => set_bodies (lru_Purge (bodyCache bc)) (lru_Purge (bodyRLPCache bc))
                (set_blocks (lru_Purge (blockCache bc)) (lru_Purge (futureBlocks bc)) (badBlocks bc) bc));
  h ← unwrap h;
  cur ← gets currentBlock;
  cur ← rewind_block h cur;
  cur ← match cur with
        | None => mret None
        | Some b => ok ← has_state (Root (header b)); mret (if ok : bool then Some b else None)
        end;
  fast ← gets currentFastBlock;
  fast ← rewind_block h fast;
  g ← gets genesisBlock;
  let cur := match cur with Some b => Some b | None => g end in
  let fast := match fast with Some b => Some b | None => g end in
  _ ← modify (set_heads g cur fast);
  cur ← unwrap cur;
  _ ← write_db (WriteHeadBlockHash (Block_Hash cur));
  fast ← unwrap fast;
  _ ← write_db (WriteHeadFastBlockHash (Block_Hash fast));
  loadLastState deadlock.

Definition ResetWithGenesisBlock (genesis : option Block) : M unit :=
  _ ← bc_SetHead 0;
  g ← unwrap genesis;
  _ ← lift (hc_WriteTd (Block_Hash g) (NumberU64 g) (Difficulty (header g)));
  _ ← lift (or_crit (WriteBlock g));
  _ ← modify (fun bc => set_heads (Some g) (currentBlock bc) (currentFastBlock bc) bc);
  _ ← insert g;
  _ ← modify (set_currentBlock (Some g));
  _ ← lift (modify (SetGenesis (Some (header g))));
  _ ← lift (SetCurrentHeader (header g));
  modify (set_currentFastBlock (Some g)).
Definition Reset : M unit := g ← gets genesisBlock; ResetWithGenesisBlock g.

Definition NewBlockChain (db : Db) : outcome bcErr BlockChain :=
  match NewHeaderChain db with
  | Done hc =>
      let bc := {| bc_hc := hc; genesisBlock := None; currentBlock := None; currentFastBlock := None; stateCache := None;
                   bodyCache := lru_New bodyCacheLimit; bodyRLPCache := lru_New bodyCacheLimit;
                   blockCache := lru_New blockCacheLimit; futureBlocks := lru_New maxFutureBlocks;
                   badBlocks := lru_New badBlockLimit; posted := [] |} in
      let load : M unit :=
        g ← GetBlockByNumber 0;
        match g with
        | None => throw bcNoGenesis
        | Some g => _ ← modify (fun bc => set_heads (Some g) (currentBlock bc) (currentFastBlock bc) bc); loadLastState Reset
        end in
      match load bc with
      | (Done _, bc) => Done bc
      | (Error e, _) => Error e
      | (Panic, _) => Panic
      | (NoFuel, _) => NoFuel
      end
  | Error e => Error (bcChain e)
  | Panic => Panic
  | NoFuel => NoFuel
  end.

Definition FastSyncCommitHead (hash : Hash) : M unit :=
  b ← GetBlockByHash hash;
  match b with
  | None => throw (bcNoBlock hash)
  | Some b =>
      ok ← gets (fun bc => ex_New (bc_db bc) (Root (header b)));
      match ok with
      | inl e => throw (bcState e)
      | inr _ => modify (set_currentBlock (Some b))
      end
  end.

(** One round of [Rollback], which goes through the hashes from the last to the first. *)
Definition rollback_one (hash : Hash) : M unit :=
  h ← gets (fun bc => currentHeader (bc_hc bc)); h ← unwrap h;
  _ ← (if bool_decide (Hash_ h = hash) then
         p ← lift (hc_GetHeader (ParentHash h) (u64 (Big.Uint64 (Number h) - 1)));
         p ← unwrap p; lift (SetCurrentHeader p)
       else mret tt);
  fast ← gets currentFastBlock; fast ← unwrap fast;
  _ ← (if bool_decide (Block_Hash fast = hash) then
         p ← parent_block fast;
         _ ← modify (set_currentFastBlock p);
         p ← unwrap p; write_db (WriteHeadFastBlockHash (Block_Hash p))
       else mret tt);
  cur ← gets currentBlock; cur ← unwrap cur;
  if bool_decide (Block_Hash cur = hash) then
    p ← parent_block cur;
    _ ← modify (set_currentBlock p);
    p ← unwrap p; write_db (WriteHeadBlockHash (Block_Hash p))
  else mret tt.
Fixpoint rollback_all (hashes : list Hash) : M unit :=
  match hashes with
  | [] => mret tt
  | h :: hashes => _ ← rollback_one h; rollback_all hashes
  end.
Definition Rollback (chain : list Hash) : M unit := rollback_all (rev chain).
End blockchain.
