(* ===== verification/BlockChainOk.v ===== *)
(** The chain of blocks keeps the heaviest known block and its ancestors canonical.

    [T] is the set of stored blocks by hash, without the values cached in transactions;
    its headers are a tree below the genesis block.  [bc_at] says what the database and the
    caches hold for [T]. *)
From S2P Require Import Prelude GoBig CommonMath CommonTypes Rlp RlpDecode RlpDecodeOk RlpDecodeTheorems VmTypes.
From S2P Require Import StateTransition TxTypes BlockTypes DeriveSha Consensus ChainDb ChainDbOk ChainTables.
From S2P Require Import HeaderChain HeaderChainOk BlockChain.
Import Types.

(** ** The blocks at hand *)
Section universe.
Context {CR : Crypto} {CK : CryptoOk}.

Record block_fine (b : Block) : Prop := {
  bf_header : header_ok (header b);
  bf_number : Number (header b) < 2 ^ 48;
  bf_difficulty : Difficulty (header b) < 2 ^ 256;
  bf_hash : Block_Hash b <> Common.zeroHash;
  bf_body : body_ok (Block_Body b);
  bf_txs : Forall (fun tx => coherent tx /\ zlen (Spec.enc (Tx.txdata_value (Tx.data tx))) < 2 ^ 32) (transactions b);
  bf_count : zlen (transactions b) < 2 ^ 62;
}.

(** Hashes do not collide, numbers follow the links, and no key under which the position
    of a transaction is stored is one of the table of block numbers. *)
Record block_universe (g : Block) (U : list Block) : Prop := {
  bu_fine x : x ∈ U -> block_fine x;
  bu_inj x y : x ∈ U -> y ∈ U -> Block_Hash x = Block_Hash y -> bare x = bare y;
  bu_link x y : x ∈ U -> y ∈ U -> ParentHash (header x) = Block_Hash y -> Number (header x) = Number (header y) + 1;
  bu_clear x y tx : x ∈ U -> y ∈ U -> tx ∈ transactions x -> Tx.tx_hash tx ++ txMetaSuffix <> hashKey (Block_Hash y);
  bu_genesis : g ∈ U /\ Number (header g) = 0;
}.

Variables (g : Block) (U : list Block).
Hypothesis HU : block_universe g U.

Definition hs (h : Hash) : Prop := exists x, x ∈ U /\ h = Block_Hash x.

(** A block of the universe, whatever its transactions have cached. *)
Definition blk (b : Block) : Prop := (exists x, x ∈ U /\ bare b = bare x) /\ Forall coherent (transactions b).

Lemma hs_hash h : hs h -> is_hash h.
Proof. intros (x & _ & ->). apply is_hash_array, Hash_array. Qed.
Lemma blk_in x : x ∈ U -> blk x.
Proof.
  intros Hx. split; [by exists x|]. eapply Forall_impl; [apply (bf_txs _ (bu_fine _ _ HU x Hx))|]. by intros tx [? _].
Qed.
Lemma blk_bare b : blk b -> blk (bare b).
Proof. intros [(x & Hx & E) _]. split; [exists x; by rewrite bare_bare|]. apply Forall_map, Forall_forall. intros tx _. by left. Qed.

Lemma bare_data b x : bare b = bare x -> map Tx.data (transactions b) = map Tx.data (transactions x).
Proof.
  intros E. apply (f_equal transactions) in E. cbn in E. apply (f_equal (map Tx.data)) in E. rewrite !map_map in E. exact E.
Qed.

(** Everything but the hashes follows from the data of the transactions. *)
Lemma blk_fine b : blk b -> block_fine b /\ hs (Block_Hash b).
Proof.
  intros [(x & Hx & E) Hc]. pose proof (bare_data b x E) as Ed. pose proof (f_equal header E) as Eh. pose proof (f_equal uncles E) as Eu.
  cbn in Eh, Eu. destruct (bu_fine _ _ HU x Hx) as [H1 H2 H3 H4 H5 H6 H7]. split; [|exists x; split; [done|unfold Block_Hash; by rewrite Eh]].
  assert (body_value (Block_Body b) = body_value (Block_Body x)) as Ev.
  { unfold body_value, Block_Body. cbn. rewrite <- !(map_map Tx.data Tx.txdata_value), Ed, Eu. done. }
  assert (forall P : Tx.txdata -> Prop, Forall (fun tx => P (Tx.data tx)) (transactions x) -> Forall (fun tx => P (Tx.data tx)) (transactions b)) as HP.
  { intros P H. assert (Forall P (map Tx.data (transactions x))) as H' by (by apply Forall_map).
    rewrite <- Ed in H'. by rewrite Forall_map in H'. }
  split; rewrite ?Eh; try done.
  - unfold Block_Hash. by rewrite Eh.
  - destruct H5 as (Ht & Hu & Hl). split_and!; [by apply HP|cbn; by rewrite Eu|by rewrite Ev].
  - apply Forall_and. split; [done|]. apply (HP (fun d => zlen (Spec.enc (Tx.txdata_value d)) < 2 ^ 32)).
    eapply Forall_impl; [exact H6|]. by intros tx [_ ?].
  - apply (f_equal length) in Ed. rewrite !length_map in Ed. unfold zlen in *. by rewrite Ed.
Qed.

Lemma blk_clear b tx : blk b -> tx ∈ transactions b -> clear_tx hs tx.
Proof.
  intros [(x & Hx & E) Hc] Htx h (y & Hy & ->). pose proof (bare_data b x E) as Ed.
  assert (Tx.data tx ∈ map Tx.data (transactions x)) as Hin by (rewrite <- Ed; apply list_elem_of_fmap; by exists tx).
  apply list_elem_of_fmap in Hin as (tx' & Ed' & Htx').
  assert (coherent tx) as Hc1 by (rewrite Forall_forall in Hc; by apply Hc).
  assert (coherent tx') as Hc2.
  { pose proof (bf_txs _ (bu_fine _ _ HU x Hx)) as H. rewrite Forall_forall in H. by apply H. }
  rewrite tx_hash_coherent, Ed', <- tx_hash_coherent by done.
  by apply (bu_clear _ _ HU x y).
Qed.

Lemma blk_txs b : blk b -> Forall (tx_fine hs) (transactions b).
Proof.
  intros Hb. destruct (blk_fine b Hb) as [[_ _ _ _ (Ht & _ & _) Hx _] _]. apply Forall_forall. intros tx Htx.
  rewrite Forall_forall in Ht, Hx. destruct (Hx tx Htx). split_and!; [by apply Ht|done|done|by apply (blk_clear b)].
Qed.

Lemma blk_same b b' : blk b -> blk b' -> Block_Hash b = Block_Hash b' -> bare b = bare b'.
Proof.
  intros [(x & Hx & E) _] [(x' & Hx' & E') _] Hh. rewrite E, E'. apply (bu_inj _ _ HU); [done..|].
  pose proof (f_equal header E) as Eh. pose proof (f_equal header E') as Eh'. unfold Block_Hash in *. cbn in Eh, Eh'. by rewrite <- Eh, <- Eh'.
Qed.
Lemma blk_link b b' : blk b -> blk b' -> ParentHash (header b) = Block_Hash b' -> Number (header b) = Number (header b') + 1.
Proof.
  intros [(x & Hx & E) _] [(x' & Hx' & E') _] Hh. pose proof (f_equal header E) as Eh. pose proof (f_equal header E') as Eh'.
  unfold Block_Hash in *. cbn in Eh, Eh'. rewrite Eh, Eh' in *. by apply (bu_link _ _ HU).
Qed.

Lemma fine_number b : block_fine b -> 0 <= Number (header b) < 2 ^ 48 /\ NumberU64 b = Number (header b).
Proof.
  intros H. pose proof (header_ok_fields _ (bf_header _ H)) as (_ & Hn & _). pose proof (bf_number _ H). split; [lia|].
  unfold NumberU64. apply Big.Uint64_small. lia.
Qed.
End universe.

(** ** What the chain relies on when it runs blocks *)

Definition receipts_fine (rs : list Receipt) : Prop :=
  Forall receipt_fine rs /\ Spec.encodable (Enc.VList (map storage_receipt_value rs)) /\
  zlen (Spec.enc (Enc.VList (map storage_receipt_value rs))) < 2 ^ 62 /\
  Forall (fun r => Spec.encodable (receipt_value r) /\ zlen (Spec.enc (receipt_value r)) < 2 ^ 32) rs /\ zlen rs < 2 ^ 63.

(** States are kept valid; receipts can be encoded; a commit writes nodes, code and preimages,
    under hashes and under the prefix of the secure trie. *)
Class ExecutionOk (St : Type) {EX : Execution St} := {
  ex_inv : St -> Prop;
  ex_New_ok db root st : ex_New db root = inr st -> ex_inv st;
  ex_Reset_ok db root st st' : ex_inv st -> ex_Reset db root st = inr st' -> ex_inv st';
  ex_Process_ok db b st : ex_inv st ->
    match ex_Process db b st with
    | (Done (rs, _, _), st') => ex_inv st' /\ receipts_fine rs
    | (Error _, st') => ex_inv st'
    | _ => False
    end;
  ex_IntermediateRoot_ok db st : ex_inv st -> exists h st', ex_IntermediateRoot db st = Some (h, st') /\ ex_inv st';
  ex_Commit_ok db st : ex_inv st ->
    let '(r, (st', db')) := ex_Commit db st in
    r <> Panic /\ r <> NoFuel /\ ex_inv st' /\ exists puts, db' = batch_Write puts db /\
      Forall (fun p => (zlen p.1 = 32 \/ head p.1 = Some 115) /\ value_fine p.2) puts;
  ex_Preimages_ok st : ex_inv st -> Forall (fun p => value_fine p.2) (ex_Preimages st);
}.

Section chain.
Context {CR : Crypto} {CK : CryptoOk} {LR : Lru} {LK : LruOk} {St : Type} {EX : Execution St} {EK : ExecutionOk St}.
Variables (g : Block) (U : list Block).
Hypothesis HU : block_universe g U.
Implicit Types (T : gmap Hash Block) (b cur : Block) (k kh : Hash) (hx : Header) (f : Z -> Hash) (bc : BlockChain (St:=St)).

Abbreviation hs := (hs U).
Abbreviation blk := (blk U).
Abbreviation heads T := (header <$> T).

(** The stored blocks [T]; the current header [hx], the canonical numbering [f], the current
    block [cur] and the stored head [kh]. *)
Record bc_at T hx f cur kh (bc : BlockChain (St:=St)) : Prop := {
  at_hc : hc_ok (heads T) (header g) hx f (bc_hc bc);
  at_block k b : T !! k = Some b -> bare b = b /\ blk b /\ GetBody (bc_db bc) k (Number (header b)) = Some (Block_Body b);
  at_missing k : is_hash k -> T !! k = None -> zlen (db_get (bc_db bc) (hashKey k)) <> 8;
  at_cache k b : contents (blockCache bc) !! k = Some b -> T !! k = Some b;
  at_entries : entries_ok (bc_db bc);
  at_current : currentBlock bc = Some cur;
  at_head : GetHeadBlockHash (bc_db bc) = kh;
  at_state : exists st, stateCache bc = Some st /\ ex_inv st;
}.

Section facts.
Context T hx f cur kh bc (H : bc_at T hx f cur kh bc).

Lemma at_tree : tree (heads T) (header g).
Proof. apply (ok_tree _ _ _ _ _ (at_hc _ _ _ _ _ _ H)). Qed.
Lemma at_hash k b : T !! k = Some b -> k = Block_Hash b.
Proof. intros Hk. apply (tree_hash _ _ at_tree k (header b)). by rewrite lookup_fmap, Hk. Qed.
Lemma at_header k b : T !! k = Some b -> heads T !! k = Some (header b).
Proof. intros Hk. by rewrite lookup_fmap, Hk. Qed.
Lemma at_none k : T !! k = None -> heads T !! k = None.
Proof. intros Hk. by rewrite lookup_fmap, Hk. Qed.
Lemma at_fine k b : T !! k = Some b -> block_fine b /\ hs k.
Proof.
  intros Hk. destruct (at_block _ _ _ _ _ _ H k b Hk) as (_ & Hb & _). rewrite (at_hash k b Hk). by apply (blk_fine g).
Qed.
Lemma at_inv k h : heads T !! k = Some h -> exists b, T !! k = Some b /\ h = header b.
Proof. rewrite lookup_fmap. intros (b & E & ->)%fmap_Some. by exists b. Qed.
Lemma at_is_hash k b : T !! k = Some b -> is_hash k.
Proof. intros Hk. rewrite (at_hash k b Hk). apply is_hash_array, Hash_array. Qed.
End facts.

(** ** Frames *)

(** A call of the header chain that leaves the database as it is. *)
Lemma bc_at_hc T hx hx' f f' cur kh bc hc : bc_at T hx f cur kh bc -> hc_ok (heads T) (header g) hx' f' hc ->
  chainDb hc = bc_db bc -> bc_at T hx' f' cur kh (set_hc hc bc).
Proof.
  intros [] Hhc E. split; unfold bc_db in *; cbn [bc_hc set_hc currentBlock blockCache stateCache] in *; rewrite ?E; done.
Qed.

(** A write aside. *)
Lemma bc_at_aside T hx f cur kh bc db : bc_at T hx f cur kh bc -> fine hs (bc_db bc) db ->
  bc_at T hx f cur kh (set_hc (set_chainDb db (bc_hc bc)) bc).
Proof.
  intros H [Ha He]. pose proof (at_hc _ _ _ _ _ _ H) as Hok.
  destruct (aside_reads hs (hs_hash U) _ _ Ha (ok_old _ _ _ _ _ Hok)) as (Ho & Hh & Ht & Hb & Hn & _ & Hc & Hhd).
  split; unfold bc_db in *; cbn [bc_hc chainDb set_hc set_chainDb currentBlock blockCache stateCache] in *.
  - eapply hc_ok_reads; try done.
    + intros k h (b & Hk & _)%at_inv. apply Hn. by apply (at_fine _ _ _ _ _ _ H k b).
    + intros n Hu. rewrite Hc. by apply (ok_canon _ _ _ _ _ Hok).
  - intros k b Hk. destruct (at_block _ _ _ _ _ _ H k b Hk) as (? & ? & ?). split_and!; [done..|].
    rewrite Hb; [done|]. by eapply at_is_hash.
  - intros k Hk E. apply (as_missing _ _ _ Ha); [done|]. by apply (at_missing _ _ _ _ _ _ H).
  - apply (at_cache _ _ _ _ _ _ H).
  - done.
  - apply (at_current _ _ _ _ _ _ H).
  - rewrite Hhd. apply (at_head _ _ _ _ _ _ H).
  - apply (at_state _ _ _ _ _ _ H).
Qed.

Lemma runs_lift {A} (m : SM HeaderChain chainErr A) bc (P : A -> BlockChain (St:=St) -> Prop) :
  runs m (bc_hc bc) (fun a hc => P a (set_hc hc bc)) -> runs (lift m) bc P.
Proof. intros (a & hc & E & HP). exists a, (set_hc hc bc). split; [|done]. unfold lift. by rewrite E. Qed.

Lemma runs_and {St' Er A} (m : SM St' Er A) s (P : A -> St' -> Prop) (Q : St' -> Prop) :
  runs m s P -> Q (m s).2 -> runs m s (fun a s' => P a s' /\ Q s').
Proof. intros (a & s' & E & HP) HQ. rewrite E in HQ. by exists a, s'. Qed.

(** Writes that are aside. *)
Lemma write_or_error_fine T hx f cur kh bc w db : bc_at T hx f cur kh bc -> w (bc_db bc) = Done db -> fine hs (bc_db bc) db ->
  runs (write_or_error w) bc (fun _ bc' => bc_at T hx f cur kh bc').
Proof. intros H E Hf. unfold runs, write_or_error. rewrite E. eexists _, _. split; [done|]. by apply bc_at_aside. Qed.
Lemma write_db_fine T hx f cur kh bc w : bc_at T hx f cur kh bc -> fine hs (bc_db bc) (w (bc_db bc)) ->
  runs (write_db w) bc (fun _ bc' => bc_at T hx f cur kh bc').
Proof. intros H Hf. apply runs_lift, runs_modify. by apply bc_at_aside. Qed.

(** ** Reading *)

Lemma GetTd_db k n hc : chainDb (hc_GetTd k n hc).2 = chainDb hc.
Proof. unfold hc_GetTd. destruct (lru_Get _ _) as [[t|] c]; [done|]. by destruct (GetTd _ _ _). Qed.
Lemma GetBlockNumber_db k hc : chainDb (hc_GetBlockNumber k hc).2 = chainDb hc.
Proof. unfold hc_GetBlockNumber. destruct (lru_Get _ _) as [[t|] c]; [done|]. destruct (GetBlockNumber _ _); [|done]. by case_match. Qed.

Lemma GetTd_at T hx f cur kh bc k b t : bc_at T hx f cur kh bc -> T !! k = Some b -> total (heads T) (header g) (header b) t ->
  runs (lift (hc_GetTd k (Number (header b)))) bc (fun r bc' => r = Some t /\ bc_at T hx f cur kh bc').
Proof.
  intros H Hk Ht. apply runs_lift. eapply runs_mono.
  - eapply (runs_and _ _ _ (fun hc => chainDb hc = bc_db bc)); [|apply GetTd_db].
    eapply hc_GetTd_some; [apply (at_hc _ _ _ _ _ _ H)|by eapply at_header|done].
  - intros r hc [[-> Hok] Hdb]. split; [done|]. by eapply bc_at_hc.
Qed.
Lemma GetTd_none T hx f cur kh bc k n : bc_at T hx f cur kh bc -> T !! k = None -> is_hash k -> u64_ok n ->
  runs (lift (hc_GetTd k n)) bc (fun r bc' => r = None /\ bc_at T hx f cur kh bc').
Proof.
  intros H Hk Hh Hn. apply runs_lift. eapply runs_mono.
  - eapply (runs_and _ _ _ (fun hc => chainDb hc = bc_db bc)); [|apply GetTd_db].
    eapply hc_GetTd_none; [apply (at_hc _ _ _ _ _ _ H)|by eapply at_none|done..].
  - intros r hc [[-> Hok] Hdb]. split; [done|]. by eapply bc_at_hc.
Qed.

(** The number of a block, or the number that stands for none. *)
Lemma GetBlockNumber_at T hx f cur kh bc k : bc_at T hx f cur kh bc -> is_hash k ->
  runs (lift (hc_GetBlockNumber k)) bc (fun n bc' =>
    n = from_option (fun b => Number (header b)) missingNumber (T !! k) /\ bc_at T hx f cur kh bc').
Proof.
  intros H Hh. pose proof (at_hc _ _ _ _ _ _ H) as Hok. apply runs_lift. unfold runs, hc_GetBlockNumber.
  destruct (lru_Get k (numberCache (bc_hc bc))) as [r c] eqn:E. apply contents_got in E as [-> E].
  assert (forall c', (forall k n, contents c' !! k = Some n -> exists h, heads T !! k = Some h /\ n = Number h) ->
    hc_ok (heads T) (header g) hx f (set_caches (headerCache (bc_hc bc)) (tdCache (bc_hc bc)) c' (bc_hc bc))) as Hc.
  { intros c' Hc'. apply hc_ok_caches; [done|by destruct Hok|by destruct Hok|done]. }
  assert (forall k n, contents c !! k = Some n -> exists h, heads T !! k = Some h /\ n = Number h) as Hcc by (rewrite E; by destruct Hok).
  destruct (contents (numberCache (bc_hc bc)) !! k) as [n|] eqn:Ec.
  - destruct (ok_numberCache _ _ _ _ _ Hok _ _ Ec) as (h & (b & Hk & ->)%at_inv & ->). eexists _, _. split; [done|]. rewrite Hk.
    split; [done|]. eapply bc_at_hc; [done|by apply Hc|done].
  - cbn [chainDb set_caches]. destruct (T !! k) as [b|] eqn:Hk.
    + rewrite (ok_number _ _ _ _ _ Hok k (header b)) by (by eapply at_header). eexists _, _. split; [done|]. split; [done|].
      destruct (at_fine _ _ _ _ _ _ H k b Hk) as [Hf _]. destruct (fine_number b Hf) as [Hn _].
      rewrite (proj2 (Z.eqb_neq _ _)) by (unfold missingNumber; lia). eapply bc_at_hc; [done| |done].
      cbn [headerCache tdCache numberCache set_caches]. apply (Hc (lru_Add k (Number (header b)) c)).
      intros k' n' [[-> ->]|[_ Hk']]%contents_Add; [|by apply Hcc]. exists (header b). split; [by eapply at_header|done].
    + assert (GetBlockNumber (chainDb (bc_hc bc)) k = Some missingNumber) as ->.
      { unfold GetBlockNumber. rewrite (proj2 (Z.eqb_neq _ _)) by (by apply (at_missing _ _ _ _ _ _ H)). cbn [negb].
        by destruct (proj2 (ok_old _ _ _ _ _ Hok) k Hh) as [-> _]. }
      eexists _, _. split; [done|]. split; [done|]. rewrite Z.eqb_refl. eapply bc_at_hc; [done|by apply Hc|done].
Qed.

(** Only the caches of blocks differ. *)
Lemma bc_at_blocks T hx f cur kh bc c c' c'' : bc_at T hx f cur kh bc -> (forall k b, contents c !! k = Some b -> T !! k = Some b) ->
  bc_at T hx f cur kh (set_blocks c c' c'' bc).
Proof. intros [] Hc. by split. Qed.

Lemma GetBlock_at T hx f cur kh bc k n : bc_at T hx f cur kh bc -> is_hash k -> u64_ok n ->
  (forall b, T !! k = Some b -> n = Number (header b)) ->
  runs (bc_GetBlock k n) bc (fun r bc' => r = T !! k /\ bc_at T hx f cur kh bc').
Proof.
  intros H Hh Hu Hn. pose proof (at_hc _ _ _ _ _ _ H) as Hok. unfold runs, bc_GetBlock.
  destruct (lru_Get k (blockCache bc)) as [r c] eqn:E. apply contents_got in E as [-> E].
  assert (forall k b, contents c !! k = Some b -> T !! k = Some b) as Hc by (rewrite E; by destruct H).
  destruct (contents (blockCache bc) !! k) as [b|] eqn:Ec.
  - rewrite (at_cache _ _ _ _ _ _ H k b Ec). eexists _, _. split; [done|]. split; [done|]. by apply bc_at_blocks.
  - change (bc_db (set_blockCache c bc)) with (bc_db bc). unfold GetBlock. destruct (T !! k) as [b|] eqn:Hk.
    + assert (GetHeader (bc_db bc) k n = Some (header b)) as ->.
      { apply (ok_header _ _ _ _ _ Hok); [done..|]. split; [by eapply at_header|by apply Hn]. }
      destruct (at_block _ _ _ _ _ _ H k b Hk) as (_ & _ & Hb). rewrite (Hn b eq_refl), Hb. cbn [mbind option_bind].
      replace (WithBody _ _ _) with b by (by destruct b). eexists _, _. split; [done|]. split; [done|].
      apply bc_at_blocks; [by apply bc_at_blocks|]. rewrite <- (at_hash _ _ _ _ _ _ H k b Hk).
      intros k' b' [[-> ->]|[_ Hk']]%contents_Add; [done|by apply Hc].
    + assert (GetHeader (bc_db bc) k n = None) as ->.
      { destruct (GetHeader (bc_db bc) k n) as [h|] eqn:Eh; [|done]. apply (ok_header _ _ _ _ _ Hok) in Eh as [Eh _]; [|done..].
        apply at_inv in Eh as (b & Hb & _). congruence. }
      eexists _, _. split; [done|]. split; [done|]. by apply bc_at_blocks.
Qed.

Lemma parent_at T hx f cur kh bc b : bc_at T hx f cur kh bc -> blk b ->
  runs (parent_block b) bc (fun r bc' => r = T !! ParentHash (header b) /\ bc_at T hx f cur kh bc').
Proof.
  intros H Hb. destruct (blk_fine g U HU b Hb) as [Hf _]. destruct (fine_number b Hf) as [Hn En].
  unfold parent_block. apply GetBlock_at; [done| |apply u64_range|].
  - apply is_hash_array. by apply (header_ok_fields _ (bf_header _ Hf)).
  - intros p Hp. destruct (at_block _ _ _ _ _ _ H _ p Hp) as (_ & Hbp & _). pose proof (at_hash _ _ _ _ _ _ H _ p Hp) as Eh.
    pose proof (blk_link g U HU b p Hb Hbp Eh). destruct (at_fine _ _ _ _ _ _ H _ p Hp) as [Hfp _].
    destruct (fine_number p Hfp) as [Hnp _]. rewrite En, u64_small; lia.
Qed.

Lemma GetBlockByHash_at T hx f cur kh bc k : bc_at T hx f cur kh bc -> is_hash k ->
  runs (GetBlockByHash k) bc (fun r bc' => r = T !! k /\ bc_at T hx f cur kh bc').
Proof.
  intros H Hh. unfold GetBlockByHash. apply runs_bind. eapply runs_mono; [by apply GetBlockNumber_at|]. intros n bc1 [-> H1].
  apply GetBlock_at; [done|done| |by intros b ->]. destruct (T !! k) as [b|] eqn:Hk; [|done].
  destruct (at_fine _ _ _ _ _ _ H k b Hk) as [Hf _]. destruct (fine_number b Hf) as [Hn _]. unfold u64_ok. cbn. lia.
Qed.

Lemma collectLogs_at T hx f cur kh bc k : bc_at T hx f cur kh bc -> is_hash k ->
  runs (collectLogs k) bc (fun _ bc' => bc_at T hx f cur kh bc').
Proof.
  intros H Hh. unfold collectLogs. apply runs_bind. eapply runs_mono; [by apply GetBlockNumber_at|]. intros n bc1 [_ H1].
  by apply runs_bind, runs_gets, runs_ret.
Qed.

(** ** Storing a block *)

Lemma entries_header_writes db h : entries_ok db -> header_ok h -> forall db', WriteHeader h db = Done db' -> entries_ok db'.
Proof.
  intros He Hh db' E. destruct (header_encoding h Hh) as (HE & _ & _). unfold WriteHeader in E. rewrite HE in E.
  assert (db' = <[headerKey (Hash_ h) (Big.Uint64 (Number h)) := Spec.enc (header_value h)]>
                  (<[hashKey (Hash_ h) := encodeBlockNumber (Big.Uint64 (Number h))]> db)) as -> by (cbn [mbind outcome_bind] in E; congruence).
  apply entries_insert; [apply entries_insert; [done| |right; by left]| |right; by left].
  - split; [apply Big.is_bytes_be_fixed|]. by rewrite zlen_number.
  - destruct Hh as [Ht Hl]. split; [|done]. apply is_bytes_enc; [|lia]. by apply (typed_encodable header_type header_strict).
Qed.
Lemma entries_td_write db k n t : entries_ok db -> td_ok t -> forall db', WriteTd k n t db = Done db' -> entries_ok db'.
Proof.
  intros He Ht db' E. pose proof Ht as [H0 H4096]. destruct (td_encoding t Ht) as (HE & _ & _). unfold WriteTd in E. rewrite HE in E.
  assert (db' = <[tdKey k n := Spec.string (Big.Bytes t)]> db) as -> by (cbn [mbind outcome_bind] in E; congruence). apply entries_insert; [done| |right; by left].
  assert (zlen (Big.Bytes t) <= 512) as Hl.
  { apply Big.zlen_Bytes_le; [lia|]. rewrite Z.abs_eq by done. by change (256 ^ 512) with (2 ^ 4096). }
  pose proof (zlen_string_bound (Big.Bytes t) ltac:(lia)).
  split; [|lia]. apply (is_bytes_enc (Enc.VBytes (Big.Bytes t))); [constructor; apply Big.is_bytes_Bytes|cbn [Spec.enc]; lia].
Qed.

(** The keys of the writes. *)
Lemma WriteTd_raw db k n t : td_ok t -> WriteTd k n t db = Done (<[tdKey k n := Spec.string (Big.Bytes t)]> db).
Proof. intros Ht. destruct (td_encoding t Ht) as (HE & _ & _). unfold WriteTd. by rewrite HE. Qed.
Lemma WriteHeader_raw db h : header_ok h -> WriteHeader h db =
  Done (<[headerKey (Hash_ h) (Big.Uint64 (Number h)) := Spec.enc (header_value h)]>
          (<[hashKey (Hash_ h) := encodeBlockNumber (Big.Uint64 (Number h))]> db)).
Proof. intros Hh. destruct (header_encoding h Hh) as (HE & _ & _). unfold WriteHeader. by rewrite HE. Qed.

Lemma extends_at T hx f cur kh bc b : bc_at T hx f cur kh bc -> blk b ->
  extends (heads T) (header b) /\ (T !! Block_Hash b = None \/ T !! Block_Hash b = Some (bare b)).
Proof.
  intros H Hb. destruct (blk_fine g U HU b Hb) as [[H1 H2 H3 H4 _ _ _] _].
  assert (T !! Block_Hash b = None \/ T !! Block_Hash b = Some (bare b)) as Hor.
  { destruct (T !! Block_Hash b) as [x|] eqn:E; [right|by left]. destruct (at_block _ _ _ _ _ _ H _ x E) as (Ex & Hx & _).
    rewrite <- Ex. f_equal. symmetry. apply (blk_same g U HU); [done..|]. by eapply at_hash. }
  split; [|done]. split_and!; [done|lia|done|done|]. unfold Block_Hash in Hor. rewrite lookup_fmap. by destruct Hor as [-> | ->]; [left|right].
Qed.

(** What the writes of a block and of its total difficulty [td] leave in the database. *)
Record block_written b (td : Z) (db db' : Db) : Prop := {
  bw_old : no_old db';
  bw_td k n : is_hash k -> u64_ok n -> GetTd db' k n = if decide (k = Block_Hash b /\ n = Number (header b)) then Some td else GetTd db k n;
  bw_header k n : is_hash k -> u64_ok n ->
    GetHeader db' k n = if decide (k = Block_Hash b /\ n = Number (header b)) then Some (header b) else GetHeader db k n;
  bw_number k : is_hash k -> GetBlockNumber db' k = if decide (k = Block_Hash b) then Some (Number (header b)) else GetBlockNumber db k;
  bw_body k n : is_hash k -> u64_ok n ->
    GetBody db' k n = if decide (k = Block_Hash b /\ n = Number (header b)) then Some (Block_Body (bare b)) else GetBody db k n;
  bw_canon m : GetCanonicalHash db' m = GetCanonicalHash db m;
  bw_missing k : is_hash k -> k <> Block_Hash b -> db_get db' (hashKey k) = db_get db (hashKey k);
  bw_entries : entries_ok db';
  bw_head : GetHeadBlockHash db' = GetHeadBlockHash db;
}.

Lemma written b td db : block_fine b -> td_ok td -> no_old db -> entries_ok db ->
  exists db1 db2, WriteTd (Block_Hash b) (Number (header b)) td db = Done db1 /\ WriteBlock b db1 = Done db2 /\ block_written b td db db2.
Proof.
  intros Hf Htd Ho He. destruct (fine_number b Hf) as [Hn En]. assert (u64_ok (Number (header b))) as Hu by (unfold u64_ok; lia).
  pose proof (is_hash_array _ (Hash_array (header b))) as Hh.
  destruct (WriteTd_spec db (Block_Hash b) (Number (header b)) td Ho Hh Hu Htd) as (db1 & W1 & O1 & Td1 & Hd1 & Nm1 & Ca1).
  destruct (WriteBody_spec db1 (Block_Hash b) (Number (header b)) (Block_Body b) O1 Hh ltac:(lia) (bf_body _ Hf))
    as (db2 & W2 & R2 & O2 & Bo2 & Hd2 & Td2 & Nm2 & Ca2).
  destruct (WriteHeader_spec db2 (header b) O2 (bf_header _ Hf) Hu) as (db3 & W3 & O3 & Hd3 & Nm3 & Td3 & Ca3).
  pose proof (WriteTd_raw db (Block_Hash b) (Number (header b)) _ Htd) as R1. rewrite W1 in R1.
  pose proof (WriteHeader_raw db2 (header b) (bf_header _ Hf)) as R3. rewrite W3 in R3. rewrite Big.Uint64_small in R3 by done.
  exists db1, db3. split; [done|]. split; [unfold WriteBlock; rewrite En, W2; exact W3|]. split.
  - done.
  - intros k n Hk Hn'. rewrite Td3, Td2, Td1 by done. done.
  - intros k n Hk Hn'. rewrite Hd3, Hd2, Hd1 by done. done.
  - intros k Hk. rewrite Nm3, Nm2, Nm1 by done. done.
  - intros k n Hk Hn'. rewrite (GetBody_frame db2 db3), Bo2 by (done || (intros; injection R3 as ->; rewrite !db_get_insert, !decide_False; [done|..]; by intros <-)).
    case_decide; [done|]. apply GetBody_frame; [|done]. intros x Hx98 _ _. injection R1 as ->. rewrite !db_get_insert, !decide_False; [done|..]; by intros <-.
  - intros m. by rewrite Ca3, Ca2, Ca1.
  - intros k Hk Hne. injection R3 as ->. injection R1 as ->. subst db2.
    rewrite db_get_insert, decide_False by key_ne. rewrite db_get_insert, decide_False by (intros E; by apply hashKey_inj in E).
    rewrite db_get_insert, decide_False by key_ne. rewrite db_get_insert, decide_False by key_ne. done.
  - eapply entries_header_writes; [|apply (bf_header _ Hf)|exact W3]. subst db2. destruct (body_encoding _ (bf_body _ Hf)) as (_ & _ & Hby & _).
    apply entries_insert; [|split; [done|apply (bf_body _ Hf)]|right; by left]. eapply entries_td_write; [exact He|exact Htd|exact W1].
  - injection R3 as ->. injection R1 as ->. subst db2. unfold GetHeadBlockHash. rewrite !db_get_insert, !decide_False by done. done.
Qed.

Lemma td_bound T b p t : tree (heads T) (header g) -> extends (heads T) (header b) -> heads T !! ParentHash (header b) = Some (header p) ->
  Number (header b) = Number (header p) + 1 -> total (heads T) (header g) (header p) t -> Number (header b) < 2 ^ 48 -> td_ok (Difficulty (header b) + t).
Proof.
  intros Htree Hx Hph Hlink Ht Hn. pose proof (tree_extend _ _ _ _ Htree Hx Hph Hlink) as Htree'. pose proof (extend_sub _ _ Hx) as HT.
  assert (total (<[Hash_ (header b) := header b]> (heads T)) (header g) (header b) (Difficulty (header b) + t)) as Htot.
  { econstructor; [by eapply lookup_weaken|done|by eapply total_mono]. }
  pose proof (total_bound _ _ _ _ Htree' (lookup_insert_eq _ _ _) Htot). unfold td_ok.
  change (2 ^ 4096) with (2 ^ 62 * 2 ^ 256 * 2 ^ 3778). nia.
Qed.

Lemma store_block_at T hx f cur kh bc b p t : bc_at T hx f cur kh bc -> blk b -> T !! ParentHash (header b) = Some p ->
  total (heads T) (header g) (header p) t ->
  runs (lift (hc_WriteTd (Block_Hash b) (NumberU64 b) (Difficulty (header b) + t))) bc (fun _ bc1 =>
    runs (lift (or_crit (WriteBlock b))) bc1 (fun _ bc' => bc_at (<[Block_Hash b := bare b]> T) hx f cur kh bc')).
Proof.
  intros H Hb Hp Ht. pose proof (at_hc _ _ _ _ _ _ H) as Hok. pose proof (at_tree _ _ _ _ _ _ H) as Htree.
  destruct (extends_at _ _ _ _ _ _ b H Hb) as [Hx Hor]. destruct (blk_fine g U HU b Hb) as [Hf _]. destruct (fine_number b Hf) as [Hn En].
  destruct (at_block _ _ _ _ _ _ H _ p Hp) as (_ & Hbp & _).
  pose proof (blk_link g U HU b p Hb Hbp (at_hash _ _ _ _ _ _ H _ p Hp)) as Hlink. pose proof (at_header T _ p Hp) as Hph.
  pose proof (td_bound T b p t Htree Hx Hph Hlink Ht (proj2 Hn)) as Htd.
  destruct (written b _ (bc_db bc) Hf Htd) as (db1 & db2 & W1 & W2 & BW);
    [apply (ok_old _ _ _ _ _ Hok)|apply (at_entries _ _ _ _ _ _ H)|].
  rewrite En. apply runs_lift. unfold hc_WriteTd. apply runs_bind. eapply runs_crit; [exact W1|]. apply runs_modify.
  apply runs_lift. eapply runs_crit; [exact W2|].
  split; unfold bc_db in *; cbn [bc_hc chainDb set_hc set_chainDb set_caches currentBlock blockCache stateCache tdCache headerCache numberCache] in *.
  - rewrite fmap_insert. cbn [header bare]. eapply (hc_ok_stored _ _ _ _ (bc_hc bc) _ (header p) t); try done; try apply BW.
    intros k v. apply contents_Add.
  - intros k x [[<- <-]|[Hne Hk]]%lookup_insert_Some.
    + split_and!; [apply bare_bare|by apply blk_bare|]. rewrite (bw_body _ _ _ _ BW); [by rewrite decide_True|apply is_hash_array, Hash_array|unfold u64_ok; cbn [header bare]; lia].
    + destruct (at_block _ _ _ _ _ _ H k x Hk) as (? & ? & HB). pose proof (at_is_hash _ _ _ _ _ _ H k x Hk) as Hkh. split_and!; [done..|].
      destruct (at_fine _ _ _ _ _ _ H k x Hk) as [Hfx _]. destruct (fine_number x Hfx) as [? _].
      rewrite (bw_body _ _ _ _ BW) by (done || unfold u64_ok; lia). by rewrite decide_False by naive_solver.
  - intros k Hk [HkT Hne]%lookup_insert_None. rewrite (bw_missing _ _ _ _ BW) by done. by apply (at_missing _ _ _ _ _ _ H).
  - intros k x Hk. apply (at_cache _ _ _ _ _ _ H) in Hk. destruct (decide (k = Block_Hash b)) as [->|].
    + rewrite lookup_insert_eq. destruct Hor; congruence.
    + by rewrite lookup_insert_ne.
  - apply BW.
  - apply (at_current _ _ _ _ _ _ H).
  - rewrite (bw_head _ _ _ _ BW). apply (at_head _ _ _ _ _ _ H).
  - apply (at_state _ _ _ _ _ _ H).
Qed.

(** ** A new head *)

(** A write under a key of the header chain or of the heads. *)
Lemma bc_at_put T hx f f' cur kh kh' bc x v : bc_at T hx f cur kh bc ->
  hc_ok (heads T) (header g) hx f' (set_chainDb (<[x := v]> (bc_db bc)) (bc_hc bc)) ->
  head x = Some 104 \/ head x = Some 76 -> value_fine v -> GetHeadBlockHash (<[x := v]> (bc_db bc)) = kh' ->
  bc_at T hx f' cur kh' (set_hc (set_chainDb (<[x := v]> (bc_db bc)) (bc_hc bc)) bc).
Proof.
  intros H Hok Hx Hv Hk. split; unfold bc_db in *; cbn [bc_hc chainDb set_hc set_chainDb currentBlock blockCache stateCache] in *; try done.
  - intros k b HkT. destruct (at_block _ _ _ _ _ _ H k b HkT) as (? & ? & HB). split_and!; [done..|]. rewrite <- HB.
    apply GetBody_frame; [|by eapply at_is_hash]. intros y Hy _ _. rewrite db_get_insert, decide_False; [done|]. intros ->. destruct Hx; congruence.
  - intros k Hkh HkT. rewrite db_get_insert, decide_False; [by apply (at_missing _ _ _ _ _ _ H)|]. intros ->. by destruct Hx.
  - apply (at_cache _ _ _ _ _ _ H).
  - apply entries_insert; [apply (at_entries _ _ _ _ _ _ H)|done|]. right; left. destruct Hx; congruence.
  - apply (at_current _ _ _ _ _ _ H).
  - apply (at_state _ _ _ _ _ _ H).
Qed.

Lemma hash_value b : value_fine (Block_Hash b).
Proof. destruct (Hash_array (header b)) as [Hl Hb]. split; [done|]. unfold Block_Hash. lia. Qed.

Lemma canonical_at T hx f cur kh bc b : bc_at T hx f cur kh bc -> block_fine b ->
  runs (write_db (WriteCanonicalHash (Block_Hash b) (NumberU64 b))) bc (fun _ bc' =>
    bc_at T hx (fun m => if decide (m = Number (header b)) then Block_Hash b else f m) cur kh bc').
Proof.
  intros H Hf. destruct (fine_number b Hf) as [Hn ->]. apply runs_lift, runs_modify. eapply bc_at_put; [done| |by left|apply hash_value|].
  - apply (write_canon_ok _ _ _ _ _ (Block_Hash b) (Number (header b)) (at_hc _ _ _ _ _ _ H)); [apply Hash_array|unfold u64_ok; lia].
  - rewrite <- (at_head _ _ _ _ _ _ H). unfold GetHeadBlockHash. by rewrite db_get_insert, decide_False.
Qed.

Lemma head_at T hx f cur kh bc b : bc_at T hx f cur kh bc ->
  runs (write_db (WriteHeadBlockHash (Block_Hash b))) bc (fun _ bc' => bc_at T hx f cur (Block_Hash b) bc').
Proof.
  intros H. pose proof (at_hc _ _ _ _ _ _ H) as Hok. pose proof (ok_old _ _ _ _ _ Hok) as Ho.
  apply runs_lift, runs_modify. eapply bc_at_put; [done| |by right|apply hash_value|].
  - assert (no_old (<[headBlockKey := Block_Hash b]> (bc_db bc))) as Ho' by (by apply no_old_insert).
    eapply hc_ok_reads; [done|done|..].
    + intros k n Hk. rewrite !GetHeader_new by done. read_other.
    + intros k n Hk. rewrite !GetTd_new by done. read_other.
    + intros k h Hk. assert (is_hash k) by (eapply tree_is_hash; [by eapply at_tree|done]). unfold GetBlockNumber. read_other.
    + intros n Hn. rewrite <- (ok_canon _ _ _ _ _ Hok) by done. rewrite !GetCanonicalHash_new by done. read_other.
  - unfold GetHeadBlockHash. rewrite db_get_insert, decide_True by done. apply hash_of_array, Hash_array.
Qed.

Lemma bc_at_heads T hx f cur kh bc gb cur' fast : bc_at T hx f cur kh bc -> bc_at T hx f cur' kh (set_heads gb (Some cur') fast bc).
Proof. intros []. by split. Qed.
Lemma bc_at_fast T hx f cur kh bc fast : bc_at T hx f cur kh bc -> bc_at T hx f cur kh (set_currentFastBlock fast bc).
Proof. intros H. pose proof (at_current _ _ _ _ _ _ H) as E. destruct H. by split. Qed.

Lemma set_header_at T hx f cur kh bc b : bc_at T hx f cur kh bc -> T !! Block_Hash b = Some (bare b) ->
  runs (lift (SetCurrentHeader (header b))) bc (fun _ bc' => bc_at T (header b) f cur kh bc').
Proof.
  intros H Hb. apply runs_lift. unfold SetCurrentHeader. apply runs_bind, runs_modify, runs_modify.
  assert (bc_at T hx f cur kh (set_hc (set_chainDb (WriteHeadHeaderHash (Block_Hash b) (bc_db bc)) (bc_hc bc)) bc)) as H1.
  { apply bc_at_aside; [done|]. split.
    - apply aside_insert_other; [apply hs_hash|right; right; right; by left|by left].
    - apply entries_insert; [apply (at_entries _ _ _ _ _ _ H)|apply hash_value|right; by left]. }
  eapply (bc_at_hc T hx (header b) f f cur kh _ _ H1); [|done].
  eapply set_current_ok; [apply (at_hc _ _ _ _ _ _ H1)|]. by apply (at_header T _ (bare b)).
Qed.

Lemma insert_at T hx f cur kh bc b : bc_at T hx f cur kh bc -> blk b -> T !! Block_Hash b = Some (bare b) ->
  runs (insert b) bc (fun _ bc' => exists hx',
    bc_at T hx' (fun m => if decide (m = Number (header b)) then Block_Hash b else f m) b (Block_Hash b) bc').
Proof.
  intros H Hb HT. destruct (blk_fine g U HU b Hb) as [Hf _]. unfold insert. apply runs_bind, runs_gets, runs_bind.
  eapply runs_mono; [by eapply canonical_at|]. intros [] bc1 H1. apply runs_bind.
  eapply runs_mono; [by eapply head_at|]. intros [] bc2 H2. apply runs_bind, runs_modify.
  apply (bc_at_heads _ _ _ _ _ _ (genesisBlock bc2) b (currentFastBlock bc2)) in H2. destruct (negb _).
  - apply runs_bind. eapply runs_mono; [by apply (set_header_at _ _ _ _ _ _ b H2)|]. intros [] bc3 H3. apply runs_bind.
    eapply runs_mono; [apply (write_db_fine _ _ _ _ _ _ _ H3)|].
    + split.
      * apply aside_insert_other; [apply hs_hash|by right; right; right; right|by left].
      * apply entries_insert; [apply (at_entries _ _ _ _ _ _ H3)|apply hash_value|right; by left].
    + intros [] bc4 H4. apply runs_modify. exists (header b). by apply bc_at_fast.
  - apply runs_ret. by exists hx.
Qed.
End chain.
