(* ===== verification/BlockChainReorg.v ===== *)
(** Reorganisation: the blocks of the new branch become canonical down to the block where
    the branches meet; and writing a block, which keeps the heaviest one canonical. *)
From S2P Require Import Prelude GoBig CommonMath CommonTypes Rlp RlpDecode RlpDecodeOk RlpDecodeTheorems VmTypes StateTransition.
From S2P Require Import TxTypes BlockTypes DeriveSha Consensus ChainDb ChainDbOk ChainTables HeaderChain.
From S2P Require Import HeaderChainOk BlockChain BlockChainOk.
Import Types.

Section reorg.
Context {CR : Crypto} {CK : CryptoOk} {LR : Lru} {LK : LruOk} {St : Type} {EX : Execution St} {EK : ExecutionOk St}.
Variables (g : Block) (U : list Block).
Hypothesis HU : block_universe g U.
Implicit Types (T : gmap Hash Block) (b o n p cur : Block) (k kh : Hash) (hx : Header) (f : Z -> Hash) (bc : BlockChain (St:=St)).

Abbreviation hs := (hs U).
Abbreviation blk := (blk U).
Abbreviation heads T := (header <$> T).
Abbreviation bc_at := (bc_at g U).

Definition stored T b : Prop := blk b /\ T !! Block_Hash b = Some (bare b).

Section facts.
Context T hx f cur kh bc (H : bc_at T hx f cur kh bc).

Lemma stored_at k b : T !! k = Some b -> stored T b.
Proof.
  intros Hk. destruct (at_block _ _ _ _ _ _ _ _ H k b Hk) as (E & Hb & _). split; [done|]. rewrite E.
  by rewrite <- (at_hash _ _ _ _ _ _ _ _ H k b Hk).
Qed.
Lemma stored_header b : stored T b -> heads T !! Hash_ (header b) = Some (header b).
Proof. intros [_ Hb]. by apply (at_header T _ (bare b)). Qed.
Lemma stored_number b : stored T b -> 0 <= Number (header b) < 2 ^ 48 /\ NumberU64 b = Number (header b).
Proof. intros [Hb _]. apply fine_number. by apply (blk_fine g U HU). Qed.

Lemma stored_parent b : stored T b -> Number (header b) <> 0 ->
  exists p, T !! ParentHash (header b) = Some p /\ stored T p /\ Number (header b) = Number (header p) + 1 /\
    heads T !! ParentHash (header b) = Some (header p).
Proof.
  intros Hb Hn. pose proof (at_tree _ _ _ _ _ _ _ _ H) as Ht.
  destruct (tree_parent _ _ Ht _ _ (stored_header b Hb)) as [E|(h & Hh & E)].
  - destruct (tree_genesis _ _ Ht) as [_ H0]. rewrite E in Hn. lia.
  - apply at_inv in Hh as (p & Hp & ->). exists p. split_and!; [done|by eapply stored_at|done|by apply (at_header T _ p)].
Qed.

Lemma stored_root b b' : stored T b -> stored T b' -> Number (header b) = 0 -> Number (header b') = 0 -> Block_Hash b = Block_Hash b'.
Proof.
  intros Hb Hb' Hn Hn'. pose proof (at_tree _ _ _ _ _ _ _ _ H) as Ht. unfold Block_Hash.
  by rewrite (tree_root _ _ _ _ Ht (stored_header b Hb) Hn), (tree_root _ _ _ _ Ht (stored_header b' Hb') Hn').
Qed.
Lemma stored_eq b b' : stored T b -> stored T b' -> Block_Hash b = Block_Hash b' -> header b = header b'.
Proof. intros [_ Hb] [_ Hb'] E. rewrite E, Hb' in Hb. by injection Hb. Qed.

Lemma parent_stored b : stored T b -> Number (header b) <> 0 ->
  runs (parent_block b) bc (fun r bc' => bc_at T hx f cur kh bc' /\ exists p, r = Some p /\ stored T p /\
    Number (header b) = Number (header p) + 1 /\ heads T !! ParentHash (header b) = Some (header p)).
Proof.
  intros Hb Hn. destruct (stored_parent b Hb Hn) as (p & Hp & ? & ? & ?). eapply runs_mono; [apply (parent_at g U HU _ _ _ _ _ _ b H (proj1 Hb))|].
  intros r bc' [-> H']. split; [done|]. by exists p.
Qed.
End facts.

(** ** The loops *)

(** The blocks from [b] towards the genesis block. *)
Definition seg T b (xs : list Block) : Prop :=
  forall i x, xs !! i = Some x -> stored T x /\ anc (heads T) i (header b) = Some (header x).

Lemma seg_nil T b : seg T b [].
Proof. intros i x. by rewrite lookup_nil. Qed.
Lemma seg_cons T b p xs : stored T b -> heads T !! ParentHash (header b) = Some (header p) -> seg T p xs -> seg T b (b :: xs).
Proof.
  intros Hb Hp Hs [|i] x; cbn [lookup list_lookup]; [by intros [= <-]|]. intros Hx. destruct (Hs i x Hx). split; [done|].
  cbn [anc]. by rewrite Hp.
Qed.
Lemma seg_app T b b' xs ys : seg T b xs -> anc (heads T) (length xs) (header b) = Some (header b') -> seg T b' ys -> seg T b (xs ++ ys).
Proof.
  intros Hx Ha Hy i x [Hi|[Hle Hi]]%lookup_app_Some; [by apply Hx|]. destruct (Hy _ _ Hi) as [? Hi']. split; [done|].
  replace i with (length xs + (i - length xs))%nat by lia. by rewrite anc_add, Ha.
Qed.
Lemma seg_stored T b xs : seg T b xs -> Forall (stored T) xs.
Proof. intros Hs. apply Forall_lookup. intros i x Hx. by apply (Hs i). Qed.

(** Transactions that can be deleted. *)
Definition gone (txs : list Transaction) : Prop := Forall (fun tx => coherent tx /\ clear_tx hs tx) txs.

Lemma gone_block b : blk b -> gone (transactions b).
Proof.
  intros Hb. eapply Forall_impl; [apply (blk_txs g U HU b Hb)|]. by intros tx (_ & ? & _ & ?).
Qed.

Lemma reduce_new_at T hx f cur kh fuel : forall bc b m, bc_at T hx f cur kh bc -> stored T b -> 0 <= m <= Number (header b) ->
  (Z.to_nat (Number (header b) - m) <= fuel)%nat ->
  runs (reduce_new fuel (Some b) m) bc (fun r bc' => bc_at T hx f cur kh bc' /\ exists b', r.1 = Some b' /\ stored T b' /\
    Number (header b') = m /\ anc (heads T) (length (newChain r.2)) (header b) = Some (header b') /\
    seg T b (newChain r.2) /\ gone (deletedTxs r.2)).
Proof.
  induction fuel as [|fuel IH]; intros bc b m H Hb Hm Hf; destruct (stored_number T b Hb) as [Hn En]; cbn [reduce_new]; rewrite En.
  - rewrite (proj2 (Z.eqb_eq _ _)) by lia. apply runs_ret. split; [done|]. exists b. split_and!; try done; (lia || constructor).
  - destruct (Z.eqb_spec (Number (header b)) m) as [E|E].
    + apply runs_ret. split; [done|]. exists b. split_and!; try done; constructor.
    + apply runs_bind. eapply runs_mono; [eapply (parent_stored T hx f cur kh bc H b Hb); lia|].
      intros r bc1 (H1 & p & -> & Hp & Hnp & Hh). apply runs_bind. eapply runs_mono; [apply (IH bc1 p m H1 Hp); lia|].
      intros [r s] bc2 (H2 & b' & Er & ? & ? & Ha & Hs & Hg). cbn [fst snd] in *. subst r. apply runs_ret. split; [done|]. exists b'. cbn [fst snd newChain add_block deletedTxs] in *.
      split_and!; try done; [cbn [length anc]; by rewrite Hh|by eapply seg_cons].
Qed.

Lemma reduce_old_at T hx f cur kh fuel : forall bc b m, bc_at T hx f cur kh bc -> stored T b -> 0 <= m <= Number (header b) ->
  (Z.to_nat (Number (header b) - m) <= fuel)%nat ->
  runs (reduce_old fuel (Some b) m) bc (fun r bc' => bc_at T hx f cur kh bc' /\ exists b', r.1 = Some b' /\ stored T b' /\
    Number (header b') = m /\ anc (heads T) (Z.to_nat (Number (header b) - m)) (header b) = Some (header b') /\
    newChain r.2 = [] /\ gone (deletedTxs r.2)).
Proof.
  induction fuel as [|fuel IH]; intros bc b m H Hb Hm Hf; destruct (stored_number T b Hb) as [Hn En]; cbn [reduce_old]; rewrite En.
  - rewrite (proj2 (Z.eqb_eq _ _)) by lia. apply runs_ret. split; [done|]. exists b.
    replace (Z.to_nat (Number (header b) - m)) with O by lia. split_and!; try done; [lia|constructor].
  - destruct (Z.eqb_spec (Number (header b)) m) as [E|E].
    + apply runs_ret. split; [done|]. exists b. replace (Z.to_nat (Number (header b) - m)) with O by lia. split_and!; try done. constructor.
    + apply runs_bind. eapply runs_mono; [apply (collectLogs_at g U HU _ _ _ _ _ _ (Block_Hash b) H), is_hash_array, Hash_array|]. intros logs bc0 H0.
      apply runs_bind. eapply runs_mono; [eapply (parent_stored T hx f cur kh bc0 H0 b Hb); lia|].
      intros r bc1 (H1 & p & -> & Hp & Hnp & Hh). apply runs_bind. eapply runs_mono; [apply (IH bc1 p m H1 Hp); lia|].
      intros [r s] bc2 (H2 & b' & Er & ? & ? & Ha & Hs & Hg). cbn [fst snd] in *. subst r. apply runs_ret. split; [done|]. exists b'. cbn [fst snd newChain drop_block deletedTxs] in *.
      split_and!; try done.
      * replace (Z.to_nat (Number (header b) - m)) with (S (Z.to_nat (Number (header p) - m))) by lia. cbn [anc]. by rewrite Hh.
      * apply Forall_app_2; [apply gone_block, Hb|done].
Qed.

Lemma find_common_at T hx f cur kh fuel : forall bc o n, bc_at T hx f cur kh bc -> stored T o -> stored T n ->
  Number (header o) = Number (header n) -> (Z.to_nat (Number (header o)) <= fuel)%nat ->
  runs (find_common fuel o n) bc (fun s bc' => bc_at T hx f cur kh bc' /\ seg T n (newChain s) /\ gone (deletedTxs s) /\
    exists c, anc (heads T) (length (newChain s)) (header n) = Some c /\ anc (heads T) (length (newChain s)) (header o) = Some c).
Proof.
  assert (forall bc o n, bc_at T hx f cur kh bc -> stored T o -> stored T n -> Block_Hash o = Block_Hash n ->
    runs (mret no_split : SM BlockChain bcErr split) bc (fun s bc' => bc_at T hx f cur kh bc' /\ seg T n (newChain s) /\ gone (deletedTxs s) /\
      exists c, anc (heads T) (length (newChain s)) (header n) = Some c /\ anc (heads T) (length (newChain s)) (header o) = Some c)) as Hend.
  { intros bc o n H Ho Hn E. apply runs_ret. split_and!; [done|apply seg_nil|constructor|]. exists (header n). split; [done|].
    cbn. f_equal. by apply (stored_eq T o n). }
  induction fuel as [|fuel IH]; intros bc o n H Ho Hn En Hf; cbn [find_common]; case_bool_decide as E.
  - by apply Hend.
  - destruct E. destruct (stored_number T o Ho) as [? _]. apply (stored_root T hx f cur kh bc H o n Ho Hn); lia.
  - by apply Hend.
  - destruct (stored_number T o Ho) as [? _]. assert (Number (header o) <> 0) as Hne.
    { intros Ez. apply E. apply (stored_root T hx f cur kh bc H o n Ho Hn); lia. }
    apply runs_bind. eapply runs_mono; [apply (collectLogs_at g U HU _ _ _ _ _ _ (Block_Hash o) H), is_hash_array, Hash_array|]. intros logs bc0 H00.
    apply runs_bind. eapply runs_mono; [eapply (parent_stored T hx f cur kh bc0 H00 o Ho); lia|]. intros r bc1 (H1 & po & -> & Hpo & Hno & Hho).
    apply runs_bind. eapply runs_mono; [eapply (parent_stored T hx f cur kh bc1 H1 n Hn); lia|]. intros r bc2 (H2 & pn & -> & Hpn & Hnn & Hhn).
    apply runs_bind. eapply runs_mono; [apply (IH bc2 po pn H2 Hpo Hpn); lia|]. intros s bc3 (H3 & Hs & Hg & c & Hc & Hc').
    apply runs_ret. cbn [newChain deletedTxs drop_block add_block]. split_and!; [done|by eapply seg_cons| |].
    + apply Forall_app_2; [apply gone_block, Ho|done].
    + exists c. cbn [length anc]. by rewrite Hhn, Hho.
Qed.

(** ** Making the new branch canonical *)

Fixpoint overwrite f (xs : list Block) : Z -> Hash :=
  match xs with
  | [] => f
  | x :: xs => overwrite (fun m => if decide (m = Number (header x)) then Block_Hash x else f m) xs
  end.

(** Blocks are canonical at their numbers, the others keep theirs. *)
Lemma overwrite_seg T b xs : tree (heads T) (header g) -> stored T b -> forall j f m,
  (forall i x, xs !! i = Some x -> anc (heads T) (j + i) (header b) = Some (header x)) -> Z.of_nat (j + length xs) <= Number (header b) + 1 ->
  overwrite f xs m =
    if decide (Number (header b) - Z.of_nat (j + length xs) < m <= Number (header b) - Z.of_nat j) then canon_of (heads T) (header b) m else f m.
Proof.
  intros Ht Hb. destruct (stored_number T b Hb) as [Hn _].
  induction xs as [|x xs IH]; intros j f m Hx Hl; cbn [overwrite length] in *; [by rewrite decide_False by lia|].
  rewrite (IH (S j)); [|intros i y Hy; rewrite Nat.add_succ_comm; by apply (Hx (S i))|lia].
  pose proof (Hx O x eq_refl) as Hj. rewrite Nat.add_0_r in Hj.
  destruct (anc_Some _ _ (header b) j Ht (stored_header T b Hb)) as (a & Ha & _ & Hna); [lia|]. rewrite Hj in Ha. injection Ha as <-.
  destruct (decide (m = Number (header x))) as [->|Hne].
  - rewrite decide_False by lia. rewrite decide_True by lia. unfold canon_of. rewrite decide_True by lia.
    replace (Z.to_nat (Number (header b) - Number (header x))) with j by lia. by rewrite Hj.
  - destruct (decide (Number (header b) - Z.of_nat (S j + length xs) < m <= Number (header b) - Z.of_nat (S j))).
    + by rewrite decide_True by lia.
    + by rewrite decide_False by lia.
Qed.

Lemma insert_new_at T xs : forall hx f cur kh bc, bc_at T hx f cur kh bc -> Forall (stored T) xs ->
  runs (insert_new xs) bc (fun _ bc' => exists hx' cur' kh', bc_at T hx' (overwrite f xs) cur' kh' bc').
Proof.
  induction xs as [|x xs IH]; intros hx f cur kh bc H Hx; cbn [insert_new overwrite]; [apply runs_ret; eauto|].
  apply Forall_cons in Hx as [[Hb HT] Hx]. destruct (blk_fine g U HU x Hb) as [Hf _]. destruct (fine_number x Hf) as [Hn En].
  apply runs_bind. eapply runs_mono; [by eapply insert_at|]. intros [] bc1 (hx1 & H1). apply runs_bind.
  destruct (WriteTransactions_fine hs (hs_hash U) x (bc_db bc1) (blk_txs g U HU x Hb) (bf_count _ Hf) (at_entries _ _ _ _ _ _ _ _ H1)) as (db1 & W1 & F1).
  eapply runs_mono; [by eapply write_or_error_fine|]. intros [] bc2 H2. apply runs_bind, runs_gets, runs_bind.
  destruct (WriteReceipts_fine hs (hs_hash U) _ (bc_db bc2)
    (GetBlockReceipts_fine (bc_db bc2) (Block_Hash x) (NumberU64 x) (at_entries _ _ _ _ _ _ _ _ H2)) (at_entries _ _ _ _ _ _ _ _ H2)) as (db2 & W2 & F2).
  eapply runs_mono; [by eapply write_or_error_fine|]. intros [] bc3 H3. apply runs_bind.
  destruct (WriteMipmapBloom_fine hs (hs_hash U) (NumberU64 x) (GetBlockReceipts (bc_db bc2) (Block_Hash x) (NumberU64 x)) (bc_db bc3)
    (at_entries _ _ _ _ _ _ _ _ H3)) as (db3 & W3 & F3); [rewrite En; done|].
  unfold runs at 1, write_mipmap. rewrite W3. eexists _, _. split; [done|].
  apply (bc_at_aside g U HU _ _ _ _ _ _ _ H3) in F3. by eapply IH.
Qed.

Lemma delete_transactions_at T hx f cur kh txs : forall bc, bc_at T hx f cur kh bc -> gone txs ->
  runs (delete_transactions txs) bc (fun _ bc' => bc_at T hx f cur kh bc').
Proof.
  induction txs as [|tx txs IH]; intros bc H Hg; cbn [delete_transactions]; [by apply runs_ret|].
  apply Forall_cons in Hg as [[Hc Hcl] Hg]. apply runs_bind, runs_lift, runs_modify, runs_bind, runs_lift, runs_modify. apply IH; [|done].
  apply (bc_at_aside g U HU _ _ _ _ _ _ _ H (DeleteTransaction_fine hs (hs_hash U) tx (bc_db bc) Hc Hcl (at_entries _ _ _ _ _ _ _ _ H))).
Qed.

(** ** The whole *)

Lemma reduce_at T hx f cur kh bc o n : bc_at T hx f cur kh bc -> stored T o -> stored T n ->
  runs (reduce o n) bc (fun r bc' => bc_at T hx f cur kh bc' /\ exists o' n' d, r.1 = (Some o', Some n') /\ stored T o' /\ stored T n' /\
    Number (header o') = Number (header n') /\ anc (heads T) d (header o) = Some (header o') /\ Z.of_nat d <= Number (header o) /\
    anc (heads T) (length (newChain r.2)) (header n) = Some (header n') /\ seg T n (newChain r.2) /\ gone (deletedTxs r.2)).
Proof.
  intros H Ho Hn. destruct (stored_number T o Ho) as [Hno Eo]. destruct (stored_number T n Hn) as [Hnn En]. unfold reduce. rewrite Eo, En.
  destruct (Number (header o) >? Number (header n)) eqn:Eg; bool_to_prop; apply runs_bind.
  - eapply runs_mono; [apply (reduce_old_at T hx f cur kh _ bc o (Number (header n)) H Ho); lia|].
    intros [r s] bc' (H' & o' & Er & ? & ? & ? & Hnew & ?). cbn [fst snd] in *. subst r. apply runs_ret. split; [done|].
    exists o', n, (Z.to_nat (Number (header o) - Number (header n))). cbn [fst snd]. rewrite Hnew. split_and!; try done; lia.
  - eapply runs_mono; [apply (reduce_new_at T hx f cur kh _ bc n (Number (header o)) H Hn); lia|].
    intros [r s] bc' (H' & n' & Er & ? & ? & ? & ? & ?). cbn [fst snd] in *. subst r. apply runs_ret. split; [done|].
    exists o, n', O. cbn [fst snd]. split_and!; try done; lia.
Qed.

Lemma gone_difference a a' : gone a -> gone (Tx.TxDifference a a').
Proof.
  intros Ha. apply Forall_forall. intros tx Htx. unfold gone in Ha. rewrite Forall_forall in Ha. apply Ha.
  unfold Tx.TxDifference in Htx. by apply list_elem_of_filter in Htx as [_ ?].
Qed.

Lemma bc_at_post T hx f cur kh bc es : bc_at T hx f cur kh bc -> bc_at T hx f cur kh (Post es bc).
Proof. intros []. by split. Qed.

(** Steps to parents count numbers. *)
Lemma anc_number T hx f cur kh bc d : bc_at T hx f cur kh bc -> forall b c, stored T b -> anc (heads T) d (header b) = Some c ->
  0 <= Number c /\ Number c = Number (header b) - Z.of_nat d /\ heads T !! Hash_ c = Some c.
Proof.
  intros H. induction d as [|d IH]; intros b c Hb Hc.
  - injection Hc as <-. destruct (stored_number T b Hb) as [? _]. split_and!; [lia|lia|by apply stored_header].
  - cbn [anc] in Hc. destruct (heads T !! ParentHash (header b)) as [h|] eqn:Eh; [|done].
    apply at_inv in Eh as (p & Hp & ->). pose proof (stored_at _ _ _ _ _ _ H _ p Hp) as Hsp.
    pose proof (blk_link g U HU b p (proj1 Hb) (proj1 Hsp) (at_hash _ _ _ _ _ _ _ _ H _ p Hp)).
    destruct (IH p c Hsp Hc) as (? & ? & ?). split_and!; [done|lia|done].
Qed.

(** After a reorganisation to [b] the canonical blocks are its ancestors. *)
Lemma reorg_at T hx f cur kh bc b : bc_at T hx f cur kh bc -> stored T cur -> stored T b ->
  (forall m, 0 <= m <= Number (header cur) -> f m = canon_of (heads T) (header cur) m) ->
  runs (reorg cur b) bc (fun _ bc' => exists hx' f' cur' kh', bc_at T hx' f' cur' kh' bc' /\
    forall m, 0 <= m <= Number (header b) -> f' m = canon_of (heads T) (header b) m).
Proof.
  intros H Hcur Hb Hf. pose proof (at_tree _ _ _ _ _ _ _ _ H) as Ht. unfold reorg. apply runs_bind.
  eapply runs_mono; [by apply (reduce_at _ _ _ _ _ _ cur b H)|].
  intros [[o n] s] bc1 (H1 & o' & n' & d & Er & Ho & Hn & Eon & Hd & Hdl & Hln & Hseg & Hg). cbn [fst snd] in *. injection Er as -> ->.
  destruct (stored_number T o' Ho) as [Hno Eno]. rewrite Eno. apply runs_bind.
  eapply runs_mono; [apply (find_common_at T hx f cur kh _ bc1 o' n' H1 Ho Hn Eon); lia|]. intros s' bc2 (H2 & Hseg' & Hg' & c & Hcn & Hco).
  pose proof (seg_app T b n' _ _ Hseg Hln Hseg') as Hsa. apply runs_bind.
  eapply runs_mono; [apply (insert_new_at T (newChain (join s s')) _ _ _ _ bc2 H2 (seg_stored _ _ _ Hsa))|].
  intros [] bc3 (hx' & cur' & kh' & H3). apply runs_bind.
  eapply runs_mono; [apply (delete_transactions_at _ _ _ _ _ _ bc3 H3), gone_difference; by apply Forall_app_2|].
  intros [] bc4 H4. apply runs_modify. eexists _, _, _, _. split; [by apply bc_at_post|]. intros m Hm.
  assert (anc (heads T) (length (newChain s ++ newChain s')) (header b) = Some c) as Hbc by (by rewrite length_app, anc_add, Hln).
  assert (anc (heads T) (d + length (newChain s')) (header cur) = Some c) as Hcc by (by rewrite anc_add, Hd).
  destruct (anc_number _ _ _ _ _ _ _ H b c Hb Hbc) as (Hc0 & Hcb & Hct). destruct (anc_number _ _ _ _ _ _ _ H cur c Hcur Hcc) as (_ & Hccur & _).
  change (newChain (join s s')) with (newChain s ++ newChain s').
  rewrite (overwrite_seg T b (newChain s ++ newChain s') Ht Hb 0 f m); [|intros i x Hi; by apply Hsa|cbn [Nat.add]; lia].
  case_decide; [done|]. cbn [Nat.add] in *. rewrite Hf by lia.
  rewrite (canon_anc _ _ (header cur) _ c m Ht (stored_header T cur Hcur) Hcc) by lia.
  by rewrite (canon_anc _ _ (header b) _ c m Ht (stored_header T b Hb) Hbc) by lia.
Qed.
End reorg.

(** Writing a block keeps the heaviest block and its ancestors canonical. *)

Section write.
Context {CR : Crypto} {CK : CryptoOk} {LR : Lru} {LK : LruOk} {St : Type} {EX : Execution St} {EK : ExecutionOk St}.
Variables (g : Block) (U : list Block).
Hypothesis HU : block_universe g U.
Implicit Types (T : gmap Hash Block) (b p cur : Block) (k kh : Hash) (hx : Header) (f : Z -> Hash) (bc : BlockChain (St:=St)).

Abbreviation hs := (hs U).
Abbreviation blk := (blk U).
Abbreviation heads T := (header <$> T).
Abbreviation bc_at := (bc_at g U).
Abbreviation stored := (stored U).

Definition canonical T cur f : Prop := forall m, 0 <= m <= Number (header cur) -> f m = canon_of (heads T) (header cur) m.
Definition heaviest T cur : Prop := forall x t t', heads T !! Hash_ x = Some x ->
  total (heads T) (header g) x t -> total (heads T) (header g) (header cur) t' -> t <= t'.

(** The chain holds the blocks [T]; its head [cur] is the stored head and none is heavier, and up
    to the number of the head the canonical hashes are those of its ancestors. *)
Definition bc_ok T cur bc : Prop := exists hx f,
  bc_at T hx f cur (Block_Hash cur) bc /\ stored T cur /\ canonical T cur f /\ heaviest T cur.

Lemma bc_at_future T hx f cur kh bc c : bc_at T hx f cur kh bc -> bc_at T hx f cur kh (set_futureBlocks c bc).
Proof. intros H. apply bc_at_blocks; [done|]. apply (at_cache _ _ _ _ _ _ _ _ H). Qed.

(** Making [b] the head. *)
Lemma make_head_at T hx f cur bc b p : bc_at T hx f cur (Block_Hash cur) bc -> stored T cur -> canonical T cur f -> stored T b ->
  T !! ParentHash (header b) = Some p ->
  runs (bc_make_head b cur) bc (fun st bc' => st = CanonStatTy /\ exists hx' f', bc_at T hx' f' b (Block_Hash b) bc' /\ canonical T b f').
Proof.
  intros H Hcur Hc Hb Hp. pose proof (at_tree _ _ _ _ _ _ _ _ H) as Ht. pose proof (stored_at g U _ _ _ _ _ _ H _ p Hp) as Hsp.
  pose proof (blk_link g U HU b p (proj1 Hb) (proj1 Hsp) (at_hash _ _ _ _ _ _ _ _ H _ p Hp)) as Hlink.
  destruct (stored_number g U HU T b Hb) as [Hn _]. destruct (stored_number g U HU T p Hsp) as [Hnp _].
  unfold bc_make_head. apply runs_bind.
  apply (runs_mono _ _ (fun _ bc' => exists hx' f' cur' kh', bc_at T hx' f' cur' kh' bc' /\
    forall m, 0 <= m < Number (header b) -> f' m = canon_of (heads T) (header b) m)).
  - case_bool_decide as E.
    + apply runs_ret. exists hx, f, cur, (Block_Hash cur). split; [done|]. intros m Hm.
      assert (header p = header cur) as Epc.
      { apply (stored_eq U T p cur); [done..|]. rewrite <- E. symmetry. by eapply at_hash. }
      rewrite Hc by (rewrite <- Epc; lia). rewrite <- Epc. symmetry. apply (canon_anc _ _ (header b) 1 (header p) m Ht); try lia.
      * by apply (stored_header U T b).
      * cbn [anc]. by rewrite (at_header T _ p Hp).
    + eapply runs_mono; [by eapply (reorg_at g U HU T hx f cur)|]. intros [] bc' (hx' & f' & cur' & kh' & H' & Hf').
      exists hx', f', cur', kh'. split; [done|]. intros m Hm. apply Hf'. lia.
  - intros [] bc1 (hx1 & f1 & cur1 & kh1 & H1 & Hf1). apply runs_bind.
    eapply runs_mono; [eapply (insert_at g U HU T hx1 f1 cur1 kh1 bc1 b H1); apply Hb|]. intros [] bc2 (hx2 & H2). apply runs_ret. split; [done|].
    exists hx2. eexists. split; [exact H2|]. intros m Hm. cbn beta. case_decide as Em; [|apply Hf1; lia].
    subst m. symmetry. apply canon_top. lia.
Qed.

(** More blocks. *)
Lemma stored_grow T T' b : T ⊆ T' -> stored T b -> stored T' b.
Proof. intros HT [? ?]. split; [done|]. by eapply lookup_weaken. Qed.

Lemma WriteBlock_at T cur bc b p t tc coin : bc_ok T cur bc -> blk b -> T !! ParentHash (header b) = Some p ->
  total (heads T) (header g) (header p) t -> total (heads T) (header g) (header cur) tc ->
  let wins := (Difficulty (header b) + t >? tc) || ((Difficulty (header b) + t =? tc) && coin) in
  runs (bc_WriteBlock b coin) bc (fun st bc' =>
    st = (if wins then CanonStatTy else SideStatTy) /\ bc_ok (<[Block_Hash b := bare b]> T) (if wins then b else cur) bc').
Proof.
  intros (hx & f & H & Hcur & Hcan & Hmax) Hb Hp Ht Htc wins. pose proof (at_tree _ _ _ _ _ _ _ _ H) as Htree.
  destruct (blk_fine g U HU b Hb) as [Hf _]. destruct (fine_number b Hf) as [Hn En].
  destruct (stored_number g U HU T cur Hcur) as [Hnc Enc]. destruct (extends_at g U HU _ _ _ _ _ _ b H Hb) as [Hx Hor].
  pose proof (stored_at g U _ _ _ _ _ _ H _ p Hp) as Hsp. pose proof (at_header T _ p Hp) as Hph.
  pose proof (blk_link g U HU b p Hb (proj1 Hsp) (at_hash _ _ _ _ _ _ _ _ H _ p Hp)) as Hlink.
  destruct (stored_number g U HU T p Hsp) as [Hnp _].
  set (T' := <[Block_Hash b := bare b]> T). assert (T ⊆ T') as HT.
  { unfold T'. destruct Hor as [E|E]; [by apply insert_subseteq|by rewrite insert_id]. }
  assert (heads T' = <[Hash_ (header b) := header b]> (heads T)) as ET by (unfold T'; by rewrite fmap_insert).
  assert (stored T' b) as Hsb by (split; [done|unfold T'; by rewrite lookup_insert_eq]).
  assert (heads T ⊆ heads T') as HhT by (rewrite ET; by apply extend_sub).
  unfold bc_WriteBlock. rewrite En, u64_small by lia. replace (Number (header b) - 1) with (Number (header p)) by lia.
  apply runs_bind. eapply runs_mono; [by eapply (GetTd_at g U T hx f cur _ bc _ p t H)|]. intros r bc1 [-> H1].
  apply runs_bind, runs_gets, runs_bind. rewrite (at_current _ _ _ _ _ _ _ _ H1). apply runs_unwrap, runs_bind. rewrite Enc.
  eapply runs_mono; [eapply (GetTd_at g U T hx f cur _ bc1 _ (bare cur) tc H1 (proj2 Hcur) Htc)|]. intros r bc2 [-> H2]. apply runs_bind.
  eapply runs_mono; [rewrite <- En; by eapply (store_block_at g U HU T hx f cur _ bc2 b p t)|]. intros [] bc3 Hs. apply runs_bind.
  eapply runs_mono; [exact Hs|]. intros [] bc4 H4. fold T' in H4. apply runs_bind, runs_unwrap, runs_bind. fold wins.
  assert (canonical T' cur f) as Hcan'.
  { intros m Hm. rewrite Hcan by done. symmetry. apply (canon_mono _ _ (header g)); [done..|]. by apply (stored_header U T cur). }
  assert (tree (heads T') (header g)) as Htree' by (by eapply at_tree).
  assert (total (heads T') (header g) (header b) (Difficulty (header b) + t)) as Htb.
  { econstructor; [by eapply lookup_weaken|done|by eapply total_mono]. }
  assert (total (heads T') (header g) (header cur) tc) as Htc' by (by eapply total_mono).
  assert (forall x v, heads T' !! Hash_ x = Some x -> total (heads T') (header g) x v -> v <= tc \/ v = Difficulty (header b) + t) as Hall.
  { intros x v Hxk Hv. rewrite ET in Hxk, Hv. destruct (decide (Hash_ x = Hash_ (header b))) as [E|E].
    - rewrite E, lookup_insert_eq in Hxk. injection Hxk as <-. rewrite ET in Htb, Htree'. right. by eapply total_fun.
    - rewrite lookup_insert_ne in Hxk by done. left. eapply Hmax; [done| |done]. by eapply total_extend. }
  destruct wins eqn:Ew; unfold wins in Ew.
  - eapply runs_mono; [apply (make_head_at T' hx f cur bc4 b p H4); try done|].
    + by eapply stored_grow.
    + by eapply lookup_weaken.
    + intros st bc5 [-> (hx5 & f5 & H5 & Hc5)]. apply runs_bind, runs_modify, runs_ret. split; [done|]. exists hx5, f5.
      split_and!; [by apply bc_at_future|done|done|]. intros x v v' Hxk Hv Hv'. rewrite (total_fun _ _ _ _ _ Htree' Hv' Htb).
      destruct (Hall x v Hxk Hv); bool_to_prop; lia.
  - apply runs_ret, runs_bind, runs_modify, runs_ret. split; [done|]. exists hx, f.
    split_and!; [by apply bc_at_future|by eapply stored_grow|done|]. intros x v v' Hxk Hv Hv'. rewrite (total_fun _ _ _ _ _ Htree' Hv' Htc').
    destruct (Hall x v Hxk Hv); bool_to_prop; lia.
Qed.
End write.
