(* ===== verification/BlockChainInsert.v ===== *)
(** Inserting a chain of blocks: what is stored has been validated and run, and the chain
    stays in order on every path; and a valid block is stored. *)
From S2P Require Import Prelude GoBig CommonMath CommonTypes Rlp RlpDecode RlpDecodeOk RlpDecodeTheorems VmTypes.
From S2P Require Import StateTransition TxTypes BlockTypes DeriveSha Consensus ChainDb ChainDbOk ChainTables.
From S2P Require Import HeaderChain HeaderChainOk BlockChain BlockChainOk BlockChainReorg.
Import Types.

(** ** Runs that may end with an error *)

(** [m] returns with [P], or with an error and [Q]; it does not panic and it ends. *)
Definition holds {St E A} (m : SM St E A) (s : St) (Q : St -> Prop) (P : A -> St -> Prop) : Prop :=
  match m s with
  | (Done a, s') => P a s'
  | (Error _, s') => Q s'
  | _ => False
  end.

Section holds.
Context {St E : Type}.
Implicit Types (s : St) (Q : St -> Prop).

Lemma runs_holds {A} (m : SM St E A) s Q P : runs m s P -> holds m s Q P.
Proof. intros (a & s' & Hm & HP). unfold holds. by rewrite Hm. Qed.
Lemma holds_ret {A} (a : A) s Q (P : A -> St -> Prop) : P a s -> holds (mret a : SM St E A) s Q P.
Proof. done. Qed.
Lemma holds_throw {A} (e : E) s Q (P : A -> St -> Prop) : Q s -> holds (throw e : SM St E A) s Q P.
Proof. done. Qed.
Lemma holds_bind {A B} (m : SM St E A) (k : A -> SM St E B) s Q P :
  holds m s Q (fun a s' => holds (k a) s' Q P) -> holds (m ≫= k) s Q P.
Proof. unfold holds, mbind, SM_bind. by destruct (m s) as [[] s']. Qed.
Lemma holds_mono {A} (m : SM St E A) s (Q Q' : St -> Prop) (P P' : A -> St -> Prop) :
  holds m s Q P -> (forall s', Q s' -> Q' s') -> (forall a s', P a s' -> P' a s') -> holds m s Q' P'.
Proof. unfold holds. destruct (m s) as [[] s']; naive_solver. Qed.
Lemma holds_runs_bind {A B} (m : SM St E A) (k : A -> SM St E B) s Q P R :
  runs m s R -> (forall a s', R a s' -> holds (k a) s' Q P) -> holds (m ≫= k) s Q P.
Proof. intros Hm Hk. apply holds_bind, runs_holds. by eapply runs_mono. Qed.
End holds.

Section insertion.
Context {CR : Crypto} {CK : CryptoOk} {LR : Lru} {LK : LruOk} {St : Type} {EX : Execution St} {EK : ExecutionOk St}.
Variables (g : Block) (U : list Block).
Hypothesis HU : block_universe g U.
Variable VerifyUncles : Db -> Block -> option Consensus.error.
Implicit Types (T : gmap Hash Block) (b p q cur : Block) (k kh : Hash) (bc : BlockChain (St:=St)).

Abbreviation hs := (hs U).
Abbreviation blk := (blk U).
Abbreviation heads T := (header <$> T).
Abbreviation bc_at := (bc_at g U).
Abbreviation bc_ok := (bc_ok g U).

(** ** What has been checked of a stored block *)

Record body_valid b : Prop := {
  bv_uncles : exists db, VerifyUncles db b = None;
  bv_uncleHash : CalcUncleHash (uncles b) = UncleHash (header b);
  bv_txHash : DeriveSha_transactions (transactions b) = Some (TxHash (header b));
}.

(** The block run on the state of its parent gives what its header says. *)
Record run_valid p b (receipts : list Receipt) (logs : list Log) : Prop := {
  rv_run : exists db st st0 st1 st2,
    ex_Reset db (Root (header p)) st = inr st0 /\
    ex_Process db b st0 = (Done (receipts, logs, GasUsed (header b)), st1) /\
    ex_IntermediateRoot db st1 = Some (Root (header b), st2);
  rv_bloom : CreateBloom receipts = Some (Bloom (header b));
  rv_receipts : DeriveSha_receipts receipts = Some (ReceiptHash (header b));
}.

Definition accepted T b : Prop := exists p receipts logs,
  T !! ParentHash (header b) = Some p /\ body_valid b /\ run_valid p b receipts logs.

(** ** Frames *)

Lemma runs_ok {A} (m : SM (BlockChain (St:=St)) bcErr A) T cur bc (R : A -> Prop) : bc_ok T cur bc ->
  (forall hx f, bc_at T hx f cur (Block_Hash cur) bc -> runs m bc (fun a bc' => R a /\ bc_at T hx f cur (Block_Hash cur) bc')) ->
  runs m bc (fun a bc' => R a /\ bc_ok T cur bc').
Proof.
  intros (hx & f & H & Hr) Hm. eapply runs_mono; [by apply Hm|]. intros a bc' [HR H']. split; [done|]. by exists hx, f.
Qed.
Lemma bc_ok_frame T cur bc bc' : bc_ok T cur bc ->
  (forall hx f, bc_at T hx f cur (Block_Hash cur) bc -> bc_at T hx f cur (Block_Hash cur) bc') -> bc_ok T cur bc'.
Proof. intros (hx & f & H & Hr) Hm. exists hx, f. split; [by apply Hm|done]. Qed.

Lemma parent_ok T cur bc b : bc_ok T cur bc -> blk b ->
  runs (parent_block b) bc (fun r bc' => r = T !! ParentHash (header b) /\ bc_ok T cur bc').
Proof. intros H Hb. apply (runs_ok _ T cur bc (fun r => r = _) H). intros hx f H'. by apply (parent_at g U HU). Qed.

Lemma HasBlock_ok T cur bc k : bc_ok T cur bc -> is_hash k ->
  runs (HasBlock k) bc (fun r bc' => r = bool_decide (is_Some (T !! k)) /\ bc_ok T cur bc').
Proof.
  intros H Hk. apply (runs_ok _ T cur bc (fun r => r = _) H). intros hx f H'. unfold HasBlock. apply runs_bind.
  eapply runs_mono; [by eapply (GetBlockByHash_at g U HU)|]. intros r bc1 [-> H1]. by apply runs_ret.
Qed.

Lemma bc_ok_state T cur bc st : bc_ok T cur bc -> ex_inv st -> bc_ok T cur (set_stateCache (Some st) bc).
Proof. intros H Hs. apply (bc_ok_frame _ _ _ _ H). intros hx f []. split; try done. by exists st. Qed.
Lemma bc_ok_stateCache T cur bc : bc_ok T cur bc -> exists st, stateCache bc = Some st /\ ex_inv st.
Proof. intros (hx & f & H & _). apply (at_state _ _ _ _ _ _ _ _ H). Qed.
Lemma bc_ok_queue T cur bc c c' : bc_ok T cur bc -> bc_ok T cur (set_blocks (blockCache bc) c c' bc).
Proof. intros H. apply (bc_ok_frame _ _ _ _ H). intros hx f H'. apply bc_at_blocks; [done|]. apply (at_cache _ _ _ _ _ _ _ _ H'). Qed.
Lemma bc_ok_post T cur bc es : bc_ok T cur bc -> bc_ok T cur (Post es bc).
Proof. intros H. apply (bc_ok_frame _ _ _ _ H). intros hx f []. by split. Qed.
Lemma bc_ok_fine T cur bc db : bc_ok T cur bc -> fine hs (bc_db bc) db -> bc_ok T cur (set_hc (set_chainDb db (bc_hc bc)) bc).
Proof. intros H Hf. apply (bc_ok_frame _ _ _ _ H). intros hx f H'. by apply (bc_at_aside g U HU). Qed.
Lemma bc_ok_entries T cur bc : bc_ok T cur bc -> entries_ok (bc_db bc).
Proof. intros (hx & f & H & _). apply (at_entries _ _ _ _ _ _ _ _ H). Qed.

Lemma report_holds {A} T cur bc b e (P : A -> BlockChain (St:=St) -> Prop) : bc_ok T cur bc -> holds (reportBlock b e) bc (bc_ok T cur) P.
Proof. intros H. apply holds_bind, runs_holds, runs_modify, holds_throw. by apply bc_ok_queue. Qed.
Lemma write_or_error_ok T cur bc w db : bc_ok T cur bc -> w (bc_db bc) = Done db -> fine hs (bc_db bc) db ->
  runs (write_or_error w) bc (fun _ bc' => bc_ok T cur bc').
Proof. intros H E Hf. unfold runs, write_or_error. rewrite E. eexists _, _. split; [done|]. by apply bc_ok_fine. Qed.
Lemma write_db_ok T cur bc w : bc_ok T cur bc -> fine hs (bc_db bc) (w (bc_db bc)) ->
  runs (write_db w) bc (fun _ bc' => bc_ok T cur bc').
Proof. intros H Hf. apply runs_lift, runs_modify. by apply bc_ok_fine. Qed.
(** ** Validation *)

Lemma enc_list_nonempty l : Spec.enc (Enc.VList l) <> [].
Proof. cbn [Spec.enc]. unfold Spec.lst, Spec.head. by destruct (_ <? _). Qed.

Lemma txs_root b : blk b -> exists h, DeriveSha_transactions (transactions b) = Some h.
Proof.
  intros Hb. destruct (blk_fine g U HU b Hb) as [Hf _]. destruct (DeriveSha_root (map tx_rlp (transactions b))) as (h & _ & E & _); [|by exists h].
  destruct (bf_body _ Hf) as (Ht & _ & _). split; [|unfold zlen; rewrite length_map; pose proof (bf_count _ Hf); unfold zlen in *; lia].
  apply Forall_map. eapply Forall_impl; [apply Forall_and; split; [exact Ht|exact (bf_txs _ Hf)]|]. intros tx (Hok & _ & Hl).
  pose proof (tx_encodable _ Hok) as He. unfold item_ok, tx_rlp, encoded.
  rewrite (EncodeToBytes_spec (Tx.txdata_value (Tx.data tx))) by (done || lia). split_and!; [apply enc_list_nonempty|apply is_bytes_enc; [done|lia]|done].
Qed.

Lemma ValidateBody_holds T cur bc b : bc_ok T cur bc -> blk b ->
  holds (ValidateBody VerifyUncles b) bc (bc_ok T cur) (fun _ bc' =>
    bc_ok T cur bc' /\ body_valid b /\ is_Some (T !! ParentHash (header b))).
Proof.
  intros H Hb. unfold ValidateBody.
  eapply holds_runs_bind; [apply HasBlock_ok; [exact H|apply is_hash_array, Hash_array]|]. intros known bc1 [_ H1]. apply holds_bind.
  apply (holds_mono _ _ (bc_ok T cur) _ (fun _ => bc_ok T cur)); [by destruct known|done|]. intros known' bc2 H2.
  destruct known'; [by apply holds_throw|]. eapply holds_runs_bind; [by apply parent_ok|]. intros r bc3 [-> H3].
  destruct (T !! ParentHash (header b)) as [p|]; [|by apply holds_throw].
  apply holds_bind, runs_holds, runs_gets. destruct (negb _); [by apply holds_throw|]. apply holds_bind, runs_holds, runs_gets.
  destruct (VerifyUncles (bc_db bc3) b) eqn:Ev; [by apply holds_throw|]. case_bool_decide as Eu; [|by apply holds_throw]. cbn [negb].
  destruct (txs_root b Hb) as [h Eh]. rewrite Eh. apply holds_bind, runs_holds, runs_unwrap.
  case_bool_decide as Et; [|by apply holds_throw]. subst h. apply holds_ret. split_and!; [done| |done]. split; [by eexists|done|done].
Qed.

Lemma catch_runs (m : SM (BlockChain (St:=St)) bcErr unit) bc Q P : holds m bc Q P ->
  runs (catch m) bc (fun e bc' => match e with None => P tt bc' | Some _ => Q bc' end).
Proof. unfold holds, runs, catch. destruct (m bc) as [[[]|e| |] bc']; try done; intros H; by eexists _, _. Qed.

Lemma check_block_holds T cur bc now b result : bc_ok T cur bc -> blk b ->
  holds (check_block VerifyUncles now b result) bc (bc_ok T cur) (fun valid bc' =>
    bc_ok T cur bc' /\ (valid = true -> result = None /\ body_valid b /\ is_Some (T !! ParentHash (header b)))).
Proof.
  intros H Hb. unfold check_block.
  eapply (holds_runs_bind _ _ _ _ _ (fun err bc' => bc_ok T cur bc' /\ (err = None -> result = None /\ body_valid b /\ is_Some (T !! ParentHash (header b))))).
  - destruct result as [e|]; [by apply runs_ret|]. eapply runs_mono; [by eapply catch_runs, ValidateBody_holds|].
    by intros [e|] bc' H'; [|destruct H'].
  - intros err bc' [H' Hv]. assert (holds (mret false : SM (BlockChain (St:=St)) bcErr bool) bc' (bc_ok T cur) (fun valid bc' =>
      bc_ok T cur bc' /\ (valid = true -> result = None /\ body_valid b /\ is_Some (T !! ParentHash (header b))))) as Hfalse by done.
    destruct err as [[]|]; try (by apply report_holds); try exact Hfalse.
    + destruct e; try (by apply report_holds).
      * destruct (_ >? _); [by apply holds_throw|]. apply holds_bind, runs_holds, runs_modify, holds_ret. split; [by apply bc_ok_queue|done].
      * apply holds_bind, runs_holds, runs_gets. destruct (lru_Contains _ _); [|by apply report_holds].
        apply holds_bind, runs_holds, runs_modify, holds_ret. split; [by apply bc_ok_queue|done].
    + apply holds_ret. split; [done|]. intros _. by apply Hv.
Qed.
(** ** Running a block *)

Lemma receipts_root rs : receipts_fine rs -> exists h, DeriveSha_receipts rs = Some h.
Proof.
  intros (_ & _ & _ & Hr & Hl). unfold DeriveSha_receipts.
  assert (mapM receipt_rlp rs = Some (map (fun r => Spec.enc (receipt_value r)) rs)) as ->.
  { apply mapM_Some_2. induction Hr as [|r rs [He Hb] Hr IH]; constructor; [|apply IH; rewrite zlen_cons in Hl; lia].
    unfold receipt_rlp. by rewrite (EncodeToBytes_spec (receipt_value r)) by (done || lia). }
  destruct (DeriveSha_root (map (fun r => Spec.enc (receipt_value r)) rs)) as (h & _ & E & _); [|by exists h].
  split; [|by unfold zlen in *; rewrite length_map]. apply Forall_map. eapply Forall_impl; [exact Hr|]. intros r [He Hb].
  split_and!; [apply enc_list_nonempty|apply is_bytes_enc; [done|lia]|done].
Qed.

Lemma ValidateState_ok db b st rs gas : ex_inv st -> receipts_fine rs ->
  let '(r, st') := ValidateState db b st rs gas in
  ex_inv st' /\ match r with
    | Done _ => gas = GasUsed (header b) /\ CreateBloom rs = Some (Bloom (header b)) /\
        DeriveSha_receipts rs = Some (ReceiptHash (header b)) /\ ex_IntermediateRoot db st = Some (Root (header b), st')
    | Error _ => True
    | _ => False
    end.
Proof.
  intros Hs Hr. unfold ValidateState. destruct (GasUsed (header b) =? gas) eqn:Eg; [|done]. cbn [negb]. bool_to_prop.
  destruct (CreateBloom_ok rs) as (bl & -> & _). case_bool_decide as Eb; [|done]. subst bl. cbn [negb].
  destruct (receipts_root rs Hr) as [h ->]. case_bool_decide as Eh; [|done]. subst h. cbn [negb].
  destruct (ex_IntermediateRoot_ok db st Hs) as (root & st' & -> & Hs'). by case_bool_decide as Er; subst.
Qed.

(** The block before in the batch is the parent. *)
Definition follows (prev : option Block) b : Prop :=
  match prev with None => True | Some q => blk q /\ ParentHash (header b) = Block_Hash q end.

Lemma parent_root_ok T cur bc prev b p : bc_ok T cur bc -> blk b -> follows prev b -> T !! ParentHash (header b) = Some p ->
  runs (parent_root prev b) bc (fun root bc' => root = Root (header p) /\ bc_ok T cur bc').
Proof.
  intros H Hb Hf Hp. destruct prev as [q|]; cbn [parent_root].
  - destruct Hf as [Hq E]. apply runs_ret. split; [|done]. f_equal. destruct H as (hx & f & H & _).
    destruct (at_block _ _ _ _ _ _ _ _ H _ p Hp) as (_ & Hbp & _). pose proof (at_hash _ _ _ _ _ _ _ _ H _ p Hp) as Eh.
    apply (f_equal header (blk_same g U HU q p Hq Hbp ltac:(congruence))).
  - apply runs_bind. eapply runs_mono; [by apply parent_ok|]. intros r bc1 [-> H1]. rewrite Hp.
    by apply runs_bind, runs_unwrap, runs_ret.
Qed.

Lemma execute_holds T cur bc prev b p : bc_ok T cur bc -> blk b -> follows prev b -> T !! ParentHash (header b) = Some p ->
  holds (execute prev b) bc (bc_ok T cur) (fun '(rs, logs, _) bc' => bc_ok T cur bc' /\ receipts_fine rs /\ run_valid p b rs logs).
Proof.
  intros H Hb Hf Hp. unfold execute. eapply holds_runs_bind; [by apply parent_root_ok|]. intros root bc1 [-> H1].
  destruct (bc_ok_stateCache _ _ _ H1) as (st & Est & Hst). apply holds_bind, runs_holds, runs_gets. rewrite Est.
  apply holds_bind, runs_holds, runs_unwrap, holds_bind, runs_holds, runs_gets.
  destruct (ex_Reset (bc_db bc1) (Root (header p)) st) as [e|st0] eqn:E0; [by apply report_holds|].
  pose proof (ex_Reset_ok _ _ _ _ Hst E0) as Hst0. pose proof (ex_Process_ok (bc_db bc1) b st0 Hst0) as HP.
  destruct (ex_Process (bc_db bc1) b st0) as [[[[rs logs] gas]|e| |] st1] eqn:E1; try done; apply holds_bind, runs_holds, runs_modify.
  - destruct HP as [Hst1 Hrs]. pose proof (bc_ok_state _ _ _ _ H1 Hst1) as H2.
    eapply holds_runs_bind; [by apply parent_ok|]. intros r bc3 [_ H3].
    pose proof (ValidateState_ok (bc_db bc1) b st1 rs gas Hst1 Hrs) as HV.
    destruct (ValidateState (bc_db bc1) b st1 rs gas) as [r' st2]. destruct HV as [Hst2 HV].
    apply holds_bind, runs_holds, runs_modify. pose proof (bc_ok_state _ _ _ _ H3 Hst2) as H4.
    destruct r' as [[]|e| |]; try done; [|by apply report_holds]. destruct HV as (-> & Hbl & Hrr & Hir).
    apply holds_ret. split_and!; [done..|]. split; [|done|done]. by exists (bc_db bc1), st, st0, st1, st2.
  - apply report_holds. by apply bc_ok_state.
Qed.

Lemma commit_state_holds T cur bc : bc_ok T cur bc -> holds commit_state bc (bc_ok T cur) (fun _ => bc_ok T cur).
Proof.
  intros H. unfold commit_state. destruct (bc_ok_stateCache _ _ _ H) as (st & Est & Hst). apply holds_bind, runs_holds, runs_gets.
  rewrite Est. apply holds_bind, runs_holds, runs_unwrap, holds_bind, runs_holds, runs_gets.
  pose proof (ex_Commit_ok (bc_db bc) st Hst) as HC. destruct (ex_Commit (bc_db bc) st) as [r [st' db']].
  destruct HC as (Hp & Hn & Hst' & puts & -> & Hputs). apply holds_bind, runs_holds, runs_modify.
  pose proof (bc_ok_state _ _ _ _ H Hst') as H1. eapply holds_runs_bind.
  { apply (write_db_ok T cur _ (fun _ => batch_Write puts (bc_db bc)) H1). apply state_puts_fine; [apply hs_hash|by eapply bc_ok_entries|done]. }
  intros [] bc2 H2. destruct r; try done.
Qed.
(** ** Storing a block *)

(** The rule of the chain: [b], whose parent is known, is stored; it becomes the head if it is
    heavier than the head, does not if it is lighter, and may if it is as heavy. *)
Inductive grows : gmap Hash Block -> Block -> list Block -> gmap Hash Block -> Block -> Prop :=
| grows_nil T cur : grows T cur [] T cur
| grows_cons T cur b p t tc (wins : bool) bs T' cur' :
    accepted T b -> T !! ParentHash (header b) = Some p ->
    total (heads T) (header g) (header p) t -> total (heads T) (header g) (header cur) tc ->
    (if wins then tc <= Difficulty (header b) + t else Difficulty (header b) + t <= tc) ->
    grows (<[Block_Hash b := bare b]> T) (if wins then b else cur) bs T' cur' ->
    grows T cur (b :: bs) T' cur'.

Lemma grows_app T cur bs T1 cur1 bs' T2 cur2 : grows T cur bs T1 cur1 -> grows T1 cur1 bs' T2 cur2 -> grows T cur (bs ++ bs') T2 cur2.
Proof. induction 1; [done|]. intros Hs. econstructor; eauto. Qed.

Lemma bc_ok_total T cur bc : bc_ok T cur bc -> exists t, total (heads T) (header g) (header cur) t.
Proof.
  intros (hx & f & H & Hc & _). eapply total_exists; [by eapply at_tree|]. by apply (stored_header U T cur).
Qed.
Lemma parent_total T cur bc k p : bc_ok T cur bc -> T !! k = Some p -> exists t, total (heads T) (header g) (header p) t.
Proof.
  intros (hx & f & H & _) Hp. eapply total_exists; [by eapply at_tree|].
  change (Hash_ (header p)) with (Block_Hash p). rewrite <- (at_hash _ _ _ _ _ _ _ _ H _ p Hp). by apply at_header.
Qed.

Lemma tables_runs {A} T cur bc b rs (m : SM (BlockChain (St:=St)) bcErr A) P : bc_ok T cur bc -> blk b -> receipts_fine rs ->
  (forall bc', bc_ok T cur bc' -> runs m bc' P) ->
  runs (_ ← write_or_error (WriteTransactions b); _ ← write_or_error (WriteReceipts rs); _ ← write_mipmap (NumberU64 b) rs; m) bc P.
Proof.
  intros H Hb (Hr & _) Hm. destruct (blk_fine g U HU b Hb) as [Hf _]. destruct (fine_number b Hf) as [Hn ->].
  destruct (WriteTransactions_fine hs (hs_hash U) b (bc_db bc) (blk_txs g U HU b Hb) (bf_count _ Hf) (bc_ok_entries _ _ _ H)) as (db1 & E1 & F1).
  apply runs_bind. eapply runs_mono; [by eapply write_or_error_ok|]. intros [] bc1 H1.
  destruct (WriteReceipts_fine hs (hs_hash U) rs (bc_db bc1) Hr (bc_ok_entries _ _ _ H1)) as (db2 & E2 & F2).
  apply runs_bind. eapply runs_mono; [by eapply write_or_error_ok|]. intros [] bc2 H2.
  destruct (WriteMipmapBloom_fine hs (hs_hash U) (Number (header b)) rs (bc_db bc2) (bc_ok_entries _ _ _ H2) Hn) as (db3 & E3 & F3).
  apply runs_bind. exists tt. eexists. unfold write_mipmap. rewrite E3. split; [done|]. by apply Hm, bc_ok_fine.
Qed.

Lemma preimages_runs T cur bc : bc_ok T cur bc -> exists st, stateCache bc = Some st /\
  runs (write_db (WritePreimages (ex_Preimages st))) bc (fun _ => bc_ok T cur).
Proof.
  intros H. destruct (bc_ok_stateCache _ _ _ H) as (st & Est & Hst). exists st. split; [done|].
  apply write_db_ok; [done|]. apply WritePreimages_fine; [apply hs_hash|by eapply bc_ok_entries|by apply ex_Preimages_ok].
Qed.

Lemma store_committed T cur bc bc1 b rs logs coin : commit_state bc = (Done tt, bc1) -> bc_ok T cur bc1 -> blk b -> receipts_fine rs ->
  accepted T b -> runs (store b rs logs coin) bc (fun _ bc' => exists T' cur', grows T cur [b] T' cur' /\ bc_ok T' cur' bc').
Proof.
  intros Ec H1 Hb Hr Ha. pose proof Ha as (p & _ & _ & Hp & _). unfold store. apply runs_bind. exists tt, bc1. split; [done|].
  destruct Hr as (Hr1 & He & Hl & Hr2).
  destruct (WriteBlockReceipts_fine hs (hs_hash U) (Block_Hash b) (NumberU64 b) rs (bc_db bc1) He Hl (bc_ok_entries _ _ _ H1)) as (db2 & E2 & F2).
  apply runs_bind. eapply runs_mono; [by eapply write_or_error_ok|]. intros [] bc2 H2.
  destruct (parent_total _ _ _ _ p H2 Hp) as [t Ht]. destruct (bc_ok_total _ _ _ H2) as [tc Htc].
  apply runs_bind. eapply runs_mono; [by eapply (WriteBlock_at g U HU T cur bc2 b p t tc coin)|]. cbv zeta. set (wins := _ || _). intros st bc3 [-> H3].
  assert (grows T cur [b] (<[Block_Hash b := bare b]> T) (if wins then b else cur)) as Hg.
  { eapply (grows_cons T cur b p t tc wins); [done..| |constructor]. unfold wins. destruct (_ || _) eqn:E; bool_to_prop; lia. }
  destruct wins; [|apply runs_ret; by eexists _, _].
  apply tables_runs with (T := <[Block_Hash b := bare b]> T) (cur := b); [done..|]. intros bc4 H4.
  destruct (preimages_runs _ _ bc4 H4) as (st & Est & Hpre). apply runs_bind, runs_gets. rewrite Est. apply runs_bind, runs_unwrap, runs_bind.
  eapply runs_mono; [exact Hpre|]. intros [] bc5 H5. apply runs_ret. by eexists _, _.
Qed.

Lemma store_holds T cur bc b rs logs coin : bc_ok T cur bc -> blk b -> receipts_fine rs -> accepted T b ->
  holds (store b rs logs coin) bc (bc_ok T cur) (fun _ bc' => exists T' cur', grows T cur [b] T' cur' /\ bc_ok T' cur' bc').
Proof.
  intros H Hb Hr Ha. pose proof (commit_state_holds T cur bc H) as Hc. unfold holds in Hc.
  destruct (commit_state bc) as [[[]|e| |] bc1] eqn:Ec; try done; [by eapply runs_holds, store_committed|].
  unfold holds, store, mbind, SM_bind. by rewrite Ec.
Qed.

(** ** A batch *)

Lemma insert_block_holds T cur bc now coin prev b result : bc_ok T cur bc -> blk b -> follows prev b ->
  holds (insert_block VerifyUncles now coin prev b result) bc (bc_ok T cur) (fun _ bc' =>
    exists bs T' cur', sublist bs [b] /\ grows T cur bs T' cur' /\ bc_ok T' cur' bc').
Proof.
  intros H Hb Hf. unfold insert_block. apply holds_bind. eapply holds_mono; [by apply check_block_holds|done|].
  intros valid bc1 [H1 Hv]. destruct valid; [|apply holds_ret; exists [], T, cur; split_and!; [apply sublist_nil_l|constructor|done]].
  destruct (Hv eq_refl) as (_ & Hbv & [p Hp]). apply holds_bind. eapply holds_mono; [by eapply execute_holds|done|].
  intros [[rs logs] gas] bc2 (H2 & Hrs & Hrv). apply holds_bind. eapply holds_mono; [apply (store_holds T cur bc2 b rs logs coin H2 Hb Hrs)|done|].
  - by exists p, rs, logs.
  - intros es bc3 (T' & cur' & Hg & H3). apply holds_ret. by exists [b], T', cur'.
Qed.

Lemma insert_chain_loop_ok now coin interrupted chain : forall i prev results es logs T cur bc, bc_ok T cur bc -> Forall blk chain ->
  (length chain <= length results)%nat -> match chain with [] => True | b :: rest => follows prev b /\ contiguous_blocks (i + 1) b rest = None end ->
  runs (insert_chain_loop VerifyUncles now coin interrupted i prev chain results es logs) bc (fun _ bc' =>
    exists bs T' cur', sublist bs chain /\ grows T cur bs T' cur' /\ bc_ok T' cur' bc').
Proof.
  induction chain as [|b chain IH]; intros i prev results es logs T cur bc H Hch Hl Hf; cbn [insert_chain_loop].
  { apply runs_bind, runs_modify, runs_ret. exists [], T, cur. split_and!; [constructor|constructor|by apply bc_ok_post]. }
  destruct (interrupted i).
  { apply runs_bind, runs_modify, runs_ret. exists [], T, cur. split_and!; [apply sublist_nil_l|constructor|by apply bc_ok_post]. }
  destruct results as [|r results]; [cbn in Hl; lia|]. apply Forall_cons in Hch as [Hb Hch]. destruct Hf as [Hf Hc].
  pose proof (insert_block_holds T cur bc now (coin b) prev b r H Hb Hf) as HB. unfold holds in HB. unfold runs.
  destruct (insert_block VerifyUncles now (coin b) prev b r bc) as [[[es' logs']|e| |] bc1]; try done.
  - destruct HB as (bs & T1 & cur1 & Hs & Hg & H1).
    destruct (IH (i + 1) (Some b) results (es ++ es') (logs ++ logs') T1 cur1 bc1 H1 Hch) as (a & bc2 & E & bs' & T2 & cur2 & Hs' & Hg' & H2).
    + cbn in Hl. lia.
    + destruct chain as [|b' chain]; [done|]. cbn [contiguous_blocks] in Hc. destruct (_ || _) eqn:E; [done|].
      apply orb_false_iff in E as [_ E]. by apply negb_false_iff, bool_decide_eq_true in E.
    + exists a, bc2. split; [exact E|]. exists (bs ++ bs'), T2, cur2. split_and!; [by apply (sublist_app bs [b])|by eapply grows_app|done].
  - eexists _, _. split; [done|]. exists [], T, cur. split_and!; [apply sublist_nil_l|constructor|done].
Qed.

Lemma InsertChain_ok now coin interrupted chain results T cur bc : bc_ok T cur bc -> Forall blk chain ->
  (length chain <= length results)%nat ->
  runs (InsertChain VerifyUncles now coin interrupted chain results) bc (fun _ bc' =>
    exists bs T' cur', sublist bs chain /\ grows T cur bs T' cur' /\ bc_ok T' cur' bc').
Proof.
  intros H Hch Hl. unfold InsertChain. destruct (match chain with [] => _ | _ => _ end) eqn:E.
  - apply runs_ret. exists [], T, cur. split_and!; [apply sublist_nil_l|constructor|done].
  - apply insert_chain_loop_ok; [done..|]. destruct chain; [done|]. by split.
Qed.
End insertion.

(** A valid block is stored, and is the new head if it is heavier. *)

Lemma bind_done {St E A B} (m : SM St E A) (f : A -> SM St E B) s a s' : m s = (Done a, s') -> (m ≫= f) s = f a s'.
Proof. intros Hm. unfold mbind, SM_bind. by rewrite Hm. Qed.

Section live.
Context {CR : Crypto} {CK : CryptoOk} {LR : Lru} {LK : LruOk} {St : Type} {EX : Execution St} {EK : ExecutionOk St}.
Variables (g : Block) (U : list Block).
Hypothesis HU : block_universe g U.
Variable VerifyUncles : Db -> Block -> option Consensus.error.
Implicit Types (T : gmap Hash Block) (b p cur : Block) (k : Hash) (bc : BlockChain (St:=St)).

Abbreviation blk := (blk U).
Abbreviation heads T := (header <$> T).
Abbreviation bc_ok := (bc_ok g U).

(** [b] is valid on top of [p], as seen from the database [db]: the state of [p] is there, the
    body agrees with the header, and from any state cache the block runs to what the header says. *)
Record valid_on (db : Db) p b : Prop := {
  vo_state : exists st, ex_New db (Root (header p)) = inr st;
  vo_uncles : VerifyUncles db b = None;
  vo_uncleHash : CalcUncleHash (uncles b) = UncleHash (header b);
  vo_txHash : DeriveSha_transactions (transactions b) = Some (TxHash (header b));
  vo_run st : ex_inv st -> exists st0 receipts logs st1 st2 root st3 db',
    ex_Reset db (Root (header p)) st = inr st0 /\
    ex_Process db b st0 = (Done (receipts, logs, GasUsed (header b)), st1) /\
    CreateBloom receipts = Some (Bloom (header b)) /\
    DeriveSha_receipts receipts = Some (ReceiptHash (header b)) /\
    ex_IntermediateRoot db st1 = Some (Root (header b), st2) /\
    ex_Commit db st2 = (Done root, (st3, db'));
}.

(** ** Reading changes only caches *)

Definition same bc bc' : Prop := bc_db bc' = bc_db bc /\ stateCache bc' = stateCache bc.

Lemma runs_same {A} (m : SM (BlockChain (St:=St)) bcErr A) bc (P : A -> BlockChain (St:=St) -> Prop) :
  runs m bc P -> same bc (m bc).2 -> runs m bc (fun a bc' => P a bc' /\ same bc bc').
Proof. apply runs_and. Qed.

Lemma GetBlock_same k n bc : same bc (bc_GetBlock k n bc).2.
Proof. unfold bc_GetBlock. destruct (lru_Get _ _) as [[b|] c]; [done|]. by destruct (GetBlock _ _ _). Qed.
Lemma HasBlock_same k bc : same bc (HasBlock k bc).2.
Proof.
  unfold HasBlock, GetBlockByHash, mbind, SM_bind, lift. pose proof (GetBlockNumber_db k (bc_hc bc)) as E.
  destruct (hc_GetBlockNumber k (bc_hc bc)) as [[n|e| |] hc]; try (split; [exact E|done]).
  pose proof (GetBlock_same k n (set_hc hc bc)) as [Ed Es]. destruct (bc_GetBlock k n (set_hc hc bc)) as [[r|e| |] bc'];
    cbn in *; (split; [rewrite Ed; exact E|by rewrite Es]).
Qed.

(** ** The steps succeed *)

Lemma ValidateBody_valid T cur bc b p : bc_ok T cur bc -> blk b -> T !! ParentHash (header b) = Some p -> valid_on (bc_db bc) p b ->
  exists bc', bc_ok T cur bc' /\ same bc bc' /\
    (ValidateBody VerifyUncles b bc = (Done tt, bc') \/ ValidateBody VerifyUncles b bc = (Error bcKnownBlock, bc') /\ T !! Block_Hash b <> None).
Proof.
  intros H Hb Hp HV. destruct (vo_state _ _ _ HV) as [st0 Hst0].
  assert (runs (HasBlock (Block_Hash b)) bc (fun r bc' => (r = bool_decide (is_Some (T !! Block_Hash b)) /\ bc_ok T cur bc') /\ same bc bc')) as Hh.
  { apply runs_same; [apply (HasBlock_ok g U HU); [done|apply is_hash_array, Hash_array]|apply HasBlock_same]. }
  destruct Hh as (known & bc1 & E1 & [-> H1] & [S1 S1']). unfold ValidateBody. rewrite (bind_done _ _ _ _ _ E1).
  set (k := bool_decide (is_Some (T !! Block_Hash b))).
  assert (exists k' : bool, (if k then has_state (Root (header b)) else mret false) bc1 = (Done k', bc1) /\ (k' = true -> k = true)) as (k' & E & Hk).
  { destruct k; [|by exists false]. by eexists. }
  rewrite (bind_done _ _ _ _ _ E). destruct k'.
  { exists bc1. split_and!; [done|by split|]. right. split; [done|]. specialize (Hk eq_refl). apply bool_decide_eq_true in Hk as [x ->]. done. }
  assert (runs (parent_block b) bc1 (fun r bc' => (r = T !! ParentHash (header b) /\ bc_ok T cur bc') /\ same bc1 bc')) as Hpr.
  { apply runs_same; [by apply (parent_ok g U HU)|apply GetBlock_same]. }
  destruct Hpr as (r & bc2 & E2 & [-> H2] & [S2 S2']). rewrite (bind_done _ _ _ _ _ E2), Hp.
  exists bc2. split_and!; [done|split; congruence|left]. assert (bc_db bc2 = bc_db bc) as Ed by congruence.
  rewrite (bind_done _ _ bc2 true bc2) by (unfold has_state, gets; by rewrite Ed, Hst0). cbn [negb].
  rewrite (bind_done _ _ bc2 (bc_db bc) bc2) by (unfold gets; by rewrite Ed).
  rewrite (vo_uncles _ _ _ HV), (bool_decide_eq_true_2 _ (vo_uncleHash _ _ _ HV)). cbn [negb].
  rewrite (vo_txHash _ _ _ HV), (bind_done _ _ bc2 (TxHash (header b)) bc2) by done. by rewrite bool_decide_eq_true_2.
Qed.

Lemma check_valid T cur bc now b p : bc_ok T cur bc -> blk b -> T !! ParentHash (header b) = Some p -> valid_on (bc_db bc) p b ->
  runs (check_block VerifyUncles now b None) bc (fun valid bc' => bc_ok T cur bc' /\ same bc bc' /\
    (if valid then body_valid VerifyUncles b else T !! Block_Hash b <> None)).
Proof.
  intros H Hb Hp HV. destruct (ValidateBody_valid T cur bc b p H Hb Hp HV) as (bc' & H' & S' & [E|[E Hn]]); unfold check_block.
  - exists true, bc'. rewrite (bind_done _ _ bc None bc') by (unfold catch; by rewrite E). split_and!; try done.
    destruct HV. split; [by eexists|done|done].
  - exists false, bc'. rewrite (bind_done _ _ bc (Some bcKnownBlock) bc') by (unfold catch; by rewrite E). split_and!; done.
Qed.

Lemma execute_valid T cur bc b p : bc_ok T cur bc -> blk b -> T !! ParentHash (header b) = Some p -> valid_on (bc_db bc) p b ->
  runs (execute None b) bc (fun '(rs, logs, _) bc' => bc_ok T cur bc' /\ receipts_fine rs /\ run_valid p b rs logs /\
    exists st root st3 db', stateCache bc' = Some st /\ ex_Commit (bc_db bc') st = (Done root, (st3, db'))).
Proof.
  intros H Hb Hp HV. destruct (bc_ok_stateCache g U _ _ _ H) as (st & Est & Hst).
  destruct (vo_run _ _ _ HV st Hst) as (st0 & rs & logs & st1 & st2 & root & st3 & db' & E0 & E1 & Ebl & Err & Eir & Ec).
  assert (forall bc1 st', bc_ok T cur bc1 -> bc_db bc1 = bc_db bc -> stateCache bc1 = st' ->
    runs (parent_block b) bc1 (fun r bc' => r = Some p /\ bc_ok T cur bc' /\ bc_db bc' = bc_db bc /\ stateCache bc' = st')) as Hpr.
  { intros bc1 st' H1 Ed Es. eapply runs_mono; [apply runs_same; [by apply (parent_ok g U HU)|apply GetBlock_same]|].
    intros r bc' [[-> H'] [S1 S2]]. split_and!; [done|done|congruence|congruence]. }
  unfold execute. apply runs_bind. unfold parent_root. apply runs_bind. eapply runs_mono; [by apply (Hpr bc (Some st))|].
  intros r bc1 (-> & H1 & Ed1 & Es1). apply runs_bind, runs_unwrap, runs_ret, runs_bind, runs_gets. rewrite Es1.
  apply runs_bind, runs_unwrap, runs_bind, runs_gets. rewrite Ed1, E0, E1. apply runs_bind, runs_modify.
  pose proof (ex_Reset_ok _ _ _ _ Hst E0) as Hst0. pose proof (ex_Process_ok (bc_db bc) b st0 Hst0) as HP. rewrite E1 in HP. destruct HP as [Hst1 Hrs].
  apply runs_bind. eapply runs_mono; [eapply Hpr; [by apply (bc_ok_state g U)|done|done]|]. intros r bc2 (_ & H2 & Ed2 & _).
  pose proof (ValidateState_ok (bc_db bc) b st1 rs (GasUsed (header b)) Hst1 Hrs) as HS.
  assert (ValidateState (bc_db bc) b st1 rs (GasUsed (header b)) = (Done tt, st2)) as EV.
  { unfold ValidateState. rewrite Z.eqb_refl, Ebl, bool_decide_eq_true_2 by done. cbn [negb].
    rewrite Err, bool_decide_eq_true_2 by done. cbn [negb]. by rewrite Eir, bool_decide_eq_true_2. }
  rewrite EV in HS |- *. destruct HS as [Hst2 _]. apply runs_bind, runs_modify, runs_ret. split_and!; [by apply (bc_ok_state g U)|done|split; [|done..]|].
  - by exists (bc_db bc), st, st0, st1, st2.
  - exists st2, root, st3, db'. split; [done|]. change (bc_db (set_stateCache (Some st2) bc2)) with (bc_db bc2). by rewrite Ed2.
Qed.

Lemma commit_valid T cur bc st root st' db' : bc_ok T cur bc -> stateCache bc = Some st -> ex_Commit (bc_db bc) st = (Done root, (st', db')) ->
  exists bc', commit_state bc = (Done tt, bc').
Proof. intros H Es Ec. unfold commit_state, mbind, SM_bind, gets. rewrite Es. cbn. rewrite Ec. cbn. by eexists. Qed.


(** A block on top of a known one, valid there: it is stored, and heavier than the head it is the head. *)
Lemma InsertChain_valid T cur bc now coin b p t tc : bc_ok T cur bc -> blk b -> T !! ParentHash (header b) = Some p ->
  valid_on (bc_db bc) p b -> total (heads T) (header g) (header p) t -> total (heads T) (header g) (header cur) tc ->
  runs (InsertChain VerifyUncles now coin (fun _ => false) [b] [None]) bc (fun r bc' => r = (0, None) /\
    exists T' cur', bc_ok T' cur' bc' /\ T' = <[Block_Hash b := bare b]> T /\ (tc < Difficulty (header b) + t -> Block_Hash cur' = Block_Hash b)).
Proof.
  intros H Hb Hp HV Ht Htc. unfold InsertChain. cbn [contiguous_blocks insert_chain_loop].
  destruct (check_valid T cur bc now b p H Hb Hp HV) as (valid & bc1 & E1 & H1 & [S1 S1'] & Hv).
  unfold runs, insert_block. rewrite (bind_done _ _ _ _ _ E1). destruct valid.
  - rewrite <- S1 in HV. destruct (execute_valid T cur bc1 b p H1 Hb Hp HV) as ([[rs logs] gas] & bc2 & E2 & H2 & Hrs & Hrv & st & root & st3 & db' & Es & Ec).
    destruct (commit_valid T cur bc2 st root st3 db' H2 Es Ec) as (bc3 & E3).
    pose proof (commit_state_holds g U HU T cur bc2 H2) as H3. unfold holds in H3. rewrite E3 in H3.
    destruct (store_committed g U HU VerifyUncles T cur bc2 bc3 b rs logs (coin b) E3 H3 Hb Hrs) as (es & bc4 & E4 & T' & cur' & Hg & H4).
    { by exists p, rs, logs. }
    rewrite (bind_done _ _ _ _ _ E2), (bind_done _ _ _ _ _ E4). eexists _, _. split; [done|]. split; [done|].
    exists T', cur'. split; [by apply (bc_ok_post g U)|]. inversion Hg as [|? ? ? p' t' tc' wins ? ? ? Ha Hp' Ht' Htc' Hw Hg']; subst.
    inversion Hg'; subst. split; [done|]. intros Hlt. destruct H1 as (hx & f & H1 & _). pose proof (at_tree _ _ _ _ _ _ _ _ H1) as Htree.
    assert (p' = p) as -> by congruence. rewrite (total_fun _ _ _ _ _ Htree Ht' Ht), (total_fun _ _ _ _ _ Htree Htc' Htc) in Hw.
    by destruct wins; [|lia].
  - eexists _, _. split; [done|]. split; [done|]. exists T, cur. split; [by apply (bc_ok_post g U)|].
    destruct H as (hx & f & H & Hcur & Hcan & Hmax). destruct (extends_at g U HU _ _ _ _ _ _ b H Hb) as [_ [E|E]]; [done|].
    split; [by rewrite insert_id|]. intros Hlt. pose proof (at_tree _ _ _ _ _ _ _ _ H) as Htree.
    specialize (Hmax (header b) (Difficulty (header b) + t) tc). exfalso. assert (Difficulty (header b) + t <= tc); [|lia].
    apply Hmax; [by apply (at_header T _ (bare b))| |done]. econstructor; [by eapply at_header| |done].
    destruct (at_block _ _ _ _ _ _ _ _ H _ p Hp) as (_ & Hbp & _).
    apply (blk_link g U HU b p Hb Hbp). by eapply at_hash.
Qed.
End live.
