(* ===== verification/BlockChainStart.v ===== *)
(** A chain opened on the database that the commit of a genesis block leaves. *)
From S2P Require Import Prelude GoBig CommonMath CommonTypes Rlp RlpDecode RlpDecodeOk RlpDecodeTheorems VmTypes.
From S2P Require Import StateTransition BlockState TxTypes BlockTypes DeriveSha Consensus ChainDb ChainDbOk ChainTables.
From S2P Require Import Genesis HeaderChain HeaderChainOk BlockChain BlockChainOk BlockChainReorg BlockChainInsert.
Import Types.

(** ** Reads of a state that is not complete yet *)

(** [m] neither reads nor writes what [fill] sets. *)
Definition passes {St E A} (fill : St -> St) (m : SM St E A) : Prop := forall s, m (fill s) = let '(r, s') := m s in (r, fill s').

Lemma runs_passes {St E A} (fill : St -> St) (m : SM St E A) s P : passes fill m -> runs m (fill s) P -> runs m s (fun a s' => P a (fill s')).
Proof. intros Hm (a & s' & Hr & HP). rewrite Hm in Hr. destruct (m s) as [r s1] eqn:E1. injection Hr as -> <-. by exists a, s1. Qed.

Section start.
Context {CR : Crypto} {CK : CryptoOk} {LR : Lru} {LK : LruOk} {St : Type} {EX : Execution St} {EK : ExecutionOk St}.
Variables (g : Block) (U : list Block).
Hypothesis HU : block_universe g U.
Implicit Types (db : Db) (hc : HeaderChain) (bc : BlockChain (St:=St)).

Abbreviation hs := (hs U).
Abbreviation gh := (Block_Hash g).
Abbreviation T0 := ({[gh := bare g]} : gmap Hash Block).

Definition with_header hc : HeaderChain := set_current (Some (header g)) gh hc.
Definition with_block (st : St) bc : BlockChain (St:=St) :=
  set_heads (genesisBlock bc) (Some (bare g)) (currentFastBlock bc) (set_stateCache (Some st) bc).

Lemma GetBlockNumber_passes k : passes with_header (hc_GetBlockNumber k).
Proof.
  intros hc. unfold hc_GetBlockNumber, with_header. cbn. destruct (lru_Get _ _) as [[n|] c]; [done|]. cbn.
  destruct (GetBlockNumber _ _) as [n|]; [|done]. by destruct (_ =? _).
Qed.
Lemma GetHeader_passes k n : passes with_header (hc_GetHeader k n).
Proof. intros hc. unfold hc_GetHeader, with_header. cbn. destruct (lru_Get _ _) as [[x|] c]; [done|]. cbn. by destruct (GetHeader _ _ _). Qed.
Lemma GetBlock_passes st k n : passes (with_block st) (bc_GetBlock k n).
Proof. intros bc. unfold bc_GetBlock, with_block. cbn. destruct (lru_Get _ _) as [[x|] c]; [done|]. unfold bc_db. cbn. by destruct (GetBlock _ _ _). Qed.
Lemma lift_passes {A} st (m : SM HeaderChain chainErr A) : passes (with_block st) (lift m).
Proof. intros bc. unfold lift, with_block. cbn. by destruct (m (bc_hc bc)) as [[] hc]. Qed.

(** ** The database of the genesis block *)

Lemma genesis_facts : block_fine g /\ Number (header g) = 0 /\ NumberU64 g = 0 /\ blk U g.
Proof.
  destruct (bu_genesis _ _ HU) as [Hg Hn]. pose proof (bu_fine _ _ HU g Hg) as Hf. destruct (fine_number g Hf) as [_ E].
  split_and!; [done|done|congruence|by apply (blk_in g U HU)].
Qed.

Lemma genesis_tree : tree (header <$> T0) (header g).
Proof.
  destruct genesis_facts as (Hf & Hn & _). rewrite map_fmap_singleton. cbn [header bare].
  split.
  - by intros k h [<- <-]%lookup_singleton_Some.
  - intros k h [<- <-]%lookup_singleton_Some. split_and!; [apply (bf_header _ Hf)| |apply (bf_difficulty _ Hf)]. rewrite Hn. lia.
  - unfold Block_Hash. by rewrite lookup_singleton_eq.
  - intros k h [<- <-]%lookup_singleton_Some. by left.
  - rewrite lookup_singleton_ne; [done|]. apply (bf_hash _ Hf).
Qed.

(** A chain as it would be with nothing in its caches. *)
Definition boot db (st : St) : BlockChain (St:=St) :=
  with_block st {| bc_hc := with_header (new_chain db); genesisBlock := None; currentBlock := None; currentFastBlock := None; stateCache := None;
                   bodyCache := lru_New bodyCacheLimit; bodyRLPCache := lru_New bodyCacheLimit;
                   blockCache := lru_New blockCacheLimit; futureBlocks := lru_New maxFutureBlocks;
                   badBlocks := lru_New badBlockLimit; posted := [] |}.

Abbreviation at0 f kh := (bc_at g U T0 (header g) f (bare g) kh).

Lemma boot_at db0 db st : ex_inv st -> fine hs ∅ db0 -> block_written g (Difficulty (header g)) db0 db ->
  at0 (fun _ => Common.zeroHash) Common.zeroHash (boot db st).
Proof.
  intros Hst [Ha He] BW. destruct genesis_facts as (Hf & Hn & _ & Hb). pose proof genesis_tree as Ht.
  assert (no_old ∅) as O0 by done. destruct (aside_reads hs (hs_hash U) ∅ db0 Ha O0) as (_ & Hd0 & Td0 & _ & _ & _ & Ca0 & Hb0).
  assert (is_hash gh) as Hh by apply is_hash_array, Hash_array. assert (u64_ok (Number (header g))) as Hu by (rewrite Hn; unfold u64_ok; lia).
  assert (forall k h, (header <$> T0) !! k = Some h <-> k = gh /\ h = header g) as HT.
  { intros k h. rewrite map_fmap_singleton, lookup_singleton_Some. cbn. naive_solver. }
  split; unfold bc_db, boot; cbn [with_block with_header new_chain bc_hc chainDb set_heads set_stateCache set_current currentBlock blockCache stateCache]; try done.
  - split; cbn [chainDb set_current new_chain currentHeader currentHeaderHash headerCache tdCache numberCache]; try done.
    + apply BW.
    + intros k n h Hk Hn'. rewrite (bw_header _ _ _ _ BW), HT by done. rewrite Hd0, GetHeader_new by done. case_decide; naive_solver.
    + intros k n t Hk Hn'. rewrite (bw_td _ _ _ _ BW) by done. rewrite Td0, GetTd_new by done. split.
      * case_decide as E; [|done]. intros [= <-]. destruct E as [-> ->]. exists (header g). split_and!; [by apply HT|done|constructor].
      * intros (h & [-> ->]%HT & -> & Htot). rewrite decide_True by done. f_equal. by apply (total_fun _ _ _ _ _ Ht (total_genesis _ _)).
    + intros k h [-> ->]%HT. rewrite (bw_number _ _ _ _ BW), decide_True by done. done.
    + intros n Hn'. rewrite (bw_canon _ _ _ _ BW), Ca0. by rewrite GetCanonicalHash_new.
    + split_and!; [done|done|]. by apply HT.
    + intros k h. cbn. by rewrite contents_New.
    + intros k t. cbn. by rewrite contents_New.
    + intros k n. cbn. by rewrite contents_New.
  - intros k b [<- <-]%lookup_singleton_Some. split_and!; [apply bare_bare|by apply blk_bare|].
    rewrite (bw_body _ _ _ _ BW) by done. by rewrite decide_True.
  - intros k Hk Hne%lookup_singleton_None. rewrite (bw_missing _ _ _ _ BW) by done. by apply (as_missing _ _ _ Ha).
  - intros k b. by rewrite contents_New.
  - apply BW.
  - rewrite (bw_head _ _ _ _ BW), Hb0. done.
  - by exists st.
Qed.
Abbreviation f0 := (fun m : Z => if decide (m = 0) then gh else Common.zeroHash).

Lemma config_fine db cfg : entries_ok db -> value_fine (Marshal cfg) -> fine hs db (WriteChainConfig gh (Some cfg) db).
Proof.
  intros He Hv. split.
  - apply aside_insert_other; [apply hs_hash| |by left]. right. right. left. exists 116. split; [done|]. set_solver.
  - apply entries_insert; [done|done|right; by left].
Qed.

Lemma head_header_fine db : entries_ok db -> fine hs db (WriteHeadHeaderHash gh db).
Proof.
  intros He. split.
  - apply aside_insert_other; [apply hs_hash|by right; right; right; left|by left].
  - apply entries_insert; [done|apply hash_value|right; by left].
Qed.

(** The writes of [Commit] after those of the state. *)
Lemma committed db0 cfg : fine hs ∅ db0 -> value_fine (Marshal cfg) -> exists db1 db2 db3,
  WriteTd gh 0 (Difficulty (header g)) db0 = Done db1 /\ WriteBlock g db1 = Done db2 /\ WriteBlockReceipts gh 0 [] db2 = Done db3 /\
  let db := WriteChainConfig gh (Some cfg) (WriteHeadHeaderHash gh (WriteHeadBlockHash gh (WriteCanonicalHash gh 0 db3))) in
  (forall st, ex_inv st -> at0 f0 gh (boot db st)) /\ db !! headHeaderKey = Some gh.
Proof.
  intros Hf0 Hcfg. destruct genesis_facts as (Hf & Hn & En & Hb).
  destruct (aside_reads hs (hs_hash U) ∅ db0 (proj1 Hf0)) as (O0 & _); [done|].
  assert (td_ok (Difficulty (header g))) as Htd.
  { pose proof (header_ok_fields _ (bf_header _ Hf)) as (_ & _ & Hd & _). pose proof (bf_difficulty _ Hf). unfold td_ok.
    change (2 ^ 4096) with (2 ^ 256 * 2 ^ 3840). nia. }
  destruct (written g (Difficulty (header g)) db0 Hf Htd O0 (proj2 Hf0)) as (db1 & db2 & W1 & W2 & BW). rewrite Hn in W1.
  destruct (WriteBlockReceipts_fine hs (hs_hash U) gh 0 [] db2) as (db3 & W3 & F3); [constructor; constructor|done|apply BW|].
  exists db1, db2, db3. split_and!; [done..|]. cbv zeta. split.
  - intros st Hst. pose proof (boot_at db0 db2 st Hst Hf0 BW) as H2. pose proof (bc_at_aside g U HU _ _ _ _ _ _ db3 H2 F3) as H3. change (at0 (fun _ => Common.zeroHash) Common.zeroHash (boot db3 st)) in H3.
    destruct (canonical_at g U _ _ _ _ _ _ g H3 Hf) as ([] & bc4 & E4 & H4). rewrite En, Hn in *. injection E4 as <-.
    destruct (head_at g U _ _ _ _ _ _ g H4) as ([] & bc5 & E5 & H5). injection E5 as <-.
    pose proof (bc_at_aside g U HU _ _ _ _ _ _ _ H5 (head_header_fine _ (at_entries _ _ _ _ _ _ _ _ H5))) as H6.
    exact (bc_at_aside g U HU _ _ _ _ _ _ _ H6 (config_fine _ cfg (at_entries _ _ _ _ _ _ _ _ H6) Hcfg)).
  - unfold WriteChainConfig, WriteHeadHeaderHash. rewrite lookup_insert_ne by done. by rewrite lookup_insert_eq.
Qed.

(** ** Opening it *)

Lemma runs_unlift {A} (m : SM HeaderChain chainErr A) bc (P : A -> BlockChain (St:=St) -> Prop) :
  runs (lift m) bc P -> runs m (bc_hc bc) (fun a hc => P a (set_hc hc bc)).
Proof.
  intros (a & bc' & Hr & HP). unfold lift in Hr. destruct (m (bc_hc bc)) as [[] hc] eqn:Em; try done. injection Hr as -> <-. by exists a, hc.
Qed.
Lemma GetHeader_db k n hc : chainDb (hc_GetHeader k n hc).2 = chainDb hc.
Proof. unfold hc_GetHeader. destruct (lru_Get _ _) as [[t|] c]; [done|]. by destruct (GetHeader _ _ _). Qed.

Section opened.
Variables (db : Db) (st0 : St).
Hypothesis H0 : at0 f0 gh (boot db st0).
Hypothesis Hhead : db !! headHeaderKey = Some gh.

Abbreviation ok := (hc_ok (header <$> T0) (header g) (header g) f0).
Definition part hc : Prop := ok (with_header hc) /\ chainDb hc = db.

Lemma T0_lookup : T0 !! gh = Some (bare g).
Proof. apply lookup_singleton_eq. Qed.
Lemma gh_hash : is_hash gh /\ gh <> Common.zeroHash.
Proof. split; [apply is_hash_array, Hash_array|apply (bf_hash g), genesis_facts]. Qed.

Lemma part_number hc : part hc -> runs (hc_GetBlockNumber gh) hc (fun n hc' => n = 0 /\ part hc').
Proof.
  intros [Hok Hdb]. destruct genesis_facts as (_ & Hn & _).
  assert (at0 f0 gh (set_hc (with_header hc) (boot db st0))) as H by (by eapply bc_at_hc).
  pose proof (GetBlockNumber_at g U HU _ _ _ _ _ _ gh H (proj1 gh_hash)) as Hr. apply runs_unlift, (runs_passes _ _ hc) in Hr; [|apply GetBlockNumber_passes].
  eapply runs_mono; [apply (runs_and _ _ _ (fun hc' => chainDb hc' = db) Hr); by rewrite GetBlockNumber_db|].
  intros n hc' [[-> H'] Hdb']. rewrite T0_lookup. cbn. split; [done|]. split; [|done]. exact (at_hc _ _ _ _ _ _ _ _ H').
Qed.
Lemma part_header hc : part hc -> runs (hc_GetHeader gh 0) hc (fun r hc' => r = Some (header g) /\ part hc').
Proof.
  intros [Hok Hdb]. destruct genesis_facts as (_ & Hn & _).
  assert ((header <$> T0) !! gh = Some (header g)) as Hg by (by rewrite lookup_fmap, T0_lookup).
  pose proof (hc_GetHeader_some _ _ _ _ _ _ _ Hok Hg) as Hr. rewrite Hn in Hr. apply (runs_passes _ _ hc) in Hr; [|apply GetHeader_passes].
  eapply runs_mono; [apply (runs_and _ _ _ (fun hc' => chainDb hc' = db) Hr); by rewrite GetHeader_db|].
  intros r hc' [[-> H'] Hdb']. done.
Qed.
Lemma part_canon hc : part hc -> GetCanonicalHash (chainDb hc) 0 = gh.
Proof. intros [Hok _]. exact (ok_canon _ _ _ _ _ Hok 0 ltac:(unfold u64_ok; lia)). Qed.
Lemma part_set hc x h k : part hc -> part (SetGenesis x hc) /\ part (set_current h k hc).
Proof. intros [[] Hdb]. by split; (split; [split|]). Qed.

Lemma NewHeaderChain_at : exists hc, NewHeaderChain db = Done hc /\ ok hc /\ chainDb hc = db.
Proof.
  assert (part (new_chain db)) as Hp by (split; [exact (at_hc _ _ _ _ _ _ _ _ H0)|done]). destruct gh_hash as [Hh Hz].
  assert (runs load_head (new_chain db) (fun _ hc => ok hc /\ chainDb hc = db)) as ([] & hc & E & Hhc).
  - unfold load_head, hc_GetHeaderByNumber. apply runs_bind, runs_bind, runs_gets. rewrite part_canon, bool_decide_eq_false_2 by done.
    eapply runs_mono; [by apply part_header|]. intros r hc1 [-> H1]. apply runs_bind, runs_modify, runs_bind, runs_modify.
    apply (part_set hc1 (Some (header g)) None gh) in H1 as [H1 _].
    apply (part_set _ None (Some (header g)) (currentHeaderHash (SetGenesis (Some (header g)) hc1))) in H1 as [_ H1].
    apply runs_bind, runs_gets. destruct H1 as [Hok1 Hdb1]. cbn [set_current chainDb] in *. rewrite Hdb1.
    rewrite (at_head _ _ _ _ _ _ _ _ H0 : GetHeadBlockHash db = gh), bool_decide_eq_false_2 by done.
    apply runs_bind, runs_bind, runs_bind. eapply runs_mono; [by apply part_number|]. intros n hc2 [-> H2].
    eapply runs_mono; [by apply part_header|]. intros r hc3 [-> [Hok3 Hdb3]].
    by apply runs_modify, runs_bind, runs_gets, runs_bind, runs_unwrap, runs_modify.
  - exists hc. unfold NewHeaderChain. by rewrite E.
Qed.

(** [fill] sets what is not there yet. *)
Section filled.
Variable fill : BlockChain (St:=St) -> BlockChain (St:=St).
Hypothesis fill_lift : forall A (m : SM HeaderChain chainErr A), passes fill (lift m).
Hypothesis fill_block : forall k n, passes fill (bc_GetBlock k n).
Hypothesis fill_hc : forall bc, bc_hc (fill bc) = bc_hc bc.

Definition loading bc : Prop := at0 f0 gh (fill bc) /\ bc_db bc = db.

Lemma loading_GetBlock bc k n : loading bc -> is_hash k -> u64_ok n -> (k = gh -> n = 0) ->
  runs (bc_GetBlock k n) bc (fun r bc' => r = T0 !! k /\ loading bc').
Proof.
  intros [H Hdb] Hk Hn Hkn. destruct genesis_facts as (_ & Hn0 & _).
  assert (runs (bc_GetBlock k n) (fill bc) (fun r bc' => r = T0 !! k /\ at0 f0 gh bc')) as Hr.
  { apply (GetBlock_at g U); [done..|]. intros b [<- <-]%lookup_singleton_Some. cbn. rewrite Hn0. by apply Hkn. }
  apply (runs_passes _ _ bc) in Hr; [|apply fill_block].
  eapply runs_mono; [apply (runs_and _ _ _ (fun bc' => bc_db bc' = db) Hr); by rewrite (proj1 (GetBlock_same k n bc))|].
  intros r bc' [[-> H'] Hdb']. done.
Qed.
Lemma loading_number bc k : loading bc -> is_hash k ->
  runs (lift (hc_GetBlockNumber k)) bc (fun n bc' => n = from_option (fun _ => 0) missingNumber (T0 !! k) /\ loading bc').
Proof.
  intros [H Hdb] Hk. destruct genesis_facts as (_ & Hn0 & _).
  pose proof (GetBlockNumber_at g U HU _ _ _ _ _ (fill bc) k H Hk) as Hr. apply (runs_passes _ _ bc) in Hr; [|apply fill_lift].
  eapply runs_mono; [apply (runs_and _ _ _ (fun bc' => bc_db bc' = db) Hr)|].
  - unfold lift. pose proof (GetBlockNumber_db k (bc_hc bc)). destruct (hc_GetBlockNumber k (bc_hc bc)) as [r hc]. cbn in *. unfold bc_db in *. cbn. congruence.
  - intros n bc' [[-> H'] Hdb']. split; [|done]. destruct (T0 !! k) as [b|] eqn:E; [|done]. apply lookup_singleton_Some in E as [_ <-]. cbn. exact Hn0.
Qed.
Lemma loading_GetBlockByHash bc k : loading bc -> is_hash k -> runs (GetBlockByHash k) bc (fun r bc' => r = T0 !! k /\ loading bc').
Proof.
  intros H Hk. unfold GetBlockByHash. apply runs_bind. eapply runs_mono; [by apply loading_number|]. intros n bc1 [-> H1].
  apply loading_GetBlock; [done|done| |].
  - destruct (T0 !! k); unfold u64_ok; cbn; unfold missingNumber; lia.
  - intros ->. by rewrite T0_lookup.
Qed.

(** Any stored hash of a head header leads to the genesis header. *)
Lemma loading_header bc k : loading bc -> is_hash k ->
  runs (lift (hc_GetHeaderByHash k)) bc (fun r bc' => default (header g) r = header g /\ loading bc').
Proof.
  intros H Hk. destruct genesis_facts as (_ & Hn0 & _). apply runs_lift. unfold hc_GetHeaderByHash. apply runs_bind.
  eapply runs_mono; [by apply runs_unlift, loading_number|]. intros n hc1 [-> [H1 Hdb1]].
  pose proof (at_hc _ _ _ _ _ _ _ _ H1) as Hok1. rewrite fill_hc in Hok1. cbn [bc_hc set_hc] in Hok1.
  assert (runs (hc_GetHeader k (from_option (fun _ => 0) missingNumber (T0 !! k))) hc1 (fun r hc' => default (header g) r = header g /\ ok hc')) as Hr.
  { destruct (T0 !! k) as [b|] eqn:E.
    - apply lookup_singleton_Some in E as [<- <-]. cbn [from_option option_rect]. rewrite <- Hn0 at 1. eapply runs_mono; [eapply hc_GetHeader_some; [exact Hok1|]|].
      + by rewrite lookup_fmap, T0_lookup.
      + by intros r hc' [-> ?].
    - eapply runs_mono; [eapply hc_GetHeader_none; [exact Hok1| |done|]|].
      + by rewrite lookup_fmap, E.
      + unfold u64_ok. cbn. unfold missingNumber. lia.
      + by intros r hc' [-> ?]. }
  eapply runs_mono; [apply (runs_and _ _ _ (fun hc' => chainDb hc' = db) Hr); by rewrite GetHeader_db|].
  intros r hc' [[E Hok'] Hdb']. split; [done|]. split; [|done].
  assert (fill (set_hc hc' (set_hc hc1 bc)) = set_hc hc' (fill (set_hc hc1 bc))) as Ef.
  { pose proof (fill_lift _ (fun _ => (Done tt, hc') : outcome chainErr unit * HeaderChain) (set_hc hc1 bc)) as Hl. unfold lift in Hl. by injection Hl. }
  change (set_hc hc' bc) with (set_hc hc' (set_hc hc1 bc)). rewrite Ef. eapply bc_at_hc; [exact H1|done|].
  unfold bc_db in *. rewrite fill_hc. by rewrite Hdb'.
Qed.

(** The header is written again. *)
Lemma loading_SetCurrentHeader bc : loading bc -> runs (lift (SetCurrentHeader (header g))) bc (fun _ bc' => loading bc').
Proof.
  intros [H Hdb]. pose proof (set_header_at g U HU _ _ _ _ _ (fill bc) g H T0_lookup) as Hr. apply (runs_passes _ _ bc) in Hr; [|apply fill_lift].
  eapply runs_mono; [apply (runs_and _ _ _ (fun bc' => bc_db bc' = db) Hr)|by intros [] bc' [? ?]].
  change (<[headHeaderKey := gh]> (bc_db bc) = db). rewrite Hdb. by apply insert_id.
Qed.
End filled.

Definition with_state (st : St) bc : BlockChain (St:=St) := set_stateCache (Some st) bc.
Lemma GetBlock_passes_state st k n : passes (with_state st) (bc_GetBlock k n).
Proof. intros bc. unfold bc_GetBlock, with_state. cbn. destruct (lru_Get _ _) as [[x|] c]; [done|]. unfold bc_db. cbn. by destruct (GetBlock _ _ _). Qed.
Lemma lift_passes_state {A} st (m : SM HeaderChain chainErr A) : passes (with_state st) (lift m).
Proof. intros bc. unfold lift, with_state. cbn. by destruct (m (bc_hc bc)) as [[] hc]. Qed.

Lemma stored_hash k : is_hash (hash_of (db_get db k)).
Proof.
  unfold hash_of. destruct (_ =? _); [done|]. apply is_hash_array, Common.is_array_BytesToHash.
  apply (proj1 (at_entries _ _ _ _ _ _ _ _ H0 : entries_ok db) k).
Qed.

Lemma loadLastState_at reset bc st : loading (with_block st0) bc -> ex_New db (Root (header g)) = inr st ->
  runs (loadLastState reset) bc (fun _ bc' => at0 f0 gh bc').
Proof.
  intros H Hst. destruct gh_hash as [Hh Hz]. unfold loadLastState. apply runs_bind, runs_gets. rewrite (proj2 H).
  rewrite (at_head _ _ _ _ _ _ _ _ H0 : GetHeadBlockHash db = gh), bool_decide_eq_false_2 by done. apply runs_bind.
  eapply runs_mono; [apply (loading_GetBlockByHash (with_block st0)); [intros; apply lift_passes|intros; apply GetBlock_passes|done|done]|].
  intros r bc1 [-> H1]. rewrite T0_lookup. apply runs_bind, runs_gets. rewrite (proj2 H1). cbn [header bare]. rewrite Hst. cbn [negb].
  apply runs_bind, runs_modify, runs_bind, runs_gets.
  set (bc2 := set_currentBlock (Some (bare g)) bc1). assert (loading (with_state st0) bc2) as H2 by exact H1. clearbody bc2. clear bc1 H1.
  rewrite (proj2 H2). apply runs_bind.
  eapply (runs_mono _ _ (fun r bc' => default (header g) r = header g /\ loading (with_state st0) bc')).
  { destruct (bool_decide _); [by apply runs_ret|]. apply loading_header; [intros; apply lift_passes_state|done|done|apply stored_hash]. }
  intros r bc3 [-> H3]. apply runs_bind. eapply runs_mono; [apply (loading_SetCurrentHeader (with_state st0)); [intros; apply lift_passes_state|done]|].
  intros [] bc4 H4. apply runs_bind, runs_modify, runs_bind, runs_gets.
  set (bc5 := set_currentFastBlock (Some (bare g)) bc4).
  assert (loading (with_state st0) bc5) as H5
    by (split; [exact (bc_at_fast g U _ _ _ _ _ _ (Some (bare g)) (proj1 H4))|exact (proj2 H4)]). clearbody bc5. clear bc4 H4. rewrite (proj2 H5).
  apply runs_bind. eapply (runs_mono _ _ (fun r bc' => default (bare g) r = bare g /\ loading (with_state st0) bc')).
  { destruct (bool_decide _); [by apply runs_ret|].
    eapply runs_mono; [apply (loading_GetBlockByHash (with_state st0)); [intros; apply lift_passes_state|intros; apply GetBlock_passes_state|done|apply stored_hash]|].
    intros r6 bc6 [-> H6]. split; [|done]. destruct (T0 !! _) as [b|] eqn:E; [|done]. by apply lookup_singleton_Some in E as [_ <-]. }
  intros r6 bc6 [-> H6]. apply runs_bind, runs_modify, runs_bind, runs_gets.
  change (bc_db (set_currentFastBlock (Some (bare g)) bc6)) with (bc_db bc6). rewrite (proj2 H6), Hst. apply runs_bind, runs_modify.
  set (bc7 := set_stateCache (Some st) (set_currentFastBlock (Some (bare g)) bc6)).
  assert (at0 f0 gh bc7) as H7.
  { pose proof (bc_at_fast g U _ _ _ _ _ _ (Some (bare g)) (proj1 H6)) as H7. destruct H7. split; try done. exists st. split; [done|]. by eapply ex_New_ok. }
  clearbody bc7. destruct genesis_facts as (_ & Hn & En & _).
  assert (forall bc, at0 f0 gh bc -> runs (lift (hc_GetTd gh 0)) bc (fun _ => at0 f0 gh)) as Htd.
  { intros bc' H'. rewrite <- Hn at 1. eapply runs_mono; [apply (GetTd_at g U _ _ _ _ _ _ gh (bare g) (Difficulty (header g)) H' T0_lookup); constructor|].
    by intros ? bc'' [_ ?]. }
  change (Hash_ (header g)) with gh. change (Block_Hash (bare g)) with gh. change (NumberU64 (bare g)) with (NumberU64 g).
  change (Big.Uint64 (Number (header g))) with (NumberU64 g). rewrite En.
  apply runs_bind. eapply runs_mono; [by apply Htd|]. intros ? bc8 H8. apply runs_bind. eapply runs_mono; [by apply Htd|]. intros ? bc9 H9.
  apply runs_bind. eapply runs_mono; [by apply Htd|]. intros ? bc10 H10. by apply runs_ret.
Qed.

Lemma NewBlockChain_at st : ex_New db (Root (header g)) = inr st -> exists bc, NewBlockChain db = Done bc /\ at0 f0 gh bc.
Proof.
  intros Hst. destruct NewHeaderChain_at as (hc & Ehc & Hok & Hdb). destruct gh_hash as [Hh Hz]. unfold NewBlockChain. rewrite Ehc.
  set (bc := {| bc_hc := hc |}). set (load := _ ≫= _).
  assert (loading (with_block st0) bc) as H.
  { split; [|done]. by apply (bc_at_hc g U _ _ _ _ _ _ _ (boot db st0) hc H0). }
  assert (runs load bc (fun _ bc' => at0 f0 gh bc')) as ([] & bc' & E & H'); [|rewrite E; by exists bc'].
  unfold load, GetBlockByNumber. apply runs_bind, runs_bind, runs_gets. rewrite (proj2 H).
  rewrite (ok_canon _ _ _ _ _ (at_hc _ _ _ _ _ _ _ _ H0) 0 ltac:(unfold u64_ok; lia) : GetCanonicalHash db 0 = gh).
  rewrite bool_decide_eq_false_2 by done.
  eapply runs_mono; [apply (loading_GetBlock (with_block st0)); [intros; apply GetBlock_passes|done|done|unfold u64_ok; lia|done]|].
  intros r bc1 [-> H1]. rewrite T0_lookup. apply runs_bind, runs_modify. apply (loadLastState_at _ _ st); [|done].
  split; [|apply H1]. destruct H1 as [H1 _]. exact (bc_at_heads g U _ _ _ _ _ _ (Some (bare g)) (bare g) (currentFastBlock bc1) H1).
Qed.
End opened.
End start.
