(* ===== verification/BlockChainTheorems.v ===== *)
(** The chain of blocks from its genesis block on: [core/genesis.go], [core/blockchain.go]
    and [core/block_validator.go] together, with a small chain to compute with. *)
From S2P Require Import Prelude GoBig CommonMath CommonTypes Rlp RlpDecode RlpDecodeOk RlpDecodeTheorems VmTypes StateDB StateCommit.
From S2P Require Import StateDBLaws BlockState Concrete StateTransition TxTypes BlockTypes DeriveSha Consensus ChainDb ChainDbOk.
From S2P Require Import ChainTables Genesis HeaderChain HeaderChainOk HeaderChainTheorems BlockChain.
From S2P Require Import BlockChainOk BlockChainReorg BlockChainInsert BlockChainStart.
Import Types.

(** A small chain to compute with: an execution whose state is a hash of what the blocks
    carried, a genesis block and two branches. *)

(** ** Execution *)

(** The state is its root, and is there if its root is a key; a block adds its extra data. *)
Definition is_root (r : bytes) : bool := (zlen r =? 32) && bool_decide (Forall is_byte r).

#[export] Instance sample_execution : Execution Hash := {
  ex_New db root := if is_root root && (0 <? zlen (db_get db root)) then inr root else inl 1;
  ex_Reset db root _ := if is_root root && (0 <? zlen (db_get db root)) then inr root else inl 1;
  ex_Process _ b st := (Done ([], [], 0), Keccak256 (st ++ Extra (header b)));
  ex_IntermediateRoot _ st := Some (st, st);
  ex_Commit db st := (Done st, (st, <[st := st]> db));
  ex_Preimages _ := [];
}.

Lemma is_root_ok r : is_root r = true <-> Common.is_array 32 r.
Proof. unfold is_root, Common.is_array, is_bytes. rewrite andb_true_iff, bool_decide_eq_true, Z.eqb_eq. done. Qed.

#[export] Instance sample_execution_ok : ExecutionOk Hash.
Proof.
  refine {| ex_inv st := Common.is_array 32 st |}.
  - intros db root st E. cbn in E. destruct (is_root root) eqn:Er; [|done]. apply is_root_ok in Er. destruct (_ <? _); [|done]. cbn in E. congruence.
  - intros db root st st' _ E. cbn in E. destruct (is_root root) eqn:Er; [|done]. apply is_root_ok in Er. destruct (_ <? _); [|done]. cbn in E. congruence.
  - intros db b st Hst. cbn [ex_Process sample_execution]. split; [apply Keccak256_size|].
    split_and!; [constructor|repeat constructor|done|constructor|done].
  - intros db st Hst. by exists st, st.
  - intros db st [Hl Hb]. cbn [ex_Commit sample_execution]. split_and!; [done..|]. exists [(st, st)]. split; [done|].
    constructor; [|done]. split; [by left|]. split; [done|]. cbn. lia.
  - intros st _. constructor.
Defined.

(** ** The genesis block *)

#[export] Instance sample_order : MapOrder := fun X => elements X.
#[export] Instance sample_genesis_state : GenesisState db := {
  gs_New := blank;
  gs_CommitTo s db := match IntermediateRoot s with
                      | Some (h, _) => (Done h, <[h := h]> db)
                      | None => (Panic, db)
                      end;
}.
Definition sample_spec : Genesis := {|
  gen_Config := Some Config.TestnetChainConfig; gen_Nonce := 66; gen_Timestamp := 0; gen_ParentHash := Common.zeroHash;
  gen_ExtraData := []; gen_GasLimit := 5000; gen_Difficulty := Some 10; gen_Mixhash := Common.zeroHash;
  gen_Coinbase := Common.zeroAddress;
  gen_Alloc := [(alice, {| ga_Code := []; ga_Storage := []; ga_Balance := supply; ga_Nonce := 0 |});
                (bob, {| ga_Code := bob_code; ga_Storage := [(Common.zeroHash, Common.BigToHash 7)]; ga_Balance := 0; ga_Nonce := 1 |})] |}.

Definition sample_block : option Block := Eval vm_compute in (fst <$> ToBlock sample_spec).
Definition g0 : Block := default (NewBlockWithHeader sample_genesis) sample_block.

(** ** Blocks on top of it *)

Definition child (p : Block) (difficulty : Z) (extra : bytes) : option Block :=
  b ← NewBlock {| ParentHash := Block_Hash p; UncleHash := Common.zeroHash; Coinbase := Common.zeroAddress;
                  Root := Keccak256 (Root (header p) ++ extra); TxHash := Common.zeroHash; ReceiptHash := Common.zeroHash;
                  Bloom := zeros 256; Difficulty := difficulty; Number := Number (header p) + 1; GasLimit := 5000; GasUsed := 0;
                  Time := Time (header p) + 10; Extra := extra; MixDigest := Common.zeroHash; Nonce := zeros 8 |} [] [] [];
  Some b.
Definition a1 : Block := Eval vm_compute in default g0 (child g0 5 [1]).
Definition a2 : Block := Eval vm_compute in default g0 (child a1 7 [2]).
Definition a3 : Block := Eval vm_compute in default g0 (child a2 7 [3]).
Definition b2 : Block := Eval vm_compute in default g0 (child a1 6 [4]).
Definition b3 : Block := Eval vm_compute in default g0 (child b2 9 [5]).
Definition c2 : Block := Eval vm_compute in default g0 (child a1 20 [6]).
Definition sample_blocks : list Block := [g0; a1; a2; a3; b2; b3; c2].

(** A decision procedure for universes of blocks without transactions and uncles. *)
Definition block_fineb (b : Block) : bool :=
  header_okb (header b) && (Number (header b) <? 2 ^ 48) && (Difficulty (header b) <? 2 ^ 256) &&
  negb (bool_decide (Block_Hash b = Common.zeroHash)) && (Z.of_nat (length (transactions b)) =? 0) && (Z.of_nat (length (uncles b)) =? 0).

Lemma block_fineb_ok b : block_fineb b = true -> block_fine b /\ transactions b = [] /\ uncles b = [].
Proof.
  unfold block_fineb. rewrite !andb_true_iff. intros [[[[[Hh Hn] Hd] Hz] Ht] Hu].
  apply Z.eqb_eq in Ht, Hu. assert (transactions b = []) as Et by (by destruct (transactions b)).
  assert (uncles b = []) as Eu by (by destruct (uncles b)).
  apply negb_true_iff, bool_decide_eq_false in Hz. apply Z.ltb_lt in Hn, Hd. split; [|done].
  split; [by apply header_okb_ok|done|done|done| |by rewrite Et|by rewrite Et].
  unfold Block_Body. rewrite Et, Eu. split_and!; [constructor|constructor|done].
Qed.

Definition block_universeb (g : Block) (U : list Block) : bool :=
  let P := map (fun x => (header x, Block_Hash x)) U in
  forallb block_fineb U &&
  forallb (fun '(x, hx) => forallb (fun '(y, hy) => implb_dec (hx = hy) (x = y) &&
                                      implb_dec (ParentHash x = hy) (Number x = Number y + 1)) P) P && (Number (header g) =? 0).

Lemma block_universeb_ok g U : block_universeb g U = true -> g ∈ U -> block_universe g U.
Proof.
  unfold block_universeb. rewrite !andb_true_iff. intros [[HF HP] Hn] Hg. apply Z.eqb_eq in Hn.
  assert (forall x, x ∈ U -> block_fine x /\ transactions x = [] /\ uncles x = []) as Hf
    by (intros x Hx; apply block_fineb_ok; by apply (forallb_in _ _ _ HF)).
  assert (forall x, x ∈ U -> (header x, Block_Hash x) ∈ map (fun x => (header x, Block_Hash x)) U) as HM
    by (intros x Hx; apply list_elem_of_fmap; by exists x).
  assert (forall x y, x ∈ U -> y ∈ U -> (Block_Hash x = Block_Hash y -> header x = header y) /\
    (ParentHash (header x) = Block_Hash y -> Number (header x) = Number (header y) + 1)) as Hxy.
  { intros x y Hx Hy. pose proof (forallb_in _ _ _ (forallb_in _ _ _ HP (HM _ Hx)) (HM _ Hy)) as E. cbn beta iota in E.
    apply andb_prop in E as [E1 E2]. split; by eapply implb_dec_ok. }
  split.
  - intros x Hx. by apply Hf.
  - intros x y Hx Hy E. destruct (Hf x Hx) as (_ & Et & Eu). destruct (Hf y Hy) as (_ & Et' & Eu').
    unfold bare. rewrite Et, Et', Eu, Eu'. f_equal. by apply (Hxy x y).
  - intros x y Hx Hy. by apply Hxy.
  - intros x y tx Hx _ Htx. destruct (Hf x Hx) as (_ & Et & _). rewrite Et in Htx. by apply not_elem_of_nil in Htx.
  - done.
Qed.

Lemma sample_block_universe : block_universe g0 sample_blocks.
Proof. apply block_universeb_ok; [vm_compute; reflexivity|by left]. Qed.

(** ** The stored configuration *)

Lemma decimal_fine fuel : forall x acc, 0 <= x -> is_bytes acc -> is_bytes (decimal fuel x acc) /\ zlen (decimal fuel x acc) <= zlen acc + Z.of_nat fuel.
Proof.
  induction fuel as [|fuel IH]; intros x acc Hx Ha; cbn [decimal]; [split; [done|lia]|].
  pose proof (Z.mod_pos_bound x 10 ltac:(lia)). assert (is_bytes ((48 + x mod 10) :: acc)) as Hc.
  { apply is_bytes_cons. split; [unfold is_byte; lia|done]. }
  destruct (_ =? _); [split; [done|rewrite zlen_cons; lia]|]. destruct (IH (x / 10) _ ltac:(apply Z.div_pos; lia) Hc) as [? Hl].
  split; [done|]. rewrite zlen_cons in Hl. lia.
Qed.

Lemma Marshal_fine c : match Config.ChainId c with Some x => Z.abs x < 2 ^ 256 | None => True end -> value_fine (Marshal c).
Proof.
  intros Hx. assert (is_bytes (big_json (Config.ChainId c)) /\ zlen (big_json (Config.ChainId c)) <= 258) as [Hb Hl].
  { destruct (Config.ChainId c) as [x|]; [|by split; [apply (bool_decide_unpack _)|]]. unfold big_json.
    destruct (decimal_fine (S (Z.to_nat (Z.log2 (Z.abs x)))) (Z.abs x) [] ltac:(lia)) as [Hb Hl]; [constructor|].
    assert (Z.log2 (Z.abs x) < 256) as Hlog.
    { destruct (decide (x = 0)) as [->|]; [done|]. apply Z.log2_lt_pow2; lia. }
    pose proof (Z.log2_nonneg (Z.abs x)). change (zlen (@nil Z)) with 0 in Hl.
    destruct (x <? 0); split.
    - apply is_bytes_app. split; [by apply (bool_decide_unpack _)|done].
    - rewrite zlen_app. change (zlen [45]) with 1. lia.
    - done.
    - cbn [app]. lia. }
  unfold Marshal, value_fine. split.
  - repeat (apply is_bytes_app; split); try done; try (by apply (bool_decide_unpack _)). by destruct (Config.Tilthash c); apply (bool_decide_unpack _).
  - rewrite !zlen_app. change (zlen json_chainId) with 11. change (zlen [125]) with 1. destruct (Config.Tilthash c); [change (zlen json_tilthash) with 14|change (zlen (@nil Z)) with 0]; lia.
Qed.

Section theorems.
Context {S : Type} {SD : StateDB S} {CR : Crypto} {CK : CryptoOk} {BS : BlockState S} {GS : GenesisState S}.
Context {LR : Lru} {LK : LruOk} {St : Type} {EX : Execution St} {EK : ExecutionOk St}.
Implicit Types (T : gmap Hash Block) (b cur : Block) (bc : BlockChain (St:=St)).

(** ** From the genesis block on *)

Definition start_chain (G : Genesis) : outcome bcErr (BlockChain (St:=St)) :=
  match Commit G ∅ with
  | (Done _, db) => NewBlockChain db
  | _ => Panic
  end.

(** The block of [G] is [g]; its state is written under hashes, and can be opened. *)
Record genesis_ready (G : Genesis) (g : Block) : Prop := {
  gr_difficulty : is_Some (gen_Difficulty G);
  gr_chainId c x : gen_Config G = Some c -> Config.ChainId c = Some x -> Z.abs x < 2 ^ 256;
  gr_commit : exists s root puts, ToBlock G = Some (g, s) /\ gs_CommitTo s ∅ = (Done root, batch_Write puts ∅) /\
    Forall (fun p => (zlen p.1 = 32 \/ head p.1 = Some 115) /\ value_fine p.2) puts;
  gr_open db : Commit G ∅ = (Done g, db) -> exists st : St, ex_New db (Root (header g)) = inr st;
}.

Lemma ToBlock_difficulty G g s : ToBlock G = Some (g, s) -> Difficulty (header g) = default Params.Params.GenesisDifficulty (gen_Difficulty G).
Proof.
  unfold ToBlock, NewBlock. intros E. destruct (bs_IntermediateRoot _) as [[root s']|]; [|discriminate E].
  destruct (DeriveSha []) as [r|]; [|discriminate E]. cbn in E. by injection E as <- <-.
Qed.

Lemma empty_entries : entries_ok ∅.
Proof. split; intros; unfold db_get; rewrite lookup_empty; [apply value_fine_nil|done]. Qed.

Lemma Commit_at G g U : block_universe g U -> genesis_ready G g ->
  exists db, Commit G ∅ = (Done g, db) /\
    (forall st, ex_inv st -> bc_at g U {[Block_Hash g := bare g]} (header g) (fun m => if decide (m = 0) then Block_Hash g else Common.zeroHash)
      (bare g) (Block_Hash g) (boot g db st)) /\ db !! headHeaderKey = Some (Block_Hash g) /\
    db !! (configPrefix ++ Block_Hash g) = Some (Marshal (default Config.AllProtocolChanges (gen_Config G))).
Proof.
  intros HU [[d Hd] Hid (s & root & puts & HB & HC & Hputs) _].
  destruct (genesis_facts g U HU) as (Hf & Hn & En & _). pose proof (ToBlock_difficulty G g s HB) as Hdiff. rewrite Hd in Hdiff. cbn in Hdiff.
  set (cfg := default Config.AllProtocolChanges (gen_Config G)).
  assert (value_fine (Marshal cfg)) as Hcfg.
  { apply Marshal_fine. unfold cfg. destruct (gen_Config G) as [c|]; [|done]. cbn. destruct (Config.ChainId c) as [x|] eqn:Ex; [|done]. by eapply Hid. }
  pose proof (state_puts_fine (hs U) (hs_hash U) puts ∅ empty_entries Hputs) as F0.
  destruct (committed g U HU (batch_Write puts ∅) cfg F0 Hcfg) as (db1 & db2 & db3 & W1 & W2 & W3 & H & Hh).
  eexists. split; [|split_and!; [exact H|exact Hh|apply lookup_insert_eq]]. unfold Commit.
  rewrite (bind_done _ _ ∅ (g, s) ∅) by (by rewrite HB). cbv beta iota zeta. rewrite En, Hd. cbn [default from_option id]. rewrite <- Hdiff.
  rewrite (bind_done _ _ ∅ tt (batch_Write puts ∅)) by (unfold gen_CommitTo; by rewrite HC).
  rewrite (bind_done _ _ _ tt db1) by (unfold gen_write; by rewrite W1).
  rewrite (bind_done _ _ _ tt db2) by (unfold gen_write; by rewrite W2).
  rewrite (bind_done _ _ _ tt db3) by (unfold gen_write; by rewrite W3). done.
Qed.

Lemma start_chain_ok G g U : block_universe g U -> genesis_ready G g ->
  exists bc, start_chain G = Done bc /\ bc_ok g U {[Block_Hash g := bare g]} (bare g) bc.
Proof.
  intros HU HG. destruct (Commit_at G g U HU HG) as (db & HC & H & Hh & _). destruct (gr_open _ _ HG db HC) as [st Hst].
  pose proof (ex_New_ok _ _ _ Hst) as Hi. destruct (NewBlockChain_at g U HU db st (H st Hi) Hh st Hst) as (bc & E & Hbc).
  exists bc. unfold start_chain. rewrite HC. split; [done|]. destruct (genesis_facts g U HU) as (_ & Hn & _ & Hb).
  pose proof (genesis_tree g U HU) as Ht. eexists _, _. split_and!; [exact Hbc| |..].
  - split; [by apply blk_bare|]. rewrite bare_bare. apply lookup_singleton_eq.
  - intros m Hm. cbn [header bare] in *. rewrite Hn in Hm. assert (m = 0) as -> by lia. rewrite decide_True by done.
    rewrite <- Hn. symmetry. apply canon_top. lia.
  - intros x t t' Hx H1 H2. cbn [header bare] in H2. rewrite map_fmap_singleton in Hx. apply lookup_singleton_Some in Hx as [_ <-].
    rewrite (total_fun _ _ _ _ _ Ht H1 H2). done.
Qed.

(** ** What a reader of the chain sees *)

Record chain_reads (g : Block) T cur bc : Prop := {
  cr_current : currentBlock bc = Some cur;
  cr_head : GetHeadBlockHash (bc_db bc) = Block_Hash cur;
  cr_stored : T !! Block_Hash cur = Some (bare cur);
  cr_blocks k : is_hash k -> (GetBlockByHash k bc).1 = Done (T !! k);
  cr_td k b t : T !! k = Some b -> total (header <$> T) (header g) (header b) t -> GetTd (bc_db bc) k (Number (header b)) = Some t;
  cr_canon m : 0 <= m <= Number (header cur) -> GetCanonicalHash (bc_db bc) m = canon_of (header <$> T) (header cur) m;
  cr_heaviest k b t t' : T !! k = Some b -> total (header <$> T) (header g) (header b) t ->
    total (header <$> T) (header g) (header cur) t' -> t <= t';
}.

Lemma chain_ok_reads g U T cur bc : block_universe g U -> bc_ok g U T cur bc -> chain_reads g T cur bc.
Proof.
  intros HU (hx & f & H & Hcur & Hcan & Hmax). destruct (stored_number g U HU T cur Hcur) as [Hn _].
  pose proof (at_hc _ _ _ _ _ _ _ _ H) as Hok. split.
  - apply (at_current _ _ _ _ _ _ _ _ H).
  - apply (at_head _ _ _ _ _ _ _ _ H).
  - apply Hcur.
  - intros k Hk. destruct (GetBlockByHash_at g U HU _ _ _ _ _ _ k H Hk) as (r & bc' & -> & -> & _). done.
  - intros k b t Hk Ht. destruct (at_fine g U HU _ _ _ _ _ _ H k b Hk) as [Hf _]. destruct (fine_number b Hf) as [Hnb _].
    apply (ok_td _ _ _ _ _ Hok); [by eapply at_is_hash|unfold u64_ok; lia|]. exists (header b). split_and!; [by apply at_header|done|done].
  - intros m Hm. rewrite <- (Hcan m Hm). apply (ok_canon _ _ _ _ _ Hok). unfold u64_ok. lia.
  - intros k b t t' Hk Ht Ht'. eapply Hmax; [|done|done]. change (Hash_ (header b)) with (Block_Hash b).
    rewrite <- (at_hash _ _ _ _ _ _ _ _ H k b Hk). by apply at_header.
Qed.

(** ** Insertions *)

(** Calls of [InsertChain], each with the clock, the coins of its ties, the interrupts and
    what the verification of the headers says. *)
Record call := {
  c_now : Z;
  c_coin : Block -> bool;
  c_interrupted : Z -> bool;
  c_chain : list Block;
  c_results : list (option Consensus.error);
}.
Definition call_ok (U : list Block) (c : call) : Prop :=
  (forall b, b ∈ c_chain c -> b ∈ U) /\ (length (c_chain c) <= length (c_results c))%nat.

Variable VerifyUncles : Db -> Block -> option Consensus.error.

Fixpoint insert_chains (cs : list call) : SM (BlockChain (St:=St)) bcErr unit :=
  match cs with
  | [] => mret tt
  | c :: cs =>
      _ ← InsertChain VerifyUncles (c_now c) (c_coin c) (c_interrupted c) (c_chain c) (c_results c);
      insert_chains cs
  end.

Lemma insert_chains_ok g U : block_universe g U -> forall cs T cur bc, bc_ok g U T cur bc -> Forall (call_ok U) cs ->
  runs (insert_chains cs) bc (fun _ bc' => exists bs T' cur',
    sublist bs (concat (map c_chain cs)) /\ grows g VerifyUncles T cur bs T' cur' /\ bc_ok g U T' cur' bc').
Proof.
  intros HU. induction cs as [|c cs IH]; intros T cur bc H Hcs; cbn [insert_chains map concat].
  { apply runs_ret. exists [], T, cur. split_and!; [done|constructor|done]. }
  apply Forall_cons in Hcs as [[Hin Hl] Hcs]. apply runs_bind. eapply runs_mono.
  { apply (InsertChain_ok g U HU VerifyUncles); [exact H| |exact Hl]. apply Forall_forall. intros b Hb. by apply (blk_in g U HU), Hin. }
  intros r bc1 (bs & T1 & cur1 & Hs & Hg & H1). eapply runs_mono; [by apply IH|].
  intros [] bc2 (bs' & T2 & cur2 & Hs' & Hg' & H2). exists (bs ++ bs'), T2, cur2.
  split_and!; [by apply sublist_app|by eapply grows_app|done].
Qed.


(** C6: a block on top of a stored block, valid there, is accepted: inserted alone it is
    stored without an error, and heavier than the head it becomes the head. *)
Theorem valid_block_inserted g U T cur bc b p t tc now coin : block_universe g U -> bc_ok g U T cur bc -> b ∈ U ->
  T !! ParentHash (header b) = Some p -> valid_on VerifyUncles (bc_db bc) p b ->
  total (header <$> T) (header g) (header p) t -> total (header <$> T) (header g) (header cur) tc ->
  exists bc' cur', InsertChain VerifyUncles now coin (fun _ => false) [b] [None] bc = (Done (0, None), bc') /\
    chain_reads g (<[Block_Hash b := bare b]> T) cur' bc' /\ (tc < Difficulty (header b) + t -> Block_Hash cur' = Block_Hash b).
Proof.
  intros HU H Hb Hp HV Ht Htc.
  destruct (InsertChain_valid g U HU VerifyUncles T cur bc now coin b p t tc H (blk_in g U HU b Hb) Hp HV Ht Htc)
    as (r & bc' & E & -> & T' & cur' & H' & -> & Hw).
  exists bc', cur'. split_and!; [done|by eapply chain_ok_reads|done].
Qed.
(** ** Setting up the genesis block *)

(** C8: [SetupGenesisBlock] on an empty database commits the given block.  Called again with the
    same specification it returns the same configuration and hash and leaves the database as
    it is; without a specification it returns the stored configuration of a custom chain; and
    with another block it reports the mismatch and writes nothing. *)
Theorem SetupGenesisBlock_stable {J : Json} (D G : Genesis) g U c : block_universe g U -> genesis_ready G g ->
  gen_Config G = Some c -> Unmarshal (Marshal c) = Some c ->
  exists db, SetupGenesisBlock D (Some G) ∅ = (Done (Some c, Block_Hash g, None), db) /\
    SetupGenesisBlock D (Some G) db = (Done (Some c, Block_Hash g, None), db) /\
    (Block_Hash g <> MainNetGenesisHash -> SetupGenesisBlock D None db = (Done (Some c, Block_Hash g, None), db)) /\
    (forall G' g' s' c', gen_Config G' = Some c' -> ToBlock G' = Some (g', s') -> Block_Hash g' <> Block_Hash g ->
      SetupGenesisBlock D (Some G') db = (Done (Some c', Block_Hash g', Some (GenesisMismatchError (Block_Hash g) (Block_Hash g'))), db)).
Proof.
  intros HU HG Hc HJ. destruct (Commit_at G g U HU HG) as (db & HC & H & Hh & Hcfg). destruct (gr_open _ _ HG db HC) as [st Hst].
  pose proof (H st (ex_New_ok _ _ _ Hst)) as Hat. destruct (gr_commit _ _ HG) as (s & root & puts & HB & _).
  destruct (genesis_facts g U HU) as (Hf & Hn & _). pose proof (bf_hash _ Hf) as Hz. rewrite Hc in Hcfg. cbn [default from_option id] in Hcfg.
  assert (GetCanonicalHash db 0 = Block_Hash g) as Hcan.
  { exact (ok_canon _ _ _ _ _ (at_hc _ _ _ _ _ _ _ _ Hat) 0 ltac:(unfold u64_ok; lia)). }
  assert (GetChainConfig db (Block_Hash g) = inr c) as Hget.
  { unfold GetChainConfig, db_get. rewrite Hcfg. cbn [default from_option id]. by rewrite HJ. }
  assert (GetHeadHeaderHash db = Block_Hash g) as Hhead.
  { unfold GetHeadHeaderHash, db_get. rewrite Hh. cbn [default from_option id]. apply hash_of_array, Hash_array. }
  assert (GetBlockNumber db (Block_Hash g) = Some 0) as Hnum.
  { rewrite <- Hn. apply (ok_number _ _ _ _ _ (at_hc _ _ _ _ _ _ _ _ Hat)). rewrite map_fmap_singleton. apply lookup_singleton_eq. }
  assert (forall G, gen_Config G = Some c -> update_config (Some G) (Block_Hash g) db = (Done (Some c, Block_Hash g, None), db)) as Hupd.
  { intros G' Hc'. unfold update_config. rewrite (bind_done _ _ db db db) by done. rewrite Hget.
    rewrite (bool_decide_eq_false_2 (Some G' = None)) by done. cbn [andb]. rewrite Hhead, Hnum, (bind_done _ _ db 0 db) by done.
    change (0 =? missingNumber) with false. cbn [configOrDefault]. rewrite Hc', Config.CheckCompatible_none. rewrite (bind_done _ _ db tt db); [done|]. unfold modify, WriteChainConfig. by rewrite insert_id. }
  exists db. unfold SetupGenesisBlock, no_config. rewrite Hc. split_and!.
  - rewrite (bind_done _ _ ∅ Common.zeroHash ∅) by done. rewrite bool_decide_eq_true_2 by done. cbn [default from_option id].
    unfold first_genesis. by rewrite HC, Hc.
  - rewrite (bind_done _ _ db (Block_Hash g) db) by (unfold gets; by rewrite Hcan). rewrite bool_decide_eq_false_2 by done.
    rewrite HB, (bind_done _ _ db (g, s) db) by done. rewrite bool_decide_eq_true_2 by done. cbn [negb]. by apply Hupd.
  - intros Hm. rewrite (bind_done _ _ db (Block_Hash g) db) by (unfold gets; by rewrite Hcan). rewrite bool_decide_eq_false_2 by done.
    unfold update_config. rewrite (bind_done _ _ db db db) by done. rewrite Hget, bool_decide_eq_true_2, bool_decide_eq_false_2 by done. done.
  - intros G' g' s' c' Hc' HB' Hne. rewrite Hc', (bind_done _ _ db (Block_Hash g) db) by (unfold gets; by rewrite Hcan).
    rewrite bool_decide_eq_false_2 by done. rewrite HB', (bind_done _ _ db (g', s') db) by done. cbv beta iota zeta.
    by rewrite bool_decide_eq_false_2.
Qed.
End theorems.

(** ** Instances *)

Definition no_uncles : Db -> Block -> option Consensus.error := fun _ b => match uncles b with [] => None | _ => Some Consensus.errDanglingUncle end.

Lemma sample_ready : genesis_ready (St:=Hash) sample_spec g0.
Proof.
  set (root := Root (header g0)).
  assert (zlen root = 32 /\ bool_decide (Forall is_byte root) = true) as [Hl Hr] by (vm_compute; done).
  assert ((fun '(b, s) => (b, gs_CommitTo s ∅)) <$> ToBlock sample_spec = Some (g0, (Done root, <[root := root]> ∅))) as HB by (vm_compute; reflexivity).
  destruct (ToBlock sample_spec) as [[b s]|] eqn:EB; [|done]. cbn in HB. injection HB as -> HC.
  split.
  - by exists 10.
  - intros c x [= <-] [= <-]. lia.
  - exists s, root, [(root, root)]. split_and!; [done|exact HC|]. constructor; [|done]. split; [by left|]. cbn [snd].
    apply bool_decide_eq_true in Hr. split; [done|lia].
  - intros db HC'. assert (db = (Commit sample_spec ∅).2) as -> by (by rewrite HC'). eexists. vm_compute. reflexivity.
Qed.

Definition sample_call (chain : list Block) : call :=
  {| c_now := 0; c_coin := fun _ => false; c_interrupted := fun _ => false; c_chain := chain; c_results := map (fun _ => None) chain |}.

(** Two branches, the second heavier; a block without its parent; a chain that is not linked. *)
Definition sample_calls : list call := map sample_call [[b3]; [a1; a2]; [a2; b2]; [b2; b3]].

Lemma sample_calls_ok : Forall (call_ok sample_blocks) sample_calls.
Proof.
  repeat apply Forall_cons_2; try apply Forall_nil_2; (split; [|cbn; lia]); intros b Hb; unfold sample_blocks; cbn [c_chain sample_call] in Hb; set_solver.
Qed.


Lemma sample_valid bc : start_chain sample_spec = Done bc -> valid_on no_uncles (bc_db bc) (bare g0) a1.
Proof.
  intros E.
  assert (forall st : Hash, (bc ← start_chain (St:=Hash) sample_spec;
    Done (ex_New (bc_db bc) (Root (header g0)), ex_Reset (bc_db bc) (Root (header g0)) st)) = Done (inr (Root (header g0)), inr (Root (header g0)))) as Hopen
    by (intros st; vm_compute; reflexivity).
  split.
  - specialize (Hopen Common.zeroHash). rewrite E in Hopen. injection Hopen as Hopen _. by eexists.
  - reflexivity.
  - vm_compute. reflexivity.
  - vm_compute. reflexivity.
  - intros st _. specialize (Hopen st). rewrite E in Hopen. injection Hopen as _ Hreset.
    exists (Root (header g0)), [], [], (Root (header a1)), (Root (header a1)). eexists _, _, _. split_and!; [exact Hreset|..|reflexivity]; vm_compute; reflexivity.
Qed.

Lemma valid_block_inserted_witness : exists bc bc' cur', start_chain sample_spec = Done bc /\
  InsertChain no_uncles 0 (fun _ => false) (fun _ => false) [a1] [None] bc = (Done (0, None), bc') /\
  chain_reads g0 (<[Block_Hash a1 := bare a1]> {[Block_Hash g0 := bare g0]}) cur' bc' /\ Block_Hash cur' = Block_Hash a1.
Proof.
  destruct (start_chain_ok sample_spec g0 sample_blocks sample_block_universe sample_ready) as (bc & E & H). exists bc.
  destruct (valid_block_inserted no_uncles g0 sample_blocks {[Block_Hash g0 := bare g0]} (bare g0) bc a1 (bare g0) 10 10 0 (fun _ => false)
    sample_block_universe H) as (bc' & cur' & E' & Hr & Hw).
  - apply list_elem_of_further, list_elem_of_here.
  - apply (lookup_singleton_Some (Block_Hash g0)). split; [vm_compute; reflexivity|done].
  - by apply sample_valid.
  - apply (total_genesis _ (header g0)).
  - apply (total_genesis _ (header g0)).
  - exists bc', cur'. split_and!; [done..|]. apply Hw. vm_compute. reflexivity.
Defined.

(** A decoder that knows one configuration. *)
#[export] Instance sample_json : Json := {
  Unmarshal b := if bool_decide (b = Marshal Config.TestnetChainConfig) then Some Config.TestnetChainConfig else None;
}.

Lemma SetupGenesisBlock_stable_witness : exists db,
  SetupGenesisBlock sample_spec (Some sample_spec) ∅ = (Done (Some Config.TestnetChainConfig, Block_Hash g0, None), db) /\
  SetupGenesisBlock sample_spec (Some sample_spec) db = (Done (Some Config.TestnetChainConfig, Block_Hash g0, None), db).
Proof.
  destruct (SetupGenesisBlock_stable sample_spec sample_spec g0 sample_blocks Config.TestnetChainConfig sample_block_universe sample_ready)
    as (db & H1 & H2 & _); [reflexivity|vm_compute; reflexivity|]. exact (ex_intro _ db (conj H1 H2)).
Defined.

(** ** Behaviour of reorganisations *)

Definition after {A} (chains : list (list Block)) (f : BlockChain (St:=Hash) -> A) : outcome bcErr A :=
  bc ← start_chain sample_spec;
  match insert_chains no_uncles (map sample_call chains) bc with
  | (Done _, bc) => Done (f bc)
  | _ => NoFuel
  end.


(** A specification without a difficulty: the header has the default, the stored total
    difficulty is zero. *)
Definition nil_difficulty : Genesis := {|
  gen_Config := None; gen_Nonce := 0; gen_Timestamp := 0; gen_ParentHash := Common.zeroHash; gen_ExtraData := []; gen_GasLimit := 0;
  gen_Difficulty := None; gen_Mixhash := Common.zeroHash; gen_Coinbase := Common.zeroAddress; gen_Alloc := [] |}.
Lemma nil_difficulty_td : match Commit nil_difficulty ∅ with
  | (Done b, db) => (Difficulty (header b), GetTd db (Block_Hash b) 0) = (262144, Some 0)
  | _ => False
  end.
Proof. vm_compute. reflexivity. Qed.
