(* ===== verification/TxSigning.v ===== *)
(** Theorems on the transaction signers: which signatures [Sender] accepts, that
    the caches do not show, and that a signed transaction has its signer as sender. *)
From S2P Require Import Prelude GoBig CommonMath CommonTypes Rlp VmTypes StateTransition TxTypes Concrete.
Import Tx.

(** ** The signature buffer *)

Lemma copy_at_l {A} (a b src : list A) off n : 0 <= off -> 0 <= n -> off + n <= zlen a ->
  copy_at (a ++ b) off n src = copy_at a off n src ++ b.
Proof.
  intros. unfold copy_at, ztake, zdrop, zlen in *.
  rewrite take_app_le, !drop_app_le by lia. rewrite take_app_le by (rewrite length_drop; lia).
  by rewrite !app_assoc.
Qed.

Lemma copy_at_r {A} (a b src : list A) off n : zlen a <= off -> 0 <= n ->
  copy_at (a ++ b) off n src = a ++ copy_at b (off - zlen a) n src.
Proof.
  intros. unfold copy_at, ztake, zdrop, zlen in *.
  rewrite take_app_ge, !drop_app_ge by lia. rewrite <- app_assoc.
  replace (Z.to_nat (off - Z.of_nat (length a))) with (Z.to_nat off - length a)%nat by lia.
  by replace (Z.to_nat (off - Z.of_nat (length a) + n)) with (Z.to_nat (off + n) - length a)%nat by lia.
Qed.

Lemma pad_word v : 0 <= v < 2 ^ 256 ->
  copy_at (zeros 32) (32 - zlen (Big.Bytes v)) (zlen (Big.Bytes v)) (Big.Bytes v) = Big.be_fixed 32 v.
Proof.
  intros Hv. pose proof (Common.pad_into_zeros 32 (Big.Bytes v) (Big.is_bytes_Bytes v)) as H.
  assert (zlen (Big.Bytes v) <= 32) by (apply Big.zlen_Bytes_le; [lia|change (256 ^ 32) with (2 ^ 256); lia]).
  rewrite Big.SetBytes_Bytes, Z.abs_eq in H by lia. cbv zeta in H.
  rewrite Z.gtb_ltb, (proj2 (Z.ltb_ge _ _)) in H by (change (Z.of_nat 32) with 32; lia). exact H.
Qed.

Definition signature (r s v : Z) : bytes := Big.be_fixed 32 r ++ Big.be_fixed 32 s ++ [v].

Section signing.
Context {CR : Crypto}.

Lemma recoverKey_spec h r s v : 0 <= r < 2 ^ 256 -> 0 <= s < 2 ^ 256 ->
  recoverKey h r s v =
  match Ecrecover h (signature r s v) with
  | None => Error errRecover
  | Some pub => if bool_decide (head pub = Some 4) then Done pub else Error errInvalidPublicKey
  end.
Proof.
  intros Hr Hs. unfold recoverKey.
  assert (zlen (Big.Bytes r) <= 32) by (apply Big.zlen_Bytes_le; [lia|change (256 ^ 32) with (2 ^ 256); lia]).
  assert (zlen (Big.Bytes s) <= 32) by (apply Big.zlen_Bytes_le; [lia|change (256 ^ 32) with (2 ^ 256); lia]).
  pose proof (zlen_nonneg (Big.Bytes r)). pose proof (zlen_nonneg (Big.Bytes s)).
  rewrite !(proj2 (Z.ltb_ge _ _)) by lia. cbn [orb].
  change (zeros 65) with (zeros 32 ++ zeros 32 ++ [0]).
  rewrite copy_at_l by (change (zlen (zeros 32)) with 32; lia). rewrite pad_word by done.
  assert (zlen (Big.be_fixed 32 r) = 32) as Hl by (unfold zlen; by rewrite Big.length_be_fixed).
  assert (zlen (Big.be_fixed 32 s) = 32) as Hl' by (unfold zlen; by rewrite Big.length_be_fixed).
  rewrite copy_at_r by lia. rewrite Hl. replace (64 - zlen (Big.Bytes s) - 32) with (32 - zlen (Big.Bytes s)) by lia.
  rewrite copy_at_l by (change (zlen (zeros 32)) with 32; lia). rewrite pad_word by done.
  unfold zset. rewrite !zlen_app, Hl, Hl'. change (zlen [0]) with 1. cbn [Z.leb Z.ltb Z.add Z.compare andb].
  change (Z.to_nat 64) with (32 + 32 + 0)%nat. rewrite <- Nat.add_assoc.
  rewrite <- (Big.length_be_fixed 32 r) at 1. rewrite insert_app_r.
  rewrite <- (Big.length_be_fixed 32 s) at 2. by rewrite insert_app_r.
Qed.

(** ** Acceptance *)

Definition key_address (pub : bytes) : Address :=
  gocopy Common.zeroAddress (zdrop 12 (Keccak256 (zdrop 1 pub))).

(** The values a valid signature has; only [HoldemSigner] allows the upper half. *)
Definition in_range (omaha : bool) (d : txdata) : Prop :=
  1 <= R d < secp256k1_N /\ 1 <= S d < secp256k1_N /\ (omaha = true -> S d <= secp256k1_halfN).

Lemma ValidateSignatureValues_spec v d omaha :
  ValidateSignatureValues v (R d) (S d) omaha = true <-> in_range omaha d /\ (v = 0 \/ v = 1).
Proof.
  unfold ValidateSignatureValues, in_range.
  destruct (Z.ltb_spec (R d) 1), (Z.ltb_spec (S d) 1); cbn [orb]; try (split; [done|lia]).
  destruct omaha; cbn [andb].
  - rewrite Z.gtb_ltb. destruct (Z.ltb_spec secp256k1_halfN (S d)).
    + split; [done|]. intros [(?&?&Hs) ?]. specialize (Hs eq_refl). lia.
    + rewrite !andb_true_iff, orb_true_iff, !Z.ltb_lt, !Z.eqb_eq. intuition lia.
  - rewrite !andb_true_iff, orb_true_iff, !Z.ltb_lt, !Z.eqb_eq. intuition (try lia; discriminate).
Qed.

(** The plain and the chain-specific check end in this. *)
Definition recovers (h : Hash) (d : txdata) (v : Z) (a : Address) : Prop :=
  exists pub, Ecrecover h (signature (R d) (S d) v) = Some pub /\ head pub = Some 4 /\ a = key_address pub.

Lemma checked_key omaha d h v pub :
  (if negb (ValidateSignatureValues v (R d) (S d) omaha) then Error ErrInvalidSig
   else recoverKey h (R d) (S d) v) = Done pub <->
  in_range omaha d /\ (v = 0 \/ v = 1) /\ Ecrecover h (signature (R d) (S d) v) = Some pub /\ head pub = Some 4.
Proof.
  destruct (ValidateSignatureValues v (R d) (S d) omaha) eqn:E; simpl.
  - apply ValidateSignatureValues_spec in E as [Hr Hv]. assert (secp256k1_N < 2 ^ 256) by done.
    rewrite recoverKey_spec by (unfold in_range in Hr; lia).
    destruct (Ecrecover _ _) as [p|]; [|naive_solver]. case_bool_decide; naive_solver.
  - split; [done|]. intros (Hr & Hv & _). apply not_true_iff_false in E. destruct E.
    by apply ValidateSignatureValues_spec.
Qed.

(** What [Sender] computes when nothing is cached. *)
Definition derived (s : Signer) (tx : Transaction) : outcome txerror Address :=
  match PublicKey s tx with
  | Done pub => Done (key_address pub) | Error e => Error e | Panic => Panic | NoFuel => NoFuel
  end.

Lemma u8_pred_27 V v : 0 <= V < 256 -> (v = 0 \/ v = 1) -> u8 (Big.Uint64 V - 27) = v <-> V = 27 + v.
Proof.
  intros HV Hv. rewrite Big.Uint64_small by lia. unfold u8. change (2 ^ 8) with 256.
  pose proof (Z.mod_pos_bound (V - 27) 256). pose proof (Z.div_mod (V - 27) 256). lia.
Qed.

Lemma plain_derived s omaha tx a : 0 <= V (data tx) ->
  (exists pub, plain_PublicKey s omaha tx = Done pub /\ a = key_address pub) <->
  in_range omaha (data tx) /\ exists v, (v = 0 \/ v = 1) /\ V (data tx) = 27 + v /\
    recovers (signer_Hash s tx) (data tx) v a.
Proof.
  intros HV. unfold plain_PublicKey. cbv zeta. rewrite Big.BitLen_gt by lia. change (2 ^ 8) with 256.
  rewrite Z.abs_eq by done. destruct (Z.leb_spec 256 (V (data tx))) as [Hge|Hlt].
  { split; [intros (? & [=] & _)|]. intros (_ & v & Hv & HV' & _). lia. }
  set (v0 := u8 (Big.Uint64 (V (data tx)) - 27)). unfold recovers. setoid_rewrite checked_key. split.
  - intros (pub & (Hr & Hv & He & Hh) & ->). split; [done|]. exists v0. split; [done|].
    split; [|eauto]. apply u8_pred_27; [lia|done|done].
  - intros (Hr & v & Hv & HV' & pub & He & Hh & ->). apply (u8_pred_27 _ v) in HV'; [|lia|done].
    unfold v0. rewrite HV'. eauto 10.
Qed.

Lemma isProtectedV_spec V : 0 <= V -> isProtectedV V = true <-> V <> 27 /\ V <> 28.
Proof.
  intros HV. unfold isProtectedV. destruct (Z.leb_spec (Big.BitLen V) 8) as [H|H].
  - apply Big.BitLen_le in H; [|lia]. rewrite Big.Uint64_small by lia.
    rewrite andb_true_iff, !negb_true_iff, !Z.eqb_neq. done.
  - split; [|done]. intros _. assert (~ Big.BitLen V <= 8) as Hn by lia. rewrite Big.BitLen_le in Hn by lia. lia.
Qed.

(** The recovery bit that the chain-specific signer reads off [V]. *)
Lemma chain_V c V v : 0 <= c -> 0 <= V -> V <> 27 -> V <> 28 -> (v = 0 \/ v = 1) ->
  deriveChainId V = c /\ u8 (Big.Uint64 (V - c * 2) - 35) = v <-> V = 35 + 2 * c + v.
Proof.
  intros Hc HV H27 H28 Hv. unfold deriveChainId, u8, Big.Div. change (2 ^ 8) with 256. cbn [Z.ltb Z.compare].
  assert (forall x p, (p = 0 \/ p = 1) -> Z.abs x = 35 + p -> (Big.Uint64 x - 35) mod 256 = p) as Hsmall.
  { intros x p Hp Hx. unfold Big.Uint64. rewrite Hx, (Z.mod_small (35 + p)) by lia.
    replace (35 + p - 35) with p by lia. apply Z.mod_small. lia. }
  destruct (Z.leb_spec (Big.BitLen V) 64) as [Hl|Hl].
  - apply Big.BitLen_le in Hl; [|lia]. rewrite (Big.Uint64_small V) by lia.
    rewrite !(proj2 (Z.eqb_neq _ _)) by done. cbn [orb].
    destruct (Z.lt_ge_cases V 35).
    + split; [|lia]. intros [E1 E2]. exfalso. unfold u64 in E1.
      assert ((V - 35) mod 2 ^ 64 = V - 35 + 2 ^ 64) as Hm.
      { rewrite <- (Z_mod_plus_full (V - 35) 1), Z.mod_small; lia. }
      rewrite Hm in E1. pose proof (Z.div_mod (V - 35 + 2 ^ 64) 2). pose proof (Z.mod_pos_bound (V - 35 + 2 ^ 64) 2).
      unfold Big.Uint64 in E2. rewrite Z.abs_neq in E2 by lia.
      rewrite (Z.mod_small (- (V - c * 2))) in E2 by lia.
      assert (- (V - c * 2) - 35 = (2 ^ 56 - 1) * 256 + (186 - (V - 35 + 2 ^ 64) mod 2)) as E3 by lia.
      rewrite E3, Z.add_comm, Z_mod_plus_full, Z.mod_small in E2 by lia. lia.
    + unfold u64. rewrite (Z.mod_small (V - 35)) by lia. pose proof (Z.div_mod (V - 35) 2).
      pose proof (Z.mod_pos_bound (V - 35) 2). split.
      * intros [E1 E2]. rewrite (Hsmall _ ((V - 35) mod 2)) in E2 by lia. lia.
      * intros E. split; [|apply Hsmall; lia]. symmetry. apply Z.div_unique with v; lia.
  - pose proof (Z.div_mod (V - 35) 2). pose proof (Z.mod_pos_bound (V - 35) 2). split.
    + intros [E1 E2]. rewrite (Hsmall _ ((V - 35) mod 2)) in E2 by lia. lia.
    + intros E. split; [|apply Hsmall; lia]. symmetry. apply Z.div_unique with v; lia.
Qed.

(** [v] is the recovery bit of [d] on the chain, or of an unprotected signature. *)
Definition recovery (c : Z) (tx : Transaction) (v : Z) (a : Address) : Prop :=
  (V (data tx) = 27 + v /\ recovers (signer_Hash OmahaSigner tx) (data tx) v a) \/
  (V (data tx) = 35 + 2 * c + v /\ recovers (signer_Hash (NewTiltSigner (Some c)) tx) (data tx) v a).

Lemma tilt_derived c tx a : 0 <= c -> 0 <= V (data tx) ->
  derived (NewTiltSigner (Some c)) tx = Done a <->
  in_range true (data tx) /\ exists v, (v = 0 \/ v = 1) /\ recovery c tx v a.
Proof.
  intros Hc HV. unfold derived, recovery. change (NewTiltSigner (Some c)) with (TiltSigner c (c * 2)).
  cbn [PublicKey].
  assert (forall m, match m with Done pub => Done (key_address pub) | Error e => Error e | Panic => Panic | NoFuel => NoFuel end
            = @Done txerror _ a <-> exists pub, m = Done pub /\ a = key_address pub) as Hm by (intros []; naive_solver).
  rewrite Hm. clear Hm. unfold Protected, ChainId. destruct (isProtectedV (V (data tx))) eqn:E; cbn [negb].
  - apply isProtectedV_spec in E as [H27 H28]; [|done].
    destruct (Z.eqb_spec (deriveChainId (V (data tx))) c) as [Ec|Ec]; cbn [negb].
    + cbv zeta. setoid_rewrite checked_key. unfold recovers. split.
      * intros (pub & (Hr & Hv & He & Hh) & ->). split; [done|]. eexists. split; [done|]. right. split; [|eauto].
        by apply chain_V.
      * intros (Hr & v & Hv & [[HV' _]|[HV' (pub & He & Hh & ->)]]); [lia|].
        apply chain_V in HV' as [_ Hu]; [|done..]. rewrite Hu. eauto 10.
    + split; [intros (? & [=] & _)|]. intros (Hr & v & Hv & [[HV' _]|[HV' _]]); [lia|].
      apply chain_V in HV' as [? _]; done.
  - rewrite plain_derived by done. split.
    + intros (Hr & v & Hv & HV' & Hrec). eauto 10.
    + intros (Hr & v & Hv & [[HV' Hrec]|[HV' Hrec]]); [eauto 10|].
      apply not_true_iff_false in E. rewrite isProtectedV_spec in E by done. lia.
Qed.

(** ** The sender cache *)

Definition signer_ok (s : Signer) : Prop :=
  match s with TiltSigner c m => m = c * 2 | _ => True end.
(** The cached sender is the one its signer derives. *)
Definition coherent (tx : Transaction) : Prop :=
  match from tx with None => True | Some (s, a) => signer_ok s /\ derived s tx = Done a end.

Lemma Equal_same s s' : signer_ok s -> signer_ok s' -> Equal s s' = true -> s = s'.
Proof. destruct s, s'; simpl; try done. intros -> -> ?%Z.eqb_eq. by subst. Qed.

Lemma Sender_derived s tx : coherent tx -> signer_ok s ->
  (Sender s tx).1 = derived s tx /\ data (Sender s tx).2 = data tx /\ coherent (Sender s tx).2.
Proof.
  intros Hc Hs. unfold Sender.
  assert (forall tx', data tx' = data tx -> derived s tx' = derived s tx) as Hd.
  { intros tx' E. unfold derived, PublicKey, plain_PublicKey, signer_Hash, Protected, ChainId. by rewrite E. }
  assert (forall r, r = match PublicKey s tx with
      | Done pub => let addr := gocopy Common.zeroAddress (zdrop 12 (Keccak256 (zdrop 1 pub))) in
          (Done addr, {| data := data tx; hash := hash tx; size := size tx; from := Some (s, addr) |})
      | Error e => (Error e, tx) | Panic => (Panic, tx) | NoFuel => (NoFuel, tx) end ->
    r.1 = derived s tx /\ data r.2 = data tx /\ coherent r.2) as Hmiss.
  { intros r ->. unfold derived at 1. destruct (PublicKey s tx) as [pub| | |] eqn:E; split_and!; try done.
    unfold coherent. simpl. split; [done|]. rewrite Hd by done. unfold derived. by rewrite E. }
  destruct (from tx) as [[s' a]|] eqn:Ef; [|by apply Hmiss].
  destruct (Equal s' s) eqn:Eq; [|by apply Hmiss].
  pose proof Hc as Hc'. unfold coherent in Hc'. rewrite Ef in Hc'. destruct Hc' as [Hs' Hda].
  apply Equal_same in Eq as ->; [|done..]. split_and!; try done.
Qed.

(** ** Signing *)

(** A private key as the foreign routine [sign], with its public key: signatures are
    in range with a low [S] and a recovery bit, and they recover the key. *)
Definition signs (sign : Hash -> option bytes) (pub : bytes) : Prop :=
  head pub = Some 4 /\
  forall h, Common.is_array 32 h -> exists r s v, sign h = Some (signature r s v) /\
    1 <= r < secp256k1_N /\ 1 <= s <= secp256k1_halfN /\ (v = 0 \/ v = 1) /\
    Ecrecover h (signature r s v) = Some pub.

(** The same transaction but for the signature. *)
Definition same_payload (tx tx' : Transaction) : Prop := payload_values (data tx') = payload_values (data tx).

Definition signed_V (s : Signer) (v : Z) : Z :=
  match s with
  | TiltSigner c m => if negb (Big.Sign c =? 0) then 35 + m + v else v
  | _ => 27 + v
  end.

Lemma WithSignature_spec s tx r sg v : 0 <= r < 2 ^ 256 -> 0 <= sg < 2 ^ 256 -> (v = 0 \/ v = 1) ->
  exists tx', WithSignature s tx (signature r sg v) = Some tx' /\ same_payload tx tx' /\ from tx' = None /\
    R (data tx') = r /\ S (data tx') = sg /\ V (data tx') = signed_V s v.
Proof.
  intros Hr Hs Hv. unfold WithSignature.
  assert (zlen (signature r sg v) = 65) as ->.
  { unfold signature, zlen. by rewrite !length_app, !Big.length_be_fixed. }
  assert (zget (signature r sg v) 64 = Some v) as ->.
  { unfold signature, zget. simpl (0 <=? 64). cbn match. change (Z.to_nat 64) with (32 + 32)%nat.
    rewrite lookup_app_r by (rewrite Big.length_be_fixed; lia). rewrite Big.length_be_fixed.
    rewrite lookup_app_r by (rewrite Big.length_be_fixed; lia). by rewrite Big.length_be_fixed. }
  assert (ztake 32 (signature r sg v) = Big.be_fixed 32 r) as ->.
  { unfold signature, ztake. apply take_app_length'. by rewrite Big.length_be_fixed. }
  assert (ztake 32 (zdrop 32 (signature r sg v)) = Big.be_fixed 32 sg) as ->.
  { unfold signature, ztake, zdrop. rewrite drop_app_length' by (by rewrite Big.length_be_fixed).
    apply take_app_length'. by rewrite Big.length_be_fixed. }
  rewrite !Big.SetBytes_be_fixed. change (256 ^ Z.of_nat 32) with (2 ^ 256). rewrite !Z.mod_small by done.
  cbn [Z.eqb Pos.eqb negb mbind option_bind]. eexists. split; [reflexivity|].
  split; [done|]. split; [done|]. split; [done|]. split; [done|].
  unfold signed_V, u8. destruct s; cbn [data fresh V]; [case_match|..]; rewrite ?Z.mod_small by lia;
    unfold Big.SetBytes; cbn [fold_left]; lia.
Qed.

Lemma signer_Hash_payload s tx tx' : same_payload tx tx' -> signer_Hash s tx' = signer_Hash s tx.
Proof. unfold same_payload, signer_Hash. by intros ->. Qed.

Lemma fresh_coherent tx : from tx = None -> coherent tx.
Proof. unfold coherent. by intros ->. Qed.

Context {CK : CryptoOk}.

Lemma is_array_signer_Hash s tx : Common.is_array 32 (signer_Hash s tx).
Proof. unfold signer_Hash, rlpHash. destruct s; case_match; apply Keccak256_size. Qed.

Lemma SignTx_spec sign pub tx s : signs sign pub ->
  exists tx' v, SignTx sign tx s = Some (Some tx') /\ same_payload tx tx' /\ from tx' = None /\ in_range true (data tx') /\
    (v = 0 \/ v = 1) /\ V (data tx') = signed_V s v /\ recovers (signer_Hash s tx') (data tx') v (key_address pub).
Proof.
  intros [Hpub Hsign]. destruct (Hsign (signer_Hash s tx) (is_array_signer_Hash s tx)) as (r & sg & v & Hs & Hr & Hsg & Hv & He).
  assert (secp256k1_N < 2 ^ 256) by done. assert (secp256k1_halfN < secp256k1_N) by done.
  destruct (WithSignature_spec s tx r sg v) as (tx' & Hw & Hp & Hf & HR & HS & HV); [lia|lia|done|].
  exists tx', v. unfold SignTx. rewrite Hs, Hw. split; [done|]. split; [done|]. split; [done|].
  split; [unfold in_range; lia|]. split; [done|]. split; [done|].
  exists pub. rewrite (signer_Hash_payload s tx tx' Hp), HR, HS. auto.
Qed.
End signing.

(** C34: [Sender] accepts a transaction for the chain [c] exactly when its signature
    is in range with a low [S] and recovers a key either without replay protection
    ([V] is 27 or 28, over the hash without chain id) or with [V = 35 + 2c] or
    [36 + 2c], over the hash with the id [c]; the sender is the address of that key,
    whatever sender is cached. *)
Theorem Sender_accepts {CR : Crypto} (c : Z) (tx : Transaction) (a : Address)
    (Hc : 0 <= c) (HV : 0 <= V (data tx)) (Hco : coherent tx) :
  (Sender (NewTiltSigner (Some c)) tx).1 = Done a <->
  in_range true (data tx) /\ exists v, (v = 0 \/ v = 1) /\ recovery c tx v a.
Proof.
  destruct (Sender_derived (NewTiltSigner (Some c)) tx Hco) as (-> & _ & _); [done|]. by apply tilt_derived.
Qed.

(** C35: a transaction signed for the chain [c] keeps its payload, has the address of
    the signing key as sender on that chain, and is refused on every other chain; one
    signed without replay protection has that sender on every chain. *)
Theorem SignTx_Sender {CR : Crypto} {CK : CryptoOk} sign pub tx c (Hkey : signs sign pub) (Hc : 0 < c) :
  (exists tx', SignTx sign tx (NewTiltSigner (Some c)) = Some (Some tx') /\ same_payload tx tx' /\
     (Sender (NewTiltSigner (Some c)) tx').1 = Done (key_address pub) /\
     forall c', 0 <= c' -> c' <> c -> (Sender (NewTiltSigner (Some c')) tx').1 = Error ErrInvalidChainId) /\
  (exists tx', SignTx sign tx OmahaSigner = Some (Some tx') /\ same_payload tx tx' /\
     (Sender OmahaSigner tx').1 = Done (key_address pub) /\
     forall c', 0 <= c' -> (Sender (NewTiltSigner (Some c')) tx').1 = Done (key_address pub)).
Proof.
  split.
  - destruct (SignTx_spec sign pub tx (NewTiltSigner (Some c)) Hkey) as (tx' & v & Hs & Hp & Hf & Hr & Hv & HV & Hrec).
    assert (V (data tx') = 35 + 2 * c + v) as HV'.
    { rewrite HV. change (signed_V _ v) with (if negb (Big.Sign c =? 0) then 35 + c * 2 + v else v).
      destruct (Z.eqb_spec (Big.Sign c) 0) as [E|E]; cbn [negb]; [|lia].
      unfold Big.Sign in E. apply Z.sgn_null_iff in E. lia. }
    exists tx'. split; [done|]. split; [done|]. pose proof (fresh_coherent tx' Hf) as Hco. split.
    + destruct (Sender_derived (NewTiltSigner (Some c)) tx' Hco) as (-> & _ & _); [done|].
      apply tilt_derived; [lia|lia|]. split; [done|]. exists v. split; [done|]. by right.
    + intros c' Hc' Hne. destruct (Sender_derived (NewTiltSigner (Some c')) tx' Hco) as (-> & _ & _); [done|].
      unfold derived. change (NewTiltSigner (Some c')) with (TiltSigner c' (c' * 2)). cbn [PublicKey].
      unfold Protected, ChainId. rewrite (proj2 (isProtectedV_spec (V (data tx')) ltac:(lia))) by lia. cbn [negb].
      apply chain_V in HV' as [-> _]; [|lia..]. by rewrite (proj2 (Z.eqb_neq _ _)) by done.
  - destruct (SignTx_spec sign pub tx OmahaSigner Hkey) as (tx' & v & Hs & Hp & Hf & Hr & Hv & HV & Hrec).
    cbn in HV. exists tx'. split; [done|]. split; [done|]. pose proof (fresh_coherent tx' Hf) as Hco. split.
    + destruct (Sender_derived OmahaSigner tx' Hco) as (-> & _ & _); [done|]. unfold derived. cbn [PublicKey].
      destruct (proj2 (plain_derived OmahaSigner true tx' (key_address pub) ltac:(lia))) as (p & -> & <-); eauto 10.
    + intros c' Hc'. destruct (Sender_derived (NewTiltSigner (Some c')) tx' Hco) as (-> & _ & _); [done|].
      apply tilt_derived; [lia|lia|]. split; [done|]. exists v. split; [done|]. by left.
Qed.

(** A signer for the chain id 0 writes the bare recovery bit into [V] and then
    refuses every transaction it signed. *)
Lemma chain_id_zero_unusable {CR : Crypto} {CK : CryptoOk} sign pub tx (Hkey : signs sign pub) :
  exists tx', SignTx sign tx (MakeSigner (Some 0)) = Some (Some tx') /\
    (Sender (MakeSigner (Some 0)) tx').1 = Error ErrInvalidChainId.
Proof.
  destruct (SignTx_spec sign pub tx (MakeSigner (Some 0)) Hkey) as (tx' & v & Hs & Hp & Hf & Hr & Hv & HV & Hrec).
  cbn in HV. exists tx'. split; [done|].
  destruct (Sender_derived (MakeSigner (Some 0)) tx' (fresh_coherent tx' Hf)) as (-> & _ & _); [done|].
  unfold derived. change (MakeSigner (Some 0)) with (TiltSigner 0 0). cbn [PublicKey]. unfold Protected, ChainId.
  rewrite HV. by destruct Hv as [-> | ->].
Qed.

(** ** Instances *)

(** A signature that carries the key, and a recovery that reads it off. *)
#[local] Instance recovery_crypto : Crypto := {
  Keccak256 := @Keccak256 toy_crypto; Sha256 := @Sha256 toy_crypto; Ripemd160 := @Ripemd160 toy_crypto;
  Ecrecover h sig := Some (4 :: Big.be_fixed 64 (Big.SetBytes (take 32 sig)));
}.
#[local] Instance recovery_crypto_ok : CryptoOk.
Proof.
  split; [apply (@Keccak256_size toy_crypto _)|apply (@Sha256_size toy_crypto _)|apply (@Ripemd160_size toy_crypto _)|].
  intros h sig pub [= <-]. apply uncompressed_size.
Qed.

Definition toy_sign (h : Hash) : option bytes := Some (signature 0x5eed 7 1).
Definition toy_pub : bytes := 4 :: Big.be_fixed 64 0x5eed.
Lemma toy_signs : signs toy_sign toy_pub.
Proof.
  split; [done|]. intros h _. exists 0x5eed, 7, 1. split; [done|]. split; [by vm_compute|].
  split; [by vm_compute|]. split; [by right|]. by vm_compute.
Qed.

Definition toy_tx : Transaction := NewTransaction 3 bob 100 21000 1 [1; 2].
(** Signed by the key above for the chain 18. *)
Definition signed_tx : Transaction :=
  fresh {| AccountNonce := 3; Price := 1; GasLimit := 21000; Recipient := Some bob; Amount := 100; Payload := [1; 2];
           V := 72; R := 0x5eed; S := 7 |}.

Lemma Sender_accepts_witness : (Sender (NewTiltSigner (Some 18)) signed_tx).1 = Done (key_address toy_pub).
Proof.
  apply Sender_accepts; [lia|by vm_compute|done|]. split; [by vm_compute|].
  exists 1. split; [by right|]. right. split; [done|]. by exists toy_pub.
Defined.

Lemma SignTx_Sender_witness :
  exists tx', SignTx toy_sign toy_tx (NewTiltSigner (Some 18)) = Some (Some tx') /\
    (Sender (NewTiltSigner (Some 18)) tx').1 = Done (key_address toy_pub).
Proof.
  destruct (SignTx_Sender toy_sign toy_pub toy_tx 18 toy_signs ltac:(lia)) as [(tx' & H1 & _ & H2 & _) _]. eauto.
Defined.

Lemma chain_id_zero_unusable_witness :
  exists tx', SignTx toy_sign toy_tx (MakeSigner (Some 0)) = Some (Some tx') /\
    (Sender (MakeSigner (Some 0)) tx').1 = Error ErrInvalidChainId.
Proof. apply (chain_id_zero_unusable toy_sign toy_pub toy_tx toy_signs). Defined.
