(* ===== verification/TxList.v ===== *)
(** [core/tx_list.go]: the nonce-sorted transaction lists of the pool.

    A [txSortedMap] is a map of transactions, a heap of its nonces and the cached
    sorted slice ([None] is nil).  Ranging over the map visits the nonces in an order
    of the runtime's choice, the class [NonceOrder].  [sort.Sort] by nonce is
    [merge_sort].  [None] as a result is a panic: an index out of range, or the nil
    transaction of a nonce that only the heap has. *)
From stdpp Require Import sorting.
From S2P Require Import Prelude GoBig CommonMath CommonTypes VmTypes TxTypes Heap.
Abbreviation Transaction := Tx.Transaction.

Class NonceOrder := nonce_order : gset Z -> list Z.
Class NonceOrderOk `{NonceOrder} : Prop := nonce_order_perm X : nonce_order X ≡ₚ elements X.

Definition Nonce (tx : Transaction) : Z := Tx.AccountNonce (Tx.data tx).
Definition GasPrice (tx : Transaction) : Z := Tx.Price (Tx.data tx).

(** [TxByNonce] *)
Definition nonce_le (x y : Transaction) : Prop := Nonce x <= Nonce y.
#[export] Instance nonce_le_dec : RelDecision nonce_le.
Proof. intros x y. unfold nonce_le. apply _. Defined.

(** [nonceHeap.Less] *)
Abbreviation nonce_less := Z.ltb.

Module SortedMap.

Record txSortedMap := {
  items : gmap Z Transaction;
  index : list Z;
  cache : option (list Transaction);
}.

Definition newTxSortedMap : txSortedMap := {| items := ∅; index := []; cache := None |}.

Definition Get (m : txSortedMap) (nonce : Z) : option Transaction := items m !! nonce.

Definition Put (m : txSortedMap) (tx : Transaction) : txSortedMap :=
  let nonce := Nonce tx in
  {| items := <[nonce := tx]> (items m);
     index := match items m !! nonce with
              | None => Heap.Push nonce_less (index m) nonce | Some _ => index m end;
     cache := None |}.

(** The loop pops one nonce per round. *)
Fixpoint forward_loop (fuel : nat) (threshold : Z) (its : gmap Z Transaction) (idx : list Z)
    (removed : list Transaction) : option (list Transaction * gmap Z Transaction * list Z) :=
  match fuel with
  | O => Some (removed, its, idx)
  | S fuel =>
      match idx with
      | [] => Some (removed, its, idx)
      | low :: _ =>
          if low <? threshold then
            '(nonce, idx) ← Heap.Pop nonce_less idx;
            tx ← its !! nonce;
            forward_loop fuel threshold (delete nonce its) idx (removed ++ [tx])
          else Some (removed, its, idx)
      end
  end.

Definition Forward (m : txSortedMap) (threshold : Z) : option (list Transaction * txSortedMap) :=
  '(removed, its, idx) ← forward_loop (length (index m)) threshold (items m) (index m) [];
  c ← match cache m with
      | None => Some None
      | Some c => Some <$> slice c (zlen removed) (zlen c)
      end;
  Some (removed, {| items := its; index := idx; cache := c |}).

Section ranges.
Context {NO : NonceOrder}.

Definition range_items (its : gmap Z Transaction) : list Transaction :=
  omap (fun n => its !! n) (nonce_order (dom its)).

Definition Filter (m : txSortedMap) (f : Transaction -> bool) : list Transaction * txSortedMap :=
  let removed := filter (fun tx => f tx = true) (range_items (items m)) in
  let its := filter (fun p => f p.2 = false) (items m) in
  (removed,
   match removed with
   | [] => {| items := its; index := index m; cache := cache m |}
   | _ => {| items := its; index := Heap.Init nonce_less (nonce_order (dom its)); cache := None |}
   end).

(** [for size := len(m.items); size > threshold; size--]: [n] rounds. *)
Fixpoint cap_loop (n : nat) (size : Z) (idx : list Z) (its : gmap Z Transaction) (drops : list Transaction)
  : option (list Transaction * gmap Z Transaction) :=
  match n with
  | O => Some (drops, its)
  | S n =>
      nonce ← zget idx (size - 1);
      tx ← its !! nonce;
      cap_loop n (size - 1) idx (delete nonce its) (drops ++ [tx])
  end.

Definition Cap (m : txSortedMap) (threshold : Z) : option (list Transaction * txSortedMap) :=
  let len := Z.of_nat (size (items m)) in
  if len <=? threshold then Some ([], m)
  else
    let idx := merge_sort Z.le (index m) in
    '(drops, its) ← cap_loop (Z.to_nat (len - threshold)) len idx (items m) [];
    idx ← slice idx 0 threshold;
    c ← match cache m with
        | None => Some None
        | Some c => Some <$> slice c 0 (zlen c - zlen drops)
        end;
    Some (drops, {| items := its; index := Heap.Init nonce_less idx; cache := c |}).

(** The first index at which the heap has the nonce. *)
Definition Remove (m : txSortedMap) (nonce : Z) : option (bool * txSortedMap) :=
  match items m !! nonce with
  | None => Some (false, m)
  | Some _ =>
      idx ← match list_find (fun n => n = nonce) (index m) with
            | None => Some (index m)
            | Some (i, _) => snd <$> Heap.Remove nonce_less (index m) i
            end;
      Some (true, {| items := delete nonce (items m); index := idx; cache := None |})
  end.

Fixpoint ready_loop (fuel : nat) (next : Z) (its : gmap Z Transaction) (idx : list Z) (ready : list Transaction)
  : option (list Transaction * gmap Z Transaction * list Z) :=
  match fuel with
  | O => Some (ready, its, idx)
  | S fuel =>
      match idx with
      | [] => Some (ready, its, idx)
      | low :: _ =>
          if low =? next then
            tx ← its !! next;
            '(_, idx) ← Heap.Pop nonce_less idx;
            ready_loop fuel (u64 (next + 1)) (delete next its) idx (ready ++ [tx])
          else Some (ready, its, idx)
      end
  end.

Definition Ready (m : txSortedMap) (start : Z) : option (list Transaction * txSortedMap) :=
  match index m with
  | [] => Some ([], m)
  | low :: _ =>
      if low >? start then Some ([], m)
      else
        '(ready, its, idx) ← ready_loop (length (index m)) low (items m) (index m) [];
        Some (ready, {| items := its; index := idx; cache := None |})
  end.

Definition Len (m : txSortedMap) : Z := Z.of_nat (size (items m)).

Definition Flatten (m : txSortedMap) : list Transaction * txSortedMap :=
  let c := match cache m with
           | Some c => c
           | None => merge_sort nonce_le (range_items (items m))
           end in
  (c, {| items := items m; index := index m; cache := Some c |}).
End ranges.

End SortedMap.

(** ** Lists with a cost cap *)
Module TxList.
Import SortedMap.

Record txList := {
  strict : bool;
  txs : txSortedMap;
  costcap : Z;
}.
Definition with_txs (l : txList) (m : txSortedMap) : txList :=
  {| strict := strict l; txs := m; costcap := costcap l |}.

Definition newTxList (strict : bool) : txList :=
  {| strict := strict; txs := newTxSortedMap; costcap := 0 |}.

(** Whether the transaction was accepted, and what it replaced. *)
Definition Add (l : txList) (tx : Transaction) : bool * option Transaction * txList :=
  let old := Get (txs l) (Nonce tx) in
  if match old with Some o => GasPrice tx <=? GasPrice o | None => false end then (false, None, l)
  else
    let m := Put (txs l) tx in
    let cost := Tx.Cost tx in
    (true, old, {| strict := strict l; txs := m; costcap := if costcap l <? cost then cost else costcap l |}).

Definition Forward (l : txList) (threshold : Z) : option (list Transaction * txList) :=
  '(r, m) ← SortedMap.Forward (txs l) threshold; Some (r, with_txs l m).

Section ranges.
Context {NO : NonceOrder}.

(** The dropped transactions, and those that a strict list loses with them. *)
Definition Filter (l : txList) (threshold : Z) : list Transaction * list Transaction * txList :=
  if costcap l <=? threshold then ([], [], l)
  else
    let '(removed, m) := SortedMap.Filter (txs l) (fun tx => Tx.Cost tx >? threshold) in
    let '(invalids, m) :=
      if strict l && negb (zlen removed =? 0) then
        let lowest := fold_left (fun low tx => if low >? Nonce tx then Nonce tx else low) removed MaxUint64 in
        SortedMap.Filter m (fun tx => Nonce tx >? lowest)
      else ([], m) in
    (removed, invalids, {| strict := strict l; txs := m; costcap := threshold |}).

Definition Cap (l : txList) (threshold : Z) : option (list Transaction * txList) :=
  '(r, m) ← SortedMap.Cap (txs l) threshold; Some (r, with_txs l m).

Definition Remove (l : txList) (tx : Transaction) : option (bool * list Transaction * txList) :=
  let nonce := Nonce tx in
  '(removed, m) ← SortedMap.Remove (txs l) nonce;
  if negb removed then Some (false, [], with_txs l m)
  else if strict l then
    let '(invalids, m) := SortedMap.Filter m (fun tx => Nonce tx >? nonce) in
    Some (true, invalids, with_txs l m)
  else Some (true, [], with_txs l m).

Definition Ready (l : txList) (start : Z) : option (list Transaction * txList) :=
  '(r, m) ← SortedMap.Ready (txs l) start; Some (r, with_txs l m).

Definition Len (l : txList) : Z := SortedMap.Len (txs l).
Definition Empty (l : txList) : bool := Len l =? 0.
Definition Flatten (l : txList) : list Transaction * txList :=
  let '(r, m) := SortedMap.Flatten (txs l) in (r, with_txs l m).
End ranges.

End TxList.
