(* ===== verification/TxListOk.v ===== *)
(** The transaction lists implement a slice sorted by nonce.

    [rep m l] ties a [txSortedMap] to the strictly sorted list [l] of its
    transactions: the map has the elements of [l] under their nonces, the index is a
    heap of the nonces, and a cached slice is [l]. *)
From stdpp Require Import sorting.
From S2P Require Import Prelude GoBig CommonMath CommonTypes Rlp VmTypes TxTypes Heap TxList.
Import SortedMap.

Definition nonce_lt (x y : Transaction) : Prop := Nonce x < Nonce y.
Abbreviation sorted := (StronglySorted nonce_lt).

Definition below (t : Z) (tx : Transaction) : Prop := Nonce tx < t.
#[export] Instance below_dec t tx : Decision (below t tx).
Proof. unfold below. apply _. Defined.
Definition above (t : Z) (tx : Transaction) : Prop := t < Nonce tx.
#[export] Instance above_dec t tx : Decision (above t tx).
Proof. unfold above. apply _. Defined.

(** ** Sorted lists *)

#[export] Instance nonce_ltb_order : Heap.StrictWeak Z.ltb.
Proof. split; unfold Heap.le; intros; rewrite ?Z.ltb_ge, ?Z.ltb_lt in *; lia. Qed.

Lemma sorted_filter (P : Transaction -> Prop) `{forall x, Decision (P x)} l : sorted l -> sorted (filter P l).
Proof.
  induction 1 as [|x l Hl IH Hx]; [constructor|]. rewrite filter_cons. case_decide; [|done].
  constructor; [done|]. rewrite Forall_forall in *. intros y [_ Hy]%list_elem_of_filter. auto.
Qed.

Lemma sorted_inj l x y : sorted l -> x ∈ l -> y ∈ l -> Nonce x = Nonce y -> x = y.
Proof.
  induction 1 as [|z l Hl IH Hz]; [by intros ?%not_elem_of_nil|].
  rewrite Forall_forall in Hz. unfold nonce_lt in Hz.
  intros [->|Hx]%elem_of_cons [->|Hy]%elem_of_cons E; auto.
  - apply Hz in Hy. lia.
  - apply Hz in Hx. lia.
Qed.

Lemma sorted_NoDup l : sorted l -> NoDup (Nonce <$> l).
Proof.
  induction 1 as [|x l Hl IH Hx]; [constructor|]. rewrite fmap_cons. constructor; [|done].
  intros (y & E & Hy)%list_elem_of_fmap. rewrite Forall_forall in Hx. apply Hx in Hy. unfold nonce_lt in Hy. lia.
Qed.

Lemma sorted_unique l l' : sorted l -> sorted l' -> l ≡ₚ l' -> l = l'.
Proof. apply StronglySorted_unique_strong. unfold nonce_lt. intros. lia. Qed.

Lemma sorted_split t l : sorted l -> l = filter (below t) l ++ filter (fun tx => ~ below t tx) l.
Proof.
  induction 1 as [|x l Hl IH Hx]; [done|]. rewrite !filter_cons. case_decide as Hb.
  - rewrite decide_False by tauto. simpl. by f_equal.
  - rewrite decide_True by done. assert (filter (below t) l = []) as E.
    { apply filter_none. rewrite Forall_forall in Hx. intros y Hy Hy'. apply Hx in Hy.
      unfold below, nonce_lt in *. lia. }
    rewrite E in *. simpl in *. by f_equal.
Qed.

(** ** The map of a sorted list *)

Definition sorts (its : gmap Z Transaction) (l : list Transaction) : Prop :=
  sorted l /\ forall n tx, its !! n = Some tx <-> Nonce tx = n /\ tx ∈ l.

Lemma sorts_None its l n : sorts its l -> its !! n = None <-> n ∉ Nonce <$> l.
Proof.
  intros [Hs Hi]. rewrite eq_None_not_Some. split.
  - intros Hn (tx & -> & Htx)%list_elem_of_fmap. apply Hn. exists tx. by apply Hi.
  - intros Hn [tx [<- Htx]%Hi]. apply Hn. by apply list_elem_of_fmap_2.
Qed.

Lemma sorts_empty : sorts ∅ [].
Proof.
  split; [constructor|]. intros n tx. rewrite lookup_empty. split; [done|]. by intros [_ ?%not_elem_of_nil].
Qed.

Lemma sorts_filter its l (f : Transaction -> bool) b : sorts its l ->
  sorts (filter (fun p => f p.2 = b) its) (filter (fun tx => f tx = b) l).
Proof.
  intros [Hs Hi]. split; [by apply sorted_filter|]. intros n tx.
  rewrite map_lookup_filter_Some, Hi, list_elem_of_filter. simpl. tauto.
Qed.

Lemma sorts_delete its l n : sorts its l -> sorts (delete n its) (filter (fun tx => Nonce tx <> n) l).
Proof.
  intros [Hs Hi]. split; [by apply sorted_filter|]. intros k tx.
  rewrite lookup_delete_Some, Hi, list_elem_of_filter. naive_solver.
Qed.

Lemma sorts_keys its l : sorts its l -> elements (dom its) ≡ₚ Nonce <$> l.
Proof.
  intros [Hs Hi]. apply NoDup_Permutation; [apply NoDup_elements|by apply sorted_NoDup|].
  intros n. rewrite elem_of_elements, elem_of_dom, list_elem_of_fmap. split.
  - intros [tx [<- ?]%Hi]. eauto.
  - intros (tx & -> & ?). exists tx. by apply Hi.
Qed.

Lemma sorts_size its l : sorts its l -> Z.of_nat (size its) = zlen l.
Proof.
  intros H. rewrite <- size_dom. unfold size, set_size. simpl.
  by rewrite (Permutation_length (sorts_keys its l H)), length_fmap.
Qed.

Lemma sorts_values its l ks : sorts its l -> ks ≡ₚ Nonce <$> l -> omap (fun n => its !! n) ks ≡ₚ l.
Proof.
  intros H ->. destruct H as [Hs Hi].
  assert (forall l' : list Transaction, (forall tx, tx ∈ l' -> tx ∈ l) -> omap (M := list) (fun n => its !! n) (Nonce <$> l') = l') as E.
  { induction l' as [|x l' IH]; [done|]. intros Hl. rewrite fmap_cons. simpl.
    rewrite (proj2 (Hi (Nonce x) x)) by (split; [done|apply Hl; left]).
    f_equal. apply IH. intros tx Htx. apply Hl. by right. }
  by rewrite E.
Qed.

(** The first transaction and the rest. *)
Lemma sorts_uncons its x l : sorts its (x :: l) -> its !! Nonce x = Some x /\ sorts (delete (Nonce x) its) l.
Proof.
  intros H. pose proof (sorts_delete _ _ (Nonce x) H) as H'. destruct H as [Hs Hi]. split; [apply Hi; set_solver|].
  rewrite filter_cons, decide_False in H' by tauto. apply StronglySorted_inv in Hs as [_ Hx].
  rewrite filter_all in H'; [done|]. rewrite Forall_forall in Hx. intros y Hy. apply Hx in Hy.
  unfold nonce_lt in Hy. lia.
Qed.

Lemma sorts_unique its l l' : sorts its l -> sorts its l' -> l = l'.
Proof.
  intros H H'. apply sorted_unique; [apply H|apply H'|].
  rewrite <- (sorts_values its l (Nonce <$> l)) by done. apply sorts_values; [done|].
  by rewrite <- (sorts_keys its l), <- (sorts_keys its l').
Qed.

(** ** The representation *)

Definition nonces_ok (l : list Transaction) : Prop := Forall (fun tx => 0 <= Nonce tx < 2 ^ 64) l.

(** The heap of a list of transactions. *)
Definition indexes (idx : list Z) (l : list Transaction) : Prop :=
  Heap.heap nonce_less (length idx) idx /\ idx ≡ₚ Nonce <$> l.

Lemma indexes_nil_inv l : indexes [] l -> l = [].
Proof. intros [_ Hp%Permutation_nil_l]. by eapply fmap_nil_inv. Qed.
Lemma indexes_length idx l : indexes idx l -> length idx = length l.
Proof. intros [_ Hp]. by rewrite (Permutation_length Hp), length_fmap. Qed.
Lemma indexes_Init idx l : idx ≡ₚ Nonce <$> l -> indexes (Heap.Init nonce_less idx) l.
Proof. intros Hp. destruct (Heap.Init_ok nonce_less idx) as [Hh Hi]. split; [done|]. by rewrite Hi. Qed.

Record rep (m : txSortedMap) (l : list Transaction) : Prop := {
  rep_sorts : sorts (items m) l;
  rep_index : indexes (index m) l;
  rep_cache c : cache m = Some c -> c = l;
  rep_range : nonces_ok l;
}.

Lemma rep_new : rep newTxSortedMap [].
Proof.
  split; [apply sorts_empty|split; [apply (Heap.heap_nil nonce_less)|done]|done|constructor].
Qed.

Lemma rep_Get m l n : rep m l -> Get m n = list_find (fun tx => Nonce tx = n) l ≫= fun p => Some p.2.
Proof.
  intros [[Hs Hi] _ _ _]. unfold Get. destruct (list_find _ l) as [[i x]|] eqn:E; simpl.
  - apply list_find_Some in E as (Hx & <- & _). apply Hi. split; [done|]. by eapply list_elem_of_lookup_2.
  - apply list_find_None in E. apply eq_None_not_Some. intros [tx [Hn Htx]%Hi].
    rewrite Forall_forall in E. by eapply E.
Qed.

Definition put (tx : Transaction) (l : list Transaction) : list Transaction :=
  filter (below (Nonce tx)) l ++ tx :: filter (above (Nonce tx)) l.

Lemma elem_of_put tx y l : y ∈ put tx l <-> y = tx \/ (y ∈ l /\ Nonce y <> Nonce tx).
Proof.
  unfold put. rewrite elem_of_app, elem_of_cons, !list_elem_of_filter. unfold below, above. split.
  - intros [[? ?]|[->|[? ?]]]; [right|by left|right]; split; auto; lia.
  - intros [->|[Hy Hne]]; [tauto|]. destruct (Z.lt_total (Nonce y) (Nonce tx)) as [|[|]]; tauto || lia.
Qed.

Lemma sorted_put tx l : sorted l -> sorted (put tx l).
Proof.
  intros Hs. apply StronglySorted_app. split; [|split].
  - intros x y [Hx _]%list_elem_of_filter. unfold below, nonce_lt in *.
    intros [->|[Hy _]%list_elem_of_filter]%elem_of_cons; [done|]. unfold above in Hy. lia.
  - by apply sorted_filter.
  - constructor; [by apply sorted_filter|]. apply Forall_forall. by intros y [Hy _]%list_elem_of_filter.
Qed.

Lemma sorts_put its l tx : sorts its l -> sorts (<[Nonce tx := tx]> its) (put tx l).
Proof.
  intros [Hs Hi]. split; [by apply sorted_put|]. intros n y. rewrite lookup_insert_Some, elem_of_put, Hi. naive_solver.
Qed.

Lemma rep_Put m l tx : rep m l -> 0 <= Nonce tx < 2 ^ 64 -> rep (Put m tx) (put tx l).
Proof.
  intros [Hs [Hh Hx] Hc Hr] Htx. pose proof (sorts_put _ _ tx Hs) as Hs'. split; simpl; try done; [split|].
  - destruct (items m !! Nonce tx); [done|]. by destruct (Heap.Push_ok nonce_less (index m) (Nonce tx) Hh).
  - rewrite <- (sorts_keys _ _ Hs'), dom_insert_L.
    destruct (items m !! Nonce tx) as [o|] eqn:E.
    + rewrite Hx, <- (sorts_keys _ _ Hs). f_equiv. assert (Nonce tx ∈ dom (items m)) by (by eapply elem_of_dom_2).
      set_solver.
    + destruct (Heap.Push_ok nonce_less (index m) (Nonce tx) Hh) as [_ ->].
      rewrite elements_union_singleton by (by apply not_elem_of_dom). by rewrite Hx, (sorts_keys _ _ Hs).
  - apply Forall_forall. intros y [->|[Hy _]]%elem_of_put; [done|]. unfold nonces_ok in Hr. rewrite Forall_forall in Hr. auto.
Qed.

Lemma nonces_filter (P : Transaction -> Prop) `{forall x, Decision (P x)} l : nonces_ok l -> nonces_ok (filter P l).
Proof. unfold nonces_ok. rewrite !Forall_forall. intros Hl y [_ Hy]%list_elem_of_filter. auto. Qed.

(** The least nonce is the first of the heap and of the list. *)
Lemma indexes_cons low rest l : indexes (low :: rest) l -> sorted l ->
  exists x l' idx', l = x :: l' /\ Nonce x = low /\
    Heap.Pop nonce_less (low :: rest) = Some (low, idx') /\ indexes idx' l'.
Proof.
  intros [Hh Hp] Hs. destruct l as [|x l']; [by apply Permutation_nil_r in Hp|].
  assert (Nonce x = low) as <-.
  { pose proof (Heap.heap_head nonce_less low rest Hh) as Hmin. rewrite Forall_forall in Hmin.
    assert (low <= Nonce x) as H1.
    { assert (Nonce x ∈ low :: rest) as H1 by (rewrite Hp; left). apply Hmin in H1. unfold Heap.le in H1.
      by apply Z.ltb_ge in H1. }
    assert (low ∈ Nonce <$> x :: l') as (y & -> & Hy)%list_elem_of_fmap by (rewrite <- Hp; left).
    apply StronglySorted_inv in Hs as [_ Hx]. rewrite Forall_forall in Hx.
    apply elem_of_cons in Hy as [->|Hy]; [done|]. apply Hx in Hy. unfold nonce_lt in Hy. lia. }
  destruct (Heap.Pop_ok nonce_less (Nonce x) rest Hh) as (idx' & HP & Hh' & Hp').
  exists x, l', idx'. split; [done|]. split; [done|]. split; [done|]. split; [done|].
  rewrite Hp'. rewrite fmap_cons in Hp. by apply Permutation_cons_inv in Hp.
Qed.

(** ** The operations on the map *)

Lemma above_all t x l : sorted (x :: l) -> t <= Nonce x ->
  filter (below t) (x :: l) = [] /\ filter (fun tx => ~ below t tx) (x :: l) = x :: l.
Proof.
  intros [_ Hx]%StronglySorted_inv Ht. rewrite Forall_forall in Hx.
  assert (forall y, y ∈ x :: l -> t <= Nonce y) as Hy.
  { intros y [->|Hy]%elem_of_cons; [done|]. apply Hx in Hy. unfold nonce_lt in Hy. lia. }
  split; [apply filter_none|apply filter_all]; intros y ?%Hy; unfold below; lia.
Qed.

Lemma forward_loop_ok fuel t its idx l removed : (length idx <= fuel)%nat -> sorts its l -> indexes idx l ->
  exists its' idx', forward_loop fuel t its idx removed = Some (removed ++ filter (below t) l, its', idx') /\
    sorts its' (filter (fun tx => ~ below t tx) l) /\ indexes idx' (filter (fun tx => ~ below t tx) l).
Proof.
  revert its idx l removed. induction fuel as [|fuel IH]; intros its [|low rest] l removed Hf Hs Hi;
    try (simpl in Hf; lia);
    try (pose proof (indexes_nil_inv l Hi) as ->; exists its, []; rewrite !filter_nil, app_nil_r; by split_and!).
  destruct (indexes_cons low rest l Hi) as (x & l' & idx' & -> & Hx & HP & Hi'); [apply Hs|].
  cbn [forward_loop]. destruct (Z.ltb_spec low t) as [Hlt|Hge].
  - rewrite HP. simpl. apply sorts_uncons in Hs as [Hg Hs']. rewrite Hx in *. rewrite Hg. simpl.
    destruct (IH (delete low its) idx' l' (removed ++ [x])) as (its'' & idx'' & -> & ? & ?); try done.
    { apply indexes_length in Hi, Hi'. simpl in *. lia. }
    exists its'', idx''. rewrite !filter_cons, decide_True, decide_False by (unfold below; lia || tauto).
    rewrite <- app_assoc. by split_and!.
  - exists its, (low :: rest). destruct (above_all t x l') as [-> ->]; [apply Hs|lia|]. rewrite app_nil_r. by split_and!.
Qed.

Lemma rep_Forward m l t : rep m l ->
  exists m', SortedMap.Forward m t = Some (filter (below t) l, m') /\ rep m' (filter (fun tx => ~ below t tx) l).
Proof.
  intros [Hs Hi Hc Hr]. unfold Forward.
  destruct (forward_loop_ok (length (index m)) t (items m) (index m) l []) as (its & idx & -> & Hs' & Hi'); [done..|].
  simpl. pose proof (sorted_split t l (proj1 Hs)) as Hl.
  assert (forall c, cache m = Some c -> slice c (zlen (filter (below t) l)) (zlen c) = Some (filter (fun tx => ~ below t tx) l)) as Hsl.
  { intros c E. apply Hc in E as ->. rewrite Hl at 1 3. apply slice_app_tail. }
  destruct (cache m) as [c|]; [rewrite Hsl by done|]; simpl; (eexists; split; [done|]); split; simpl; try done.
  - by intros ? [= <-].
  - by apply nonces_filter.
  - by apply nonces_filter.
Qed.

Section ranges.
Context {NO : NonceOrder} {NK : NonceOrderOk}.

Lemma range_items_perm its l : sorts its l -> range_items its ≡ₚ l.
Proof. intros Hs. apply sorts_values; [done|]. by rewrite nonce_order_perm, (sorts_keys its l). Qed.

Lemma rep_Filter m l f : rep m l ->
  (SortedMap.Filter m f).1 ≡ₚ filter (fun tx => f tx = true) l /\
  rep (SortedMap.Filter m f).2 (filter (fun tx => f tx = false) l).
Proof.
  intros [Hs Hi Hc Hr]. unfold Filter. simpl. pose proof (range_items_perm _ _ Hs) as Hp.
  assert (filter (fun tx => f tx = true) (range_items (items m)) ≡ₚ filter (fun tx => f tx = true) l) as Hf by (by rewrite Hp).
  split; [done|]. pose proof (sorts_filter _ _ f false Hs) as Hs'. pose proof (nonces_filter (fun tx => f tx = false) l Hr) as Hr'.
  destruct (filter _ (range_items _)) as [|x rs] eqn:E; (split; simpl; try done).
  - assert (filter (fun tx => f tx = false) l = l) as ->; [|done].
    apply filter_all. intros y Hy. apply not_true_iff_false. intros Hfy.
    apply Permutation_nil_l in Hf. by eapply (filter_nil_not_elem_of (fun tx => f tx = true) l y).
  - assert (filter (fun tx => f tx = false) l = l) as ->; [|done].
    apply filter_all. intros y Hy. apply not_true_iff_false. intros Hfy.
    apply Permutation_nil_l in Hf. by eapply (filter_nil_not_elem_of (fun tx => f tx = true) l y).
  - apply indexes_Init. by rewrite nonce_order_perm, (sorts_keys _ _ Hs').
Qed.

Lemma rep_Flatten m l : rep m l ->
  (SortedMap.Flatten m).1 = l /\ rep (SortedMap.Flatten m).2 l /\ items (SortedMap.Flatten m).2 = items m.
Proof.
  intros [Hs Hi Hc Hr].
  assert ((SortedMap.Flatten m).1 = l) as E.
  { unfold Flatten. simpl. destruct (cache m) as [c|]; [by apply Hc|].
    apply (StronglySorted_unique_strong nonce_le).
    - intros x y Hx Hy ??. apply (sorted_inj l); [apply Hs| |done|unfold nonce_le in *; lia].
      by rewrite merge_sort_Permutation, (range_items_perm _ _ Hs) in Hx.
    - apply StronglySorted_merge_sort.
      + intros x y z. unfold nonce_le. lia.
      + intros x y. unfold nonce_le. lia.
    - destruct Hs as [Hs _]. clear -Hs. induction Hs as [|x l Hl IH Hx]; constructor; [done|].
      eapply Forall_impl; [done|]. unfold nonce_lt, nonce_le. simpl. lia.
    - by rewrite merge_sort_Permutation, (range_items_perm _ _ Hs). }
  split; [done|]. split; [|done]. split; try done. intros c [= <-]. apply E.
Qed.
End ranges.

Lemma sorts_snoc its l x : sorts its (l ++ [x]) -> its !! Nonce x = Some x /\ sorts (delete (Nonce x) its) l.
Proof.
  intros H. pose proof (sorts_delete _ _ (Nonce x) H) as H'. destruct H as [Hs Hi]. split; [apply Hi; set_solver|].
  rewrite filter_app, filter_cons, decide_False, filter_nil, app_nil_r in H' by tauto.
  rewrite filter_all in H'; [done|]. intros y Hy. apply StronglySorted_app in Hs as [Hlt _].
  specialize (Hlt y x Hy ltac:(left)). unfold nonce_lt in Hlt. lia.
Qed.

Lemma cap_loop_ok n k l its drops : sorts its (take k l) -> (k <= length l)%nat -> (n <= k)%nat ->
  exists its', cap_loop n (Z.of_nat k) (Nonce <$> l) its drops = Some (drops ++ reverse (drop (k - n) (take k l)), its') /\
    sorts its' (take (k - n) l).
Proof.
  revert k its drops. induction n as [|n IH]; intros k its drops Hs Hk Hn.
  - exists its. rewrite Nat.sub_0_r, drop_ge, app_nil_r by (rewrite length_take; lia). done.
  - destruct k as [|k]; [lia|]. destruct (lookup_lt_is_Some_2 l k ltac:(lia)) as [x Hx].
    rewrite (take_S_r l k x Hx) in *. apply sorts_snoc in Hs as [Hg Hs].
    cbn [cap_loop]. unfold zget. rewrite (proj2 (Z.leb_le _ _)) by lia.
    replace (Z.to_nat (Z.of_nat (S k) - 1)) with k by lia. rewrite list_lookup_fmap, Hx. simpl. rewrite Hg. simpl.
    replace (Z.of_nat (S k) - 1) with (Z.of_nat k) by lia.
    destruct (IH k (delete (Nonce x) its) (drops ++ [x])) as (its' & -> & Hs'); [done|lia|lia|].
    exists its'. split; [|done]. rewrite drop_app_le by (rewrite length_take; lia). rewrite reverse_app.
    by rewrite <- app_assoc.
Qed.

Lemma rep_take k m l its idx c : rep m l -> sorts its (take k l) -> indexes idx (take k l) ->
  (forall c', c = Some c' -> c' = take k l) -> rep {| items := its; index := idx; cache := c |} (take k l).
Proof. intros [_ _ _ Hr] Hs Hi Hc. split; try done. by apply Forall_take. Qed.

Lemma rep_Cap m l t : rep m l -> 0 <= t ->
  exists m', SortedMap.Cap m t = Some (reverse (drop (Z.to_nat t) l), m') /\ rep m' (take (Z.to_nat t) l).
Proof.
  intros Hrep Ht. pose proof Hrep as [Hs [Hh Hp] Hc Hr]. unfold Cap. rewrite (sorts_size _ _ Hs).
  destruct (Z.leb_spec (zlen l) t) as [Hle|Hgt].
  { exists m. unfold zlen in Hle. rewrite drop_ge, take_ge by lia. done. }
  assert (merge_sort Z.le (index m) = Nonce <$> l) as ->.
  { apply (StronglySorted_unique Z.le); [apply StronglySorted_merge_sort; apply _| |by rewrite merge_sort_Permutation].
    apply (StronglySorted_fmap Nonce nonce_lt); [|apply Hs]. unfold nonce_lt. lia. }
  unfold zlen in Hgt. set (k := Z.to_nat t).
  destruct (cap_loop_ok (Z.to_nat (zlen l - t)) (length l) l (items m) []) as (its & Hcap & Hs').
  { by rewrite take_ge. } { done. } { unfold zlen. lia. }
  change (Z.of_nat (length l)) with (zlen l) in Hcap. rewrite Hcap. clear Hcap.
  rewrite (take_ge l) by done.
  replace (length l - Z.to_nat (zlen l - t))%nat with k in * by (unfold zlen, k; lia). simpl.
  assert (slice (Nonce <$> l) 0 t = Some (Nonce <$> take k l)) as ->.
  { unfold slice. rewrite (proj2 (Z.leb_le 0 t)), (proj2 (Z.leb_le t _)) by (unfold zlen; rewrite ?length_fmap; lia).
    simpl. unfold ztake, zdrop. by rewrite Z.sub_0_r, drop_0, <- fmap_take. }
  simpl. assert (indexes (Heap.Init nonce_less (Nonce <$> take k l)) (take k l)) as Hi' by by apply indexes_Init.
  destruct (cache m) as [c|] eqn:Ec.
  - rewrite (Hc c eq_refl). assert (slice l 0 (zlen l - zlen (reverse (drop k l))) = Some (take k l)) as ->.
    { unfold zlen. rewrite length_reverse, length_drop.
      replace (Z.of_nat (length l) - Z.of_nat (length l - k)) with t by lia.
      unfold slice. rewrite (proj2 (Z.leb_le 0 t)), (proj2 (Z.leb_le t _)) by (unfold zlen; lia).
      simpl. unfold ztake, zdrop. by rewrite Z.sub_0_r, drop_0. }
    simpl. eexists. split; [done|]. eapply rep_take; eauto. by intros ? [= <-].
  - simpl. eexists. split; [done|]. by eapply rep_take.
Qed.

Lemma rep_Remove m l n : rep m l ->
  exists m', SortedMap.Remove m n = Some (bool_decide (n ∈ Nonce <$> l), m') /\ rep m' (filter (fun tx => Nonce tx <> n) l).
Proof.
  intros [Hs [Hh Hp] Hc Hr]. unfold Remove. pose proof (sorts_delete _ _ n Hs) as Hs'.
  pose proof (nonces_filter (fun tx => Nonce tx <> n) l Hr) as Hr'.
  destruct (items m !! n) as [tx|] eqn:E.
  - pose proof (proj1 (proj2 Hs n tx) E) as [Hn Htx].
    assert (n ∈ index m) as Hin by (rewrite Hp, <- Hn; by apply list_elem_of_fmap_2).
    rewrite bool_decide_true by (by rewrite <- Hp).
    destruct (list_find (fun k => k = n) (index m)) as [[i k]|] eqn:F.
    + apply list_find_Some in F as (Hi & -> & _).
      destruct (Heap.Remove_ok nonce_less (index m) i n Hh Hi) as (idx & -> & Hh' & Hp'). simpl.
      eexists. split; [done|]. split; simpl; try done. split; [done|].
      apply (Permutation_cons_inv (a := n)). rewrite <- Hp', Hp, <- (sorts_keys _ _ Hs), <- (sorts_keys _ _ Hs').
      rewrite dom_delete_L. rewrite <- (elements_union_singleton (dom (items m) ∖ {[n]}) n) by set_solver.
      f_equiv. assert (n ∈ dom (items m)) by (by eapply elem_of_dom_2). intros y.
      destruct (decide (y = n)); set_solver.
    + apply list_find_None in F. rewrite Forall_forall in F. by apply F in Hin.
  - apply (sorts_None _ _ n Hs) in E. rewrite bool_decide_false by done.
    exists m. split; [done|]. rewrite filter_all; [by split|]. intros y Hy <-. apply E. by apply list_elem_of_fmap_2.
Qed.

(** The transactions with the nonces [next], [next + 1], ... in front, and the rest. *)
Fixpoint split_run (next : Z) (l : list Transaction) : list Transaction * list Transaction :=
  match l with
  | [] => ([], [])
  | x :: l' => if Nonce x =? next then let '(a, b) := split_run (next + 1) l' in (x :: a, b) else ([], l)
  end.

Lemma ready_loop_ok fuel next its idx l ready : (length idx <= fuel)%nat -> sorts its l -> indexes idx l ->
  0 <= next < 2 ^ 64 -> nonces_ok l ->
  exists its' idx', ready_loop fuel next its idx ready = Some (ready ++ (split_run next l).1, its', idx') /\
    sorts its' (split_run next l).2 /\ indexes idx' (split_run next l).2.
Proof.
  revert next its idx l ready. induction fuel as [|fuel IH]; intros next its [|low rest] l ready Hf Hs Hi Hn Hr;
    try (simpl in Hf; lia);
    try (pose proof (indexes_nil_inv l Hi) as ->; exists its, []; simpl; rewrite app_nil_r; by split_and!).
  destruct (indexes_cons low rest l Hi) as (x & l' & idx' & -> & Hx & HP & Hi'); [apply Hs|].
  cbn [ready_loop split_run]. rewrite Hx. destruct (Z.eqb_spec low next) as [->|Hne].
  - pose proof (sorts_uncons _ _ _ Hs) as [Hg Hs']. rewrite Hx in *. rewrite Hg, HP. simpl.
    destruct (IH (u64 (next + 1)) (delete next its) idx' l' (ready ++ [x])) as (its'' & idx'' & -> & Hs'' & Hi''); try done.
    { apply indexes_length in Hi, Hi'. simpl in *. lia. }
    { apply u64_range. } { by apply Forall_cons in Hr as [_ ?]. }
    assert (split_run (u64 (next + 1)) l' = split_run (next + 1) l') as Hw.
    { destruct l' as [|y l'']; [done|]. rewrite u64_small; [done|].
      destruct Hs as [Hs _]. apply StronglySorted_inv in Hs as [_ Hlt%Forall_inv].
      apply Forall_cons in Hr as [_ [Hy _]%Forall_cons]. unfold nonce_lt in Hlt. lia. }
    rewrite Hw in *. destruct (split_run (next + 1) l') as [a b]. simpl in *.
    exists its'', idx''. rewrite <- app_assoc. by split_and!.
  - exists its, (low :: rest). simpl. rewrite app_nil_r. by split_and!.
Qed.

Definition ready_split (start : Z) (l : list Transaction) : list Transaction * list Transaction :=
  match l with
  | [] => ([], [])
  | x :: _ => if Nonce x >? start then ([], l) else split_run (Nonce x) l
  end.

Lemma split_run_app next l : l = (split_run next l).1 ++ (split_run next l).2.
Proof.
  revert next. induction l as [|x l IH]; intros next; [done|]. simpl. case_match; [|done].
  specialize (IH (next + 1)). destruct (split_run (next + 1) l). simpl in *. by f_equal.
Qed.

Lemma rep_Ready m l start : rep m l ->
  exists m', SortedMap.Ready m start = Some ((ready_split start l).1, m') /\ rep m' (ready_split start l).2.
Proof.
  intros Hrep. pose proof Hrep as [Hs Hi Hc Hr]. unfold Ready, ready_split.
  destruct (index m) as [|low rest] eqn:Ei.
  { apply indexes_nil_inv in Hi as ->. by exists m. }
  destruct (indexes_cons low rest l Hi) as (x & l' & idx' & -> & Hx & HP & Hi'); [apply Hs|]. rewrite Hx.
  destruct (low >? start); [by exists m|].
  assert (0 <= low < 2 ^ 64) by (apply Forall_inv in Hr; lia).
  destruct (ready_loop_ok (length (low :: rest)) low (items m) (low :: rest) (x :: l') []) as (its & idx & -> & Hs' & Hi''); try done.
  simpl app. eexists. split; [done|]. split; try done.
  unfold nonces_ok in *. rewrite (split_run_app low (x :: l')) in Hr. by apply Forall_app in Hr as [_ ?].
Qed.
