(* ===== verification/TxListTheorems.v ===== *)
(** The contract of [txList]: it behaves as a slice sorted by nonce, and removing
    from a strict list leaves no gap. *)
From stdpp Require Import sorting.
From S2P Require Import Prelude GoBig CommonMath CommonTypes Rlp VmTypes TxTypes Heap TxList TxListOk Concrete.
Import TxList.

Definition costs_more (t : Z) (tx : Transaction) : Prop := t < Tx.Cost tx.
#[export] Instance costs_more_dec t tx : Decision (costs_more t tx).
Proof. unfold costs_more. apply _. Defined.

(** ** Operations and replies *)

Inductive op :=
| OpAdd (tx : Transaction)
| OpForward (threshold : Z)
| OpFilter (threshold : Z)
| OpCap (threshold : Z)
| OpRemove (tx : Transaction)
| OpReady (start : Z)
| OpFlatten
| OpLen.

Inductive reply :=
| RAdd (accepted : bool) (old : option Transaction)
| RTxs (l : list Transaction)
| RFilter (removed invalids : list Transaction)
| RRemove (found : bool) (invalids : list Transaction)
| RLen (n : Z).

(** Ranging over the map gives some replies in an order of the runtime's choice. *)
Inductive related : reply -> reply -> Prop :=
| related_same r : related r r
| related_filter a b a' b' : a ≡ₚ a' -> b ≡ₚ b' -> related (RFilter a b) (RFilter a' b')
| related_remove f a a' : a ≡ₚ a' -> related (RRemove f a) (RRemove f a').

(** What Go's types and the callers guarantee. *)
Definition valid (o : op) : Prop :=
  match o with
  | OpAdd tx => 0 <= Nonce tx < 2 ^ 64
  | OpCap t => 0 <= t
  | _ => True
  end.

(** ** The specification: a sorted list *)

Definition find (n : Z) (l : list Transaction) : option Transaction :=
  list_find (fun tx => Nonce tx = n) l ≫= fun p => Some p.2.

(** A strict list loses everything above a transaction it loses. *)
Definition cut (strict : bool) (lost : list Transaction) (keep : list Transaction)
  : list Transaction * list Transaction :=
  match lost with
  | x :: _ => if strict then (filter (above (Nonce x)) keep, filter (fun tx => ~ above (Nonce x) tx) keep) else ([], keep)
  | [] => ([], keep)
  end.

Definition spec_step (strict : bool) (l : list Transaction) (o : op) : reply * list Transaction :=
  match o with
  | OpAdd tx =>
      let old := find (Nonce tx) l in
      if match old with Some o => GasPrice tx <=? GasPrice o | None => false end then (RAdd false None, l)
      else (RAdd true old, put tx l)
  | OpForward t => (RTxs (filter (below t) l), filter (fun tx => ~ below t tx) l)
  | OpFilter t =>
      let lost := filter (costs_more t) l in
      let '(invalids, l) := cut strict lost (filter (fun tx => ~ costs_more t tx) l) in (RFilter lost invalids, l)
  | OpCap t => (RTxs (reverse (drop (Z.to_nat t) l)), take (Z.to_nat t) l)
  | OpRemove tx =>
      let lost := filter (fun x => Nonce x = Nonce tx) l in
      let '(invalids, l) := cut strict lost (filter (fun x => Nonce x <> Nonce tx) l) in
      (RRemove (bool_decide (lost <> [])) invalids, l)
  | OpReady start => let '(r, l) := ready_split start l in (RTxs r, l)
  | OpFlatten => (RTxs l, l)
  | OpLen => (RLen (zlen l), l)
  end.

Section steps.
Context {NO : NonceOrder}.

Definition impl_step (l : txList) (o : op) : option (reply * txList) :=
  match o with
  | OpAdd tx => let '(b, old, l) := Add l tx in Some (RAdd b old, l)
  | OpForward t => '(r, l) ← Forward l t; Some (RTxs r, l)
  | OpFilter t => let '(r, i, l) := Filter l t in Some (RFilter r i, l)
  | OpCap t => '(r, l) ← Cap l t; Some (RTxs r, l)
  | OpRemove tx => '(b, i, l) ← Remove l tx; Some (RRemove b i, l)
  | OpReady s => '(r, l) ← Ready l s; Some (RTxs r, l)
  | OpFlatten => let '(r, l) := Flatten l in Some (RTxs r, l)
  | OpLen => Some (RLen (Len l), l)
  end.

Fixpoint impl_run (l : txList) (ops : list op) : option (list reply * txList) :=
  match ops with
  | [] => Some ([], l)
  | o :: ops => '(r, l) ← impl_step l o; '(rs, l) ← impl_run l ops; Some (r :: rs, l)
  end.
End steps.

Fixpoint spec_run (strict : bool) (l : list Transaction) (ops : list op) : list reply * list Transaction :=
  match ops with
  | [] => ([], l)
  | o :: ops => let '(r, l) := spec_step strict l o in let '(rs, l) := spec_run strict l ops in (r :: rs, l)
  end.

(** ** The simulation *)

(** The cap bounds every cost. *)
Definition lrep (b : bool) (l : txList) (s : list Transaction) : Prop :=
  strict l = b /\ rep (txs l) s /\ Forall (fun tx => Tx.Cost tx <= costcap l) s.

Lemma lrep_new b : lrep b (newTxList b) [].
Proof. split_and!; [done|apply rep_new|constructor]. Qed.

Lemma lrep_sub b l m s s' : lrep b l s -> rep m s' -> (forall x, x ∈ s' -> x ∈ s) -> lrep b (with_txs l m) s'.
Proof.
  intros (Hb & _ & Hc) Hr Hsub. split_and!; [done..|]. rewrite Forall_forall in *. simpl. auto.
Qed.

Lemma filter_sub (P : Transaction -> Prop) `{forall x, Decision (P x)} (l : list Transaction) x :
  x ∈ filter P l -> x ∈ l.
Proof. by intros [_ ?]%list_elem_of_filter. Qed.

Section simulation.
Context {NO : NonceOrder} {NK : NonceOrderOk}.

Lemma Add_ok b l s tx : lrep b l s -> 0 <= Nonce tx < 2 ^ 64 ->
  let '(r, s') := spec_step b s (OpAdd tx) in
  exists l', impl_step l (OpAdd tx) = Some (r, l') /\ lrep b l' s'.
Proof.
  intros Hl Hn. pose proof Hl as (Hb & Hr & Hc). simpl. unfold Add, find. rewrite (rep_Get _ _ _ Hr).
  match goal with |- context [if ?b then _ else _] => destruct b end; [eauto|].
  eexists. split; [done|]. split_and!; [done|by apply rep_Put|].
  simpl. rewrite Forall_forall in *. intros y [->|[Hy _]]%elem_of_put.
  - destruct (Z.ltb_spec (costcap l) (Tx.Cost tx)); lia.
  - apply Hc in Hy. destruct (Z.ltb_spec (costcap l) (Tx.Cost tx)); lia.
Qed.

(** The filters of the code, by their meaning. *)
Lemma rep_Filter_P m s f (P : Transaction -> Prop) `{forall x, Decision (P x)} : rep m s ->
  (forall tx, f tx = true <-> P tx) ->
  (SortedMap.Filter m f).1 ≡ₚ filter P s /\ rep (SortedMap.Filter m f).2 (filter (fun tx => ~ P tx) s).
Proof.
  intros Hr Hf. destruct (rep_Filter m s f Hr) as [H1 H2].
  rewrite (filter_ext _ P) in H1 by (intros; apply Hf).
  rewrite (filter_ext _ (fun tx => ~ P tx)) in H2; [done|]. intros x _. rewrite <- Hf. symmetry. apply not_true_iff_false.
Qed.

(** The least nonce of the removed transactions, in whatever order they come. *)
Lemma fold_lowest v l low : v <= low -> (forall y, y ∈ l -> v <= Nonce y) -> low = v \/ v ∈ Nonce <$> l ->
  fold_left (fun low tx => if low >? Nonce tx then Nonce tx else low) l low = v.
Proof.
  revert low. induction l as [|y l IH]; intros low Hlow Hl Hv; simpl.
  - destruct Hv as [|[]%not_elem_of_nil]; done.
  - assert (v <= Nonce y) by (apply Hl; left). rewrite fmap_cons, elem_of_cons in Hv. rewrite Z.gtb_ltb.
    apply IH; [|intros z Hz; apply Hl; by right|]; destruct (Z.ltb_spec (Nonce y) low); try lia.
    + destruct Hv as [|[|]]; auto; lia.
    + destruct Hv as [|[|]]; auto; lia.
Qed.

Lemma lowest_ok lost x rest : lost ≡ₚ x :: rest -> sorted (x :: rest) -> Nonce x < 2 ^ 64 ->
  fold_left (fun low tx => if low >? Nonce tx then Nonce tx else low) lost MaxUint64 = Nonce x.
Proof.
  intros Hp [_ Hs]%StronglySorted_inv Hx. rewrite Forall_forall in Hs. apply fold_lowest.
  - unfold MaxUint64. lia.
  - intros y Hy. rewrite Hp in Hy. apply elem_of_cons in Hy as [->|Hy]; [done|].
    apply Hs in Hy. unfold nonce_lt in Hy. lia.
  - right. rewrite Hp. left.
Qed.

Lemma Filter_ok b l s t : lrep b l s ->
  let '(r, s') := spec_step b s (OpFilter t) in
  exists r' l', impl_step l (OpFilter t) = Some (r', l') /\ related r' r /\ lrep b l' s'.
Proof.
  intros Hl. pose proof Hl as (Hb & Hr & Hc). cbn [spec_step impl_step]. unfold Filter.
  destruct (Z.leb_spec (costcap l) t) as [Hle|Hgt].
  { assert (filter (costs_more t) s = []) as ->.
    { apply filter_none. rewrite Forall_forall in Hc. intros x Hx. apply Hc in Hx. unfold costs_more. lia. }
    rewrite filter_all by (rewrite Forall_forall in Hc; intros x Hx; apply Hc in Hx; unfold costs_more; lia).
    cbn [cut]. eexists _, l. split; [done|]. split; [constructor|done]. }
  destruct (rep_Filter_P (txs l) s (fun tx => Tx.Cost tx >? t) (costs_more t) Hr) as [H1 H2].
  { intros tx. rewrite Z.gtb_lt. done. }
  destruct (SortedMap.Filter (txs l) _) as [removed m]. simpl in H1, H2. rewrite Hb.
  set (lost := filter (costs_more t) s) in *. set (keep := filter (fun tx => ~ costs_more t tx) s) in *.
  assert (forall x, x ∈ keep -> Tx.Cost x <= t) as Hkeep.
  { intros x [Hx _]%list_elem_of_filter. unfold costs_more in Hx. lia. }
  assert (forall m' s', rep m' s' -> (forall x, x ∈ s' -> x ∈ keep) ->
            lrep b {| strict := b; txs := m'; costcap := t |} s') as Hrep.
  { intros m' s' Hm Hsub. split_and!; [done..|]. apply Forall_forall. simpl. auto. }
  destruct lost as [|x rest] eqn:El.
  - apply Permutation_nil_r in H1 as ->. rewrite zlen_nil, andb_false_r. cbn [cut].
    eexists _, _. split; [done|]. split; [constructor|]. apply Hrep; auto.
  - assert (zlen removed =? 0 = false) as ->.
    { apply Z.eqb_neq. unfold zlen. rewrite (Permutation_length H1). simpl. lia. }
    destruct b; cbn [andb negb cut].
    + rewrite (lowest_ok removed x rest H1).
      * destruct (rep_Filter_P m keep (fun tx => Nonce tx >? Nonce x) (above (Nonce x)) H2) as [H3 H4].
        { intros tx. rewrite Z.gtb_lt. done. }
        destruct (SortedMap.Filter m _) as [invalids m']. simpl in H3, H4.
        eexists _, _. split; [done|]. split; [by constructor|]. apply Hrep; [done|].
        intros y. apply filter_sub.
      * rewrite <- El. apply sorted_filter. apply Hr.
      * assert (x ∈ s) as Hx by (eapply filter_sub; unfold lost in El; rewrite El; left).
        pose proof (rep_range _ _ Hr) as Hrange. unfold nonces_ok in Hrange. rewrite Forall_forall in Hrange.
        apply Hrange in Hx. lia.
    + eexists _, _. split; [done|]. split; [by constructor|]. apply Hrep; auto.
Qed.

Lemma list_Remove_ok b l s tx : lrep b l s ->
  let '(r, s') := spec_step b s (OpRemove tx) in
  exists r' l', impl_step l (OpRemove tx) = Some (r', l') /\ related r' r /\ lrep b l' s'.
Proof.
  intros Hl. pose proof Hl as (Hb & Hr & Hc). cbn [spec_step impl_step]. unfold Remove.
  destruct (rep_Remove (txs l) s (Nonce tx) Hr) as (m & -> & Hm). cbn [mbind option_bind].
  set (keep := filter (fun x => Nonce x <> Nonce tx) s) in *.
  assert (forall x, x ∈ keep -> x ∈ s) as Hsub by (intros x; apply filter_sub).
  destruct (filter (fun x => Nonce x = Nonce tx) s) as [|x rest] eqn:El; cbn [cut].
  - rewrite (bool_decide_false (Nonce tx ∈ Nonce <$> s)).
    2: { intros (x & E & Hx)%list_elem_of_fmap. by eapply (filter_nil_not_elem_of (fun x => Nonce x = Nonce tx) s x). }
    cbn [negb]. eexists _, _. split; [done|]. rewrite bool_decide_false by (by intros []). split; [constructor|].
    by eapply lrep_sub.
  - assert (x ∈ filter (fun x => Nonce x = Nonce tx) s) as [Hnx Hx]%list_elem_of_filter by (rewrite El; left).
    rewrite (bool_decide_true (Nonce tx ∈ Nonce <$> s)) by (rewrite <- Hnx; by apply list_elem_of_fmap_2). cbn [negb].
    rewrite (bool_decide_true (x :: rest <> [])) by done. rewrite Hb. destruct b.
    + destruct (rep_Filter_P m keep (fun tx' => Nonce tx' >? Nonce tx) (above (Nonce tx)) Hm) as [H3 H4].
      { intros tx'. rewrite Z.gtb_lt. done. }
      destruct (SortedMap.Filter m _) as [invalids m']. simpl in H3, H4. rewrite Hnx.
      eexists _, _. split; [done|]. split; [by constructor|]. eapply lrep_sub; [done..|].
      intros y Hy. apply Hsub. by eapply filter_sub.
    + eexists _, _. split; [done|]. split; [constructor|]. by eapply lrep_sub.
Qed.

Lemma list_step_ok b l s o : lrep b l s -> valid o ->
  let '(r, s') := spec_step b s o in
  exists r' l', impl_step l o = Some (r', l') /\ related r' r /\ lrep b l' s'.
Proof.
  intros Hl Hv. pose proof Hl as (Hb & Hr & Hc). destruct o as [tx|t|t|t|tx|t| |].
  - pose proof (Add_ok b l s tx Hl Hv) as H. destruct (spec_step b s (OpAdd tx)) as [r s'].
    destruct H as (l' & ? & ?). eexists _, _. split; [done|]. split; [constructor|done].
  - cbn. unfold Forward. destruct (rep_Forward (txs l) s t Hr) as (m & -> & Hm). simpl. eexists _, _.
    split; [done|]. split; [constructor|]. eapply lrep_sub; [done..|]. intros y. apply filter_sub.
  - by apply Filter_ok.
  - cbn. unfold Cap. destruct (rep_Cap (txs l) s t Hr Hv) as (m & -> & Hm). simpl. eexists _, _.
    split; [done|]. split; [constructor|]. eapply lrep_sub; [done..|]. intros y Hy. by eapply elem_of_take in Hy as (? & ?%list_elem_of_lookup_2 & _).
  - by apply list_Remove_ok.
  - cbn. unfold Ready. destruct (rep_Ready (txs l) s t Hr) as (m & -> & Hm). simpl.
    destruct (ready_split t s) as [r s'] eqn:E. simpl in *. eexists _, _.
    split; [done|]. split; [constructor|]. eapply lrep_sub; [done..|]. intros y Hy.
    destruct s as [|x s]; [by simplify_eq/=|]. simpl in E. case_match; [by simplify_eq|].
    rewrite (split_run_app (Nonce x) (x :: s)). simpl. rewrite E. apply elem_of_app. by right.
  - cbn [spec_step impl_step]. unfold Flatten. destruct (rep_Flatten (txs l) s Hr) as (E & Hm & _).
    destruct (SortedMap.Flatten (txs l)) as [r m]. simpl in *. subst r. eexists _, _.
    split; [done|]. split; [constructor|]. by eapply lrep_sub.
  - cbn. eexists _, _. split; [done|]. unfold Len, SortedMap.Len. rewrite (sorts_size _ _ (rep_sorts _ _ Hr)). by split; [constructor|].
Qed.
End simulation.

(** ** Gaps *)

(** Consecutive transactions have consecutive nonces. *)
Definition gapless (l : list Transaction) : Prop :=
  forall a x y b, l = a ++ x :: y :: b -> Nonce y = Nonce x + 1.

Lemma gapless_app l l' : gapless (l ++ l') -> gapless l /\ gapless l'.
Proof.
  intros H. split; intros a x y b ->.
  - eapply (H a x y (b ++ l')). by rewrite <- app_assoc.
  - eapply (H (l ++ a) x y b). by rewrite <- app_assoc.
Qed.

Lemma gapless_below t s : sorted s -> gapless s -> gapless (filter (below t) s) /\ gapless (filter (fun tx => ~ below t tx) s).
Proof. intros Hs Hg. apply gapless_app. by rewrite <- sorted_split. Qed.

(** What is left of a strict list is what was below the first loss. *)
Lemma cut_below (P : Transaction -> Prop) `{forall x, Decision (P x)} s x rest : sorted s -> filter P s = x :: rest ->
  (cut true (filter P s) (filter (fun tx => ~ P tx) s)).2 = filter (below (Nonce x)) s.
Proof.
  intros Hs E. assert (x ∈ filter P s) as [HPx Hx]%list_elem_of_filter by (rewrite E; left).
  rewrite E. cbn [cut snd]. rewrite list_filter_filter. apply filter_ext. intros y Hy. unfold above, below. split.
  - intros [Hny HPy]. assert (Nonce y <> Nonce x); [|lia]. intros Hn. apply HPy.
    by rewrite (sorted_inj s y x Hs Hy Hx Hn).
  - intros Hlt. split; [lia|]. intros HPy.
    assert (y ∈ x :: rest) as Hyl by (rewrite <- E; by apply list_elem_of_filter).
    pose proof (sorted_filter P s Hs) as Hs'. rewrite E in Hs'. apply StronglySorted_inv in Hs' as [_ Hs'].
    rewrite Forall_forall in Hs'. apply elem_of_cons in Hyl as [->|Hyl]; [lia|]. apply Hs' in Hyl. unfold nonce_lt in Hyl. lia.
Qed.

Lemma gapless_cut (P : Transaction -> Prop) `{forall x, Decision (P x)} s : sorted s -> gapless s ->
  gapless (cut true (filter P s) (filter (fun tx => ~ P tx) s)).2.
Proof.
  intros Hs Hg. destruct (filter P s) as [|x rest] eqn:E.
  - cbn [cut snd]. rewrite filter_all; [done|]. intros y Hy HPy. by eapply (filter_nil_not_elem_of P s y).
  - rewrite <- E. erewrite cut_below by done. by apply gapless_below.
Qed.

Definition removing (o : op) : bool :=
  match o with OpForward _ | OpFilter _ | OpCap _ | OpRemove _ | OpFlatten | OpLen => true | _ => false end.

Lemma gapless_step s o : sorted s -> gapless s -> removing o = true -> gapless (spec_step true s o).2.
Proof.
  intros Hs Hg Ho. destruct o as [tx|t|t|t|tx|t| |]; try done; cbn [spec_step].
  - by apply gapless_below.
  - pose proof (gapless_cut (costs_more t) s Hs Hg) as H. by destruct (cut _ _ _).
  - simpl. apply (gapless_app (take (Z.to_nat t) s) (drop (Z.to_nat t) s)). by rewrite take_drop.
  - pose proof (gapless_cut (fun x => Nonce x = Nonce tx) s Hs Hg) as H. by destruct (cut _ _ _).
Qed.

(** ** Theorems *)

(** C33: from an empty list, every sequence of additions, removals, filters, caps,
    promotions and listings runs without panic and replies as a slice sorted by nonce
    does; the replies of [Filter] and [Remove] are the same up to their order.  The
    heap of nonces, the cached slice and the cost cap never show. *)
Theorem txList_refines {NO : NonceOrder} {NK : NonceOrderOk} (strict : bool) (ops : list op) (Hv : Forall valid ops) :
  let '(rs, s) := spec_run strict [] ops in
  exists rs' l, impl_run (newTxList strict) ops = Some (rs', l) /\ Forall2 related rs' rs /\ (Flatten l).1 = s.
Proof.
  assert (forall l s, lrep strict l s -> let '(rs, s') := spec_run strict s ops in
            exists rs' l', impl_run l ops = Some (rs', l') /\ Forall2 related rs' rs /\ lrep strict l' s') as H.
  { induction ops as [|o ops IH]; intros l s Hl; simpl; [by exists [], l|].
    apply Forall_cons in Hv as [Ho Hv]. pose proof (list_step_ok strict l s o Hl Ho) as Hstep.
    destruct (spec_step strict s o) as [r s']. destruct Hstep as (r' & l' & -> & Hrel & Hl'). simpl.
    specialize (IH Hv l' s' Hl'). destruct (spec_run strict s' ops) as [rs s''].
    destruct IH as (rs' & l'' & -> & Hrels & Hl''). simpl. eexists _, _. split; [done|]. split; [by constructor|done]. }
  specialize (H _ _ (lrep_new strict)). destruct (spec_run strict [] ops) as [rs s].
  destruct H as (rs' & l & ? & ? & _ & Hr & _). exists rs', l. split; [done|]. split; [done|].
  unfold Flatten. destruct (rep_Flatten _ _ Hr) as (<- & _ & _). by destruct (SortedMap.Flatten (txs l)).
Qed.

(** A strict list without gaps has none after transactions are dropped as too old,
    too costly, over a limit or removed by hand: with a transaction it gives up all that
    follow. *)
Lemma strict_stays_gapless {NO : NonceOrder} {NK : NonceOrderOk} (l : txList) (s : list Transaction) (o : op)
    (Hl : lrep true l s) (Hg : gapless s) (Ho : removing o = true) (Hv : valid o) :
  exists r l', impl_step l o = Some (r, l') /\ gapless (Flatten l').1.
Proof.
  pose proof (list_step_ok true l s o Hl Hv) as H. pose proof Hl as (_ & Hr & _).
  pose proof (gapless_step s o (proj1 (rep_sorts _ _ Hr)) Hg Ho) as Hg'.
  destruct (spec_step true s o) as [r s']. destruct H as (r' & l' & ? & _ & _ & Hr' & _). exists r', l'. split; [done|].
  unfold Flatten. destruct (rep_Flatten _ _ Hr') as (E & _ & _). destruct (SortedMap.Flatten (txs l')). simpl in *. by subst.
Qed.

(** ** Instances *)

#[export] Instance key_order : NonceOrder := fun X => elements X.
#[export] Instance key_order_ok : NonceOrderOk.
Proof. by intros X. Qed.

Definition sample_tx (nonce price : Z) : Transaction := Tx.NewTransaction nonce bob 1 21000 price [].

Definition sample_ops : list op :=
  [OpAdd (sample_tx 7 5); OpAdd (sample_tx 5 1); OpAdd (sample_tx 6 9); OpAdd (sample_tx 5 3); OpFlatten; OpForward 6;
   OpFilter 150000; OpLen].

Lemma txList_refines_witness : exists rs l, impl_run (newTxList true) sample_ops = Some (rs, l) /\ (Flatten l).1 = [].
Proof.
  assert (Forall valid sample_ops) as Hv by (repeat first [apply Forall_nil; done|apply Forall_cons; split; [by vm_compute|]]).
  pose proof (txList_refines true sample_ops Hv) as H. vm_compute in H.
  destruct H as (rs' & l & H1 & _ & H2). exists rs', l. split; [exact H1|exact H2].
Defined.

Definition sample_list : txList := (Add (Add (newTxList true) (sample_tx 5 1)).2 (sample_tx 6 9)).2.

