(* ===== verification/StateTransitionOk.v ===== *)
(** Applying a message is accounted for: the transition returns, the gas it uses
    is within what the message bought, the pool loses exactly the gas used, and
    what the sender paid for gas is what the sender and the coinbase get back. *)
From S2P Require Import Prelude GoBig CommonMath CommonTypes Params VmTypes StateSpec VmGas.
From S2P Require Import VmLogic VmInterp VmExec VmStep VmSafety StateDB StateDBLaws Concrete.
From S2P Require Import StateTransition.
Import Math.

(** ** Intrinsic gas *)

Lemma nonzero_bytes_acc data n :
  fold_left (fun nz b => if b =? 0 then nz else nz + 1) data n = n + nonzero_bytes data.
Proof.
  unfold nonzero_bytes. revert n. induction data as [|b data IH]; intros n; simpl; [lia|].
  rewrite IH, (IH (if b =? 0 then 0 else 0 + 1)). destruct (b =? 0); lia.
Qed.

Lemma nonzero_bytes_cons b data :
  nonzero_bytes (b :: data) = (if b =? 0 then 0 else 1) + nonzero_bytes data.
Proof. unfold nonzero_bytes at 1. simpl. by rewrite nonzero_bytes_acc. Qed.

(** What the data of a message costs, byte by byte. *)
Definition data_gas (data : bytes) : Z :=
  foldr (fun b n => (if b =? 0 then Params.TxDataZeroGas else Params.TxDataNonZeroGas) + n) 0 data.

Lemma IntrinsicGas_sum data create :
  IntrinsicGas data create =
  (if create then Params.TxGasContractCreation else Params.TxGas) + data_gas data.
Proof.
  assert (H : data_gas data = nonzero_bytes data * Params.TxDataNonZeroGas +
                              (zlen data - nonzero_bytes data) * Params.TxDataZeroGas).
  { induction data as [|b data IH]; [done|]. simpl. rewrite IH, nonzero_bytes_cons, zlen_cons.
    destruct (b =? 0); lia. }
  unfold IntrinsicGas. case_match eqn:E; bool_to_prop; [lia|].
  pose proof (zlen_nonneg data). assert (data = []) as -> by (apply zlen_0; lia). simpl. lia.
Qed.

Lemma data_gas_nonneg data : 0 <= data_gas data.
Proof.
  induction data as [|b data IH]; [done|]. simpl.
  unfold Params.TxDataZeroGas, Params.TxDataNonZeroGas. destruct (b =? 0); lia.
Qed.

Lemma IntrinsicGas_nonneg data create : 0 <= IntrinsicGas data create.
Proof.
  rewrite IntrinsicGas_sum. pose proof (data_gas_nonneg data).
  unfold Params.TxGasContractCreation, Params.TxGas. destruct create; lia.
Qed.

(** ** Rules *)
Section rules.
Context {S : Type} {DB : StateDB S} {CR : Crypto} {SL : StateLaws S}.

Definition stwp {A} (m : SM (ST S) sterror A) (Q : A -> ST S -> Prop) (R : ST S -> Prop)
    (st : ST S) : Prop :=
  match m st with
  | (Done a, st') => Q a st'
  | (Error _, st') => R st'
  | _ => False
  end.

Lemma stwp_bind {A C} (m : SM (ST S) sterror A) (k : A -> SM (ST S) sterror C) Q R st :
  stwp m (fun a => stwp (k a) Q R) R st -> stwp (m ≫= k) Q R st.
Proof. unfold stwp, mbind, SM_bind. by destruct (m st) as [[]]. Qed.

Lemma world_ok_mono B B' w : B <= B' -> world_ok B w -> world_ok B' w.
Proof.
  intros HB (?&(?&HS&?)&?). do 2 (split; [done|split; [|done]]).
  intros l Hl. specialize (HS l Hl). lia.
Qed.

Lemma stwp_get {A} B (g : S -> A * S) val (Q : A -> ST S -> Prop) R p gs ig w :
  reads view inv g val -> world_ok B w ->
  (forall w', world_ok B w' -> depth w' = depth w -> view w'.(statedb) = view w.(statedb) ->
     Q (val (view w.(statedb))) (Build_ST p gs ig w')) ->
  stwp (st_get g) Q R (Build_ST p gs ig w).
Proof.
  intros Hg (Hi&Hv&?) HQ. destruct (reads_run _ _ _ Hg Hi) as (s'&Hs'&Hview&Hk).
  unfold stwp, st_get. simpl. rewrite Hs'. apply HQ; [|done|done].
  split_and!; [apply Hk| |done]. simpl. by rewrite Hview.
Qed.

Lemma stwp_do B B' (g : S -> S) h (Q : unit -> ST S -> Prop) R p gs ig w :
  writes view inv g h -> world_ok B w -> view_ok B' (h (view w.(statedb))) ->
  (forall w', world_ok B' w' -> depth w' = depth w -> view w'.(statedb) = h (view w.(statedb)) ->
     Q tt (Build_ST p gs ig w')) ->
  stwp (st_do g) Q R (Build_ST p gs ig w).
Proof.
  intros Hg (Hi&Hv&?) Hok HQ. destruct (Hg _ Hi) as [Hview Hk].
  apply HQ; [|done|done]. split_and!; [apply Hk| |done]. simpl. by rewrite Hview.
Qed.

Lemma stwp_touch B a (Q : unit -> ST S -> Prop) R p gs ig w :
  world_ok B w ->
  (forall w', world_ok B w' -> depth w' = depth w ->
     (forall b, abs_balance (view w'.(statedb)) b = abs_balance (view w.(statedb)) b) ->
     Q tt (Build_ST p gs ig w')) ->
  stwp (exists_ ← st_get (Exist a); if (exists_ : bool) then mret tt else st_do (CreateAccount a))
    Q R (Build_ST p gs ig w).
Proof.
  intros Hw HQ. apply stwp_bind. eapply stwp_get; [apply law_Exist|done|].
  intros w1 Hw1 Hd1 Hv1. case_match.
  - apply HQ; [done|done|]. intros b. by rewrite Hv1.
  - eapply stwp_do; [apply law_CreateAccount|done|apply view_ok_CreateAccount, Hw1|].
    intros w2 Hw2 Hd2 Hv2. apply HQ; [done|congruence|]. intros b.
    by rewrite Hv2, abs_balance_CreateAccount, Hv1.
Qed.
End rules.

(** ** The transition *)
Section transition_ok.
Context {S : Type} {DB : StateDB S} {CR : Crypto} {CK : CryptoOk} {SL : StateLaws S}.
Variable B : Z.
Variable ctx : Context S.
Variable cfg : Config.
Variable msg : Message.
Variable fuel : nat.
Hypothesis HB : B < 2 ^ 256.
Hypothesis Hctx : context_ok ctx.
Hypothesis Hcfg : DisableGasMetering cfg = false.

(** A message as the transaction pool and the block validator let it through:
    fields of their widths, and gas below the bound of the machine. *)
Definition message_ok : Prop :=
  Common.is_array 20 (msg_From msg) /\ from_option (Common.is_array 20) True (msg_To msg) /\
  is_bytes (msg_Data msg) /\ zlen (msg_Data msg) < 2 ^ 63 /\ word (msg_Value msg) /\
  0 <= msg_GasPrice msg /\ 0 <= msg_Gas msg < max_gas.
Hypothesis Hmsg : message_ok.
Hypothesis Hfuel : msg_Gas msg < Z.of_nat fuel.

Abbreviation mgas := (msg_Gas msg).
Abbreviation price := (msg_GasPrice msg).

(** [n] units of gas are paid for and not yet paid back. *)
Definition escrow (n : Z) (w : World S) : Prop := world_ok (B - n * price) w.

Lemma escrow_weaken n w : 0 <= n -> escrow n w -> world_ok B w.
Proof. intros ?. apply world_ok_mono. destruct Hmsg as (_&_&_&_&_&?&_). nia. Qed.

(** After an error the funds bought with are gone, and the pool has not grown. *)
Definition aborted_st (pool : Z) (d : Z) (st : ST S) : Prop :=
  world_ok B st.(st_world) /\ st.(gp) <= pool /\ depth st.(st_world) = d.

Lemma stwp_from n (Q : Address -> ST S -> Prop) R p gs ig w :
  escrow n w ->
  (forall w', escrow n w' -> depth w' = depth w ->
     (forall b, abs_balance (view w'.(statedb)) b = abs_balance (view w.(statedb)) b) ->
     Q (msg_From msg) (Build_ST p gs ig w')) ->
  stwp (from msg) Q R (Build_ST p gs ig w).
Proof.
  intros Hw HQ. unfold from. 
  pose proof (stwp_touch (B - n * price) (msg_From msg)
    (fun _ st => Q (msg_From msg) st) R p gs ig w Hw HQ) as H.
  unfold stwp, mbind, SM_bind in *. simpl.
  destruct (st_get _ _) as [[[]| | |] ?]; try done.
Qed.

Lemma stwp_AddBalance n k a (Q : unit -> ST S -> Prop) R p gs ig w :
  escrow n w -> 0 <= k ->
  (forall w', escrow (n - k) w' -> depth w' = depth w ->
     refund (view w'.(statedb)) = refund (view w.(statedb)) -> Q tt (Build_ST p gs ig w')) ->
  stwp (st_do (AddBalance a (k * price))) Q R (Build_ST p gs ig w).
Proof.
  intros Hw Hk HQ. destruct Hmsg as (_&_&_&_&_&?&_).
  eapply (stwp_do (B - n * price) (B - (n - k) * price)); [apply law_AddBalance|done| |].
  - replace (B - (n - k) * price) with (B - n * price + k * price) by lia.
    apply view_ok_add; [apply Hw|nia].
  - intros w' ?? Hv. apply HQ; [done|done|]. by rewrite Hv.
Qed.

Lemma buyGas_ok (Q : unit -> ST S -> Prop) pool w :
  escrow 0 w ->
  (forall w', escrow mgas w' -> depth w' = depth w -> mgas <= pool ->
     Q tt (Build_ST (pool - mgas) mgas mgas w')) ->
  stwp (buyGas msg) Q (aborted_st pool (depth w)) (Build_ST pool 0 0 w).
Proof.
  intros Hw HQ. destruct Hmsg as (_&_&_&_&_&Hp&Hg). unfold max_gas in *.
  assert (Habort : forall w', escrow 0 w' -> depth w' = depth w ->
    aborted_st pool (depth w) (Build_ST pool 0 0 w')).
  { intros w' Hw' Hd. split_and!; [by apply (escrow_weaken 0)|simpl; lia|done]. }
  unfold buyGas. destruct (Big.BitLen mgas >? 64); [by apply Habort|].
  apply stwp_bind, (stwp_from 0); [done|]. intros w1 Hw1 Hd1 _. apply stwp_bind.
  eapply stwp_get; [apply law_GetBalance|done|]. intros w2 Hw2 Hd2 Hv2. cbv beta.
  destruct (_ <? _) eqn:Hbal; [by apply Habort; [|congruence]|]. bool_to_prop.
  apply stwp_bind. unfold stwp at 1. simpl. unfold SubGas.
  destruct (pool <? mgas) eqn:Hpool; [by apply Habort; [|congruence]|]. bool_to_prop.
  do 4 (apply stwp_bind; unfold stwp at 1; simpl).
  rewrite Big.Uint64_small, u64_small by lia.
  eapply (stwp_do _ (B - mgas * price)); [apply law_SubBalance|exact Hw2| |].
  - replace (B - mgas * price) with (B - 0 * price - mgas * price) by lia.
    apply view_ok_sub; [apply Hw2|]. rewrite Hv2. nia.
  - intros w3 Hw3 Hd3 _. apply HQ; [done|congruence|done].
Qed.

Lemma preCheck_ok (Q : unit -> ST S -> Prop) pool w :
  escrow 0 w ->
  (forall w', escrow mgas w' -> depth w' = depth w -> mgas <= pool ->
     Q tt (Build_ST (pool - mgas) mgas mgas w')) ->
  stwp (preCheck msg) Q (aborted_st pool (depth w)) (Build_ST pool 0 0 w).
Proof.
  intros Hw HQ. unfold preCheck. apply stwp_bind, (stwp_from 0); [done|].
  intros w1 Hw1 Hd1 _. rewrite <- Hd1. apply stwp_bind. destruct (msg_CheckNonce msg).
  - apply stwp_bind. eapply stwp_get; [apply law_GetNonce|done|]. intros w2 Hw2 Hd2 Hv2. cbv beta.
    case_match; [|rewrite <- Hd2].
    + split_and!; [by apply (escrow_weaken 0)|simpl; lia|done].
    + apply buyGas_ok; [done|]. intros. apply HQ; [done|congruence|done].
  - apply buyGas_ok; [done|]. intros. apply HQ; [done|congruence|done].
Qed.

(** The run of the machine leaves the escrow alone and does not create gas. *)
Lemma execute_ok (m : SM (ST S) sterror (bytes * option vmerror)) (run : WM S (bytes * Z * option vmerror))
    (Q : bytes * option vmerror -> ST S -> Prop) R p g ig w n :
  m = ('(ret, g, vmerr) ← st_call run; _ ← set_gas g; mret (ret, vmerr)) ->
  run_call (B - n * price) run g w -> escrow n w ->
  (forall ret err g' w', 0 <= g' <= g -> escrow n w' -> depth w' = depth w ->
     Q (ret, err) (Build_ST p g' ig w')) ->
  stwp m Q R (Build_ST p g ig w).
Proof.
  intros -> Hr Hw HQ. apply stwp_bind. unfold stwp at 1, st_call. unfold run_call in Hr. simpl.
  destruct (run w) as [[[[ret g'] err]| | |] w']; try done.
  destruct Hr as (?&?&?&Hl&?). unfold stwp. simpl. apply HQ; [done| |apply Hl].
  by apply (later_ok _ w).
Qed.

Lemma execute_create_ok (m : SM (ST S) sterror (bytes * option vmerror))
    (run : WM S (bytes * Address * Z * option vmerror))
    (Q : bytes * option vmerror -> ST S -> Prop) R p g ig w n :
  m = ('(ret, _, g, vmerr) ← st_call run; _ ← set_gas g; mret (ret, vmerr)) ->
  run_create (B - n * price) (msg_From msg) run g w -> escrow n w ->
  (forall ret err g' w', 0 <= g' <= g -> escrow n w' -> depth w' = depth w ->
     Q (ret, err) (Build_ST p g' ig w')) ->
  stwp m Q R (Build_ST p g ig w).
Proof.
  intros -> Hr Hw HQ. apply stwp_bind. unfold stwp at 1, st_call. unfold run_create in Hr. simpl.
  destruct (run w) as [[[[[ret a] g'] err]| | |] w']; try done.
  destruct Hr as (?&?&?&Hl&_). unfold stwp. simpl. apply HQ; [done| |apply Hl].
  by apply (later_ok _ w).
Qed.

(** [to]: the recipient exists from here on. *)
Lemma stwp_to n t (Q : Address -> ST S -> Prop) R p gs ig w :
  msg_To msg = Some t -> escrow n w ->
  (forall w', escrow n w' -> depth w' = depth w -> Q t (Build_ST p gs ig w')) ->
  stwp (to msg) Q R (Build_ST p gs ig w).
Proof.
  intros Ht Hw HQ. unfold to. rewrite Ht.
  pose proof (stwp_touch (B - n * price) t (fun _ st => Q t st) R p gs ig w Hw
    (fun w' H1 H2 _ => HQ w' H1 H2)) as H.
  unfold stwp, mbind, SM_bind in *. simpl.
  destruct (st_get _ _) as [[[]| | |] ?]; try done.
Qed.

Lemma refundGas_ok (Q : unit -> ST S -> Prop) R p g w :
  0 <= g <= mgas -> escrow mgas w ->
  (forall r w', 0 <= r <= (mgas - g) / 2 -> escrow (mgas - g - r) w' -> depth w' = depth w ->
     Q tt (Build_ST (p + (g + r)) (g + r) mgas w')) ->
  stwp (refundGas msg) Q R (Build_ST p g mgas w).
Proof.
  intros Hg Hw HQ. destruct Hmsg as (_&_&_&_&_&Hp&Hm). unfold max_gas in *.
  unfold refundGas. apply stwp_bind, (stwp_from mgas); [done|]. intros w1 Hw1 Hd1 _.
  apply stwp_bind. unfold stwp at 1. simpl. apply stwp_bind.
  apply (stwp_AddBalance mgas g); [done|lia|]. intros w2 Hw2 Hd2 Hr2.
  do 3 (apply stwp_bind; unfold stwp at 1; simpl). unfold gasUsed. simpl.
  rewrite law_GetRefund by apply Hw2. pose proof Hw2 as (Hi&(_&_&Href)&_).
  set (half := Big.Div _ _).
  assert (Hhalf : half = (mgas - g) / 2) by done.
  assert (0 <= half) by (rewrite Hhalf; apply Z.div_pos; lia).
  rewrite <- Hhalf in HQ. set (r := BigMin _ _).
  assert (Hr : 0 <= r <= half) by (subst r; unfold BigMin; case_match; bool_to_prop; lia).
  assert (half <= mgas) by (rewrite Hhalf; apply Z.div_le_upper_bound; lia).
  rewrite Big.Uint64_small, u64_small by lia.
  assert (Hend : forall w3, escrow (mgas - g) w3 -> depth w3 = depth w ->
    stwp (_ ← st_do (AddBalance (msg_From msg) (r * price)); pool ← gets gp; g ← gets st_gas;
          set_gp (AddGas pool g)) Q R (Build_ST p (g + r) mgas w3)).
  { intros w3 Hw3 Hd3. apply stwp_bind, (stwp_AddBalance (mgas - g) r); [done|lia|].
    intros w4 Hw4 Hd4 _. unfold stwp. simpl. apply HQ; [done|done|congruence]. }
  apply stwp_bind. destruct (half >? _) eqn:Hlt.
  - unfold stwp at 1. simpl. apply Hend; [|simpl; congruence].
    destruct (law_poke_refund (r * price) _ Hi) as [Hv' Hi'].
    split_and!; [done| |apply Hw2]. simpl. rewrite Hv'. apply view_ok_refund; [apply Hw2|nia].
  - unfold stwp at 1. simpl. apply Hend; [done|congruence].
Qed.

(** What [TransitionDb] promises when it succeeds. *)
Definition transition_post (pool : Z) (w : World S) (r : bytes * Z * Z) (st : ST S) : Prop :=
  let '(ret, required, used) := r in
  mgas <= pool /\
  IntrinsicGas (msg_Data msg) (MessageCreatesContract msg) <= required <= mgas /\
  required - required / 2 <= used <= required /\
  st.(gp) = pool - used /\ world_ok B st.(st_world) /\ depth st.(st_world) = depth w.

(** The end of the transition, once the machine has run. *)
Lemma settle_ok ret (vmerr : option vmerror) pool g w w0 :
  0 <= g -> g + IntrinsicGas (msg_Data msg) (MessageCreatesContract msg) <= mgas ->
  mgas <= pool -> escrow mgas w -> depth w = depth w0 ->
  stwp (if bool_decide (vmerr = Some ErrInsufficientBalance) then throw st_ErrInsufficientBalance
        else
          requiredGas ← gets gasUsed;
          _ ← refundGas msg;
          used ← gets gasUsed;
          _ ← st_do (AddBalance (Coinbase ctx) (used * msg_GasPrice msg));
          used ← gets gasUsed;
          mret (ret, requiredGas, used))
    (transition_post pool w0) (aborted_st pool (depth w0)) (Build_ST (pool - mgas) g mgas w).
Proof.
  intros Hg Hig Hpool Hw Hd. pose proof (IntrinsicGas_nonneg (msg_Data msg) (MessageCreatesContract msg)).
  case_bool_decide.
  { split_and!; [by apply (escrow_weaken mgas); [lia|]|simpl; lia|done]. }
  apply stwp_bind. unfold stwp at 1. simpl. unfold gasUsed at 1. simpl.
  apply stwp_bind, refundGas_ok; [lia|done|]. intros r w1 Hr Hw1 Hd1.
  apply stwp_bind. unfold stwp at 1. simpl. unfold gasUsed at 1. simpl. apply stwp_bind.
  assert (mgas - g = 2 * ((mgas - g) / 2) + (mgas - g) mod 2) by (apply Z.div_mod; lia).
  pose proof (Z.mod_pos_bound (mgas - g) 2).
  apply (stwp_AddBalance (mgas - g - r) (mgas - (g + r))); [done|lia|]. intros w2 Hw2 Hd2 _.
  unfold stwp. simpl. unfold gasUsed. split_and!; simpl; try lia.
  apply (escrow_weaken (mgas - g - r - (mgas - (g + r)))); [lia|done].
Qed.

Lemma TransitionDb_ok pool w :
  world_ok B w ->
  stwp (TransitionDb ctx cfg msg fuel) (transition_post pool w) (aborted_st pool (depth w))
    (Build_ST pool 0 0 w).
Proof.
  intros Hw. pose proof Hmsg as (Hfrom&Hto&Hdata&Hlen&Hval&Hp&Hm). unfold TransitionDb.
  apply stwp_bind, preCheck_ok. { unfold escrow. by rewrite Z.mul_0_l, Z.sub_0_r. }
  intros w1 Hw1 Hd1 Hpool. apply stwp_bind, (stwp_from mgas); [done|]. intros w2 Hw2 Hd2 _.
  set (ig := IntrinsicGas _ _).
  assert (Hig : 0 <= ig) by apply IntrinsicGas_nonneg.
  assert (Habort : aborted_st pool (depth w) (Build_ST (pool - mgas) mgas mgas w2)).
  { split_and!; [by apply (escrow_weaken mgas); [lia|]|simpl; lia|simpl; congruence]. }
  rewrite Big.BitLen_gt by lia. destruct (_ <=? _) eqn:Hbits; [done|]. bool_to_prop.
  rewrite Big.Uint64_small by lia. apply stwp_bind. unfold useGas. apply stwp_bind.
  unfold stwp at 1. simpl. destruct (mgas <? ig) eqn:Hlt; [done|]. bool_to_prop.
  unfold max_gas in *. unfold stwp at 1. simpl. rewrite u64_small by lia.
  assert (Hmach := machine_ok (B - mgas * price) ltac:(nia) ctx cfg Hctx Hcfg fuel).
  apply stwp_bind. destruct (MessageCreatesContract msg) eqn:Hcr.
  - apply stwp_bind. unfold stwp at 1. simpl.
    eapply (execute_create_ok _ _ _ _ _ _ _ _ mgas); [done| |done|].
    + apply (ok_Create _ _ _ Hmach); try done. unfold max_gas. lia.
    + intros ret err g' w3 Hg' Hw3 Hd3. subst ig. rewrite <- Hcr in *.
      apply settle_ok; [lia|lia|done|done|congruence].
  - apply stwp_bind. eapply stwp_get; [apply law_GetNonce|done|]. intros w3 Hw3 Hd3 _. cbv beta.
    apply stwp_bind. eapply stwp_do; [apply law_SetNonce|done|apply view_ok_SetNonce; [apply Hw3|apply u64_range]|].
    intros w4 Hw4 Hd4 _. unfold MessageCreatesContract in Hcr.
    destruct (msg_To msg) as [t|] eqn:Ht; [|done].
    apply stwp_bind, (stwp_to mgas t); [done|done|]. intros w5 Hw5 Hd5.
    apply stwp_bind. unfold stwp at 1. simpl.
    eapply (execute_ok _ _ _ _ _ _ _ _ mgas); [done| |done|].
    + apply (ok_Call _ _ _ Hmach); try done. unfold max_gas. lia.
    + intros ret err g' w6 Hg' Hw6 Hd6.
      apply settle_ok; [lia| |done|done|congruence].
      unfold MessageCreatesContract. rewrite Ht. fold ig. lia.
Qed.
End transition_ok.

(** ** The checks before execution *)
Section checks.
Context {S : Type} {DB : StateDB S} {CR : Crypto} {SL : StateLaws S}.

Lemma st_get_run {A} (g : S -> A * S) val (st : ST S) :
  reads view inv g val -> inv st.(st_world).(statedb) ->
  exists s', st_get g st = (Done (val (view st.(st_world).(statedb))),
      Build_ST st.(gp) st.(st_gas) st.(initialGas) (with_statedb st.(st_world) s')) /\
    view s' = view st.(st_world).(statedb) /\ inv s'.
Proof.
  intros Hg Hi. destruct (reads_run _ _ _ Hg Hi) as (s'&Hs'&Hv&Hk&_). exists s'.
  unfold st_get. by rewrite Hs'.
Qed.

(** [from] leaves balances and nonces alone. *)
Lemma from_run msg (st : ST S) : inv st.(st_world).(statedb) ->
  exists s', from msg st = (Done (msg_From msg),
      Build_ST st.(gp) st.(st_gas) st.(initialGas) (with_statedb st.(st_world) s')) /\ inv s' /\
    (forall a, abs_balance (view s') a = abs_balance (view st.(st_world).(statedb)) a) /\
    abs_nonce (view s') (msg_From msg) = abs_nonce (view st.(st_world).(statedb)) (msg_From msg).
Proof.
  intros Hi. unfold from. destruct (st_get_run _ _ st (law_Exist (msg_From msg)) Hi) as (s1&He&Hv1&Hi1).
  unfold mbind, SM_bind at 1. rewrite He. case_bool_decide as Hex; simpl.
  - exists s1. split_and!; try done; [intros a|]; by rewrite Hv1.
  - destruct (law_CreateAccount (msg_From msg) s1 Hi1) as [Hv2 [Hi2 _]].
    exists (CreateAccount (msg_From msg) s1). split_and!; try done.
    + intros a. by rewrite Hv2, abs_balance_CreateAccount, Hv1.
    + rewrite Hv2. unfold abs_nonce. simpl. rewrite fupd_eq. simpl.
      destruct (accounts (view (statedb (st_world st))) (msg_From msg)); [|done].
      by destruct Hex.
Qed.

(** The error of the checks, in their order. *)
Definition pre_error (msg : Message) (v : View) (pool : Z) : option sterror :=
  let a := msg_From msg in
  if msg_CheckNonce msg && negb (abs_nonce v a =? msg_Nonce msg)
  then Some (errInvalidNonce (msg_Nonce msg) (abs_nonce v a))
  else if 2 ^ 64 <=? msg_Gas msg then Some st_ErrOutOfGas
  else if abs_balance v a <? msg_Gas msg * msg_GasPrice msg then Some errInsufficientBalanceForGas
  else if pool <? msg_Gas msg then Some ErrGasLimitReached
  else None.

(** What the checks leave: on an error nothing is bought. *)
Definition checked_result (msg : Message) (pool : Z) (v : View) (err : option sterror)
    (r : outcome sterror unit * ST S) : Prop :=
  let '(o, st) := r in
  match err with
  | Some e => o = Error e /\ st.(gp) = pool /\
      forall a, abs_balance (view st.(st_world).(statedb)) a = abs_balance v a
  | None => o = Done tt /\ st.(gp) = pool - msg_Gas msg /\ st.(st_gas) = msg_Gas msg /\
      st.(initialGas) = msg_Gas msg /\
      forall a, abs_balance (view st.(st_world).(statedb)) a =
        abs_balance v a - (if decide (a = msg_From msg) then msg_Gas msg * msg_GasPrice msg else 0)
  end.

Lemma buyGas_run msg pool (w : World S) v : inv w.(statedb) -> 0 <= msg_Gas msg ->
  (forall a, abs_balance (view w.(statedb)) a = abs_balance v a) ->
  checked_result msg pool v
    (if 2 ^ 64 <=? msg_Gas msg then Some st_ErrOutOfGas
     else if abs_balance v (msg_From msg) <? msg_Gas msg * msg_GasPrice msg
          then Some errInsufficientBalanceForGas
     else if pool <? msg_Gas msg then Some ErrGasLimitReached else None)
    (buyGas msg (Build_ST pool 0 0 w)).
Proof.
  intros Hi Hg Hv. unfold buyGas. rewrite Big.BitLen_gt, Z.abs_eq by lia.
  destruct (2 ^ 64 <=? msg_Gas msg) eqn:Hbits; [done|]. bool_to_prop. cbv zeta.
  destruct (from_run msg (Build_ST pool 0 0 w) Hi) as (s1&Hf&Hi1&Hb1&_). simpl in Hf, Hb1.
  unfold mbind, SM_bind at 1. rewrite Hf.
  destruct (st_get_run _ _ (Build_ST pool 0 0 (with_statedb w s1)) (law_GetBalance (msg_From msg)) Hi1)
    as (s2&Hr&Hv2&Hi2). simpl in Hr, Hv2. unfold SM_bind at 1. rewrite Hr, Hb1, Hv.
  assert (Hb : forall a, abs_balance (view s2) a = abs_balance v a).
  { intros a. by rewrite Hv2, Hb1, Hv. }
  destruct (abs_balance v (msg_From msg) <? _); [by split_and!|].
  unfold SM_bind at 1. simpl. unfold SubGas. destruct (pool <? msg_Gas msg); [by split_and!|].
  rewrite Big.Uint64_small by lia. cbn. rewrite u64_small by lia.
  destruct (law_SubBalance (msg_From msg) (msg_Gas msg * msg_GasPrice msg) s2 Hi2) as [Hv3 _].
  split_and!; try done. intros a. rewrite Hv3. unfold abs_SubBalance. rewrite abs_balance_upd.
  case_decide as Ha; [|rewrite Hb; lia]. subst a. simpl. by rewrite acc_balance_get_or_new, Hb.
Qed.

(** The checks before execution fail exactly in these cases, in this order:
    wrong nonce (when it is checked), gas of more than 64 bits, balance below the
    price of the gas, block gas below the gas; then nothing is bought and no balance
    changes.  Otherwise the sender pays for the gas, and the block's pool and the
    gas counters are set to match. *)
Lemma preCheck_outcome msg pool (w : World S)
    (Hinv : inv w.(statedb)) (Hgas : 0 <= msg_Gas msg) :
  checked_result msg pool (view w.(statedb)) (pre_error msg (view w.(statedb)) pool)
    (preCheck msg (Build_ST pool 0 0 w)).
Proof.
  unfold preCheck, pre_error.
  destruct (from_run msg (Build_ST pool 0 0 w) Hinv) as (s1&Hf&Hi1&Hb1&Hn1). simpl in Hf, Hb1, Hn1.
  unfold mbind, SM_bind at 1. rewrite Hf. destruct (msg_CheckNonce msg); cbn [andb].
  2: by apply (buyGas_run msg pool (with_statedb w s1)).
  destruct (st_get_run _ _ (Build_ST pool 0 0 (with_statedb w s1)) (law_GetNonce (msg_From msg)) Hi1)
    as (s2&Hr&Hv2&Hi2). simpl in Hr, Hv2. unfold SM_bind. rewrite Hr, Hn1.
  assert (Hb2 : forall a, abs_balance (view s2) a = abs_balance (view (statedb w)) a).
  { intros a. by rewrite Hv2. }
  destruct (negb _); [by split_and!|]. by apply (buyGas_run msg pool (with_statedb w s2)).
Qed.
End checks.

(** ** Theorems *)

(** C1: applying a message is safe and accounted for.  With the machine's bound on
    the gas it returns and does not panic.  If it succeeds, the gas of the
    message was in the pool; the gas used is at most the gas required, at least half of
    it, and within the gas of the message, which covers the intrinsic gas; the pool loses exactly the gas used; no funds are
    created: balances are non-negative and their sum stays within the supply, the
    fees paid to the coinbase and the refunds included.  If it fails, the pool has
    not grown and the sum of balances is still bounded. *)
Theorem TransitionDb_accounted {S : Type} {DB : StateDB S} {CR : Crypto} {CK : CryptoOk}
    {SL : StateLaws S} B (ctx : Context S) cfg msg fuel pool w
    (HB : B < 2 ^ 256) (Hctx : context_ok ctx) (Hcfg : DisableGasMetering cfg = false)
    (Hmsg : message_ok msg) (Hfuel : msg_Gas msg < Z.of_nat fuel) (Hw : world_ok B w) :
  match TransitionDb ctx cfg msg fuel (Build_ST pool 0 0 w) with
  | (Done (ret, required, used), st') =>
      msg_Gas msg <= pool /\
      IntrinsicGas (msg_Data msg) (MessageCreatesContract msg) <= required <= msg_Gas msg /\
      required - required / 2 <= used <= required /\
      st'.(gp) = pool - used /\ world_ok B st'.(st_world) /\ depth st'.(st_world) = depth w
  | (Error _, st') =>
      st'.(gp) <= pool /\ world_ok B st'.(st_world) /\ depth st'.(st_world) = depth w
  | _ => False
  end.
Proof.
  pose proof (TransitionDb_ok B ctx cfg msg fuel HB Hctx Hcfg Hmsg Hfuel pool w Hw) as H.
  unfold stwp in H. destruct (TransitionDb _ _ _ _ _) as [[[[ret required] used]|e| |] st']; try done.
  by destruct H as (?&?&?).
Qed.

(** The intrinsic gas of a message is its base fee plus a fee per byte of
    data, 68 for a non-zero byte and 4 for a zero byte. *)
Lemma IntrinsicGas_per_byte data create :
  IntrinsicGas data create =
  (if create then Params.TxGasContractCreation else Params.TxGas) +
  foldr (fun b n => (if b =? 0 then Params.TxDataZeroGas else Params.TxDataNonZeroGas) + n) 0 data.
Proof. apply IntrinsicGas_sum. Qed.

(** ** Instances *)

(** Alice pays Bob's contract 5 units. *)
Definition payment : Message :=
  {| msg_From := alice; msg_To := Some bob; msg_GasPrice := 2; msg_Gas := 100000; msg_Value := 5;
     msg_Nonce := 0; msg_CheckNonce := true; msg_Data := [1; 0; 2] |}.

Lemma payment_ok : message_ok payment.
Proof.
  split; [apply (Common.is_array_be_fixed 20)|]. split; [apply (Common.is_array_be_fixed 20)|].
  split; [by apply (bool_decide_unpack _)|]. split; [by vm_compute|]. split; [by vm_compute|].
  by vm_compute.
Qed.

Lemma TransitionDb_accounted_witness :
  match TransitionDb ctx0 cfg0 payment (Z.to_nat 100001) (Build_ST 1000000 0 0 world0) with
  | (Done (ret, required, used), st') =>
      msg_Gas payment <= 1000000 /\
      IntrinsicGas (msg_Data payment) (MessageCreatesContract payment) <= required <= msg_Gas payment /\
      required - required / 2 <= used <= required /\
      st'.(gp) = 1000000 - used /\ world_ok supply st'.(st_world) /\
      depth st'.(st_world) = depth world0
  | (Error _, st') =>
      st'.(gp) <= 1000000 /\ world_ok supply st'.(st_world) /\ depth st'.(st_world) = depth world0
  | _ => False
  end.
Proof.
  apply (TransitionDb_accounted supply ctx0 cfg0 payment).
  - by vm_compute.
  - exact ctx0_ok.
  - reflexivity.
  - exact payment_ok.
  - simpl. lia.
  - exact world0_ok.
Defined.

(** ** Deviations *)

(** C40: [refundGas] multiplies the refund by the gas price in place: with a
    refund counter of 10, which is below half of the gas used, and a gas price of 2,
    the counter of the state itself is 20 afterwards. *)
Lemma refundGas_overwrites_counter :
  let w := with_statedb world0 (AddRefund 10 genesis) in
  GetRefund w.(statedb) = 10 /\
  GetRefund (snd (refundGas payment (Build_ST 0 0 100000 w))).(st_world).(statedb) = 20.
Proof. by vm_compute. Qed.
