(* ===== verification/StateProcessorOk.v ===== *)
(** Running a block is safe and accounted for: [core/state_processor.go] on top of the
    signatures, the message transition, the machine and the state database. *)
From S2P Require Import Prelude GoBig CommonMath CommonTypes Params Rlp RlpDecode VmTypes StateSpec VmLogic VmInterp VmExec VmStep.
From S2P Require Import StateDB StateCommit StateDBLaws BlockState.
From S2P Require Import StateTransition TxTypes BlockTypes Consensus StateProcessor ChainDb ChainDbOk.
From S2P Require Import TxSigning StateTransitionOk Concrete.

(** ** Senders *)
Section senders.
Context {CR : Crypto} {CK : CryptoOk}.

Lemma key_address_array pub : Common.is_array 20 (key_address pub).
Proof.
  unfold key_address. split.
  - by rewrite zlen_gocopy.
  - apply is_bytes_gocopy; [apply Common.is_array_zeroAddress|]. apply is_bytes_zdrop, Keccak256_size.
Qed.

(** Recovering a sender does not panic. *)
Lemma derived_total s tx : (exists a, derived s tx = Done a /\ Common.is_array 20 a) \/
  exists e, derived s tx = Error e.
Proof.
  assert (forall omaha d h v, (exists pub,
      (if negb (ValidateSignatureValues v (Tx.R d) (Tx.S d) omaha) then Error Tx.ErrInvalidSig
       else Tx.recoverKey h (Tx.R d) (Tx.S d) v) = Done pub) \/
    exists e, (if negb (ValidateSignatureValues v (Tx.R d) (Tx.S d) omaha) then Error Tx.ErrInvalidSig
       else Tx.recoverKey h (Tx.R d) (Tx.S d) v) = Error e) as Hk.
  { intros omaha d h v. destruct (ValidateSignatureValues v (Tx.R d) (Tx.S d) omaha) eqn:E; simpl; [|eauto].
    apply ValidateSignatureValues_spec in E as [Hr _]. assert (secp256k1_N < 2 ^ 256) by done.
    rewrite recoverKey_spec by (unfold in_range in Hr; lia). destruct (Ecrecover _ _); [|eauto]. case_bool_decide; eauto. }
  assert (forall s' omaha, (exists pub, Tx.plain_PublicKey s' omaha tx = Done pub) \/ exists e, Tx.plain_PublicKey s' omaha tx = Error e) as Hplain.
  { intros s' omaha. unfold Tx.plain_PublicKey. destruct (_ >? _); [eauto|apply Hk]. }
  assert ((exists pub, Tx.PublicKey s tx = Done pub) \/ exists e, Tx.PublicKey s tx = Error e) as Hp.
  { destruct s; simpl; [|apply Hplain..]. destruct (negb _); [apply Hplain|]. destruct (negb _); [eauto|apply Hk]. }
  unfold derived. destruct Hp as [[pub ->]|[e ->]]; [left|right; eauto]. exists (key_address pub).
  split; [done|apply key_address_array].
Qed.
End senders.

(** ** Blocks *)

Section processing.
Context {S : Type} {DB : StateDB S} {CR : Crypto} {CK : CryptoOk} {SL : StateLaws S} {BS : BlockState S} {BL : BlockLaws S}.
Variable chainId : option Z.
Variable GetHeader : Hash -> Z -> option Types.Header.
Variable cfg : Config.
Variable fuel : nat.
Hypothesis Hcfg : DisableGasMetering cfg = false.

(** A transaction in the ranges of the machine, whose cached sender is its own. *)
Definition tx_ok (tx : Transaction) : Prop :=
  let d := Tx.data tx in
  coherent tx /\ from_option (Common.is_array 20) True (Tx.Recipient d) /\ is_bytes (Tx.Payload d) /\
  zlen (Tx.Payload d) < 2 ^ 63 /\ word (Tx.Amount d) /\ word (Tx.Price d) /\ 0 <= Tx.GasLimit d < max_gas /\
  Tx.GasLimit d < Z.of_nat fuel.

Definition pwp {A} (m : SM (Proc S) procerror A) (Q : A -> Proc S -> Prop) (R : Proc S -> Prop) (p : Proc S) : Prop :=
  match m p with
  | (Done a, p') => Q a p'
  | (Error _, p') => R p'
  | _ => False
  end.
Lemma pwp_bind {A C} (m : SM (Proc S) procerror A) (k : A -> SM (Proc S) procerror C) Q R p :
  pwp m (fun a => pwp (k a) Q R) R p -> pwp (m ≫= k) Q R p.
Proof. unfold pwp, mbind, SM_bind. by destruct (m p) as [[]]. Qed.
Lemma pwp_mono {A} (m : SM (Proc S) procerror A) (Q Q' : A -> Proc S -> Prop) (R R' : Proc S -> Prop) p :
  pwp m Q R p -> (forall a p', Q a p' -> Q' a p') -> (forall p', R p' -> R' p') -> pwp m Q' R' p.
Proof. unfold pwp. intros H HQ HR. destruct (m p) as [[]]; auto. Qed.

(** The state is well formed and holds at most [B]. *)
Definition state_ok (B : Z) (s : S) : Prop := inv s /\ view_ok B (view s).

Lemma view_ok_smaller B v v' : view_ok B v -> 0 <= refund v' ->
  (forall a, accounts v' a = accounts v a \/ accounts v' a = None) -> view_ok B v'.
Proof.
  intros (Ha & Hs & Hr) Hr' Hacc. split_and!; [| |done].
  - intros a o Ho. destruct (Hacc a) as [E|E]; rewrite E in Ho; [by eapply Ha|done].
  - eapply supply_le_mono; [|done]. intros a. unfold abs_balance. destruct (Hacc a) as [-> | ->]; [done|]. simpl.
    destruct (accounts v a) as [o|] eqn:E; [|done]. by apply (Ha a o E).
Qed.

Lemma intermediate_root_ok B R p : B < 2 ^ 256 -> state_ok B (pr_state p) ->
  pwp intermediate_root (fun h p' => Common.is_array 32 h /\ state_ok B (pr_state p') /\
    logs (view (pr_state p')) = logs (view (pr_state p)) /\ pr_pool p' = pr_pool p /\ pr_used p' = pr_used p) R p.
Proof.
  intros HB [Hi Hv]. destruct (law_IntermediateRoot B (pr_state p) Hi Hv HB) as (h & s' & E & Hh & Hi' & Hacc & Hr & Hl & _).
  unfold pwp, intermediate_root. rewrite E. split_and!; try done. split; [done|].
  apply (view_ok_smaller B (view (pr_state p))); [done|simpl; lia|]. intros a. simpl. destruct (Hacc a) as [E'|[E' _]]; auto.
Qed.

Variable h : Types.Header.
Hypothesis Hcoinbase : Common.is_array 20 (Types.Coinbase h).

Lemma ancestor_hash_array n k x : forall o, ancestor_hash n GetHeader o k = Done x -> Common.is_array 32 x.
Proof.
  induction n as [|n IH]; intros o; simpl.
  - destruct o; [done|]. intros [= <-]. apply Common.is_array_zeroHash.
  - destruct o as [o|]; [|intros [= <-]; apply Common.is_array_zeroHash]. destruct (_ =? _); [|apply IH].
    intros [= <-]. apply Hash_array.
Qed.

Lemma context_processing_ok msg : Common.is_array 20 (msg_From msg) -> word (msg_GasPrice msg) ->
  context_ok (NewTiltVMContext (S := S) GetHeader msg h None).
Proof.
  intros Hf Hp. split_and!; try done. intros n. simpl. unfold GetHashFn.
  destruct (ancestor_hash _ _ _ _) eqn:E; [by eapply ancestor_hash_array|apply Common.is_array_zeroHash..].
Qed.

(** The message of a transaction. *)
Definition tx_message (a : Address) (d : Tx.txdata) : Message :=
  {| msg_From := a; msg_To := Tx.Recipient d; msg_GasPrice := Tx.Price d; msg_Gas := Tx.GasLimit d;
     msg_Value := Tx.Amount d; msg_Nonce := Tx.AccountNonce d; msg_CheckNonce := true; msg_Data := Tx.Payload d |}.

Lemma message_ok_run tx (R : Proc S -> Prop) p : tx_ok tx -> R p ->
  pwp (message chainId tx) (fun msg p' => p' = p /\ exists a, Common.is_array 20 a /\ msg = tx_message a (Tx.data tx)) R p.
Proof.
  intros [Hc _] HR. unfold pwp, message, Tx.AsMessage.
  destruct (Sender_derived (Tx.MakeSigner chainId) tx Hc) as (Hs & Hd & _).
  { unfold Tx.MakeSigner, Tx.NewTiltSigner. by destruct chainId. }
  destruct (Tx.Sender _ tx) as [r tx']. simpl in Hs. subst r.
  destruct (derived_total (Tx.MakeSigner chainId) tx) as [(a & -> & Ha)|(e & ->)]; [|done]. eauto.
Qed.

(** What one transaction may do to the processor. *)
Definition charged (B : Z) (p p' : Proc S) (gas : Z) : Prop :=
  state_ok B (pr_state p') /\ pr_pool p' = pr_pool p - gas /\ 10500 <= gas <= pr_pool p.
Definition failed (B : Z) (pool : Z) (p' : Proc S) : Prop := state_ok B (pr_state p') /\ pr_pool p' <= pool.

Lemma apply_message_ok B tx a p : B < 2 ^ 256 -> tx_ok tx -> Common.is_array 20 a -> state_ok B (pr_state p) ->
  let msg := tx_message a (Tx.data tx) in
  pwp (apply_message cfg fuel (NewTiltVMContext GetHeader msg h None) msg)
    (fun gas p' => charged B p p' gas /\ pr_used p' = pr_used p) (failed B (pr_pool p)) p.
Proof.
  intros HB (_ & Hto & Hb & Hl & Hamt & Hpr & Hg & Hf) Ha [Hi Hv] msg. unfold pwp, apply_message, ApplyMessage.
  set (w := {| statedb := pr_state p; depth := 0; jumpdests := ∅; ticks := 0 |}).
  assert (world_ok B w) as Hw by (split_and!; [done..|simpl; lia]).
  assert (message_ok msg) as Hm by (unfold word in Hpr; split_and!; try done; simpl; lia).
  pose proof (TransitionDb_ok B (NewTiltVMContext GetHeader msg h None) cfg msg fuel HB
    (context_processing_ok msg Ha Hpr) Hcfg Hm Hf (pr_pool p) w Hw) as H.
  unfold mbind, SM_bind, stwp in *. destruct (TransitionDb _ _ _ _ _) as [[[[ret req] used]|e| |] st]; try done; simpl.
  - destruct H as (Hpool & Hreq & Hused & Hgp & (? & ? & _) & _). split; [|done]. split_and!; [done|done| |].
    + pose proof (IntrinsicGas_sum (msg_Data msg) (MessageCreatesContract msg)) as E.
      pose proof (data_gas_nonneg (msg_Data msg)). unfold Params.TxGasContractCreation, Params.TxGas in E.
      assert (21000 <= req) by (destruct (MessageCreatesContract msg); lia).
      pose proof (Z.div_mod req 2). pose proof (Z.mod_pos_bound req 2). lia.
    + lia.
  - destruct H as ((? & ? & _) & ? & _). by split.
Qed.

(** A receipt of [tx], when [used] units of gas were used before it. *)
Definition receipt_ok (used : Z) (tx : Transaction) (r : Types.Receipt) : Prop :=
  10500 <= Types.rc_GasUsed r /\ Types.CumulativeGasUsed r = used + Types.rc_GasUsed r /\
  Types.rc_TxHash r = Tx.tx_hash tx /\ Common.is_array 32 (Types.PostState r) /\ Common.is_array 256 (Types.rc_Bloom r) /\
  forall l d, l ∈ Types.Logs r -> d = log_Address l \/ d ∈ log_Topics l -> Bloom.BloomLookup (Types.rc_Bloom r) d = true.

Fixpoint receipts_ok (used : Z) (txs : list Transaction) (rs : list Types.Receipt) : Prop :=
  match txs, rs with
  | [], [] => True
  | tx :: txs, r :: rs => receipt_ok used tx r /\ receipts_ok (used + Types.rc_GasUsed r) txs rs
  | _, _ => False
  end.

Definition gas_sum (rs : list Types.Receipt) : Z := foldr (fun r n => Types.rc_GasUsed r + n) 0 rs.

Lemma ApplyTransaction_ok B tx p : B < 2 ^ 256 -> tx_ok tx -> state_ok B (pr_state p) ->
  pwp (ApplyTransaction chainId GetHeader cfg fuel None h tx)
    (fun '(r, gas) p' => Types.rc_GasUsed r = gas /\ receipt_ok (pr_used p) tx r /\ charged B p p' gas /\
       pr_used p' = pr_used p + gas) (failed B (pr_pool p)) p.
Proof.
  intros HB Htx Hs. unfold ApplyTransaction. apply pwp_bind.
  assert (failed B (pr_pool p) p) as Hfail by (split; [done|lia]).
  eapply pwp_mono; [by apply (message_ok_run tx (failed B (pr_pool p)))| |done].
  intros msg ? (-> & a & Ha & ->). apply pwp_bind.
  eapply pwp_mono; [by apply (apply_message_ok B tx a p)| |done].
  intros gas p1 [Hc Hu]. destruct Hc as (Hs1 & Hp1 & Hg). apply pwp_bind. unfold pwp at 1. simpl. apply pwp_bind.
  eapply pwp_mono; [apply (intermediate_root_ok B (failed B (pr_pool p))); [done|exact Hs1]| |done].
  intros root p2 (Hroot & Hs2 & _ & Hp2 & Hu2). simpl in Hp2, Hu2. apply pwp_bind. unfold pwp at 1. simpl. apply pwp_bind.
  unfold pwp at 1. simpl. apply pwp_bind. unfold unwrap, pwp at 1.
  match goal with |- context [Types.CreateBloom ?rs] => destruct (CreateBloom_ok rs) as (bloom & -> & Hb & Hcov) end.
  simpl. unfold pwp. simpl. split; [done|]. split; [|split; [split_and!; [done|lia|lia|lia]|lia]].
  split_and!; simpl; try done; try lia. 
  - by rewrite Common.CopyBytes_id.
  - intros l d Hl Hd. eapply Hcov; [by left|done|done].
Qed.

Lemma process_loop_ok B b txs : B < 2 ^ 256 -> h = Types.header b -> Forall tx_ok txs -> forall i p, state_ok B (pr_state p) ->
  pwp (process_loop chainId GetHeader cfg fuel b i txs)
    (fun rs p' => receipts_ok (pr_used p) txs rs /\ state_ok B (pr_state p') /\ pr_pool p' = pr_pool p - gas_sum rs /\
       pr_used p' = pr_used p + gas_sum rs /\ 0 <= gas_sum rs /\ (0 <= pr_pool p -> 0 <= pr_pool p'))
    (failed B (pr_pool p)) p.
Proof.
  intros HB Hh. induction 1 as [|tx txs Htx _ IH]; intros i p Hs.
  { unfold pwp. simpl. split_and!; try done; lia. }
  simpl. rewrite <- Hh. apply pwp_bind. unfold pwp at 1. simpl. apply pwp_bind.
  destruct Hs as [Hi Hv]. destruct (law_StartRecord (Tx.tx_hash tx) (Types.Block_Hash b) i (pr_state p) Hi) as [Ev Hi'].
  set (p0 := set_state _ p). assert (state_ok B (pr_state p0)) as Hs0 by (split; [done|]; simpl; by rewrite Ev).
  eapply pwp_mono; [by apply (ApplyTransaction_ok B tx p0)| |done].
  intros [r gas] p1 (Hr & Hrok & (Hs1 & Hp1 & Hg) & Hu1). simpl in *. apply pwp_bind.
  eapply pwp_mono; [by apply (IH (i + 1) p1)| |].
  - intros rs p2 (Hrs & Hs2 & Hp2 & Hu2 & H0 & Hpos). unfold pwp. simpl. subst gas.
    split_and!; [done|rewrite Hu1 in Hrs; by simpl in Hrs|done|lia..].
  - intros p2 [? ?]. split; [done|lia].
Qed.

(** ** Rewards *)

Definition uncle_reward (u : Types.Header) : Z :=
  (Types.Number u + 8 - Types.Number h) * Consensus.blockReward / 8.
Definition block_rewards (us : list Types.Header) : Z :=
  Consensus.blockReward + foldr (fun u n => uncle_reward u + Consensus.blockReward / 32 + n) 0 us.

Lemma reward_uncles_ok us : Forall (fun u => Types.Number h <= Types.Number u + 8) us -> forall B reward s, state_ok B s ->
  let total := foldr (fun u n => uncle_reward u + Consensus.blockReward / 32 + n) 0 us in
  exists B', state_ok B' (Consensus.reward_uncles h us reward s).2 /\ B <= B' /\
    B' + (Consensus.reward_uncles h us reward s).1 = B + reward + total /\ reward <= (Consensus.reward_uncles h us reward s).1.
Proof.
  induction 1 as [|u us Hu _ IH]; intros B reward s Hs; simpl.
  { exists B. split_and!; [apply Hs..|lia|lia|lia]. }
  destruct Hs as [Hi Hv]. set (r := Big.Div _ 8). assert (0 <= r) as Hr by (apply Z.div_pos; unfold Consensus.blockReward; lia).
  destruct (law_AddBalance (Types.Coinbase u) r s Hi) as [Ev [Hi' _]].
  destruct (IH (B + r) (reward + Big.Div Consensus.blockReward 32) (AddBalance (Types.Coinbase u) r s)) as (B' & ? & ? & E & ?).
  { split; [done|]. rewrite Ev. by apply view_ok_add. }
  exists B'. change (uncle_reward u) with r. change (Big.Div Consensus.blockReward 32) with (Consensus.blockReward / 32) in *.
  assert (0 <= Consensus.blockReward / 32) by (by vm_compute). split_and!; [done|lia|lia|lia].
Qed.

Lemma AccumulateRewards_ok us B s : Forall (fun u => Types.Number h <= Types.Number u + 8) us -> state_ok B s ->
  state_ok (B + block_rewards us) (Consensus.AccumulateRewards h us s).
Proof.
  intros Hus Hs. unfold Consensus.AccumulateRewards, block_rewards.
  destruct (reward_uncles_ok us Hus B Consensus.blockReward s Hs) as (B' & [Hi Hv] & _ & E & Hr).
  destruct (Consensus.reward_uncles _ _ _ _) as [reward s']. simpl in *.
  destruct (law_AddBalance (Types.Coinbase h) reward s' Hi) as [Ev [Hi' _]]. split; [done|]. rewrite Ev.
  rewrite Z.add_assoc, <- E. apply view_ok_add; [done|]. unfold Consensus.blockReward in Hr. lia.
Qed.

Lemma block_rewards_nonneg us : Forall (fun u => Types.Number h <= Types.Number u + 8) us -> 0 <= block_rewards us.
Proof.
  intros Hus. unfold block_rewards. assert (0 <= foldr (fun u n => uncle_reward u + Consensus.blockReward / 32 + n) 0 us).
  { induction Hus as [|u us Hu _ IH]; simpl; [lia|]. assert (0 <= uncle_reward u) by (apply Z.div_pos; unfold Consensus.blockReward; lia).
    assert (0 <= Consensus.blockReward / 32) by (by vm_compute). lia. }
  unfold Consensus.blockReward at 1. lia.
Qed.
End processing.

(** C28: running a block is safe and accounted for, from the signatures to the rewards.
    With a bound on the recursion of the machine above the gas of every transaction it
    returns and does not panic.  If it succeeds, there is one receipt per transaction, in
    order and with its hash; the gas of the receipts adds up to the gas used, the
    cumulative gas of each receipt is the sum so far, and the gas used fits the gas limit of
    the block; every receipt's bloom filter reports the addresses and topics of its logs;
    and the block creates no funds beyond its rewards.  If a transaction is refused, the
    state is still well formed and holds no more funds than before. *)
Theorem Process_accounted {S : Type} {DB : StateDB S} {CR : Crypto} {CK : CryptoOk} {SL : StateLaws S}
    {BS : BlockState S} {BL : BlockLaws S} chainId GetHeader cfg fuel (b : Types.Block) (s : S) B
    (Hcfg : DisableGasMetering cfg = false) (Hcoinbase : Common.is_array 20 (Types.Coinbase (Types.header b)))
    (Htxs : Forall (tx_ok fuel) (Types.transactions b))
    (Huncles : Forall (fun u => Types.Number (Types.header b) <= Types.Number u + 8) (Types.uncles b))
    (Hlimit : 0 <= Types.GasLimit (Types.header b)) (Hs : state_ok B s)
    (HB : B + block_rewards (Types.header b) (Types.uncles b) < 2 ^ 256) :
  match Process chainId GetHeader cfg fuel b s with
  | (Done (receipts, logs, used), p) =>
      receipts_ok 0 (Types.transactions b) receipts /\ logs = concat (map Types.Logs receipts) /\
      used = gas_sum receipts /\ 0 <= used <= Types.GasLimit (Types.header b) /\
      pr_pool p = Types.GasLimit (Types.header b) - used /\
      state_ok (B + block_rewards (Types.header b) (Types.uncles b)) (pr_state p)
  | (Error _, p) => state_ok B (pr_state p) /\ pr_pool p <= Types.GasLimit (Types.header b)
  | _ => False
  end.
Proof.
  set (h := Types.header b) in *. set (us := Types.uncles b) in *. set (limit := Types.GasLimit h) in *.
  assert (0 <= block_rewards h us) as Hrew by (by apply block_rewards_nonneg).
  unfold Process, AddGas. fold h limit. rewrite Z.add_0_l. set (p0 := Build_Proc limit s 0).
  match goal with |- context [?m p0] => enough (pwp m (fun '(rs, ls, used) p =>
    receipts_ok 0 (Types.transactions b) rs /\ ls = concat (map Types.Logs rs) /\ used = gas_sum rs /\
    0 <= used <= limit /\ pr_pool p = limit - used /\ state_ok (B + block_rewards h us) (pr_state p)) (failed B limit) p0) as X end.
  { unfold pwp in X. destruct ((process_loop _ _ _ _ _ _ _ ≫= _) p0) as [[[[rs ls] used]|e| |] p]; done. }
  apply pwp_bind. eapply pwp_mono; [apply (process_loop_ok chainId GetHeader cfg fuel Hcfg h Hcoinbase B b); [lia|done|done|exact Hs]| |done].
  intros rs p1 (Hrs & Hs1 & Hp1 & Hu1 & H0 & Hpos). simpl in Hrs, Hp1, Hu1, Hpos. apply pwp_bind. unfold finalize. apply pwp_bind.
  unfold pwp at 1. cbn [modify fst]. apply pwp_bind. fold h us.
  eapply pwp_mono; [apply (intermediate_root_ok (B + block_rewards h us)); [done|by apply AccumulateRewards_ok]| |done].
  intros root p2 (_ & Hs2 & _ & Hp2 & Hu2). unfold pwp. simpl in *. specialize (Hpos Hlimit).
  split_and!; [done|done|lia..|done].
Qed.

(** ** Instances *)

#[export] Instance toy_frame : TrieFrame (H := toy_backend).
Proof.
  split; simpl.
  - intros k v t k'. destruct (Z.eqb_spec (zlen v) 0) as [E|E].
    + apply zlen_0 in E as ->. rewrite lookup_delete. by repeat case_decide; subst.
    + rewrite lookup_insert. by repeat case_decide; subst.
  - intros k t k'. rewrite lookup_delete. by repeat case_decide; subst.
  - intros t. apply (Common.is_array_be_fixed 32).
Qed.
#[export] Instance elements_order : MapOrder := fun X => elements X.
#[export] Instance elements_order_ok : MapOrderOk.
Proof. by intros X. Qed.

(** A signed payment to Bob's contract, whose sender has funds. *)
Definition block_tx : Transaction :=
  Tx.fresh {| Tx.AccountNonce := 0; Tx.Price := 2; Tx.GasLimit := 100000; Tx.Recipient := Some bob; Tx.Amount := 5;
              Tx.Payload := [1; 0; 2]; Tx.V := 27; Tx.R := 7; Tx.S := 9 |}.
Definition block_sender : Address :=
  match (Tx.Sender (Tx.MakeSigner (Some 1)) block_tx).1 with Done a => a | _ => [] end.
Definition block_state : db := db_AddBalance block_sender supply genesis.
Definition block_header (parent : Hash) (number : Z) : Types.Header :=
  {| Types.ParentHash := parent; Types.UncleHash := Common.zeroHash; Types.Coinbase := miner; Types.Root := Common.zeroHash;
     Types.TxHash := Common.zeroHash; Types.ReceiptHash := Common.zeroHash; Types.Bloom := zeros 256; Types.Difficulty := 5;
     Types.Number := number; Types.GasLimit := 1000000; Types.GasUsed := 0; Types.Time := 0; Types.Extra := [];
     Types.MixDigest := Common.zeroHash; Types.Nonce := zeros 8 |}.
Definition sample_block : Types.Block :=
  {| Types.header := block_header Common.zeroHash 9; Types.uncles := [block_header Common.zeroHash 7];
     Types.transactions := [block_tx] |}.

Lemma block_state_ok : state_ok (supply + supply) block_state.
Proof. exact (funds_ok supply block_sender supply genesis genesis_ok ltac:(by vm_compute)). Qed.

Lemma block_tx_ok : tx_ok (Z.to_nat 100001) block_tx.
Proof.
  split; [done|]. split; [apply (Common.is_array_be_fixed 20)|]. split; [by apply (bool_decide_unpack _)|].
  split_and!; try by vm_compute.
Qed.

Lemma Process_accounted_witness :
  match Process (Some 1) (fun _ _ => None) cfg0 (Z.to_nat 100001) sample_block block_state with
  | (Done (receipts, logs, used), p) =>
      receipts_ok 0 (Types.transactions sample_block) receipts /\ logs = concat (map Types.Logs receipts) /\
      used = gas_sum receipts /\ 0 <= used <= 1000000 /\ pr_pool p = 1000000 - used /\
      state_ok (supply + supply + block_rewards (Types.header sample_block) (Types.uncles sample_block)) (pr_state p)
  | (Error _, p) => state_ok (supply + supply) (pr_state p) /\ pr_pool p <= 1000000
  | _ => False
  end.
Proof.
  apply (Process_accounted (Some 1) (fun _ _ => None) cfg0 (Z.to_nat 100001) sample_block block_state (supply + supply)).
  - reflexivity.
  - apply (Common.is_array_be_fixed 20).
  - apply Forall_singleton, block_tx_ok.
  - by apply Forall_singleton.
  - by vm_compute.
  - apply block_state_ok.
  - by vm_compute.
Defined.
