(* ===== verification/VmTheorems.v ===== *)
(** The guarantees of the virtual machine, against the interface of the state
    database, with instances on the journalled one. *)
From S2P Require Import Prelude GoBig CommonMath CommonTypes Params VmTypes StateSpec VmGas.
From S2P Require Import VmLogic VmInstr VmSpec VmJumpTable VmInterp VmExec VmStep VmSafety.
From S2P Require Import StateDB StateDBLaws Concrete.
Import Math.

Section calls.
Context {S : Type} {DB : StateDB S} {CR : Crypto} {CK : CryptoOk} {SL : StateLaws S}.

(** C2: a message call with [gas] below [max_gas] returns (the recursion bound
    [gas + 1] is enough, so the machine terminates), never panics, and gives back at
    most [gas].  Balances stay non-negative and their sum within the supply; the
    call depth and every older snapshot are kept.  If the call fails the state is
    what it was, and the gas is consumed unless the call was refused at once. *)
Theorem Call_safe B (ctx : Context S) cfg fuel caller addr input gas value w
    (HB : B < 2 ^ 256) (Hctx : context_ok ctx) (Hcfg : DisableGasMetering cfg = false)
    (Hcaller : ref_ok caller) (Haddr : Common.is_array 20 addr)
    (Hinput : is_bytes input) (Hlen : zlen input < 2 ^ 63) (Hvalue : word value)
    (Hgas : 0 <= gas < max_gas) (Hfuel : gas < Z.of_nat fuel) (Hw : world_ok B w) :
  match Call ctx cfg fuel caller addr input gas value w with
  | (Done (ret, gleft, err), w') =>
      is_bytes ret /\ 0 <= gleft <= gas /\ world_ok B w' /\ depth w' = depth w /\
      keeps view inv w.(statedb) w'.(statedb) /\
      (err <> None -> view w'.(statedb) = view w.(statedb) /\ error_gas err gas gleft)
  | _ => False
  end.
Proof.
  pose proof (ok_Call _ _ _ (machine_ok B HB ctx cfg Hctx Hcfg fuel)
    caller addr input gas value w Hcaller Haddr Hinput Hlen ltac:(lia) Hvalue Hw) as H.
  unfold run_call in H. simpl in H. unfold Call.
  destruct (Call_with _ _ _ _ _ _ _ _ w) as [[[[ret gleft] err]| | |] w']; try done.
  destruct H as (?&?&?&Hl&?). split_and!; try done; try lia; [by eapply later_ok|apply Hl..].
Qed.

(** C12: [CALLCODE] and [DELEGATECALL] calls, which run foreign code on the
    caller's state, give the same guarantees; a delegate call never fails its
    assertion that the caller is a contract. *)
Theorem borrowed_code_safe B (ctx : Context S) cfg fuel caller addr input gas value w
    (HB : B < 2 ^ 256) (Hctx : context_ok ctx) (Hcfg : DisableGasMetering cfg = false)
    (Hcaller : ref_ok caller) (Hcontract : is_contract caller) (Haddr : Common.is_array 20 addr)
    (Hinput : is_bytes input) (Hlen : zlen input < 2 ^ 63) (Hvalue : word value)
    (Hgas : 0 <= gas < max_gas) (Hfuel : gas < Z.of_nat fuel) (Hw : world_ok B w) :
  let safe m :=
    match m w with
    | (Done (ret, gleft, err), w') =>
        is_bytes ret /\ 0 <= gleft <= gas /\ world_ok B w' /\ depth w' = depth w /\
        keeps view inv w.(statedb) w'.(statedb) /\
        (err <> None -> view w'.(statedb) = view w.(statedb) /\ error_gas err gas gleft)
    | _ => False
    end in
  safe (CallCode ctx cfg fuel caller addr input gas value) /\
  safe (DelegateCall ctx cfg fuel caller addr input gas).
Proof.
  intros safe. assert (Hsafe : forall m, run_call B m gas w -> safe m).
  { intros m H. unfold run_call, safe in *. destruct (m w) as [[[[ret gleft] err]| | |] w']; try done.
    destruct H as (?&?&?&Hl&?). split_and!; try done; try lia; [by eapply later_ok|apply Hl..]. }
  pose proof (machine_ok B HB ctx cfg Hctx Hcfg fuel) as Hm. split; apply Hsafe.
  - apply (ok_CallCode _ _ _ Hm); try done. lia.
  - apply (ok_DelegateCall _ _ _ Hm); try done. lia.
Qed.

(** C13: contract creation returns under the same bounds.  If it fails for any
    reason but missing gas for the code storage, the only change left is the raised
    nonce of the creator. *)
Theorem Create_safe B (ctx : Context S) cfg fuel caller code gas value w
    (HB : B < 2 ^ 256) (Hctx : context_ok ctx) (Hcfg : DisableGasMetering cfg = false)
    (Hcaller : ref_ok caller) (Hcode : is_bytes code) (Hlen : zlen code < 2 ^ 63)
    (Hvalue : word value) (Hgas : 0 <= gas < max_gas) (Hfuel : gas < Z.of_nat fuel)
    (Hw : world_ok B w) :
  match Create ctx cfg fuel caller code gas value w with
  | (Done (ret, addr, gleft, err), w') =>
      is_bytes ret /\ Common.is_array 20 addr /\ 0 <= gleft <= gas /\ world_ok B w' /\
      depth w' = depth w /\ keeps view inv w.(statedb) w'.(statedb) /\
      create_undone (ref_Address caller) err w w'
  | _ => False
  end.
Proof.
  pose proof (ok_Create _ _ _ (machine_ok B HB ctx cfg Hctx Hcfg fuel)
    caller code gas value w Hcaller Hcode Hlen ltac:(lia) Hvalue Hw) as H.
  unfold run_create in H. simpl in H. unfold Create.
  destruct (Create_with _ _ _ _ _ _ _ w) as [[[[[ret addr] gleft] err]| | |] w']; try done.
  destruct H as (?&?&?&Hl&?). split_and!; try done; try lia; [by eapply later_ok|apply Hl..].
Qed.

(** C14: one iteration of the interpreter, for every opcode: it never panics;
    afterwards the stack holds words and at most 1024 of them, memory is paid for,
    the program counter is a 64-bit number, and the world is well-formed.  Going on
    costs gas, so the loop ends. *)
Theorem step_safe B (ctx : Context S) cfg fuel G f
    (HB : B < 2 ^ 256) (Hctx : context_ok ctx) (Hcfg : DisableGasMetering cfg = false)
    (HG : G < max_gas) (Hf : frame_ok B G f) (Hfuel : f.(contract).(Gas) < Z.of_nat fuel) :
  match step ctx cfg (calls_with ctx cfg (Run ctx cfg fuel)) f with
  | (Done None, f') => frame_ok B G f' /\ f'.(contract).(Gas) < f.(contract).(Gas)
  | (Done (Some ret), f') => frame_ok B G f' /\ f'.(contract).(Gas) <= f.(contract).(Gas) /\ is_bytes ret
  | (Error _, f') => 0 <= f'.(contract).(Gas) <= f.(contract).(Gas) /\ world_ok B f'.(world)
  | _ => False
  end.
Proof.
  assert (Hw : world_ok B (world f)) by (by destruct Hf as (?&?&?&?&?&?&?)).
  assert (Hgas : Gas (contract f) < max_gas).
  { destruct Hf as (?&?&?&?&?&?&?&?&?). unfold max_gas in *. lia. }
  assert (Hcalls : calls_ok B (Gas (contract f)) (calls_with ctx cfg (Run ctx cfg fuel))).
  { apply (calls_with_ok B HB ctx cfg Hctx Hcfg (Z.min (Z.of_nat fuel) max_gas)); [|lia|lia].
    eapply run_ok_mono; [|by apply Run_ok]. lia. }
  pose proof (step_ok B HB ctx cfg Hctx Hcfg G _ f HG Hf Hcalls) as H. unfold wp in H.
  destruct (step _ _ _ f) as [[[ret|]|e| |] f']; try done.
  - destruct H as (?&?&?&?&?). by split_and!.
  - destruct H as (?&?&?&?). by split_and!.
  - destruct H as (?&Hl). split; [done|]. by eapply later_ok.
Qed.

End calls.

(** ** Instances *)

Lemma alice_ok : ref_ok (AccountRef alice).
Proof. apply (Common.is_array_be_fixed 20). Qed.
Lemma bob_ok : Common.is_array 20 bob.
Proof. apply (Common.is_array_be_fixed 20). Qed.

(** Alice calls Bob with 5 units of value and 100000 gas. *)
Lemma Call_safe_witness :
  match Call ctx0 cfg0 (Z.to_nat 100001) (AccountRef alice) bob [1; 2] 100000 5 world0 with
  | (Done (ret, gleft, err), w') =>
      is_bytes ret /\ 0 <= gleft <= 100000 /\ world_ok supply w' /\ depth w' = depth world0 /\
      keeps view inv world0.(statedb) w'.(statedb) /\
      (err <> None -> view w'.(statedb) = view world0.(statedb) /\ error_gas err 100000 gleft)
  | _ => False
  end.
Proof.
  apply (Call_safe supply ctx0 cfg0).
  - by vm_compute.
  - exact ctx0_ok.
  - reflexivity.
  - exact alice_ok.
  - exact bob_ok.
  - by apply (bool_decide_unpack _).
  - by vm_compute.
  - unfold word. lia.
  - unfold max_gas. lia.
  - lia.
  - exact world0_ok.
Defined.

Lemma borrowed_code_safe_witness :
  let caller := ContractPtr alice alice 0 in
  let safe (m : WM db (bytes * Z * option vmerror)) :=
    match m world0 with
    | (Done (ret, gleft, err), w') =>
        is_bytes ret /\ 0 <= gleft <= 50000 /\ world_ok supply w' /\ depth w' = depth world0 /\
        keeps view inv world0.(statedb) w'.(statedb) /\
        (err <> None -> view w'.(statedb) = view world0.(statedb) /\ error_gas err 50000 gleft)
    | _ => False
    end in
  safe (CallCode ctx0 cfg0 (Z.to_nat 50001) caller bob [] 50000 7) /\
  safe (DelegateCall ctx0 cfg0 (Z.to_nat 50001) caller bob [] 50000).
Proof.
  intros caller. apply (borrowed_code_safe supply ctx0 cfg0).
  - by vm_compute.
  - exact ctx0_ok.
  - reflexivity.
  - split_and!; [apply alice_ok|apply alice_ok|unfold word; lia].
  - exact I.
  - exact bob_ok.
  - apply Forall_nil_2.
  - by vm_compute.
  - unfold word. lia.
  - unfold max_gas. lia.
  - lia.
  - exact world0_ok.
Defined.

(** Creating a contract whose code is the two zero bytes [RETURN(0, 2)]. *)
Lemma Create_safe_witness :
  match Create ctx0 cfg0 (Z.to_nat 90001) (AccountRef alice) [0x60; 2; 0x60; 0; 0xf3] 90000 1 world0 with
  | (Done (ret, addr, gleft, err), w') =>
      is_bytes ret /\ Common.is_array 20 addr /\ 0 <= gleft <= 90000 /\ world_ok supply w' /\
      depth w' = depth world0 /\ keeps view inv world0.(statedb) w'.(statedb) /\
      create_undone (ref_Address (AccountRef alice)) err world0 w'
  | _ => False
  end.
Proof.
  apply (Create_safe supply ctx0 cfg0).
  - by vm_compute.
  - exact ctx0_ok.
  - reflexivity.
  - exact alice_ok.
  - by apply (bool_decide_unpack _).
  - by vm_compute.
  - unfold word. lia.
  - unfold max_gas. lia.
  - lia.
  - exact world0_ok.
Defined.

(** Bob's contract about to run with 1000 gas. *)
Definition frame0 : Frame db :=
  Build_Frame 0 (SetCallCode (NewContract (AccountRef alice) bob 5 1000) bob [] bob_code)
    Memory.NewMemory [] world0.

Lemma frame0_ok : frame_ok supply 1000 frame0.
Proof.
  split; [apply Forall_nil_2|]. split; [by vm_compute|]. split.
  { split; [by apply (bool_decide_unpack _)|]. split; [by vm_compute|].
    split; [apply Forall_nil_2|]. split; [by vm_compute|]. split; [exact bob_ok|].
    split; [exact alice_ok|]. simpl. unfold word. lia. }
  split; [apply Forall_nil_2|]. split; [simpl; lia|]. split; [exact world0_ok|].
  by vm_compute.
Qed.

Lemma step_safe_witness :
  match step ctx0 cfg0 (calls_with ctx0 cfg0 (Run ctx0 cfg0 (Z.to_nat 1001))) frame0 with
  | (Done None, f') =>
      frame_ok supply 1000 f' /\ f'.(contract).(Gas) < frame0.(contract).(Gas)
  | (Done (Some ret), f') =>
      frame_ok supply 1000 f' /\ f'.(contract).(Gas) <= frame0.(contract).(Gas) /\ is_bytes ret
  | (Error _, f') => 0 <= f'.(contract).(Gas) <= frame0.(contract).(Gas) /\ world_ok supply f'.(world)
  | _ => False
  end.
Proof.
  apply (step_safe supply ctx0 cfg0).
  - by vm_compute.
  - exact ctx0_ok.
  - reflexivity.
  - unfold max_gas. lia.
  - exact frame0_ok.
  - simpl. lia.
Defined.


(** ** Deviations *)

(** Init code returning one byte more than [MaxCodeSize]. *)
Definition oversize_code : bytes := [0x61; 0x60; 0x01; 0x60; 0; 0xf3].

(** A creation whose code exceeds [MaxCodeSize] is rolled back and loses
    its gas, and still reports success: the error is nil and the address is that of
    an account that does not exist, which [CREATE] then pushes. *)
Lemma oversize_create_reports_success :
  match Create ctx0 cfg0 10 (AccountRef alice) oversize_code 1000000 1 world0 with
  | (Done (ret, addr, gleft, err), w') =>
      ret = [] /\ gleft = 0 /\ err = None /\ addr <> Common.zeroAddress /\
      fst (Exist addr w'.(statedb)) = false
  | _ => False
  end.
Proof. vm_compute. by split_and!. Qed.

(** A valid looking call of the signature contract, with one byte too many. *)
Definition ecrecover_input : bytes :=
  zeros 32 ++ Big.be_fixed 32 28 ++ Big.be_fixed 32 5 ++ Big.be_fixed 32 6 ++ [0xaa].

(** The signature precompile writes to its input: byte 128 of a longer input
    is overwritten with the recovery bit. *)
Lemma ecrecover_overwrites_input :
  zget ecrecover_input 128 = Some 0xaa /\
  match ecrecover_Run ecrecover_input with
  | Some (ret, input') => zlen ret = 32 /\ zget input' 128 = Some 1
  | None => False
  end.
Proof. by vm_compute. Qed.
